(* ===== verification/_CoqProject ===== *)
-Q . S2P
Prelude.v
Klist.v
KlistSpec.v
KlistSort.v
Bitmap.v
Khash.v
Arith64.v
Vaddr.v
Palloc.v
Malloc.v
Pagedir.v
Thread.v
Synch.v
Kstring.v
Kstdlib.v
Krandom.v
Kstdio.v
Ustar.v
Intq.v
Args.v
Block.v
Partition.v
Init.v
Gdt.v
Interrupt.v
Ide.v
Timer.v
Rtc.v
Serial.v
Kbd.v
Inode.v
FreeMap.v
Filesys.v
FsDisk.v
FsInv.v
FsDir.v
FsCore.v
FsFiles.v
FsNames.v
FsSpec.v
FsMount.v
FsTheorems.v
Fsutil.v
Vm.v
VmSpec.v
VmTheorems.v
VmSwap.v
VmEvict.v
VmPaging.v
Elf.v
UserMem.v
Syscall.v
SyscallSpec.v
SyscallTheorems.v
