(* ===== verification/Prelude.v ===== *)
(** * A verification development for the Pintos kernel of this repository

    Pintos is a small operating system for the i386, written in C; this
    repository adds user programs, system calls and virtual memory to it.  The
    development models the kernel function by function and proves what makes its
    parts correct, and, where they are not, what goes wrong.  Paths are relative
    to the root of the repository.

    ** How C is modelled

    A function that changes state is a program of the monad [M S A] of this
    file: it takes a state of type [S] and either returns a value and a new
    state or stops with a [fault] (a failed [ASSERT], a [PANIC], a pointer to no
    object, a divide error).  Each component has its own state, a record of the
    variables and objects that its functions share.  Pointers are addresses,
    [NULL] is 0, and shared objects live in finite maps from addresses, so that
    aliasing is that of the code.  Integers are of type [Z], and the places
    where the code wraps, truncates or reads a sign are written out with
    [wrap] and [swrap] ([u8], [u32], [s32], ...).  [ASSERT]s are kept.  What an
    allocation returns, what the stack held before and other answers of the
    environment are arguments or part of the state, so that theorems hold for
    all of them.  Callbacks are parameters.

    [wp m Q s] is total correctness: [m] run in [s] ends without a fault in a
    result that satisfies [Q].  A C loop is [loop fuel turn], whose fuel is given
    where the function is defined, as a bound computed from the state or the
    arguments (the number of bits of a bitmap, of elements of a list, of pages
    of a segment, of frames); running out of it is the fault [NoFuel], and since
    [wp] excludes every fault each theorem that uses [wp] also shows that the
    fuel is enough.  [wp_loop] is the rule for loops.

    ** The parts of the kernel and their files

    - Data structures (src/lib/kernel): Klist, KlistSpec and KlistSort are
      list.c, on a heap of links; Khash is hash.c; Bitmap is bitmap.c.  The
      theorems are refinements: each run of operations does what the same run
      does on sequences, finite sets and arrays of bits, and leaves other lists
      alone; sorting sorts and is stable in what it compares.
    - Library (src/lib): Arith64 is arithmetic.c, 64-bit division with the DIV
      instruction and its fault; Kstring is string.c over a byte memory; Kstdlib
      is stdlib.c; Krandom is random.c; Kstdio is stdio.c and the console of
      src/lib/kernel/console.c; Ustar is ustar.c.
    - Memory: Vaddr is src/threads/vaddr.h and pte.h; Palloc is
      src/threads/palloc.c, two pools of pages over Bitmap; Pagedir is
      src/userprog/pagedir.c with the TLB, over Palloc.  The theorems: blocks
      that are allocated never overlap, mapping a page changes that page of that
      process only, and the TLB never has a stale entry.
    - Threads: Thread and Synch are src/threads/thread.c and synch.c, with
      [process_wait] and [exit] of src/userprog.  Threads execute lists of atomic
      actions, any of which the timer may interrupt; [step] is one event and
      [run] any sequence of them, so that the theorems (one running thread,
      mutual exclusion, no lost wakeup, the kernel stops only when misused) hold
      for every interleaving.  Intq is src/devices/intq.c, a queue shared with
      interrupt handlers.
    - File system: Block is src/devices/block.c; Inode, FreeMap and Filesys are
      src/filesys (inode.c, file.c, free-map.c, directory.c, filesys.c), over one
      state.  FsDisk to FsNames prove the invariant that ties the disk, the free
      map, the directory and the open files together; FsSpec says what the file
      system promises, a finite map of files and open handles; FsMount and
      FsTheorems prove that every operation keeps this promise, that a file
      system survives a shutdown, and two ways in which it is damaged.
    - Processes: Args is how src/userprog/process.c brings the command line to
      the stack of a new process; Elf is how it loads an executable, over Vm and
      the file system.
    - Virtual memory: Vm is src/vm (frame.c, page.c, swap.c) and [page_fault] of
      src/userprog/exception.c, over the file system and an interface to page
      directories, [Paging], with the laws [PagingLaws] (VmSpec).  VmTheorems
      proves that faults keep processes apart while a frame is empty, VmSwap and
      VmEvict what the clock and the swap device do, and VmPaging instantiates
      the interface with Pagedir, runs a small machine, and shows two ways in
      which eviction loses or shares a page.

    Each file begins with what it holds; theorems that a comment marks with C and
    a number are the main results, and other theorems and lemmas support them.
    Where a theorem has hypotheses, a lemma named after it with [_witness]
    applies it to a concrete state.

    ** What is not modelled

    - The drivers of the hardware (src/devices: ide, kbd, serial, vga, timer,
      pit, rtc, speaker, shutdown, input, partition) and src/threads/interrupt.c:
      they are port accesses and interrupt frames.  Interrupts appear as the
      timer events of Synch and the handlers of Intq, disks as the arrays of
      sectors of Block.
    - Assembly (the loader, start-up code, context switch, interrupt stubs) and
      the start of the kernel (src/threads/init.c), which runs once.
    - src/threads/malloc.c: [malloc] and [calloc] are answers that may be null.
    - src/userprog: the dispatch of system calls (syscall.c), the descriptor
      tables (gdt.c, tss.c), and the parts of process.c and exception.c that
      activate page directories, tear a process down or print.
    - User programs, tests and utilities: src/lib/user, src/examples, src/tests,
      src/utils.

    The order and lists of Thread and the buckets of Khash are sequences, which
    Klist justifies, and the supplemental page table of Vm is a finite map, which
    Khash justifies; the components use each other's results in these forms. *)

From stdpp Require Export base tactics list numbers gmap.
From Stdlib Require Export ZArith Lia.

#[global] Open Scope Z_scope.

(** ** Outcomes

    C code either returns or stops: an [ASSERT] fails, [PANIC] is reached, a
    pointer that designates no object is dereferenced, or the CPU raises a
    divide error.  [NoFuel] is not an outcome of the C code: it is the value a
    bounded loop of the model takes when the bound is too small, and the
    total-correctness theorems exclude it like the other faults. *)
Inductive fault :=
  | AssertFail
  | PanicHalt
  | BadPointer
  | DivideError
  | NoFuel.

Inductive result (A : Type) :=
  | Ok (a : A)
  | Err (f : fault).
Arguments Ok {A} _.
Arguments Err {A} _.

#[export] Instance fault_eq_dec : EqDecision fault.
Proof. solve_decision. Defined.

#[export] Instance result_ret : MRet result := fun A a => Ok a.
#[export] Instance result_bind : MBind result := fun A B f m =>
  match m with Ok a => f a | Err e => Err e end.

(** ** The state and fault monad of the components *)
Definition M (S A : Type) := S -> result (A * S).

#[export] Instance M_ret {S} : MRet (M S) := fun A a s => Ok (a, s).
#[export] Instance M_bind {S} : MBind (M S) := fun A B f m s =>
  match m s with Ok (a, s') => f a s' | Err e => Err e end.

#[export] Instance M_fmap {S} : FMap (M S) := fun A B f m =>
  mbind (M := M S) (fun a => mret (M := M S) (f a)) m.

Definition fail {S A} (e : fault) : M S A := fun _ => Err e.
Definition get {S} : M S S := fun s => Ok (s, s).
Definition put {S} (s : S) : M S unit := fun _ => Ok (tt, s).
Definition gets {S A} (f : S -> A) : M S A := fun s => Ok (f s, s).
Definition modify {S} (f : S -> S) : M S unit := fun s => Ok (tt, f s).
(** [ASSERT (b)]. *)
Definition assert {S} (b : bool) : M S unit := fun s =>
  if b then Ok (tt, s) else Err AssertFail.

(** A C loop: [step] runs one iteration from the loop's local variables and
    either continues with new values ([inl]) or leaves the loop ([inr]). *)
Fixpoint loop {S A B} (fuel : nat) (step : A -> M S (A + B)) (a : A) : M S B :=
  match fuel with
  | O => fail NoFuel
  | Datatypes.S n => r ← step a; match r with inl a' => loop n step a' | inr b => mret b end
  end.

(** [for (i = start; i < start + cnt; i++) body (i)]. *)
Fixpoint for_ {S} (cnt : nat) (i : Z) (body : Z -> M S unit) : M S unit :=
  match cnt with
  | O => mret ()
  | Datatypes.S n => body i;; for_ n (i + 1) body
  end.

(** The same with an accumulator. *)
Fixpoint for_acc {S A} (cnt : nat) (i : Z) (acc : A) (body : Z -> A -> M S A) : M S A :=
  match cnt with
  | O => mret acc
  | Datatypes.S n => a ← body i acc; for_acc n (i + 1) a body
  end.

(** ** Total correctness

    [wp m Q s]: [m] started in [s] returns, without any fault, a value and a
    state that satisfy [Q]. *)
Definition wp {S A} (m : M S A) (Q : A -> S -> Prop) (s : S) : Prop :=
  match m s with Ok (a, s') => Q a s' | Err _ => False end.

Section wp_rules.
Context {S : Type}.

Lemma wp_iff {A} (m : M S A) Q s :
  wp m Q s <-> exists a s', m s = Ok (a, s') /\ Q a s'.
Proof.
  unfold wp. destruct (m s) as [[a s']|e]; split.
  - intros HQ. exists a, s'. auto.
  - intros (a' & s'' & [= <- <-] & HQ). exact HQ.
  - intros [].
  - intros (a' & s'' & [=] & _).
Qed.

Lemma wp_ret {A} (a : A) (Q : A -> S -> Prop) s : Q a s -> wp (mret a) Q s.
Proof. exact id. Qed.

Lemma wp_bind {A B} (m : M S A) (f : A -> M S B) Q s :
  wp m (fun a s' => wp (f a) Q s') s -> wp (mbind f m) Q s.
Proof. unfold wp, mbind, M_bind. by destruct (m s) as [[a s']|e]. Qed.

Lemma wp_fmap {A B} (f : A -> B) (m : M S A) Q s :
  wp m (fun a s' => Q (f a) s') s -> wp (fmap f m) Q s.
Proof. intros H. unfold fmap, M_fmap. by apply wp_bind. Qed.

Lemma wp_bind_assoc {A B C} (m : M S A) (f : A -> M S B) (g : B -> M S C) Q s :
  wp (mbind f m) (fun b s' => wp (g b) Q s') s -> wp (mbind (fun a => mbind g (f a)) m) Q s.
Proof.
  unfold wp, mbind, M_bind. destruct (m s) as [[a s']|e]; [|done].
  by destruct (f a s') as [[b s'']|e].
Qed.

Lemma wp_mono {A} (m : M S A) (P Q : A -> S -> Prop) s :
  wp m P s -> (forall a s', P a s' -> Q a s') -> wp m Q s.
Proof. unfold wp. destruct (m s) as [[a s']|e]; auto. Qed.

(** A computation known to return. *)
Lemma wp_eq {A} (m : M S A) (Q : A -> S -> Prop) s a s' : m s = Ok (a, s') -> Q a s' -> wp m Q s.
Proof. unfold wp. by intros ->. Qed.

Lemma wp_bind_ret {A B} (m : M S A) (f : A -> B) (Q : B -> S -> Prop) s :
  wp (x ← m; mret (f x)) Q s -> wp m (fun x => Q (f x)) s.
Proof. unfold wp, mbind, M_bind. by destruct (m s) as [[]|]. Qed.

(** Running a computation step by step. *)
Lemma bind_eq {A B} (m : M S A) (f : A -> M S B) s a s' : m s = Ok (a, s') -> mbind f m s = f a s'.
Proof. unfold mbind, M_bind. by intros ->. Qed.

Lemma bind_err {A B} (m : M S A) (f : A -> M S B) s e : m s = Err e -> mbind f m s = Err e.
Proof. unfold mbind, M_bind. by intros ->. Qed.

Lemma wp_get (Q : S -> S -> Prop) s : Q s s -> wp get Q s.
Proof. exact id. Qed.

Lemma wp_put s' (Q : unit -> S -> Prop) s : Q tt s' -> wp (put s') Q s.
Proof. exact id. Qed.

Lemma wp_gets {A} (f : S -> A) (Q : A -> S -> Prop) s : Q (f s) s -> wp (gets f) Q s.
Proof. exact id. Qed.

Lemma wp_modify f (Q : unit -> S -> Prop) s : Q tt (f s) -> wp (modify f) Q s.
Proof. exact id. Qed.

Lemma wp_assert b (Q : unit -> S -> Prop) s : b = true -> Q tt s -> wp (assert b) Q s.
Proof. by intros ->. Qed.

(** [I n a s]: the loop invariant, with [n] a bound on the iterations left. *)
Lemma wp_loop {A B} (I : nat -> A -> S -> Prop) (step : A -> M S (A + B)) (Q : B -> S -> Prop) :
  (forall n a s, I n a s -> wp (step a) (fun r s' =>
     match r with
     | inl a' => exists m, (m < n)%nat /\ I m a' s'
     | inr b => Q b s'
     end) s) ->
  forall n fuel a s, I n a s -> (n < fuel)%nat -> wp (loop fuel step a) Q s.
Proof.
  intros Hstep n fuel. revert n. induction fuel as [|k IH]; intros n a s HI Hn; [lia|].
  simpl. apply wp_bind. eapply wp_mono; [by eapply Hstep|].
  intros [a'|b] s' Hr; simpl in Hr.
  - destruct Hr as (m & Hm & HI'). eapply IH; [exact HI'|lia].
  - by apply wp_ret.
Qed.

(** [I i] holds before the iteration with counter [i]. *)
Lemma wp_for (I : Z -> S -> Prop) (body : Z -> M S unit) start cnt :
  (forall i s, start <= i < start + Z.of_nat cnt -> I i s ->
     wp (body i) (fun _ s' => I (i + 1) s') s) ->
  forall s, I start s -> wp (for_ cnt start body) (fun _ s' => I (start + Z.of_nat cnt) s') s.
Proof.
  revert start. induction cnt as [|n IH]; intros start Hbody s HI; simpl.
  - apply wp_ret. by rewrite Z.add_0_r.
  - apply wp_bind. eapply wp_mono; [apply Hbody; [lia|done]|].
    intros ? s' HI'. rewrite Nat2Z.inj_succ, <- Z.add_1_l, Z.add_assoc.
    apply IH; [|done]. intros i t Hi. apply Hbody. lia.
Qed.

Lemma wp_for_acc {A} (I : Z -> A -> S -> Prop) (body : Z -> A -> M S A) start cnt :
  (forall i a s, start <= i < start + Z.of_nat cnt -> I i a s ->
     wp (body i a) (fun a' s' => I (i + 1) a' s') s) ->
  forall a s, I start a s ->
  wp (for_acc cnt start a body) (fun a' s' => I (start + Z.of_nat cnt) a' s') s.
Proof.
  revert start. induction cnt as [|n IH]; intros start Hbody a s HI; simpl.
  - apply wp_ret. by rewrite Z.add_0_r.
  - apply wp_bind. eapply wp_mono; [apply Hbody; [lia|done]|].
    intros a' s' HI'. rewrite Nat2Z.inj_succ, <- Z.add_1_l, Z.add_assoc.
    apply IH; [|done]. intros i b t Hi. apply Hbody. lia.
Qed.
End wp_rules.

(** One step through a monadic program: a bind, a return, a state access, a
    store or an assertion whose condition is closed by [done] or [lia]. *)
Ltac wp_step :=
  lazymatch goal with
  | |- wp (mbind _ _) _ _ => apply wp_bind
  | |- wp (mret _) _ _ => apply wp_ret
  | |- wp get _ _ => apply wp_get
  | |- wp (put _) _ _ => apply wp_put
  | |- wp (gets _) _ _ => apply wp_gets
  | |- wp (modify _) _ _ => apply wp_modify
  | |- wp (assert _) _ _ => apply wp_assert; [first [done | lia | idtac]|]
  end.

(** The next command is a store (or a read) whose effect on the assertion [H]
    about the current state is given by [lem]. *)
Ltac wp_bind_maybe :=
  lazymatch goal with |- wp (mbind _ _) _ _ => apply wp_bind | _ => idtac end.
Tactic Notation "wp_upd" uconstr(lem) "with" hyp(H) :=
  wp_bind_maybe; eapply wp_mono; [eapply lem; exact H|]; clear H; intros ? ? H; cbv beta in H.
Tactic Notation "wp_read" uconstr(lem) "with" hyp(H) :=
  wp_bind_maybe; eapply wp_eq; [eapply lem; exact H|].

(** ** Machine integers

    Integers are [Z]; an operation that can leave its C type is followed by
    the reduction of that type. *)
Definition wrap (w z : Z) : Z := z mod 2 ^ w.
Abbreviation u8 := (wrap 8).
Abbreviation u16 := (wrap 16).
Abbreviation u32 := (wrap 32).
Abbreviation u64 := (wrap 64).
(** Two's complement reading of the low [w] bits. *)
Definition swrap (w z : Z) : Z := (z + 2 ^ (w - 1)) mod 2 ^ w - 2 ^ (w - 1).
Abbreviation s32 := (swrap 32).
Abbreviation s64 := (swrap 64).

Lemma wrap_range w z : 0 <= w -> 0 <= wrap w z < 2 ^ w.
Proof. intros Hw. apply Z.mod_pos_bound. lia. Qed.

Lemma wrap_small w z : 0 <= z < 2 ^ w -> wrap w z = z.
Proof. apply Z.mod_small. Qed.

Lemma wrap_wrap w z : 0 <= w -> wrap w (wrap w z) = wrap w z.
Proof. intros Hw. apply Z.mod_mod. lia. Qed.

Lemma swrap_small w z : 0 < w -> - 2 ^ (w - 1) <= z < 2 ^ (w - 1) -> swrap w z = z.
Proof.
  intros Hw Hz. unfold swrap.
  assert (2 ^ w = 2 * 2 ^ (w - 1)) as Hp.
  { rewrite <- Z.pow_succ_r by lia. f_equal. lia. }
  rewrite Z.mod_small; lia.
Qed.

Lemma swrap_add w a b : 0 < w -> swrap w (swrap w a + b) = swrap w (a + b).
Proof.
  intros Hw. unfold swrap. f_equal. rewrite <- (Zplus_mod_idemp_l (a + b)).
  replace ((a + 2 ^ (w - 1)) mod 2 ^ w - 2 ^ (w - 1) + b + 2 ^ (w - 1)) with ((a + 2 ^ (w - 1)) mod 2 ^ w + b) by lia.
  rewrite !Zplus_mod_idemp_l. f_equal. lia.
Qed.

(** Bits of machine words. *)
Lemma testbit_wrap w z n : 0 <= w -> 0 <= n -> Z.testbit (wrap w z) n = (n <? w) && Z.testbit z n.
Proof.
  intros Hw Hn. unfold wrap. destruct (Z.ltb_spec n w); simpl.
  - by apply Z.mod_pow2_bits_low.
  - by apply Z.mod_pow2_bits_high.
Qed.

Lemma range_iff_wrap w z : 0 <= w -> 0 <= z < 2 ^ w <-> wrap w z = z.
Proof. intros Hw. split; [apply wrap_small|]. intros <-. by apply wrap_range. Qed.

Lemma land_range w a b : 0 <= w -> 0 <= a < 2 ^ w -> 0 <= Z.land a b < 2 ^ w.
Proof.
  intros Hw Ha. apply range_iff_wrap; [done|]. apply Z.bits_inj'. intros n Hn.
  apply range_iff_wrap in Ha; [|done]. rewrite <- Ha.
  rewrite !testbit_wrap, !Z.land_spec, !testbit_wrap by done. by destruct (n <? w).
Qed.

Lemma lor_range w a b :
  0 <= w -> 0 <= a < 2 ^ w -> 0 <= b < 2 ^ w -> 0 <= Z.lor a b < 2 ^ w.
Proof.
  intros Hw Ha Hb. apply range_iff_wrap; [done|]. apply Z.bits_inj'. intros n Hn.
  apply range_iff_wrap in Ha, Hb; [|done..]. rewrite <- Ha, <- Hb.
  rewrite !testbit_wrap, !Z.lor_spec, !testbit_wrap by done. by destruct (n <? w).
Qed.

Lemma lxor_range w a b :
  0 <= w -> 0 <= a < 2 ^ w -> 0 <= b < 2 ^ w -> 0 <= Z.lxor a b < 2 ^ w.
Proof.
  intros Hw Ha Hb. apply range_iff_wrap; [done|]. apply Z.bits_inj'. intros n Hn.
  apply range_iff_wrap in Ha, Hb; [|done..]. rewrite <- Ha, <- Hb.
  rewrite !testbit_wrap, !Z.lxor_spec, !testbit_wrap by done. by destruct (n <? w).
Qed.

Lemma testbit_pow2 k n : 0 <= k -> Z.testbit (2 ^ k) n = (k =? n).
Proof.
  intros Hk. destruct (Z.eqb_spec k n) as [<-|Hne].
  - by apply Z.pow2_bits_true.
  - by apply Z.pow2_bits_false.
Qed.

Lemma land_bit v k : 0 <= k -> Z.land v (2 ^ k) = if Z.testbit v k then 2 ^ k else 0.
Proof.
  intros Hk. apply Z.bits_inj'. intros n Hn. rewrite Z.land_spec. destruct (decide (n = k)) as [->|Hne].
  - rewrite Z.pow2_bits_true by done. destruct (Z.testbit v k); simpl; [by rewrite Z.pow2_bits_true|by rewrite Z.bits_0].
  - rewrite Z.pow2_bits_false, andb_false_r by done. destruct (Z.testbit v k); [by rewrite Z.pow2_bits_false|by rewrite Z.bits_0].
Qed.

Lemma land_bit_zero v k : 0 <= k -> (Z.land v (2 ^ k) =? 0) = negb (Z.testbit v k).
Proof.
  intros Hk. rewrite land_bit by done. pose proof (Z.pow_pos_nonneg 2 k ltac:(lia) Hk). destruct (Z.testbit v k); [apply Z.eqb_neq; lia|done].
Qed.

(** [DIV_ROUND_UP] and [ROUND_UP] of lib/round.h on [size_t] operands. *)
Definition DIV_ROUND_UP (x step : Z) : Z := u32 (x + step - 1) / step.
Definition ROUND_UP (x step : Z) : Z := u32 (u32 (x + step - 1) / step * step).

Lemma DIV_ROUND_UP_bounds x step :
  0 <= x -> 0 < step -> x + step <= 2 ^ 32 -> x <= step * DIV_ROUND_UP x step < x + step.
Proof.
  intros Hx Hs Hlt. unfold DIV_ROUND_UP. rewrite wrap_small by lia.
  pose proof (Z.div_mod (x + step - 1) step ltac:(lia)).
  pose proof (Z.mod_pos_bound (x + step - 1) step Hs). lia.
Qed.

(** Little-endian numbers in a list of bytes. *)
Definition byte_at (l : list Z) (i : nat) : Z := u8 (default 0 (l !! i)).
Definition half_at (l : list Z) (i : nat) : Z := byte_at l i + 2 ^ 8 * byte_at l (i + 1).
Definition word_at (l : list Z) (i : nat) : Z := half_at l i + 2 ^ 16 * half_at l (i + 2).

Lemma byte_at_range l i : 0 <= byte_at l i < 2 ^ 8.
Proof. apply wrap_range. lia. Qed.

Lemma half_at_range l i : 0 <= half_at l i < 2 ^ 16.
Proof. unfold half_at. pose proof (byte_at_range l i). pose proof (byte_at_range l (i + 1)). lia. Qed.

Lemma word_at_range l i : 0 <= word_at l i < 2 ^ 32.
Proof. unfold word_at. pose proof (half_at_range l i). pose proof (half_at_range l (i + 2)). lia. Qed.

Lemma filter_keep {A} (Q : A -> Prop) `{!forall x, Decision (Q x)} (l : list A) : (forall x, x ∈ l -> Q x) -> filter Q l = l.
Proof.
  induction l as [|x l IH]; intros Hl; [done|]. rewrite filter_cons_True by (apply Hl; set_solver). f_equal. apply IH. set_solver.
Qed.

Lemma filter_drop {A} (Q : A -> Prop) `{!forall x, Decision (Q x)} (l : list A) : (forall x, x ∈ l -> ~ Q x) -> filter Q l = [].
Proof. induction l as [|x l IH]; intros Hl; [done|]. rewrite filter_cons_False by (apply Hl; set_solver). apply IH. set_solver. Qed.

(** A check of every integer of a range. *)
Lemma forallb_seqZ (p : Z -> bool) a n x : forallb p (seqZ a n) = true -> a <= x < a + n -> p x = true.
Proof. intros C Hx. rewrite forallb_forall in C. apply C, list_elem_of_In, elem_of_seqZ, Hx. Qed.

Lemma elem_not_nil {A} (x : A) l : x ∈ l -> l <> [].
Proof. by intros Hx ->; apply elem_of_nil in Hx. Qed.

Lemma Z_to_nat_nonpos z : z <= 0 -> Z.to_nat z = 0%nat.
Proof. lia. Qed.

(** ** Arrays

    A C array is a list indexed by [Z]; an index outside the array reads
    nothing and, in the programs, is a bad pointer. *)
Declare Scope arr_scope.
Delimit Scope arr_scope with arr.

Definition aget {A} (l : list A) (i : Z) : option A :=
  if i <? 0 then None else l !! Z.to_nat i.
Definition aset {A} (l : list A) (i : Z) (x : A) : list A :=
  if i <? 0 then l else <[Z.to_nat i := x]> l.
Definition alen {A} (l : list A) : Z := Z.of_nat (length l).

Notation "l .[ i ]" := (aget l i) (at level 2, left associativity, format "l .[ i ]") : arr_scope.
Notation "l .[ i <- x ]" := (aset l i x)
  (at level 2, left associativity, format "l .[ i <- x ]") : arr_scope.
#[global] Open Scope arr_scope.

(** The value of an optional access, a bad pointer when there is none. *)
Definition deref {S A} (o : option A) : M S A :=
  match o with Some a => mret a | None => fail BadPointer end.

Create HintDb arr discriminated.

Section arrays.
Context {A : Type}.
Implicit Types (l : list A) (i j : Z).

Lemma alen_nonneg l : 0 <= alen l.
Proof. unfold alen. lia. Qed.

Lemma alen_aset l i x : alen l.[i <- x] = alen l.
Proof. unfold alen, aset. case_match; [done|]. by rewrite length_insert. Qed.

Lemma alen_app l k : alen (l ++ k) = alen l + alen k.
Proof. unfold alen. rewrite length_app. lia. Qed.

Lemma alen_cons x l : alen (x :: l) = alen l + 1.
Proof. unfold alen. simpl. lia. Qed.

Lemma aget_Some l i x : l.[i] = Some x <-> 0 <= i /\ l !! Z.to_nat i = Some x.
Proof. unfold aget. destruct (Z.ltb_spec i 0); split; naive_solver lia. Qed.

Lemma aget_lt l i x : l.[i] = Some x -> 0 <= i < alen l.
Proof. intros [? ?%lookup_lt_Some]%aget_Some. unfold alen. lia. Qed.

Lemma aget_is_Some l i : 0 <= i < alen l <-> exists x, l.[i] = Some x.
Proof.
  split; [|intros [x Hx]; by eapply aget_lt].
  unfold alen. intros Hi. destruct (lookup_lt_is_Some_2 l (Z.to_nat i)) as [x Hx]; [lia|].
  exists x. apply aget_Some. split; [lia|done].
Qed.

Lemma aget_None l i : l.[i] = None <-> i < 0 \/ alen l <= i.
Proof.
  pose proof (aget_is_Some l i) as Hs. destruct l.[i] as [x|] eqn:E.
  - apply aget_lt in E. split; [done|lia].
  - split; [|done]. intros _. destruct (decide (0 <= i < alen l)) as [Hi|]; [|lia].
    apply Hs in Hi. naive_solver.
Qed.

Lemma aget_aset_eq l i x : 0 <= i < alen l -> l.[i <- x].[i] = Some x.
Proof.
  unfold alen, aset. intros Hi. destruct (Z.ltb_spec i 0); [lia|].
  apply aget_Some. split; [lia|]. apply list_lookup_insert_eq. lia.
Qed.

Lemma aget_aset_ne l i j x : i <> j -> l.[i <- x].[j] = l.[j].
Proof.
  unfold aget, aset. intros Hij. destruct (Z.ltb_spec j 0), (Z.ltb_spec i 0); try done.
  apply list_lookup_insert_ne. lia.
Qed.

Lemma aget_aset l i j x :
  0 <= i < alen l -> l.[i <- x].[j] = if decide (i = j) then Some x else l.[j].
Proof. intros Hi. case_decide; [subst; by apply aget_aset_eq|by apply aget_aset_ne]. Qed.

Lemma aget_nat l (n : nat) : l.[Z.of_nat n] = l !! n.
Proof. unfold aget. destruct (Z.ltb_spec (Z.of_nat n) 0); [lia|]. by rewrite Nat2Z.id. Qed.

Lemma aget_app_l l k i : i < alen l -> (l ++ k).[i] = l.[i].
Proof.
  unfold aget, alen. intros Hi. destruct (Z.ltb_spec i 0); [done|]. apply lookup_app_l. lia.
Qed.

Lemma aget_app_r l k i : alen l <= i -> (l ++ k).[i] = k.[i - alen l].
Proof.
  intros Hi. pose proof (alen_nonneg l). unfold aget, alen in *.
  destruct (Z.ltb_spec i 0), (Z.ltb_spec (i - Z.of_nat (length l)) 0); try lia.
  rewrite lookup_app_r by lia. f_equal. lia.
Qed.

Lemma aset_id l i x : l.[i] = Some x -> l.[i <- x] = l.
Proof.
  intros [Hi Hx]%aget_Some. unfold aset. destruct (Z.ltb_spec i 0); [lia|].
  by apply list_insert_id.
Qed.

Lemma aset_aset l i x y : l.[i <- x].[i <- y] = l.[i <- y].
Proof. unfold aset. destruct (i <? 0); [done|]. by rewrite list_insert_insert_eq. Qed.

Lemma Forall_aset (P : A -> Prop) l i x : Forall P l -> P x -> Forall P l.[i <- x].
Proof. intros Hl Hx. unfold aset. case_match; [done|]. by apply Forall_insert. Qed.

Lemma Forall_aget (P : A -> Prop) l i x : Forall P l -> l.[i] = Some x -> P x.
Proof. intros Hl [_ Hx]%aget_Some. by eapply Forall_lookup_1. Qed.

Lemma alist_eq l k : alen l = alen k -> (forall i, 0 <= i < alen l -> l.[i] = k.[i]) -> l = k.
Proof.
  intros Hlen Hget. apply list_eq. intros n. destruct (decide (n < length l)%nat) as [Hn|Hn].
  - rewrite <- !aget_nat. apply Hget. unfold alen. lia.
  - unfold alen in Hlen. rewrite !lookup_ge_None_2; [done|lia|lia].
Qed.
End arrays.

Lemma wp_deref {S A} (o : option A) (a : A) (Q : A -> S -> Prop) s :
  o = Some a -> Q a s -> wp (deref o) Q s.
Proof. by intros ->. Qed.

#[export] Hint Resolve alen_nonneg Forall_aset : arr.
#[export] Hint Rewrite @alen_aset @alen_app @alen_cons : arr.

(** ** Counting the entries of a map *)
Definition mcount {A} (P : A -> bool) (m : gmap Z A) : nat :=
  size (filter (fun kv => P kv.2 = true) m).

Section mcount.
Context {A : Type} (P : A -> bool).
Implicit Type m : gmap Z A.

Lemma mcount_insert_new m k x :
  m !! k = None -> mcount P (<[k := x]> m) = (mcount P m + Nat.b2n (P x))%nat.
Proof.
  intros Hk. unfold mcount. rewrite map_filter_insert. destruct (P x) eqn:E; simpl.
  - rewrite decide_True by done. rewrite map_size_insert_None; [lia|].
    apply map_lookup_filter_None. by left.
  - rewrite decide_False by (simpl; congruence). rewrite delete_id by done. lia.
Qed.

Lemma mcount_delete m k x :
  m !! k = Some x -> (mcount P (delete k m) + Nat.b2n (P x))%nat = mcount P m.
Proof.
  intros Hk. rewrite <- (insert_delete_id m k x Hk) at 2.
  rewrite mcount_insert_new; [done|]. apply lookup_delete_eq.
Qed.

Lemma mcount_insert m k x y :
  m !! k = Some x -> (mcount P (<[k := y]> m) + Nat.b2n (P x) = mcount P m + Nat.b2n (P y))%nat.
Proof.
  intros Hk. rewrite <- (insert_delete_eq m k y). rewrite mcount_insert_new by apply lookup_delete_eq.
  rewrite <- (mcount_delete m k x Hk). lia.
Qed.

Lemma mcount_insert_same m k x y :
  m !! k = Some x -> P y = P x -> mcount P (<[k := y]> m) = mcount P m.
Proof. intros Hk E. pose proof (mcount_insert m k x y Hk) as H. rewrite E in H. lia. Qed.

Lemma mcount_pos m : (0 < mcount P m)%nat -> exists k x, m !! k = Some x /\ P x = true.
Proof.
  unfold mcount. intros Hp. destruct (map_choose (filter (fun kx => P kx.2 = true) m)) as (k & x & Hkx).
  { intros E. rewrite E, map_size_empty in Hp. lia. }
  apply map_lookup_filter_Some in Hkx as [? ?]. eauto.
Qed.
End mcount.

(** ** Lists made of blocks of the same size *)
Section blocks.
Context {A : Type} (sz : nat).
Implicit Types (es : list (list A)) (e l : list A).

Lemma concat_length es : Forall (fun e => length e = sz) es -> length (concat es) = (length es * sz)%nat.
Proof. induction 1 as [|e es He _ IH]; simpl; [done|]. rewrite length_app. lia. Qed.

Lemma concat_split es k e :
  Forall (fun e => length e = sz) es -> es !! k = Some e ->
  exists l r, concat es = l ++ e ++ r /\ length l = (k * sz)%nat /\
    forall e', concat (<[k := e']> es) = l ++ e' ++ r.
Proof.
  revert k. induction es as [|e0 es IH]; intros [|k] Hall; simpl; try done.
  - intros [= ->]. exists [], (concat es). done.
  - intros Hk. apply Forall_cons in Hall as [H0 Hall]. destruct (IH k Hall Hk) as (l & r & E & Hl & Hu).
    exists (e0 ++ l), r. rewrite E, length_app. split_and!; [by rewrite app_assoc|lia|].
    intros e'. by rewrite Hu, app_assoc.
Qed.
End blocks.

(** [memcpy (l + i, k, length k)]: [k] replaces the elements from [i] on. *)
Definition splice {A} (l : list A) (i : nat) (k : list A) : list A := take i l ++ k ++ drop (i + length k) l.
(** The [n] elements from [i] on. *)
Definition slice_of {A} (l : list A) (i n : nat) : list A := take n (drop i l).

Section splice.
Context {A : Type}.
Implicit Types (l k : list A).

Lemma splice_length l i k : (i + length k <= length l)%nat -> length (splice l i k) = length l.
Proof. intros H. unfold splice. rewrite !length_app, length_take, length_drop. lia. Qed.

Lemma splice_nil l i : splice l i [] = l.
Proof. unfold splice. simpl. rewrite Nat.add_0_r. apply take_drop. Qed.

Lemma splice_lookup l i k j :
  (i + length k <= length l)%nat ->
  splice l i k !! j = if decide (i <= j < i + length k)%nat then k !! (j - i)%nat else l !! j.
Proof.
  intros H. unfold splice. assert (length (take i l) = i) as Hi by (rewrite length_take; lia).
  destruct (decide (j < i)%nat).
  - rewrite decide_False by lia. rewrite lookup_app_l by lia. by apply lookup_take_lt.
  - rewrite lookup_app_r, Hi by lia. case_decide.
    + apply lookup_app_l. lia.
    + rewrite lookup_app_r, lookup_drop by lia. f_equal. lia.
Qed.

Lemma slice_of_lookup l i n j : (j < n)%nat -> slice_of l i n !! j = l !! (i + j)%nat.
Proof. intros H. unfold slice_of. by rewrite lookup_take_lt, lookup_drop. Qed.

Lemma slice_of_length l i n : (i + n <= length l)%nat -> length (slice_of l i n) = n.
Proof. intros H. unfold slice_of. rewrite length_take, length_drop. lia. Qed.

(** Splicing two adjacent parts one after the other. *)
Lemma splice_app l i k1 k2 :
  (i + length k1 + length k2 <= length l)%nat ->
  splice (splice l i k1) (i + length k1) k2 = splice l i (k1 ++ k2).
Proof.
  intros H. apply list_eq. intros j.
  rewrite !splice_lookup; rewrite ?splice_length, ?length_app; try lia.
  repeat case_decide; try lia; try done.
  - rewrite lookup_app_r by lia. f_equal. lia.
  - rewrite lookup_app_l by lia. done.
Qed.

Lemma slice_of_app l i n1 n2 : slice_of l i n1 ++ slice_of l (i + n1) n2 = slice_of l i (n1 + n2).
Proof.
  unfold slice_of. rewrite <- drop_drop. rewrite <- (take_drop n1 (take (n1 + n2) (drop i l))).
  rewrite take_take, Nat.min_l by lia. f_equal. rewrite <- (firstn_skipn_comm n2 n1). done.
Qed.

(** The part just written is read back. *)
Lemma slice_splice l i k : (i + length k <= length l)%nat -> slice_of (splice l i k) i (length k) = k.
Proof.
  intros H. apply list_eq. intros j. destruct (decide (j < length k)%nat).
  - rewrite slice_of_lookup, splice_lookup by lia. rewrite decide_True by lia. f_equal. lia.
  - rewrite !lookup_ge_None_2; [done|lia|]. rewrite slice_of_length; rewrite ?splice_length; lia.
Qed.

(** A part that lies in a block of the list. *)
Lemma slice_of_mid l e r i n :
  (i + n <= length e)%nat -> slice_of (l ++ e ++ r) (length l + i) n = slice_of e i n.
Proof.
  intros H. unfold slice_of. rewrite drop_app_ge, Nat.add_comm, Nat.add_sub by lia.
  rewrite drop_app_le, take_app_le; [done|rewrite length_drop; lia|lia].
Qed.

Lemma splice_mid l e r i k :
  (i + length k <= length e)%nat -> splice (l ++ e ++ r) (length l + i) k = l ++ splice e i k ++ r.
Proof.
  intros H. unfold splice. rewrite take_app_add', take_app_le by lia.
  rewrite <- Nat.add_assoc, drop_app_add', drop_app_le by lia. by rewrite !app_assoc.
Qed.
Lemma take_splice l i k m :
  (i + length k <= m)%nat -> (m <= length l)%nat -> take m (splice l i k) = splice (take m l) i k.
Proof.
  intros H1 H2. apply list_eq. intros j. destruct (decide (j < m)%nat).
  - rewrite lookup_take_lt, !splice_lookup by (rewrite ?length_take; lia). case_decide; [done|].
    by rewrite lookup_take_lt.
  - rewrite lookup_take_ge by lia. symmetry. apply lookup_ge_None_2. rewrite splice_length; rewrite length_take; lia.
Qed.

Lemma slice_take l i n m : (i + n <= m)%nat -> slice_of (take m l) i n = slice_of l i n.
Proof.
  intros H. apply list_eq. intros j. destruct (decide (j < n)%nat) as [Hj|Hj].
  - by rewrite !slice_of_lookup, lookup_take_lt by lia.
  - rewrite !lookup_ge_None_2; [done| |]; unfold slice_of; rewrite length_take; lia.
Qed.
End splice.
