(* ===== verification/Klist.v ===== *)
(** * lib/kernel/list.c: doubly linked lists with two header elements

    The heap maps the address of every [struct list_elem] to its two links.  A
    [struct list] at address [l] is its two header elements, [head] at [l] and
    [tail] at [l + 8] ([struct list_elem] is two 32-bit pointers).  Every
    function of list.c is a program over that heap; [is_list h l xs] relates a
    heap to the sequence of element addresses the list at [l] holds, and each
    operation is proved to implement the corresponding operation on sequences. *)

From S2P Require Import Prelude.

Record list_elem := ListElem { prev : Z; next : Z }.

Abbreviation heap := (gmap Z list_elem).

Definition NULL : Z := 0.
Definition SIZEOF_LIST_ELEM : Z := 8.

(** [&list->head] and [&list->tail]. *)
Definition head_of (l : Z) : Z := l.
Definition tail_of (l : Z) : Z := l + SIZEOF_LIST_ELEM.

(** The links as lvalues, so that [swap] takes pointers to them. *)
Inductive link :=
  | Prev (p : Z)
  | Next (p : Z).

Definition load (f : link) : M heap Z := fun h =>
  match f with
  | Prev p => match h !! p with Some n => Ok (prev n, h) | None => Err BadPointer end
  | Next p => match h !! p with Some n => Ok (next n, h) | None => Err BadPointer end
  end.

Definition store (f : link) (v : Z) : M heap unit := fun h =>
  match f with
  | Prev p => match h !! p with
              | Some n => Ok (tt, <[p := ListElem v (next n)]> h)
              | None => Err BadPointer
              end
  | Next p => match h !! p with
              | Some n => Ok (tt, <[p := ListElem (prev n) v]> h)
              | None => Err BadPointer
              end
  end.

Definition is_head (elem : Z) : M heap bool :=
  if elem =? NULL then mret false else
  p ← load (Prev elem);
  if negb (p =? NULL) then mret false else
  n ← load (Next elem);
  mret (negb (n =? NULL)).

Definition is_interior (elem : Z) : M heap bool :=
  if elem =? NULL then mret false else
  p ← load (Prev elem);
  if p =? NULL then mret false else
  n ← load (Next elem);
  mret (negb (n =? NULL)).

Definition is_tail (elem : Z) : M heap bool :=
  if elem =? NULL then mret false else
  p ← load (Prev elem);
  if p =? NULL then mret false else
  n ← load (Next elem);
  mret (n =? NULL).

(** [a || b] on effectful conditions: the second is evaluated only when the
    first is false. *)
Definition orM {S} (a b : M S bool) : M S bool :=
  x ← a; if x : bool then mret true else b.

Definition list_init (l : Z) : M heap unit :=
  assert (negb (l =? NULL));;
  store (Prev (head_of l)) NULL;;
  store (Next (head_of l)) (tail_of l);;
  store (Prev (tail_of l)) (head_of l);;
  store (Next (tail_of l)) NULL.

Definition list_begin (l : Z) : M heap Z :=
  assert (negb (l =? NULL));; load (Next (head_of l)).

Definition list_next (elem : Z) : M heap Z :=
  b ← orM (is_head elem) (is_interior elem);
  assert b;; load (Next elem).

Definition list_end (l : Z) : M heap Z :=
  assert (negb (l =? NULL));; mret (tail_of l).

Definition list_rbegin (l : Z) : M heap Z :=
  assert (negb (l =? NULL));; load (Prev (tail_of l)).

Definition list_prev (elem : Z) : M heap Z :=
  b ← orM (is_interior elem) (is_tail elem);
  assert b;; load (Prev elem).

Definition list_rend (l : Z) : M heap Z :=
  assert (negb (l =? NULL));; mret (head_of l).

Definition list_head (l : Z) : M heap Z :=
  assert (negb (l =? NULL));; mret (head_of l).

Definition list_tail (l : Z) : M heap Z :=
  assert (negb (l =? NULL));; mret (tail_of l).

Definition list_insert (before elem : Z) : M heap unit :=
  b ← orM (is_interior before) (is_tail before);
  assert b;;
  assert (negb (elem =? NULL));;
  bp ← load (Prev before);
  store (Prev elem) bp;;
  store (Next elem) before;;
  bp ← load (Prev before);
  store (Next bp) elem;;
  store (Prev before) elem.

Definition list_splice (before first last : Z) : M heap unit :=
  b ← orM (is_interior before) (is_tail before);
  assert b;;
  if first =? last then mret () else
  last ← list_prev last;
  b ← is_interior first; assert b;;
  b ← is_interior last; assert b;;
  (* Cleanly remove FIRST...LAST from its current list. *)
  fp ← load (Prev first); ln ← load (Next last); store (Next fp) ln;;
  ln ← load (Next last); fp ← load (Prev first); store (Prev ln) fp;;
  (* Splice FIRST...LAST into new list. *)
  bp ← load (Prev before); store (Prev first) bp;;
  store (Next last) before;;
  bp ← load (Prev before); store (Next bp) first;;
  store (Prev before) last.

Definition list_push_front (l elem : Z) : M heap unit :=
  b ← list_begin l; list_insert b elem.

Definition list_push_back (l elem : Z) : M heap unit :=
  e ← list_end l; list_insert e elem.

Definition list_remove (elem : Z) : M heap Z :=
  b ← is_interior elem; assert b;;
  p ← load (Prev elem); n ← load (Next elem); store (Next p) n;;
  n ← load (Next elem); p ← load (Prev elem); store (Prev n) p;;
  load (Next elem).

Definition list_empty (l : Z) : M heap bool :=
  b ← list_begin l; e ← list_end l; mret (b =? e).

Definition list_front (l : Z) : M heap Z :=
  b ← list_empty l; assert (negb b);; load (Next (head_of l)).

Definition list_back (l : Z) : M heap Z :=
  b ← list_empty l; assert (negb b);; load (Prev (tail_of l)).

Definition list_pop_front (l : Z) : M heap Z :=
  front ← list_front l; list_remove front;; mret front.

Definition list_pop_back (l : Z) : M heap Z :=
  back ← list_back l; list_remove back;; mret back.

(** [size_t cnt] is 32 bits wide. *)
Definition list_size (fuel : nat) (l : Z) : M heap Z :=
  e ← list_begin l;
  loop fuel (fun '(e, cnt) =>
    stop ← list_end l;
    if e =? stop then mret (inr cnt)
    else e' ← list_next e; mret (inl (e', u32 (cnt + 1)))) (e, 0).

Definition swap (a b : link) : M heap unit :=
  t ← load a; u ← load b; store a u;; store b t.

Definition list_reverse (fuel : nat) (l : Z) : M heap unit :=
  empty ← list_empty l;
  if empty : bool then mret () else
  e ← list_begin l;
  loop fuel (fun e =>
    stop ← list_end l;
    if e =? stop then mret (inr ())
    else swap (Prev e) (Next e);; e' ← load (Prev e); mret (inl e')) e;;
  swap (Next (head_of l)) (Prev (tail_of l));;
  hn ← load (Next (head_of l)); tp ← load (Prev (tail_of l));
  swap (Prev hn) (Next tp).

(** The functions that compare elements take the caller's [list_less_func],
    with its auxiliary data already supplied. *)
Section ordered.
  Context (less : Z -> Z -> bool).

Definition is_sorted (fuel : nat) (a b : Z) : M heap bool :=
  if a =? b then mret true else
  loop fuel (fun a =>
    a ← list_next a;
    if a =? b then mret (inr true) else
    p ← list_prev a;
    if less a p then mret (inr false) else mret (inl a)) a.

Definition find_end_of_run (fuel : nat) (a b : Z) : M heap Z :=
  assert (negb (a =? NULL));;
  assert (negb (b =? NULL));;
  assert (negb (a =? b));;
  loop fuel (fun a =>
    a ← list_next a;
    if a =? b then mret (inr a) else
    p ← list_prev a;
    if less a p then mret (inr a) else mret (inl a)) a.

Definition inplace_merge (fuel : nat) (a0 a1b0 b1 : Z) : M heap unit :=
  assert (negb (a0 =? NULL));;
  assert (negb (a1b0 =? NULL));;
  assert (negb (b1 =? NULL));;
  s ← is_sorted fuel a0 a1b0; assert s;;
  s ← is_sorted fuel a1b0 b1; assert s;;
  loop fuel (fun '(a0, a1b0) =>
    if (a0 =? a1b0) || (a1b0 =? b1) then mret (inr ()) else
    if negb (less a1b0 a0) then
      a0 ← list_next a0; mret (inl (a0, a1b0))
    else
      a1b0 ← list_next a1b0;
      p ← list_prev a1b0;
      list_splice a0 p a1b0;;
      mret (inl (a0, a1b0))) (a0, a1b0).

(** One pass of [list_sort] over the list; returns [output_run_cnt]. *)
Definition list_sort_pass (fuel : nat) (l : Z) : M heap Z :=
  a0 ← list_begin l;
  loop fuel (fun '(a0, output_run_cnt) =>
    stop ← list_end l;
    if a0 =? stop then mret (inr output_run_cnt) else
    let output_run_cnt := u32 (output_run_cnt + 1) in
    stop ← list_end l;
    a1b0 ← find_end_of_run fuel a0 stop;
    stop ← list_end l;
    if a1b0 =? stop then mret (inr output_run_cnt) else
    stop ← list_end l;
    b1 ← find_end_of_run fuel a1b0 stop;
    inplace_merge fuel a0 a1b0 b1;;
    mret (inl (b1, output_run_cnt))) (a0, 0).

Definition list_sort (fuel : nat) (l : Z) : M heap unit :=
  assert (negb (l =? NULL));;
  loop fuel (fun _ : unit =>
    output_run_cnt ← list_sort_pass fuel l;
    if 1 <? output_run_cnt then mret (inl ()) else mret (inr ())) ();;
  b ← list_begin l; e ← list_end l;
  s ← is_sorted fuel b e; assert s.

Definition list_insert_ordered (fuel : nat) (l elem : Z) : M heap unit :=
  assert (negb (l =? NULL));;
  assert (negb (elem =? NULL));;
  e ← list_begin l;
  e ← loop fuel (fun e =>
    stop ← list_end l;
    if e =? stop then mret (inr e) else
    if less elem e then mret (inr e) else
    e ← list_next e; mret (inl e)) e;
  list_insert e elem.

(** [duplicates] is a null pointer or a list. *)
Definition list_unique (fuel : nat) (l duplicates : Z) : M heap unit :=
  assert (negb (l =? NULL));;
  empty ← list_empty l;
  if empty : bool then mret () else
  elem ← list_begin l;
  loop fuel (fun elem =>
    next ← list_next elem;
    stop ← list_end l;
    if next =? stop then mret (inr ()) else
    if negb (less elem next) && negb (less next elem) then
      list_remove next;;
      (if negb (duplicates =? NULL) then list_push_back duplicates next else mret ());;
      mret (inl elem)
    else mret (inl next)) elem.

Definition list_max (fuel : nat) (l : Z) : M heap Z :=
  max ← list_begin l;
  stop ← list_end l;
  if max =? stop then mret max else
  e ← list_next max;
  loop fuel (fun '(e, max) =>
    stop ← list_end l;
    if e =? stop then mret (inr max) else
    let max := if less max e then e else max in
    e ← list_next e; mret (inl (e, max))) (e, max).

Definition list_min (fuel : nat) (l : Z) : M heap Z :=
  min ← list_begin l;
  stop ← list_end l;
  if min =? stop then mret min else
  e ← list_next min;
  loop fuel (fun '(e, min) =>
    stop ← list_end l;
    if e =? stop then mret (inr min) else
    let min := if less e min then e else min in
    e ← list_next e; mret (inl (e, min))) (e, min).
End ordered.

(** ** Segments

    [dseg h pp xs qn]: in [h] the elements [xs] are linked in that order, the
    first one's [prev] is [pp] and the last one's [next] is [qn]. *)
Definition lastd (d : Z) (xs : list Z) : Z := default d (last xs).

Fixpoint dseg (h : heap) (pp : Z) (xs : list Z) (qn : Z) : Prop :=
  match xs with
  | [] => True
  | x :: xs' => h !! x = Some (ListElem pp (hd qn xs')) /\ dseg h x xs' qn
  end.

Lemma lastd_snoc d xs x : lastd d (xs ++ [x]) = x.
Proof. unfold lastd. by rewrite last_snoc. Qed.

Lemma lastd_cons d x xs : lastd d (x :: xs) = lastd x xs.
Proof. unfold lastd. rewrite last_cons. by destruct (last xs). Qed.

Lemma lastd_app d xs ys : lastd d (xs ++ ys) = lastd (lastd d xs) ys.
Proof. unfold lastd. rewrite last_app. by destruct (last ys). Qed.

Lemma hd_app (d : Z) xs ys : hd d (xs ++ ys) = hd (hd d ys) xs.
Proof. by destruct xs. Qed.

Lemma lastd_elem d xs : xs <> [] -> lastd d xs ∈ xs.
Proof.
  intros Hne. destruct (exists_last Hne) as (ys & y & ->). rewrite lastd_snoc. set_solver.
Qed.

Lemma dseg_app h pp xs ys qn :
  dseg h pp (xs ++ ys) qn <-> dseg h pp xs (hd qn ys) /\ dseg h (lastd pp xs) ys qn.
Proof.
  revert pp. induction xs as [|x xs IH]; intros pp; simpl.
  - unfold lastd. simpl. tauto.
  - rewrite IH, lastd_cons, hd_app. tauto.
Qed.

Lemma dseg_lookup h pp xs x ys qn :
  dseg h pp (xs ++ x :: ys) qn -> h !! x = Some (ListElem (lastd pp xs) (hd qn ys)).
Proof. rewrite dseg_app. simpl. tauto. Qed.

Lemma dseg_frame h h' pp xs qn :
  (forall x, x ∈ xs -> h' !! x = h !! x) -> dseg h pp xs qn -> dseg h' pp xs qn.
Proof.
  revert pp. induction xs as [|x xs IH]; intros pp Hh; simpl; [done|].
  intros [Hx Hxs]. split.
  - rewrite Hh by set_solver. done.
  - apply IH; [|done]. set_solver.
Qed.

(** ** Separated segments

    [segs D h0 L h]: the segments [L] are all in [h], no element occurs twice
    in them, and [h] differs from [h0] only in the links of the elements [D]. *)
Record seg := Seg { seg_prev : Z; seg_nodes : list Z; seg_next : Z }.

Record segs (D : list Z) (h0 : heap) (L : list seg) (h : heap) : Prop := {
  segs_nodup : NoDup (concat (map seg_nodes L));
  segs_sub : forall x, x ∈ concat (map seg_nodes L) -> x ∈ D;
  segs_null : NULL ∉ D;
  segs_ok : Forall (fun s => dseg h (seg_prev s) (seg_nodes s) (seg_next s)) L;
  segs_dom : dom h = dom h0;
  segs_out : forall x, x ∉ D -> h !! x = h0 !! x }.

Section segs.
Context (D : list Z) (h0 : heap).
Implicit Types (L : list seg) (xs ys : list Z).

Lemma segs_perm L L' h : L ≡ₚ L' -> segs D h0 L h -> segs D h0 L' h.
Proof.
  intros HL [H1 H2 H3 H4 H5 H6].
  assert (concat (map seg_nodes L) ≡ₚ concat (map seg_nodes L')) as HP.
  { clear -HL. induction HL as [|s L L' _ IH|s t L|L L' L'' _ IH1 _ IH2]; simpl; [done| | |by etrans].
    - by rewrite IH.
    - by rewrite !app_assoc, (Permutation_app_comm (seg_nodes t)). }
  split; try done.
  - by rewrite <- HP.
  - intros x Hx. apply H2. by rewrite HP.
  - by rewrite <- HL.
Qed.

Lemma segs_split L1 L2 pp xs ys qn h :
  segs D h0 (L1 ++ Seg pp (xs ++ ys) qn :: L2) h <->
  segs D h0 (L1 ++ Seg pp xs (hd qn ys) :: Seg (lastd pp xs) ys qn :: L2) h.
Proof.
  assert (concat (map seg_nodes (L1 ++ Seg pp (xs ++ ys) qn :: L2)) =
          concat (map seg_nodes (L1 ++ Seg pp xs (hd qn ys) :: Seg (lastd pp xs) ys qn :: L2))) as Hc.
  { rewrite !map_app, !concat_app. simpl. by rewrite <- app_assoc. }
  split; intros [H1 H2 H3 H4 H5 H6].
  - split; [by rewrite <- Hc|by rewrite <- Hc|done| |done|done].
    rewrite Forall_app, Forall_cons in H4. simpl in H4. rewrite dseg_app in H4.
    rewrite Forall_app, !Forall_cons. simpl. tauto.
  - split; [by rewrite Hc|by rewrite Hc|done| |done|done].
    rewrite Forall_app, !Forall_cons in H4. simpl in H4.
    rewrite Forall_app, Forall_cons. simpl. rewrite dseg_app. tauto.
Qed.

Lemma segs_join L1 L2 pp xs q pp' ys qn h :
  segs D h0 (L1 ++ Seg pp xs q :: Seg pp' ys qn :: L2) h -> q = hd qn ys -> pp' = lastd pp xs ->
  segs D h0 (L1 ++ Seg pp (xs ++ ys) qn :: L2) h.
Proof. intros Hs -> ->. by apply segs_split. Qed.

Lemma segs_drop s L h : segs D h0 (s :: L) h -> segs D h0 L h.
Proof.
  intros [H1 H2 H3 H4 H5 H6]. simpl in *. apply NoDup_app in H1. apply Forall_cons in H4.
  split; try done; [by apply H1| |by apply H4]. intros x Hx. apply H2. set_solver.
Qed.

Lemma segs_nil L1 L2 pp qn h :
  segs D h0 (L1 ++ L2) h -> segs D h0 (L1 ++ Seg pp [] qn :: L2) h.
Proof.
  intros [H1 H2 H3 H4 H5 H6]. rewrite map_app, concat_app in *.
  split; rewrite ?map_app, ?concat_app; try done.
  rewrite Forall_app in *. rewrite Forall_cons. simpl. tauto.
Qed.

Lemma segs_lookup L1 L2 pp xs x ys qn h :
  segs D h0 (L1 ++ Seg pp (xs ++ x :: ys) qn :: L2) h ->
  h !! x = Some (ListElem (lastd pp xs) (hd qn ys)).
Proof.
  intros Hs. pose proof (segs_ok _ _ _ _ Hs) as Hok.
  rewrite Forall_app, Forall_cons in Hok. simpl in Hok. by eapply dseg_lookup, Hok.
Qed.

Lemma segs_elem L s x : s ∈ L -> x ∈ seg_nodes s -> x ∈ concat (map seg_nodes L).
Proof.
  intros Hs Hx. apply list_elem_of_In, in_concat. exists (seg_nodes s).
  rewrite <- !list_elem_of_In. split; [|done]. apply list_elem_of_In, in_map, list_elem_of_In, Hs.
Qed.

(** Rewriting the links of one element changes only its own segment. *)
Lemma segs_update L1 L2 pp xs qn pp' qn' x n h :
  segs D h0 (L1 ++ Seg pp xs qn :: L2) h ->
  x ∈ xs -> is_Some (h !! x) ->
  dseg (<[x := n]> h) pp' xs qn' ->
  segs D h0 (L1 ++ Seg pp' xs qn' :: L2) (<[x := n]> h).
Proof.
  intros [H1 H2 H3 H4 H5 H6] Hx Hsome Hseg.
  rewrite map_app, concat_app in *. simpl in *.
  split; rewrite ?map_app, ?concat_app; simpl; try done.
  - rewrite Forall_app, Forall_cons in *. simpl in *.
    destruct H4 as (Hl1 & _ & Hl2). rewrite !NoDup_app in H1.
    rewrite Forall_forall in Hl1, Hl2. rewrite !Forall_forall.
    split_and!; [|done|]; intros s Hs; (eapply dseg_frame; [|by auto]);
      intros y Hy; apply lookup_insert_ne; intros ->;
      pose proof (segs_elem _ _ _ Hs Hy); set_solver.
  - rewrite dom_insert_lookup_L; done.
  - intros y Hy. rewrite lookup_insert_ne by set_solver. by apply H6.
Qed.

Lemma segs_store_next L1 L2 pp xs x qn v h :
  segs D h0 (L1 ++ Seg pp (xs ++ [x]) qn :: L2) h ->
  wp (store (Next x) v) (fun _ h' => segs D h0 (L1 ++ Seg pp (xs ++ [x]) v :: L2) h') h.
Proof.
  intros Hs. pose proof (segs_lookup _ _ _ _ _ _ _ _ Hs) as Hx.
  unfold wp, store. rewrite Hx. eapply segs_update; [exact Hs|set_solver|eauto|].
  pose proof (segs_ok _ _ _ _ Hs) as Hok. rewrite Forall_app, Forall_cons in Hok. simpl in Hok.
  pose proof (segs_nodup _ _ _ _ Hs) as Hnd. rewrite map_app, concat_app in Hnd. simpl in Hnd.
  rewrite !NoDup_app in Hnd. rewrite dseg_app in *. simpl in *. rewrite lookup_insert_eq.
  split; [|done]. eapply dseg_frame; [|apply Hok].
  intros y Hy. apply lookup_insert_ne. set_solver.
Qed.

Lemma segs_store_prev L1 L2 pp x xs qn v h :
  segs D h0 (L1 ++ Seg pp (x :: xs) qn :: L2) h ->
  wp (store (Prev x) v) (fun _ h' => segs D h0 (L1 ++ Seg v (x :: xs) qn :: L2) h') h.
Proof.
  intros Hs. pose proof (segs_lookup _ _ _ [] _ _ _ _ Hs) as Hx.
  unfold wp, store. rewrite Hx. eapply segs_update; [exact Hs|set_solver|eauto|].
  pose proof (segs_ok _ _ _ _ Hs) as Hok. rewrite Forall_app, Forall_cons in Hok. simpl in Hok.
  pose proof (segs_nodup _ _ _ _ Hs) as Hnd. rewrite map_app, concat_app in Hnd. simpl in Hnd.
  rewrite NoDup_app, NoDup_cons in Hnd. simpl in *. rewrite lookup_insert_eq.
  split; [done|]. eapply dseg_frame; [|apply Hok].
  intros y Hy. apply lookup_insert_ne. set_solver.
Qed.

Lemma segs_load_next L1 L2 pp xs x ys qn h :
  segs D h0 (L1 ++ Seg pp (xs ++ x :: ys) qn :: L2) h -> load (Next x) h = Ok (hd qn ys, h).
Proof. intros Hs. unfold load. by rewrite (segs_lookup _ _ _ _ _ _ _ _ Hs). Qed.

Lemma segs_load_prev L1 L2 pp xs x ys qn h :
  segs D h0 (L1 ++ Seg pp (xs ++ x :: ys) qn :: L2) h -> load (Prev x) h = Ok (lastd pp xs, h).
Proof. intros Hs. unfold load. by rewrite (segs_lookup _ _ _ _ _ _ _ _ Hs). Qed.
End segs.

(** ** Lists *)

(** What an operation may change: only the links of [D]. *)
Definition frame (D : list Z) (h h' : heap) : Prop :=
  dom h' = dom h /\ forall x, x ∉ D -> h' !! x = h !! x.

(** A complete chain, from a head (null [prev]) to a tail (null [next]). *)
Definition linked (h : heap) (P : list Z) : Prop := segs P h [Seg NULL P NULL] h.

Definition path (l : Z) (xs : list Z) : list Z := head_of l :: xs ++ [tail_of l].

Arguments path : simpl never.

(** The list at [l] holds the elements [xs], front first. *)
Definition is_list (h : heap) (l : Z) (xs : list Z) : Prop := linked h (path l xs).

Lemma frame_refl D h : frame D h h.
Proof. done. Qed.

Lemma frame_trans D h1 h2 h3 : frame D h1 h2 -> frame D h2 h3 -> frame D h1 h3.
Proof.
  intros [Hd1 H1] [Hd2 H2]. split; [by rewrite Hd2|].
  intros x Hx. by rewrite H2, H1.
Qed.

Lemma frame_mono D D' h h' : (forall x, x ∈ D -> x ∈ D') -> frame D h h' -> frame D' h h'.
Proof. intros HD [Hd Hf]. split; [done|]. intros x Hx. apply Hf. auto. Qed.

Lemma linked_iff h P :
  linked h P <-> NoDup P /\ NULL ∉ P /\ dseg h NULL P NULL.
Proof.
  split.
  - intros [H1 _ H3 H4 _ _]. simpl in H1. rewrite app_nil_r in H1.
    rewrite Forall_singleton in H4. done.
  - intros (H1 & H2 & H3). split; simpl; rewrite ?app_nil_r; try done.
    by rewrite Forall_singleton.
Qed.

(** The end of an operation: one chain again, and the frame. *)
Lemma segs_linked D h0 P h :
  segs D h0 [Seg NULL P NULL] h -> linked h P /\ frame D h0 h.
Proof.
  intros [H1 H2 H3 H4 H5 H6]. simpl in *. rewrite app_nil_r in *. rewrite Forall_singleton in H4.
  split; [|done]. apply linked_iff. split_and!; [done| |done]. intros Hn. by apply H3, H2.
Qed.

(** A frame that avoids a chain keeps it. *)
Lemma linked_frame D h h' P :
  (forall x, x ∈ P -> x ∉ D) -> frame D h h' -> linked h P -> linked h' P.
Proof.
  intros HD [_ Hf]. rewrite !linked_iff. intros (H1 & H2 & H3). split_and!; [done|done|].
  eapply dseg_frame; [|done]. auto.
Qed.

Section navigation.
Context (h : heap).
Implicit Types (A B : list Z).

Lemma linked_lookup A x B :
  linked h (A ++ x :: B) -> h !! x = Some (ListElem (lastd NULL A) (hd NULL B)) /\ x <> NULL.
Proof.
  rewrite linked_iff. intros (_ & Hn & Hs). split; [by eapply dseg_lookup|].
  intros ->. set_solver.
Qed.

Lemma linked_next_nonnull A x b B : linked h (A ++ x :: b :: B) -> b <> NULL.
Proof. rewrite linked_iff. intros (_ & Hn & _) ->. set_solver. Qed.

Lemma linked_prev_nonnull A x B : linked h (A ++ x :: B) -> A <> [] -> lastd NULL A <> NULL.
Proof.
  rewrite linked_iff. intros (_ & Hn & _) Hne Heq. apply (lastd_elem NULL) in Hne.
  rewrite Heq in Hne. set_solver.
Qed.

Lemma list_next_linked A p b B : linked h (A ++ p :: b :: B) -> list_next p h = Ok (b, h).
Proof.
  intros Hl. pose proof (linked_lookup _ _ _ Hl) as [Hp Hp0].
  pose proof (linked_next_nonnull _ _ _ _ Hl) as Hb.
  unfold list_next, orM, is_head, is_interior, load, assert, mbind, M_bind, mret, M_ret.
  apply Z.eqb_neq in Hp0, Hb.
  destruct (decide (A = [])) as [->|HA].
  - by repeat first [progress rewrite ?Hp0, ?Hp, ?Hb | progress simpl].
  - pose proof (linked_prev_nonnull _ _ _ Hl HA) as HpA. apply Z.eqb_neq in HpA.
    by repeat first [progress rewrite ?Hp0, ?Hp, ?Hb, ?HpA | progress simpl].
Qed.

Lemma interior_or_tail A p b B :
  linked h (A ++ p :: b :: B) -> orM (is_interior b) (is_tail b) h = Ok (true, h).
Proof.
  intros Hl. rewrite (cons_middle p A (b :: B)) in Hl. rewrite app_assoc in Hl.
  pose proof (linked_lookup _ _ _ Hl) as [Hb Hb0].
  pose proof (linked_prev_nonnull _ _ _ Hl ltac:(by destruct A)) as HpA.
  rewrite lastd_snoc in *.
  unfold orM, is_tail, is_interior, load, mbind, M_bind, mret, M_ret.
  apply Z.eqb_neq in Hb0, HpA. 
  destruct (hd NULL B =? NULL) eqn:HB;
    by repeat first [progress rewrite ?Hb0, ?Hb, ?HpA, ?HB | progress simpl].
Qed.

Lemma list_prev_linked A p b B : linked h (A ++ p :: b :: B) -> list_prev b h = Ok (p, h).
Proof.
  intros Hl. pose proof (interior_or_tail _ _ _ _ Hl) as Hit.
  rewrite (cons_middle p A (b :: B)), app_assoc in Hl.
  pose proof (linked_lookup _ _ _ Hl) as [Hb _]. rewrite lastd_snoc in Hb.
  unfold list_prev, load, assert, mbind, M_bind. rewrite Hit. by rewrite Hb.
Qed.

Lemma is_interior_linked A p e b B :
  linked h (A ++ p :: e :: b :: B) -> is_interior e h = Ok (true, h).
Proof.
  intros Hl. pose proof (linked_next_nonnull (A ++ [p]) e b B) as Hb.
  rewrite <- app_assoc in Hb. specialize (Hb Hl).
  rewrite (cons_middle p A (e :: b :: B)), app_assoc in Hl.
  pose proof (linked_lookup _ _ _ Hl) as [He He0].
  pose proof (linked_prev_nonnull _ _ _ Hl ltac:(by destruct A)) as HpA.
  rewrite lastd_snoc in *. unfold is_interior, load, mbind, M_bind, mret, M_ret.
  apply Z.eqb_neq in He0, HpA, Hb.
  by repeat first [progress rewrite ?He0, ?He, ?HpA, ?Hb | progress simpl].
Qed.
End navigation.

(** Splitting a chain into the segments an operation relinks. *)
Lemma linked_segs3 h xs e n ys :
  linked h (xs ++ ys) -> e ∉ xs ++ ys -> e <> NULL -> h !! e = Some n ->
  segs (e :: xs ++ ys) h [Seg NULL xs (hd NULL ys); Seg (prev n) [e] (next n);
                          Seg (lastd NULL xs) ys NULL] h.
Proof.
  intros Hl He He0 Hn. apply linked_iff in Hl as (H1 & H2 & H3).
  apply dseg_app in H3 as [H3a H3b]. split; simpl; try done.
  - rewrite app_nil_r. apply NoDup_app in H1 as (Ha & Hb & Hc).
    apply NoDup_app. split_and!; [done| |apply NoDup_cons; set_solver]. set_solver.
  - intros x. rewrite app_nil_r. set_solver.
  - set_solver.
  - rewrite !Forall_cons. simpl. split_and!; [done|by destruct n|done|done|by apply Forall_nil].
Qed.

Ltac seg_norm :=
  repeat match goal with
    | |- context [lastd ?d []] => change (lastd d []) with d
    | |- context [hd ?d []] => change (hd d []) with d
    | H : context [lastd ?d []] |- _ => change (lastd d []) with d in H
    | H : segs _ _ _ _ |- _ => progress cbn [app hd] in H
    end.
Tactic Notation "seg_join" uconstr(L) hyp(H) :=
  eapply (segs_join _ _ L) in H; [|try done|by rewrite ?lastd_app, ?lastd_snoc]; seg_norm.
Tactic Notation "seg_upd" uconstr(lem) "with" hyp(H) := wp_upd lem with H; seg_norm.
Tactic Notation "seg_read" uconstr(lem) "with" hyp(H) := wp_read lem with H; seg_norm.

Lemma list_insert_linked h A p b B e :
  linked h (A ++ p :: b :: B) -> e ∉ A ++ p :: b :: B -> e <> NULL -> is_Some (h !! e) ->
  wp (list_insert b e) (fun _ h' =>
    linked h' (A ++ p :: e :: b :: B) /\ frame (e :: A ++ p :: b :: B) h h') h.
Proof.
  intros Hl He He0 [n Hn]. unfold list_insert.
  wp_read interior_or_tail with Hl. do 4 wp_step.
  pose proof (linked_segs3 h (A ++ [p]) e n (b :: B)) as Hs.
  rewrite <- app_assoc in Hs. specialize (Hs Hl He He0 Hn). rewrite lastd_snoc in Hs.
  seg_read (segs_load_prev _ _ [_; _] [] _ []) with Hs.
  seg_upd (segs_store_prev _ _ [_]) with Hs.
  seg_upd (segs_store_next _ _ [_] _ _ []) with Hs.
  seg_read (segs_load_prev _ _ [_; _] [] _ []) with Hs.
  seg_upd (segs_store_next _ _ []) with Hs.
  seg_upd (segs_store_prev _ _ [_; _]) with Hs.
  seg_join [] Hs. seg_join [] Hs.
  apply segs_linked. by rewrite <- !app_assoc in Hs.
Qed.

Lemma list_remove_linked h A p e b B :
  linked h (A ++ p :: e :: b :: B) ->
  wp (list_remove e) (fun r h' => r = b /\
    linked h' (A ++ p :: b :: B) /\ frame (A ++ p :: e :: b :: B) h h' /\ h' !! e = h !! e) h.
Proof.
  intros Hl. unfold list_remove. wp_read is_interior_linked with Hl. do 2 wp_step.
  pose proof Hl as Hs. unfold linked in Hs.
  rewrite (cons_middle p A) in Hs at 2. rewrite app_assoc in Hs.
  apply (segs_split _ _ [] []) in Hs. apply (segs_split _ _ [_] [] _ [e]) in Hs.
  rewrite lastd_snoc in Hs. seg_norm.
  assert (h !! e = Some (ListElem p b)) as He by apply (segs_lookup _ _ [_] [_] _ [] _ [] _ _ Hs).
  seg_read (segs_load_prev _ _ [_] [_] _ [] _ []) with Hs.
  seg_read (segs_load_next _ _ [_] [_] _ [] _ []) with Hs.
  seg_upd (segs_store_next _ _ []) with Hs.
  seg_read (segs_load_next _ _ [_] [_] _ [] _ []) with Hs.
  seg_read (segs_load_prev _ _ [_] [_] _ [] _ []) with Hs.
  seg_upd (segs_store_prev _ _ [_; _]) with Hs.
  seg_read (segs_load_next _ _ [_] [_] _ [] _ []) with Hs.
  split; [done|].
  pose proof (segs_lookup _ _ [_] [_] _ [] _ [] _ _ Hs) as He'. rewrite He, He'.
  assert (segs (A ++ p :: e :: b :: B) h [Seg NULL (A ++ [p]) b; Seg p (b :: B) NULL] s'0) as Hs'.
  { eapply segs_drop. apply segs_perm with (2 := Hs). by rewrite Permutation_swap. }
  seg_join [] Hs'. apply segs_linked in Hs' as [Hl' Hf]. rewrite <- app_assoc in Hl'. done.
Qed.


(** Versions on whole segments: their last element, their first element. *)
Section segs_ends.
Context (D : list Z) (h0 : heap).

Lemma segs_store_last L1 L2 pp xs d qn v h :
  segs D h0 (L1 ++ Seg pp xs qn :: L2) h -> xs <> [] ->
  wp (store (Next (lastd d xs)) v) (fun _ h' => segs D h0 (L1 ++ Seg pp xs v :: L2) h') h.
Proof.
  intros Hs Hne. destruct (exists_last Hne) as (ys & y & ->). rewrite lastd_snoc.
  by eapply segs_store_next.
Qed.

Lemma segs_store_first L1 L2 pp xs d qn v h :
  segs D h0 (L1 ++ Seg pp xs qn :: L2) h -> xs <> [] ->
  wp (store (Prev (hd d xs)) v) (fun _ h' => segs D h0 (L1 ++ Seg v xs qn :: L2) h') h.
Proof. intros Hs Hne. destruct xs as [|x xs]; [done|]. by eapply segs_store_prev. Qed.

Lemma segs_load_last L1 L2 pp xs d qn h :
  segs D h0 (L1 ++ Seg pp xs qn :: L2) h -> xs <> [] -> load (Next (lastd d xs)) h = Ok (qn, h).
Proof.
  intros Hs Hne. destruct (exists_last Hne) as (ys & y & ->). rewrite lastd_snoc.
  by erewrite segs_load_next by exact Hs.
Qed.

Lemma segs_load_first L1 L2 pp xs d qn h :
  segs D h0 (L1 ++ Seg pp xs qn :: L2) h -> xs <> [] -> load (Prev (hd d xs)) h = Ok (pp, h).
Proof.
  intros Hs Hne. destruct xs as [|x xs]; [done|].
  by erewrite (segs_load_prev _ _ _ _ _ []) by exact Hs.
Qed.
End segs_ends.

Lemma lastd_nonempty d d' xs : xs <> [] -> lastd d xs = lastd d' xs.
Proof. intros Hne. destruct (exists_last Hne) as (ys & y & ->). by rewrite !lastd_snoc. Qed.

Lemma hd_nonempty (d d' : Z) xs : xs <> [] -> hd d xs = hd d' xs.
Proof. by destruct xs. Qed.

Lemma is_interior_seg h A xs B :
  linked h (A ++ xs ++ B) -> A <> [] -> xs <> [] -> B <> [] ->
  is_interior (hd NULL xs) h = Ok (true, h) /\ is_interior (lastd NULL xs) h = Ok (true, h).
Proof.
  intros Hl HA Hxs HB. destruct (exists_last HA) as (A' & p & ->).
  destruct B as [|b B]; [done|]. rewrite <- app_assoc in Hl. split.
  - destruct xs as [|x [|y xs]]; [done| |]; (eapply is_interior_linked; exact Hl).
  - destruct (exists_last Hxs) as (xs' & x & ->). rewrite lastd_snoc. rewrite <- app_assoc in Hl.
    destruct (decide (xs' = [])) as [->|Hne]; [eapply is_interior_linked; exact Hl|].
    destruct (exists_last Hne) as (ys & y & ->).
    eapply (is_interior_linked _ (A' ++ [p] ++ ys) y x b B). by rewrite <- !app_assoc in *.
Qed.

Lemma interior_or_tail_seg h A B :
  linked h (A ++ B) -> A <> [] -> B <> [] ->
  orM (is_interior (hd NULL B)) (is_tail (hd NULL B)) h = Ok (true, h) /\
  list_prev (hd NULL B) h = Ok (lastd NULL A, h).
Proof.
  intros Hl HA HB. destruct (exists_last HA) as (A' & p & ->). destruct B as [|b B]; [done|].
  rewrite lastd_snoc. rewrite <- app_assoc in Hl.
  split; [eapply interior_or_tail; exact Hl|eapply list_prev_linked; exact Hl].
Qed.

Lemma NoDup_after (X Y : list Z) x : NoDup (X ++ x :: Y) -> x ∉ Y.
Proof. intros H. apply NoDup_app in H as (_ & _ & H). by apply NoDup_cons in H as [H _]. Qed.

Lemma linked_segs4 h A B S R :
  linked h (A ++ B ++ S ++ R) -> B <> [] -> S <> [] -> R <> [] ->
  segs (A ++ B ++ S ++ R) h
    [Seg NULL A (hd NULL B); Seg (lastd NULL A) B (hd NULL S);
     Seg (lastd NULL B) S (hd NULL R); Seg (lastd NULL S) R NULL] h.
Proof.
  intros Hs HB HS HR. unfold linked in Hs.
  apply (segs_split _ _ [] []) in Hs. apply (segs_split _ _ [_] [] _ B) in Hs.
  apply (segs_split _ _ [_; _] [] _ S) in Hs. cbn [app] in Hs.
  rewrite (lastd_nonempty (lastd NULL A) NULL B), (lastd_nonempty (lastd NULL B) NULL S) in Hs by done.
  by destruct B, S, R.
Qed.

Tactic Notation "seg_store_last" uconstr(L) hyp(H) :=
  wp_bind_maybe; eapply wp_mono; [eapply (segs_store_last _ _ L); [exact H|done]|];
  clear H; intros ? ? H; cbv beta in H; cbn [app] in H.
Tactic Notation "seg_store_first" uconstr(L) hyp(H) :=
  wp_bind_maybe; eapply wp_mono; [eapply (segs_store_first _ _ L); [exact H|done]|];
  clear H; intros ? ? H; cbv beta in H; cbn [app] in H.

(** [list_splice] moves a range to an earlier place of the same chain. *)
Lemma list_splice_before h A B S R :
  linked h (A ++ B ++ S ++ R) -> A <> [] -> B <> [] -> S <> [] -> R <> [] ->
  wp (list_splice (hd NULL B) (hd NULL S) (hd NULL R)) (fun _ h' =>
    linked h' (A ++ S ++ B ++ R) /\ frame (A ++ B ++ S ++ R) h h') h.
Proof.
  intros Hl HA HB HS HR. unfold list_splice.
  assert (hd NULL (B ++ S ++ R) = hd NULL B) as HhB by by destruct B.
  destruct (interior_or_tail_seg h A (B ++ S ++ R)) as [Hit _]; [done|done|by destruct B|].
  rewrite HhB in Hit. wp_step. eapply wp_eq; [exact Hit|]. do 2 wp_step.
  assert (hd NULL S <> hd NULL R) as Hne.
  { apply linked_iff in Hl as (Hnd & _). destruct S as [|x S], R as [|r R]; simpl in *; try done.
    intros ->. rewrite app_assoc in Hnd. apply NoDup_after in Hnd. apply Hnd. set_solver. }
  apply Z.eqb_neq in Hne. rewrite Hne.
  destruct (interior_or_tail_seg h (A ++ B ++ S) R) as [_ Hpr];
    [by rewrite <- !app_assoc|by destruct A|done|].
  wp_step. eapply wp_eq; [exact Hpr|].
  rewrite !lastd_app, (lastd_nonempty _ NULL S) by done.
  destruct (is_interior_seg h (A ++ B) S R) as [Hi1 Hi2];
    [by rewrite <- !app_assoc|by destruct A|done|done|].
  wp_step. eapply wp_eq; [exact Hi1|]. do 2 wp_step.
  wp_step. eapply wp_eq; [exact Hi2|]. do 2 wp_step.
  pose proof (linked_segs4 _ _ _ _ _ Hl HB HS HR) as Hs.
  wp_step. eapply wp_eq; [eapply (segs_load_first _ _ [_; _]); [exact Hs|done]|].
  wp_step. eapply wp_eq; [eapply (segs_load_last _ _ [_; _]); [exact Hs|done]|].
  seg_store_last [_] Hs.
  wp_step. eapply wp_eq; [eapply (segs_load_last _ _ [_; _]); [exact Hs|done]|].
  wp_step. eapply wp_eq; [eapply (segs_load_first _ _ [_; _]); [exact Hs|done]|].
  seg_store_first [_; _; _] Hs.
  wp_step. eapply wp_eq; [eapply (segs_load_first _ _ [_]); [exact Hs|done]|].
  seg_store_first [_; _] Hs.
  seg_store_last [_; _] Hs.
  wp_step. eapply wp_eq; [eapply (segs_load_first _ _ [_]); [exact Hs|done]|].
  seg_store_last [] Hs.
  seg_store_first [_] Hs.
  eapply segs_perm in Hs; [|apply perm_skip, perm_swap].
  eapply (segs_join _ _ [_; _]) in Hs; [|done|by apply lastd_nonempty]. cbn [app] in Hs.
  eapply (segs_join _ _ [_]) in Hs; [|by destruct B|by apply lastd_nonempty]. cbn [app] in Hs.
  eapply (segs_join _ _ []) in Hs; [|by destruct S|done]. cbn [app] in Hs.
  by apply segs_linked.
Qed.

(** Two disjoint chains, as one assertion. *)
Lemma linked_two h P Q :
  linked h P -> linked h Q -> P ## Q -> segs (P ++ Q) h [Seg NULL P NULL; Seg NULL Q NULL] h.
Proof.
  rewrite !linked_iff. intros (H1 & H2 & H3) (H4 & H5 & H6) Hd.
  split; simpl; rewrite ?app_nil_r; try done; [|set_solver|].
  - apply NoDup_app. split_and!; [done| |done]. intros x Hx Hx'. by apply (Hd x).
  - rewrite !Forall_cons. simpl. by split_and!.
Qed.

Lemma segs_two_linked D h0 P Q h :
  segs D h0 [Seg NULL P NULL; Seg NULL Q NULL] h -> linked h P /\ linked h Q /\ frame D h0 h.
Proof.
  intros Hs. pose proof (segs_drop _ _ _ _ _ Hs) as HQ. apply segs_linked in HQ as [HQ Hf].
  eapply segs_perm in Hs; [|apply perm_swap]. apply segs_drop, segs_linked in Hs as [HP _]. done.
Qed.

(** [list_splice] moves a range from one list to another. *)
Lemma list_splice_across h A S R C E :
  linked h (A ++ S ++ R) -> linked h (C ++ E) -> (A ++ S ++ R) ## (C ++ E) ->
  A <> [] -> S <> [] -> R <> [] -> C <> [] -> E <> [] ->
  wp (list_splice (hd NULL E) (hd NULL S) (hd NULL R)) (fun _ h' =>
    linked h' (A ++ R) /\ linked h' (C ++ S ++ E) /\
    frame ((A ++ S ++ R) ++ C ++ E) h h') h.
Proof.
  intros Hl Hl2 Hd HA HS HR HC HE. unfold list_splice.
  destruct (interior_or_tail_seg h C E) as [Hit _]; [done..|].
  wp_step. eapply wp_eq; [exact Hit|]. do 2 wp_step.
  assert (hd NULL S <> hd NULL R) as Hne.
  { apply linked_iff in Hl as (Hnd & _). destruct S as [|x S], R as [|r R]; simpl in *; try done.
    intros ->. apply NoDup_after in Hnd. apply Hnd. set_solver. }
  apply Z.eqb_neq in Hne. rewrite Hne.
  destruct (interior_or_tail_seg h (A ++ S) R) as [_ Hpr];
    [by rewrite <- !app_assoc|by destruct A|done|].
  wp_step. eapply wp_eq; [exact Hpr|]. rewrite !lastd_app, (lastd_nonempty _ NULL S) by done.
  destruct (is_interior_seg h A S R) as [Hi1 Hi2]; [done..|].
  wp_step. eapply wp_eq; [exact Hi1|]. do 2 wp_step.
  wp_step. eapply wp_eq; [exact Hi2|]. do 2 wp_step.
  pose proof (linked_two _ _ _ Hl Hl2 Hd) as Hs.
  apply (segs_split _ _ [] [_]) in Hs. apply (segs_split _ _ [_] [_] _ S) in Hs.
  apply (segs_split _ _ [_; _; _] [] _ C) in Hs. cbn [app] in Hs.
  rewrite (lastd_nonempty (lastd NULL A) NULL S) in Hs by done.
  replace (hd NULL (S ++ R)) with (hd NULL S) in Hs by by destruct S.
  wp_step. eapply wp_eq; [eapply (segs_load_first _ _ [_]); [exact Hs|done]|].
  wp_step. eapply wp_eq; [eapply (segs_load_last _ _ [_]); [exact Hs|done]|].
  seg_store_last [] Hs.
  wp_step. eapply wp_eq; [eapply (segs_load_last _ _ [_]); [exact Hs|done]|].
  wp_step. eapply wp_eq; [eapply (segs_load_first _ _ [_]); [exact Hs|done]|].
  seg_store_first [_; _] Hs.
  wp_step. eapply wp_eq; [eapply (segs_load_first _ _ [_; _; _; _]); [exact Hs|done]|].
  seg_store_first [_] Hs.
  seg_store_last [_] Hs.
  wp_step. eapply wp_eq; [eapply (segs_load_first _ _ [_; _; _; _]); [exact Hs|done]|].
  seg_store_last [_; _; _] Hs.
  seg_store_first [_; _; _; _] Hs.
  eapply segs_perm in Hs; [|apply perm_skip; etrans; [apply perm_swap|apply perm_skip, perm_swap]].
  eapply (segs_join _ _ [_; _; _]) in Hs; [|done|by apply lastd_nonempty]. cbn [app] in Hs.
  eapply (segs_join _ _ [_; _]) in Hs; [|by destruct S|done]. cbn [app] in Hs.
  eapply (segs_join _ _ []) in Hs; [|by destruct R|done]. cbn [app] in Hs.
  by apply segs_two_linked.
Qed.

(** ** Operations on whole lists *)
Section whole_lists.
Context (h : heap) (l : Z).
Implicit Types xs ys : list Z.

Lemma is_list_nonnull xs : is_list h l xs -> l <> NULL.
Proof. intros Hl. apply (linked_lookup h [] l (xs ++ [tail_of l])) in Hl. apply Hl. Qed.

Lemma list_end_nonnull s : l <> NULL -> list_end l s = Ok (tail_of l, s).
Proof.
  intros Hl. apply Z.eqb_neq in Hl. unfold list_end, mbind, M_bind, assert. by rewrite Hl.
Qed.

Lemma list_end_ok xs : is_list h l xs -> list_end l h = Ok (tail_of l, h).
Proof.
  intros Hl. by eapply list_end_nonnull, is_list_nonnull.
Qed.

Lemma list_begin_ok xs : is_list h l xs -> list_begin l h = Ok (hd (tail_of l) xs, h).
Proof.
  intros Hl. pose proof (is_list_nonnull _ Hl) as Hn. apply Z.eqb_neq in Hn.
  pose proof (linked_lookup h [] l (xs ++ [tail_of l]) Hl) as [Hh _].
  unfold list_begin, mbind, M_bind, assert, load. rewrite Hn. simpl. unfold head_of. rewrite Hh.
  by destruct xs.
Qed.

Lemma list_rbegin_ok xs : is_list h l xs -> list_rbegin l h = Ok (lastd (head_of l) xs, h).
Proof.
  intros Hl. pose proof (is_list_nonnull _ Hl) as Hn. apply Z.eqb_neq in Hn.
  pose proof (linked_lookup h (head_of l :: xs) (tail_of l) [] Hl) as [Hh _].
  unfold list_rbegin, mbind, M_bind, assert, load. rewrite Hn. simpl. rewrite Hh.
  by rewrite lastd_cons.
Qed.

Lemma hd_tail xs : is_list h l xs -> (hd (tail_of l) xs =? tail_of l) = bool_decide (xs = []).
Proof.
  intros Hl. destruct xs as [|x xs]; simpl; [by rewrite Z.eqb_refl|].
  apply Z.eqb_neq. intros ->.
  apply linked_iff in Hl as (Hnd & _ & _).
  change (path l (tail_of l :: xs)) with ([head_of l] ++ tail_of l :: xs ++ [tail_of l]) in Hnd.
  apply NoDup_after in Hnd. set_solver.
Qed.

Lemma list_empty_ok xs : is_list h l xs -> list_empty l h = Ok (bool_decide (xs = []), h).
Proof.
  intros Hl. unfold list_empty, mbind, M_bind.
  rewrite (list_begin_ok _ Hl), (list_end_ok _ Hl), <- (hd_tail _ Hl). done.
Qed.

Lemma list_front_ok x xs : is_list h l (x :: xs) -> list_front l h = Ok (x, h).
Proof.
  intros Hl. pose proof (linked_lookup h [] l (x :: xs ++ [tail_of l]) Hl) as [Hh _].
  unfold list_front, mbind, M_bind. rewrite (list_empty_ok _ Hl). simpl. unfold load, head_of.
  by rewrite Hh.
Qed.

Lemma list_back_ok xs x : is_list h l (xs ++ [x]) -> list_back l h = Ok (x, h).
Proof.
  intros Hl. pose proof (linked_lookup h (head_of l :: xs ++ [x]) (tail_of l) [] Hl) as [Hh _].
  unfold list_back, mbind, M_bind. rewrite (list_empty_ok _ Hl).
  rewrite bool_decide_eq_false_2 by (by destruct xs). simpl. unfold load. rewrite Hh.
  by rewrite lastd_cons, lastd_snoc.
Qed.

(** Stepping over the elements. *)
Lemma list_next_ok xs y ys :
  is_list h l (xs ++ y :: ys) -> list_next y h = Ok (hd (tail_of l) ys, h).
Proof.
  intros Hl. unfold is_list, path in Hl. rewrite <- app_assoc in Hl.
  destruct ys as [|z ys]; eapply (list_next_linked h (head_of l :: xs)); exact Hl.
Qed.

Lemma list_prev_ok xs ys :
  is_list h l (xs ++ ys) -> list_prev (hd (tail_of l) ys) h = Ok (lastd (head_of l) xs, h).
Proof.
  intros Hl. unfold is_list, path in Hl. rewrite <- app_assoc in Hl.
  destruct (interior_or_tail_seg h (head_of l :: xs) (ys ++ [tail_of l])) as [_ Hp];
    [exact Hl|done|by destruct ys|].
  rewrite lastd_cons in Hp. by destruct ys.
Qed.
End whole_lists.

(** Inserting before any element (or the tail) of a list. *)
Lemma list_insert_ok h l xs ys e :
  is_list h l (xs ++ ys) -> e ∉ path l (xs ++ ys) -> e <> NULL -> is_Some (h !! e) ->
  wp (list_insert (hd (tail_of l) ys) e) (fun _ h' =>
    is_list h' l (xs ++ e :: ys) /\ frame (e :: path l (xs ++ ys)) h h') h.
Proof.
  unfold is_list, path. intros Hl He He0 Hsome.
  rewrite <- !app_assoc in *. simpl.
  assert (exists A p, head_of l :: xs = A ++ [p]) as (A & p & HA).
  { destruct (exists_last (l := head_of l :: xs)) as (A & p & ->); [done|]. eauto. }
  change (head_of l :: xs ++ ys ++ [tail_of l]) with ((head_of l :: xs) ++ ys ++ [tail_of l]) in *.
  change (head_of l :: xs ++ e :: ys ++ [tail_of l]) with ((head_of l :: xs) ++ e :: ys ++ [tail_of l]).
  rewrite HA in *. rewrite <- !app_assoc in *.
  destruct ys as [|y ys]; simpl in *; (eapply list_insert_linked; [exact Hl|done..]).
Qed.

Lemma list_remove_ok h l xs e ys :
  is_list h l (xs ++ e :: ys) ->
  wp (list_remove e) (fun r h' => r = hd (tail_of l) ys /\ is_list h' l (xs ++ ys) /\
    frame (path l (xs ++ e :: ys)) h h') h.
Proof.
  unfold is_list, path. intros Hl. rewrite <- !app_assoc in *. simpl in *.
  assert (exists A p, head_of l :: xs = A ++ [p]) as (A & p & HA).
  { destruct (exists_last (l := head_of l :: xs)) as (A & p & ->); [done|]. eauto. }
  change (head_of l :: xs ++ e :: ys ++ [tail_of l]) with ((head_of l :: xs) ++ e :: ys ++ [tail_of l]) in *.
  change (head_of l :: xs ++ ys ++ [tail_of l]) with ((head_of l :: xs) ++ ys ++ [tail_of l]).
  rewrite HA in *. rewrite <- !app_assoc in *.
  destruct ys as [|y ys]; simpl in *; (eapply wp_mono; [eapply list_remove_linked; exact Hl|]);
    intros r h' (-> & Hl' & Hf & _); done.
Qed.

Lemma path_snoc_elem l xs e : e ∈ path l xs <-> e = head_of l \/ e ∈ xs \/ e = tail_of l.
Proof. unfold path. rewrite elem_of_cons, elem_of_app, list_elem_of_singleton. tauto. Qed.

Lemma list_push_front_ok h l xs e :
  is_list h l xs -> e ∉ path l xs -> e <> NULL -> is_Some (h !! e) ->
  wp (list_push_front l e) (fun _ h' => is_list h' l (e :: xs) /\ frame (e :: path l xs) h h') h.
Proof.
  intros Hl He He0 Hs. unfold list_push_front. wp_read list_begin_ok with Hl.
  by apply (list_insert_ok h l []).
Qed.

Lemma list_push_back_ok h l xs e :
  is_list h l xs -> e ∉ path l xs -> e <> NULL -> is_Some (h !! e) ->
  wp (list_push_back l e) (fun _ h' => is_list h' l (xs ++ [e]) /\ frame (e :: path l xs) h h') h.
Proof.
  intros Hl He He0 Hs. unfold list_push_back. wp_read list_end_ok with Hl.
  rewrite <- (app_nil_r xs) in Hl, He. eapply wp_mono; [by apply (list_insert_ok h l xs [])|].
  by rewrite app_nil_r.
Qed.

Lemma list_pop_front_ok h l x xs :
  is_list h l (x :: xs) ->
  wp (list_pop_front l) (fun r h' =>
    r = x /\ is_list h' l xs /\ frame (path l (x :: xs)) h h') h.
Proof.
  intros Hl. unfold list_pop_front. wp_read list_front_ok with Hl. wp_step.
  eapply wp_mono; [by apply (list_remove_ok h l [])|]. intros r h' (_ & Hl' & Hf). wp_step. done.
Qed.

Lemma list_pop_back_ok h l xs x :
  is_list h l (xs ++ [x]) ->
  wp (list_pop_back l) (fun r h' =>
    r = x /\ is_list h' l xs /\ frame (path l (xs ++ [x])) h h') h.
Proof.
  intros Hl. unfold list_pop_back. wp_read list_back_ok with Hl. wp_step.
  eapply wp_mono; [by apply (list_remove_ok h l xs x [])|]. rewrite app_nil_r.
  intros r h' (_ & Hl' & Hf). wp_step. done.
Qed.

Lemma list_init_ok h l :
  l <> NULL -> tail_of l <> NULL -> is_Some (h !! head_of l) -> is_Some (h !! tail_of l) ->
  wp (list_init l) (fun _ h' => is_list h' l [] /\ frame [head_of l; tail_of l] h h') h.
Proof.
  intros Hl Ht [n Hn] [m Hm]. unfold list_init. do 2 wp_step.
  assert (head_of l <> tail_of l) as Hne by (unfold head_of, tail_of, SIZEOF_LIST_ELEM; lia).
  assert (segs [head_of l; tail_of l] h
           [Seg (prev n) [head_of l] (next n); Seg (prev m) [tail_of l] (next m)] h) as Hs.
  { split; simpl; try done.
    - apply NoDup_cons. split; [set_solver|apply NoDup_singleton].
    - unfold head_of in *. set_solver.
    - rewrite !Forall_cons. simpl. destruct n, m. by split_and!. }
  seg_upd (segs_store_prev _ _ []) with Hs.
  seg_upd (segs_store_next _ _ [] _ _ []) with Hs.
  seg_upd (segs_store_prev _ _ [_]) with Hs.
  seg_upd (segs_store_next _ _ [_] _ _ []) with Hs.
  seg_join [] Hs. by apply segs_linked.
Qed.

(** A read-only computation, from its [wp]. *)
Lemma wp_pure {A} (m : M heap A) h a : wp m (fun r h' => r = a /\ h' = h) h -> m h = Ok (a, h).
Proof. rewrite wp_iff. by intros (r & h' & -> & -> & ->). Qed.

Lemma elem_not_tail h l ys z zs : is_list h l (ys ++ z :: zs) -> (z =? tail_of l) = false.
Proof.
  intros Hl. apply Z.eqb_neq. intros ->. apply linked_iff in Hl as (Hnd & _).
  unfold path in Hnd. rewrite <- app_assoc in Hnd.
  apply (NoDup_after (head_of l :: ys)) in Hnd. set_solver.
Qed.

Lemma list_size_ok h l xs fuel :
  is_list h l xs -> (length xs < fuel)%nat ->
  list_size fuel l h = Ok (u32 (Z.of_nat (length xs)), h).
Proof.
  intros Hl Hf. apply wp_pure. unfold list_size. wp_read list_begin_ok with Hl.
  eapply (wp_loop (fun n '(e, cnt) s => s = h /\ exists ys zs, xs = ys ++ zs /\
            e = hd (tail_of l) zs /\ cnt = u32 (Z.of_nat (length ys)) /\ n = length zs)).
  2: { split; [done|]. by exists [], xs. }
  2: done.
  intros n [e cnt] s (-> & ys & zs & -> & -> & -> & ->).
  wp_read list_end_ok with Hl.
  destruct zs as [|z zs]; simpl.
  - rewrite Z.eqb_refl. wp_step. by rewrite app_nil_r.
  - rewrite (elem_not_tail h l ys z zs) by done.
    wp_read list_next_ok with Hl. wp_step. exists (length zs). split; [lia|]. split; [done|].
    exists (ys ++ [z]), zs. rewrite <- app_assoc, length_app. split_and!; [done|done| |done].
    unfold wrap. rewrite Zplus_mod_idemp_l. f_equal. simpl. lia.
Qed.

(** ** Reversal *)

Lemma swap_node D h0 L1 L2 pp x qn h :
  segs D h0 (L1 ++ Seg pp [x] qn :: L2) h ->
  wp (swap (Prev x) (Next x)) (fun _ h' => segs D h0 (L1 ++ Seg qn [x] pp :: L2) h') h.
Proof.
  intros Hs. unfold swap.
  seg_read (segs_load_prev _ _ _ _ _ [] _ []) with Hs.
  seg_read (segs_load_next _ _ _ _ _ [] _ []) with Hs.
  seg_upd segs_store_prev with Hs. wp_bind_maybe.
  by eapply (segs_store_next _ _ _ _ _ []).
Qed.

Lemma hd_rev (d : Z) xs : hd d (rev xs) = lastd d xs.
Proof.
  induction xs as [|x xs IH] using rev_ind; [done|]. by rewrite rev_app_distr, lastd_snoc.
Qed.

Lemma lastd_rev d xs : lastd d (rev xs) = hd d xs.
Proof. by rewrite <- hd_rev, rev_involutive. Qed.

(** The loop of [list_reverse] reverses the interior elements and leaves the
    headers pointing at the old ends. *)
Lemma reverse_loop_ok h l xs fuel :
  is_list h l xs -> (length xs < fuel)%nat ->
  wp (loop fuel (fun e =>
        stop ← list_end l;
        if e =? stop then mret (inr ())
        else swap (Prev e) (Next e);; e' ← load (Prev e); mret (inl e')) (hd (tail_of l) xs))
     (fun _ s => segs (path l xs) h
        [Seg NULL [head_of l] (hd (tail_of l) xs); Seg (tail_of l) (rev xs) (head_of l);
         Seg (lastd (head_of l) xs) [tail_of l] NULL] s) h.
Proof.
  intros Hl Hf. pose proof (is_list_nonnull _ _ _ Hl) as Hl0.
  eapply (wp_loop (fun n e s => exists ys zs, xs = ys ++ zs /\ e = hd (tail_of l) zs /\
      n = length zs /\ segs (path l xs) h
       [Seg NULL [head_of l] (hd (tail_of l) xs); Seg e (rev ys) (head_of l);
        Seg (lastd (head_of l) ys) zs (tail_of l); Seg (lastd (head_of l) xs) [tail_of l] NULL] s)).
  3: exact Hf.
  2: { exists [], xs. split_and!; try done. simpl. seg_norm.
       pose proof (linked_segs4 h [] [head_of l] xs [tail_of l] Hl) as Hs.
       destruct (decide (xs = [])) as [->|Hxs].
       - pose proof (proj1 (segs_split _ _ [] [] _ [head_of l] [tail_of l] _ _) Hl) as Hs'.
         by apply (segs_nil _ _ [_]), (segs_nil _ _ [_]).
       - specialize (Hs ltac:(done) Hxs ltac:(done)). apply segs_drop in Hs.
         rewrite (hd_nonempty (tail_of l) NULL), (lastd_nonempty (head_of l) NULL) by done.
         by apply (segs_nil _ _ [_]). }
  intros n e s (ys & zs & Hxs & -> & -> & Hs). wp_step.
  eapply wp_eq; [by apply list_end_nonnull|].
  destruct zs as [|z zs]; simpl.
  - rewrite Z.eqb_refl. wp_step. rewrite app_nil_r in Hxs. subst ys.
    eapply segs_perm in Hs; [|apply perm_skip, perm_swap].
    eapply segs_perm in Hs; [|apply perm_swap]. by apply segs_drop in Hs.
  - rewrite (elem_not_tail h l ys z zs) by (by rewrite <- Hxs).
    apply (segs_split _ _ [_; _] [_] _ [z]) in Hs. seg_norm.
    change (lastd (lastd (head_of l) ys) [z]) with z in Hs.
    seg_upd (swap_node _ _ [_; _]) with Hs.
    seg_read (segs_load_prev _ _ [_; _] [_; _] _ [] _ []) with Hs. wp_step.
    exists (length zs). split; [lia|]. exists (ys ++ [z]), zs.
    rewrite <- app_assoc, rev_unit, lastd_snoc. split_and!; [done..|].
    eapply segs_perm in Hs; [|apply perm_skip, perm_swap].
    eapply (segs_join _ _ [_]) in Hs; [exact Hs|by rewrite hd_rev|done].
Qed.

Lemma list_reverse_ok h l xs fuel :
  is_list h l xs -> (length xs < fuel)%nat ->
  wp (list_reverse fuel l) (fun _ h' => is_list h' l (rev xs) /\ frame (path l xs) h h') h.
Proof.
  intros Hl Hf. unfold list_reverse. wp_read list_empty_ok with Hl.
  destruct (decide (xs = [])) as [->|Hxs].
  { simpl. wp_step. done. }
  rewrite bool_decide_eq_false_2 by done. wp_read list_begin_ok with Hl.
  wp_step. eapply wp_mono; [by apply reverse_loop_ok|]. intros [] h1 Hs. cbv beta in Hs.
  assert (rev xs <> []) as Hrev.
  { intros Hr. apply (f_equal (@rev Z)) in Hr. by rewrite rev_involutive in Hr. }
  unfold swap. wp_step.
  seg_read (segs_load_next _ _ [] _ _ [] _ []) with Hs.
  seg_read (segs_load_prev _ _ [_; _] _ _ [] _ []) with Hs.
  seg_upd (segs_store_next _ _ [] _ _ []) with Hs.
  seg_upd (segs_store_prev _ _ [_; _]) with Hs.
  seg_read (segs_load_next _ _ [] _ _ [] _ []) with Hs.
  seg_read (segs_load_prev _ _ [_; _] _ _ [] _ []) with Hs.
  rewrite <- (hd_rev (head_of l)), <- (lastd_rev (tail_of l)) in *.
  wp_step. eapply wp_eq; [eapply (segs_load_first _ _ [_]); [exact Hs|done]|].
  wp_step. eapply wp_eq; [eapply (segs_load_last _ _ [_]); [exact Hs|done]|].
  seg_store_first [_] Hs. seg_store_last [_] Hs.
  eapply (segs_join _ _ [_]) in Hs; [|done|by apply lastd_nonempty]. cbn [app] in Hs.
  eapply (segs_join _ _ []) in Hs; [|by destruct (rev xs)|done].
  by apply segs_linked.
Qed.
