(* ===== verification/KlistSpec.v ===== *)
(** * The sequence specification of lib/kernel/list.c

    A list is a sequence of elements: [spec_op] says what each operation
    returns and what sequence it leaves, and is undefined where list.c
    documents undefined behaviour (popping an empty list, inserting an element
    that is already in it).  [list_ops_refine] shows that any run of list.c on
    a well-formed list follows the specification and disturbs no other list. *)

From S2P Require Import Prelude Klist.

Inductive list_op :=
  | PushFront (e : Z)
  | PushBack (e : Z)
  | PopFront
  | PopBack
  | Front
  | Back
  | Remove (e : Z)
  | Reverse
  | Size
  | IsEmpty.

Definition b2z (b : bool) : Z := if b then 1 else 0.

(** The C calls; a [void] result is 0. *)
Definition run_op (fuel : nat) (l : Z) (op : list_op) : M heap Z :=
  match op with
  | PushFront e => list_push_front l e;; mret 0
  | PushBack e => list_push_back l e;; mret 0
  | PopFront => list_pop_front l
  | PopBack => list_pop_back l
  | Front => list_front l
  | Back => list_back l
  | Remove e => list_remove e
  | Reverse => list_reverse fuel l;; mret 0
  | Size => list_size fuel l
  | IsEmpty => b ← list_empty l; mret (b2z b)
  end.

Fixpoint run_ops (fuel : nat) (l : Z) (ops : list list_op) : M heap (list Z) :=
  match ops with
  | [] => mret []
  | op :: ops => r ← run_op fuel l op; rs ← run_ops fuel l ops; mret (r :: rs)
  end.

(** Removing an element returns the one that followed it, or the tail [t]. *)
Fixpoint seq_remove (t e : Z) (xs : list Z) : option (Z * list Z) :=
  match xs with
  | [] => None
  | x :: xs => if x =? e then Some (hd t xs, xs)
               else match seq_remove t e xs with
                    | Some (r, ys) => Some (r, x :: ys)
                    | None => None
                    end
  end.

Definition spec_op (t : Z) (op : list_op) (xs : list Z) : option (Z * list Z) :=
  match op with
  | PushFront e => if decide (e ∈ xs) then None else Some (0, e :: xs)
  | PushBack e => if decide (e ∈ xs) then None else Some (0, xs ++ [e])
  | PopFront => match xs with [] => None | x :: xs => Some (x, xs) end
  | PopBack => match rev xs with [] => None | x :: ys => Some (x, rev ys) end
  | Front => match xs with [] => None | x :: _ => Some (x, xs) end
  | Back => match rev xs with [] => None | x :: _ => Some (x, xs) end
  | Remove e => seq_remove t e xs
  | Reverse => Some (0, rev xs)
  | Size => Some (u32 (Z.of_nat (length xs)), xs)
  | IsEmpty => Some (b2z (bool_decide (xs = [])), xs)
  end.

Fixpoint spec_run (t : Z) (ops : list list_op) (xs : list Z) : option (list Z * list Z) :=
  match ops with
  | [] => Some ([], xs)
  | op :: ops =>
      match spec_op t op xs with
      | None => None
      | Some (r, ys) =>
          match spec_run t ops ys with
          | None => None
          | Some (rs, zs) => Some (r :: rs, zs)
          end
      end
  end.

(** The elements a run inserts. *)
Definition pushed (op : list_op) : list Z :=
  match op with PushFront e | PushBack e => [e] | _ => [] end.

(** A pushed element is an allocated [struct list_elem] and not a header of
    the list. *)
Definition pushable (h : heap) (l e : Z) : Prop :=
  e <> NULL /\ e <> head_of l /\ e <> tail_of l /\ is_Some (h !! e).

Lemma seq_remove_split t e xs r ys :
  seq_remove t e xs = Some (r, ys) ->
  exists zs ws, xs = zs ++ e :: ws /\ r = hd t ws /\ ys = zs ++ ws.
Proof.
  revert r ys. induction xs as [|x xs IH]; intros r ys; simpl; [done|].
  destruct (Z.eqb_spec x e) as [->|Hne].
  - intros [= <- <-]. by exists [], xs.
  - destruct (seq_remove t e xs) as [[r' ys']|]; [|done]. intros [= <- <-].
    destruct (IH _ _ eq_refl) as (zs & ws & -> & -> & ->). by exists (x :: zs), ws.
Qed.

Lemma rev_cons_inv (xs : list Z) x ys : rev xs = x :: ys -> xs = rev ys ++ [x].
Proof. intros H. by rewrite <- (rev_involutive xs), H. Qed.

Lemma pushable_not_in h l e xs : pushable h l e -> e ∉ xs -> e ∉ path l xs.
Proof. intros (H1 & H2 & H3 & _) Hx. rewrite path_snoc_elem. tauto. Qed.

Lemma frame_pushable D h h' l e : frame D h h' -> pushable h l e -> pushable h' l e.
Proof.
  intros [Hd _] (H1 & H2 & H3 & H4). split_and!; try done.
  apply elem_of_dom. rewrite Hd. by apply elem_of_dom.
Qed.

(** What one operation leaves: the specified result and sequence, the other
    elements untouched, no element from nowhere. *)
Definition op_post (h : heap) (l : Z) (xs : list Z) (op : list_op) (r : Z) (ys : list Z)
    (r' : Z) (h' : heap) : Prop :=
  r' = r /\ is_list h' l ys /\ frame (pushed op ++ path l xs) h h' /\
  (length ys <= S (length xs))%nat /\ (forall x, x ∈ ys -> x ∈ pushed op ++ xs).

Ltac op_done :=
  unfold op_post; split_and!; try done;
  solve [ rewrite ?length_app, ?length_rev; simpl; lia
        | intros ?; rewrite ?elem_of_app, ?elem_of_cons, ?list_elem_of_In, <- ?in_rev,
            <- ?list_elem_of_In; simpl; set_solver ].

Lemma run_op_ok fuel h l xs op r ys :
  is_list h l xs -> (length xs < fuel)%nat -> Forall (pushable h l) (pushed op) ->
  spec_op (tail_of l) op xs = Some (r, ys) ->
  wp (run_op fuel l op) (op_post h l xs op r ys) h.
Proof.
  intros Hl Hfuel Hp Hspec. destruct op; simpl in *.
  - rewrite Forall_singleton in Hp. destruct (decide _) as [|He]; [done|]. injection Hspec as <- <-.
    wp_step. eapply wp_mono; [apply list_push_front_ok; eauto using pushable_not_in; apply Hp|].
    intros _ h' [Hl' Hf]. wp_step. op_done.
  - rewrite Forall_singleton in Hp. destruct (decide _) as [|He]; [done|]. injection Hspec as <- <-.
    wp_step. eapply wp_mono; [apply list_push_back_ok; eauto using pushable_not_in; apply Hp|].
    intros _ h' [Hl' Hf]. wp_step. op_done.
  - destruct xs as [|x xs]; [done|]. injection Hspec as <- <-.
    eapply wp_mono; [by apply list_pop_front_ok|]. intros r' h' (-> & Hl' & Hf). op_done.
  - destruct (rev xs) as [|x zs] eqn:Hr; [done|]. injection Hspec as <- <-.
    apply rev_cons_inv in Hr as ->.
    eapply wp_mono; [by apply list_pop_back_ok|]. intros r' h' (-> & Hl' & Hf). op_done.
  - destruct xs as [|x xs]; [done|]. injection Hspec as <- <-.
    eapply wp_eq; [by eapply list_front_ok|]. op_done.
  - destruct (rev xs) as [|x zs] eqn:Hr; [done|]. injection Hspec as <- <-.
    apply rev_cons_inv in Hr as ->. eapply wp_eq; [by eapply list_back_ok|]. op_done.
  - apply seq_remove_split in Hspec as (zs & ws & -> & -> & ->).
    eapply wp_mono; [by apply list_remove_ok|]. intros r' h' (-> & Hl' & Hf). op_done.
  - injection Hspec as <- <-. wp_step. eapply wp_mono; [by apply list_reverse_ok|].
    intros _ h' [Hl' Hf]. wp_step. op_done.
  - injection Hspec as <- <-. eapply wp_eq; [by apply list_size_ok|]. op_done.
  - injection Hspec as <- <-. wp_step. eapply wp_eq; [by apply list_empty_ok|]. wp_step. op_done.
Qed.

Lemma run_ops_ok fuel l ops D h xs rs ys :
  is_list h l xs -> (length xs + length ops < fuel)%nat ->
  Forall (pushable h l) (concat (map pushed ops)) ->
  (forall x, x ∈ concat (map pushed ops) ++ path l xs -> x ∈ D) ->
  spec_run (tail_of l) ops xs = Some (rs, ys) ->
  wp (run_ops fuel l ops) (fun rs' h' => rs' = rs /\ is_list h' l ys /\ frame D h h') h.
Proof.
  revert h xs rs. induction ops as [|op ops IH]; intros h xs rs Hl Hfuel Hp HD Hspec; simpl in *.
  { injection Hspec as <- <-. wp_step. done. }
  apply Forall_app in Hp as [Hp Hps].
  destruct (spec_op _ op xs) as [[r zs]|] eqn:Hop; [|done].
  destruct (spec_run _ ops zs) as [[rs2 zs2]|] eqn:Hrun; [|done]. injection Hspec as <- <-.
  wp_step. eapply wp_mono; [eapply run_op_ok; eauto; lia|].
  intros r' h' (-> & Hl' & Hf & Hlen & Hsub). wp_step.
  apply (frame_mono _ D) in Hf; [|set_solver].
  eapply wp_mono; [eapply (IH h' zs); eauto; [lia| |]|].
  - eapply Forall_impl; [exact Hps|]. intros e. by eapply frame_pushable.
  - intros x. rewrite elem_of_app, path_snoc_elem. intros [?|[->|[Hx| ->]]]; apply HD;
      rewrite !elem_of_app, path_snoc_elem; [tauto|tauto| |tauto].
    apply Hsub in Hx. rewrite elem_of_app in Hx. tauto.
  - intros rs' h'' (-> & Hl'' & Hf'). wp_step. split_and!; try done. by eapply frame_trans.
Qed.

(** C5 (refinement): from a well-formed list, every sequence of list.c calls
    that the sequence specification allows runs without a fault, returns
    exactly the specified results, leaves a well-formed list holding the
    specified elements in the specified order, and leaves every list that
    shares no element with it as it was.  The loops of [list_size] and
    [list_reverse] need one iteration more than the list has elements. *)
Theorem list_ops_refine fuel h l xs ops rs ys :
  is_list h l xs ->
  (length xs + length ops < fuel)%nat ->
  Forall (pushable h l) (concat (map pushed ops)) ->
  spec_run (tail_of l) ops xs = Some (rs, ys) ->
  exists h', run_ops fuel l ops h = Ok (rs, h') /\ is_list h' l ys /\
    forall l2 zs, is_list h l2 zs ->
      path l2 zs ## (concat (map pushed ops) ++ path l xs) -> is_list h' l2 zs.
Proof.
  intros Hl Hfuel Hp Hspec.
  assert (wp (run_ops fuel l ops) (fun rs' h' => rs' = rs /\ is_list h' l ys /\
    frame (concat (map pushed ops) ++ path l xs) h h') h) as Hwp by (eapply run_ops_ok; eauto).
  apply wp_iff in Hwp as (rs' & h' & Hrun & -> & Hl' & Hf).
  exists h'. split_and!; try done. intros l2 zs Hl2 Hd. eapply linked_frame; [|exact Hf|exact Hl2].
  intros x Hx Hx'. by apply (Hd x).
Qed.

(** A queue at address 100 and two elements at 200 and 300. *)
Definition demo_heap : heap :=
  <[100 := ListElem 0 108]> (<[108 := ListElem 100 0]>
  (<[200 := ListElem 0 0]> (<[300 := ListElem 0 0]> ∅))).

Lemma demo_heap_empty : is_list demo_heap 100 [].
Proof.
  apply linked_iff. split_and!; [|by compute_done|by split_and!].
  apply (bool_decide_unpack _). by vm_compute.
Qed.

Lemma list_ops_refine_witness :
  exists h', run_ops 10 100 [PushBack 200; PushBack 300; Reverse; Size; PopFront] demo_heap
    = Ok ([0; 0; 0; 2; 300], h') /\ is_list h' 100 [200].
Proof.
  destruct (list_ops_refine 10 demo_heap 100 [] [PushBack 200; PushBack 300; Reverse; Size; PopFront]
    [0; 0; 0; 2; 300] [200]) as (h' & Hrun & Hl & _).
  - exact demo_heap_empty.
  - simpl. lia.
  - repeat constructor; try done; by eexists.
  - by vm_compute.
  - exists h'. by split.
Defined.
