(* ===== verification/KlistSort.v ===== *)
(** * The ordered operations of lib/kernel/list.c

    [list_sort] (a natural, iterative, in-place merge sort), the functions it
    is made of, [list_insert_ordered], [list_unique], [list_max] and
    [list_min].  Each heap program is related to a function on sequences, and
    the functions on sequences are proved to sort, insert and search. *)

From Stdlib Require Import Sorting.Sorted.
From S2P Require Import Prelude Klist.

Section sequences.
Context (less : Z -> Z -> bool).

(** [le x y]: [x] may stand before [y], that is, not [less (y, x)]. *)
Definition le (x y : Z) : Prop := less y x = false.

(** No element is less than the one before it: what [is_sorted] tests. *)
Fixpoint sortedb (xs : list Z) : bool :=
  match xs with
  | x :: xs' => match xs' with y :: _ => negb (less y x) && sortedb xs' | [] => true end
  | [] => true
  end.

(** The number of places where an element is less than the one before. *)
Fixpoint descents (xs : list Z) : nat :=
  match xs with
  | x :: xs' => match xs' with
                | y :: _ => (if less y x then 1 else 0) + descents xs'
                | [] => 0
                end
  | [] => 0
  end%nat.

(** The longest run from [x], and what follows it. *)
Fixpoint take_run (x : Z) (xs : list Z) : list Z * list Z :=
  match xs with
  | [] => ([x], [])
  | y :: ys => if less y x then ([x], xs)
               else let '(r, rest) := take_run y ys in (x :: r, rest)
  end.

Fixpoint merge (xs : list Z) : list Z -> list Z :=
  fix merge_aux (ys : list Z) : list Z :=
    match xs, ys with
    | [], _ => ys
    | _, [] => xs
    | x :: xs', y :: ys' =>
        if negb (less y x) then x :: merge xs' ys else y :: merge_aux ys'
    end.

(** One pass of the sort: merge runs two by two; the result and the number of
    runs output. *)
Fixpoint sort_pass (n : nat) (xs : list Z) : list Z * nat :=
  match n, xs with
  | S n, x :: xs' =>
      let '(r1, rest) := take_run x xs' in
      match rest with
      | [] => (r1, 1%nat)
      | z :: rest' =>
          let '(r2, rest2) := take_run z rest' in
          let '(out, c) := sort_pass n rest2 in (merge r1 r2 ++ out, S c)
      end
  | _, _ => ([], 0%nat)
  end.

Fixpoint insert_ordered (e : Z) (xs : list Z) : list Z :=
  match xs with
  | [] => [e]
  | x :: xs' => if less e x then e :: xs else x :: insert_ordered e xs'
  end.

(** The elements kept after [e] and the duplicates taken out. *)
Fixpoint unique_from (e : Z) (xs : list Z) : list Z * list Z :=
  match xs with
  | [] => ([], [])
  | x :: xs' =>
      if negb (less e x) && negb (less x e)
      then let '(ks, ds) := unique_from e xs' in (ks, x :: ds)
      else let '(ks, ds) := unique_from x xs' in (x :: ks, ds)
  end.

Fixpoint max_from (m : Z) (xs : list Z) : Z :=
  match xs with
  | [] => m
  | x :: xs' => max_from (if less m x then x else m) xs'
  end.

Fixpoint min_from (m : Z) (xs : list Z) : Z :=
  match xs with
  | [] => m
  | x :: xs' => min_from (if less x m then x else m) xs'
  end.

Lemma sortedb_Sorted xs : sortedb xs = true <-> Sorted le xs.
Proof.
  induction xs as [|x [|y xs] IH]; simpl.
  - split; [constructor|done].
  - split; [by repeat constructor|done].
  - rewrite andb_true_iff, negb_true_iff, IH. split.
    + intros [H1 H2]. constructor; [done|by constructor].
    + intros H. apply Sorted_inv in H as [H1 H2]. apply HdRel_inv in H2. done.
Qed.

Lemma descents_Sorted xs : descents xs = 0%nat <-> Sorted le xs.
Proof.
  rewrite <- sortedb_Sorted. induction xs as [|x [|y xs] IH]; [done|done|].
  change (descents (x :: y :: xs)) with ((if less y x then 1 else 0) + descents (y :: xs))%nat.
  change (sortedb (x :: y :: xs)) with (negb (less y x) && sortedb (y :: xs)).
  rewrite andb_true_iff, <- IH. destruct (less y x); simpl; intuition (try lia; done).
Qed.

Lemma descents_app xs ys : (descents (xs ++ ys) <= descents xs + descents ys + 1)%nat.
Proof.
  induction xs as [|x [|x' xs] IH]; simpl; [lia| |].
  - destruct ys as [|y ys]; [simpl; lia|]. destruct (less y x); lia.
  - simpl in IH. destruct (less x' x); lia.
Qed.

Lemma descents_length xs : (descents xs <= length xs)%nat.
Proof.
  induction xs as [|x [|y xs] IH]; simpl; [lia|lia|]. simpl in IH. destruct (less y x); lia.
Qed.

Lemma take_run_spec x xs r rest :
  take_run x xs = (r, rest) ->
  x :: xs = r ++ rest /\ hd 0 r = x /\ r <> [] /\ sortedb r = true /\
  (rest <> [] -> descents (x :: xs) = S (descents rest)).
Proof.
  revert x r rest. induction xs as [|y ys IH]; intros x r rest; simpl.
  - intros [= <- <-]. split_and!; done.
  - destruct (less y x) eqn:Hyx.
    + intros [= <- <-]. split_and!; done.
    + destruct (take_run y ys) as [r' rest'] eqn:Hrun. intros [= <- <-].
      destruct (IH _ _ _ Hrun) as (H1 & H2 & H3 & H4 & H5).
      split_and!; try done; [by rewrite H1|].
      destruct r' as [|y' r']; [done|]. simpl in H2. subst y'. simpl in *. by rewrite Hyx.
Qed.

(** Neighbours that [list_unique] leaves differ. *)
Definition differ (x y : Z) : Prop := less x y || less y x = true.

Lemma unique_from_spec e xs ks rs :
  unique_from e xs = (ks, rs) ->
  ks ++ rs ≡ₚ xs /\ Sorted differ (e :: ks) /\
  Forall (fun r => exists k, k ∈ e :: ks /\ less k r = false /\ less r k = false) rs.
Proof.
  revert e ks rs. induction xs as [|x xs IH]; intros e ks rs; simpl.
  { intros [= <- <-]. by repeat constructor. }
  destruct (negb (less e x) && negb (less x e)) eqn:Heq.
  - destruct (unique_from e xs) as [ks' rs'] eqn:Hu. intros [= <- <-].
    destruct (IH _ _ _ Hu) as (Hp & Hs & Hr). split_and!; [|done|].
    + by rewrite <- Permutation_middle, Hp.
    + apply andb_true_iff in Heq as [H1 H2]. apply negb_true_iff in H1, H2.
      constructor; [|done]. exists e. split_and!; [set_solver|done|done].
  - destruct (unique_from x xs) as [ks' rs'] eqn:Hu. intros [= <- <-].
    destruct (IH _ _ _ Hu) as (Hp & Hs & Hr). split_and!.
    + simpl. by rewrite Hp.
    + constructor; [done|]. constructor. unfold differ.
      apply andb_false_iff in Heq as [H|H]; apply negb_false_iff in H; rewrite H; [done|apply orb_true_r].
    + eapply Forall_impl; [exact Hr|]. simpl. intros r (k & Hk & Hkr). exists k. split; [set_solver|done].
Qed.

Lemma merge_nil_r xs : merge xs [] = xs.
Proof. by destruct xs. Qed.

Lemma merge_perm xs ys : merge xs ys ≡ₚ xs ++ ys.
Proof.
  revert ys. induction xs as [|x xs IHx]; intros ys; [by destruct ys|].
  induction ys as [|y ys IHy]; [by rewrite merge_nil_r, app_nil_r|].
  simpl. destruct (negb (less y x)).
  - by rewrite IHx.
  - change (y :: merge (x :: xs) ys ≡ₚ x :: xs ++ y :: ys). rewrite IHy.
    by rewrite (Permutation_middle (x :: xs)).
Qed.

Lemma sort_pass_perm n xs out c :
  sort_pass n xs = (out, c) -> (length xs <= n)%nat -> out ≡ₚ xs.
Proof.
  revert xs out c. induction n as [|n IH]; intros xs out c; simpl.
  { intros [= <- <-]. by destruct xs; simpl; [|lia]. }
  destruct xs as [|x xs]; [by intros [= <- <-]|].
  destruct (take_run x xs) as [r1 rest] eqn:H1. apply take_run_spec in H1 as (H1 & _ & Hr1 & _ & _).
  destruct rest as [|z rest]; [intros [= <- <-] _; by rewrite H1, app_nil_r|].
  destruct (take_run z rest) as [r2 rest2] eqn:H2. apply take_run_spec in H2 as (H2 & _ & Hr2 & _ & _).
  destruct (sort_pass n rest2) as [out' c'] eqn:Hp. intros [= <- <-] Hlen.
  rewrite H1, H2, (merge_perm r1 r2), <- app_assoc. do 2 f_equiv.
  eapply IH; [done|]. apply (f_equal length) in H1, H2. rewrite length_app in H1, H2. simpl in *.
  destruct r1; simpl in *; [done|lia].
Qed.

(** ** Correctness of the functions on sequences, for a strict weak order *)
Context (less_asym : forall x y, less x y = true -> less y x = false).
Context (le_trans : forall x y z, less y x = false -> less z y = false -> less z x = false).

Lemma merge_hd x xs ys zs :
  HdRel le x ys -> HdRel le x zs -> xs = merge ys zs -> HdRel le x xs.
Proof.
  intros Hy Hz ->. destruct ys as [|y ys], zs as [|z zs]; simpl; try done.
  destruct (negb (less z y)); constructor.
  - by apply HdRel_inv in Hy.
  - by apply HdRel_inv in Hz.
Qed.

Lemma merge_sorted xs ys : Sorted le xs -> Sorted le ys -> Sorted le (merge xs ys).
Proof.
  revert ys. induction xs as [|x xs IHx]; intros ys Hx Hy; [by destruct ys|].
  induction ys as [|y ys IHy]; [by rewrite merge_nil_r|].
  apply Sorted_inv in Hx as Hx'. destruct Hx' as [Hxs Hhx].
  apply Sorted_inv in Hy as Hy'. destruct Hy' as [Hys Hhy].
  simpl. destruct (less y x) eqn:Hyx; simpl.
  - constructor; [by apply IHy|]. change (HdRel le y (merge (x :: xs) ys)).
    eapply merge_hd; [|exact Hhy|done]. constructor. by apply less_asym.
  - constructor; [by apply IHx|]. eapply merge_hd; [exact Hhx| |done]. by constructor.
Qed.

Lemma sort_pass_counts n xs out c :
  sort_pass n xs = (out, c) -> (length xs <= n)%nat -> xs <> [] ->
  (1 <= c /\ S (descents out) <= c /\ 2 * c <= descents xs + 2)%nat.
Proof.
  revert xs out c. induction n as [|n IH]; intros xs out c; simpl.
  { intros _ Hl. by destruct xs; simpl in *; [|lia]. }
  destruct xs as [|x xs]; [done|].
  destruct (take_run x xs) as [r1 rest] eqn:H1.
  apply take_run_spec in H1 as (H1 & _ & Hr1 & Hs1 & Hd1).
  rewrite sortedb_Sorted in Hs1.
  destruct rest as [|z rest].
  { intros [= <- <-] _ _. apply descents_Sorted in Hs1. lia. }
  specialize (Hd1 ltac:(done)).
  destruct (take_run z rest) as [r2 rest2] eqn:H2.
  apply take_run_spec in H2 as (H2 & _ & Hr2 & Hs2 & Hd2). rewrite sortedb_Sorted in Hs2.
  destruct (sort_pass n rest2) as [out' c'] eqn:Hp. intros [= <- <-] Hlen _.
  pose proof (merge_sorted _ _ Hs1 Hs2) as Hm. apply descents_Sorted in Hm.
  pose proof (descents_app (merge r1 r2) out') as Ha.
  assert (length rest2 <= n)%nat as Hl2.
  { apply (f_equal length) in H1, H2. rewrite length_app in H1, H2. simpl in *.
    destruct r1; simpl in *; [done|lia]. }
  destruct (decide (rest2 = [])) as [->|Hne].
  - assert (out' = [] /\ c' = 0%nat) as [-> ->] by (destruct n; simpl in Hp; by injection Hp as <- <-).
    rewrite app_nil_r in *. split_and!; lia.
  - specialize (Hd2 Hne). destruct (IH _ _ _ Hp Hl2 Hne) as (Ha1 & Ha2 & Ha3). lia.
Qed.

Lemma insert_ordered_perm e xs : insert_ordered e xs ≡ₚ e :: xs.
Proof.
  induction xs as [|x xs IH]; simpl; [done|]. destruct (less e x); [done|].
  rewrite IH. apply Permutation_swap.
Qed.

Lemma insert_ordered_sorted e xs : Sorted le xs -> Sorted le (insert_ordered e xs).
Proof.
  induction xs as [|x xs IH]; simpl; intros Hs; [by repeat constructor|].
  destruct (less e x) eqn:Hex.
  - constructor; [done|]. constructor. by apply less_asym.
  - apply Sorted_inv in Hs as [Hs Hh]. constructor; [by apply IH|].
    destruct xs as [|y xs]; simpl; [by repeat constructor|].
    apply HdRel_inv in Hh. by destruct (less e y); constructor.
Qed.

Lemma less_irrefl x : less x x = false.
Proof. destruct (less x x) eqn:H; [|done]. by rewrite <- H, (less_asym _ _ H). Qed.

Lemma less_trans x y z : less x y = true -> less y z = true -> less x z = true.
Proof.
  intros Hxy Hyz. destruct (less x z) eqn:Hxz; [done|].
  rewrite (le_trans y z x) in Hxy; [done|by apply less_asym|done].
Qed.

(** The first of the largest elements. *)
Lemma max_from_spec m xs pre :
  Forall (fun x => less x m = true) pre ->
  exists ys zs, pre ++ m :: xs = ys ++ max_from m xs :: zs /\
    Forall (fun x => less x (max_from m xs) = true) ys /\
    Forall (fun x => less (max_from m xs) x = false) (m :: xs).
Proof.
  assert (forall m xs pre mid, Forall (fun x => less x m = true) pre ->
    Forall (fun x => less m x = false) mid ->
    exists ys zs, pre ++ m :: mid ++ xs = ys ++ max_from m xs :: zs /\
      Forall (fun x => less x (max_from m xs) = true) ys /\
      Forall (fun x => less (max_from m xs) x = false) (m :: mid ++ xs)) as Hgen.
  { clear m xs pre. intros m xs. revert m. induction xs as [|x xs IH]; intros m pre mid Hpre Hmid; simpl.
    - exists pre, (mid ++ []). split_and!; [done|done|]. rewrite app_nil_r.
      constructor; [apply less_irrefl|done].
    - destruct (less m x) eqn:Hmx.
      + destruct (IH x (pre ++ m :: mid) []) as (ys & zs & H1 & H2 & H3).
        * apply Forall_app. split; [|constructor; [done|]].
          -- eapply Forall_impl; [exact Hpre|]. simpl. intros y Hy. by eapply less_trans.
          -- eapply Forall_impl; [exact Hmid|]. simpl. intros y Hy.
             destruct (less y x) eqn:Hyx; [done|]. by rewrite (le_trans x y m) in Hmx.
        * done.
        * exists ys, zs. rewrite <- app_assoc in H1. simpl in *. split_and!; [done|done|].
          rewrite !Forall_cons, Forall_app, Forall_cons. apply Forall_cons in H3 as [H3 H4].
          split_and!; [|eapply Forall_impl; [exact Hmid|]|done|done]; simpl.
          -- eapply le_trans; [|exact H3]. by apply less_asym.
          -- intros y Hy. eapply le_trans; [|exact H3].
             destruct (less x y) eqn:Hxy; [|done].
             by rewrite (less_trans m x y) in Hy.
      + destruct (IH m pre (mid ++ [x])) as (ys & zs & H1 & H2 & H3); [done| |].
        * apply Forall_app. split; [done|]. by constructor.
        * rewrite <- app_assoc in H1, H3. by exists ys, zs. }
  intros Hpre. by apply (Hgen m xs pre []).
Qed.
End sequences.

Lemma min_max_from less m xs : min_from less m xs = max_from (fun x y => less y x) m xs.
Proof. revert m. induction xs as [|x xs IH]; intros m; simpl; [done|]. by rewrite IH. Qed.

(** ** The heap programs compute the functions on sequences *)
Section programs.
Context (less : Z -> Z -> bool) (l : Z).
Abbreviation T := (tail_of l).
Implicit Types xs ys A B : list Z.

(** Two positions of a list are equal pointers only if nothing is between. *)
Lemma pos_eqb h xs A ys :
  is_list h l (xs ++ A ++ ys) -> (hd T (A ++ ys) =? hd T ys) = bool_decide (A = []).
Proof.
  intros Hl. destruct A as [|a A]; simpl; [by rewrite Z.eqb_refl|]. apply Z.eqb_neq.
  destruct ys as [|y ys]; simpl.
  - apply Z.eqb_neq. by eapply elem_not_tail.
  - intros ->. apply linked_iff in Hl as (Hnd & _). unfold path in Hnd.
    rewrite <- app_assoc in Hnd. simpl in Hnd.
    apply (NoDup_after (head_of l :: xs)) in Hnd. set_solver.
Qed.

Lemma pos_nonnull h xs ys : is_list h l (xs ++ ys) -> (hd T ys =? NULL) = false.
Proof.
  intros Hl. apply linked_iff in Hl as (_ & Hn & _). apply Z.eqb_neq. intros Heq.
  rewrite path_snoc_elem in Hn. destruct ys as [|y ys]; simpl in Heq; [by rewrite Heq in Hn; tauto|].
  set_solver.
Qed.

Lemma is_sorted_ok h xs A ys fuel :
  is_list h l (xs ++ A ++ ys) -> (length A < fuel)%nat ->
  is_sorted less fuel (hd T (A ++ ys)) (hd T ys) h = Ok (sortedb less A, h).
Proof.
  intros Hl Hf. unfold is_sorted. rewrite (pos_eqb h xs) by done.
  destruct A as [|a A]; [done|]. remember (sortedb less (a :: A)) as sb eqn:Hsb.
  apply wp_pure. simpl.
  eapply (wp_loop (fun n e s => s = h /\ exists A1 A2, a :: A = A1 ++ e :: A2 /\
    sb = sortedb less (e :: A2) /\ n = length A2)).
  3: { instantiate (1 := length A). simpl in Hf. lia. }
  2: { split; [done|]. by exists [], A. }
  intros n e s (-> & A1 & A2 & HA & Hsort & ->).
  rewrite HA in Hl. rewrite <- app_assoc in Hl. rewrite app_assoc in Hl.
  wp_read list_next_ok with Hl. rewrite <- app_assoc in Hl.
  assert (is_list h l ((xs ++ A1 ++ [e]) ++ A2 ++ ys)) as Hl' by by rewrite <- !app_assoc.
  rewrite (pos_eqb h (xs ++ A1 ++ [e])) by done.
  destruct A2 as [|b A2]; simpl.
  - wp_step. done.
  - wp_step. eapply wp_eq; [eapply (list_prev_ok h l (xs ++ A1 ++ [e]) (b :: A2 ++ ys)); exact Hl'|].
    rewrite app_assoc, lastd_snoc. destruct (less b e) eqn:Hbe; wp_step.
    + split; [|done]. simpl in Hsort. by rewrite Hbe in Hsort.
    + exists (length A2). split; [simpl; lia|]. split; [done|]. exists (A1 ++ [e]), A2.
      rewrite <- app_assoc. split_and!; [done| |done].
      rewrite Hsort. simpl. by rewrite Hbe.
Qed.

Lemma find_end_of_run_ok h xs a A r rest fuel :
  is_list h l (xs ++ a :: A) -> (length A < fuel)%nat -> take_run less a A = (r, rest) ->
  find_end_of_run less fuel a T h = Ok (hd T rest, h).
Proof.
  intros Hl Hf Hrun. unfold find_end_of_run.
  assert ((a =? NULL) = false) as Ha by by eapply (pos_nonnull h xs (a :: A)).
  assert ((T =? NULL) = false) as HT by (eapply (pos_nonnull h (xs ++ a :: A) []); by rewrite app_nil_r).
  assert ((a =? T) = false) as HaT by by eapply elem_not_tail.
  rewrite Ha, HT, HaT. apply wp_pure. do 6 wp_step.
  eapply (wp_loop (fun n e s => s = h /\ exists A1 A2 r2, a :: A = A1 ++ e :: A2 /\
    take_run less e A2 = (r2, rest) /\ n = length A2)).
  3: exact Hf.
  2: { split; [done|]. by exists [], A, r. }
  clear r Hrun. intros n e s (-> & A1 & A2 & r2 & HA & Hrun & ->).
  rewrite HA in Hl. rewrite app_assoc in Hl.
  wp_read list_next_ok with Hl. rewrite <- app_assoc in Hl.
  assert (is_list h l ((xs ++ A1 ++ [e]) ++ A2)) as Hl' by by rewrite <- !app_assoc.
  destruct A2 as [|b A2]; simpl in *.
  - rewrite Z.eqb_refl. wp_step. by injection Hrun as <- <-.
  - rewrite (elem_not_tail _ _ _ _ _ Hl'). wp_step.
    eapply wp_eq; [eapply (list_prev_ok h l _ (b :: A2)); exact Hl'|].
    rewrite app_assoc, lastd_snoc. destruct (less b e) eqn:Hbe; wp_step.
    + by injection Hrun as <- <-.
    + destruct (take_run less b A2) as [r3 rest3] eqn:Hrun3. injection Hrun as <- <-.
      exists (length A2). split; [lia|]. split; [done|]. exists (A1 ++ [e]), A2, r3.
      by rewrite <- app_assoc.
Qed.

(** Moving the element after a non-empty stretch [A] to before it. *)
Lemma splice_one h xs A b ys :
  is_list h l (xs ++ A ++ b :: ys) -> A <> [] ->
  wp (list_splice (hd T A) b (hd T ys)) (fun _ h' =>
    is_list h' l (xs ++ b :: A ++ ys) /\ frame (path l (xs ++ A ++ b :: ys)) h h') h.
Proof.
  intros Hl HA.
  pose proof (list_splice_before h (head_of l :: xs) A [b] (ys ++ [T])) as Hsp.
  unfold is_list, path in *. simpl in Hsp. rewrite <- !app_assoc in *. simpl in *.
  rewrite <- !app_assoc. rewrite (hd_nonempty T NULL A) by done.
  replace (hd T ys) with (hd NULL (ys ++ [T])) by by destruct ys.
  apply Hsp; try done. by destruct ys.
Qed.

Lemma path_perm xs ys : xs ≡ₚ ys -> forall x, x ∈ path l xs <-> x ∈ path l ys.
Proof. intros Hp x. rewrite !path_snoc_elem. by rewrite Hp. Qed.

Lemma inplace_merge_ok h xs A B ys fuel :
  is_list h l (xs ++ A ++ B ++ ys) -> sortedb less A = true -> sortedb less B = true ->
  (length A + length B < fuel)%nat ->
  wp (inplace_merge less fuel (hd T (A ++ B ++ ys)) (hd T (B ++ ys)) (hd T ys)) (fun _ h' =>
    is_list h' l (xs ++ merge less A B ++ ys) /\ frame (path l (xs ++ A ++ B ++ ys)) h h') h.
Proof.
  intros Hl HsA HsB Hf. unfold inplace_merge.
  assert (is_list h l ((xs ++ A) ++ B ++ ys)) as Hl1 by by rewrite <- app_assoc.
  assert (is_list h l (((xs ++ A) ++ B) ++ ys)) as Hl2 by by rewrite <- app_assoc.
  rewrite (pos_nonnull _ _ _ Hl), (pos_nonnull _ _ _ Hl1), (pos_nonnull _ _ _ Hl2). do 6 wp_step.
  wp_step. eapply wp_eq; [apply (is_sorted_ok h xs A (B ++ ys)); [done|lia]|]. rewrite HsA. do 2 wp_step.
  wp_step. eapply wp_eq; [apply (is_sorted_ok h (xs ++ A) B ys); [done|lia]|]. clear Hl1 Hl2.
  rewrite HsB. do 2 wp_step.
  eapply (wp_loop (fun n '(a0, a1b0) s => exists P A' B',
    is_list s l ((xs ++ P) ++ A' ++ B' ++ ys) /\ merge less A B = P ++ merge less A' B' /\
    a0 = hd T (A' ++ B' ++ ys) /\ a1b0 = hd T (B' ++ ys) /\ n = (length A' + length B')%nat /\
    xs ++ A ++ B ++ ys ≡ₚ (xs ++ P) ++ A' ++ B' ++ ys /\ frame (path l (xs ++ A ++ B ++ ys)) h s)).
  3: exact Hf.
  2: { exists [], A, B. rewrite app_nil_r. by split_and!. }
  clear HsA HsB Hf Hl. intros n [a0 a1b0] s (P & A' & B' & Hl & Hm & -> & -> & -> & Hperm & Hfr).
  rewrite (pos_eqb s (xs ++ P)) by done.
  rewrite (pos_eqb s ((xs ++ P) ++ A') B' ys) by by rewrite <- app_assoc.
  destruct A' as [|a A']; simpl.
  { wp_step. split; [|done]. rewrite Hm. replace (merge less [] B') with B' by by destruct B'.
    simpl in Hl. by rewrite <- !app_assoc in *. }
  destruct B' as [|b B']; simpl.
  { wp_step. split; [|done]. rewrite Hm, merge_nil_r. simpl in Hl.
    by rewrite <- !app_assoc in *. }
  simpl in *. destruct (less b a) eqn:Hba; simpl in *.
  - assert (is_list s l (((xs ++ P) ++ a :: A') ++ b :: B' ++ ys)) as Hl1 by by rewrite <- app_assoc.
    wp_read list_next_ok with Hl1.
    assert (is_list s l (((xs ++ P) ++ a :: A' ++ [b]) ++ B' ++ ys)) as Hl2
      by (rewrite <- !app_assoc in *; simpl; by rewrite <- !app_assoc).
    wp_read list_prev_ok with Hl2. rewrite app_comm_cons, app_assoc, lastd_snoc.
    wp_step. eapply wp_mono; [by apply (splice_one s (xs ++ P) (a :: A') b (B' ++ ys))|].
    intros _ s' [Hl' Hf']. wp_step. exists (S (length A') + length B')%nat. split; [lia|].
    exists (P ++ [b]), (a :: A'), B'. simpl in *. rewrite <- !app_assoc in *. simpl in *.
    split_and!; [done|done|done|done|done| |].
    + rewrite Hperm. do 2 f_equiv. symmetry. apply (Permutation_middle (a :: A')).
    + eapply frame_trans; [exact Hfr|]. eapply frame_mono; [|exact Hf'].
      intros x. by rewrite (path_perm _ _ Hperm).
  - wp_step. eapply wp_eq; [eapply list_next_ok; exact Hl|]. wp_step.
    exists (length A' + S (length B'))%nat. split; [lia|]. exists (P ++ [a]), A', (b :: B').
    simpl. rewrite <- !app_assoc in *. by split_and!.
Qed.

(** One pass; the counter does not wrap because the elements are fewer than
    the addresses. *)
Lemma list_sort_pass_ok h xs out c fuel :
  is_list h l xs -> (length xs < fuel)%nat -> Z.of_nat (length xs) < 2 ^ 32 ->
  sort_pass less (length xs) xs = (out, c) ->
  wp (list_sort_pass less fuel l) (fun r h' =>
    r = Z.of_nat c /\ is_list h' l out /\ frame (path l xs) h h') h.
Proof.
  intros Hl Hf Hw Hpass. unfold list_sort_pass. wp_read list_begin_ok with Hl.
  eapply (wp_loop (fun n '(a0, cnt) s => exists P ys m out' c' k,
    is_list s l (P ++ ys) /\ a0 = hd T ys /\ sort_pass less m ys = (out', c') /\
    (length ys <= m)%nat /\ out = P ++ out' /\ c = (k + c')%nat /\ cnt = Z.of_nat k /\
    n = length ys /\ (k + length ys <= length xs)%nat /\ xs ≡ₚ P ++ ys /\ frame (path l xs) h s)).
  3: exact Hf.
  2: { exists [], xs, (length xs), out, c, 0%nat. split_and!; done || lia. }
  clear Hpass Hl.
  intros n [a0 cnt] s (P & ys & m & out' & c' & k & Hl & -> & Hpass & Hm & -> & -> & -> & -> & Hk & Hperm & Hfr).
  wp_read list_end_ok with Hl.
  destruct ys as [|y ys]; simpl.
  { rewrite Z.eqb_refl. wp_step.
    assert (out' = [] /\ c' = 0%nat) as [-> ->] by (destruct m; by injection Hpass as <- <-).
    by rewrite Nat.add_0_r. }
  rewrite (elem_not_tail _ _ _ _ _ Hl). wp_read list_end_ok with Hl.
  destruct m as [|m]; simpl in *; [lia|].
  destruct (take_run less y ys) as [r1 rest] eqn:Hr1.
  pose proof (take_run_spec _ _ _ _ _ Hr1) as (H1 & Hh1 & Hn1 & Hs1 & _).
  assert (length ys < fuel)%nat by (apply Permutation_length in Hperm; rewrite length_app in Hperm; simpl in *; lia).
  wp_step. eapply wp_eq; [by eapply find_end_of_run_ok|]. wp_read list_end_ok with Hl.
  assert (u32 (Z.of_nat k + 1) = Z.of_nat (S k)) as -> by (rewrite wrap_small; lia).
  destruct rest as [|z rest]; simpl.
  { rewrite Z.eqb_refl. wp_step. injection Hpass as <- <-. rewrite app_nil_r in H1.
    rewrite <- H1. split_and!; [lia|done|done]. }
  assert (is_list s l ((P ++ r1) ++ z :: rest)) as Hl2 by (by rewrite <- app_assoc, <- H1).
  rewrite (elem_not_tail _ _ _ _ _ Hl2). wp_read list_end_ok with Hl2.
  destruct (take_run less z rest) as [r2 rest2] eqn:Hr2.
  pose proof (take_run_spec _ _ _ _ _ Hr2) as (H2 & Hh2 & Hn2 & Hs2 & _).
  assert (length (y :: ys) = length r1 + (length r2 + length rest2))%nat as Hlen
    by (by rewrite H1, H2, !length_app).
  destruct (sort_pass less m rest2) as [out2 c2] eqn:Hp2. injection Hpass as <- <-.
  wp_step. eapply wp_eq; [eapply find_end_of_run_ok; [exact Hl2| |exact Hr2]|].
  { apply (f_equal length) in H1. rewrite length_app in H1. simpl in *. lia. }
  rewrite H2 in Hl2, H1. rewrite <- app_assoc in Hl2.
  wp_step. replace y with (hd T (r1 ++ r2 ++ rest2)) by (by destruct r1; simplify_eq/=).
  replace z with (hd T (r2 ++ rest2)) by (by destruct r2; simplify_eq/=).
  eapply wp_mono; [apply (inplace_merge_ok s P r1 r2 rest2); [done..|simpl in *; lia]|].
  intros _ s' [Hl' Hf']. wp_step. exists (length rest2).
  assert (0 < length r1)%nat by (destruct r1; simpl; [done|lia]).
  split; [simpl in *; lia|].
  exists (P ++ merge less r1 r2), rest2, m, out2, c2, (S k).
  rewrite <- !app_assoc. rewrite H1 in Hperm.
  split_and!; try done; [simpl in *; lia|lia|simpl in *; lia| |].
  - rewrite Hperm. f_equiv. by rewrite (merge_perm less r1 r2), <- app_assoc.
  - eapply frame_trans; [exact Hfr|]. eapply frame_mono; [|exact Hf'].
    intros x. by rewrite (path_perm _ _ Hperm).
Qed.

End programs.

Section sorting.
Context (less : Z -> Z -> bool) (l : Z).
Context (less_asym : forall x y, less x y = true -> less y x = false).

Lemma list_sort_ok h xs fuel :
  is_list h l xs -> (length xs < fuel)%nat -> Z.of_nat (length xs) < 2 ^ 32 ->
  wp (list_sort less fuel l) (fun _ h' => exists ys,
    is_list h' l ys /\ ys ≡ₚ xs /\ Sorted (le less) ys /\ frame (path l xs) h h') h.
Proof.
  intros Hl Hf Hw. unfold list_sort.
  pose proof (is_list_nonnull _ _ _ Hl) as Hl0. do 2 wp_step. wp_step. eapply wp_mono.
  { eapply (wp_loop (fun n _ s => exists ys, is_list s l ys /\ ys ≡ₚ xs /\ n = descents less ys /\
      frame (path l xs) h s)
      _ (fun _ s => exists ys, is_list s l ys /\ ys ≡ₚ xs /\ Sorted (le less) ys /\
           frame (path l xs) h s)).
    3: { instantiate (1 := descents less xs). pose proof (descents_length less xs). lia. }
    2: { by exists xs. }
    intros n [] s (ys & Hl' & Hp & -> & Hfr).
    pose proof (Permutation_length Hp) as Hlen.
    destruct (sort_pass less (length ys) ys) as [out c] eqn:Hpass.
    wp_step. eapply wp_mono; [eapply list_sort_pass_ok; [exact Hl'|lia|lia|exact Hpass]|].
    intros r s' (-> & Hl'' & Hf').
    assert (out ≡ₚ xs) as Hp' by (etrans; [by eapply sort_pass_perm|done]).
    apply (frame_mono _ (path l xs)) in Hf'; [|intros x; by rewrite (path_perm l _ _ Hp)].
    assert (frame (path l xs) h s') as Hfr' by by eapply frame_trans.
    destruct (decide (ys = [])) as [->|Hne].
    { injection Hpass as <- <-. simpl. wp_step. exists [].
      split_and!; [done|done|constructor|done]. }
    destruct (sort_pass_counts less less_asym _ _ _ _ Hpass ltac:(lia) Hne) as (Hc1 & Hc2 & Hc3).
    destruct (Z.ltb_spec 1 (Z.of_nat c)); wp_step.
    - exists (descents less out). split; [lia|]. by exists out.
    - exists out. split_and!; [done|done| |done]. apply descents_Sorted. lia. }
  intros [] s (ys & Hl' & Hp & Hs & Hfr). wp_read list_begin_ok with Hl'. wp_read list_end_ok with Hl'.
  wp_step. eapply wp_eq.
  { pose proof (is_sorted_ok less l s [] ys [] fuel) as Hi. rewrite !app_nil_r in Hi. apply Hi; [done|].
    rewrite (Permutation_length Hp). lia. }
  apply sortedb_Sorted in Hs as Hsb. wp_step. by exists ys.
Qed.

(** C18 (functional): for every asymmetric comparison, [list_sort] terminates,
    leaves no element less than its predecessor, keeps exactly the elements the
    list had, passes its own assertions and touches no other list.  The fuel bounds the
    iterations of each of its loops by the length of the list. *)
Theorem list_sort_correct h xs fuel :
  is_list h l xs -> (length xs < fuel)%nat -> Z.of_nat (length xs) < 2 ^ 32 ->
  exists h' ys, list_sort less fuel l h = Ok (tt, h') /\
    is_list h' l ys /\ ys ≡ₚ xs /\ Sorted (le less) ys /\
    forall l2 zs, is_list h l2 zs -> path l2 zs ## path l xs -> is_list h' l2 zs.
Proof.
  intros Hl Hf Hw. pose proof (list_sort_ok h xs fuel Hl Hf Hw) as Hwp.
  apply wp_iff in Hwp as ([] & h' & Hrun & ys & Hl' & Hp & Hs & Hfr).
  exists h', ys. split_and!; try done. intros l2 zs Hl2 Hd.
  eapply linked_frame; [|exact Hfr|exact Hl2]. intros x Hx Hx'. by apply (Hd x).
Qed.

Lemma list_insert_ordered_ok h xs e fuel :
  is_list h l xs -> (length xs < fuel)%nat -> e ∉ path l xs -> e <> NULL -> is_Some (h !! e) ->
  wp (list_insert_ordered less fuel l e) (fun _ h' =>
    is_list h' l (insert_ordered less e xs) /\ frame (e :: path l xs) h h') h.
Proof.
  intros Hl Hf He He0 Hs. unfold list_insert_ordered.
  pose proof (is_list_nonnull _ _ _ Hl) as Hl0. do 4 wp_step. wp_read list_begin_ok with Hl.
  wp_step. eapply (wp_mono _ (fun r s => s = h /\ exists ys zs, xs = ys ++ zs /\
    insert_ordered less e xs = ys ++ e :: zs /\ r = hd (tail_of l) zs)).
  { eapply (wp_loop (fun n p s => s = h /\ exists ys zs, xs = ys ++ zs /\
      insert_ordered less e xs = ys ++ insert_ordered less e zs /\
      p = hd (tail_of l) zs /\ n = length zs)).
    3: exact Hf.
    2: { split; [done|]. by exists [], xs. }
    intros n p s (-> & ys & zs & Hxs & Hins & -> & ->). wp_read list_end_ok with Hl.
    destruct zs as [|z zs]; simpl in *.
    - rewrite Z.eqb_refl. wp_step. split; [done|]. by exists ys, [].
    - rewrite Hxs in Hl. rewrite (elem_not_tail _ _ _ _ _ Hl). destruct (less e z) eqn:Hez.
      + wp_step. split; [done|]. by exists ys, (z :: zs).
      + wp_read list_next_ok with Hl. wp_step. exists (length zs). split; [lia|]. split; [done|].
        exists (ys ++ [z]), zs. rewrite <- !app_assoc. done. }
  intros r s (-> & ys & zs & -> & -> & ->). by apply list_insert_ok.
Qed.

(** (functional): on a sorted list [list_insert_ordered] inserts the new
    element, keeps the list sorted and loses nothing. *)
Theorem list_insert_ordered_correct h xs e fuel :
  is_list h l xs -> Sorted (le less) xs -> (length xs < fuel)%nat ->
  e ∉ path l xs -> e <> NULL -> is_Some (h !! e) ->
  exists h' ys, list_insert_ordered less fuel l e h = Ok (tt, h') /\
    is_list h' l ys /\ ys ≡ₚ e :: xs /\ Sorted (le less) ys.
Proof.
  intros Hl Hs Hf He He0 Hsome.
  pose proof (list_insert_ordered_ok h xs e fuel Hl Hf He He0 Hsome) as Hwp.
  apply wp_iff in Hwp as ([] & h' & Hrun & Hl' & _). exists h', (insert_ordered less e xs).
  split_and!; try done; [apply insert_ordered_perm|by apply insert_ordered_sorted].
Qed.
End sorting.

Section extremes.
Context (less : Z -> Z -> bool) (l : Z).

Lemma list_max_ok h xs fuel :
  is_list h l xs -> (length xs < fuel)%nat ->
  list_max less fuel l h =
    Ok (match xs with [] => tail_of l | x :: xs' => max_from less x xs' end, h).
Proof.
  intros Hl Hf. apply wp_pure. unfold list_max.
  wp_read list_begin_ok with Hl. wp_read list_end_ok with Hl.
  destruct xs as [|x xs]; simpl; [rewrite Z.eqb_refl; by wp_step|].
  rewrite (elem_not_tail h l [] x xs) by done.
  wp_step. eapply wp_eq; [by apply (list_next_ok h l [])|].
  eapply (wp_loop (fun n '(e, m) s => s = h /\ exists ys zs, x :: xs = ys ++ zs /\
    max_from less x xs = max_from less m zs /\ e = hd (tail_of l) zs /\ n = length zs)).
  3: { instantiate (1 := length xs). simpl in Hf. lia. }
  2: { split; [done|]. by exists [x], xs. }
  intros n [e m] s (-> & ys & zs & Hxs & Hm & -> & ->). wp_read list_end_ok with Hl.
  destruct zs as [|z zs]; simpl in *.
  - rewrite Z.eqb_refl. by wp_step.
  - rewrite Hxs in Hl. rewrite (elem_not_tail _ _ _ _ _ Hl).
    wp_read list_next_ok with Hl. wp_step. exists (length zs). split; [lia|]. split; [done|].
    exists (ys ++ [z]), zs. by rewrite <- app_assoc.
Qed.

Lemma list_min_ok h xs fuel :
  is_list h l xs -> (length xs < fuel)%nat ->
  list_min less fuel l h =
    Ok (match xs with [] => tail_of l | x :: xs' => min_from less x xs' end, h).
Proof.
  intros Hl Hf. apply wp_pure. unfold list_min.
  wp_read list_begin_ok with Hl. wp_read list_end_ok with Hl.
  destruct xs as [|x xs]; simpl; [rewrite Z.eqb_refl; by wp_step|].
  rewrite (elem_not_tail h l [] x xs) by done.
  wp_step. eapply wp_eq; [by apply (list_next_ok h l [])|].
  eapply (wp_loop (fun n '(e, m) s => s = h /\ exists ys zs, x :: xs = ys ++ zs /\
    min_from less x xs = min_from less m zs /\ e = hd (tail_of l) zs /\ n = length zs)).
  3: { instantiate (1 := length xs). simpl in Hf. lia. }
  2: { split; [done|]. by exists [x], xs. }
  intros n [e m] s (-> & ys & zs & Hxs & Hm & -> & ->). wp_read list_end_ok with Hl.
  destruct zs as [|z zs]; simpl in *.
  - rewrite Z.eqb_refl. by wp_step.
  - rewrite Hxs in Hl. rewrite (elem_not_tail _ _ _ _ _ Hl).
    wp_read list_next_ok with Hl. wp_step. exists (length zs). split; [lia|]. split; [done|].
    exists (ys ++ [z]), zs. by rewrite <- app_assoc.
Qed.

(** Moving one element from the list [l] to the end of the list [d]. *)
Lemma remove_push_ok h xs z zs d ds :
  is_list h l (xs ++ z :: zs) -> is_list h d ds -> path l (xs ++ z :: zs) ## path d ds ->
  wp (list_remove z;; list_push_back d z) (fun _ h' =>
    is_list h' l (xs ++ zs) /\ is_list h' d (ds ++ [z]) /\
    path l (xs ++ zs) ## path d (ds ++ [z]) /\
    frame (path l (xs ++ z :: zs) ++ path d ds) h h') h.
Proof.
  intros Hl Hd Hdisj.
  pose proof Hl as (Hnd & Hnull & _)%linked_iff.
  assert (z ∈ path l (xs ++ z :: zs)) as Hz by (rewrite path_snoc_elem; set_solver).
  assert (z ∉ path d ds) as Hzd by (intros ?; by apply (Hdisj z)).
  assert (is_Some (h !! z)) as Hsome.
  { pose proof (linked_lookup h (head_of l :: xs) z (zs ++ [tail_of l])) as Hlk.
    unfold is_list, path in Hl. rewrite <- app_assoc in Hl.
    destruct (Hlk Hl) as [Hlk' _]. by rewrite Hlk'. }
  assert (z ∉ path l (xs ++ zs)) as Hzl.
  { unfold path in *. rewrite <- !app_assoc in *. apply (NoDup_app (head_of l :: xs)) in Hnd as (H1 & H2 & H3).
    apply NoDup_cons in H3 as [H3 _]. specialize (H2 z). simpl in *. set_solver. }
  wp_step. eapply wp_mono; [by apply list_remove_ok|]. intros r h1 (_ & Hl1 & Hf1).
  assert (is_list h1 d ds) as Hd1.
  { eapply linked_frame; [|exact Hf1|exact Hd]. intros y Hy Hy'. by apply (Hdisj y). }
  eapply wp_mono; [apply list_push_back_ok; try done|].
  { by intros ->. }
  { apply elem_of_dom. rewrite (proj1 Hf1). by apply elem_of_dom. }
  intros _ h2 [Hd2 Hf2].
  assert (forall y, y ∈ path l (xs ++ zs) -> y ∈ path l (xs ++ z :: zs)) as Hsub.
  { intros y. rewrite !path_snoc_elem. set_solver. }
  split_and!; [|done| |].
  - eapply linked_frame; [|exact Hf2|exact Hl1]. intros y Hy.
    apply not_elem_of_cons. split; [by intros ->|]. intros Hy'. apply (Hdisj y); auto.
  - intros y Hy. rewrite path_snoc_elem, elem_of_app, list_elem_of_singleton.
    intros Hy'. apply (Hdisj y); [by auto|]. rewrite path_snoc_elem.
    destruct Hy' as [?|[[?| ->]|?]]; tauto.
  - eapply frame_trans; eapply frame_mono; try eassumption; intros y; rewrite elem_of_app; set_solver.
Qed.

(** [list_unique] on a non-empty list [x :: xs] and the list [d] of duplicates. *)
Lemma list_unique_ok h x xs d ds ks rs fuel :
  is_list h l (x :: xs) -> is_list h d ds -> path l (x :: xs) ## path d ds ->
  (length xs < fuel)%nat -> unique_from less x xs = (ks, rs) ->
  wp (list_unique less fuel l d) (fun _ h' => is_list h' l (x :: ks) /\ is_list h' d (ds ++ rs) /\
    frame (path l (x :: xs) ++ path d ds) h h') h.
Proof.
  intros Hl Hd Hdisj Hf Hu. unfold list_unique.
  pose proof (is_list_nonnull _ _ _ Hl) as Hl0. pose proof (is_list_nonnull _ _ _ Hd) as Hd0.
  apply Z.eqb_neq in Hd0. do 2 wp_step. wp_read list_empty_ok with Hl.
  rewrite bool_decide_eq_false_2 by done. wp_read list_begin_ok with Hl. simpl.
  eapply (wp_loop (fun n e s => exists ys zs ks' rs' ds', is_list s l (ys ++ e :: zs) /\
    is_list s d ds' /\ path l (ys ++ e :: zs) ## path d ds' /\
    unique_from less e zs = (ks', rs') /\ x :: ks = ys ++ e :: ks' /\ ds ++ rs = ds' ++ rs' /\
    n = length zs /\ (forall y, y ∈ path l (ys ++ e :: zs) ++ path d ds' ->
                        y ∈ path l (x :: xs) ++ path d ds) /\
    frame (path l (x :: xs) ++ path d ds) h s)).
  3: exact Hf.
  2: { exists [], xs, ks, rs, ds. by split_and!. }
  clear Hl Hd Hdisj Hf Hu.
  intros n e s (ys & zs & ks' & rs' & ds' & Hl & Hd & Hdisj & Hu & Hks & Hrs & -> & Hin & Hfr).
  wp_read list_next_ok with Hl. wp_read list_end_ok with Hl.
  destruct zs as [|z zs]; cbn [hd unique_from length] in *.
  { rewrite Z.eqb_refl. wp_step. injection Hu as <- <-. rewrite app_nil_r in Hrs.
    rewrite Hks, Hrs. by split_and!. }
  assert (is_list s l ((ys ++ [e]) ++ z :: zs)) as Hl1 by by rewrite <- app_assoc.
  rewrite (elem_not_tail _ _ _ _ _ Hl1).
  destruct (negb (less e z) && negb (less z e)) eqn:Heq.
  - destruct (unique_from less e zs) as [ks2 rs2] eqn:Hu2. injection Hu as <- <-.
    rewrite Hd0. apply wp_bind_assoc. rewrite (cons_middle e ys) , app_assoc in Hdisj.
    eapply wp_mono; [by apply (remove_push_ok s (ys ++ [e]) z zs d ds')|].
    rewrite <- !(app_assoc ys). cbn [app].
    intros [] s' (Hl' & Hd' & Hdisj' & Hf'). wp_step. exists (length zs). split; [lia|].
    exists ys, zs, ks2, rs2, (ds' ++ [z]). split_and!; try done.
    + by rewrite <- app_assoc.
    + intros y Hy. apply Hin. rewrite elem_of_app, !path_snoc_elem in *. set_solver.
    + eapply frame_trans; [done|]. eapply frame_mono; [|exact Hf']. exact Hin.
  - destruct (unique_from less z zs) as [ks2 rs2] eqn:Hu2. injection Hu as <- <-.
    wp_step. exists (length zs). split; [lia|]. exists (ys ++ [e]), zs, ks2, rs2, ds'.
    rewrite <- !app_assoc. by split_and!.
Qed.

(** (functional): [list_unique] keeps the first of every group of adjacent
    equal elements: neighbours of the result differ, every element taken out
    equals one that stays, and exactly those are appended, in order, to the
    list of duplicates; no element is lost. *)
Theorem list_unique_correct h x xs d ds fuel :
  is_list h l (x :: xs) -> is_list h d ds -> path l (x :: xs) ## path d ds ->
  (length xs < fuel)%nat ->
  exists h' ks rs, list_unique less fuel l d h = Ok (tt, h') /\
    is_list h' l (x :: ks) /\ is_list h' d (ds ++ rs) /\ ks ++ rs ≡ₚ xs /\
    Sorted (differ less) (x :: ks) /\
    Forall (fun r => exists k, k ∈ x :: ks /\ less k r = false /\ less r k = false) rs.
Proof.
  intros Hl Hd Hdisj Hf. destruct (unique_from less x xs) as [ks rs] eqn:Hu.
  pose proof (list_unique_ok h x xs d ds ks rs fuel Hl Hd Hdisj Hf Hu) as Hwp.
  apply wp_iff in Hwp as ([] & h' & Hrun & Hl' & Hd' & _). exists h', ks, rs.
  destruct (unique_from_spec _ _ _ _ _ Hu) as (Hp & Hs & Hr). by split_and!.
Qed.

(** (functional): for a strict weak order, [list_max] returns the first of
    the largest elements of a non-empty list and [list_min] the first of the
    smallest; both return the tail of an empty list. *)
Theorem list_max_min_first h xs fuel
    (less_asym : forall x y, less x y = true -> less y x = false)
    (le_trans : forall x y z, less y x = false -> less z y = false -> less z x = false) :
  is_list h l xs -> (length xs < fuel)%nat ->
  (xs = [] /\ list_max less fuel l h = Ok (tail_of l, h) /\
   list_min less fuel l h = Ok (tail_of l, h)) \/
  exists a as_ bs b cs es,
    list_max less fuel l h = Ok (a, h) /\ xs = as_ ++ a :: bs /\
    Forall (fun x => less x a = true) as_ /\ Forall (fun x => less a x = false) xs /\
    list_min less fuel l h = Ok (b, h) /\ xs = cs ++ b :: es /\
    Forall (fun x => less b x = true) cs /\ Forall (fun x => less x b = false) xs.
Proof.
  intros Hl Hf. rewrite (list_max_ok h xs), (list_min_ok h xs) by done.
  destruct xs as [|x xs]; [by left|right]. rewrite min_max_from.
  destruct (max_from_spec less less_asym le_trans x xs [] (List.Forall_nil _)) as (as_ & bs & H1 & H2 & H3).
  assert (forall u v w, less u v = false -> less v w = false -> less u w = false) as Htr by eauto.
  destruct (max_from_spec (fun u v => less v u) ltac:(eauto) ltac:(simpl; eauto) x xs []
    (List.Forall_nil _)) as (cs & es & H4 & H5 & H6).
  exists (max_from less x xs), as_, bs, (max_from (fun u v => less v u) x xs), cs, es.
  by split_and!.
Qed.
End extremes.

(** ** The order on addresses, on a list of three elements *)
Definition demo_list : heap :=
  <[100 := ListElem 0 300]> (<[300 := ListElem 100 200]> (<[200 := ListElem 300 400]>
  (<[400 := ListElem 200 108]> (<[108 := ListElem 400 0]>
  (<[500 := ListElem 0 508]> (<[508 := ListElem 500 0]> (<[600 := ListElem 0 0]> ∅))))))).

Lemma demo_list_is : is_list demo_list 100 [300; 200; 400].
Proof.
  apply linked_iff. split_and!; [|by compute_done|by split_and!].
  apply (bool_decide_unpack _). by vm_compute.
Qed.

Lemma demo_other_is : is_list demo_list 500 [].
Proof.
  apply linked_iff. split_and!; [|by compute_done|by split_and!].
  apply (bool_decide_unpack _). by vm_compute.
Qed.

Lemma ltb_asym x y : (x <? y) = true -> (y <? x) = false.
Proof. lia. Qed.

Lemma ltb_le_trans x y z : (y <? x) = false -> (z <? y) = false -> (z <? x) = false.
Proof. lia. Qed.

Lemma list_sort_correct_witness :
  exists h' ys, list_sort Z.ltb 5 100 demo_list = Ok (tt, h') /\
    is_list h' 100 ys /\ ys ≡ₚ [300; 200; 400] /\ Sorted (le Z.ltb) ys.
Proof.
  destruct (list_sort_correct Z.ltb 100 ltb_asym demo_list [300; 200; 400] 5)
    as (h' & ys & H1 & H2 & H3 & H4 & _); [exact demo_list_is|simpl; lia|simpl; lia|].
  by exists h', ys.
Defined.

Lemma list_insert_ordered_correct_witness :
  exists h' ys, list_insert_ordered Z.ltb 5 500 600 demo_list = Ok (tt, h') /\
    is_list h' 500 ys /\ ys ≡ₚ [600] /\ Sorted (le Z.ltb) ys.
Proof.
  apply (list_insert_ordered_correct Z.ltb 500 ltb_asym demo_list [] 600 5).
  - exact demo_other_is.
  - constructor.
  - simpl. lia.
  - by compute_done.
  - done.
  - by eexists.
Defined.

Lemma list_unique_correct_witness :
  exists h' ks rs, list_unique (fun x y => x / 200 <? y / 200) 5 100 500 demo_list = Ok (tt, h') /\
    is_list h' 100 (300 :: ks) /\ is_list h' 500 ([] ++ rs) /\ ks ++ rs ≡ₚ [200; 400].
Proof.
  destruct (list_unique_correct (fun x y => x / 200 <? y / 200) 100 demo_list 300 [200; 400] 500 [] 5)
    as (h' & ks & rs & H1 & H2 & H3 & H4 & _).
  - exact demo_list_is.
  - exact demo_other_is.
  - intros x Hx Hy. rewrite path_snoc_elem in Hx, Hy. set_unfold.
    unfold head_of, tail_of, SIZEOF_LIST_ELEM in *. lia.
  - simpl. lia.
  - by exists h', ks, rs.
Defined.

Lemma list_max_min_first_witness :
  list_max Z.ltb 5 100 demo_list = Ok (400, demo_list) /\
  exists a as_ bs, list_max Z.ltb 5 100 demo_list = Ok (a, demo_list) /\
    [300; 200; 400] = as_ ++ a :: bs /\ Forall (fun x => (x <? a) = true) as_.
Proof.
  split; [by vm_compute|].
  destruct (list_max_min_first Z.ltb 100 demo_list [300; 200; 400] 5 ltb_asym ltb_le_trans)
    as [(H & _)|(a & as_ & bs & b & cs & es & H1 & H2 & H3 & _)];
    [exact demo_list_is|simpl; lia|done|]. by exists a, as_, bs.
Defined.
