(* ===== verification/Bitmap.v ===== *)
(** * Bitmaps (src/lib/kernel/bitmap.c)

    A [struct bitmap] is its bit count and the array of 32-bit elements that
    [b->bits] points to.  Every function of bitmap.c that does not read or
    write a file is a program over that state.  [is_bitmap b bs] relates it to
    the abstract array of bits [bs], and the theorems show that the functions
    act on [bs] the way their comments say. *)

From S2P Require Import Prelude.

(** [elem_type] is [unsigned long]: 32 bits on the i386. *)
Definition ELEM_BITS : Z := 32.
Definition SIZEOF_BITMAP : Z := 8.
Definition BITMAP_ERROR : Z := 2 ^ 32 - 1.

Record bitmap := Bitmap { bit_cnt : Z; bits : list Z }.

Definition elem_idx (bit_idx : Z) : Z := bit_idx / ELEM_BITS.

Definition bit_mask (bit_idx : Z) : Z := u32 (Z.shiftl 1 (bit_idx mod ELEM_BITS)).

Definition elem_cnt (bit_cnt : Z) : Z := DIV_ROUND_UP bit_cnt ELEM_BITS.

Definition byte_cnt (bit_cnt : Z) : Z := u32 (4 * elem_cnt bit_cnt).

Definition last_mask (b : bitmap) : Z :=
  let last_bits := bit_cnt b mod ELEM_BITS in
  if negb (last_bits =? 0) then u32 (Z.shiftl 1 last_bits - 1) else u32 (-1).

Definition bitmap_buf_size (bit_cnt : Z) : Z := u32 (SIZEOF_BITMAP + byte_cnt bit_cnt).

Definition bitmap_size : M bitmap Z := gets bit_cnt.

(** [b->bits[idx] op= mask], the effect of the single instruction the code
    writes in assembly. *)
Definition update_elem (idx : Z) (f : Z -> Z) : M bitmap unit :=
  b ← get;
  w ← deref (bits b).[idx];
  put (Bitmap (bit_cnt b) (bits b).[idx <- f w]).

Definition bitmap_mark (bit_idx : Z) : M bitmap unit :=
  let idx := elem_idx bit_idx in
  let mask := bit_mask bit_idx in
  update_elem idx (fun w => Z.lor w mask).

Definition bitmap_reset (bit_idx : Z) : M bitmap unit :=
  let idx := elem_idx bit_idx in
  let mask := bit_mask bit_idx in
  update_elem idx (fun w => Z.land w (u32 (Z.lnot mask))).

Definition bitmap_flip (bit_idx : Z) : M bitmap unit :=
  let idx := elem_idx bit_idx in
  let mask := bit_mask bit_idx in
  update_elem idx (fun w => Z.lxor w mask).

Definition bitmap_set (idx : Z) (value : bool) : M bitmap unit :=
  b ← get;
  assert (idx <? bit_cnt b);;
  if value then bitmap_mark idx else bitmap_reset idx.

Definition bitmap_test (idx : Z) : M bitmap bool :=
  b ← get;
  assert (idx <? bit_cnt b);;
  w ← deref (bits b).[elem_idx idx];
  mret (negb (Z.land w (bit_mask idx) =? 0)).

Definition bitmap_set_multiple (start cnt : Z) (value : bool) : M bitmap unit :=
  b ← get;
  assert (start <=? bit_cnt b);;
  assert (u32 (start + cnt) <=? bit_cnt b);;
  for_ (Z.to_nat cnt) 0 (fun i => bitmap_set (u32 (start + i)) value).

Definition bitmap_set_all (value : bool) : M bitmap unit :=
  n ← bitmap_size;
  bitmap_set_multiple 0 n value.

Definition bitmap_count (start cnt : Z) (value : bool) : M bitmap Z :=
  b ← get;
  assert (start <=? bit_cnt b);;
  assert (u32 (start + cnt) <=? bit_cnt b);;
  for_acc (Z.to_nat cnt) 0 0 (fun i value_cnt =>
    t ← bitmap_test (u32 (start + i));
    mret (if Bool.eqb t value then u32 (value_cnt + 1) else value_cnt)).

(** The loop returns from the function at the first bit that is [value]. *)
Definition bitmap_contains (start cnt : Z) (value : bool) : M bitmap bool :=
  b ← get;
  assert (start <=? bit_cnt b);;
  assert (u32 (start + cnt) <=? bit_cnt b);;
  loop (S (Z.to_nat cnt)) (fun i =>
    if i <? cnt then
      t ← bitmap_test (u32 (start + i));
      mret (if Bool.eqb t value then inr true else inl (i + 1))
    else mret (inr false)) 0.

Definition bitmap_any (start cnt : Z) : M bitmap bool := bitmap_contains start cnt true.

Definition bitmap_none (start cnt : Z) : M bitmap bool :=
  c ← bitmap_contains start cnt true; mret (negb c).

Definition bitmap_all (start cnt : Z) : M bitmap bool :=
  c ← bitmap_contains start cnt false; mret (negb c).

Definition bitmap_scan (start cnt : Z) (value : bool) : M bitmap Z :=
  b ← get;
  assert (start <=? bit_cnt b);;
  if cnt <=? bit_cnt b then
    let last := u32 (bit_cnt b - cnt) in
    loop (2 + Z.to_nat last) (fun i =>
      if i <=? last then
        c ← bitmap_contains i cnt (negb value);
        mret (if negb c then inr i else inl (u32 (i + 1)))
      else mret (inr BITMAP_ERROR)) start
  else mret BITMAP_ERROR.

Definition bitmap_scan_and_flip (start cnt : Z) (value : bool) : M bitmap Z :=
  idx ← bitmap_scan start cnt value;
  (if negb (idx =? BITMAP_ERROR) then bitmap_set_multiple idx cnt (negb value) else mret ());;
  mret idx.

(** [bitmap_create] and [bitmap_create_in_buf] run [bitmap_set_all] on a new
    object whose elements hold whatever the memory held before.  [malloc]
    answers a request for a number of bytes with the elements of the block,
    or with nothing. *)
Section create.
Variable malloc : Z -> option (list Z).

Definition bitmap_create (cnt : Z) : result (option bitmap) :=
  match malloc SIZEOF_BITMAP with
  | None => Ok None
  | Some _ =>
    let block := malloc (byte_cnt cnt) in
    match block with
    | None =>
      if cnt =? 0
      then '(_, b) ← bitmap_set_all false (Bitmap cnt []); Ok (Some b)
      else Ok None
    | Some ws => '(_, b) ← bitmap_set_all false (Bitmap cnt ws); Ok (Some b)
    end
  end.
End create.

(** [block] is the buffer after the [struct bitmap] at its start. *)
Definition bitmap_create_in_buf (cnt : Z) (block : list Z) (block_size : Z) : result bitmap :=
  if bitmap_buf_size cnt <=? block_size
  then '(_, b) ← bitmap_set_all false (Bitmap cnt block); Ok b
  else Err AssertFail.

(** ** The abstract bit array *)
Definition bit (b : bitmap) (i : Z) : bool :=
  match (bits b).[elem_idx i] with
  | Some w => Z.testbit w (i mod ELEM_BITS)
  | None => false
  end.

Record is_bitmap (b : bitmap) (bs : list bool) : Prop := {
  bm_cnt : bit_cnt b = alen bs;
  bm_max : alen bs < 2 ^ 32;
  bm_room : alen bs <= ELEM_BITS * alen (bits b);
  bm_words : Forall (fun w => 0 <= w < 2 ^ 32) (bits b);
  bm_bits : forall i, 0 <= i < alen bs -> bs.[i] = Some (bit b i)
}.

(** The bits [start .. start + cnt - 1]. *)
Definition slice (bs : list bool) (start cnt : Z) : list bool :=
  take (Z.to_nat cnt) (drop (Z.to_nat start) bs).
Definition fill (bs : list bool) (start cnt : Z) (v : bool) : list bool :=
  take (Z.to_nat start) bs ++ replicate (Z.to_nat cnt) v ++ drop (Z.to_nat (start + cnt)) bs.

Lemma bit_mask_pow2 i : bit_mask i = 2 ^ (i mod ELEM_BITS).
Proof.
  unfold bit_mask. rewrite Z.shiftl_1_l. apply wrap_small.
  pose proof (Z.mod_pos_bound i ELEM_BITS eq_refl). unfold ELEM_BITS in *.
  split; [lia|]. apply Z.pow_lt_mono_r; lia.
Qed.

Lemma idx_pos_inj i j :
  elem_idx i = elem_idx j -> i mod ELEM_BITS = j mod ELEM_BITS -> i = j.
Proof.
  unfold elem_idx, ELEM_BITS. intros Hd Hm.
  rewrite (Z.div_mod i 32), (Z.div_mod j 32) by lia. congruence.
Qed.

Lemma elem_idx_range b bs i :
  is_bitmap b bs -> 0 <= i < alen bs -> 0 <= elem_idx i < alen (bits b).
Proof.
  intros Hb Hi. pose proof (bm_room _ _ Hb). unfold elem_idx, ELEM_BITS in *.
  split; [apply Z.div_pos; lia|apply Z.div_lt_upper_bound; lia].
Qed.

(** A masked update of one element changes one bit of the array. *)
Lemma update_elem_ok b bs i (f : Z -> Z) v :
  is_bitmap b bs -> 0 <= i < alen bs ->
  (forall w, 0 <= w < 2 ^ 32 -> 0 <= f w < 2 ^ 32) ->
  (forall w k, (bits b).[elem_idx i] = Some w -> 0 <= k < ELEM_BITS -> Z.testbit (f w) k =
     if k =? i mod ELEM_BITS then v else Z.testbit w k) ->
  wp (update_elem (elem_idx i) f) (fun _ b' => is_bitmap b' bs.[i <- v]) b.
Proof.
  intros Hb Hi Hf Hbit. pose proof (elem_idx_range _ _ _ Hb Hi) as Hj.
  destruct (proj1 (aget_is_Some _ _) Hj) as [w Hw].
  unfold update_elem. do 2 wp_step. wp_step. eapply wp_deref; [exact Hw|]. wp_step.
  pose proof (Forall_aget _ _ _ _ (bm_words _ _ Hb) Hw) as Hwr. cbv beta in Hwr.
  split; simpl; autorewrite with arr.
  - apply Hb.
  - apply Hb.
  - apply Hb.
  - apply Forall_aset; [apply Hb|by apply Hf].
  - intros j Hjr. rewrite (aget_aset bs) by done. unfold bit; simpl.
    rewrite aget_aset by done. case_decide as Hij.
    + subst j. rewrite decide_True by done. rewrite Hbit; [|done|by apply Z.mod_pos_bound].
      by rewrite Z.eqb_refl.
    + rewrite (bm_bits _ _ Hb) by done. unfold bit. case_decide as He; [|done].
      rewrite <- He, Hw, Hbit; [|done|by apply Z.mod_pos_bound].
      destruct (Z.eqb_spec (j mod ELEM_BITS) (i mod ELEM_BITS)); [|done].
      exfalso. apply Hij. by apply idx_pos_inj.
Qed.

Lemma mask_range i : 0 <= bit_mask i < 2 ^ 32.
Proof. by apply wrap_range. Qed.

Lemma bitmap_mark_ok b bs i :
  is_bitmap b bs -> 0 <= i < alen bs ->
  wp (bitmap_mark i) (fun _ b' => is_bitmap b' bs.[i <- true]) b.
Proof.
  intros Hb Hi. apply update_elem_ok; [done..| |].
  - intros w Hw. apply lor_range; [lia|done|apply mask_range].
  - intros w k Hw Hk. rewrite Z.lor_spec, bit_mask_pow2, testbit_pow2, Z.eqb_sym
      by (apply Z.mod_pos_bound; done).
    case_match; [by rewrite orb_true_r|by rewrite orb_false_r].
Qed.

Lemma bitmap_reset_ok b bs i :
  is_bitmap b bs -> 0 <= i < alen bs ->
  wp (bitmap_reset i) (fun _ b' => is_bitmap b' bs.[i <- false]) b.
Proof.
  intros Hb Hi. apply update_elem_ok; [done..| |].
  - intros w Hw. apply land_range; [lia|done].
  - intros w k Hw Hk. unfold ELEM_BITS in Hk.
    rewrite Z.land_spec, testbit_wrap, Z.lnot_spec, bit_mask_pow2, testbit_pow2, Z.eqb_sym
      by (done || lia || (apply Z.mod_pos_bound; done)).
    destruct (Z.ltb_spec k 32); [|lia].
    case_match; [by rewrite andb_false_r|by rewrite andb_true_r].
Qed.

Lemma bit_elem b bs i w v :
  is_bitmap b bs -> bs.[i] = Some v -> (bits b).[elem_idx i] = Some w ->
  Z.testbit w (i mod ELEM_BITS) = v.
Proof.
  intros Hb Hv Hw. rewrite (bm_bits _ _ Hb) in Hv by (by eapply aget_lt).
  unfold bit in Hv. rewrite Hw in Hv. congruence.
Qed.

Lemma bitmap_flip_ok b bs i v :
  is_bitmap b bs -> bs.[i] = Some v ->
  wp (bitmap_flip i) (fun _ b' => is_bitmap b' bs.[i <- negb v]) b.
Proof.
  intros Hb Hv. apply update_elem_ok; [done|by eapply aget_lt| |].
  - intros w Hw. apply lxor_range; [lia|done|apply mask_range].
  - intros w k Hw Hk. rewrite Z.lxor_spec, bit_mask_pow2, testbit_pow2, Z.eqb_sym
      by (apply Z.mod_pos_bound; done).
    destruct (Z.eqb_spec k (i mod ELEM_BITS)) as [->|]; [|by rewrite xorb_false_r].
    by rewrite (bit_elem _ _ _ _ _ Hb Hv Hw), xorb_true_r.
Qed.

Lemma bitmap_set_ok b bs i v :
  is_bitmap b bs -> 0 <= i < alen bs ->
  wp (bitmap_set i v) (fun _ b' => is_bitmap b' bs.[i <- v]) b.
Proof.
  intros Hb Hi. unfold bitmap_set. do 4 wp_step.
  { apply Z.ltb_lt. rewrite (bm_cnt _ _ Hb). lia. }
  destruct v; [by apply bitmap_mark_ok|by apply bitmap_reset_ok].
Qed.

Lemma testbit_land_pow2 w k : 0 <= k -> negb (Z.land w (2 ^ k) =? 0) = Z.testbit w k.
Proof.
  intros Hk. destruct (Z.testbit w k) eqn:E.
  - apply negb_true_iff, Z.eqb_neq. intros H0.
    assert (Z.testbit (Z.land w (2 ^ k)) k = false) as Hf by (rewrite H0; apply Z.bits_0).
    rewrite Z.land_spec, E, testbit_pow2, Z.eqb_refl in Hf; done.
  - apply negb_false_iff, Z.eqb_eq, Z.bits_inj'. intros n Hn.
    rewrite Z.land_spec, testbit_pow2, Z.bits_0 by done.
    destruct (Z.eqb_spec k n) as [<-|]; [by rewrite E|apply andb_false_r].
Qed.

Lemma bitmap_test_ok b bs i v :
  is_bitmap b bs -> bs.[i] = Some v -> bitmap_test i b = Ok (v, b).
Proof.
  intros Hb Hv. assert (0 <= i < alen bs) as Hi by (by eapply aget_lt).
  destruct (proj1 (aget_is_Some _ _) (elem_idx_range _ _ _ Hb Hi)) as [w Hw].
  unfold bitmap_test, mbind, M_bind, get, assert, deref.
  rewrite (bm_cnt _ _ Hb), (proj2 (Z.ltb_lt _ _)), Hw by lia.
  unfold mret, M_ret. rewrite bit_mask_pow2, testbit_land_pow2 by (by apply Z.mod_pos_bound).
  by rewrite (bit_elem _ _ _ _ _ Hb Hv Hw).
Qed.

(** ** Ranges of bits *)
Definition in_range (bs : list bool) (start cnt : Z) : Prop :=
  0 <= start /\ 0 <= cnt /\ start + cnt <= alen bs.

Lemma alen_fill bs start cnt v : in_range bs start cnt -> alen (fill bs start cnt v) = alen bs.
Proof.
  unfold in_range, alen, fill. intros Hr.
  rewrite !length_app, length_take, length_replicate, length_drop. lia.
Qed.

Lemma aget_fill bs start cnt v i :
  in_range bs start cnt ->
  (fill bs start cnt v).[i] = if decide (start <= i < start + cnt) then Some v else bs.[i].
Proof.
  unfold in_range, fill, aget, alen. intros Hr. destruct (Z.ltb_spec i 0).
  { rewrite decide_False; [done|lia]. }
  case_decide.
  - rewrite lookup_app_r; rewrite length_take; [|lia].
    rewrite lookup_app_l; [|rewrite length_replicate; lia]. apply lookup_replicate_2. lia.
  - destruct (decide (i < start)).
    + rewrite lookup_app_l; [|rewrite length_take; lia]. rewrite lookup_take_lt; [done|lia].
    + rewrite !lookup_app_r; rewrite ?length_replicate, ?length_take; [|lia..].
      rewrite lookup_drop. f_equal. lia.
Qed.

Lemma fill_0 bs start v : 0 <= start <= alen bs -> fill bs start 0 v = bs.
Proof.
  intros Hr. assert (in_range bs start 0) by (unfold in_range; lia).
  apply alist_eq; [by apply alen_fill|]. intros i _. rewrite aget_fill by done.
  rewrite decide_False; [done|lia].
Qed.

Lemma fill_step bs start cnt v :
  in_range bs start (cnt + 1) -> 0 <= cnt ->
  (fill bs start cnt v).[start + cnt <- v] = fill bs start (cnt + 1) v.
Proof.
  intros Hr Hc. assert (in_range bs start cnt) as Hr' by (unfold in_range in *; lia).
  apply alist_eq; autorewrite with arr; [by rewrite !alen_fill|].
  intros i _. rewrite aget_aset by (rewrite alen_fill by done; unfold in_range in *; lia).
  rewrite !aget_fill by done. repeat case_decide; try done; lia.
Qed.

Lemma slice_step bs start cnt x :
  0 <= start -> 0 <= cnt -> bs.[start + cnt] = Some x ->
  slice bs start (cnt + 1) = slice bs start cnt ++ [x].
Proof.
  intros Hs Hc [_ Hx]%aget_Some. unfold slice.
  rewrite Z2Nat.inj_add by lia. rewrite Nat.add_1_r.
  apply take_S_r. rewrite lookup_drop, <- Z2Nat.inj_add; done.
Qed.

Lemma slice_elem bs start cnt v :
  in_range bs start cnt ->
  v ∈ slice bs start cnt <-> exists i, start <= i < start + cnt /\ bs.[i] = Some v.
Proof.
  unfold in_range, slice, alen. intros Hr. rewrite list_elem_of_lookup. split.
  - intros [k Hk]. pose proof (lookup_lt_Some _ _ _ Hk) as Hlt.
    rewrite length_take in Hlt. rewrite lookup_take_lt, lookup_drop in Hk by lia.
    exists (start + Z.of_nat k). split; [lia|]. apply aget_Some. split; [lia|].
    rewrite <- Hk. f_equal. lia.
  - intros (i & Hi & [_ Hv]%aget_Some). exists (Z.to_nat (i - start)).
    rewrite lookup_take_lt, lookup_drop by lia. rewrite <- Hv. f_equal. lia.
Qed.

Section ranges.
Context (b : bitmap) (bs : list bool) (Hb : is_bitmap b bs).

Lemma wrap_idx i : 0 <= i <= alen bs -> u32 i = i.
Proof. intros Hi. apply wrap_small. pose proof (bm_max _ _ Hb). lia. Qed.

Lemma range_asserts {A} start cnt (k : M bitmap A) Q :
  in_range bs start cnt -> wp k Q b ->
  wp (x ← get; assert (start <=? bit_cnt x);; assert (u32 (start + cnt) <=? bit_cnt x);; k) Q b.
Proof.
  unfold in_range. intros Hr Hk. pose proof (bm_cnt _ _ Hb).
  do 6 wp_step; [|done]. rewrite wrap_idx by lia. lia.
Qed.

Lemma bitmap_test_at start i x :
  0 <= start -> 0 <= i -> bs.[start + i] = Some x -> bitmap_test (u32 (start + i)) b = Ok (x, b).
Proof.
  intros Hs Hi Hx. rewrite wrap_idx by (apply aget_lt in Hx; lia). by eapply bitmap_test_ok.
Qed.

Lemma bitmap_count_ok start cnt v :
  in_range bs start cnt ->
  wp (bitmap_count start cnt v) (fun n b' => b' = b /\
    n = alen (filter (eq v) (slice bs start cnt))) b.
Proof.
  intros Hr. unfold bitmap_count. eapply range_asserts; [done|].
  eapply wp_mono; [apply (wp_for_acc (fun i n b' => b' = b /\
    n = alen (filter (eq v) (slice bs start i)) /\ n <= i))|].
  - intros i n b' Hi (-> & Hn & Hle). unfold in_range in Hr.
    destruct (proj1 (aget_is_Some bs (start + i))) as [x Hx]; [lia|].
    wp_step. eapply wp_eq; [apply (bitmap_test_at start i x); [lia..|exact Hx]|].
    wp_step. split; [done|]. rewrite (slice_step _ _ _ x), filter_app, alen_app by (done || lia).
    pose proof (bm_max _ _ Hb). pose proof (alen_nonneg (filter (eq v) (slice bs start i))).
    rewrite filter_cons, filter_nil. destruct (Bool.eqb_spec x v) as [->|].
    + rewrite decide_True by done. rewrite wrap_small by lia. unfold alen at 2. simpl. lia.
    + rewrite decide_False by done. unfold alen at 2. simpl. lia.
  - split; [done|]. unfold slice, alen. rewrite take_0, filter_nil. simpl. lia.
  - intros n b' (-> & Hn & _). split; [done|]. unfold in_range in Hr.
    by rewrite Z.add_0_l, Z2Nat.id in Hn by lia.
Qed.

Lemma bitmap_contains_ok start cnt v :
  in_range bs start cnt ->
  bitmap_contains start cnt v b = Ok (bool_decide (v ∈ slice bs start cnt), b).
Proof.
  intros Hr. cut (wp (bitmap_contains start cnt v)
    (fun r b' => b' = b /\ r = bool_decide (v ∈ slice bs start cnt)) b).
  { intros (r & b' & -> & -> & ->)%wp_iff. done. }
  unfold bitmap_contains. eapply range_asserts; [done|].
  apply (wp_loop (fun n i b' => b' = b /\ n = Z.to_nat (cnt - i) /\ 0 <= i <= cnt /\
    v ∉ slice bs start i) _ _) with (n := Z.to_nat cnt); [| |lia].
  - intros n i b' (-> & -> & Hi & Hno). unfold in_range in Hr. destruct (Z.ltb_spec i cnt).
    + destruct (proj1 (aget_is_Some bs (start + i))) as [x Hx]; [lia|].
      wp_step. eapply wp_eq; [apply (bitmap_test_at start i x); [lia..|exact Hx]|].
      wp_step. destruct (Bool.eqb_spec x v) as [->|Hne].
      * split; [done|]. symmetry. apply bool_decide_eq_true_2, slice_elem; [done|].
        exists (start + i). split; [lia|done].
      * eexists. split; [|split_and!; [done|reflexivity|lia..|]]; [lia|].
        rewrite (slice_step _ _ _ x) by (done || lia). set_solver.
    + wp_step. split; [done|]. replace i with cnt in Hno by lia.
      symmetry. by apply bool_decide_eq_false_2.
  - unfold in_range in Hr. split_and!; [done|lia|lia|lia|]. unfold slice. rewrite take_0. set_solver.
Qed.
End ranges.

Lemma bitmap_set_multiple_ok b bs start cnt v :
  is_bitmap b bs -> in_range bs start cnt ->
  wp (bitmap_set_multiple start cnt v) (fun _ b' => is_bitmap b' (fill bs start cnt v)) b.
Proof.
  intros Hb Hr. unfold bitmap_set_multiple. eapply range_asserts; [done..|].
  unfold in_range in Hr. eapply wp_mono; [apply (wp_for (fun i b' => is_bitmap b' (fill bs start i v)))|].
  - intros i b' Hi Hb'. rewrite (wrap_idx _ _ Hb) by lia.
    assert (in_range bs start (i + 1)) as Hr1 by (unfold in_range; lia).
    assert (in_range bs start i) as Hr0 by (unfold in_range; lia).
    rewrite <- fill_step by (done || lia).
    apply bitmap_set_ok; [done|]. rewrite alen_fill by done. lia.
  - rewrite fill_0; [done|lia].
  - intros ? b' H. cbv beta in H. by rewrite Z.add_0_l, Z2Nat.id in H by lia.
Qed.

Lemma bitmap_set_all_ok b bs v :
  is_bitmap b bs ->
  wp (bitmap_set_all v) (fun _ b' => is_bitmap b' (replicate (length bs) v)) b.
Proof.
  intros Hb. unfold bitmap_set_all, bitmap_size. do 2 wp_step. rewrite (bm_cnt _ _ Hb).
  eapply wp_mono; [apply bitmap_set_multiple_ok; [done|]|].
  - unfold in_range. pose proof (alen_nonneg bs). lia.
  - intros ? b' H. cbv beta in H. unfold fill, alen in H.
    by rewrite Z.add_0_l, Nat2Z.id, drop_all, app_nil_r in H.
Qed.

(** ** First fit *)

(** The bits [i .. i + cnt - 1] exist and are all [v]. *)
Definition group (bs : list bool) (cnt : Z) (v : bool) (i : Z) : Prop :=
  in_range bs i cnt /\ forall j, i <= j < i + cnt -> bs.[j] = Some v.

(** The first of the [n] positions from [i] where a group starts. *)
Fixpoint first_group (bs : list bool) (cnt : Z) (v : bool) (n : nat) (i : Z) : Z :=
  match n with
  | O => BITMAP_ERROR
  | S m => if bool_decide (negb v ∈ slice bs i cnt) then first_group bs cnt v m (i + 1) else i
  end.

(** What [bitmap_scan] returns: one position for each [i] with
    [start <= i <= bit_cnt - cnt]. *)
Definition scan_spec (bs : list bool) (start cnt : Z) (v : bool) : Z :=
  first_group bs cnt v (Z.to_nat (alen bs - cnt - start + 1)) start.

Lemma group_slice bs cnt v i :
  in_range bs i cnt -> group bs cnt v i <-> negb v ∉ slice bs i cnt.
Proof.
  intros Hr. rewrite slice_elem by done. split.
  - intros [_ Hg] (j & Hj & Hn). rewrite Hg in Hn by done. by destruct v.
  - intros Hno. split; [done|]. intros j Hj. unfold in_range in Hr.
    destruct (proj1 (aget_is_Some bs j)) as [x Hx]; [lia|].
    destruct (decide (x = v)) as [->|Hne]; [done|]. exfalso. apply Hno.
    exists j. split; [done|]. rewrite Hx. by destruct x, v.
Qed.

Lemma first_group_spec bs cnt v n i :
  0 <= cnt -> 0 <= i -> i + Z.of_nat n <= alen bs - cnt + 1 ->
  (first_group bs cnt v n i = BITMAP_ERROR /\ forall j, i <= j < i + Z.of_nat n -> ~ group bs cnt v j) \/
  (i <= first_group bs cnt v n i < i + Z.of_nat n /\ group bs cnt v (first_group bs cnt v n i) /\
   forall j, i <= j < first_group bs cnt v n i -> ~ group bs cnt v j).
Proof.
  intros Hc. revert i. induction n as [|n IH]; intros i Hi Hn; simpl.
  { left. split; [done|lia]. }
  assert (in_range bs i cnt) as Hr by (unfold in_range; lia).
  case_bool_decide as Hin.
  - assert (~ group bs cnt v i) as Hno by (rewrite group_slice by done; tauto).
    destruct (IH (i + 1)) as [[-> Hall]|(Hlt & Hg & Hall)]; [lia..| |].
    + left. split; [done|]. intros j Hj. destruct (decide (j = i)) as [->|]; [done|]. apply Hall. lia.
    + right. split; [lia|]. split; [done|]. intros j Hj.
      destruct (decide (j = i)) as [->|]; [done|]. apply Hall. lia.
  - right. split; [lia|]. split; [by apply group_slice|lia].
Qed.

Lemma bitmap_scan_ok b bs start cnt v :
  is_bitmap b bs -> 0 <= start <= alen bs -> 0 <= cnt ->
  bitmap_scan start cnt v b = Ok (scan_spec bs start cnt v, b).
Proof.
  intros Hb Hs Hc. cut (wp (bitmap_scan start cnt v)
    (fun r b' => b' = b /\ r = scan_spec bs start cnt v) b).
  { intros (r & b' & -> & -> & ->)%wp_iff. done. }
  pose proof (bm_cnt _ _ Hb) as Hcnt. pose proof (bm_max _ _ Hb) as Hmax.
  unfold bitmap_scan, scan_spec. do 4 wp_step. destruct (Z.leb_spec cnt (bit_cnt b)).
  2:{ wp_step. split; [done|]. rewrite Z_to_nat_nonpos by lia. done. }
  rewrite (wrap_idx _ _ Hb), Hcnt by lia.
  apply (wp_loop (fun n i b' => b' = b /\ n = Z.to_nat (alen bs - cnt - i + 1) /\
    start <= i <= Z.max start (alen bs - cnt + 1) /\ first_group bs cnt v n i =
    first_group bs cnt v (Z.to_nat (alen bs - cnt - start + 1)) start) _ _)
    with (n := Z.to_nat (alen bs - cnt - start + 1)); [| |lia].
  - intros n i b' (-> & -> & Hi & Heq). destruct (Z.leb_spec i (alen bs - cnt)).
    + wp_step. eapply wp_eq; [apply (bitmap_contains_ok b bs Hb); unfold in_range; lia|].
      wp_step. rewrite <- Heq.
      replace (Z.to_nat (alen bs - cnt - i + 1)) with (S (Z.to_nat (alen bs - cnt - (i + 1) + 1))) by lia.
      simpl. case_bool_decide as Hin; simpl; [|done].
      assert (cnt <> 0) as Hc0. { intros ->. unfold slice in Hin. rewrite take_0 in Hin. set_solver. }
      rewrite wrap_small by lia.
      eexists. split; [|split_and!; [done|reflexivity|lia..|done]]; lia.
    + wp_step. split; [done|]. rewrite <- Heq. rewrite Z_to_nat_nonpos by lia. done.
  - split_and!; [done|done|lia..|done].
Qed.

Lemma scan_spec_error_or_group bs start cnt v :
  0 <= start <= alen bs -> 0 <= cnt ->
  (scan_spec bs start cnt v = BITMAP_ERROR /\ forall i, start <= i -> ~ group bs cnt v i) \/
  (start <= scan_spec bs start cnt v /\ group bs cnt v (scan_spec bs start cnt v) /\
   forall i, start <= i < scan_spec bs start cnt v -> ~ group bs cnt v i).
Proof.
  intros Hs Hc. unfold scan_spec.
  destruct (decide (start <= alen bs - cnt + 1)) as [Hle|Hgt].
  - destruct (first_group_spec bs cnt v (Z.to_nat (alen bs - cnt - start + 1)) start)
      as [[-> Hall]|(Hlt & Hg & Hall)]; [lia..| |].
    + left. split; [done|]. intros i Hi [Hr Hg]. apply (Hall i); [|by split].
      unfold in_range in Hr. lia.
    + right. split; [lia|]. done.
  - left. rewrite Z_to_nat_nonpos by lia. split; [done|]. intros i Hi [Hr _].
    unfold in_range in Hr. lia.
Qed.

(** The value [scan_spec] is a bit number when the group is not empty. *)
Lemma scan_and_flip_ok b bs start cnt v :
  is_bitmap b bs -> 0 <= start <= alen bs -> 0 <= cnt ->
  wp (bitmap_scan_and_flip start cnt v) (fun r b' => r = scan_spec bs start cnt v /\
    is_bitmap b' (if r =? BITMAP_ERROR then bs else fill bs r cnt (negb v))) b.
Proof.
  intros Hb Hs Hc. unfold bitmap_scan_and_flip. wp_step.
  eapply wp_eq; [by apply bitmap_scan_ok|].
  destruct (scan_spec_error_or_group bs start cnt v) as [[-> Hno]|(Hle & [Hr Hg] & Hall)]; [done..| |].
  - wp_step. simpl. by do 2 wp_step.
  - destruct (Z.eqb_spec (scan_spec bs start cnt v) BITMAP_ERROR); simpl.
    + wp_step. do 2 wp_step. split; [done|]. by rewrite e.
    + wp_step. eapply wp_mono; [by apply bitmap_set_multiple_ok|]. intros ? b' H. cbv beta in H.
      wp_step. split; [done|]. rewrite (proj2 (Z.eqb_neq _ _)); done.
Qed.

(** ** Creation *)
Lemma is_bitmap_intro cnt ws :
  0 <= cnt < 2 ^ 32 -> cnt <= ELEM_BITS * alen ws -> Forall (fun w => 0 <= w < 2 ^ 32) ws ->
  is_bitmap (Bitmap cnt ws) (map (bit (Bitmap cnt ws)) (seqZ 0 cnt)).
Proof.
  intros Hc Hroom Hws.
  assert (alen (map (bit (Bitmap cnt ws)) (seqZ 0 cnt)) = cnt) as Hl.
  { unfold alen. rewrite length_map, length_seqZ. lia. }
  split; rewrite ?Hl; simpl; try done; [lia|]. intros i Hi. apply aget_Some. split; [lia|].
  rewrite list_lookup_fmap, lookup_seqZ_lt by lia. simpl. repeat f_equal. lia.
Qed.

Lemma set_all_new cnt ws :
  0 <= cnt < 2 ^ 32 -> cnt <= ELEM_BITS * alen ws -> Forall (fun w => 0 <= w < 2 ^ 32) ws ->
  exists b, bitmap_set_all false (Bitmap cnt ws) = Ok (tt, b) /\
    is_bitmap b (replicate (Z.to_nat cnt) false).
Proof.
  intros Hc Hroom Hws. pose proof (is_bitmap_intro cnt ws Hc Hroom Hws) as Hb.
  destruct (proj1 (wp_iff _ _ _) (bitmap_set_all_ok _ _ false Hb)) as ([] & b & Hrun & Hok).
  exists b. split; [done|]. by rewrite length_map, length_seqZ in Hok.
Qed.

(** The bytes requested hold enough elements; near [SIZE_MAX] the rounding
    overflows and the request is for no bytes at all. *)
Lemma byte_cnt_room cnt :
  0 <= cnt -> cnt + ELEM_BITS <= 2 ^ 32 -> cnt <= ELEM_BITS * (byte_cnt cnt / 4).
Proof.
  intros Hc Hmax. pose proof (DIV_ROUND_UP_bounds cnt ELEM_BITS Hc eq_refl Hmax) as Hd.
  unfold byte_cnt, elem_cnt. unfold ELEM_BITS in *.
  rewrite wrap_small by lia. rewrite (Z.mul_comm 4), Z.div_mul; lia.
Qed.

Lemma byte_cnt_overflow cnt :
  2 ^ 32 < cnt + ELEM_BITS -> cnt < 2 ^ 32 -> byte_cnt cnt = 0.
Proof.
  unfold byte_cnt, elem_cnt, DIV_ROUND_UP, ELEM_BITS. intros Hlo Hhi.
  assert (u32 (cnt + 32 - 1) = cnt + 31 - 2 ^ 32) as ->.
  { unfold wrap. symmetry. apply Z.mod_unique_pos with 1; lia. }
  rewrite Z.div_small by lia. done.
Qed.

(** ** Sequences of operations *)
Inductive bitmap_op :=
  | OpSet (i : Z) (v : bool)
  | OpMark (i : Z)
  | OpReset (i : Z)
  | OpFlip (i : Z)
  | OpTest (i : Z)
  | OpSetAll (v : bool)
  | OpSetMultiple (start cnt : Z) (v : bool)
  | OpCount (start cnt : Z) (v : bool)
  | OpContains (start cnt : Z) (v : bool)
  | OpAny (start cnt : Z)
  | OpNone (start cnt : Z)
  | OpAll (start cnt : Z)
  | OpScan (start cnt : Z) (v : bool)
  | OpScanFlip (start cnt : Z) (v : bool).

(** What an operation returns. *)
Inductive bitmap_ret := RUnit | RBool (v : bool) | RNum (n : Z).

Definition run_op (o : bitmap_op) : M bitmap bitmap_ret :=
  match o with
  | OpSet i v => bitmap_set i v;; mret RUnit
  | OpMark i => bitmap_mark i;; mret RUnit
  | OpReset i => bitmap_reset i;; mret RUnit
  | OpFlip i => bitmap_flip i;; mret RUnit
  | OpTest i => RBool <$> bitmap_test i
  | OpSetAll v => bitmap_set_all v;; mret RUnit
  | OpSetMultiple s c v => bitmap_set_multiple s c v;; mret RUnit
  | OpCount s c v => RNum <$> bitmap_count s c v
  | OpContains s c v => RBool <$> bitmap_contains s c v
  | OpAny s c => RBool <$> bitmap_any s c
  | OpNone s c => RBool <$> bitmap_none s c
  | OpAll s c => RBool <$> bitmap_all s c
  | OpScan s c v => RNum <$> bitmap_scan s c v
  | OpScanFlip s c v => RNum <$> bitmap_scan_and_flip s c v
  end.

Definition spec_op (o : bitmap_op) (bs : list bool) : bitmap_ret * list bool :=
  match o with
  | OpSet i v => (RUnit, bs.[i <- v])
  | OpMark i => (RUnit, bs.[i <- true])
  | OpReset i => (RUnit, bs.[i <- false])
  | OpFlip i => (RUnit, bs.[i <- negb (default false bs.[i])])
  | OpTest i => (RBool (default false bs.[i]), bs)
  | OpSetAll v => (RUnit, replicate (length bs) v)
  | OpSetMultiple s c v => (RUnit, fill bs s c v)
  | OpCount s c v => (RNum (alen (filter (eq v) (slice bs s c))), bs)
  | OpContains s c v => (RBool (bool_decide (v ∈ slice bs s c)), bs)
  | OpAny s c => (RBool (bool_decide (true ∈ slice bs s c)), bs)
  | OpNone s c => (RBool (negb (bool_decide (true ∈ slice bs s c))), bs)
  | OpAll s c => (RBool (negb (bool_decide (false ∈ slice bs s c))), bs)
  | OpScan s c v => (RNum (scan_spec bs s c v), bs)
  | OpScanFlip s c v =>
    let r := scan_spec bs s c v in
    (RNum r, if r =? BITMAP_ERROR then bs else fill bs r c (negb v))
  end.

(** The arguments the comments of bitmap.c allow. *)
Definition op_pre (o : bitmap_op) (bs : list bool) : Prop :=
  match o with
  | OpSet i _ | OpMark i | OpReset i | OpFlip i | OpTest i => 0 <= i < alen bs
  | OpSetAll _ => True
  | OpSetMultiple s c _ | OpCount s c _ | OpContains s c _ => in_range bs s c
  | OpAny s c | OpNone s c | OpAll s c => in_range bs s c
  | OpScan s c _ | OpScanFlip s c _ => 0 <= s <= alen bs /\ 0 <= c
  end.

Fixpoint run_ops (os : list bitmap_op) : M bitmap (list bitmap_ret) :=
  match os with
  | [] => mret []
  | o :: os => r ← run_op o; rs ← run_ops os; mret (r :: rs)
  end.

Fixpoint spec_ops (os : list bitmap_op) (bs : list bool) : list bitmap_ret * list bool :=
  match os with
  | [] => ([], bs)
  | o :: os =>
    let '(r, bs1) := spec_op o bs in
    let '(rs, bs2) := spec_ops os bs1 in (r :: rs, bs2)
  end.

Fixpoint ops_pre (os : list bitmap_op) (bs : list bool) : Prop :=
  match os with
  | [] => True
  | o :: os => op_pre o bs /\ ops_pre os (spec_op o bs).2
  end.

Lemma bitmap_op_ok o b bs :
  is_bitmap b bs -> op_pre o bs ->
  wp (run_op o) (fun r b' => r = (spec_op o bs).1 /\ is_bitmap b' (spec_op o bs).2) b.
Proof.
  intros Hb Hpre.
  assert (forall i, 0 <= i < alen bs -> exists x, bs.[i] = Some x) as Hget.
  { intros i Hi. by apply aget_is_Some. }
  destruct o; simpl in Hpre |- *; apply wp_fmap;
    try (destruct (Hget _ Hpre) as [x Hx]).
  - eapply wp_mono; [by apply bitmap_set_ok|]. done.
  - eapply wp_mono; [by apply bitmap_mark_ok|]. done.
  - eapply wp_mono; [by apply bitmap_reset_ok|]. done.
  - eapply wp_mono; [by eapply bitmap_flip_ok|]. by rewrite Hx.
  - eapply wp_eq; [by eapply bitmap_test_ok|]. by rewrite Hx.
  - eapply wp_mono; [by apply bitmap_set_all_ok|]. done.
  - eapply wp_mono; [by apply bitmap_set_multiple_ok|]. done.
  - eapply wp_mono; [by apply bitmap_count_ok|]. by intros n b' [-> ->].
  - eapply wp_eq; [by apply bitmap_contains_ok|]. done.
  - eapply wp_eq; [by apply bitmap_contains_ok|]. done.
  - unfold bitmap_none. wp_step. eapply wp_eq; [by apply bitmap_contains_ok|]. by wp_step.
  - unfold bitmap_all. wp_step. eapply wp_eq; [by apply bitmap_contains_ok|]. by wp_step.
  - destruct Hpre. eapply wp_eq; [by apply bitmap_scan_ok|]. done.
  - destruct Hpre. eapply wp_mono; [by apply scan_and_flip_ok|]. by intros r b' [-> ?].
Qed.


Definition demo_ops : list bitmap_op :=
  [OpSetAll false; OpScanFlip 0 3 false; OpScanFlip 0 2 false; OpSetMultiple 1 2 false;
   OpCount 0 40 true; OpScan 0 3 false; OpFlip 39; OpTest 39; OpScanFlip 0 64 false].


(** [bitmap_scan_and_flip] is a first-fit allocator: it either reports
    [BITMAP_ERROR], there is no group of [cnt] bits equal to [value] at or
    after [start], and no bit changes; or it returns the first position where
    such a group starts, exactly the bits of that group become [!value], and
    all others keep their value. *)
Theorem bitmap_scan_and_flip_first_fit b bs start cnt v :
  is_bitmap b bs -> 0 <= start <= alen bs -> 0 < cnt ->
  wp (bitmap_scan_and_flip start cnt v) (fun r b' => exists bs', is_bitmap b' bs' /\
    ((r = BITMAP_ERROR /\ bs' = bs /\ forall i, start <= i -> ~ group bs cnt v i) \/
     (start <= r < BITMAP_ERROR /\ group bs cnt v r /\ (forall i, start <= i < r -> ~ group bs cnt v i) /\
      alen bs' = alen bs /\
      forall j, bs'.[j] = if decide (r <= j < r + cnt) then Some (negb v) else bs.[j]))) b.
Proof.
  intros Hb Hs Hc. eapply wp_mono; [apply scan_and_flip_ok; [done..|lia]|].
  intros r b' [-> Hb']. eexists. split; [exact Hb'|]. pose proof (bm_max _ _ Hb) as Hmax.
  destruct (scan_spec_error_or_group bs start cnt v) as [[-> Hno]|(Hle & [Hr Hg] & Hall)];
    [lia..|by left|].
  right. assert (scan_spec bs start cnt v < BITMAP_ERROR) as Hlt.
  { destruct Hr as (_ & _ & Hr). unfold BITMAP_ERROR. lia. }
  rewrite (proj2 (Z.eqb_neq _ _)) by lia.
  split; [lia|]. split; [by split|]. split; [done|]. split; [by apply alen_fill|].
  intros j. by apply aget_fill.
Qed.

Lemma bitmap_scan_and_flip_first_fit_witness :
  wp (bitmap_scan_and_flip 0 2 false) (fun r _ => r = 3) (Bitmap 8 [5]).
Proof.
  assert (is_bitmap (Bitmap 8 [5]) (map (bit (Bitmap 8 [5])) (seqZ 0 8))) as Hb.
  { apply is_bitmap_intro; [lia|unfold alen; simpl; unfold ELEM_BITS; lia|].
    repeat constructor; lia. }
  assert (0 <= 0 <= alen (map (bit (Bitmap 8 [5])) (seqZ 0 8))) as Hs by (vm_compute; split; discriminate).
  pose proof (bitmap_scan_and_flip_first_fit (Bitmap 8 [5]) _ 0 2 false Hb Hs eq_refl) as H.
  apply wp_iff in H. destruct H as (r & b' & Hrun & _).
  eapply wp_eq; [exact Hrun|]. vm_compute in Hrun. congruence.
Defined.

(** [bitmap_create] over an allocator that answers a request with at least
    the bytes asked for: it returns a bitmap of [cnt] clear bits, or NULL
    because an allocation failed; no assertion fails and no element outside
    the block is touched, whatever the block held before, also for the counts
    where the rounding of the size overflows (there the request is for 0
    bytes, which the allocator refuses). *)
Theorem bitmap_create_clear malloc cnt :
  (forall n ws, malloc n = Some ws -> 0 < n <= 4 * alen ws /\ Forall (fun w => 0 <= w < 2 ^ 32) ws) ->
  0 <= cnt < 2 ^ 32 ->
  exists r, bitmap_create malloc cnt = Ok r /\
    match r with
    | Some b => is_bitmap b (replicate (Z.to_nat cnt) false)
    | None => malloc SIZEOF_BITMAP = None \/ malloc (byte_cnt cnt) = None
    end.
Proof.
  intros Hm Hc. unfold bitmap_create.
  destruct (malloc SIZEOF_BITMAP); [|eexists; split; [done|by left]].
  destruct (malloc (byte_cnt cnt)) as [ws|] eqn:E.
  - destruct (Hm _ _ E) as [Hn Hws].
    destruct (decide (cnt + ELEM_BITS <= 2 ^ 32)) as [Hsm|Hbig].
    2:{ rewrite byte_cnt_overflow in Hn by lia. lia. }
    pose proof (byte_cnt_room cnt ltac:(lia) Hsm).
    assert (byte_cnt cnt / 4 <= alen ws) by (apply Z.div_le_upper_bound; lia).
    destruct (set_all_new cnt ws) as (b & -> & Hb); [done|unfold ELEM_BITS in *; lia|done|].
    eexists. split; [reflexivity|done].
  - destruct (Z.eqb_spec cnt 0) as [->|]; [|eexists; split; [done|by right]].
    destruct (set_all_new 0 []) as (b & -> & Hb); [done|done|constructor|].
    eexists. split; [reflexivity|done].
Qed.

Lemma bitmap_create_clear_witness : exists r,
  bitmap_create (fun n => if n <=? 0 then None else if n <=? 64 then Some (replicate 16 77) else None) 100
    = Ok r /\ (exists b, r = Some b /\ is_bitmap b (replicate (Z.to_nat 100) false)).
Proof.
  destruct (bitmap_create_clear
    (fun n => if n <=? 0 then None else if n <=? 64 then Some (replicate 16 77) else None) 100)
    as (r & Hr & Hpost).
  - intros n ws. destruct (Z.leb_spec n 0); [done|]. destruct (Z.leb_spec n 64); [|done].
    intros [= <-]. split; [unfold alen; simpl; lia|]. repeat constructor; lia.
  - lia.
  - exists r. split; [exact Hr|]. destruct r as [b|]; [exists b; split; [reflexivity|exact Hpost]|]. vm_compute in Hr. discriminate Hr.
Defined.

(** The buffer of [bitmap_create_in_buf] holds the structure and its elements. *)
Lemma bitmap_create_in_buf_ok cnt block block_size :
  0 <= cnt -> cnt + ELEM_BITS <= 2 ^ 32 -> bitmap_buf_size cnt <= block_size ->
  block_size = SIZEOF_BITMAP + 4 * alen block -> Forall (fun w => 0 <= w < 2 ^ 32) block ->
  exists b, bitmap_create_in_buf cnt block block_size = Ok b /\
    is_bitmap b (replicate (Z.to_nat cnt) false).
Proof.
  intros Hc Hmax Hle Hsz Hws. unfold bitmap_create_in_buf. rewrite (proj2 (Z.leb_le _ _)) by done.
  pose proof (byte_cnt_room cnt Hc Hmax) as Hroom.
  assert (byte_cnt cnt <= 4 * alen block) as Hb.
  { assert (0 <= byte_cnt cnt <= 2 ^ 29).
    { pose proof (DIV_ROUND_UP_bounds cnt ELEM_BITS Hc eq_refl Hmax) as Hd.
      unfold byte_cnt, elem_cnt. unfold ELEM_BITS in *. rewrite wrap_small; lia. }
    unfold bitmap_buf_size, SIZEOF_BITMAP in *. rewrite wrap_small in Hle; lia. }
  assert (byte_cnt cnt / 4 <= alen block) by (apply Z.div_le_upper_bound; lia).
  destruct (set_all_new cnt block) as (b & -> & Hok); [unfold ELEM_BITS in *; lia..|done|].
  exists b. done.
Qed.
