(* ===== verification/Khash.v ===== *)
(** * Hash tables (src/lib/kernel/hash.c)

    A [struct hash] with its array of bucket lists.  Elements are pointers; a
    bucket is the sequence of elements of a [struct list], the view of lists
    that Klist and KlistSpec justify.  The hash function, the order and the
    outcome of [malloc] are parameters.  [is_hash h X] relates a table to the
    set of elements it holds, and the theorems show that insertion, search,
    replacement, deletion and iteration act on that set, whatever [rehash]
    does to the buckets. *)

From S2P Require Import Prelude.

Record hash := Hash { elem_cnt : Z; bucket_cnt : Z; buckets : list (list Z) }.

Definition SIZEOF_LIST : Z := 16.
Definition MIN_ELEMS_PER_BUCKET : Z := 1.
Definition BEST_ELEMS_PER_BUCKET : Z := 2.
Definition MAX_ELEMS_PER_BUCKET : Z := 4.

Definition turn_off_least_1bit (x : Z) : Z := Z.land x (u32 (x - 1)).

Definition is_power_of_2 (x : Z) : bool := negb (x =? 0) && (turn_off_least_1bit x =? 0).

(** The number of buckets [rehash] wants for [cnt] elements. *)
Definition new_bucket_cnt {S} (cnt : Z) : M S Z :=
  let n := cnt / BEST_ELEMS_PER_BUCKET in
  let n := if n <? 4 then 4 else n in
  loop 33 (fun n => mret (if negb (is_power_of_2 n) then inl (turn_off_least_1bit n) else inr n)) n.

Section table.
Variable hash_fn : Z -> Z.
Variable less : Z -> Z -> bool.
(** Whether [malloc] of that many bytes succeeds. *)
Variable malloc : Z -> bool.

(** [find_bucket] returns the number of the bucket. *)
Definition find_bucket (e : Z) : M hash Z :=
  h ← get;
  mret (Z.land (hash_fn e) (u32 (bucket_cnt h - 1))).

Fixpoint find_elem (bucket : list Z) (e : Z) : option Z :=
  match bucket with
  | [] => None
  | hi :: rest => if negb (less hi e) && negb (less e hi) then Some hi else find_elem rest e
  end.

Definition push_bucket (i e : Z) : M hash unit :=
  h ← get;
  l ← deref (buckets h).[i];
  put (Hash (elem_cnt h) (bucket_cnt h) (buckets h).[i <- e :: l]).

Definition insert_elem (i e : Z) : M hash unit :=
  modify (fun h => Hash (u32 (elem_cnt h + 1)) (bucket_cnt h) (buckets h));;
  push_bucket i e.

(** [list_remove] unlinks [e] from the bucket it is in. *)
Definition remove_elem (e : Z) : M hash unit :=
  modify (fun h => Hash (u32 (elem_cnt h - 1)) (bucket_cnt h)
                        (map (filter (fun x => x <> e)) (buckets h))).

Fixpoint move_elems (es : list Z) : M hash unit :=
  match es with
  | [] => mret ()
  | e :: es => i ← find_bucket e; push_bucket i e;; move_elems es
  end.

Definition rehash : M hash unit :=
  h ← get;
  n ← new_bucket_cnt (elem_cnt h);
  if n =? bucket_cnt h then mret ()
  else if negb (malloc (u32 (SIZEOF_LIST * n))) then mret ()
  else
    put (Hash (elem_cnt h) n (replicate (Z.to_nat n) []));;
    for_ (Z.to_nat (bucket_cnt h)) 0 (fun i =>
      old_bucket ← deref (buckets h).[i];
      move_elems old_bucket).

Definition get_bucket (i : Z) : M hash (list Z) := h ← get; deref (buckets h).[i].

Definition hash_insert (new : Z) : M hash (option Z) :=
  i ← find_bucket new;
  bucket ← get_bucket i;
  let old := find_elem bucket new in
  match old with None => insert_elem i new | Some _ => mret () end;;
  rehash;;
  mret old.

Definition hash_replace (new : Z) : M hash (option Z) :=
  i ← find_bucket new;
  bucket ← get_bucket i;
  let old := find_elem bucket new in
  match old with Some o => remove_elem o | None => mret () end;;
  insert_elem i new;;
  rehash;;
  mret old.

Definition hash_find (e : Z) : M hash (option Z) :=
  i ← find_bucket e;
  bucket ← get_bucket i;
  mret (find_elem bucket e).

Definition hash_delete (e : Z) : M hash (option Z) :=
  i ← find_bucket e;
  bucket ← get_bucket i;
  let found := find_elem bucket e in
  match found with Some f => remove_elem f;; rehash | None => mret () end;;
  mret found.

Definition hash_size : M hash Z := gets elem_cnt.

Definition hash_empty : M hash bool := h ← get; mret (elem_cnt h =? 0).

(** [hash_clear] with a destructor pops every element of every bucket and
    calls the destructor on it; the result is the sequence of those calls.
    Without one the buckets are only reinitialised. *)
Definition hash_clear (destructor : bool) : M hash (list Z) :=
  h ← get;
  calls ← for_acc (Z.to_nat (bucket_cnt h)) 0 [] (fun i calls =>
    bucket ← get_bucket i;
    modify (fun h => Hash (elem_cnt h) (bucket_cnt h) (buckets h).[i <- []]);;
    mret (if destructor then calls ++ bucket else calls));
  modify (fun h => Hash 0 (bucket_cnt h) (buckets h));;
  mret calls.

(** [free (h->buckets)] leaves no bucket to access. *)
Definition hash_destroy (destructor : bool) : M hash (list Z) :=
  calls ← (if destructor then hash_clear true else mret []);
  modify (fun h => Hash (elem_cnt h) (bucket_cnt h) []);;
  mret calls.

(** The sequence of calls of [action]. *)
Definition hash_apply : M hash (list Z) :=
  h ← get;
  for_acc (Z.to_nat (bucket_cnt h)) 0 [] (fun i calls =>
    bucket ← get_bucket i;
    mret (calls ++ bucket)).

(** [hash_init] on a table whose buckets are the lists [junk] of a new block. *)
Definition hash_init (junk : list (list Z)) : M hash bool :=
  put (Hash 0 4 junk);;
  if malloc (u32 (SIZEOF_LIST * 4)) then hash_clear false;; mret true else mret false.
End table.

(** ** Iterators

    [it_elem] is the head of the current bucket after [hash_first], an
    element, or the null pointer at the end. *)
Inductive cursor := AtHead | AtElem (e : Z) | AtNull.
Record hash_iterator := HashIterator { it_bucket : Z; it_elem : cursor }.

(** [list_next] from a cursor in a bucket; nothing is the bucket's tail. *)
Fixpoint next_after (l : list Z) (e : Z) : option Z :=
  match l with
  | [] => None
  | x :: rest => if x =? e then head rest else next_after rest e
  end.

Definition hash_first : hash_iterator := HashIterator 0 AtHead.

Definition hash_cur (i : hash_iterator) : cursor := it_elem i.

Definition hash_next (i : hash_iterator) : M hash hash_iterator :=
  bucket ← get_bucket (it_bucket i);
  e ← match it_elem i with
      | AtHead => mret (head bucket)
      | AtElem e => mret (next_after bucket e)
      | AtNull => fail BadPointer
      end;
  h ← get;
  loop (S (length (buckets h))) (fun '(b, e) =>
    match e with
    | Some x => mret (inr (HashIterator b (AtElem x)))
    | None =>
      if bucket_cnt h <=? b + 1 then mret (inr (HashIterator (b + 1) AtNull))
      else bucket ← get_bucket (b + 1); mret (inl (b + 1, head bucket))
    end) (it_bucket i, e).

(** The iteration idiom of the comment: the elements seen by [hash_cur]. *)
Definition hash_iterate (fuel : nat) : M hash (list Z) :=
  loop fuel (fun '(i, seen) =>
    i ← hash_next i;
    mret (match hash_cur i with AtElem e => inl (i, seen ++ [e]) | _ => inr seen end))
    (hash_first, []).

(** ** Sample hash functions *)
Definition FNV_32_PRIME : Z := 16777619.
Definition FNV_32_BASIS : Z := 2166136261.

Fixpoint fnv (hash : Z) (buf : list Z) : Z :=
  match buf with
  | [] => hash
  | b :: buf => fnv (Z.lxor (u32 (hash * FNV_32_PRIME)) b) buf
  end.

Definition hash_bytes (buf : list Z) : Z := fnv FNV_32_BASIS buf.

(** The bytes of the string up to its terminator. *)
Fixpoint until_nul (s : list Z) : list Z :=
  match s with [] => [] | c :: s => if c =? 0 then [] else c :: until_nul s end.
Definition hash_string (s : list Z) : Z := fnv FNV_32_BASIS (until_nul s).

(** The bytes of a little-endian [int]. *)
Definition int_bytes (i : Z) : list Z := map (fun k => u8 (Z.shiftr i (8 * k))) [0; 1; 2; 3].
Definition hash_int (i : Z) : Z := hash_bytes (int_bytes i).

(** ** Powers of two *)
Lemma land_pred_even y : 0 < y -> Z.land (2 * y) (2 * y - 1) = 2 * Z.land y (y - 1).
Proof.
  intros Hy. replace (2 * y - 1) with (2 * (y - 1) + 1) by lia. apply Z.bits_inj'. intros n Hn.
  destruct (decide (n = 0)) as [->|].
  - by rewrite Z.land_spec, !Z.testbit_even_0.
  - replace n with (Z.succ (n - 1)) by lia.
    rewrite Z.land_spec, !Z.testbit_even_succ, Z.testbit_odd_succ, Z.land_spec by lia. done.
Qed.

Lemma land_pred_odd y : 0 <= y -> Z.land (2 * y + 1) (2 * y + 1 - 1) = 2 * y.
Proof.
  intros Hy. replace (2 * y + 1 - 1) with (2 * y) by lia. apply Z.bits_inj'. intros n Hn.
  destruct (decide (n = 0)) as [->|].
  - by rewrite Z.land_spec, !Z.testbit_even_0, andb_false_r.
  - replace n with (Z.succ (n - 1)) by lia.
    rewrite Z.land_spec, !Z.testbit_even_succ, Z.testbit_odd_succ by lia. apply andb_diag.
Qed.

Lemma land_pred_divide k x :
  0 <= k -> 0 < x -> (2 ^ k | x) -> (2 ^ (k + 1) | Z.land x (x - 1)).
Proof.
  intros Hk. revert x. pattern k. apply natlike_ind; [| |done]; clear k Hk.
  - intros x Hx _. simpl. destruct (Z.Even_or_Odd x) as [[y ->]|[y ->]].
    + rewrite land_pred_even by lia. apply Z.divide_factor_l.
    + rewrite land_pred_odd by lia. apply Z.divide_factor_l.
  - intros k Hk IH x Hx [c ->]. rewrite Z.pow_succ_r in * by done.
    replace (c * (2 * 2 ^ k)) with (2 * (c * 2 ^ k)) in * by ring.
    rewrite land_pred_even by lia. replace (Z.succ k + 1) with (Z.succ (k + 1)) by lia.
    rewrite Z.pow_succ_r by lia. apply Z.mul_divide_mono_l. apply IH; [lia|by exists c].
Qed.

(** Clearing the lowest one bit keeps the highest, unless they are the same. *)
Lemma land_pred_log2 x :
  0 < x -> Z.land x (x - 1) = 0 /\ x = 2 ^ Z.log2 x \/
           0 < Z.land x (x - 1) /\ Z.log2 (Z.land x (x - 1)) = Z.log2 x.
Proof.
  destruct x as [|p|p]; [lia| |lia]. intros _. induction p as [p IH|p IH|].
  - right. rewrite Pos2Z.inj_xI, land_pred_odd by lia. split; [lia|].
    rewrite Z.log2_succ_double, Z.log2_double by lia. done.
  - rewrite Pos2Z.inj_xO, land_pred_even, Z.log2_double by lia.
    destruct IH as [[-> Hp]|[Hpos Hlog]].
    + left. split; [done|]. rewrite Z.pow_succ_r by apply Z.log2_nonneg. lia.
    + right. split; [lia|]. by rewrite Z.log2_double, Hlog by lia.
  - by left.
Qed.

Lemma turn_off_least_1bit_eq x : 0 < x < 2 ^ 32 -> turn_off_least_1bit x = Z.land x (x - 1).
Proof. intros Hx. unfold turn_off_least_1bit. by rewrite wrap_small by lia. Qed.

(** Enough buckets for two elements each, rounded down to a power of two, and
    four at least; 33 rounds of the loop are enough for a 32-bit count. *)
Definition ideal_cnt (cnt : Z) : Z := 2 ^ Z.log2 (Z.max 4 (cnt / BEST_ELEMS_PER_BUCKET)).

Lemma new_bucket_cnt_ok {S} cnt (s : S) :
  0 <= cnt < 2 ^ 32 -> new_bucket_cnt cnt s = Ok (ideal_cnt cnt, s).
Proof.
  intros Hc. cut (wp (new_bucket_cnt cnt) (fun r s' => r = ideal_cnt cnt /\ s' = s) s).
  { by intros (r & s' & -> & -> & ->)%wp_iff. }
  unfold new_bucket_cnt, ideal_cnt, BEST_ELEMS_PER_BUCKET. cbv zeta.
  set (n0 := if cnt / 2 <? 4 then 4 else cnt / 2). assert (Z.max 4 (cnt / 2) = n0) as ->.
  { unfold n0. destruct (Z.ltb_spec (cnt / 2) 4); lia. }
  assert (4 <= n0 < 2 ^ 32) as Hn0.
  { unfold n0. pose proof (Z.div_lt_upper_bound cnt 2 (2 ^ 31)).
    destruct (Z.ltb_spec (cnt / 2) 4); lia. }
  apply (wp_loop (fun n x s' => s' = s /\ exists k, 0 <= k /\ n = Z.to_nat (32 - k) /\
    (2 ^ k | x) /\ 0 < x < 2 ^ 32 /\ Z.log2 x = Z.log2 n0)) with (n := 32%nat); [| |lia].
  2:{ split; [done|]. exists 0. split_and!; [lia..|apply Z.divide_1_l|lia|lia|done]. }
  intros n x s' (-> & k & Hk & -> & Hdiv & Hx & Hlog). wp_step.
  unfold is_power_of_2. rewrite turn_off_least_1bit_eq, (proj2 (Z.eqb_neq x 0)) by lia. simpl.
  destruct (land_pred_log2 x) as [[-> Hpow]|[Hpos Hlog2]]; [lia|simpl; split; congruence|].
  rewrite (proj2 (Z.eqb_neq _ 0)) by lia. simpl. exists (Z.to_nat (32 - (k + 1))).
  assert (k < 32) as Hk32.
  { apply Z.pow_lt_mono_r_iff with 2; [lia..|]. apply Z.divide_pos_le in Hdiv; lia. }
  split; [lia|]. split; [done|]. exists (k + 1).
  pose proof (land_range 32 x (x - 1)).
  split_and!; [lia|done|apply land_pred_divide; [lia..|done]|lia|lia|congruence].
Qed.

Lemma ideal_cnt_pow2 cnt : 0 <= cnt < 2 ^ 32 -> exists k, 2 <= k < 32 /\ ideal_cnt cnt = 2 ^ k.
Proof.
  intros Hc. unfold ideal_cnt, BEST_ELEMS_PER_BUCKET. eexists. split; [|reflexivity].
  pose proof (Z.div_lt_upper_bound cnt 2 (2 ^ 31)). split.
  - apply (Z.log2_le_pow2 _ 2); lia.
  - apply Z.log2_lt_pow2; lia.
Qed.

(** ** The set of elements *)
Definition eqv (less : Z -> Z -> bool) (a b : Z) : bool := negb (less a b) && negb (less b a).

(** What the table relies on: "neither is less" is an equivalence, and the
    hash function, whose values are [unsigned], does not separate equivalent
    elements. *)
Class HashKey (hash_fn : Z -> Z) (less : Z -> Z -> bool) : Prop := {
  hk_range : forall e, 0 <= hash_fn e < 2 ^ 32;
  hk_refl : forall a, eqv less a a = true;
  hk_trans : forall a b c, eqv less a b = true -> eqv less b c = true -> eqv less a c = true;
  hk_hash : forall a b, eqv less a b = true -> hash_fn a = hash_fn b
}.

Lemma eqv_sym less a b : eqv less a b = eqv less b a.
Proof. apply andb_comm. Qed.

(** Lists of lists updated at an index. *)
Lemma concat_aset (bks : list (list Z)) i l l' :
  bks.[i] = Some l -> concat bks.[i <- l'] ++ l ≡ₚ concat bks ++ l'.
Proof.
  intros Hl. pose proof Hl as [Hi Hk]%aget_Some. unfold aset. destruct (Z.ltb_spec i 0); [lia|].
  rewrite <- (take_drop_middle _ _ _ Hk) at 2. rewrite insert_take_drop by (by eapply lookup_lt_Some).
  rewrite !concat_app. simpl. solve_Permutation.
Qed.

Lemma concat_aset_cons (bks : list (list Z)) i l e :
  bks.[i] = Some l -> concat bks.[i <- e :: l] ≡ₚ e :: concat bks.
Proof.
  intros Hl. apply (Permutation_app_inv_r l). rewrite concat_aset by done.
  simpl. apply Permutation_sym, Permutation_middle.
Qed.

Lemma elem_of_concat_aget (bks : list (list Z)) e :
  e ∈ concat bks <-> exists i l, bks.[i] = Some l /\ e ∈ l.
Proof.
  rewrite list_elem_of_In, in_concat. split.
  - intros (l & Hl & He). apply list_elem_of_In in Hl, He.
    apply list_elem_of_lookup in Hl as [n Hn]. exists (Z.of_nat n), l. by rewrite aget_nat.
  - intros (i & l & [_ Hl]%aget_Some & He). exists l.
    split; apply list_elem_of_In; [by eapply list_elem_of_lookup_2|done].
Qed.

Section refinement.
Context (hash_fn : Z -> Z) (less : Z -> Z -> bool) `{HK : HashKey hash_fn less}.
Abbreviation eqv := (eqv less).

Definition bucket_of (cnt e : Z) : Z := Z.land (hash_fn e) (u32 (cnt - 1)).

Definition pow2_cnt (cnt : Z) : Prop := exists k, 2 <= k < 32 /\ cnt = 2 ^ k.

(** [bks] has [cnt] buckets and every element of [xs] in the right one. *)
Record placed (cnt : Z) (bks : list (list Z)) (xs : list Z) : Prop := {
  pl_pow : pow2_cnt cnt;
  pl_len : alen bks = cnt;
  pl_perm : concat bks ≡ₚ xs;
  pl_place : forall i l e, bks.[i] = Some l -> e ∈ l -> bucket_of cnt e = i
}.

Lemma bucket_of_range cnt e : pow2_cnt cnt -> 0 <= bucket_of cnt e < cnt.
Proof.
  intros (k & Hk & ->). unfold bucket_of.
  assert (2 ^ k < 2 ^ 32) by (apply Z.pow_lt_mono_r; lia).
  rewrite wrap_small by lia. replace (2 ^ k - 1) with (Z.ones k) by (rewrite Z.ones_equiv; lia).
  rewrite Z.land_ones by lia. apply Z.mod_pos_bound. lia.
Qed.

Lemma placed_perm cnt bks xs ys : xs ≡ₚ ys -> placed cnt bks xs -> placed cnt bks ys.
Proof. intros Hp [? ? ? ?]. split; try done. by rewrite <- Hp. Qed.

Lemma placed_empty cnt : pow2_cnt cnt -> placed cnt (replicate (Z.to_nat cnt) []) [].
Proof.
  intros Hc. assert (concat (replicate (Z.to_nat cnt) ([] : list Z)) = []) as He.
  { induction (Z.to_nat cnt) as [|n IH]; [done|exact IH]. }
  split; [done| |by rewrite He|].
  - unfold alen. rewrite length_replicate. destruct Hc as (k & Hk & ->). lia.
  - intros i l e [_ [-> _]%lookup_replicate]%aget_Some. set_solver.
Qed.

Lemma placed_bucket cnt bks xs e :
  placed cnt bks xs -> exists l, bks.[bucket_of cnt e] = Some l.
Proof.
  intros Hp. apply aget_is_Some. rewrite (pl_len _ _ _ Hp). apply bucket_of_range, Hp.
Qed.

Lemma placed_push cnt bks xs e l :
  placed cnt bks xs -> bks.[bucket_of cnt e] = Some l ->
  placed cnt bks.[bucket_of cnt e <- e :: l] (e :: xs).
Proof.
  intros Hp Hl. split; autorewrite with arr; [apply Hp|apply Hp| |].
  - rewrite concat_aset_cons by done. by rewrite (pl_perm _ _ _ Hp).
  - intros i l' x. rewrite aget_aset by (by eapply aget_lt). case_decide as Hi; [|by apply Hp].
    intros [= <-] [->|Hx]%elem_of_cons; [done|]. subst i. by eapply pl_place.
Qed.

Lemma placed_remove cnt bks xs e :
  placed cnt bks xs ->
  placed cnt (map (filter (fun x => x <> e)) bks) (filter (fun x => x <> e) xs).
Proof.
  intros Hp. split; [apply Hp| | |].
  - unfold alen. rewrite length_map. apply Hp.
  - rewrite <- (pl_perm _ _ _ Hp). clear Hp. induction bks as [|l bks IH]; [done|].
    simpl. by rewrite filter_app, IH.
  - intros i l x [Hi Hl]%aget_Some. apply list_lookup_fmap_Some in Hl as (l0 & -> & Hl0).
    intros [_ Hx]%list_elem_of_filter. eapply (pl_place _ _ _ Hp); [|exact Hx]. by apply aget_Some.
Qed.

(** ** The internal operations on a placed table *)
Lemma push_bucket_ok h xs e :
  placed (bucket_cnt h) (buckets h) xs ->
  wp (push_bucket (bucket_of (bucket_cnt h) e) e) (fun _ h' =>
    elem_cnt h' = elem_cnt h /\ bucket_cnt h' = bucket_cnt h /\
    placed (bucket_cnt h') (buckets h') (e :: xs)) h.
Proof.
  intros Hp. destruct (placed_bucket _ _ _ e Hp) as [l Hl].
  unfold push_bucket. do 3 wp_step. eapply wp_deref; [exact Hl|]. wp_step. simpl.
  split_and!; [done|done|]. by apply placed_push.
Qed.

Lemma move_elems_ok es h xs :
  placed (bucket_cnt h) (buckets h) xs ->
  wp (move_elems hash_fn es) (fun _ h' =>
    elem_cnt h' = elem_cnt h /\ bucket_cnt h' = bucket_cnt h /\
    placed (bucket_cnt h') (buckets h') (es ++ xs)) h.
Proof.
  revert h xs. induction es as [|e es IH]; intros h xs Hp; simpl; [by wp_step|].
  unfold find_bucket. do 4 wp_step. wp_step. eapply wp_mono; [by apply push_bucket_ok|].
  intros ? h1 (He1 & Hc1 & Hp1). eapply wp_mono; [by apply IH|].
  intros ? h2 (He2 & Hc2 & Hp2). split_and!; [congruence..|].
  eapply placed_perm; [|exact Hp2]. symmetry. apply Permutation_middle.
Qed.

Lemma rehash_ok malloc h xs :
  placed (bucket_cnt h) (buckets h) xs -> 0 <= elem_cnt h < 2 ^ 32 ->
  wp (rehash hash_fn malloc) (fun _ h' =>
    elem_cnt h' = elem_cnt h /\ placed (bucket_cnt h') (buckets h') xs) h.
Proof.
  intros Hp Hn. unfold rehash. do 2 wp_step. wp_step. eapply wp_eq; [by apply new_bucket_cnt_ok|].
  case_match; [by wp_step|]. case_match; [by wp_step|]. do 2 wp_step.
  pose proof (pl_len _ _ _ Hp) as Hlen. pose proof (alen_nonneg (buckets h)).
  eapply wp_mono.
  - apply (wp_for (fun i h' => elem_cnt h' = elem_cnt h /\
      placed (bucket_cnt h') (buckets h') (concat (take (Z.to_nat i) (buckets h))))).
    + intros i h' Hi (He & Hp'). destruct (proj1 (aget_is_Some (buckets h) i)) as [l Hl]; [lia|].
      wp_step. eapply wp_deref; [exact Hl|]. eapply wp_mono; [by apply move_elems_ok|].
      intros ? h2 (He2 & Hc2 & Hp2). split; [congruence|]. eapply placed_perm; [|exact Hp2].
      apply aget_Some in Hl as [_ Hl]. rewrite Z2Nat.inj_add, Nat.add_1_r by lia.
      rewrite (take_S_r _ _ _ Hl), concat_app. simpl. rewrite app_nil_r. apply Permutation_app_comm.
    + simpl. split; [done|]. by apply placed_empty, ideal_cnt_pow2.
  - intros ? h' (He & Hp'). split; [done|]. eapply placed_perm; [|exact Hp'].
    rewrite take_ge by (unfold alen in Hlen; lia). apply Hp.
Qed.

(** ** The table holds the set [X] *)
Record is_hash (h : hash) (X : gset Z) : Prop := {
  ih_placed : placed (bucket_cnt h) (buckets h) (elements X);
  ih_cnt : elem_cnt h = Z.of_nat (size X);
  ih_max : Z.of_nat (size X) < 2 ^ 32;
  ih_distinct : forall a b, a ∈ X -> b ∈ X -> eqv a b = true -> a = b
}.

(** The element of [X] equal to [e]. *)
Definition member (X : gset Z) (e : Z) : option Z :=
  head (filter (fun x => eqv x e = true) (elements X)).

Lemma member_Some X e x :
  (forall a b, a ∈ X -> b ∈ X -> eqv a b = true -> a = b) ->
  x ∈ X -> eqv x e = true -> member X e = Some x.
Proof.
  intros Hd Hx He. unfold member.
  destruct (filter _ (elements X)) as [|y l] eqn:E.
  - assert (x ∈ filter (fun x => eqv x e = true) (elements X)) as Hin
      by (apply list_elem_of_filter; set_solver). rewrite E in Hin. set_solver.
  - assert (y ∈ filter (fun x => eqv x e = true) (elements X)) as Hin by (rewrite E; set_solver).
    apply list_elem_of_filter in Hin as [Hye Hy%elem_of_elements]. simpl. f_equal.
    apply Hd; [done..|]. eapply hk_trans; [exact Hye|]. by rewrite eqv_sym.
Qed.

Lemma member_None X e : (forall x, x ∈ X -> eqv x e = false) -> member X e = None.
Proof.
  intros Hno. unfold member. destruct (filter _ (elements X)) as [|y l] eqn:E; [done|].
  assert (y ∈ filter (fun x => eqv x e = true) (elements X)) as Hin by (rewrite E; set_solver).
  apply list_elem_of_filter in Hin as [Hye Hy%elem_of_elements]. rewrite Hno in Hye; done.
Qed.

Lemma member_inv X e :
  match member X e with
  | Some x => x ∈ X /\ eqv x e = true
  | None => forall x, x ∈ X -> eqv x e = false
  end.
Proof.
  unfold member. destruct (filter _ (elements X)) as [|y l] eqn:E; simpl.
  - intros x Hx. destruct (eqv x e) eqn:Ex; [|done].
    assert (x ∈ filter (fun x => eqv x e = true) (elements X)) as Hin
      by (apply list_elem_of_filter; set_solver). rewrite E in Hin. set_solver.
  - assert (y ∈ filter (fun x => eqv x e = true) (elements X)) as Hin by (rewrite E; set_solver).
    apply list_elem_of_filter in Hin as [Hye Hy%elem_of_elements]. done.
Qed.

Lemma find_elem_spec l e :
  match find_elem less l e with
  | Some x => x ∈ l /\ eqv x e = true
  | None => forall x, x ∈ l -> eqv x e = false
  end.
Proof.
  induction l as [|y l IH]; simpl; [set_solver|].
  change (negb (less y e) && negb (less e y)) with (eqv y e).
  destruct (eqv y e) eqn:E; [set_solver|]. destruct (find_elem less l e); set_solver.
Qed.

Lemma in_bucket h X e x l :
  is_hash h X -> (buckets h).[bucket_of (bucket_cnt h) e] = Some l -> x ∈ X -> eqv x e = true -> x ∈ l.
Proof.
  intros Hh Hl Hx He. pose proof (ih_placed _ _ Hh) as Hp.
  assert (x ∈ concat (buckets h)) as Hc by (rewrite (pl_perm _ _ _ Hp); set_solver).
  apply elem_of_concat_aget in Hc as (i & l' & Hl' & Hx').
  pose proof (pl_place _ _ _ Hp _ _ _ Hl' Hx') as Hi. unfold bucket_of in *.
  rewrite (hk_hash _ _ He) in Hi. simplify_eq. done.
Qed.

Lemma bucket_subset h X i l x : is_hash h X -> (buckets h).[i] = Some l -> x ∈ l -> x ∈ X.
Proof.
  intros Hh Hl Hx. apply elem_of_elements. rewrite <- (pl_perm _ _ _ (ih_placed _ _ Hh)).
  apply elem_of_concat_aget. eauto.
Qed.

(** The common start of the operations: the bucket of [e] and its search. *)
Lemma lookup_ok {A} h X e (k : Z -> list Z -> M hash A) Q :
  is_hash h X ->
  (forall l, find_elem less l e = member X e -> wp (k (bucket_of (bucket_cnt h) e) l) Q h) ->
  wp (i ← find_bucket hash_fn e; bucket ← get_bucket i; k i bucket) Q h.
Proof.
  intros Hh Hk. destruct (placed_bucket _ _ _ e (ih_placed _ _ Hh)) as [l Hl].
  unfold find_bucket, get_bucket. do 4 wp_step. wp_step. do 2 wp_step.
  eapply wp_deref; [exact Hl|]. apply Hk. pose proof (find_elem_spec l e) as Hf.
  destruct (find_elem less l e) as [x|].
  - destruct Hf as [Hx Hxe]. symmetry. apply member_Some; [apply Hh|by eapply bucket_subset|done].
  - symmetry. apply member_None. intros x Hx. destruct (eqv x e) eqn:Ex; [|done].
    rewrite <- Ex. apply Hf. by eapply in_bucket.
Qed.

(** [insert_elem] of an element equal to none of the table. *)
Lemma insert_elem_ok h X e :
  is_hash h X -> (forall x, x ∈ X -> eqv x e = false) -> Z.of_nat (size X) + 1 < 2 ^ 32 ->
  wp (insert_elem (bucket_of (bucket_cnt h) e) e) (fun _ h' =>
    bucket_cnt h' = bucket_cnt h /\ is_hash h' ({[e]} ∪ X)) h.
Proof.
  intros Hh Hno Hmax. assert (e ∉ X) as Hni.
  { intros He. pose proof (Hno _ He). rewrite hk_refl in *. done. }
  unfold insert_elem. do 2 wp_step.
  eapply wp_mono; [apply (push_bucket_ok (Hash _ _ _) (elements X) e), Hh|].
  intros [] h' (He & Hc & Hp). simpl in *. pose proof (ih_cnt _ _ Hh) as Hcnt.
  split; [done|]. split.
  - eapply placed_perm; [|exact Hp]. by rewrite elements_union_singleton.
  - rewrite He, size_union, size_singleton by set_solver. rewrite wrap_small; lia.
  - rewrite size_union, size_singleton by set_solver. lia.
  - intros a b [->%elem_of_singleton|Ha]%elem_of_union [->%elem_of_singleton|Hb]%elem_of_union Hab;
      [done|rewrite eqv_sym, Hno in Hab; done|rewrite Hno in Hab; done|by eapply ih_distinct].
Qed.

Lemma remove_elem_ok h X e :
  is_hash h X -> e ∈ X ->
  wp (remove_elem e) (fun _ h' => bucket_cnt h' = bucket_cnt h /\ is_hash h' (X ∖ {[e]})) h.
Proof.
  intros Hh He. unfold remove_elem. wp_step. simpl. split; [done|].
  pose proof (ih_cnt _ _ Hh) as Hcnt. pose proof (ih_max _ _ Hh) as Hmax.
  assert (size X = S (size (X ∖ {[e]}))) as Hsz.
  { rewrite (union_difference_L {[e]} X) at 1 by set_solver.
    by rewrite size_union, size_singleton by set_solver. }
  split; simpl.
  - eapply placed_perm; [|apply placed_remove, Hh]. apply NoDup_Permutation.
    + apply NoDup_filter, NoDup_elements.
    + apply NoDup_elements.
    + intros x. rewrite list_elem_of_filter, !elem_of_elements. set_solver.
  - rewrite wrap_small; lia.
  - lia.
  - intros a b Ha Hb. apply (ih_distinct _ _ Hh); set_solver.
Qed.

Lemma rehash_is_hash malloc h X :
  is_hash h X -> wp (rehash hash_fn malloc) (fun _ h' => is_hash h' X) h.
Proof.
  intros Hh. pose proof (ih_cnt _ _ Hh). pose proof (ih_max _ _ Hh).
  eapply wp_mono; [apply rehash_ok; [apply Hh|lia]|].
  intros ? h' [He Hp]. split; [done|lia|lia|apply Hh].
Qed.

(** ** The operations on the set *)
Definition room (X : gset Z) : Prop := Z.of_nat (size X) + 1 < 2 ^ 32.

Definition spec_insert (X : gset Z) (new : Z) : gset Z :=
  match member X new with Some _ => X | None => {[new]} ∪ X end.
Definition spec_delete (X : gset Z) (e : Z) : gset Z :=
  match member X e with Some x => X ∖ {[x]} | None => X end.
Definition spec_replace (X : gset Z) (new : Z) : gset Z := {[new]} ∪ spec_delete X new.

Lemma hash_insert_ok malloc h X new :
  is_hash h X -> room X ->
  wp (hash_insert hash_fn less malloc new) (fun r h' =>
    r = member X new /\ is_hash h' (spec_insert X new)) h.
Proof.
  intros Hh Hroom. unfold hash_insert, spec_insert. eapply lookup_ok; [done|].
  intros l Hl. cbv zeta. rewrite Hl. pose proof (member_inv X new) as Hm.
  wp_step. destruct (member X new) as [o|].
  - do 2 wp_step. eapply wp_mono; [by apply rehash_is_hash|]. intros [] h' Hh'. by wp_step.
  - eapply wp_mono; [by apply insert_elem_ok|]. intros [] h1 [_ Hh1].
    wp_step. eapply wp_mono; [by apply rehash_is_hash|]. intros [] h' Hh'. by wp_step.
Qed.

Lemma hash_replace_ok malloc h X new :
  is_hash h X -> room X ->
  wp (hash_replace hash_fn less malloc new) (fun r h' =>
    r = member X new /\ is_hash h' (spec_replace X new)) h.
Proof.
  intros Hh Hroom. unfold hash_replace, spec_replace, spec_delete. eapply lookup_ok; [done|].
  intros l Hl. cbv zeta. rewrite Hl. pose proof (member_inv X new) as Hm.
  wp_step. eapply wp_mono with (P := fun _ h1 => bucket_cnt h1 = bucket_cnt h /\
    is_hash h1 match member X new with Some x => X ∖ {[x]} | None => X end).
  { destruct (member X new) as [o|]; [apply remove_elem_ok; [done|apply Hm]|by wp_step]. }
  intros [] h1 [Hc Hh1]. wp_step. rewrite <- Hc.
  eapply wp_mono; [apply insert_elem_ok; [exact Hh1| |]|].
  - destruct (member X new) as [o|]; [|done]. intros x [Hx Hne]%elem_of_difference.
    destruct (eqv x new) eqn:E; [|done]. exfalso. apply Hne, elem_of_singleton.
    apply (ih_distinct _ _ Hh); [done|apply Hm|]. eapply hk_trans; [exact E|].
    rewrite eqv_sym. apply Hm.
  - unfold room in Hroom. destruct (member X new) as [o|]; [|done].
    assert (size (X ∖ {[o]}) <= size X)%nat by (apply subseteq_size; set_solver). lia.
  - intros [] h2 [_ Hh2]. wp_step. eapply wp_mono; [by apply rehash_is_hash|].
    intros [] h' Hh'. by wp_step.
Qed.

Lemma hash_find_ok h X e :
  is_hash h X -> hash_find hash_fn less e h = Ok (member X e, h).
Proof.
  intros Hh. cut (wp (hash_find hash_fn less e) (fun r h' => r = member X e /\ h' = h) h).
  { by intros (r & h' & -> & -> & ->)%wp_iff. }
  unfold hash_find. eapply lookup_ok; [done|]. intros l Hl. wp_step. done.
Qed.

Lemma hash_delete_ok malloc h X e :
  is_hash h X ->
  wp (hash_delete hash_fn less malloc e) (fun r h' =>
    r = member X e /\ is_hash h' (spec_delete X e)) h.
Proof.
  intros Hh. unfold hash_delete, spec_delete. eapply lookup_ok; [done|].
  intros l Hl. cbv zeta. rewrite Hl. pose proof (member_inv X e) as Hm.
  wp_step. destruct (member X e) as [o|]; [|by do 2 wp_step].
  wp_step. eapply wp_mono; [apply remove_elem_ok; [done|apply Hm]|]. intros [] h1 [_ Hh1].
  eapply wp_mono; [by apply rehash_is_hash|]. intros [] h' Hh'. by wp_step.
Qed.

(** The loops over all the buckets. *)
Lemma buckets_take_step bks i (l : list Z) :
  bks.[i] = Some l -> concat (take (Z.to_nat (i + 1)) bks) = concat (take (Z.to_nat i) bks) ++ l.
Proof.
  intros [Hi Hl]%aget_Some. rewrite Z2Nat.inj_add, Nat.add_1_r by lia.
  rewrite (take_S_r _ _ _ Hl), concat_app. simpl. by rewrite app_nil_r.
Qed.

Lemma hash_apply_ok h X :
  is_hash h X -> hash_apply h = Ok (concat (buckets h), h).
Proof.
  intros Hh. pose proof (pl_len _ _ _ (ih_placed _ _ Hh)) as Hlen.
  pose proof (alen_nonneg (buckets h)).
  cut (wp hash_apply (fun r h' => r = concat (buckets h) /\ h' = h) h).
  { by intros (r & h' & -> & -> & ->)%wp_iff. }
  unfold hash_apply. do 2 wp_step. eapply wp_mono.
  - apply (wp_for_acc (fun i calls h' => h' = h /\ calls = concat (take (Z.to_nat i) (buckets h)))); [|done].
    intros i calls h' Hi [-> ->]. destruct (proj1 (aget_is_Some (buckets h) i)) as [l Hl]; [lia|].
    unfold get_bucket. do 3 wp_step. eapply wp_deref; [exact Hl|]. wp_step.
    split; [done|]. by rewrite <- buckets_take_step.
  - intros r h' [-> ->]. split; [|done]. rewrite take_ge; [done|]. unfold alen in Hlen. lia.
Qed.

Lemma clear_loop_ok h destructor :
  alen (buckets h) = bucket_cnt h ->
  wp (hash_clear destructor) (fun r h' =>
    h' = Hash 0 (bucket_cnt h) (replicate (Z.to_nat (bucket_cnt h)) []) /\
    r = if destructor then concat (buckets h) else []) h.
Proof.
  intros Hlen. pose proof (alen_nonneg (buckets h)). unfold hash_clear. do 3 wp_step.
  eapply wp_mono.
  - apply (wp_for_acc (fun i calls h' => bucket_cnt h' = bucket_cnt h /\
      buckets h' = replicate (Z.to_nat i) [] ++ drop (Z.to_nat i) (buckets h) /\
      calls = if destructor then concat (take (Z.to_nat i) (buckets h)) else [])).
    + intros i calls h' Hi (Hc & Hb & ->).
      destruct (proj1 (aget_is_Some (buckets h) i)) as [l Hl]; [lia|].
      assert ((buckets h').[i] = Some l) as Hl'.
      { rewrite Hb. apply aget_Some in Hl as [? Hl]. apply aget_Some. split; [lia|].
        rewrite lookup_app_r; rewrite length_replicate; [|lia].
        by rewrite Nat.sub_diag, lookup_drop, Nat.add_0_r. }
      unfold get_bucket. do 3 wp_step. eapply wp_deref; [exact Hl'|]. do 3 wp_step. simpl.
      split_and!; [done| |].
      * rewrite Hb. apply aget_Some in Hl as [? Hl]. unfold aset. destruct (Z.ltb_spec i 0); [lia|].
        rewrite insert_app_r_alt; rewrite length_replicate; [|lia]. rewrite Nat.sub_diag.
        rewrite (drop_S _ _ _ Hl). simpl. rewrite Z2Nat.inj_add, Nat.add_1_r by lia.
        rewrite replicate_S_end, <- app_assoc. done.
      * destruct destructor; [|done]. by rewrite <- buckets_take_step.
    + split_and!; [done..|by destruct destructor].
  - intros r h' (Hc & Hb & ->). do 2 wp_step. rewrite Z.add_0_l, Z2Nat.id in * by lia.
    rewrite Hb, Hc, drop_ge, app_nil_r, take_ge by (unfold alen in Hlen; lia). split; [|done]. done.
Qed.

Lemma hash_clear_ok h X destructor :
  is_hash h X ->
  wp (hash_clear destructor) (fun r h' => is_hash h' ∅ /\
    r ≡ₚ (if destructor then elements X else [])) h.
Proof.
  intros Hh. pose proof (ih_placed _ _ Hh) as Hp.
  eapply wp_mono; [apply clear_loop_ok, Hp|]. intros r h' [-> ->]. split.
  - split; simpl; [|done|done|set_solver].
    rewrite elements_empty. apply placed_empty, Hp.
  - destruct destructor; [apply Hp|done].
Qed.

Lemma hash_init_ok malloc h0 junk :
  length junk = 4%nat -> malloc 64 = true ->
  wp (hash_init malloc junk) (fun r h' => r = true /\ is_hash h' ∅) h0.
Proof.
  intros Hj Hm. unfold hash_init. do 2 wp_step. change (u32 (SIZEOF_LIST * 4)) with 64. rewrite Hm.
  wp_step. eapply wp_mono; [apply clear_loop_ok; unfold alen; simpl; by rewrite Hj|].
  intros r h' [-> _]. wp_step. split; [done|]. split; simpl;
    [|done|done|set_solver].
  rewrite elements_empty. apply (placed_empty 4). exists 2. done.
Qed.
End refinement.

(** ** Iteration *)
Lemma next_after_app pre e post :
  NoDup (pre ++ e :: post) -> next_after (pre ++ e :: post) e = head post.
Proof.
  induction pre as [|x pre IH]; simpl; intros Hnd.
  - by rewrite Z.eqb_refl.
  - apply NoDup_cons in Hnd as [Hx Hnd]. destruct (Z.eqb_spec x e) as [->|]; [set_solver|by apply IH].
Qed.

Section iteration.
Context (h : hash).
Hypothesis Hlen : alen (buckets h) = bucket_cnt h.
Hypothesis Hnd : NoDup (concat (buckets h)).

Definition later (b : Z) : list Z := concat (drop (Z.to_nat (b + 1)) (buckets h)).

(** The iterator is in the table and [rem] are the elements after it. *)
Definition at_pos (i : hash_iterator) (rem : list Z) : Prop :=
  exists l post, (buckets h).[it_bucket i] = Some l /\ rem = post ++ later (it_bucket i) /\
    match it_elem i with
    | AtHead => post = l
    | AtElem e => exists pre, l = pre ++ e :: post
    | AtNull => False
    end.

Lemma later_step b l : (buckets h).[b + 1] = Some l -> 0 <= b -> later b = l ++ later (b + 1).
Proof.
  intros [_ Hl]%aget_Some Hb. unfold later. rewrite (drop_S _ _ _ Hl). simpl. repeat f_equal. lia.
Qed.

Lemma later_end b : bucket_cnt h <= b + 1 -> later b = [].
Proof. intros Hb. unfold later. rewrite drop_ge; [done|]. unfold alen in Hlen. lia. Qed.

Lemma bucket_NoDup b l : (buckets h).[b] = Some l -> NoDup l.
Proof.
  intros [_ Hl]%aget_Some. rewrite <- (take_drop_middle _ _ _ Hl), concat_app in Hnd.
  simpl in Hnd. apply NoDup_app in Hnd as (_ & _ & Hnd1). by apply NoDup_app in Hnd1 as (? & _).
Qed.

(** The inner loop: skip the buckets that are exhausted. *)
Definition seek_step (be : Z * option Z) : M hash (Z * option Z + hash_iterator) :=
  let '(b, e) := be in
  match e with
  | Some x => mret (inr (HashIterator b (AtElem x)))
  | None =>
    if bucket_cnt h <=? b + 1 then mret (inr (HashIterator (b + 1) AtNull))
    else bucket ← get_bucket (b + 1); mret (inl (b + 1, head bucket))
  end.

Definition arrives (rem : list Z) (i : hash_iterator) (s : hash) : Prop :=
  s = h /\ match rem with [] => it_elem i = AtNull | e :: rem => it_elem i = AtElem e /\ at_pos i rem end.

Lemma seek_ok b l pre post :
  (buckets h).[b] = Some l -> l = pre ++ post ->
  wp (loop (S (length (buckets h))) seek_step (b, head post)) (arrives (post ++ later b)) h.
Proof.
  intros Hl Hpost. apply (wp_loop (fun n '(b', e) s => s = h /\
    n = Z.to_nat (bucket_cnt h - b') /\ exists l' pre' post', (buckets h).[b'] = Some l' /\
    l' = pre' ++ post' /\ e = head post' /\ post' ++ later b' = post ++ later b))
    with (n := Z.to_nat (bucket_cnt h - b)).
  - intros n [b' e] s (-> & -> & l' & pre' & post' & Hl' & Hpp & -> & Hrem).
    pose proof (aget_lt _ _ _ Hl') as Hb'. rewrite <- Hrem. clear Hrem. simpl.
    destruct post' as [|x post']; simpl.
    + destruct (Z.leb_spec (bucket_cnt h) (b' + 1)) as [Hend|Hmore].
      * wp_step. split; [done|]. by rewrite later_end.
      * destruct (proj1 (aget_is_Some (buckets h) (b' + 1))) as [l2 Hl2]; [lia|].
        unfold get_bucket. do 3 wp_step. eapply wp_deref; [exact Hl2|]. wp_step.
        exists (Z.to_nat (bucket_cnt h - (b' + 1))). split; [lia|]. split_and!; [done..|].
        exists l2, [], l2. split_and!; [done..|]. symmetry. apply later_step; [done|lia].
    + wp_step. split; [done|]. split; [done|]. exists l', post'. split_and!; [done..|]. by exists pre'.
  - split_and!; [done..|]. by exists l, pre, post.
  - pose proof (aget_lt _ _ _ Hl). unfold alen in *. lia.
Qed.

Lemma hash_next_ok i rem : at_pos i rem -> wp (hash_next i) (arrives rem) h.
Proof.
  intros (l & post & Hl & -> & Hcur). unfold hash_next, get_bucket. do 3 wp_step.
  eapply wp_deref; [exact Hl|]. wp_step. destruct (it_elem i) as [|e|]; [..|done].
  - subst post. do 3 wp_step. by apply (seek_ok _ l [] l).
  - destruct Hcur as [pre Hpre]. do 3 wp_step.
    rewrite Hpre, next_after_app by (rewrite <- Hpre; by eapply bucket_NoDup).
    apply (seek_ok _ l (pre ++ [e]) post); [done|]. by rewrite <- app_assoc.
Qed.

Lemma hash_iterate_ok fuel :
  0 < bucket_cnt h -> (length (concat (buckets h)) < fuel)%nat ->
  hash_iterate fuel h = Ok (concat (buckets h), h).
Proof.
  intros Hpos Hfuel. cut (wp (hash_iterate fuel) (fun r h' => r = concat (buckets h) /\ h' = h) h).
  { by intros (r & h' & -> & -> & ->)%wp_iff. }
  apply (wp_loop (fun n '(i, seen) s => s = h /\ exists rem, n = length rem /\ at_pos i rem /\
    concat (buckets h) = seen ++ rem)) with (n := length (concat (buckets h))); [| |done].
  - intros n [i seen] s (-> & rem & -> & Hat & Hcat). wp_step.
    eapply wp_mono; [by apply hash_next_ok|]. intros i' s' [-> Hrem]. wp_step. unfold hash_cur.
    destruct rem as [|e rem].
    + rewrite Hrem. by rewrite app_nil_r in Hcat.
    + destruct Hrem as [-> Hat']. exists (length rem). split; [simpl; lia|]. split; [done|].
      exists rem. split_and!; [done..|]. by rewrite <- app_assoc.
  - split; [done|]. exists (concat (buckets h)). split_and!; [done| |done].
    destruct (proj1 (aget_is_Some (buckets h) 0)) as [l Hl]; [lia|].
    exists l, l. split_and!; [done| |done]. unfold later. simpl.
    destruct (buckets h) as [|x bks]; [done|]. rewrite aget_Some in Hl. destruct Hl as [_ [= ->]].
    simpl. by rewrite drop_0.
Qed.
End iteration.

(** ** Sequences of operations

    Every operation carries the behaviour of [malloc] while it runs. *)
Inductive hash_op :=
  | OpInsert (malloc : Z -> bool) (new : Z)
  | OpReplace (malloc : Z -> bool) (new : Z)
  | OpFind (e : Z)
  | OpDelete (malloc : Z -> bool) (e : Z)
  | OpClear (destructor : bool)
  | OpApply
  | OpSize
  | OpEmpty.

Inductive hash_ret := RElem (r : option Z) | RCalls (l : list Z) | RSize (n : Z) | REmpty (b : bool).

(** The order in which elements are visited is arbitrary. *)
Inductive same_ret : hash_ret -> hash_ret -> Prop :=
  | same_calls l l' : l ≡ₚ l' -> same_ret (RCalls l) (RCalls l')
  | same_refl r : same_ret r r.

Section ops.
Context (hash_fn : Z -> Z) (less : Z -> Z -> bool) `{HK : HashKey hash_fn less}.

Definition run_hash_op (o : hash_op) : M hash hash_ret :=
  match o with
  | OpInsert malloc new => RElem <$> hash_insert hash_fn less malloc new
  | OpReplace malloc new => RElem <$> hash_replace hash_fn less malloc new
  | OpFind e => RElem <$> hash_find hash_fn less e
  | OpDelete malloc e => RElem <$> hash_delete hash_fn less malloc e
  | OpClear d => RCalls <$> hash_clear d
  | OpApply => RCalls <$> hash_apply
  | OpSize => RSize <$> hash_size
  | OpEmpty => REmpty <$> hash_empty
  end.

Definition spec_hash_op (o : hash_op) (X : gset Z) : hash_ret * gset Z :=
  match o with
  | OpInsert _ new => (RElem (member less X new), spec_insert less X new)
  | OpReplace _ new => (RElem (member less X new), spec_replace less X new)
  | OpFind e => (RElem (member less X e), X)
  | OpDelete _ e => (RElem (member less X e), spec_delete less X e)
  | OpClear d => (RCalls (if d then elements X else []), ∅)
  | OpApply => (RCalls (elements X), X)
  | OpSize => (RSize (Z.of_nat (size X)), X)
  | OpEmpty => (REmpty (bool_decide (X = ∅)), X)
  end.

Fixpoint run_hash_ops (os : list hash_op) : M hash (list hash_ret) :=
  match os with
  | [] => mret []
  | o :: os => r ← run_hash_op o; rs ← run_hash_ops os; mret (r :: rs)
  end.

Fixpoint spec_hash_ops (os : list hash_op) (X : gset Z) : list hash_ret * gset Z :=
  match os with
  | [] => ([], X)
  | o :: os =>
    let '(r, X1) := spec_hash_op o X in
    let '(rs, X2) := spec_hash_ops os X1 in (r :: rs, X2)
  end.

Lemma run_hash_op_ok o h X :
  is_hash hash_fn less h X -> room X ->
  wp (run_hash_op o) (fun r h' => same_ret r (spec_hash_op o X).1 /\
    is_hash hash_fn less h' (spec_hash_op o X).2) h.
Proof.
  intros Hh Hroom. pose proof (ih_cnt _ _ _ _ Hh) as Hcnt. destruct o; simpl; apply wp_fmap.
  - eapply wp_mono; [by apply hash_insert_ok|]. intros r h' [-> ?]. split; [constructor|done].
  - eapply wp_mono; [by apply hash_replace_ok|]. intros r h' [-> ?]. split; [constructor|done].
  - eapply wp_eq; [by apply hash_find_ok|]. split; [constructor|done].
  - eapply wp_mono; [by apply hash_delete_ok|]. intros r h' [-> ?]. split; [constructor|done].
  - eapply wp_mono; [by apply hash_clear_ok|]. intros r h' [? ?]. split; [by constructor|done].
  - eapply wp_eq; [exact (hash_apply_ok _ _ _ _ Hh)|]. split; [|done]. constructor. apply Hh.
  - unfold hash_size. wp_step. rewrite Hcnt. split; [constructor|done].
  - unfold hash_empty. do 3 wp_step. rewrite Hcnt. split; [|done].
    replace (Z.of_nat (size X) =? 0) with (bool_decide (X = ∅)); [constructor|].
    case_bool_decide as HX; [subst; by rewrite size_empty|].
    symmetry. apply Z.eqb_neq. intros H0. apply HX, leibniz_equiv, size_empty_inv. lia.
Qed.

Lemma spec_hash_op_size o X : (size (spec_hash_op o X).2 <= size X + 1)%nat.
Proof.
  assert (forall Y : gset Z, Y ⊆ X -> size Y <= size X + 1)%nat as Hsub.
  { intros Y HY. pose proof (subseteq_size _ _ HY). lia. }
  assert (forall e (Y : gset Z), Y ⊆ X -> size ({[e]} ∪ Y) <= size X + 1)%nat as Hadd.
  { intros e Y HY. rewrite size_union_alt, size_singleton. pose proof (subseteq_size (Y ∖ {[e]}) X ltac:(set_solver)). lia. }
  destruct o; simpl; unfold spec_replace, spec_insert, spec_delete; auto;
    try (destruct (member less X _); auto; apply Hsub; set_solver).
  - apply Hadd. destruct (member less X new); set_solver.
  - apply (Hsub ∅), empty_subseteq.
Qed.
End ops.

(** C6 A hash table behaves as a set with at most one element of each
    equivalence class.  For a sequence of insertions, replacements, searches,
    deletions, clearings and traversals, with any allocation in [rehash]
    failing or not, every operation returns without a fault what the
    operation on the set returns (a traversal visits the elements of the set
    once each, in some order), and the final table holds the final set. *)
Theorem hash_ops_refine hash_fn less `{HK : HashKey hash_fn less} os h X :
  is_hash hash_fn less h X -> Z.of_nat (size X) + Z.of_nat (length os) < 2 ^ 32 ->
  wp (run_hash_ops hash_fn less os) (fun rs h' =>
    Forall2 same_ret rs (spec_hash_ops less os X).1 /\
    is_hash hash_fn less h' (spec_hash_ops less os X).2) h.
Proof.
  revert h X. induction os as [|o os IH]; intros h X Hh Hroom; simpl; [by wp_step|].
  cbn [length] in Hroom. pose proof (spec_hash_op_size hash_fn less o X) as Hsz.
  wp_step. eapply wp_mono; [apply run_hash_op_ok; [done..|unfold room; lia]|].
  intros r h1 [Hr Hh1]. destruct (spec_hash_op less o X) as [r1 X1]. simpl in *.
  wp_step. eapply wp_mono; [apply IH; [done|lia]|].
  intros rs h2 [Hrs Hh2]. destruct (spec_hash_ops less os X1) as [rs2 X2]. wp_step.
  split; [by constructor|done].
Qed.

(** Elements with their key in the low four bits. *)
Definition demo_hash (e : Z) : Z := (e mod 16) * 2654435761 mod 2 ^ 32.
Definition demo_less (a b : Z) : bool := a mod 16 <? b mod 16.

#[export] Instance demo_key : HashKey demo_hash demo_less.
Proof.
  assert (forall a b, eqv demo_less a b = true <-> a mod 16 = b mod 16) as Heq.
  { intros a b. unfold eqv, demo_less. rewrite andb_true_iff, !negb_true_iff, !Z.ltb_ge. lia. }
  split.
  - intros e. by apply Z.mod_pos_bound.
  - intros a. by apply Heq.
  - intros a b c Hab%Heq Hbc%Heq. apply Heq. congruence.
  - intros a b Hab%Heq. unfold demo_hash. by rewrite Hab.
Qed.

Definition demo_hash_ops : list hash_op :=
  let ok := fun _ => true in
  [OpInsert ok 16; OpInsert ok 33; OpInsert ok 17; OpReplace ok 17; OpFind 49; OpDelete ok 32;
   OpFind 0; OpSize; OpEmpty].

Lemma hash_ops_refine_witness : exists h,
  is_hash demo_hash demo_less h ∅ /\
  wp (run_hash_ops demo_hash demo_less demo_hash_ops) (fun rs _ => Forall2 same_ret rs
    [RElem None; RElem None; RElem (Some 33); RElem (Some 33); RElem (Some 17); RElem (Some 16);
     RElem None; RSize 1; REmpty false]) h.
Proof.
  assert (is_hash demo_hash demo_less (Hash 0 4 [[]; []; []; []]) ∅) as Hh.
  { split; simpl; [|done|done|set_solver]. rewrite elements_empty.
    apply (placed_empty demo_hash demo_less 4). exists 2. done. }
  exists (Hash 0 4 [[]; []; []; []]). split; [exact Hh|].
  eapply wp_mono.
  - apply (hash_ops_refine demo_hash demo_less demo_hash_ops _ _ Hh). vm_compute. reflexivity.
  - intros rs h' [Hrs _]. vm_compute in Hrs |- *. exact Hrs.
Defined.

(** C31 The iteration idiom of hash.c ([hash_first], then [hash_next] until it
    returns a null pointer) ends, does not change the table, and sees every
    element of the table exactly once. *)
Theorem hash_iterate_visits_once hash_fn less h X fuel :
  is_hash hash_fn less h X -> (size X < fuel)%nat ->
  exists seen, hash_iterate fuel h = Ok (seen, h) /\ NoDup seen /\ forall e, e ∈ seen <-> e ∈ X.
Proof.
  intros Hh Hfuel. pose proof (ih_placed _ _ _ _ Hh) as Hp.
  pose proof (pl_perm _ _ _ _ Hp) as Hperm. exists (concat (buckets h)). split.
  - apply hash_iterate_ok; [apply Hp|rewrite Hperm; apply NoDup_elements| |].
    + destruct (pl_pow _ _ _ _ Hp) as (k & Hk & ->). lia.
    + rewrite Hperm. done.
  - split; [rewrite Hperm; apply NoDup_elements|]. intros e. rewrite Hperm. apply elem_of_elements.
Qed.

Lemma hash_iterate_visits_once_witness :
  is_hash demo_hash demo_less (Hash 0 4 [[]; []; []; []]) ∅ /\
  exists seen, hash_iterate 1 (Hash 0 4 [[]; []; []; []]) = Ok (seen, Hash 0 4 [[]; []; []; []]) /\
    seen = [].
Proof.
  assert (is_hash demo_hash demo_less (Hash 0 4 [[]; []; []; []]) ∅) as Hh.
  { split; simpl; [|done|done|set_solver]. rewrite elements_empty.
    apply (placed_empty demo_hash demo_less 4). exists 2. done. }
  split; [exact Hh|].
  destruct (hash_iterate_visits_once demo_hash demo_less _ _ 1 Hh) as (seen & Hrun & _ & Hin);
    [vm_compute; lia|].
  exists seen. split; [exact Hrun|]. vm_compute in Hrun. congruence.
Defined.
