(* ===== verification/Arith64.v ===== *)
(** * 64-bit division (src/lib/arithmetic.c)

    The routines GCC calls for 64-bit quotients and remainders on the i386.
    [divl] is the DIVL instruction, with its divide error; everything else is
    the C code with the width of each intermediate written out.  The theorems
    show that the quotients are exact and that no divide error occurs for a
    nonzero divisor, and what the narrow return types of [umod64] and [smod64]
    do to remainders that need more than 32 bits. *)

From S2P Require Import Prelude.

Definition divl (n d : Z) : result Z :=
  let n1 := u32 (Z.shiftr n 32) in
  let n0 := u32 n in
  let dividend := Z.shiftl n1 32 + n0 in
  if d =? 0 then Err DivideError
  else if 2 ^ 32 <=? dividend / d then Err DivideError
  else Ok (dividend / d).

(** One test of [nlz]: [if (x <= bound) { n += k; x <<= k; }]. *)
Definition nlz_step (bound k : Z) (nx : Z * Z) : Z * Z :=
  let '(n, x) := nx in
  if x <=? bound then (n + k, u32 (Z.shiftl x k)) else (n, x).

Definition nlz (x : Z) : Z :=
  let nx := (0, x) in
  let nx := nlz_step 0x0000FFFF 16 nx in
  let nx := nlz_step 0x00FFFFFF 8 nx in
  let nx := nlz_step 0x0FFFFFFF 4 nx in
  let nx := nlz_step 0x3FFFFFFF 2 nx in
  let '(n, x) := nx in
  if x <=? 0x7FFFFFFF then n + 1 else n.

(** [n / d] and [n % d] on [uint32_t] compile to DIVL as well. *)
Definition div32 (n d : Z) : result Z := if d =? 0 then Err DivideError else Ok (n / d).
Definition mod32 (n d : Z) : result Z := if d =? 0 then Err DivideError else Ok (n mod d).

Definition udiv64 (n d : Z) : result Z :=
  if Z.shiftr d 32 =? 0 then
    let b := 2 ^ 32 in
    let n1 := u32 (Z.shiftr n 32) in
    let n0 := u32 n in
    let d0 := u32 d in
    r1 ← mod32 n1 d0;
    q1 ← div32 n1 d0;
    q0 ← divl (u64 (u64 (b * r1) + n0)) d0;
    Ok (u64 (q0 + u64 (b * q1)))
  else if n <? d then Ok 0
  else
    let d1 := u32 (Z.shiftr d 32) in
    let s := nlz d1 in
    q1 ← divl (Z.shiftr n 1) (u32 (Z.shiftr (u64 (Z.shiftl d s)) 32));
    let q := Z.shiftr q1 (31 - s) in
    Ok (if u64 (n - u64 (u64 (q - 1) * d)) <? d then u64 (q - 1) else q).

(** The return type is [uint32_t]. *)
Definition umod64 (n d : Z) : result Z :=
  q ← udiv64 n d;
  Ok (u32 (u64 (n - u64 (d * q)))).

Definition abs64 (n : Z) : Z := if 0 <=? n then u64 n else u64 (- u64 n).

Definition sdiv64 (n d : Z) : result Z :=
  let n_abs := abs64 n in
  let d_abs := abs64 d in
  q_abs ← udiv64 n_abs d_abs;
  Ok (if Bool.eqb (n <? 0) (d <? 0) then s64 q_abs else s64 (- s64 q_abs)).

(** The return type is [int32_t]. *)
Definition smod64 (n d : Z) : result Z :=
  q ← sdiv64 n d;
  Ok (s32 (s64 (n - s64 (d * q)))).

Definition divdi3 (n d : Z) : result Z := sdiv64 n d.
Definition moddi3 (n d : Z) : result Z := smod64 n d.
Definition udivdi3 (n d : Z) : result Z := udiv64 n d.
Definition umoddi3 (n d : Z) : result Z := umod64 n d.

(** ** Leading zeros *)
Lemma nlz_step_spec y b k n x :
  b = 2 ^ (32 - k) - 1 -> x = y * 2 ^ n ->
  0 <= k <= 16 -> 0 <= n -> 2 ^ (32 - 2 * k) <= y * 2 ^ n < 2 ^ 32 ->
  exists n', nlz_step b k (n, x) = (n', y * 2 ^ n') /\
    n <= n' <= n + k /\ 2 ^ (32 - k) <= y * 2 ^ n' < 2 ^ 32.
Proof.
  intros -> -> Hk Hn Hx. unfold nlz_step. destruct (Z.leb_spec (y * 2 ^ n) (2 ^ (32 - k) - 1)).
  - assert (2 ^ (32 - k) * 2 ^ k = 2 ^ 32) as E1 by (rewrite <- Z.pow_add_r by lia; f_equal; lia).
    assert (2 ^ (32 - 2 * k) * 2 ^ k = 2 ^ (32 - k)) as E2
      by (rewrite <- Z.pow_add_r by lia; f_equal; lia).
    exists (n + k). rewrite Z.pow_add_r, Z.mul_assoc by lia.
    rewrite Z.shiftl_mul_pow2, wrap_small by nia. split_and!; [done|lia|lia|nia|nia].
  - exists n. split_and!; [done|lia..].
Qed.

Lemma nlz_spec x :
  0 < x < 2 ^ 32 -> 0 <= nlz x <= 31 /\ 2 ^ 31 <= x * 2 ^ nlz x < 2 ^ 32.
Proof.
  intros Hx. unfold nlz.
  destruct (nlz_step_spec x 0x0000FFFF 16 0 x) as (n1 & -> & Hn1 & Hx1); [lia..|].
  destruct (nlz_step_spec x 0x00FFFFFF 8 n1 (x * 2 ^ n1)) as (n2 & -> & Hn2 & Hx2); [lia..|].
  destruct (nlz_step_spec x 0x0FFFFFFF 4 n2 (x * 2 ^ n2)) as (n3 & -> & Hn3 & Hx3); [lia..|].
  destruct (nlz_step_spec x 0x3FFFFFFF 2 n3 (x * 2 ^ n3)) as (n4 & -> & Hn4 & Hx4); [lia..|].
  destruct (Z.leb_spec (x * 2 ^ n4) 0x7FFFFFFF); [|lia].
  assert (n4 <> 31) by (intros ->; lia). rewrite Z.pow_add_r by lia. lia.
Qed.

(** ** DIVL *)
Lemma divl_ok n d : 0 <= n < 2 ^ 64 -> 0 < d -> n < 2 ^ 32 * d -> divl n d = Ok (n / d).
Proof.
  intros Hn Hd Hq. unfold divl.
  assert (Z.shiftl (u32 (Z.shiftr n 32)) 32 + u32 n = n) as ->.
  { rewrite Z.shiftr_div_pow2, Z.shiftl_mul_pow2 by lia. rewrite (wrap_small 32 (n / 2 ^ 32)).
    - unfold wrap. pose proof (Z.div_mod n (2 ^ 32)). lia.
    - split; [apply Z.div_pos; lia|apply Z.div_lt_upper_bound; lia]. }
  rewrite (proj2 (Z.eqb_neq d 0)) by lia.
  rewrite (proj2 (Z.leb_gt _ _)); [done|]. apply Z.div_lt_upper_bound; lia.
Qed.

(** ** The short divisor: the calculation in the comment of [udiv64] *)
Lemma udiv64_short n d :
  0 <= n < 2 ^ 64 -> 0 < d < 2 ^ 32 -> udiv64 n d = Ok (n / d).
Proof.
  intros Hn Hd. unfold udiv64. rewrite Z.shiftr_div_pow2, Z.div_small by lia. simpl Z.eqb. cbv iota zeta.
  rewrite Z.shiftr_div_pow2 by lia.
  assert (0 <= n / 2 ^ 32 < 2 ^ 32) as Hn1.
  { split; [apply Z.div_pos; lia|apply Z.div_lt_upper_bound; lia]. }
  rewrite (wrap_small 32 (n / 2 ^ 32)), (wrap_small 32 d) by lia. set (n1 := n / 2 ^ 32) in *.
  pose proof (wrap_range 32 n ltac:(lia)) as Hn0.
  assert (n = 2 ^ 32 * n1 + u32 n) as En by (unfold wrap, n1; apply Z.div_mod; lia).
  set (n0 := u32 n) in *. clearbody n0 n1.
  unfold mod32, div32. rewrite (proj2 (Z.eqb_neq d 0)) by lia. unfold mbind, result_bind.
  pose proof (Z.mod_pos_bound n1 d ltac:(lia)) as Hr.
  assert (0 <= n1 / d <= n1) as Hq.
  { split; [apply Z.div_pos; lia|apply Z.div_le_upper_bound; nia]. }
  pose proof (Z.div_mod n1 d ltac:(lia)) as Edm.
  rewrite (wrap_small 64 (2 ^ 32 * (n1 mod d))), (wrap_small 64 (2 ^ 32 * (n1 / d))) by lia.
  rewrite wrap_small by lia. rewrite divl_ok by lia.
  assert (n / d = (2 ^ 32 * (n1 mod d) + n0) / d + 2 ^ 32 * (n1 / d)) as ->.
  { rewrite En, Edm at 1. rewrite <- Z.div_add by lia. f_equal. ring. }
  assert (0 <= (2 ^ 32 * (n1 mod d) + n0) / d < 2 ^ 32).
  { split; [apply Z.div_pos; lia|apply Z.div_lt_upper_bound; nia]. }
  rewrite wrap_small; [done|]. lia.
Qed.

(** ** The long divisor

    [v * 2^(32-s)] is the divisor with its low bits cleared. *)
Lemma normalized_divisor d s :
  0 <= s <= 31 -> 2 ^ 63 <= d * 2 ^ s < 2 ^ 64 ->
  let v := d * 2 ^ s / 2 ^ 32 in
  2 ^ 31 <= v < 2 ^ 32 /\ v * 2 ^ (32 - s) <= d < v * 2 ^ (32 - s) + 2 ^ (32 - s).
Proof.
  intros Hs Hd v. pose proof (Z.div_mod (d * 2 ^ s) (2 ^ 32) ltac:(lia)) as E. fold v in E.
  pose proof (Z.mod_pos_bound (d * 2 ^ s) (2 ^ 32) ltac:(lia)) as Hm.
  assert (2 ^ (32 - s) * 2 ^ s = 2 ^ 32) as Ep by (rewrite <- Z.pow_add_r by lia; f_equal; lia).
  pose proof (Z.pow_pos_nonneg 2 s). split; [lia|]. split.
  - apply Z.mul_le_mono_pos_r with (2 ^ s); nia.
  - apply Z.mul_lt_mono_pos_r with (2 ^ s); nia.
Qed.

(** The estimate is the quotient or one more. *)
Lemma estimate_quotient n d s :
  0 <= n < 2 ^ 64 -> 0 <= s <= 31 -> 2 ^ 63 <= d * 2 ^ s < 2 ^ 64 ->
  let q := n / 2 / (d * 2 ^ s / 2 ^ 32) / 2 ^ (31 - s) in
  n / d <= q <= n / d + 1.
Proof.
  intros Hn Hs Hd q. destruct (normalized_divisor d s Hs Hd) as [Hv HD].
  set (v := d * 2 ^ s / 2 ^ 32) in *. clearbody v.
  assert (2 ^ (32 - s) = 2 * 2 ^ (31 - s)) as Ep
    by (rewrite <- Z.pow_succ_r by lia; f_equal; lia).
  assert (2 ^ (63 - s) = 2 ^ 31 * 2 ^ (32 - s)) as Ep2 by (rewrite <- Z.pow_add_r by lia; f_equal; lia).
  assert (2 ^ (s + 1) * 2 ^ (32 - s) = 2 ^ 33) as Ep3 by (rewrite <- Z.pow_add_r by lia; f_equal; lia).
  assert (2 ^ (s + 1) * 2 ^ (63 - s) = 2 ^ 64) as Ep4 by (rewrite <- Z.pow_add_r by lia; f_equal; lia).
  pose proof (Z.pow_pos_nonneg 2 (31 - s)). set (D := v * 2 ^ (32 - s)) in *.
  assert (q = n / D) as ->.
  { unfold q. rewrite !Z.div_div by lia. f_equal. unfold D. rewrite Ep. ring. }
  assert (2 ^ (63 - s) <= D) as HDlo by nia.
  pose proof (Z.div_mod n d ltac:(lia)) as En. pose proof (Z.mod_pos_bound n d ltac:(lia)) as Hm.
  split; [apply Z.div_le_compat_l; lia|]. apply Z.lt_succ_r, Z.div_lt_upper_bound; [lia|].
  assert (0 <= n / d < 2 ^ (s + 1)) as HQ.
  { split; [apply Z.div_pos; lia|apply Z.div_lt_upper_bound; nia]. }
  assert ((n / d + 1) * (d - D) <= D) as He.
  { transitivity (2 ^ (s + 1) * (2 ^ (32 - s) - 1)); [nia|]. rewrite Z.mul_sub_distr_l, Ep3.
    destruct (decide (s = 31)) as [->|]; [lia|].
    assert (2 ^ 33 <= 2 ^ (63 - s)) by (apply Z.pow_le_mono_r; lia). lia. }
  nia.
Qed.

(** Shifting out the leading zeros of the high half keeps the divisor in 64 bits. *)
Lemma shifted_divisor d s :
  0 <= s <= 31 -> 2 ^ 31 <= d / 2 ^ 32 * 2 ^ s < 2 ^ 32 -> 2 ^ 63 <= d * 2 ^ s < 2 ^ 64.
Proof.
  intros Hs Hd1. pose proof (Z.div_mod d (2 ^ 32) ltac:(lia)) as E.
  pose proof (Z.mod_pos_bound d (2 ^ 32) ltac:(lia)) as Hm. pose proof (Z.pow_pos_nonneg 2 s) as Hp.
  assert (2 ^ (32 - s) * 2 ^ s = 2 ^ 32) as Ep by (rewrite <- Z.pow_add_r by lia; f_equal; lia).
  assert (d / 2 ^ 32 + 1 <= 2 ^ (32 - s)) as Hle.
  { apply Z.le_succ_l, (Z.mul_lt_mono_pos_r (2 ^ s)); lia. }
  set (d1 := d / 2 ^ 32) in *. set (r := d mod 2 ^ 32) in *. clearbody d1 r. subst d. nia.
Qed.

Lemma udiv64_long n d :
  0 <= n < 2 ^ 64 -> 2 ^ 32 <= d < 2 ^ 64 -> udiv64 n d = Ok (n / d).
Proof.
  intros Hn Hd. unfold udiv64. rewrite !Z.shiftr_div_pow2 by lia.
  assert (0 < d / 2 ^ 32 < 2 ^ 32) as Hd1.
  { split; [apply Z.div_str_pos; lia|apply Z.div_lt_upper_bound; lia]. }
  rewrite (proj2 (Z.eqb_neq (d / 2 ^ 32) 0)) by lia.
  destruct (Z.ltb_spec n d); [by rewrite Z.div_small by lia|]. cbv zeta.
  rewrite (wrap_small 32 (d / 2 ^ 32)) by lia.
  destruct (nlz_spec (d / 2 ^ 32) Hd1) as [Hs Hnorm]. set (s := nlz (d / 2 ^ 32)) in *. clearbody s.
  pose proof (Z.div_mod d (2 ^ 32) ltac:(lia)) as Edm.
  pose proof (Z.mod_pos_bound d (2 ^ 32) ltac:(lia)) as Hdm.
  assert (2 ^ 63 <= d * 2 ^ s < 2 ^ 64) as Hds by (by apply shifted_divisor).
  rewrite Z.shiftl_mul_pow2, (wrap_small 64 (d * 2 ^ s)) by lia.
  pose proof (estimate_quotient n d s Hn Hs Hds) as Hq. cbv zeta in Hq.
  destruct (normalized_divisor d s Hs Hds) as [Hv _].
  rewrite (wrap_small 32 (d * 2 ^ s / 2 ^ 32)) by lia.
  pose proof (Z.div_mod n 2 ltac:(lia)). pose proof (Z.mod_pos_bound n 2 ltac:(lia)).
  change (2 ^ 1) with 2. rewrite divl_ok by lia. unfold mbind, result_bind.
  rewrite Z.shiftr_div_pow2 by lia.
  set (q := n / 2 / (d * 2 ^ s / 2 ^ 32) / 2 ^ (31 - s)) in *. clearbody q.
  pose proof (Z.div_mod n d ltac:(lia)) as En. pose proof (Z.mod_pos_bound n d ltac:(lia)) as Hm.
  assert (1 <= n / d < 2 ^ 32) as HQ.
  { split; [apply Z.div_le_lower_bound; lia|apply Z.div_lt_upper_bound; lia]. }
  rewrite (wrap_small 64 (q - 1)) by lia. rewrite (wrap_small 64 ((q - 1) * d)) by nia.
  rewrite (wrap_small 64 (n - _)) by nia.
  destruct (Z.ltb_spec (n - (q - 1) * d) d); f_equal; nia.
Qed.

Lemma udiv64_ok n d : 0 <= n < 2 ^ 64 -> 0 < d < 2 ^ 64 -> udiv64 n d = Ok (n / d).
Proof.
  intros Hn Hd. destruct (decide (d < 2 ^ 32)); [apply udiv64_short|apply udiv64_long]; lia.
Qed.

Lemma umod64_ok n d : 0 <= n < 2 ^ 64 -> 0 < d < 2 ^ 64 -> umod64 n d = Ok (u32 (n mod d)).
Proof.
  intros Hn Hd. unfold umod64. rewrite udiv64_ok by done. unfold mbind, result_bind.
  pose proof (Z.div_mod n d ltac:(lia)). pose proof (Z.mod_pos_bound n d ltac:(lia)).
  assert (0 <= n / d) by (apply Z.div_pos; lia).
  rewrite (wrap_small 64 (d * (n / d))), (wrap_small 64 (n - _)) by nia.
  do 2 f_equal. lia.
Qed.

(** ** Signed division *)
Lemma abs64_ok n : - 2 ^ 63 <= n < 2 ^ 63 -> abs64 n = Z.abs n.
Proof.
  intros Hn. unfold abs64. destruct (Z.leb_spec 0 n).
  - rewrite wrap_small; lia.
  - assert (u64 n = n + 2 ^ 64) as ->.
    { unfold wrap. symmetry. apply Z.mod_unique_pos with (-1); lia. }
    unfold wrap. symmetry. apply Z.mod_unique_pos with (-1); lia.
Qed.

Lemma swrap_neg_swrap w z : 0 < w -> swrap w (- swrap w z) = swrap w (- z).
Proof.
  intros Hw. unfold swrap. f_equal.
  assert (2 ^ w = 2 * 2 ^ (w - 1)) as Hp by (rewrite <- Z.pow_succ_r by lia; f_equal; lia).
  pose proof (Z.div_mod (z + 2 ^ (w - 1)) (2 ^ w) ltac:(lia)) as E.
  set (k := (z + 2 ^ (w - 1)) / 2 ^ w) in *. set (r := (z + 2 ^ (w - 1)) mod 2 ^ w) in *.
  replace (- (r - 2 ^ (w - 1)) + 2 ^ (w - 1)) with (- z + 2 ^ (w - 1) + k * 2 ^ w) by lia.
  apply Z.mod_add. lia.
Qed.

Lemma sdiv64_ok n d :
  - 2 ^ 63 <= n < 2 ^ 63 -> - 2 ^ 63 <= d < 2 ^ 63 -> d <> 0 -> sdiv64 n d = Ok (s64 (Z.quot n d)).
Proof.
  intros Hn Hd Hd0. unfold sdiv64. rewrite !abs64_ok, udiv64_ok by lia.
  unfold mbind, result_bind. f_equal. rewrite <- Z.quot_div_nonneg, Z.quot_abs by lia.
  assert (Z.abs (Z.quot n d) = if Bool.eqb (n <? 0) (d <? 0) then Z.quot n d else - Z.quot n d) as ->.
  { destruct (Z.ltb_spec n 0), (Z.ltb_spec d 0); simpl.
    - rewrite <- Z.quot_opp_opp by lia. apply Z.abs_eq, Z.quot_pos; lia.
    - apply Z.abs_neq. rewrite <- (Z.opp_involutive n), Z.quot_opp_l by lia.
      pose proof (Z.quot_pos (- n) d). lia.
    - apply Z.abs_neq. rewrite <- (Z.opp_involutive d), Z.quot_opp_r by lia.
      pose proof (Z.quot_pos n (- d)). lia.
    - apply Z.abs_eq, Z.quot_pos; lia. }
  destruct (Bool.eqb _ _); [done|]. rewrite swrap_neg_swrap by lia. f_equal. lia.
Qed.

Lemma swrap_shift w z k : 0 < w -> swrap w (z + k * 2 ^ w) = swrap w z.
Proof.
  intros Hw. unfold swrap. f_equal.
  replace (z + k * 2 ^ w + 2 ^ (w - 1)) with (z + 2 ^ (w - 1) + k * 2 ^ w) by ring.
  apply Z.mod_add. lia.
Qed.

Lemma swrap_form w z : 0 < w -> exists k, swrap w z = z + k * 2 ^ w.
Proof.
  intros Hw. exists (- ((z + 2 ^ (w - 1)) / 2 ^ w)). unfold swrap.
  pose proof (Z.div_mod (z + 2 ^ (w - 1)) (2 ^ w) ltac:(lia)). lia.
Qed.

Lemma smod64_ok n d :
  - 2 ^ 63 <= n < 2 ^ 63 -> - 2 ^ 63 <= d < 2 ^ 63 -> d <> 0 -> smod64 n d = Ok (s32 (Z.rem n d)).
Proof.
  intros Hn Hd Hd0. unfold smod64. rewrite sdiv64_ok by done. unfold mbind, result_bind. do 2 f_equal.
  destruct (swrap_form 64 (Z.quot n d)) as [k1 ->]; [lia|].
  destruct (swrap_form 64 (d * (Z.quot n d + k1 * 2 ^ 64))) as [k2 ->]; [lia|].
  pose proof (Z.quot_rem n d Hd0) as Eqr.
  replace (n - (d * (Z.quot n d + k1 * 2 ^ 64) + k2 * 2 ^ 64))
    with (Z.rem n d + (- (d * k1) - k2) * 2 ^ 64) by lia.
  rewrite swrap_shift by lia. apply swrap_small; [lia|].
  pose proof (Z.rem_bound_abs n d Hd0). lia.
Qed.

(** C21 [__udivdi3] returns the exact quotient of two unsigned 64-bit numbers
    for every nonzero divisor, and no DIVL on the way raises a divide error;
    with a zero divisor it raises one. *)
Theorem udivdi3_exact n d :
  0 <= n < 2 ^ 64 -> 0 <= d < 2 ^ 64 ->
  udivdi3 n d = if d =? 0 then Err DivideError else Ok (n / d).
Proof.
  intros Hn Hd. unfold udivdi3. destruct (Z.eqb_spec d 0) as [->|]; [done|].
  apply udiv64_ok; lia.
Qed.

Lemma udivdi3_exact_witness :
  udivdi3 (2 ^ 64 - 1) (2 ^ 32 + 1) = Ok (2 ^ 32 - 1) /\ udivdi3 5 0 = Err DivideError.
Proof.
  split.
  - rewrite udivdi3_exact by lia. reflexivity.
  - rewrite udivdi3_exact by lia. reflexivity.
Defined.

(** 2 [__divdi3] returns the quotient of two signed 64-bit numbers truncated
    toward zero, without a divide error, for every nonzero divisor; the one
    quotient that is not representable, of -2^63 by -1, comes out as -2^63. *)
Theorem divdi3_truncates n d :
  - 2 ^ 63 <= n < 2 ^ 63 -> - 2 ^ 63 <= d < 2 ^ 63 -> d <> 0 ->
  divdi3 n d = Ok (if bool_decide (n = - 2 ^ 63 /\ d = -1) then - 2 ^ 63 else Z.quot n d).
Proof.
  intros Hn Hd Hd0. unfold divdi3. rewrite sdiv64_ok by done. f_equal.
  case_bool_decide as Hc; [by destruct Hc as [-> ->]|]. apply swrap_small; [lia|].
  assert (Z.abs (Z.quot n d) = Z.abs n / Z.abs d) as Ea
    by (rewrite <- Z.quot_abs, Z.quot_div_nonneg by lia; done).
  assert (Z.abs n / Z.abs d <= Z.abs n) by (apply Z.div_le_upper_bound; nia).
  assert (Z.quot n d <> 2 ^ 63); [|lia]. intros E.
  assert (n = - 2 ^ 63) as -> by lia. apply Hc. split; [done|].
  pose proof (Z.quot_rem (- 2 ^ 63) d Hd0) as Eqr. pose proof (Z.rem_bound_abs (- 2 ^ 63) d Hd0).
  rewrite E in *. assert (Z.abs d <= 1); [|lia].
  assert (2 ^ 63 <= 2 ^ 63 / Z.abs d) as Hq by lia.
  apply (Z.mul_le_mono_nonneg_l _ _ (Z.abs d)) in Hq; [|lia].
  pose proof (Z.mul_div_le (2 ^ 63) (Z.abs d)). lia.
Qed.

Lemma divdi3_truncates_witness :
  divdi3 (-7) 2 = Ok (-3) /\ divdi3 (- 2 ^ 63) (-1) = Ok (- 2 ^ 63).
Proof.
  split.
  - rewrite divdi3_truncates by lia. reflexivity.
  - rewrite divdi3_truncates by lia. reflexivity.
Defined.

(** C36 [__umoddi3] returns the remainder only when it fits in 32 bits: the
    [uint32_t] return type of [umod64] drops the high half of any other. *)
Theorem umoddi3_exact_iff n d :
  0 <= n < 2 ^ 64 -> 0 < d < 2 ^ 64 ->
  umoddi3 n d = Ok (n mod d) <-> n mod d < 2 ^ 32.
Proof.
  intros Hn Hd. unfold umoddi3. rewrite umod64_ok by done.
  pose proof (Z.mod_pos_bound n d ltac:(lia)). split.
  - intros [= E]. rewrite <- E. apply wrap_range. lia.
  - intros Hlt. rewrite wrap_small; [done|lia].
Qed.

Lemma umoddi3_exact_iff_witness :
  umoddi3 (2 ^ 32 + 5) (2 ^ 33) <> Ok ((2 ^ 32 + 5) mod 2 ^ 33) /\
  umoddi3 (2 ^ 40 + 5) 1000 = Ok ((2 ^ 40 + 5) mod 1000).
Proof.
  split.
  - rewrite umoddi3_exact_iff by lia. vm_compute. congruence.
  - apply umoddi3_exact_iff; [lia|lia|]. vm_compute. reflexivity.
Defined.
