(* ===== verification/Vaddr.v ===== *)
(** * Virtual addresses and page table entries
      (src/threads/vaddr.h, src/threads/pte.h)

    Addresses and entries are 32-bit numbers.  The inline functions are
    translated with the masks and shifts of the headers; the lemmas express
    them with division and remainder by the page size and show the round trips
    between addresses, physical addresses and entries. *)

From S2P Require Import Prelude.

Definition BITMASK (shift cnt : Z) : Z := u32 (Z.shiftl (u32 (Z.shiftl 1 cnt) - 1) shift).

Definition PGSHIFT : Z := 0.
Definition PGBITS : Z := 12.
Definition PGSIZE : Z := Z.shiftl 1 PGBITS.
Definition PGMASK : Z := BITMASK PGSHIFT PGBITS.
Definition PHYS_BASE : Z := 0xc0000000.

Definition pg_ofs (va : Z) : Z := Z.land va PGMASK.
Definition pg_no (va : Z) : Z := Z.shiftr va PGBITS.
Definition pg_round_up (va : Z) : Z := Z.land (u32 (va + PGSIZE - 1)) (u32 (Z.lnot PGMASK)).
Definition pg_round_down (va : Z) : Z := Z.land va (u32 (Z.lnot PGMASK)).

Definition is_user_vaddr (vaddr : Z) : bool := vaddr <? PHYS_BASE.
Definition is_kernel_vaddr (vaddr : Z) : bool := PHYS_BASE <=? vaddr.

Definition ptov {S} (paddr : Z) : M S Z :=
  assert (paddr <? PHYS_BASE);;
  mret (u32 (paddr + PHYS_BASE)).

Definition vtop {S} (vaddr : Z) : M S Z :=
  assert (is_kernel_vaddr vaddr);;
  mret (u32 (vaddr - PHYS_BASE)).

Definition PTSHIFT : Z := PGBITS.
Definition PTBITS : Z := 10.
Definition PTMASK : Z := BITMASK PTSHIFT PTBITS.
Definition PDSHIFT : Z := PTSHIFT + PTBITS.

Definition pt_no (va : Z) : Z := Z.shiftr (Z.land va PTMASK) PTSHIFT.
Definition pd_no (va : Z) : Z := Z.shiftr va PDSHIFT.

Definition PTE_FLAGS : Z := 0x00000fff.
Definition PTE_ADDR : Z := 0xfffff000.
Definition PTE_P : Z := 0x1.
Definition PTE_W : Z := 0x2.
Definition PTE_U : Z := 0x4.
Definition PTE_A : Z := 0x20.
Definition PTE_D : Z := 0x40.

Definition pde_create {S} (pt : Z) : M S Z :=
  assert (pg_ofs pt =? 0);;
  p ← vtop pt;
  mret (Z.lor (Z.lor (Z.lor p PTE_U) PTE_P) PTE_W).

Definition pde_get_pt {S} (pde : Z) : M S Z :=
  assert (negb (Z.land pde PTE_P =? 0));;
  ptov (Z.land pde PTE_ADDR).

Definition pte_create_kernel {S} (page : Z) (writable : bool) : M S Z :=
  assert (pg_ofs page =? 0);;
  p ← vtop page;
  mret (Z.lor (Z.lor p PTE_P) (if writable then PTE_W else 0)).

Definition pte_create_user {S} (page : Z) (writable : bool) : M S Z :=
  p ← pte_create_kernel page writable;
  mret (Z.lor p PTE_U).

Definition pte_get_page {S} (pte : Z) : M S Z := ptov (Z.land pte PTE_ADDR).

(** ** Masks as division and remainder *)
Lemma land_low m k x : 0 <= k -> 0 <= m < 2 ^ k -> Z.land x m = Z.land (x mod 2 ^ k) m.
Proof.
  intros Hk Hm. apply range_iff_wrap in Hm; [|done]. apply Z.bits_inj'. intros n Hn.
  change (x mod 2 ^ k) with (wrap k x). rewrite <- Hm, !Z.land_spec, !testbit_wrap by done.
  by destruct (n <? k), (Z.testbit x n).
Qed.

Lemma lor_low a f k : 0 <= k -> 0 <= f < 2 ^ k -> Z.lor (a * 2 ^ k) f = a * 2 ^ k + f.
Proof.
  intros Hk Hf. rewrite <- Z.add_lor_land. assert (Z.land (a * 2 ^ k) f = 0) as ->; [|lia].
  rewrite (land_low f k) by done. rewrite Z.mod_mul by lia. apply Z.land_0_l.
Qed.

(** Clearing the low [k] bits of a word. *)
Lemma land_high x k :
  0 <= k <= 32 -> 0 <= x < 2 ^ 32 -> Z.land x (u32 (Z.lnot (Z.ones k))) = x / 2 ^ k * 2 ^ k.
Proof.
  intros Hk Hx. rewrite <- Z.shiftr_div_pow2, <- Z.shiftl_mul_pow2, <- Z.ldiff_ones_r by lia.
  apply range_iff_wrap in Hx; [|lia]. apply Z.bits_inj'. intros n Hn.
  rewrite Z.land_spec, Z.ldiff_spec, testbit_wrap, Z.lnot_spec by lia.
  rewrite <- Hx, testbit_wrap by lia. by destruct (n <? 32).
Qed.

Lemma pg_ofs_mod va : pg_ofs va = va mod PGSIZE.
Proof. unfold pg_ofs. change PGMASK with (Z.ones 12). by rewrite Z.land_ones. Qed.

Lemma pg_no_div va : pg_no va = va / PGSIZE.
Proof. unfold pg_no. by rewrite Z.shiftr_div_pow2. Qed.

Lemma pg_round_down_div va : 0 <= va < 2 ^ 32 -> pg_round_down va = va / PGSIZE * PGSIZE.
Proof. intros Hva. apply (land_high va 12); lia. Qed.

Lemma pt_no_div va : pt_no va = va / PGSIZE mod 1024.
Proof.
  unfold pt_no. change PTMASK with (Z.shiftl (Z.ones 10) 12). change PTSHIFT with 12.
  rewrite Z.shiftr_land, Z.shiftr_shiftl_l, Z.shiftl_0_r by lia.
  rewrite Z.land_ones, Z.shiftr_div_pow2 by lia. done.
Qed.

Lemma pd_no_div va : pd_no va = va / PGSIZE / 1024.
Proof. unfold pd_no. rewrite Z.shiftr_div_pow2, Z.div_div by done. done. Qed.

Lemma land_PTE_ADDR x : 0 <= x < 2 ^ 32 -> Z.land x PTE_ADDR = x / PGSIZE * PGSIZE.
Proof. intros Hx. apply (land_high x 12); lia. Qed.

Lemma pg_round_up_div va :
  0 <= va -> va + PGSIZE <= 2 ^ 32 -> pg_round_up va = (va + (PGSIZE - 1)) / PGSIZE * PGSIZE.
Proof.
  intros Hva Hmax. unfold pg_round_up. change PGSIZE with 4096 in *. rewrite wrap_small by lia.
  replace (va + 4096 - 1) with (va + 4095) by lia. apply (land_high (va + 4095) 12); lia.
Qed.

(** ** Entries *)

(** A page-aligned kernel virtual address. *)
Definition kpage_ok (p : Z) : Prop := PHYS_BASE <= p < 2 ^ 32 /\ p mod PGSIZE = 0.

Lemma kpage_phys p :
  kpage_ok p -> exists a, p = a * PGSIZE + PHYS_BASE /\ 0 <= a < 2 ^ 18.
Proof.
  unfold kpage_ok. change PGSIZE with 4096. change PHYS_BASE with 0xc0000000.
  intros [Hr Hm]. exists ((p - 0xc0000000) / 4096).
  pose proof (Z.div_mod (p - 0xc0000000) 4096 ltac:(lia)) as E.
  replace ((p - 0xc0000000) mod 4096) with 0 in E.
  - split; [lia|]. split; [apply Z.div_pos; lia|apply Z.div_lt_upper_bound; lia].
  - symmetry. rewrite Zminus_mod, Hm. done.
Qed.

(** The entry for page [p] with the flag bits [f]. *)
Definition entry (p f : Z) : Z := p - PHYS_BASE + f.

Lemma vtop_ok {S} p (s : S) : kpage_ok p -> vtop p s = Ok (p - PHYS_BASE, s).
Proof.
  intros [Hr _]. unfold vtop, is_kernel_vaddr, mbind, M_bind, assert.
  rewrite (proj2 (Z.leb_le _ _)) by lia. unfold mret, M_ret. rewrite wrap_small; [done|].
  change PHYS_BASE with 0xc0000000 in *. lia.
Qed.

Lemma entry_lor p f g :
  kpage_ok p -> 0 <= f < PGSIZE -> 0 <= g < PGSIZE -> Z.lor (entry p f) g = entry p (Z.lor f g).
Proof.
  intros Hp Hf Hg. destruct (kpage_phys p Hp) as (a & -> & Ha). unfold entry.
  replace (a * PGSIZE + PHYS_BASE - PHYS_BASE) with (a * 2 ^ 12) by (change PGSIZE with (2 ^ 12); ring).
  change PGSIZE with (2 ^ 12) in *. pose proof (lor_range 12 f g).
  rewrite <- !lor_low by lia. by rewrite Z.lor_assoc.
Qed.

Lemma entry_0 p : p - PHYS_BASE = entry p 0.
Proof. unfold entry. lia. Qed.

Lemma entry_flag p f m :
  kpage_ok p -> 0 <= f < PGSIZE -> 0 <= m < PGSIZE -> Z.land (entry p f) m = Z.land f m.
Proof.
  intros Hp Hf Hm. destruct (kpage_phys p Hp) as (a & -> & Ha). unfold entry.
  change PGSIZE with (2 ^ 12) in *. rewrite (land_low m 12), (land_low m 12 f) by lia. f_equal.
  replace (a * 2 ^ 12 + PHYS_BASE - PHYS_BASE + f) with (f + a * 2 ^ 12) by ring.
  apply Z.mod_add. lia.
Qed.

Lemma entry_range p f : kpage_ok p -> 0 <= f < PGSIZE -> 0 <= entry p f < 2 ^ 32.
Proof.
  intros Hp Hf. destruct (kpage_phys p Hp) as (a & -> & Ha). unfold entry.
  change PGSIZE with 4096 in *. change PHYS_BASE with 0xc0000000 in *. lia.
Qed.

Lemma entry_page {S} p f (s : S) :
  kpage_ok p -> 0 <= f < PGSIZE -> ptov (Z.land (entry p f) PTE_ADDR) s = Ok (p, s).
Proof.
  intros Hp Hf. pose proof (entry_range p f Hp Hf) as Hr. rewrite land_PTE_ADDR by done.
  destruct (kpage_phys p Hp) as (a & -> & Ha). unfold entry, ptov, mbind, M_bind, assert, mret, M_ret.
  change PGSIZE with 4096 in *. change PHYS_BASE with 0xc0000000 in *.
  replace (a * 4096 + 0xc0000000 - 0xc0000000 + f) with (f + a * 4096) by ring.
  rewrite Z.div_add, Z.div_small by lia. rewrite (proj2 (Z.ltb_lt _ _)) by lia.
  rewrite wrap_small by lia. by rewrite Z.add_0_l.
Qed.

Lemma pg_ofs_kpage p : kpage_ok p -> (pg_ofs p =? 0) = true.
Proof. intros [_ Hm]. rewrite pg_ofs_mod, Hm. done. Qed.

Lemma pde_create_ok {S} pt (s : S) : kpage_ok pt -> pde_create pt s = Ok (entry pt 7, s).
Proof.
  intros Hp. unfold pde_create, mbind, M_bind, assert. rewrite pg_ofs_kpage, vtop_ok by done.
  unfold mret, M_ret. rewrite entry_0, !entry_lor by done. done.
Qed.

Definition user_flags (writable : bool) : Z := if writable then 7 else 5.

Lemma pte_create_user_ok {S} page w (s : S) :
  kpage_ok page -> pte_create_user page w s = Ok (entry page (user_flags w), s).
Proof.
  intros Hp. unfold pte_create_user, pte_create_kernel, mbind, M_bind, assert.
  rewrite pg_ofs_kpage, vtop_ok by done. unfold mret, M_ret.
  rewrite entry_0, entry_lor by done. destruct w; rewrite !entry_lor by done; done.
Qed.

Lemma pde_get_pt_ok {S} pt f (s : S) :
  kpage_ok pt -> 0 <= f < PGSIZE -> Z.land f PTE_P <> 0 -> pde_get_pt (entry pt f) s = Ok (pt, s).
Proof.
  intros Hp Hf HP. unfold pde_get_pt, mbind, M_bind, assert.
  rewrite entry_flag by done. rewrite (proj2 (Z.eqb_neq _ _)) by done. simpl.
  by rewrite entry_page.
Qed.

(** ** Addresses

    C31 The page directory index, the page table index and the offset of a
    32-bit address determine it, two addresses are in the same page exactly
    when they agree on both indices, and the two roundings give the page
    boundaries around it. *)
Theorem vaddr_decomposition va :
  0 <= va < 2 ^ 32 ->
  va = (pd_no va * 1024 + pt_no va) * PGSIZE + pg_ofs va /\
  0 <= pd_no va < 1024 /\ 0 <= pt_no va < 1024 /\ 0 <= pg_ofs va < PGSIZE /\
  pg_round_down va = va - pg_ofs va /\
  (va + PGSIZE <= 2 ^ 32 -> pg_ofs (pg_round_up va) = 0 /\ va <= pg_round_up va < va + PGSIZE) /\
  (forall va', 0 <= va' < 2 ^ 32 ->
     (pd_no va' = pd_no va /\ pt_no va' = pt_no va) <-> pg_round_down va' = pg_round_down va).
Proof.
  intros Hva. assert (forall x, 0 <= x < 2 ^ 32 -> 0 <= x / PGSIZE < 2 ^ 20) as Hpn.
  { intros x Hx. change PGSIZE with 4096.
    split; [apply Z.div_pos; lia|apply Z.div_lt_upper_bound; lia]. }
  pose proof (Hpn va Hva) as Hn.
  rewrite pd_no_div, pt_no_div, pg_ofs_mod, pg_round_down_div by done.
  pose proof (Z.div_mod va PGSIZE ltac:(done)) as E1.
  pose proof (Z.div_mod (va / PGSIZE) 1024 ltac:(done)) as E2.
  split_and!.
  - lia.
  - apply Z.div_pos; lia.
  - apply Z.div_lt_upper_bound; lia.
  - apply Z.mod_pos_bound. lia.
  - apply Z.mod_pos_bound. lia.
  - by apply Z.mod_pos_bound.
  - by apply Z.mod_pos_bound.
  - lia.
  - intros Hmax. rewrite pg_ofs_mod, pg_round_up_div by lia. rewrite Z.mod_mul by done.
    split; [done|]. pose proof (Z.div_mod (va + (PGSIZE - 1)) PGSIZE ltac:(done)) as E3.
    pose proof (Z.mod_pos_bound (va + (PGSIZE - 1)) PGSIZE ltac:(done)). lia.
  - intros va' Hva'. pose proof (Hpn va' Hva').
    rewrite pd_no_div, pt_no_div, pg_round_down_div by done. split.
    + intros [Hd Ht]. rewrite (Z.div_mod (va' / PGSIZE) 1024), Hd, Ht by done. lia.
    + intros E%Z.mul_cancel_r; [|done]. by rewrite E.
Qed.

Lemma vaddr_decomposition_witness :
  pd_no 0x08048abc = 0x20 /\ pt_no 0x08048abc = 0x48 /\ pg_ofs 0x08048abc = 0xabc /\
  0x08048abc = (pd_no 0x08048abc * 1024 + pt_no 0x08048abc) * PGSIZE + pg_ofs 0x08048abc.
Proof.
  split_and!; [reflexivity..|]. apply (vaddr_decomposition 0x08048abc). lia.
Defined.
