(* ===== verification/Palloc.v ===== *)
(** * The page allocator (src/threads/palloc.c)

    Two pools of pages, each a bitmap of used pages and the address of its
    first page.  [mem] is the contents of memory by page: the kernel virtual
    address of a page and its 1024 words, so that [PAL_ZERO] and the
    debugging fill of freed pages are part of the model.  A pool's lock is
    held around the one bitmap operation it protects, which is atomic here. *)

From S2P Require Import Prelude Bitmap Vaddr.

Definition PAL_ASSERT : Z := 1.
Definition PAL_ZERO : Z := 2.
Definition PAL_USER : Z := 4.

Record pool := Pool { used_map : bitmap; base : Z }.

Record palloc := Palloc {
  kernel_pool : pool;
  user_pool : pool;
  mem : gmap Z (list Z);
  init_ram_pages : Z
}.

(** A page has 1024 words. *)
Definition WORDS : nat := 1024.
Arguments WORDS : simpl never.
Definition filled (word : Z) : list Z := replicate WORDS word.
Arguments filled : simpl never.

Lemma length_filled w : length (filled w) = WORDS.
Proof. apply length_replicate. Qed.

Definition get_pool (user : bool) (s : palloc) : pool := if user then user_pool s else kernel_pool s.
Definition set_pool (user : bool) (p : pool) (s : palloc) : palloc :=
  if user then Palloc (kernel_pool s) p (mem s) (init_ram_pages s)
  else Palloc p (user_pool s) (mem s) (init_ram_pages s).
Definition set_mem (m : gmap Z (list Z)) (s : palloc) : palloc :=
  Palloc (kernel_pool s) (user_pool s) m (init_ram_pages s).

(** A bitmap operation on the map of a pool. *)
Definition on_map {A} (user : bool) (m : M bitmap A) : M palloc A := fun s =>
  let p := get_pool user s in
  match m (used_map p) with
  | Ok (a, b) => Ok (a, set_pool user (Pool b (base p)) s)
  | Err e => Err e
  end.

(** [memset] of [cnt] whole pages with a repeated word. *)
Definition memset_pages (pages cnt word : Z) : M palloc unit :=
  for_ (Z.to_nat cnt) 0 (fun i =>
    s ← get;
    _ ← deref (mem s !! (pages + PGSIZE * i));
    put (set_mem (<[pages + PGSIZE * i := filled word]> (mem s)) s)).

Definition flag (flags bit : Z) : bool := negb (Z.land flags bit =? 0).

Definition palloc_get_multiple (flags page_cnt : Z) : M palloc Z :=
  let user := flag flags PAL_USER in
  if page_cnt =? 0 then mret 0 else
  page_idx ← on_map user (bitmap_scan_and_flip 0 page_cnt false);
  s ← get;
  let pages :=
    if negb (page_idx =? BITMAP_ERROR)
    then u32 (base (get_pool user s) + u32 (PGSIZE * page_idx))
    else 0 in
  (if negb (pages =? 0) then
     if flag flags PAL_ZERO then memset_pages pages page_cnt 0 else mret ()
   else if flag flags PAL_ASSERT then fail PanicHalt else mret ());;
  mret pages.

Definition palloc_get_page (flags : Z) : M palloc Z := palloc_get_multiple flags 1.

Definition page_from_pool (p : pool) (page : Z) : bool :=
  let page_no := pg_no page in
  let start_page := pg_no (base p) in
  let end_page := u32 (start_page + bit_cnt (used_map p)) in
  (start_page <=? page_no) && (page_no <? end_page).

(** The word of four 0xcc bytes. *)
Definition FREED : Z := 0xcccccccc.

Definition palloc_free_multiple (pages page_cnt : Z) : M palloc unit :=
  assert (pg_ofs pages =? 0);;
  if (pages =? 0) || (page_cnt =? 0) then mret () else
  s ← get;
  user ← (if page_from_pool (kernel_pool s) pages then mret false
          else if page_from_pool (user_pool s) pages then mret true
          else fail PanicHalt);
  let page_idx := u32 (pg_no pages - pg_no (base (get_pool user s))) in
  memset_pages pages page_cnt FREED;;
  all ← on_map user (bitmap_all page_idx page_cnt);
  assert all;;
  on_map user (bitmap_set_multiple page_idx page_cnt false).

Definition palloc_free_page (page : Z) : M palloc unit := palloc_free_multiple page 1.

(** The words of [cnt] pages. *)
Fixpoint page_words (m : gmap Z (list Z)) (page : Z) (cnt : nat) : option (list Z) :=
  match cnt with
  | O => Some []
  | S n => ws ← m !! page; rest ← page_words m (page + PGSIZE) n; Some (ws ++ rest)
  end.

(** The map is built in the first pages of the pool, after the two words of
    its [struct bitmap]; those pages leave the pool. *)
Definition init_pool (user : bool) (pbase page_cnt : Z) : M palloc unit :=
  let bm_pages := DIV_ROUND_UP (bitmap_buf_size page_cnt) PGSIZE in
  (if page_cnt <? bm_pages then fail PanicHalt else mret ());;
  let page_cnt := u32 (page_cnt - bm_pages) in
  s ← get;
  block ← deref (page_words (mem s) pbase (Z.to_nat bm_pages));
  match bitmap_create_in_buf page_cnt (drop 2 block) (u32 (bm_pages * PGSIZE)) with
  | Ok b => put (set_pool user (Pool b (u32 (pbase + u32 (bm_pages * PGSIZE)))) s)
  | Err e => fail e
  end.

Definition palloc_init (user_page_limit : Z) : M palloc unit :=
  s ← get;
  free_start ← ptov (1024 * 1024);
  free_end ← ptov (u32 (init_ram_pages s * PGSIZE));
  let free_pages := u32 (Z.quot (s32 (free_end - free_start)) PGSIZE) in
  let user_pages := free_pages / 2 in
  let user_pages := if user_page_limit <? user_pages then user_page_limit else user_pages in
  let kernel_pages := u32 (free_pages - user_pages) in
  init_pool false free_start kernel_pages;;
  init_pool true (u32 (free_start + u32 (kernel_pages * PGSIZE))) user_pages.

(** ** Blocks of pages *)
Definition in_block (p cnt q : Z) : Prop := exists i, 0 <= i < cnt /\ q = p + PGSIZE * i.

Fixpoint fill_mem (m : gmap Z (list Z)) (page : Z) (n : nat) (word : Z) : gmap Z (list Z) :=
  match n with
  | O => m
  | S k => <[page + PGSIZE * Z.of_nat k := filled word]> (fill_mem m page k word)
  end.

Lemma fill_mem_in m p n w q :
  in_block p (Z.of_nat n) q -> fill_mem m p n w !! q = Some (filled w).
Proof.
  induction n as [|n IH]; intros (i & Hi & ->); [lia|]. simpl.
  destruct (decide (i = Z.of_nat n)) as [->|Hne]; [apply lookup_insert_eq|].
  rewrite lookup_insert_ne; [|change PGSIZE with 4096; lia]. apply IH. exists i. split; [lia|done].
Qed.

Lemma fill_mem_out m p n w q : ~ in_block p (Z.of_nat n) q -> fill_mem m p n w !! q = m !! q.
Proof.
  induction n as [|n IH]; intros Hq; [done|]. simpl. rewrite lookup_insert_ne.
  - apply IH. intros (i & Hi & ->). apply Hq. exists i. split; [lia|done].
  - intros <-. apply Hq. exists (Z.of_nat n). split; [lia|done].
Qed.

Lemma fill_mem_size m p n w q ws :
  fill_mem m p n w !! q = Some ws -> length ws = WORDS \/ m !! q = Some ws.
Proof.
  induction n as [|n IH]; simpl; [by right|]. intros [[_ <-]|[_ H]]%lookup_insert_Some; [|by apply IH].
  left. apply length_filled.
Qed.

Lemma memset_pages_ok s pages cnt w :
  0 <= cnt -> (forall i, 0 <= i < cnt -> is_Some (mem s !! (pages + PGSIZE * i))) ->
  memset_pages pages cnt w s = Ok (tt, set_mem (fill_mem (mem s) pages (Z.to_nat cnt) w) s).
Proof.
  intros Hc Hpg. cut (wp (memset_pages pages cnt w) (fun _ s' =>
    s' = set_mem (fill_mem (mem s) pages (Z.to_nat cnt) w) s) s).
  { by intros ([] & s' & -> & ->)%wp_iff. }
  unfold memset_pages. eapply wp_mono.
  - apply (wp_for (fun i s' => s' = set_mem (fill_mem (mem s) pages (Z.to_nat i) w) s)).
    + intros i s' Hi ->. do 3 wp_step.
      assert (is_Some (fill_mem (mem s) pages (Z.to_nat i) w !! (pages + PGSIZE * i))) as [ws Hws].
      { rewrite fill_mem_out; [apply Hpg; lia|]. intros (j & Hj & E). change PGSIZE with 4096 in E. lia. }
      eapply wp_deref; [exact Hws|]. wp_step. unfold set_mem. simpl.
      rewrite Z2Nat.inj_add, Nat.add_1_r by lia. simpl. rewrite Z2Nat.id by lia. done.
    + by destruct s.
  - intros [] s' ->. rewrite Z.add_0_l, Z2Nat.id; done.
Qed.

(** ** The representation *)
Record pool_rep (m : gmap Z (list Z)) (p : pool) (bs : list bool) : Prop := {
  pr_map : is_bitmap (used_map p) bs;
  pr_align : base p mod PGSIZE = 0;
  pr_base : PHYS_BASE <= base p;
  pr_end : base p + PGSIZE * alen bs <= 2 ^ 32;
  pr_mem : forall i, 0 <= i < alen bs ->
    exists ws, m !! (base p + PGSIZE * i) = Some ws /\ length ws = WORDS
}.

Record pal_rep (s : palloc) (K U : list bool) : Prop := {
  pal_kernel : pool_rep (mem s) (kernel_pool s) K;
  pal_user : pool_rep (mem s) (user_pool s) U;
  pal_disjoint : base (kernel_pool s) + PGSIZE * alen K <= base (user_pool s)
}.

Definition pick {A} (user : bool) (k u : A) : A := if user then u else k.
Definition upd_k (user : bool) (bs K : list bool) : list bool := if user then K else bs.
Definition upd_u (user : bool) (bs U : list bool) : list bool := if user then bs else U.

Lemma pal_pool s K U user :
  pal_rep s K U -> pool_rep (mem s) (get_pool user s) (pick user K U).
Proof. intros [Hk Hu _]. by destruct user. Qed.

(** A new bitmap of the same length in one of the pools. *)
Lemma pal_rep_set_map s K U user b bs :
  pal_rep s K U -> is_bitmap b bs -> alen bs = alen (pick user K U) ->
  pal_rep (set_pool user (Pool b (base (get_pool user s))) s) (upd_k user bs K) (upd_u user bs U).
Proof.
  intros [[] [] Hd] Hb Hlen. destruct user; simpl in *; split; simpl; try done;
    try (split; simpl; rewrite ?Hlen; done). by rewrite Hlen.
Qed.

Lemma pool_rep_fill m p bs q n w : pool_rep m p bs -> pool_rep (fill_mem m q n w) p bs.
Proof.
  intros [Hm Ha Hb He Hp]. split; try done. intros i Hi. destruct (Hp i Hi) as (ws & Hws & Hl).
  assert (is_Some (fill_mem m q n w !! (base p + PGSIZE * i))) as [ws' Hws'].
  { clear -Hws. induction n as [|n IH]; simpl; [by eexists|]. rewrite lookup_insert. by case_decide; eauto. }
  exists ws'. split; [done|]. destruct (fill_mem_size _ _ _ _ _ _ Hws') as [|Hws2]; [done|].
  by simplify_eq.
Qed.

Lemma pal_rep_fill s K U q n w :
  pal_rep s K U -> pal_rep (set_mem (fill_mem (mem s) q n w) s) K U.
Proof. intros [Hk Hu Hd]. split; simpl; try done; by apply pool_rep_fill. Qed.

Lemma on_map_wp {A} user (m : M bitmap A) (Q : A -> palloc -> Prop) s :
  wp m (fun a b => Q a (set_pool user (Pool b (base (get_pool user s))) s)) (used_map (get_pool user s)) ->
  wp (on_map user m) Q s.
Proof. unfold wp, on_map. by destruct (m _) as [[a b]|e]. Qed.

Lemma set_pool_mem user p s : mem (set_pool user p s) = mem s.
Proof. by destruct user. Qed.

Lemma set_pool_same user b s :
  base (get_pool user (set_pool user (Pool b (base (get_pool user s))) s)) = base (get_pool user s).
Proof. by destruct user. Qed.

(** The parts of the state no operation changes. *)
Definition same_layout (s s' : palloc) : Prop :=
  base (kernel_pool s') = base (kernel_pool s) /\ base (user_pool s') = base (user_pool s) /\
  init_ram_pages s' = init_ram_pages s.

Lemma same_layout_set_map user b s :
  same_layout s (set_pool user (Pool b (base (get_pool user s))) s).
Proof. by destruct user. Qed.

Lemma same_layout_get user s s' :
  same_layout s s' -> base (get_pool user s') = base (get_pool user s).
Proof. intros (Hk & Hu & _). by destruct user. Qed.

(** The address of page [i] of a pool does not wrap. *)
Lemma page_addr m p bs i cnt :
  pool_rep m p bs -> 0 < cnt -> in_range bs i cnt ->
  u32 (base p + u32 (PGSIZE * i)) = base p + PGSIZE * i /\ base p + PGSIZE * i <> 0.
Proof.
  intros [_ _ Hb He _] Hc (Hi & _ & Hlen).
  change PGSIZE with 4096 in *. change PHYS_BASE with 0xc0000000 in *.
  rewrite (wrap_small 32 (4096 * i)), wrap_small by lia. lia.
Qed.

(** What [palloc_get_multiple] did: no group of free pages, or page [i] of the
    pool starts the first group, which is now used. *)
Definition get_post (flags cnt : Z) (s : palloc) (K U : list bool) (p : Z) (s' : palloc) : Prop :=
  let user := flag flags PAL_USER in
  let bs := pick user K U in
  same_layout s s' /\
  ((p = 0 /\ (forall i, 0 <= i -> ~ group bs cnt false i) /\ pal_rep s' K U /\ mem s' = mem s) \/
   (exists i, p = base (get_pool user s) + PGSIZE * i /\ p <> 0 /\ group bs cnt false i /\
      (forall j, 0 <= j < i -> ~ group bs cnt false j) /\
      pal_rep s' (upd_k user (fill bs i cnt true) K) (upd_u user (fill bs i cnt true) U) /\
      mem s' = if flag flags PAL_ZERO then fill_mem (mem s) p (Z.to_nat cnt) 0 else mem s)).

Lemma palloc_get_multiple_ok flags cnt s K U :
  pal_rep s K U -> 0 < cnt ->
  (flag flags PAL_ASSERT = true -> exists i, 0 <= i /\ group (pick (flag flags PAL_USER) K U) cnt false i) ->
  wp (palloc_get_multiple flags cnt) (get_post flags cnt s K U) s.
Proof.
  intros Hrep Hc Hassert. unfold palloc_get_multiple, get_post.
  rewrite (proj2 (Z.eqb_neq cnt 0)) by lia. set (user := flag flags PAL_USER) in *.
  set (bs := pick user K U) in *. pose proof (pal_pool _ _ _ user Hrep) as Hp. fold bs in Hp.
  pose proof (alen_nonneg bs) as Hlen. pose proof (bm_max _ _ (pr_map _ _ _ Hp)) as Hmax.
  wp_step. apply on_map_wp. eapply wp_mono; [apply scan_and_flip_ok; [apply Hp|lia..]|].
  intros r b [-> Hb]. do 2 wp_step. rewrite set_pool_same.
  set (s1 := set_pool user (Pool b (base (get_pool user s))) s) in *.
  assert (same_layout s s1) as Hsl by apply same_layout_set_map.
  assert (mem s1 = mem s) as Hm1 by apply set_pool_mem.
  destruct (scan_spec_error_or_group bs 0 cnt false) as [[E Hno]|(Hle & Hg & Hall)]; [lia..| |].
  - rewrite E in Hb |- *. rewrite Z.eqb_refl in Hb |- *. simpl. destruct (flag flags PAL_ASSERT).
    { destruct Hassert as (i & Hi & Hgi); [done|]. by apply Hno in Hgi. }
    do 3 wp_step. split; [done|]. left. split_and!; [done..| |done].
    pose proof (pal_rep_set_map s K U user b bs Hrep Hb eq_refl) as Hr1. by destruct user.
  - set (i := scan_spec bs 0 cnt false) in *. destruct Hg as [Hr Hfree].
    destruct (page_addr _ _ _ _ _ Hp Hc Hr) as [-> Hnz].
    assert (i < BITMAP_ERROR) by (destruct Hr as (_ & _ & ?); unfold BITMAP_ERROR; lia).
    rewrite (proj2 (Z.eqb_neq i BITMAP_ERROR)) in Hb |- * by lia. simpl negb. cbv iota.
    rewrite (proj2 (Z.eqb_neq _ 0)) by done. simpl negb. cbv iota.
    pose proof (pal_rep_set_map s K U user b _ Hrep Hb (alen_fill _ _ _ _ Hr)) as Hr1. fold s1 in Hr1.
    wp_step. destruct (flag flags PAL_ZERO).
    + eapply wp_eq; [apply memset_pages_ok; [lia|]|].
      * intros j Hj. rewrite Hm1. destruct Hr as (? & _ & ?).
        destruct (pr_mem _ _ _ Hp (i + j)) as (ws & Hws & _); [lia|]. exists ws. rewrite <- Hws. f_equal. lia.
      * wp_step. split; [done|]. right. exists i.
        split_and!; [done..|by split|done|by apply pal_rep_fill|]. simpl. by rewrite Hm1.
    + do 2 wp_step. split; [done|]. right. exists i. split_and!; [done..|by split|done|done|done].
Qed.

Lemma page_no_of m p bs i :
  pool_rep m p bs -> pg_no (base p + PGSIZE * i) = pg_no (base p) + i.
Proof. intros Hp. rewrite !pg_no_div, Z.mul_comm, Z.div_add; done. Qed.

Lemma page_from_pool_spec m p bs q :
  pool_rep m p bs -> 0 <= pg_no q ->
  page_from_pool p q = bool_decide (pg_no (base p) <= pg_no q < pg_no (base p) + alen bs).
Proof.
  intros Hp Hq. unfold page_from_pool. rewrite (bm_cnt _ _ (pr_map _ _ _ Hp)).
  pose proof (pr_end _ _ _ Hp) as He. pose proof (pr_base _ _ _ Hp) as Hb. pose proof (alen_nonneg bs).
  assert (0 <= pg_no (base p)) by (rewrite pg_no_div; apply Z.div_pos; [unfold PHYS_BASE in *; lia|done]).
  assert (PGSIZE * pg_no (base p) <= base p) as Hle by (rewrite pg_no_div; by apply Z.mul_div_le).
  rewrite wrap_small by (change PGSIZE with 4096 in *; lia).
  destruct (Z.leb_spec (pg_no (base p)) (pg_no q)), (Z.ltb_spec (pg_no q) (pg_no (base p) + alen bs));
    simpl; symmetry; (apply bool_decide_eq_true_2; lia) || (apply bool_decide_eq_false_2; lia).
Qed.

(** The pool of a page. *)
Lemma pool_of_page s K U user i :
  pal_rep s K U -> 0 <= i < alen (pick user K U) ->
  let q := base (get_pool user s) + PGSIZE * i in
  page_from_pool (kernel_pool s) q = negb user /\ (user = true -> page_from_pool (user_pool s) q = true).
Proof.
  intros Hrep Hi q. pose proof (pal_kernel _ _ _ Hrep) as Hk. pose proof (pal_user _ _ _ Hrep) as Hu.
  pose proof (pal_disjoint _ _ _ Hrep) as Hd. pose proof (pal_pool _ _ _ user Hrep) as Hp.
  assert (pg_no (base (kernel_pool s)) + alen K <= pg_no (base (user_pool s))) as Hdn.
  { rewrite <- (page_no_of _ _ _ (alen K) Hk), !pg_no_div. by apply Z.div_le_mono. }
  assert (pg_no q = pg_no (base (get_pool user s)) + i) as Hq by (by eapply page_no_of).
  assert (0 <= pg_no (base (get_pool user s))).
  { rewrite pg_no_div. pose proof (pr_base _ _ _ Hp). apply Z.div_pos; [unfold PHYS_BASE in *; lia|done]. }
  rewrite (page_from_pool_spec _ _ _ _ Hk), (page_from_pool_spec _ _ _ _ Hu) by lia.
  destruct user; simpl in *; split; try (intros [=]); try done;
    (apply bool_decide_eq_true_2; lia) || (apply bool_decide_eq_false_2; lia).
Qed.

Lemma page_idx_of m p bs i :
  pool_rep m p bs -> 0 <= i < alen bs -> u32 (pg_no (base p + PGSIZE * i) - pg_no (base p)) = i.
Proof.
  intros Hp Hi. rewrite (page_no_of _ _ _ _ Hp). rewrite wrap_small; [lia|].
  pose proof (bm_max _ _ (pr_map _ _ _ Hp)). lia.
Qed.

Definition free_post (user : bool) (i cnt : Z) (s : palloc) (K U : list bool) (s' : palloc) : Prop :=
  let bs := pick user K U in
  same_layout s s' /\
  pal_rep s' (upd_k user (fill bs i cnt false) K) (upd_u user (fill bs i cnt false) U) /\
  mem s' = fill_mem (mem s) (base (get_pool user s) + PGSIZE * i) (Z.to_nat cnt) FREED.

Lemma palloc_free_multiple_ok user i cnt s K U :
  pal_rep s K U -> 0 < cnt -> group (pick user K U) cnt true i ->
  wp (palloc_free_multiple (base (get_pool user s) + PGSIZE * i) cnt)
     (fun _ s' => free_post user i cnt s K U s') s.
Proof.
  intros Hrep Hc Hg. pose proof Hg as [Hr Hall]. pose proof Hr as (Hi & _ & Hlen).
  pose proof (pal_pool _ _ _ user Hrep) as Hp.
  destruct (page_addr _ _ _ _ _ Hp Hc Hr) as [_ Hnz].
  destruct (pool_of_page _ _ _ user i Hrep) as [Hpk Hpu]; [lia|]. cbv zeta in Hpk, Hpu.
  unfold palloc_free_multiple. do 2 wp_step.
  { rewrite pg_ofs_mod. apply Z.eqb_eq. rewrite Z.mul_comm, Z.mod_add; [apply Hp|done]. }
  rewrite !(proj2 (Z.eqb_neq _ _)) by lia. simpl orb. cbv iota. do 2 wp_step.
  wp_step. rewrite Hpk. eapply wp_mono with (P := fun u s1 => u = user /\ s1 = s).
  { destruct user; cbn [negb]; [rewrite (Hpu eq_refl)|]; by wp_step. }
  intros u s1 [-> ->]. rewrite (page_idx_of _ _ _ _ Hp) by lia.
  wp_step. eapply wp_eq; [apply memset_pages_ok; [lia|]|].
  { intros j Hj. destruct (pr_mem _ _ _ Hp (i + j)) as (ws & Hws & _); [lia|].
    exists ws. rewrite <- Hws. f_equal. lia. }
  set (p := base (get_pool user s) + PGSIZE * i). set (s2 := set_mem _ s).
  assert (pal_rep s2 K U) as Hrep2 by (by apply pal_rep_fill).
  assert (get_pool user s2 = get_pool user s) as Hg2 by (by destruct user).
  wp_step. apply on_map_wp. rewrite Hg2. unfold bitmap_all. wp_step.
  eapply wp_eq; [by apply (bitmap_contains_ok _ _ (pr_map _ _ _ Hp))|]. wp_step.
  assert (bool_decide (false ∈ slice (pick user K U) i cnt) = false) as ->.
  { apply bool_decide_eq_false_2. by apply (group_slice _ _ true). }
  do 2 wp_step. apply on_map_wp.
  set (s3 := set_pool user _ s2).
  assert (s3 = s2) as ->.
  { unfold s3. destruct s as [[] [] ? ?], user; done. }
  rewrite Hg2. eapply wp_mono; [apply bitmap_set_multiple_ok; [apply Hp|done]|].
  intros [] b Hb. unfold free_post. split_and!.
  - rewrite <- Hg2. eapply (same_layout_set_map user b s2).
  - rewrite <- Hg2. apply pal_rep_set_map; [done..|by apply alen_fill].
  - by rewrite set_pool_mem.
Qed.

(** ** Used pages *)
Definition used (s : palloc) (K U : list bool) (q : Z) : Prop :=
  exists user i, q = base (get_pool user s) + PGSIZE * i /\ (pick user K U).[i] = Some true.

(** A page has one number in one pool. *)
Lemma page_inj s K U u1 u2 i1 i2 :
  pal_rep s K U -> 0 <= i1 < alen (pick u1 K U) -> 0 <= i2 < alen (pick u2 K U) ->
  base (get_pool u1 s) + PGSIZE * i1 = base (get_pool u2 s) + PGSIZE * i2 -> u1 = u2 /\ i1 = i2.
Proof.
  intros [_ _ Hd] H1 H2 E. change PGSIZE with 4096 in *. destruct u1, u2; simpl in *; split; try done; lia.
Qed.

Lemma pick_upd user bs K U : pick user (upd_k user bs K) (upd_u user bs U) = bs.
Proof. by destruct user. Qed.

Lemma pick_upd_ne user user' bs K U :
  user' <> user -> pick user' (upd_k user bs K) (upd_u user bs U) = pick user' K U.
Proof. by destruct user, user'. Qed.

Lemma used_fill s s' K U user i cnt v q :
  pal_rep s K U -> same_layout s s' -> in_range (pick user K U) i cnt ->
  let bs := fill (pick user K U) i cnt v in
  let p := base (get_pool user s) + PGSIZE * i in
  used s' (upd_k user bs K) (upd_u user bs U) q <->
  (in_block p cnt q /\ v = true) \/ (~ in_block p cnt q /\ used s K U q).
Proof.
  intros Hrep Hsl Hr bs p. pose proof Hr as (Hi & Hc & Hlen). split.
  - intros (u & j & -> & Hj). rewrite (same_layout_get _ _ _ Hsl).
    destruct (decide (u = user)) as [->|Hne].
    + rewrite pick_upd in Hj. unfold bs in Hj. rewrite aget_fill in Hj by done. case_decide as Hd.
      * left. split; [|congruence]. exists (j - i). unfold p. split; [lia|ring].
      * right. split; [|by exists user, j]. intros (k & Hk & E). unfold p in E.
        change PGSIZE with 4096 in E. lia.
    + rewrite pick_upd_ne in Hj by done. right. split; [|by exists u, j].
      intros (k & Hk & E). apply Hne. unfold p in E.
      replace (base (get_pool user s) + PGSIZE * i + PGSIZE * k)
        with (base (get_pool user s) + PGSIZE * (i + k)) in E by ring.
      pose proof (aget_lt _ _ _ Hj). by eapply page_inj in E as [? _]; [|done|lia..].
  - intros [[(k & Hk & ->) ->]|[Hni (u & j & -> & Hj)]].
    + exists user, (i + k). rewrite (same_layout_get _ _ _ Hsl). split; [unfold p; ring|].
      rewrite pick_upd. unfold bs. rewrite aget_fill by done. by rewrite decide_True by lia.
    + exists u, j. rewrite (same_layout_get _ _ _ Hsl). split; [done|].
      destruct (decide (u = user)) as [->|Hne]; [|by rewrite pick_upd_ne].
      rewrite pick_upd. unfold bs. rewrite aget_fill by done. rewrite decide_False; [done|].
      intros Hd. apply Hni. exists (j - i). unfold p. split; [lia|ring].
Qed.

(** ** Live blocks

    [live] maps the address of every block handed out and not freed to its
    number of pages. *)
Record live_ok (s : palloc) (K U : list bool) (live : gmap Z Z) : Prop := {
  lv_rep : pal_rep s K U;
  lv_block : forall p c, live !! p = Some c ->
    0 < c /\ exists user i, p = base (get_pool user s) + PGSIZE * i /\ in_range (pick user K U) i c;
  lv_used : forall q, used s K U q <-> exists p c, live !! p = Some c /\ in_block p c q;
  lv_disjoint : forall p1 c1 p2 c2 q, live !! p1 = Some c1 -> live !! p2 = Some c2 ->
    in_block p1 c1 q -> in_block p2 c2 q -> p1 = p2
}.

Lemma in_block_first p c : 0 < c -> in_block p c p.
Proof. intros Hc. exists 0. split; [lia|ring]. Qed.

Lemma in_range_upd user user' bs K U i c :
  alen bs = alen (pick user K U) -> in_range (pick user' K U) i c ->
  in_range (pick user' (upd_k user bs K) (upd_u user bs U)) i c.
Proof. unfold in_range. destruct user, user'; simpl; intros E; by rewrite ?E. Qed.

Lemma blocks_upd s s' K U live user bs :
  live_ok s K U live -> same_layout s s' -> alen bs = alen (pick user K U) ->
  forall p c, live !! p = Some c -> 0 < c /\ exists user' i,
    p = base (get_pool user' s') + PGSIZE * i /\
    in_range (pick user' (upd_k user bs K) (upd_u user bs U)) i c.
Proof.
  intros Hlv Hsl Hlen p c Hp. destruct (lv_block _ _ _ _ Hlv p c Hp) as (Hc & u & i & -> & Hr).
  split; [done|]. exists u, i. rewrite (same_layout_get _ _ _ Hsl). split; [done|].
  by apply in_range_upd.
Qed.

(** A block of pages that were free is disjoint from every live block. *)
Lemma live_apart s K U live user i cnt :
  live_ok s K U live -> group (pick user K U) cnt false i ->
  forall p' c' q, live !! p' = Some c' -> in_block p' c' q -> ~ in_block (base (get_pool user s) + PGSIZE * i) cnt q.
Proof.
  intros Hlv [Hr Hfree] p' c' q Hp' Hq (k & Hk & ->). destruct (proj2 (lv_used _ _ _ _ Hlv (base (get_pool user s) + PGSIZE * i + PGSIZE * k))) as (u & j & E & Hj); [eauto|].
  destruct Hr as (Hi & _ & Hlen).
  replace (base (get_pool user s) + PGSIZE * i + PGSIZE * k)
    with (base (get_pool user s) + PGSIZE * (i + k)) in E by ring.
  pose proof (aget_lt _ _ _ Hj) as Hjr.
  destruct (page_inj _ _ _ user u (i + k) j (lv_rep _ _ _ _ Hlv)) as [-> <-]; [lia|lia|done|].
  rewrite Hfree in Hj by lia. done.
Qed.

Lemma live_fresh s K U live user i cnt :
  live_ok s K U live -> 0 < cnt -> group (pick user K U) cnt false i -> live !! (base (get_pool user s) + PGSIZE * i) = None.
Proof.
  intros Hlv Hc Hg. destruct (live !! _) as [c'|] eqn:E; [|done]. destruct (lv_block _ _ _ _ Hlv _ c' E) as [Hc' _].
  exfalso. eapply live_apart; [exact Hlv|exact Hg|exact E|by apply in_block_first..].
Qed.

Lemma live_get s s' K U live user i cnt :
  live_ok s K U live -> same_layout s s' -> 0 < cnt -> group (pick user K U) cnt false i ->
  let bs := fill (pick user K U) i cnt true in
  let p := base (get_pool user s) + PGSIZE * i in
  pal_rep s' (upd_k user bs K) (upd_u user bs U) ->
  live_ok s' (upd_k user bs K) (upd_u user bs U) (<[p := cnt]> live).
Proof.
  intros Hlv Hsl Hc Hg bs p Hrep'. pose proof (lv_rep _ _ _ _ Hlv) as Hrep. pose proof (live_fresh _ _ _ _ _ _ _ Hlv Hc Hg) as Hfresh. fold p in Hfresh.
  assert (forall p' c' q, live !! p' = Some c' -> in_block p' c' q -> ~ in_block p cnt q) as Hdis by (by eapply live_apart). destruct Hg as [Hr _].
  split; [done| | |].
  - intros p' c'. rewrite lookup_insert_Some. intros [[<- <-]|[_ Hp']].
    + split; [done|]. exists user, i. rewrite (same_layout_get _ _ _ Hsl). split; [done|].
      apply in_range_upd; [by apply alen_fill|done].
    + eapply blocks_upd; [done..| |done]. by apply alen_fill.
  - intros q. unfold bs. rewrite (used_fill _ _ _ _ _ _ _ _ _ Hrep Hsl Hr). fold p. rewrite (lv_used _ _ _ _ Hlv).
    split.
    + intros [[Hq _]|[_ (p' & c' & Hp' & Hq)]].
      * exists p, cnt. by rewrite lookup_insert_eq.
      * exists p', c'. split; [|done]. rewrite lookup_insert_ne; [done|]. intros <-. congruence.
    + intros (p' & c' & [[<- <-]|[_ Hp']]%lookup_insert_Some & Hq); [by left|].
      right. split; [by eapply Hdis|eauto].
  - intros p1 c1 p2 c2 q [[<- <-]|[Hn1 H1]]%lookup_insert_Some [[<- <-]|[Hn2 H2]]%lookup_insert_Some Hq1 Hq2.
    + done.
    + exfalso. by eapply Hdis.
    + exfalso. by eapply Hdis.
    + by eapply (lv_disjoint _ _ _ _ Hlv).
Qed.

Lemma live_group s K U live p c user i :
  live_ok s K U live -> live !! p = Some c -> p = base (get_pool user s) + PGSIZE * i ->
  in_range (pick user K U) i c -> group (pick user K U) c true i.
Proof.
  intros Hlv Hp -> Hr. split; [done|]. intros j Hj.
  assert (used s K U (base (get_pool user s) + PGSIZE * j)) as (u & k & E & Hk).
  { apply (lv_used _ _ _ _ Hlv). eexists _, c. split; [exact Hp|]. exists (j - i). split; [lia|ring]. }
  destruct Hr as (Hi & _ & Hlen). pose proof (aget_lt _ _ _ Hk) as Hkr.
  by destruct (page_inj _ _ _ user u j k (lv_rep _ _ _ _ Hlv)) as [-> ->]; [lia|lia|done|].
Qed.

Lemma live_free s s' K U live user i cnt :
  live_ok s K U live -> same_layout s s' -> in_range (pick user K U) i cnt ->
  let bs := fill (pick user K U) i cnt false in
  let p := base (get_pool user s) + PGSIZE * i in
  live !! p = Some cnt ->
  pal_rep s' (upd_k user bs K) (upd_u user bs U) ->
  live_ok s' (upd_k user bs K) (upd_u user bs U) (delete p live).
Proof.
  intros Hlv Hsl Hr bs p Hp Hrep'. pose proof (lv_rep _ _ _ _ Hlv) as Hrep.
  split; [done| | |].
  - intros p' c' [_ Hp']%lookup_delete_Some. eapply blocks_upd; [done..| |done]. by apply alen_fill.
  - intros q. unfold bs. rewrite (used_fill _ _ _ _ _ _ _ _ _ Hrep Hsl Hr). fold p. rewrite (lv_used _ _ _ _ Hlv).
    split.
    + intros [[_ [=]]|[Hn (p' & c' & Hp' & Hq)]]. exists p', c'. split; [|done].
      apply lookup_delete_Some. split; [|done]. intros <-. simplify_eq. done.
    + intros (p' & c' & [Hne Hp']%lookup_delete_Some & Hq). right. split; [|eauto].
      intros Hq'. apply Hne. by eapply (lv_disjoint _ _ _ _ Hlv).
  - intros p1 c1 p2 c2 q [_ H1]%lookup_delete_Some [_ H2]%lookup_delete_Some.
    by eapply (lv_disjoint _ _ _ _ Hlv).
Qed.

(** ** Initialisation *)
Definition mem_pages (m : gmap Z (list Z)) (first cnt : Z) : Prop :=
  forall i, 0 <= i < cnt -> exists ws, m !! (first + PGSIZE * i) = Some ws /\ length ws = WORDS /\
    Forall (fun w => 0 <= w < 2 ^ 32) ws.

Lemma bm_pages_one cnt : 0 <= cnt <= 2 ^ 14 -> DIV_ROUND_UP (bitmap_buf_size cnt) PGSIZE = 1.
Proof.
  intros Hc. pose proof (DIV_ROUND_UP_bounds cnt 32 ltac:(lia) ltac:(lia) ltac:(lia)) as Hd.
  unfold bitmap_buf_size, byte_cnt, elem_cnt, SIZEOF_BITMAP, ELEM_BITS.
  rewrite (wrap_small 32 (4 * _)), wrap_small by lia. unfold DIV_ROUND_UP at 1.
  change PGSIZE with 4096. rewrite wrap_small by lia. symmetry.
  apply Z.div_unique_pos with (8 + 4 * DIV_ROUND_UP cnt 32 - 1); lia.
Qed.

Lemma init_pool_ok user pbase cnt s :
  1 <= cnt <= 2 ^ 14 -> PHYS_BASE <= pbase -> pbase mod PGSIZE = 0 ->
  pbase + PGSIZE * cnt < 2 ^ 32 -> mem_pages (mem s) pbase cnt ->
  wp (init_pool user pbase cnt) (fun _ s' => exists p,
    s' = set_pool user p s /\ base p = pbase + PGSIZE /\
    pool_rep (mem s) p (replicate (Z.to_nat (cnt - 1)) false)) s.
Proof.
  intros Hc Hlo Hal Hhi Hmem. unfold init_pool. rewrite bm_pages_one by lia.
  rewrite (proj2 (Z.ltb_ge _ _)) by lia. do 4 wp_step. cbv zeta. wp_step.
  destruct (Hmem 0) as (ws & Hws & Hl & Hwr); [lia|]. rewrite Z.mul_0_r, Z.add_0_r in Hws.
  eapply (wp_deref _ ws). { simpl. rewrite Hws. simpl. by rewrite app_nil_r. }
  change PGSIZE with 4096 in *. change PHYS_BASE with 0xc0000000 in *.
  rewrite !(wrap_small 32) by (rewrite ?(wrap_small 32); lia).
  destruct (bitmap_create_in_buf_ok (cnt - 1) (drop 2 ws) (1 * 4096)) as (b & -> & Hb).
  - lia.
  - unfold ELEM_BITS. lia.
  - pose proof (DIV_ROUND_UP_bounds (cnt - 1) 32 ltac:(lia) ltac:(lia) ltac:(lia)) as Hd.
    unfold bitmap_buf_size, byte_cnt, elem_cnt, SIZEOF_BITMAP, ELEM_BITS.
    rewrite (wrap_small 32 (4 * _)), wrap_small by lia. lia.
  - unfold alen, SIZEOF_BITMAP. rewrite length_drop, Hl. unfold WORDS. lia.
  - by apply Forall_drop.
  - wp_step. eexists. split; [reflexivity|]. split; [simpl; lia|].
    assert (alen (replicate (Z.to_nat (cnt - 1)) false) = cnt - 1) as Hlen
      by (unfold alen; rewrite length_replicate; lia).
    split; rewrite ?Hlen; change PGSIZE with 4096; change PHYS_BASE with 0xc0000000; simpl base.
    + done.
    + change (1 * 4096) with 4096. rewrite <- (Z.mod_add pbase 1 4096) in Hal by lia. exact Hal.
    + lia.
    + lia.
    + intros i Hi. destruct (Hmem (i + 1)) as (ws' & Hws' & Hl' & _); [lia|]. exists ws'.
      split; [|done]. rewrite <- Hws'. f_equal. change PGSIZE with 4096. lia.
Qed.

Lemma ptov_ok {S} a (s : S) : 0 <= a < 2 ^ 30 -> ptov a s = Ok (a + PHYS_BASE, s).
Proof.
  intros Ha. unfold ptov, mbind, M_bind, assert, mret, M_ret. change PHYS_BASE with 0xc0000000.
  rewrite (proj2 (Z.ltb_lt _ _)), wrap_small by lia. done.
Qed.

Lemma no_used_replicate s n k q : ~ used s (replicate n false) (replicate k false) q.
Proof.
  intros (u & i & _ & [_ Hi]%aget_Some). destruct u; simpl in Hi;
    by apply lookup_replicate in Hi as [? _].
Qed.

Lemma live_ok_empty s n k :
  pal_rep s (replicate n false) (replicate k false) ->
  live_ok s (replicate n false) (replicate k false) ∅.
Proof.
  intros Hrep. split; [done|by intros ? ? []%lookup_empty_Some| |by intros ? ? ? ? ? []%lookup_empty_Some].
  intros q. split; [by intros []%no_used_replicate|]. by intros (? & ? & []%lookup_empty_Some & _).
Qed.

(** The user pool gets half of the free pages, within the limit. *)
Definition user_share (limit free : Z) : Z := if limit <? free / 2 then limit else free / 2.

Lemma palloc_init_ok s limit :
  258 <= init_ram_pages s <= 2 ^ 14 -> 1 <= limit < 2 ^ 32 ->
  mem_pages (mem s) (PHYS_BASE + 2 ^ 20) (init_ram_pages s - 256) ->
  wp (palloc_init limit) (fun _ s' => exists nk nu : nat,
    live_ok s' (replicate nk false) (replicate nu false) ∅ /\
    Z.of_nat nu + 1 = user_share limit (init_ram_pages s - 256) /\
    Z.of_nat nk + Z.of_nat nu + 2 = init_ram_pages s - 256 /\ init_ram_pages s' = init_ram_pages s) s.
Proof.
  intros HR Hlim Hmem. set (R := init_ram_pages s) in *. unfold palloc_init.
  do 2 wp_step. wp_step. eapply wp_eq; [apply ptov_ok; lia|].
  wp_step. fold R. change PGSIZE with 4096. rewrite (wrap_small 32 (R * 4096)) by lia.
  eapply wp_eq; [apply ptov_ok; lia|].
  assert (u32 (Z.quot (s32 (R * 4096 + PHYS_BASE - (1024 * 1024 + PHYS_BASE))) 4096) = R - 256) as ->.
  { rewrite swrap_small by lia.
    replace (R * 4096 + PHYS_BASE - (1024 * 1024 + PHYS_BASE)) with ((R - 256) * 4096) by ring.
    rewrite Z.quot_mul by lia. apply wrap_small. lia. }
  fold (user_share limit (R - 256)). set (u := user_share limit (R - 256)).
  assert (1 <= u <= (R - 256) / 2) as Hu.
  { unfold u, user_share. assert (1 <= (R - 256) / 2) by (apply Z.div_le_lower_bound; lia).
    destruct (Z.ltb_spec limit ((R - 256) / 2)); lia. }
  assert ((R - 256) / 2 * 2 <= R - 256) by (pose proof (Z.mul_div_le (R - 256) 2); lia).
  rewrite (wrap_small 32 (R - 256 - u)) by lia. cbv zeta.
  change PHYS_BASE with 0xc0000000 in *. wp_step.
  eapply wp_mono; [apply init_pool_ok; [lia|change PHYS_BASE with 0xc0000000; lia|reflexivity| |]|].
  { change PGSIZE with 4096. lia. }
  { intros i Hi. destruct (Hmem i) as (ws & Hws); [lia|]. exists ws. exact Hws. }
  intros [] s1 (pk & -> & Hbk & Hpk).
  rewrite (wrap_small 32 ((R - 256 - u) * 4096)) by lia. rewrite wrap_small by lia.
  eapply wp_mono; [apply init_pool_ok; [lia|change PHYS_BASE with 0xc0000000; lia| | |]|].
  { change PGSIZE with 4096. rewrite Z.mod_add by lia. done. }
  { change PGSIZE with 4096. lia. }
  { intros i Hi. destruct (Hmem (R - 256 - u + i)) as (ws & Hws); [lia|]. exists ws.
    change PGSIZE with 4096 in *. simpl mem.
    by replace (1024 * 1024 + 3221225472 + (R - 256 - u) * 4096 + 4096 * i)
      with (3221225472 + 2 ^ 20 + 4096 * (R - 256 - u + i)) by ring. }
  intros [] s2 (pu & -> & Hbu & Hpu). simpl in Hpu.
  exists (Z.to_nat (R - 256 - u - 1)), (Z.to_nat (u - 1)). split; [|split; [lia|split; [lia|done]]].
  apply live_ok_empty. split; simpl; [done..|]. rewrite Hbk, Hbu. unfold alen.
  rewrite length_replicate. change PGSIZE with 4096. lia.
Qed.

(** On a machine with 258 pages to 64 MB of memory, [palloc_init] with a
    limit of at least one user page succeeds: every page above the first
    megabyte is in one of the pools, except the page that holds the bitmap of
    each, the pools do not overlap, and all their pages are free. *)
Theorem palloc_init_all_free s limit :
  258 <= init_ram_pages s <= 2 ^ 14 -> 1 <= limit < 2 ^ 32 ->
  mem_pages (mem s) (PHYS_BASE + 2 ^ 20) (init_ram_pages s - 256) ->
  wp (palloc_init limit) (fun _ s' => exists nk nu : nat,
    live_ok s' (replicate nk false) (replicate nu false) ∅ /\
    Z.of_nat nu + 1 = user_share limit (init_ram_pages s - 256) /\
    Z.of_nat nk + Z.of_nat nu + 2 = init_ram_pages s - 256) s.
Proof. intros H1 H2 H3. eapply wp_mono; [by apply palloc_init_ok|]. intros [] s' (nk & nu & A1 & A2 & A3 & _). by exists nk, nu. Qed.

(** Memory of 300 pages. *)
Definition demo_mem : gmap Z (list Z) :=
  list_to_map (map (fun i => (PHYS_BASE + 2 ^ 20 + PGSIZE * Z.of_nat i, filled 7)) (seq 0 44)).
Definition demo_boot : palloc := Palloc (Pool (Bitmap 0 []) 0) (Pool (Bitmap 0 []) 0) demo_mem 300.

Lemma demo_mem_pages : mem_pages demo_mem (PHYS_BASE + 2 ^ 20) 44.
Proof.
  intros i Hi. exists (filled 7). split; [|split; [apply length_filled|]].
  - apply elem_of_list_to_map.
    + rewrite map_map. apply NoDup_fmap_2_strong; [|apply NoDup_seq].
      intros x y _ _. simpl. change PGSIZE with 4096. lia.
    + apply list_elem_of_fmap. exists (Z.to_nat i). rewrite Z2Nat.id by lia.
      split; [done|]. apply elem_of_seq. lia.
  - apply Forall_replicate. lia.
Qed.

Lemma palloc_init_all_free_witness :
  wp (palloc_init 10) (fun _ s' => exists nk nu : nat,
    live_ok s' (replicate nk false) (replicate nu false) ∅ /\ nu = 9%nat /\ nk = 33%nat) demo_boot.
Proof.
  assert (258 <= init_ram_pages demo_boot <= 2 ^ 14) as HR by (simpl; lia).
  pose proof (palloc_init_all_free demo_boot 10 HR ltac:(lia) demo_mem_pages) as H.
  eapply wp_mono; [exact H|]. intros [] s' (nk & nu & Hlv & Hnu & Hnk).
  exists nk, nu. split; [exact Hlv|]. vm_compute (user_share _ _) in Hnu. simpl in *. lia.
Defined.

(** Live blocks as intervals of addresses. *)
Lemma live_block_facts s K U live p c : live_ok s K U live -> live !! p = Some c ->
  PHYS_BASE <= p /\ p mod PGSIZE = 0 /\ 0 < c /\ p + PGSIZE * c <= 2 ^ 32.
Proof.
  intros Hlv Hp. destruct (lv_block _ _ _ _ Hlv p c Hp) as (Hc & user & i & -> & (Hi & _ & Hlen)).
  destruct (pal_pool _ _ _ user (lv_rep _ _ _ _ Hlv)) as [_ Hal Hb He _]. assert (PGSIZE = 4096) as E by done. rewrite E in *.
  split; [lia|]. split; [|lia]. by rewrite (Z.mul_comm 4096 i), Z.mod_add by lia.
Qed.

Lemma live_blocks_apart s K U live p c p' c' : live_ok s K U live -> live !! p = Some c -> live !! p' = Some c' -> p <> p' ->
  p + PGSIZE * c <= p' \/ p' + PGSIZE * c' <= p.
Proof.
  intros Hlv Hp Hp' Hne. destruct (lv_block _ _ _ _ Hlv p c Hp) as (Hc & u & i & E & (Hi & _ & Hlen)).
  destruct (lv_block _ _ _ _ Hlv p' c' Hp') as (Hc' & u' & i' & E' & (Hi' & _ & Hlen')).
  pose proof (pal_disjoint _ _ _ (lv_rep _ _ _ _ Hlv)) as Hd. assert (PGSIZE = 4096) as Epg by done. rewrite Epg in *.
  destruct (decide (u = u')) as [<-|Hu]; [|destruct u, u'; simpl in *; (done || lia)].
  destruct (decide (i + c <= i')); [lia|]. destruct (decide (i' + c' <= i)); [lia|].
  exfalso. apply Hne. apply (lv_disjoint _ _ _ _ Hlv p c p' c' (base (get_pool u s) + PGSIZE * Z.max i i') Hp Hp'); rewrite Epg.
  - exists (Z.max i i' - i). rewrite Epg. lia.
  - exists (Z.max i i' - i'). rewrite Epg. lia.
Qed.

Lemma get_live flags cnt s K U live :
  live_ok s K U live -> 0 < cnt -> flag flags PAL_ASSERT = false ->
  wp (palloc_get_multiple flags cnt) (fun p s' => exists K' U',
    p = 0 /\ live_ok s' K' U' live \/ p <> 0 /\ live !! p = None /\ live_ok s' K' U' (<[p := cnt]> live)) s.
Proof.
  intros Hlv Hc Ha. pose proof (lv_rep _ _ _ _ Hlv) as Hrep. eapply wp_mono; [apply palloc_get_multiple_ok; [done|lia|by rewrite Ha]|].
  intros p s' (Hsl & [(-> & _ & Hrep' & _)|(i & -> & Hnz & Hg & _ & Hrep' & _)]).
  - exists K, U. left. split; [done|]. split; [done| | |apply Hlv].
    + intros p c Hp. destruct (lv_block _ _ _ _ Hlv p c Hp) as (? & u & i & -> & Hr).
      split; [done|]. exists u, i. by rewrite (same_layout_get _ _ _ Hsl).
    + intros q. rewrite <- (lv_used _ _ _ _ Hlv). unfold used.
      by setoid_rewrite (same_layout_get _ _ _ Hsl).
  - eexists _, _. right. split; [done|]. split; [by eapply live_fresh|]. apply live_get; [done..|lia|done|done].
Qed.

Lemma free_live p cnt s K U live :
  live_ok s K U live -> live !! p = Some cnt -> wp (palloc_free_multiple p cnt) (fun _ s' => exists K' U', live_ok s' K' U' (delete p live)) s.
Proof.
  intros Hlv Hp. pose proof (lv_rep _ _ _ _ Hlv) as Hrep. destruct (lv_block _ _ _ _ Hlv p cnt Hp) as (Hc & user & i & -> & Hr).
  eapply wp_mono; [apply palloc_free_multiple_ok; [done..|by eapply live_group]|].
  intros [] s' (Hsl & Hrep' & _). eexists _, _. by apply live_free.
Qed.

(** ** Sequences of allocations and releases

    [OpFree p] releases the live block at [p], when there is one. *)
Inductive pal_op := OpGet (flags cnt : Z) | OpFree (p : Z).

Definition run_pal_op (o : pal_op) (live : gmap Z Z) : M palloc (gmap Z Z) :=
  match o with
  | OpGet flags cnt =>
    p ← palloc_get_multiple flags cnt;
    mret (if p =? 0 then live else <[p := cnt]> live)
  | OpFree p =>
    match live !! p with
    | Some cnt => palloc_free_multiple p cnt;; mret (delete p live)
    | None => mret live
    end
  end.

Fixpoint run_pal_ops (os : list pal_op) (live : gmap Z Z) : M palloc (gmap Z Z) :=
  match os with
  | [] => mret live
  | o :: os => live' ← run_pal_op o live; run_pal_ops os live'
  end.

Definition pal_op_ok (o : pal_op) : Prop :=
  match o with OpGet flags cnt => 0 <= cnt /\ flag flags PAL_ASSERT = false | OpFree _ => True end.

Lemma run_pal_op_ok o s K U live :
  live_ok s K U live -> pal_op_ok o ->
  wp (run_pal_op o live) (fun live' s' => exists K' U', live_ok s' K' U' live') s.
Proof.
  intros Hlv Ho. destruct o as [flags cnt|p]; simpl.
  - destruct Ho as [Hc Ha]. destruct (decide (cnt = 0)) as [->|Hne].
    { wp_step. unfold palloc_get_multiple. simpl. do 2 wp_step. by exists K, U. }
    wp_step. eapply wp_mono; [apply (get_live flags cnt s K U live Hlv); [lia|done]|]. intros p s' (K' & U' & [[-> H]|(Hp & _ & H)]); wp_step; exists K', U'; [done|].
    by rewrite (proj2 (Z.eqb_neq _ 0)) by done.
  - destruct (live !! p) as [cnt|] eqn:Hp; [|wp_step; by exists K, U].
    wp_step. eapply wp_mono; [by apply (free_live p cnt s K U live)|]. intros [] s' H. by wp_step.
Qed.

(** C7 No page is ever handed out twice.  From a state where the used pages
    are those of the live blocks, any sequence of allocations (without
    [PAL_ASSERT]) and releases of live blocks runs without a failed assertion
    or a panic; at the end the live blocks are still pairwise disjoint, inside
    one pool each, and the bitmaps mark exactly their pages. *)
Theorem palloc_blocks_never_overlap os s K U live :
  live_ok s K U live -> Forall pal_op_ok os ->
  wp (run_pal_ops os live) (fun live' s' => exists K' U', live_ok s' K' U' live') s.
Proof.
  intros Hlv Hos. revert s K U live Hlv. induction Hos as [|o os Ho _ IH]; intros s K U live Hlv; simpl.
  - wp_step. by exists K, U.
  - wp_step. eapply wp_mono; [by apply (run_pal_op_ok o _ K U)|].
    intros live' s' (K' & U' & Hlv'). by eapply IH.
Qed.

Lemma palloc_blocks_never_overlap_witness :
  wp (palloc_init 10;; run_pal_ops [OpGet 2 3; OpGet 4 1; OpFree (PHYS_BASE + 2 ^ 20 + PGSIZE); OpGet 0 2] ∅)
    (fun live' s' => exists K' U', live_ok s' K' U' live') demo_boot.
Proof.
  wp_step. eapply wp_mono.
  - apply (palloc_init_ok demo_boot 10); [simpl; lia|lia|exact demo_mem_pages].
  - intros [] s' (nk & nu & Hlv & _).
    apply (palloc_blocks_never_overlap _ _ _ _ _ Hlv).
    repeat constructor; simpl; lia || reflexivity.
Defined.
