(* ===== verification/Malloc.v ===== *)
(** * The block allocator (src/threads/malloc.c)

    [malloc] serves small requests from descriptors, one for each power of 2
    from 16 to 1024 bytes, which divide pages (arenas) into blocks and keep lists
    of free ones, and large requests with pages of their own.  The state has the
    descriptors, the arenas by address, and the contents of memory, which
    [calloc] and [realloc] write; the headers of arenas and the links of free
    blocks are these typed views of memory outside the blocks that are in use.
    Pages come from an interface, [PageSource], which Palloc implements.  A lock
    is held around each operation, which is atomic here.

    Theorems: blocks in use are pairwise disjoint and as large as was asked for,
    every operation keeps the contents of the others, [calloc] clears and
    [realloc] copies; and what goes wrong with sizes near 4 GB. *)

From S2P Require Import Prelude Vaddr Bitmap Palloc.

(** What the allocator uses of the page allocator: consecutive pages. *)
Class PageSource (P : Type) := {
  get_pages : Z -> M P Z;
  free_pages : Z -> Z -> M P unit
}.

Record desc := Desc { block_size : Z; blocks_per_arena : Z; free_list : list Z }.
(** [a_desc] is the index of the descriptor, [None] for a big block. *)
Record arena := Arena { a_desc : option Z; free_cnt : Z }.

Record heap {P : Type} := Heap { pages : P; descs : list desc; arenas : gmap Z arena; contents : Z -> Z }.
Arguments heap : clear implicits.

Definition ARENA_SIZE : Z := 12.
Definition DESCS : Z := 10.

Section malloc.
Context {P : Type} `{!PageSource P}.
Abbreviation H := (heap P).

Definition set_pages (x : P) (s : H) : H := Heap P x (descs s) (arenas s) (contents s).
Definition set_descs (l : list desc) (s : H) : H := Heap P (pages s) l (arenas s) (contents s).
Definition set_arenas (m : gmap Z arena) (s : H) : H := Heap P (pages s) (descs s) m (contents s).
Definition set_contents (c : Z -> Z) (s : H) : H := Heap P (pages s) (descs s) (arenas s) c.

Definition on_pages {A} (m : M P A) : M H A := fun s =>
  match m (pages s) with Ok (a, x) => Ok (a, set_pages x s) | Err e => Err e end.

Definition get_desc (d : Z) : M H desc := s ← get; deref (descs s).[d].
Definition put_desc (d : Z) (x : desc) : M H unit := modify (fun s => set_descs (descs s).[d <- x] s).
(** The magic number of a page that is not an arena is wrong. *)
Definition get_arena (a : Z) : M H arena := s ← get; match arenas s !! a with Some x => mret x | None => fail AssertFail end.
Definition put_arena (a : Z) (x : arena) : M H unit := modify (fun s => set_arenas (<[a := x]> (arenas s)) s).
Definition set_free_list (l : list Z) (x : desc) : desc := Desc (block_size x) (blocks_per_arena x) l.

Definition memset (p value n : Z) : M H unit :=
  modify (fun s => set_contents (fun q => if decide (p <= q < p + n) then value else contents s q) s).
Definition memcpy (dst src n : Z) : M H unit :=
  modify (fun s => set_contents (fun q => if decide (dst <= q < dst + n) then contents s (src + (q - dst)) else contents s q) s).

(** One turn of the loop of [malloc_init]. *)
Definition init_turn (block_size : Z) : M H (Z + unit) :=
  if block_size <? PGSIZE / 2 then
    s ← get;
    assert (alen (descs s) + 1 <=? DESCS);;
    put (set_descs (descs s ++ [Desc block_size ((PGSIZE - ARENA_SIZE) / block_size) []]) s);;
    mret (inl (block_size * 2))
  else mret (inr tt).
Definition malloc_init : M H unit := loop 12 init_turn 16.

Definition block_to_arena (b : Z) : M H Z :=
  let a := pg_round_down b in
  assert (negb (a =? 0));;
  x ← get_arena a;
  match a_desc x with
  | Some d => ds ← get_desc d; assert (u32 (pg_ofs b - ARENA_SIZE) mod block_size ds =? 0)
  | None => assert (pg_ofs b =? ARENA_SIZE)
  end;;
  mret a.

Definition arena_to_block (a idx : Z) : M H Z :=
  assert (negb (a =? 0));;
  x ← get_arena a;
  d ← deref (a_desc x);
  ds ← get_desc d;
  assert (idx <? blocks_per_arena ds);;
  mret (a + ARENA_SIZE + idx * block_size ds).

(** The first descriptor whose blocks are large enough. *)
Fixpoint find_desc (size : Z) (l : list desc) (i : Z) : option Z :=
  match l with
  | [] => None
  | d :: l => if size <=? block_size d then Some i else find_desc size l (i + 1)
  end.

(** Blocks onto and off the free list of a descriptor. *)
Definition list_push_back (d b : Z) : M H unit := x ← get_desc d; put_desc d (set_free_list (free_list x ++ [b]) x).
Definition list_push_front (d b : Z) : M H unit := x ← get_desc d; put_desc d (set_free_list (b :: free_list x) x).
Definition list_pop_front (d : Z) : M H Z :=
  x ← get_desc d;
  match free_list x with
  | [] => fail AssertFail
  | b :: l => put_desc d (set_free_list l x);; mret b
  end.
Definition list_remove (d b : Z) : M H unit :=
  x ← get_desc d;
  if bool_decide (b ∈ free_list x) then put_desc d (set_free_list (filter (fun q => q <> b) (free_list x)) x) else fail BadPointer.

(** A new page of blocks, when the free list is empty. *)
Definition new_arena (d : Z) : M H bool :=
  x ← get_desc d;
  a ← on_pages (get_pages 1);
  if a =? 0 then mret false else
  put_arena a (Arena (Some d) (blocks_per_arena x));;
  for_ (Z.to_nat (blocks_per_arena x)) 0 (fun i => b ← arena_to_block a i; list_push_back d b);;
  mret true.

Definition malloc (size : Z) : M H Z :=
  if size =? 0 then mret 0 else
  s ← get;
  match find_desc size (descs s) 0 with
  | None =>
    let page_cnt := DIV_ROUND_UP (u32 (size + ARENA_SIZE)) PGSIZE in
    a ← on_pages (get_pages page_cnt);
    if a =? 0 then mret 0 else
    put_arena a (Arena None page_cnt);;
    mret (a + ARENA_SIZE)
  | Some d =>
    x ← get_desc d;
    ok ← (if bool_decide (free_list x = []) then new_arena d else mret true);
    if negb ok then mret 0 else
    b ← list_pop_front d;
    a ← block_to_arena b;
    y ← get_arena a;
    put_arena a (Arena (a_desc y) (u32 (free_cnt y - 1)));;
    mret b
  end.

(** [palloc_free_multiple] fills the pages. *)
Definition free (p : Z) : M H unit :=
  if p =? 0 then mret () else
  a ← block_to_arena p;
  x ← get_arena a;
  match a_desc x with
  | Some d =>
    ds ← get_desc d;
    memset p 0xcc (block_size ds);;
    list_push_front d p;;
    let cnt := u32 (free_cnt x + 1) in
    put_arena a (Arena (Some d) cnt);;
    if blocks_per_arena ds <=? cnt then
      assert (cnt =? blocks_per_arena ds);;
      for_ (Z.to_nat (blocks_per_arena ds)) 0 (fun i => b ← arena_to_block a i; list_remove d b);;
      modify (fun s => set_arenas (delete a (arenas s)) s);;
      memset a 0xcc PGSIZE;;
      on_pages (free_pages a 1)
    else mret ()
  | None =>
    modify (fun s => set_arenas (delete a (arenas s)) s);;
    memset a 0xcc (PGSIZE * free_cnt x);;
    on_pages (free_pages a (free_cnt x))
  end.

Definition calloc (a b : Z) : M H Z :=
  let size := u32 (a * b) in
  if (size <? a) || (size <? b) then mret 0 else
  p ← malloc size;
  (if negb (p =? 0) then memset p 0 size else mret ());;
  mret p.

Definition size_of_block (block : Z) : M H Z :=
  a ← block_to_arena block;
  x ← get_arena a;
  match a_desc x with
  | Some d => ds ← get_desc d; mret (block_size ds)
  | None => mret (u32 (PGSIZE * free_cnt x - pg_ofs block))
  end.

Definition realloc (old_block new_size : Z) : M H Z :=
  if new_size =? 0 then free old_block;; mret 0 else
  new_block ← malloc new_size;
  (if negb (old_block =? 0) && negb (new_block =? 0) then
     old_size ← size_of_block old_block;
     memcpy new_block old_block (if new_size <? old_size then new_size else old_size);;
     free old_block
   else mret ());;
  mret new_block.
End malloc.

(** What the allocator relies on of the page allocator: the pages that it owns,
    by the address of each run of pages. *)
Class PageLaws (P : Type) `{!PageSource P} := {
  owns : P -> gmap Z Z -> Prop;
  owns_block s G a n : owns s G -> G !! a = Some n -> PHYS_BASE <= a /\ a mod PGSIZE = 0 /\ 0 < n /\ a + PGSIZE * n <= 2 ^ 32;
  owns_apart s G a n b m : owns s G -> G !! a = Some n -> G !! b = Some m -> a <> b -> a + PGSIZE * n <= b \/ b + PGSIZE * m <= a;
  get_pages_ok s G n : owns s G -> 0 < n ->
    wp (get_pages n) (fun a s' => a = 0 /\ owns s' G \/ a <> 0 /\ G !! a = None /\ owns s' (<[a := n]> G)) s;
  get_no_pages s : get_pages 0 s = Ok (0, s);
  free_pages_ok s G a n : owns s G -> G !! a = Some n -> wp (free_pages a n) (fun _ s' => owns s' (delete a G)) s
}.

(** ** Descriptors *)
Definition sizes : list Z := [16; 32; 64; 128; 256; 512; 1024].

Definition descs_ok (l : list desc) : Prop :=
  map block_size l = sizes /\ Forall (fun x => blocks_per_arena x = (PGSIZE - ARENA_SIZE) / block_size x) l.

Lemma desc_facts l d x : descs_ok l -> l.[d] = Some x ->
  0 < block_size x /\ 0 < blocks_per_arena x /\ blocks_per_arena x * block_size x <= PGSIZE - ARENA_SIZE /\ exists k, 0 <= k /\ block_size x = 2 ^ k /\ k <= 10.
Proof.
  intros [Hs Hb] Hx. apply aget_Some in Hx as [_ Hx]. pose proof (Forall_lookup_1 _ _ _ _ Hb Hx) as Eb. simpl in Eb.
  assert (block_size x ∈ sizes) as Hin by (rewrite <- Hs; apply list_elem_of_fmap; exists x; split; [done|by eapply list_elem_of_lookup_2]).
  rewrite Eb. unfold sizes in Hin. rewrite !elem_of_cons in Hin.
  assert (exists k, 4 <= k <= 10 /\ block_size x = 2 ^ k) as (k & Hk & ->).
  { destruct Hin as [->|[->|[->|[->|[->|[->|[->|Hin]]]]]]]; [exists 4|exists 5|exists 6|exists 7|exists 8|exists 9|exists 10|by apply elem_of_nil in Hin]; done. }
  pose proof (Z.pow_pos_nonneg 2 k ltac:(lia) ltac:(lia)). pose proof (Z.pow_le_mono_r 2 k 10 ltac:(lia) ltac:(lia)) as Hle. change (2 ^ 10) with 1024 in Hle.
  change (PGSIZE - ARENA_SIZE) with 4084. pose proof (Z.mul_div_le 4084 (2 ^ k) ltac:(lia)). split; [lia|]. split; [apply Z.div_str_pos; lia|].
  split; [lia|]. exists k. lia.
Qed.

(** The blocks of an arena. *)
Definition blocks_of (a : Z) (x : desc) : list Z := map (fun i => a + ARENA_SIZE + i * block_size x) (seqZ 0 (blocks_per_arena x)).

Lemma elem_of_blocks a x b : b ∈ blocks_of a x <-> exists i, 0 <= i < blocks_per_arena x /\ b = a + ARENA_SIZE + i * block_size x.
Proof.
  unfold blocks_of. rewrite list_elem_of_fmap. split.
  - intros (i & -> & Hi%elem_of_seqZ). exists i. split; [lia|done].
  - intros (i & Hi & ->). exists i. split; [done|]. apply elem_of_seqZ. lia.
Qed.

Lemma NoDup_blocks a x : 0 < block_size x -> NoDup (blocks_of a x).
Proof. intros Hb. apply NoDup_fmap_2_strong; [|apply NoDup_seqZ]. intros i j _ _ E. nia. Qed.

Lemma length_blocks a x : Z.of_nat (length (blocks_of a x)) = Z.max 0 (blocks_per_arena x).
Proof. unfold blocks_of. rewrite length_map, length_seqZ. lia. Qed.

(** A block is inside its page. *)
Lemma block_in_page l d x a b :
  descs_ok l -> l.[d] = Some x -> b ∈ blocks_of a x -> a + ARENA_SIZE <= b /\ b + block_size x <= a + PGSIZE.
Proof.
  intros Hl Hx (i & Hi & ->)%elem_of_blocks. destruct (desc_facts _ _ _ Hl Hx) as (H1 & H2 & H3 & _). nia.
Qed.

Lemma page_of_block a b : 0 <= a -> a mod PGSIZE = 0 -> a <= b < a + PGSIZE -> b < 2 ^ 32 -> pg_round_down b = a /\ pg_ofs b = b - a.
Proof.
  intros Ha Hal Hb H32. rewrite pg_round_down_div, pg_ofs_mod by lia. assert (PGSIZE = 4096) as E by done. rewrite E in *.
  pose proof (Z.div_mod a 4096 ltac:(lia)). pose proof (Z.div_mod b 4096 ltac:(lia)). pose proof (Z.mod_pos_bound b 4096 ltac:(lia)). lia.
Qed.

Section heap.
Context {P : Type} `{!PageSource P, !PageLaws P}.
Abbreviation H := (heap P).
Implicit Types s : H.

(** ** The invariant *)
Definition arena_pages (x : arena) : Z := match a_desc x with Some _ => 1 | None => free_cnt x end.

Record heap_ok s : Prop := {
  ho_owns : owns (pages s) (arena_pages <$> arenas s);
  ho_descs : descs_ok (descs s);
  ho_nodup : forall d x, (descs s).[d] = Some x -> NoDup (free_list x);
  ho_free : forall d x b, (descs s).[d] = Some x -> b ∈ free_list x -> exists a c, arenas s !! a = Some (Arena (Some d) c) /\ b ∈ blocks_of a x;
  ho_arena : forall a d c, arenas s !! a = Some (Arena (Some d) c) -> exists x, (descs s).[d] = Some x /\
    c = Z.of_nat (length (filter (fun b => b ∈ blocks_of a x) (free_list x)))
}.

(** A block of [n] bytes at [b], in the arena [x] at [a], is in use. *)
Definition lives_in s (a : Z) (x : arena) (b n : Z) : Prop :=
  match a_desc x with
  | Some d => exists ds, (descs s).[d] = Some ds /\ b ∈ blocks_of a ds /\ b ∉ free_list ds /\ n = block_size ds
  | None => b = a + ARENA_SIZE /\ n = PGSIZE * free_cnt x - ARENA_SIZE
  end.

Definition live s (b n : Z) : Prop := exists a x, arenas s !! a = Some x /\ lives_in s a x b n.

(** The part of the invariant that says where arenas and blocks are. *)
Definition shape s : Prop := owns (pages s) (arena_pages <$> arenas s) /\ descs_ok (descs s).

Lemma heap_shape s : heap_ok s -> shape s.
Proof. intros Hok. split; apply Hok. Qed.

Lemma arena_facts s a x : shape s -> arenas s !! a = Some x ->
  PHYS_BASE <= a /\ a mod PGSIZE = 0 /\ 0 < arena_pages x /\ a + PGSIZE * arena_pages x <= 2 ^ 32.
Proof. intros [Ho _] Ha. eapply owns_block; [apply Ho|]. by rewrite lookup_fmap, Ha. Qed.

Lemma arenas_apart s a x b y : shape s -> arenas s !! a = Some x -> arenas s !! b = Some y -> a <> b ->
  a + PGSIZE * arena_pages x <= b \/ b + PGSIZE * arena_pages y <= a.
Proof. intros [Ho _] Ha Hb. eapply owns_apart; [apply Ho|by rewrite lookup_fmap, Ha|by rewrite lookup_fmap, Hb]. Qed.

(** A block in use is inside the pages of its arena, which its address gives. *)
Lemma lives_in_bounds s a x b n : heap_ok s -> arenas s !! a = Some x -> lives_in s a x b n ->
  pg_round_down b = a /\ 0 < n /\ a + ARENA_SIZE <= b /\ b + n <= a + PGSIZE * arena_pages x /\ pg_ofs b = b - a.
Proof.
  intros Hok Ha Hl. destruct (arena_facts s a x (heap_shape _ Hok) Ha) as (H1 & H2 & H3 & H4).
  assert (0 < PHYS_BASE /\ PGSIZE = 4096 /\ ARENA_SIZE = 12) as (Hpb & Epg & Ea) by done. unfold lives_in in Hl. unfold arena_pages in *.
  destruct (a_desc x) as [d|].
  - destruct Hl as (ds & Hd & Hb & _ & ->). destruct (block_in_page _ _ _ _ _ (ho_descs _ Hok) Hd Hb).
    destruct (desc_facts _ _ _ (ho_descs _ Hok) Hd) as (B1 & _). destruct (page_of_block a b) as [R1 R2]; [lia|done|lia|lia|]. split_and!; (done || lia).
  - destruct Hl as [-> ->]. destruct (page_of_block a (a + ARENA_SIZE)) as [R1 R2]; [lia|done|lia|lia|]. split_and!; (done || lia).
Qed.

Lemma live_disjoint s b n b' n' : heap_ok s -> live s b n -> live s b' n' -> b <> b' -> b + n <= b' \/ b' + n' <= b.
Proof.
  intros Hok (a & x & Ha & Hl) (a' & x' & Ha' & Hl') Hne. assert (ARENA_SIZE = 12) as Ea by done.
  destruct (lives_in_bounds _ _ _ _ _ Hok Ha Hl) as (Er & Hn & H1 & H2 & _). destruct (lives_in_bounds _ _ _ _ _ Hok Ha' Hl') as (Er' & Hn' & H1' & H2' & _).
  destruct (decide (a = a')) as [<-|Hd]; [|destruct (arenas_apart _ _ _ _ _ (heap_shape _ Hok) Ha Ha' Hd); lia].
  rewrite Ha in Ha'. injection Ha' as <-. unfold lives_in in *. destruct (a_desc x) as [d|]; [|destruct Hl, Hl'; lia].
  destruct Hl as (ds & Hd & (i & Hi & ->)%elem_of_blocks & _ & ->), Hl' as (ds' & Hd' & Hb' & _ & ->). rewrite Hd in Hd'. injection Hd' as <-.
  apply elem_of_blocks in Hb' as (j & Hj & ->). destruct (desc_facts _ _ _ (ho_descs _ Hok) Hd) as (B1 & _).
  assert (i <> j) as Hij by congruence. clear -Hij B1.
  destruct (decide (i < j)); [left; pose proof (Z.mul_le_mono_nonneg_r (i + 1) j (block_size ds))|right; pose proof (Z.mul_le_mono_nonneg_r (j + 1) i (block_size ds))]; lia.
Qed.

Lemma live_unique s b n n' : heap_ok s -> live s b n -> live s b n' -> n = n'.
Proof.
  intros Hok (a & x & Ha & Hl) (a' & x' & Ha' & Hl').
  destruct (lives_in_bounds _ _ _ _ _ Hok Ha Hl) as (Er & _). destruct (lives_in_bounds _ _ _ _ _ Hok Ha' Hl') as (Er' & _).
  assert (a' = a) as -> by congruence. rewrite Ha in Ha'. injection Ha' as <-. unfold lives_in in *.
  destruct (a_desc x); [destruct Hl as (ds & Hd & _ & _ & ->), Hl' as (ds' & Hd' & _ & _ & ->); congruence|lia].
Qed.

(** ** Small steps *)
Lemma get_desc_ok s d x : (descs s).[d] = Some x -> get_desc d s = Ok (x, s).
Proof. intros E. unfold get_desc, mbind, M_bind, get. by rewrite E. Qed.

Lemma get_arena_ok s a x : arenas s !! a = Some x -> get_arena a s = Ok (x, s).
Proof. intros E. unfold get_arena, mbind, M_bind, get. by rewrite E. Qed.

Lemma on_pages_wp {A} (m : M P A) (Q : A -> H -> Prop) s :
  wp m (fun a x => Q a (set_pages x s)) (pages s) -> wp (on_pages m) Q s.
Proof. unfold wp, on_pages. by destruct (m (pages s)) as [[a x]|]. Qed.

(** A block, in use or free. *)
Definition block_in s (a : Z) (x : arena) (b : Z) : Prop :=
  match a_desc x with Some d => exists ds, (descs s).[d] = Some ds /\ b ∈ blocks_of a ds | None => b = a + ARENA_SIZE end.

Lemma block_in_bounds s a x b : shape s -> arenas s !! a = Some x -> block_in s a x b ->
  a + ARENA_SIZE <= b < a + PGSIZE /\ pg_round_down b = a /\ pg_ofs b = b - a.
Proof.
  intros Hok Ha Hb. destruct (arena_facts s a x Hok Ha) as (H1 & H2 & H3 & H4).
  assert (0 < PHYS_BASE /\ PGSIZE = 4096 /\ ARENA_SIZE = 12) as (Hpb & Epg & Ea) by done. unfold block_in in Hb. unfold arena_pages in *.
  assert (a + ARENA_SIZE <= b < a + PGSIZE) as Hr.
  { destruct (a_desc x) as [d|]; [|lia]. destruct Hb as (ds & Hd & Hb). destruct (block_in_page _ _ _ _ _ (proj2 Hok) Hd Hb).
    destruct (desc_facts _ _ _ (proj2 Hok) Hd) as (B1 & _). lia. }
  assert (b < 2 ^ 32) as Hb32 by (destruct (a_desc x); lia).
  destruct (page_of_block a b) as [R1 R2]; [lia|done|lia|lia|done].
Qed.

Lemma block_to_arena_ok s a x b : shape s -> arenas s !! a = Some x -> block_in s a x b -> block_to_arena b s = Ok (a, s).
Proof.
  intros Hok Ha Hb. destruct (arena_facts s a x Hok Ha) as (H1 & _). assert (0 < PHYS_BASE) as Hpb by done.
  destruct (block_in_bounds s a x b Hok Ha Hb) as (Hr & R1 & R2). assert (PGSIZE = 4096 /\ ARENA_SIZE = 12) as [Epg Ea] by done.
  cut (wp (block_to_arena b) (fun r s' => r = a /\ s' = s) s); [by intros (r & s' & -> & -> & ->)%wp_iff|].
  unfold block_in in Hb. unfold block_to_arena. cbv zeta. rewrite R1, R2. wp_step. apply wp_assert; [by rewrite (proj2 (Z.eqb_neq a 0)) by lia|].
  wp_step. eapply wp_eq; [by apply get_arena_ok|]. destruct (a_desc x) as [d|].
  - destruct Hb as (ds & Hd & (i & Hi & E)%elem_of_blocks). destruct (desc_facts _ _ _ (proj2 Hok) Hd) as (B1 & _).
    wp_step. wp_step. eapply wp_eq; [by apply get_desc_ok|]. apply wp_assert; [|by wp_step].
    rewrite wrap_small by lia. replace (b - a - ARENA_SIZE) with (i * block_size ds) by lia. rewrite Z.mod_mul by lia. done.
  - wp_step. apply wp_assert; [apply Z.eqb_eq; lia|]. by wp_step.
Qed.

Lemma arena_to_block_ok s a d c ds i :
  arenas s !! a = Some (Arena (Some d) c) -> (descs s).[d] = Some ds -> a <> 0 -> 0 <= i < blocks_per_arena ds ->
  arena_to_block a i s = Ok (a + ARENA_SIZE + i * block_size ds, s).
Proof.
  intros Ha Hd Hz Hi. cut (wp (arena_to_block a i) (fun r s' => r = a + ARENA_SIZE + i * block_size ds /\ s' = s) s); [by intros (r & s' & -> & -> & ->)%wp_iff|].
  unfold arena_to_block. wp_step. apply wp_assert; [by rewrite (proj2 (Z.eqb_neq a 0))|]. wp_step. eapply wp_eq; [by apply get_arena_ok|].
  wp_step. eapply wp_deref; [done|]. wp_step. eapply wp_eq; [by apply get_desc_ok|]. wp_step. apply wp_assert; [apply Z.ltb_lt; lia|]. by wp_step.
Qed.

(** Blocks of different arenas differ. *)
Lemma blocks_apart s a d c a' d' c' x y b :
  shape s -> arenas s !! a = Some (Arena (Some d) c) -> arenas s !! a' = Some (Arena (Some d') c') ->
  (descs s).[d] = Some x -> (descs s).[d'] = Some y -> b ∈ blocks_of a x -> b ∈ blocks_of a' y -> a = a'.
Proof.
  intros Hok Ha Ha' Hx Hy Hb Hb'. destruct (block_in_page _ _ _ _ _ (proj2 Hok) Hx Hb), (block_in_page _ _ _ _ _ (proj2 Hok) Hy Hb').
  destruct (desc_facts _ _ _ (proj2 Hok) Hx) as (B1 & _). destruct (desc_facts _ _ _ (proj2 Hok) Hy) as (B2 & _).
  destruct (decide (a = a')) as [|Hne]; [done|]. assert (ARENA_SIZE = 12) as Ea by done.
  destruct (arenas_apart _ _ _ _ _ Hok Ha Ha' Hne) as [Hc|Hc]; unfold arena_pages in Hc; simpl in Hc; lia.
Qed.

(** ** Changing the free blocks of an arena *)
Lemma descs_ok_set l d x fl : descs_ok l -> l.[d] = Some x -> descs_ok l.[d <- set_free_list fl x].
Proof.
  intros [H1 H2] Hx. pose proof (aget_lt _ _ _ Hx) as Hl. apply aget_Some in Hx as [Hd Hx]. split.
  - rewrite <- H1. unfold aset. rewrite (proj2 (Z.ltb_ge d 0)) by lia. rewrite list_fmap_insert. apply list_insert_id. by rewrite list_lookup_fmap, Hx.
  - apply Forall_aset; [done|]. by apply (Forall_lookup_1 _ _ _ _ H2 Hx).
Qed.

Definition relist s (d : Z) (x : desc) (l : list Z) (a c : Z) : H :=
  set_arenas (<[a := Arena (Some d) c]> (arenas s)) (set_descs (descs s).[d <- set_free_list l x] s).

Lemma relist_desc s d x l a c d' y :
  (descs s).[d] = Some x -> (descs (relist s d x l a c)).[d'] = Some y -> d' = d /\ y = set_free_list l x \/ d' <> d /\ (descs s).[d'] = Some y.
Proof.
  intros Hx Hy. simpl in Hy. destruct (decide (d' = d)) as [->|Hne].
  - rewrite aget_aset_eq in Hy by (by eapply aget_lt). injection Hy as <-. by left.
  - rewrite aget_aset_ne in Hy by done. by right.
Qed.

Lemma relist_arena s d x l a c a' y :
  arenas (relist s d x l a c) !! a' = Some y -> a' = a /\ y = Arena (Some d) c \/ a' <> a /\ arenas s !! a' = Some y.
Proof. simpl. rewrite lookup_insert_Some. naive_solver. Qed.

Section relist.
Context (s : H) (d : Z) (x : desc) (a c0 : Z).
Hypothesis Hok : heap_ok s.
Hypothesis Hx : (descs s).[d] = Some x.
Hypothesis Ha : arenas s !! a = Some (Arena (Some d) c0).

(** The blocks of another arena are not among those of [a]. *)
Lemma other_block a' c' b : a' <> a -> arenas s !! a' = Some (Arena (Some d) c') -> b ∈ blocks_of a' x -> b ∉ blocks_of a x.
Proof. intros Hne Ha' Hb Hb'. apply Hne. symmetry. by eapply (blocks_apart s a d c0 a' d c' x x b (heap_shape _ Hok)). Qed.

Lemma filter_other a' c' (l l' : list Z) :
  a' <> a -> arenas s !! a' = Some (Arena (Some d) c') ->
  filter (fun b => b ∉ blocks_of a x) l = filter (fun b => b ∉ blocks_of a x) l' ->
  filter (fun b => b ∈ blocks_of a' x) l = filter (fun b => b ∈ blocks_of a' x) l'.
Proof.
  intros Hne Ha' E.
  assert (forall k : list Z, filter (fun b => b ∈ blocks_of a' x) k = filter (fun b => b ∈ blocks_of a' x) (filter (fun b => b ∉ blocks_of a x) k)) as Hf.
  { intros k. rewrite list_filter_filter. apply list_filter_iff. intros b. split; [|tauto]. intros Hb. split; [done|]. by eapply other_block. }
  by rewrite Hf, E, <- Hf.
Qed.

Lemma relist_ok l c :
  NoDup l -> (forall b, b ∈ l -> b ∈ free_list x \/ b ∈ blocks_of a x) ->
  filter (fun b => b ∉ blocks_of a x) l = filter (fun b => b ∉ blocks_of a x) (free_list x) ->
  c = Z.of_nat (length (filter (fun b => b ∈ blocks_of a x) l)) -> heap_ok (relist s d x l a c).
Proof.
  intros Hnd Hin Hout Hc. split.
  - simpl. rewrite fmap_insert, insert_id; [apply Hok|]. by rewrite lookup_fmap, Ha.
  - apply descs_ok_set; [apply Hok|done].
  - intros d' y [[-> ->]|[_ Hy]]%relist_desc; [done| |done]. by eapply Hok.
  - intros d' y b [[-> ->]|[Hne Hy]]%relist_desc Hb; [| |done].
    + simpl in Hb. destruct (decide (b ∈ blocks_of a x)) as [Hba|Hba]; [exists a, c; split; [apply lookup_insert_eq|done]|].
      destruct (Hin b Hb) as [Hf|]; [|done]. destruct (ho_free _ Hok d x b Hx Hf) as (a' & c' & Ha' & Hb'). exists a', c'. split; [|done].
      simpl. rewrite lookup_insert_ne; [done|]. intros <-. done.
    + destruct (ho_free _ Hok d' y b Hy Hb) as (a' & c' & Ha' & Hb'). exists a', c'. split; [|done]. simpl. rewrite lookup_insert_ne; [done|]. intros <-. congruence.
  - intros a' d' c' [[-> E]|[Hne Ha']]%relist_arena.
    + injection E as -> ->. exists (set_free_list l x). simpl. rewrite aget_aset_eq by (by eapply aget_lt). done.
    + destruct (ho_arena _ Hok a' d' c' Ha') as (y & Hy & Ec). destruct (decide (d' = d)) as [->|Hd].
      * exists (set_free_list l x). simpl. rewrite aget_aset_eq by (by eapply aget_lt). split; [done|]. rewrite Hx in Hy. injection Hy as <-.
        rewrite Ec. do 2 f_equal. symmetry. by eapply filter_other.
      * exists y. simpl. by rewrite aget_aset_ne by done.
Qed.

Lemma relist_other a' y b n l c :
  (forall b, b ∉ blocks_of a x -> b ∈ l <-> b ∈ free_list x) -> a' <> a -> arenas s !! a' = Some y ->
  lives_in (relist s d x l a c) a' y b n <-> lives_in s a' y b n.
Proof.
  intros Hl Hne Ha'. unfold lives_in. destruct y as [[d'|] c']; simpl; [|done]. split.
  - intros (ds & Hds & Hb & Hf & ->). apply (relist_desc s d x l a c) in Hds as [[-> ->]|[Hd Hds]]; [| |done].
    + exists x. split; [done|]. split; [done|]. split; [|done]. rewrite <- Hl; [done|]. by eapply other_block.
    + by exists ds.
  - intros (ds & Hds & Hb & Hf & ->). destruct (decide (d' = d)) as [->|Hd]; [|exists ds; by rewrite aget_aset_ne by done].
    rewrite Hx in Hds. injection Hds as <-. exists (set_free_list l x). rewrite aget_aset_eq by (by eapply aget_lt). split; [done|]. split; [done|]. split; [|done].
    simpl. rewrite Hl; [done|]. by eapply other_block.
Qed.

Lemma relist_live l c b n :
  (forall b, b ∉ blocks_of a x -> b ∈ l <-> b ∈ free_list x) ->
  live (relist s d x l a c) b n <-> (b ∈ blocks_of a x /\ b ∉ l /\ n = block_size x) \/ (b ∉ blocks_of a x /\ live s b n).
Proof.
  intros Hl. assert (forall a' y, a' <> a -> arenas s !! a' = Some y -> lives_in s a' y b n -> b ∉ blocks_of a x) as Hnb.
  { intros a' y Hne Ha' Hv Hb. destruct (lives_in_bounds s a' y b n Hok Ha' Hv) as (R & _).
    destruct (block_in_bounds s a _ b (heap_shape _ Hok) Ha) as (_ & R' & _); [by exists x|]. congruence. }
  split.
  - intros (a' & y & [[-> ->]|[Hne Ha']]%relist_arena & Hv).
    + destruct Hv as (ds & Hds & Hb & Hf & ->). apply (relist_desc s d x l a c) in Hds as [[_ ->]|[? _]]; [by left|done|done].
    + apply relist_other in Hv; [|done..]. right. split; [by eapply Hnb|by exists a', y].
  - intros [(Hb & Hf & ->)|(Hb & a' & y & Ha' & Hv)].
    + exists a, (Arena (Some d) c). split; [apply lookup_insert_eq|]. exists (set_free_list l x). simpl. by rewrite aget_aset_eq by (by eapply aget_lt).
    + assert (a' <> a) as Hne.
      { intros ->. rewrite Ha in Ha'. injection Ha' as <-. destruct Hv as (ds & Hds & Hb' & _). congruence. }
      exists a', y. split; [simpl; by rewrite lookup_insert_ne by done|]. by apply relist_other.
Qed.
End relist.

(** ** A new arena, with all its blocks free *)
Definition full_arena s (q : P) (d : Z) (x : desc) (a : Z) : H :=
  set_descs (descs s).[d <- set_free_list (blocks_of a x) x] (set_arenas (<[a := Arena (Some d) (blocks_per_arena x)]> (arenas s)) (set_pages q s)).

Section full_arena.
Context (s : H) (q : P) (d : Z) (x : desc) (a : Z).
Hypothesis Hok : heap_ok s.
Hypothesis Hx : (descs s).[d] = Some x.
Hypothesis Hl : free_list x = [].
Hypothesis Ha : arenas s !! a = None.
Hypothesis Hq : owns q (<[a := 1]> (arena_pages <$> arenas s)).
Abbreviation s' := (full_arena s q d x a).

Lemma full_shape : shape s'.
Proof. split; [|apply descs_ok_set; [apply Hok|done]]. simpl. by rewrite fmap_insert. Qed.

Lemma full_desc : (descs s').[d] = Some (set_free_list (blocks_of a x) x).
Proof. simpl. apply aget_aset_eq. by eapply aget_lt. Qed.

Lemma full_apart a' c' b : arenas s !! a' = Some (Arena (Some d) c') -> b ∈ blocks_of a' x -> b ∉ blocks_of a x.
Proof.
  intros Ha' Hb Hb'. assert (a = a') as <-; [|congruence].
  apply (blocks_apart s' a d (blocks_per_arena x) a' d c' _ _ b full_shape) with (4 := full_desc) (3 := full_desc); [apply lookup_insert_eq| |done..].
  simpl. rewrite lookup_insert_ne; [done|]. intros <-. congruence.
Qed.

Lemma full_arena_live b n : live s' b n <-> live s b n.
Proof.
  split; intros (a' & y & Ha' & Hv).
  - simpl in Ha'. apply lookup_insert_Some in Ha' as [[<- <-]|[Hne Ha']].
    + destruct Hv as (ds & Hds & Hb & Hf & _). rewrite full_desc in Hds. injection Hds as <-. done.
    + exists a', y. split; [done|]. unfold lives_in in *. destruct (a_desc y) as [d'|]; [|done]. destruct Hv as (ds & Hds & Hb & Hf & ->).
      destruct (decide (d' = d)) as [->|Hd]; [|simpl in Hds; rewrite aget_aset_ne in Hds by done; by exists ds].
      rewrite full_desc in Hds. injection Hds as <-. exists x. rewrite Hl. split_and!; [done..|apply not_elem_of_nil|done].
  - exists a', y. split; [simpl; rewrite lookup_insert_ne; [done|congruence]|]. unfold lives_in in *. destruct y as [[d'|] c']; simpl in *; [|done].
    destruct Hv as (ds & Hds & Hb & Hf & ->). destruct (decide (d' = d)) as [->|Hd]; [|exists ds; by rewrite aget_aset_ne by done].
    rewrite Hx in Hds. injection Hds as <-. eexists. split; [apply full_desc|]. split; [done|]. split; [by eapply full_apart|done].
Qed.

Lemma full_arena_ok : heap_ok s'.
Proof.
  destruct (desc_facts _ _ _ (ho_descs _ Hok) Hx) as (B1 & B2 & _). split; [apply full_shape|apply full_shape| | |].
  - intros d' y Hy. destruct (decide (d' = d)) as [->|Hd].
    + rewrite full_desc in Hy. injection Hy as <-. by apply NoDup_blocks.
    + simpl in Hy. rewrite aget_aset_ne in Hy by done. by eapply Hok.
  - intros d' y b Hy Hb. destruct (decide (d' = d)) as [->|Hd].
    + rewrite full_desc in Hy. injection Hy as <-. exists a, (blocks_per_arena x). split; [apply lookup_insert_eq|done].
    + simpl in Hy. rewrite aget_aset_ne in Hy by done. destruct (ho_free _ Hok d' y b Hy Hb) as (a' & c' & Ha' & Hb'). exists a', c'.
      split; [simpl; rewrite lookup_insert_ne; [done|congruence]|done].
  - intros a' d' c' Ha'. simpl in Ha'. apply lookup_insert_Some in Ha' as [[<- E]|[Hne Ha']].
    + injection E as <- <-. eexists. split; [apply full_desc|]. simpl. change (blocks_of a (set_free_list _ x)) with (blocks_of a x).
      rewrite filter_keep by done. pose proof (length_blocks a x). lia.
    + destruct (ho_arena _ Hok a' d' c' Ha') as (y & Hy & Ec). destruct (decide (d' = d)) as [->|Hd]; [|exists y; simpl; by rewrite aget_aset_ne by done].
      rewrite Hx in Hy. injection Hy as <-. eexists. split; [apply full_desc|]. rewrite Ec, Hl. simpl. change (blocks_of a' (set_free_list _ x)) with (blocks_of a' x).
      rewrite filter_drop; [done|]. intros b Hb Hb'. by apply (full_apart a' c' b Ha').
Qed.
End full_arena.

(** [s'] has the blocks and the contents of [s]. *)
Record same_heap s s' : Prop := {
  sh_ok : heap_ok s';
  sh_live : forall b n, live s' b n <-> live s b n;
  sh_contents : contents s' = contents s
}.

Lemma set_pages_ok s q : heap_ok s -> owns q (arena_pages <$> arenas s) -> same_heap s (set_pages q s).
Proof. intros Hok Hq. split; [|done..]. split; [done|apply Hok..]. Qed.

Lemma fill_arena_wp s d x a n (Q : unit -> H -> Prop) :
  shape s -> (descs s).[d] = Some x -> arenas s !! a = Some (Arena (Some d) n) -> free_list x = [] ->
  (Q () (set_descs (descs s).[d <- set_free_list (blocks_of a x) x] s)) ->
  wp (for_ (Z.to_nat (blocks_per_arena x)) 0 (fun i => b ← arena_to_block a i; list_push_back d b)) Q s.
Proof.
  intros Hs Hx Ha Hl HQ. destruct (arena_facts s a _ Hs Ha) as (Hpb & _). assert (0 < PHYS_BASE) as H0 by done.
  destruct (desc_facts _ _ _ (proj2 Hs) Hx) as (B1 & B2 & _).
  eapply wp_mono; [apply (wp_for (fun i s' => s' = set_descs (descs s).[d <- set_free_list (take (Z.to_nat i) (blocks_of a x)) x] s))|].
  - intros i s' Hi ->. pose proof (aget_lt _ _ _ Hx) as Hd. wp_step. eapply wp_eq.
    { apply (arena_to_block_ok _ a d n (set_free_list (take (Z.to_nat i) (blocks_of a x)) x)); [done|by apply aget_aset_eq|lia|simpl; lia]. }
    unfold list_push_back. wp_step. eapply wp_eq; [apply get_desc_ok; by apply aget_aset_eq|]. apply wp_modify. simpl. unfold set_descs, set_free_list. simpl. f_equal.
    rewrite aset_aset. do 2 f_equal. replace (Z.to_nat (i + 1)) with (S (Z.to_nat i)) by lia. symmetry. apply take_S_r.
    unfold blocks_of. rewrite list_lookup_fmap, lookup_seqZ_lt by lia. simpl. do 2 f_equal. lia.
  - simpl. rewrite take_0, <- Hl. destruct x as [x1 x2 x3]. unfold set_free_list. simpl. unfold set_descs. rewrite aset_id by done. by destruct s.
  - intros [] s' ->. rewrite take_ge; [done|]. pose proof (length_blocks a x). lia.
Qed.

Lemma new_arena_ok s d x :
  heap_ok s -> (descs s).[d] = Some x -> free_list x = [] ->
  wp (new_arena d) (fun r s' => same_heap s s' /\
    (r = true -> exists y, (descs s').[d] = Some y /\ free_list y <> [] /\ block_size y = block_size x)) s.
Proof.
  intros Hok Hx Hl. unfold new_arena. wp_step. eapply wp_eq; [by apply get_desc_ok|]. wp_step. apply on_pages_wp.
  eapply wp_mono; [apply (get_pages_ok _ _ _ (ho_owns _ Hok)); lia|]. intros a q [[-> Hq]|(Ha & Hn & Hq)]; simpl.
  { wp_step. split; [by apply set_pages_ok|done]. }
  rewrite (proj2 (Z.eqb_neq a 0)) by done. wp_step. apply wp_modify. wp_step. rewrite lookup_fmap, fmap_None in Hn.
  eapply (fill_arena_wp _ d x a); [|done|apply lookup_insert_eq|done|].
  { split; [|apply Hok]. simpl. by rewrite fmap_insert. }
  wp_step. assert (same_heap s (full_arena s q d x a)) as Hs by (split; [by apply full_arena_ok|intros; by apply full_arena_live|done]).
  split; [exact Hs|]. intros _. eexists. split; [by apply (full_desc s q d x a)|]. split; [|done].
  destruct (desc_facts _ _ _ (ho_descs _ Hok) Hx) as (B1 & B2 & _). pose proof (length_blocks a x). simpl. destruct (blocks_of a x); simpl in *; [lia|done].
Qed.

(** ** Taking a block *)

(** A block of an arena is in use if it is not free. *)
Lemma live_block s a d c x b n :
  heap_ok s -> arenas s !! a = Some (Arena (Some d) c) -> (descs s).[d] = Some x -> b ∈ blocks_of a x ->
  live s b n <-> b ∉ free_list x /\ n = block_size x.
Proof.
  intros Hok Ha Hx Hb. split; [|intros [Hf ->]; exists a; eexists; split; [done|]; by exists x].
  intros (a' & y & Ha' & Hv). destruct (lives_in_bounds _ _ _ _ _ Hok Ha' Hv) as (R & _).
  destruct (block_in_bounds s a _ b (heap_shape _ Hok) Ha) as (_ & R' & _); [by exists x|].
  assert (a' = a) as -> by congruence. rewrite Ha in Ha'. injection Ha' as <-. destruct Hv as (ds & Hds & _ & Hf & ->). rewrite Hx in Hds. by injection Hds as <-.
Qed.

Lemma free_cnt_bound s a d c x : heap_ok s -> arenas s !! a = Some (Arena (Some d) c) -> (descs s).[d] = Some x -> 0 <= c <= blocks_per_arena x /\ blocks_per_arena x < PGSIZE.
Proof.
  intros Hok Ha Hx. destruct (ho_arena _ Hok a d c Ha) as (y & Hy & ->). rewrite Hx in Hy. injection Hy as <-.
  destruct (desc_facts _ _ _ (ho_descs _ Hok) Hx) as (B1 & B2 & B3 & _). assert (PGSIZE = 4096 /\ ARENA_SIZE = 12) as [Epg Ea] by done.
  split; [|nia]. split; [lia|]. pose proof (length_blocks a x) as Hlen.
  enough (length (filter (fun b => b ∈ blocks_of a x) (free_list x)) <= length (blocks_of a x))%nat by lia.
  apply submseteq_length, NoDup_submseteq; [apply NoDup_filter; by eapply Hok|]. by intros b [Hb _]%list_elem_of_filter.
Qed.

(** [s'] has one block more, of at least [size] bytes, at [p]. *)
Record allocated (size p : Z) s s' : Prop := {
  al_ok : heap_ok s';
  al_live : exists n, size <= n /\ (forall b m, live s' b m <-> live s b m \/ b = p /\ m = n);
  al_fresh : forall n, ~ live s p n;
  al_addr : 0 < p;
  al_contents : contents s' = contents s
}.

Lemma take_block_ok s d x b l :
  heap_ok s -> (descs s).[d] = Some x -> free_list x = b :: l ->
  wp (b ← list_pop_front d; a ← block_to_arena b; y ← get_arena a; put_arena a (Arena (a_desc y) (u32 (free_cnt y - 1)));; mret b)
    (fun p s' => allocated (block_size x) p s s') s.
Proof.
  intros Hok Hx Hl. destruct (ho_free _ Hok d x b Hx) as (a & c & Ha & Hb); [rewrite Hl; apply list_elem_of_here|].
  destruct (arena_facts s a _ (heap_shape _ Hok) Ha) as (Hpb & _). assert (0 < PHYS_BASE) as H0 by done.
  pose proof (ho_nodup _ Hok d x Hx) as Hnd. rewrite Hl in Hnd. apply NoDup_cons in Hnd as [Hbl Hnd].
  destruct (free_cnt_bound s a d c x Hok Ha Hx) as [Hc Hcp].
  destruct (ho_arena _ Hok a d c Ha) as (y & Hy & Ec). rewrite Hx in Hy. injection Hy as <-. rewrite Hl, filter_cons_True in Ec by done. simpl in Ec.
  set (s1 := set_descs (descs s).[d <- set_free_list l x] s).
  assert (shape s1) as Hs1 by (split; [apply Hok|apply descs_ok_set; [apply Hok|done]]).
  assert (block_in s1 a (Arena (Some d) c) b) as Hb1.
  { exists (set_free_list l x). split; [|done]. apply aget_aset_eq. by eapply aget_lt. }
  destruct (block_in_bounds s1 a _ b Hs1 Ha Hb1) as (Hba & _).
  wp_step. unfold list_pop_front. wp_step. eapply wp_eq; [by apply get_desc_ok|]. rewrite Hl. wp_step. apply wp_modify. wp_step.
  wp_step. eapply wp_eq; [by apply (block_to_arena_ok s1 a (Arena (Some d) c))|]. wp_step. eapply wp_eq; [by apply get_arena_ok|]. wp_step. apply wp_modify. wp_step.
  simpl. assert (u32 (c - 1) = c - 1) as -> by (apply wrap_small; change (2 ^ 32) with 4294967296; change PGSIZE with 4096 in Hcp; lia).
  cut (allocated (block_size x) b s (relist s d x l a (c - 1))); [done|].
  assert (forall b', b' ∉ blocks_of a x -> b' ∈ l <-> b' ∈ free_list x) as Hf by (intros b' Hb'; rewrite Hl, elem_of_cons; naive_solver).
  split; [| | |assert (ARENA_SIZE = 12) by done; lia|done].
  - eapply relist_ok; [done..|intros b' Hb'; rewrite Hl; set_solver|rewrite Hl, filter_cons_False by tauto; done|lia].
  - exists (block_size x). split; [done|]. intros b' m. rewrite (relist_live s d x a c) by done. destruct (decide (b' ∈ blocks_of a x)) as [Hb'|Hb'].
    + rewrite (live_block s a d c x b' m) by done. rewrite Hl, elem_of_cons. split; [|naive_solver]. intros [(_ & H1 & ->)|[? _]]; [|done].
      destruct (decide (b' = b)); [by right|left; naive_solver].
    + assert (b' <> b) by (intros ->; done). naive_solver.
  - intros n Hv. apply (live_block s a d c x b n) in Hv as [Hn _]; [|done..]. apply Hn. rewrite Hl. apply list_elem_of_here.
Qed.

Lemma allocated_after m size p s s1 s' : same_heap s s1 -> allocated m p s1 s' -> size <= m -> allocated size p s s'.
Proof.
  intros [H1 H2 H3] [A1 (n & Hn & A2) A3 A4 A5] Hm. split; [done| | |done|congruence].
  - exists n. split; [lia|]. intros b k. by rewrite A2, H2.
  - intros k. rewrite <- H2. apply A3.
Qed.

Lemma find_desc_ok size l i d : find_desc size l i = Some d -> exists x, l.[d - i] = Some x /\ size <= block_size x /\ i <= d.
Proof.
  revert i. induction l as [|y l IH]; intros i Hd; simpl in Hd; [done|]. destruct (Z.leb_spec size (block_size y)).
  - injection Hd as <-. exists y. rewrite Z.sub_diag. split; [done|lia].
  - destruct (IH _ Hd) as (x & Hx & Hs & Hi). exists x. split; [|lia]. apply aget_Some in Hx as [_ Hx]. apply aget_Some. split; [lia|].
    replace (Z.to_nat (d - i)) with (S (Z.to_nat (d - (i + 1)))) by lia. done.
Qed.

(** A big block. *)
Lemma big_ok s q a n size :
  heap_ok s -> arenas s !! a = None -> owns q (<[a := n]> (arena_pages <$> arenas s)) -> size <= PGSIZE * n - ARENA_SIZE ->
  allocated size (a + ARENA_SIZE) s (set_arenas (<[a := Arena None n]> (arenas s)) (set_pages q s)).
Proof.
  intros Hok Ha Hq Hsize. set (s' := set_arenas _ _).
  assert (shape s') as Hs by (split; [by simpl; rewrite fmap_insert|apply Hok]).
  destruct (arena_facts s' a (Arena None n) Hs) as (F1 & _); [apply lookup_insert_eq|]. assert (0 < PHYS_BASE /\ ARENA_SIZE = 12) as [F2 F3] by done.
  split; [split| | |lia|done].
  - apply Hs.
  - apply Hok.
  - apply Hok.
  - intros d x b Hx Hb. destruct (ho_free _ Hok d x b Hx Hb) as (a' & c & Ha' & Hb'). exists a', c. split; [|done]. simpl. rewrite lookup_insert_ne; [done|congruence].
  - intros a' d c Ha'. simpl in Ha'. apply lookup_insert_Some in Ha' as [[_ [=]]|[_ Ha']]. by eapply Hok.
  - exists (PGSIZE * n - ARENA_SIZE). split; [done|]. intros b m. split.
    + intros (a' & x & Ha' & Hv). simpl in Ha'. apply lookup_insert_Some in Ha' as [[<- <-]|[_ Ha']]; [by right|]. left. by exists a', x.
    + intros [(a' & x & Ha' & Hv)|[-> ->]]; [exists a', x|by exists a, (Arena None n); split; [apply lookup_insert_eq|]].
      split; [|done]. simpl. rewrite lookup_insert_ne; [done|congruence].
  - intros m (a' & x & Ha' & Hv). destruct (lives_in_bounds s a' x _ m Hok Ha' Hv) as (R & _).
    destruct (block_in_bounds s' a (Arena None n) (a + ARENA_SIZE) Hs) as (_ & R' & _); [apply lookup_insert_eq|done|]. congruence.
Qed.

(** The number of pages of a request near 4 GB wraps around to 0. *)
Lemma big_pages_wrap x : 2 ^ 32 - PGSIZE < x <= 2 ^ 32 -> DIV_ROUND_UP (u32 x) PGSIZE = 0.
Proof.
  change PGSIZE with 4096. intros Hx. destruct (decide (x = 2 ^ 32)) as [->|Hne]; [done|]. rewrite (wrap_small 32 x) by lia. unfold DIV_ROUND_UP.
  replace (u32 (x + 4096 - 1)) with (x + 4095 - 2 ^ 32); [apply Z.div_small; lia|].
  unfold wrap. apply (Z.mod_unique_pos _ _ 1); lia.
Qed.

Lemma malloc_ok s size :
  heap_ok s -> 0 < size -> size + ARENA_SIZE <= 2 ^ 32 ->
  wp (malloc size) (fun p s' => p = 0 /\ same_heap s s' \/ allocated size p s s') s.
Proof.
  intros Hok H0 Hsize. unfold malloc. rewrite (proj2 (Z.eqb_neq size 0)) by lia. wp_step. wp_step.
  destruct (find_desc size (descs s) 0) as [d|] eqn:Ed.
  - destruct (find_desc_ok _ _ _ _ Ed) as (x & Hx & Hs & _). rewrite Z.sub_0_r in Hx. wp_step. eapply wp_eq; [by apply get_desc_ok|]. wp_step.
    case_bool_decide as Hl.
    + eapply wp_mono; [by apply (new_arena_ok s d x)|]. intros [] s1 [Hs1 Hy]; [|simpl; wp_step; by left].
      destruct (Hy eq_refl) as (y & Hyd & Hne & Esz). destruct (free_list y) as [|b l] eqn:El; [done|].
      eapply wp_mono; [apply (take_block_ok s1 d y b l); [apply Hs1|done..]|]. intros p s' Hal. right. apply (allocated_after (block_size y) size p s s1 s'); [done|done|lia].
    + wp_step. destruct (free_list x) as [|b l] eqn:El; [done|].
      eapply wp_mono; [by apply (take_block_ok s d x b l)|]. intros p s' Hal. right. by apply (allocated_after (block_size x) size p s s s').
  - cbv zeta. assert (PGSIZE = 4096 /\ ARENA_SIZE = 12) as [Epg Ea] by done.
    destruct (decide (size + ARENA_SIZE + PGSIZE <= 2 ^ 32)) as [Hsm|Hbig].
    2:{ rewrite big_pages_wrap by lia. wp_step. apply on_pages_wp. eapply wp_eq; [apply get_no_pages|]. simpl. wp_step. left. split; [done|].
        apply set_pages_ok; [done|apply Hok]. }
    rewrite (wrap_small 32 (size + ARENA_SIZE)) by lia.
    pose proof (DIV_ROUND_UP_bounds (size + ARENA_SIZE) PGSIZE ltac:(lia) ltac:(lia) Hsm) as Hd. set (n := DIV_ROUND_UP _ _) in *.
    wp_step. apply on_pages_wp. eapply wp_mono; [apply (get_pages_ok _ _ _ (ho_owns _ Hok)); lia|]. intros a q [[-> Hq]|(Ha & Hn & Hq)]; simpl.
    { wp_step. left. split; [done|by apply set_pages_ok]. }
    rewrite (proj2 (Z.eqb_neq a 0)) by done. wp_step. apply wp_modify. wp_step. right. rewrite lookup_fmap, fmap_None in Hn.
    apply (big_ok s q a n size Hok Hn Hq). lia.
Qed.

(** ** Releasing a block *)

(** [s'] has all blocks of [s] but the one at [p], with their contents. *)
Record released (p : Z) s s' : Prop := {
  re_ok : heap_ok s';
  re_live : forall b m, live s' b m <-> live s b m /\ b <> p;
  re_contents : forall b m q, live s b m -> b <> p -> b <= q < b + m -> contents s' q = contents s q
}.

Lemma set_contents_ok s c : heap_ok s -> heap_ok (set_contents c s).
Proof. intros [H1 H2 H3 H4 H5]. by split. Qed.

(** An arena without a block in use is returned. *)
Definition without_arena s (q : P) (a : Z) (l : list desc) : H := set_pages q (set_arenas (delete a (arenas s)) (set_descs l s)).

Lemma drop_arena_ok s q a d c x :
  heap_ok s -> arenas s !! a = Some (Arena (Some d) c) -> (descs s).[d] = Some x -> owns q (delete a (arena_pages <$> arenas s)) ->
  heap_ok (without_arena s q a (descs s).[d <- set_free_list (filter (fun b => b ∉ blocks_of a x) (free_list x)) x]).
Proof.
  intros Hok Ha Hx Hq. set (l := filter _ _). split.
  - simpl. by rewrite fmap_delete.
  - apply descs_ok_set; [apply Hok|done].
  - intros d' y [[-> ->]|[_ Hy]]%(relist_desc s d x l a c d' y Hx); [apply NoDup_filter|]; by eapply Hok.
  - intros d' y b [[-> ->]|[Hne Hy]]%(relist_desc s d x l a c d' y Hx) Hb.
    + simpl in Hb. apply list_elem_of_filter in Hb as [Hb Hf]. destruct (ho_free _ Hok d x b Hx Hf) as (a' & c' & Ha' & Hb'). exists a', c'.
      split; [|done]. simpl. rewrite lookup_delete_ne; [done|]. by intros <-.
    + destruct (ho_free _ Hok d' y b Hy Hb) as (a' & c' & Ha' & Hb'). exists a', c'. split; [|done]. simpl. rewrite lookup_delete_ne; [done|]. intros <-. congruence.
  - intros a' d' c' Ha'. simpl in Ha'. apply lookup_delete_Some in Ha' as [Hne Ha']. destruct (ho_arena _ Hok a' d' c' Ha') as (y & Hy & Ec).
    destruct (decide (d' = d)) as [->|Hd]; [|exists y; simpl; by rewrite aget_aset_ne by done].
    exists (set_free_list l x). simpl. rewrite aget_aset_eq by (by eapply aget_lt). split; [done|]. rewrite Hx in Hy. injection Hy as <-. rewrite Ec. do 2 f_equal.
    symmetry. apply (filter_other s d x a c Hok Hx Ha a' c'); [done..|]. unfold l. rewrite list_filter_filter. apply list_filter_iff. tauto.
Qed.

Lemma drop_arena_live s q a d c x b m :
  heap_ok s -> arenas s !! a = Some (Arena (Some d) c) -> (descs s).[d] = Some x ->
  live (without_arena s q a (descs s).[d <- set_free_list (filter (fun b => b ∉ blocks_of a x) (free_list x)) x]) b m <->
  live s b m /\ b ∉ blocks_of a x.
Proof.
  intros Hok Ha Hx. set (l := filter _ _).
  assert (forall a' y, a' <> a -> arenas s !! a' = Some y ->
    lives_in (without_arena s q a (descs s).[d <- set_free_list l x]) a' y b m <-> lives_in s a' y b m) as Hother.
  { intros a' y Hne Ha'. rewrite <- (relist_other s d x a c Hok Hx Ha a' y b m l c); [done| |done..].
    intros b' Hb'. unfold l. rewrite list_elem_of_filter. tauto. }
  split.
  - intros (a' & y & Ha' & Hv). simpl in Ha'. apply lookup_delete_Some in Ha' as [Hne Ha']. apply Hother in Hv; [|done..].
    split; [by exists a', y|]. intros Hb. destruct (lives_in_bounds s a' y b m Hok Ha' Hv) as (R & _).
    destruct (block_in_bounds s a _ b (heap_shape _ Hok) Ha) as (_ & R' & _); [by exists x|]. congruence.
  - intros [(a' & y & Ha' & Hv) Hb]. assert (a' <> a) as Hne.
    { intros ->. rewrite Ha in Ha'. injection Ha' as <-. destruct Hv as (ds & Hds & Hb' & _). congruence. }
    exists a', y. split; [simpl; by rewrite lookup_delete_ne|]. by apply Hother.
Qed.

(** All blocks of an arena are free when their number says so. *)
Lemma all_free s a d x : heap_ok s -> arenas s !! a = Some (Arena (Some d) (blocks_per_arena x)) -> (descs s).[d] = Some x ->
  forall b, b ∈ blocks_of a x -> b ∈ free_list x.
Proof.
  intros Hok Ha Hx b Hb. destruct (ho_arena _ Hok a d _ Ha) as (y & Hy & Ec). rewrite Hx in Hy. injection Hy as <-.
  destruct (desc_facts _ _ _ (ho_descs _ Hok) Hx) as (B1 & B2 & _). pose proof (length_blocks a x) as Hlen.
  assert (filter (fun b => b ∈ blocks_of a x) (free_list x) ≡ₚ blocks_of a x) as Hp.
  { apply submseteq_length_Permutation; [|lia]. apply NoDup_submseteq; [apply NoDup_filter; by eapply Hok|]. by intros z [Hz _]%list_elem_of_filter. }
  rewrite <- Hp in Hb. by apply list_elem_of_filter in Hb as [_ Hb].
Qed.

Lemma filter_take_S {A} `{!EqDecision A} (l L : list A) i b : l !! i = Some b ->
  filter (fun q => q <> b) (filter (fun q => q ∉ take i l) L) = filter (fun q => q ∉ take (S i) l) L.
Proof.
  intros Hi. rewrite list_filter_filter. apply list_filter_iff. intros q. rewrite (take_S_r _ _ _ Hi), elem_of_app, list_elem_of_singleton. tauto.
Qed.

Lemma empty_arena_wp s a d x n (Q : unit -> H -> Prop) :
  shape s -> arenas s !! a = Some (Arena (Some d) n) -> (descs s).[d] = Some x -> (forall b, b ∈ blocks_of a x -> b ∈ free_list x) ->
  Q () (set_descs (descs s).[d <- set_free_list (filter (fun b => b ∉ blocks_of a x) (free_list x)) x] s) ->
  wp (for_ (Z.to_nat (blocks_per_arena x)) 0 (fun i => b ← arena_to_block a i; list_remove d b)) Q s.
Proof.
  intros Hs Ha Hx Hall HQ. destruct (arena_facts s a _ Hs Ha) as (Hpb & _). assert (0 < PHYS_BASE) as H0 by done. pose proof (aget_lt _ _ _ Hx) as Hd.
  destruct (desc_facts _ _ _ (proj2 Hs) Hx) as (B1 & B2 & _). set (L := fun i : Z => filter (fun b => b ∉ take (Z.to_nat i) (blocks_of a x)) (free_list x)).
  eapply wp_mono; [apply (wp_for (fun i s' => s' = set_descs (descs s).[d <- set_free_list (L i) x] s))|].
  - intros i s' Hi ->. assert (blocks_of a x !! Z.to_nat i = Some (a + ARENA_SIZE + i * block_size x)) as Hb.
    { unfold blocks_of. rewrite list_lookup_fmap, lookup_seqZ_lt by lia. simpl. do 2 f_equal. lia. }
    wp_step. eapply wp_eq; [apply (arena_to_block_ok _ a d n (set_free_list (L i) x)); [done|by apply aget_aset_eq|lia|simpl; lia]|].
    unfold list_remove. wp_step. eapply wp_eq; [apply get_desc_ok; by apply aget_aset_eq|]. rewrite bool_decide_eq_true_2.
    + apply wp_modify. unfold set_descs, set_free_list. simpl. rewrite aset_aset. unfold L. rewrite (filter_take_S _ _ _ _ Hb).
      by replace (Z.to_nat (i + 1)) with (S (Z.to_nat i)) by lia.
    + simpl. apply list_elem_of_filter. split; [|apply Hall; by eapply list_elem_of_lookup_2].
      intros (j & Hj)%list_elem_of_lookup. apply lookup_take_Some in Hj as [Hj Hlt].
      pose proof (proj1 (NoDup_alt _) (NoDup_blocks a x B1) _ _ _ Hj Hb). lia.
  - unfold L. rewrite filter_keep by (intros; apply not_elem_of_nil). destruct x as [x1 x2 x3]. unfold set_free_list. simpl.
    unfold set_descs. rewrite aset_id by done. by destruct s.
  - intros [] s' ->. unfold L. rewrite take_ge; [done|]. pose proof (length_blocks a x). lia.
Qed.

Lemma push_block_ok s a d c x p :
  heap_ok s -> arenas s !! a = Some (Arena (Some d) c) -> (descs s).[d] = Some x -> p ∈ blocks_of a x -> p ∉ free_list x ->
  let s' := relist s d x (p :: free_list x) a (c + 1) in heap_ok s' /\ forall b m, live s' b m <-> live s b m /\ b <> p.
Proof.
  intros Hok Ha Hx Hp Hf s'. destruct (ho_arena _ Hok a d c Ha) as (y & Hy & Ec). rewrite Hx in Hy. injection Hy as <-. split.
  - eapply relist_ok; [done..|constructor; [done|by eapply Hok]|intros b; set_solver|rewrite filter_cons_False by tauto; done|].
    rewrite filter_cons_True by done. simpl. lia.
  - intros b m. unfold s'. rewrite (relist_live s d x a c) by (done || (intros b'; rewrite elem_of_cons; naive_solver)).
    destruct (decide (b ∈ blocks_of a x)) as [Hb|Hb].
    + rewrite (live_block s a d c x b m) by done. rewrite elem_of_cons. naive_solver.
    + assert (b <> p) by (intros ->; done). naive_solver.
Qed.

(** The contents of a block in use are outside the pages of another arena. *)
Lemma live_outside s a x b m q : heap_ok s -> arenas s !! a = Some x -> live s b m -> (forall n, ~ lives_in s a x b n) -> b <= q < b + m ->
  ~ (a <= q < a + PGSIZE * arena_pages x).
Proof.
  intros Hok Ha (a' & y & Ha' & Hv) Hn Hq Hin. destruct (decide (a' = a)) as [->|Hne]; [rewrite Ha in Ha'; injection Ha' as <-; by eapply Hn|].
  destruct (lives_in_bounds s a' y b m Hok Ha' Hv) as (_ & _ & H1 & H2 & _). assert (ARENA_SIZE = 12) by done.
  destruct (arenas_apart s a' y a x (heap_shape _ Hok) Ha' Ha Hne); lia.
Qed.

Lemma drop_big_ok s q a n c :
  heap_ok s -> arenas s !! a = Some (Arena None n) -> owns q (delete a (arena_pages <$> arenas s)) ->
  (forall z, ~ (a <= z < a + PGSIZE * n) -> c z = contents s z) ->
  released (a + ARENA_SIZE) s (set_contents c (without_arena s q a (descs s))).
Proof.
  intros Hok Ha Hq Hc. split; [apply set_contents_ok; split| |].
  - simpl. by rewrite fmap_delete.
  - apply Hok.
  - apply Hok.
  - intros d x b Hx Hb. destruct (ho_free _ Hok d x b Hx Hb) as (a' & c' & Ha' & Hb'). exists a', c'. split; [|done]. simpl. rewrite lookup_delete_ne; [done|congruence].
  - intros a' d c' Ha'. simpl in Ha'. apply lookup_delete_Some in Ha' as [_ Ha']. by eapply Hok.
  - intros b m. split.
    + intros (a' & x & Ha' & Hv). simpl in Ha'. apply lookup_delete_Some in Ha' as [Hne Ha']. split; [by exists a', x|]. intros ->.
      destruct (lives_in_bounds s a' x _ m Hok Ha' Hv) as (R & _).
      destruct (block_in_bounds s a _ (a + ARENA_SIZE) (heap_shape _ Hok) Ha) as (_ & R' & _); [done|congruence].
    + intros [(a' & x & Ha' & Hv) Hne]. exists a', x. split; [|done]. simpl. rewrite lookup_delete_ne; [done|]. intros <-. rewrite Ha in Ha'. injection Ha' as <-.
      destruct Hv as [Hb _]. done.
  - intros b m z Hv Hne Hz. apply Hc. apply (live_outside s a (Arena None n) b m z Hok Ha Hv); [|done]. intros k [Hb _]. done.
Qed.

Lemma free_full_ok s t a d c x p (Q : unit -> H -> Prop) :
  heap_ok s -> live s p (block_size x) -> arenas s !! a = Some (Arena (Some d) c) -> p ∈ blocks_of a x ->
  heap_ok t -> (descs t).[d] = Some x -> arenas t !! a = Some (Arena (Some d) (blocks_per_arena x)) ->
  (forall b m, live t b m <-> live s b m /\ b <> p) ->
  (forall b m q, live s b m -> b <> p -> b <= q < b + m -> contents t q = contents s q) ->
  (forall s', released p s s' -> Q () s') ->
  wp (for_ (Z.to_nat (blocks_per_arena x)) 0 (fun i => b ← arena_to_block a i; list_remove d b);;
      modify (fun s => set_arenas (delete a (arenas s)) s);; memset a 0xcc PGSIZE;; on_pages (free_pages a 1)) Q t.
Proof.
  intros Hok Hlp Ha Hp Ht Hx Hat Hlive Hcont HQ. wp_step.
  pose proof (all_free t a d x Ht Hat Hx) as Hall.
  eapply (empty_arena_wp t a d x); [by apply heap_shape|done..|]. wp_step. apply wp_modify. wp_step. apply wp_modify. apply on_pages_wp. simpl.
  eapply wp_mono; [apply (free_pages_ok _ _ a 1 (ho_owns _ Ht)); by rewrite lookup_fmap, Hat|]. intros [] q Hq. apply HQ.
  set (s' := set_pages _ _).
  assert (exists c', s' = set_contents c' (without_arena t q a (descs t).[d <- set_free_list (filter (fun b => b ∉ blocks_of a x) (free_list x)) x])
    /\ forall z, ~ (a <= z < a + PGSIZE) -> c' z = contents t z) as (c' & -> & Hc').
  { eexists. split; [done|]. intros z Hz. simpl. by rewrite decide_False. }
  assert (forall b m, live t b m -> b ∉ blocks_of a x) as Hnot.
  { intros b m Hv Hb. apply (live_block t a d _ x b m Ht Hat Hx Hb) in Hv as [Hv _]. by apply Hv, Hall. }
  split.
  - apply set_contents_ok. by eapply drop_arena_ok.
  - intros b m. rewrite <- Hlive. transitivity (live t b m /\ b ∉ blocks_of a x); [exact (drop_arena_live t q a d _ x b m Ht Hat Hx)|].
    split; [by intros [? _]|]. intros Hv. split; [done|by eapply Hnot].
  - intros b m z Hv Hne Hz. rewrite <- (Hcont b m z Hv Hne Hz). apply Hc'.
    assert (live t b m) as Hvt by (by apply Hlive). pose proof (live_outside t a (Arena (Some d) (blocks_per_arena x)) b m z Ht Hat Hvt) as Hout. simpl in Hout.
    replace PGSIZE with (PGSIZE * 1) by lia. apply Hout; [|done]. intros k (ds & Hds & Hb & _). rewrite Hx in Hds. injection Hds as <-. by eapply Hnot.
Qed.

Lemma free_ok s p n : heap_ok s -> live s p n -> wp (free p) (fun _ s' => released p s s') s.
Proof.
  intros Hok Hv. pose proof Hv as (a & y & Ha & Hin). destruct (lives_in_bounds s a y p n Hok Ha Hin) as (Hr & Hn & Hp & _).
  destruct (arena_facts s a y (heap_shape _ Hok) Ha) as (F1 & _). assert (0 < PHYS_BASE /\ ARENA_SIZE = 12) as [F2 F3] by done.
  unfold free. rewrite (proj2 (Z.eqb_neq p 0)) by lia. wp_step. eapply wp_eq.
  { apply (block_to_arena_ok s a y p (heap_shape _ Hok) Ha). unfold block_in, lives_in in *. destruct (a_desc y); [|apply Hin]. destruct Hin as (ds & Hds & Hb & _). by exists ds. }
  wp_step. eapply wp_eq; [by apply get_arena_ok|]. destruct y as [[d|] c]; simpl in *.
  - destruct Hin as (x & Hx & Hb & Hf & ->). wp_step. eapply wp_eq; [by apply get_desc_ok|]. wp_step. apply wp_modify. set (t := set_contents _ _).
    assert (heap_ok t) as Ht by (by apply set_contents_ok).
    wp_step. unfold list_push_front. wp_step. eapply wp_eq; [by apply (get_desc_ok t d x)|]. apply wp_modify. wp_step. apply wp_modify.
    destruct (free_cnt_bound s a d c x Hok Ha Hx) as [Hc Hcp].
    assert (u32 (c + 1) = c + 1) as -> by (apply wrap_small; change (2 ^ 32) with 4294967296; change PGSIZE with 4096 in Hcp; lia).
    lazymatch goal with |- wp ?m ?Q _ => change (wp m Q (relist t d x (p :: free_list x) a (c + 1))) end.
    destruct (push_block_ok t a d c x p Ht Ha Hx Hb Hf) as [Hs2 Hlive]. set (s2 := relist _ _ _ _ _ _) in *.
    assert (forall b m q, live s b m -> b <> p -> b <= q < b + m -> contents s2 q = contents s q) as Hcont.
    { intros b m q Hl Hne Hq. simpl. rewrite decide_False; [done|]. destruct (live_disjoint s b m p (block_size x) Hok Hl Hv Hne); lia. }
    assert ((descs s2).[d] = Some (set_free_list (p :: free_list x) x)) as Hx2 by (apply aget_aset_eq; by eapply aget_lt).
    assert (arenas s2 !! a = Some (Arena (Some d) (c + 1))) as Ha2 by apply lookup_insert_eq.
    destruct (free_cnt_bound s2 a d (c + 1) _ Hs2 Ha2 Hx2) as [Hc2 _]. simpl in Hc2.
    destruct (Z.leb_spec (blocks_per_arena x) (c + 1)) as [Hle|Hlt]; [|wp_step; by split].
    assert (c + 1 = blocks_per_arena x) as Efull by lia. wp_step. apply wp_assert; [by apply Z.eqb_eq|]. rewrite Efull in Ha2.
    apply (free_full_ok s s2 a d c (set_free_list (p :: free_list x) x) p); done.
  - destruct Hin as [-> ->]. wp_step. apply wp_modify. wp_step. apply wp_modify. apply on_pages_wp. simpl.
    eapply wp_mono; [apply (free_pages_ok _ _ a c (ho_owns _ Hok)); by rewrite lookup_fmap, Ha|]. intros [] q Hq.
    apply (drop_big_ok s q a c _ Hok Ha Hq). intros z Hz. simpl. by rewrite decide_False.
Qed.

Lemma size_of_block_ok s p n : heap_ok s -> live s p n -> size_of_block p s = Ok (n, s).
Proof.
  intros Hok (a & y & Ha & Hin). destruct (lives_in_bounds s a y p n Hok Ha Hin) as (_ & Hn & _ & _ & Eo).
  destruct (arena_facts s a y (heap_shape _ Hok) Ha) as (F1 & _ & _ & F4). assert (0 < PHYS_BASE /\ ARENA_SIZE = 12) as [F2 F3] by done.
  cut (wp (size_of_block p) (fun r s' => r = n /\ s' = s) s); [by intros (r & s' & -> & -> & ->)%wp_iff|]. unfold size_of_block. wp_step. eapply wp_eq.
  { apply (block_to_arena_ok s a y p (heap_shape _ Hok) Ha). unfold block_in, lives_in in *. destruct (a_desc y); [|apply Hin]. destruct Hin as (ds & Hds & Hb & _). by exists ds. }
  wp_step. eapply wp_eq; [by apply get_arena_ok|]. destruct y as [[d|] c]; simpl in *.
  - destruct Hin as (x & Hx & _ & _ & ->). wp_step. eapply wp_eq; [by apply get_desc_ok|]. by wp_step.
  - destruct Hin as [-> ->]. wp_step. split; [|done]. rewrite Eo, wrap_small; unfold arena_pages in *; simpl in *; lia.
Qed.

(** ** The allocator as a map from addresses to contents

    What a client knows: the blocks it has, with the bytes that it asked for. *)
Definition bytes_at s (p : Z) (bs : list Z) : Prop := forall i v, bs !! i = Some v -> contents s (p + Z.of_nat i) = v.

Record abs s (B : gmap Z (list Z)) : Prop := {
  ab_ok : heap_ok s;
  ab_block : forall b bs, B !! b = Some bs -> exists n, live s b n /\ 0 < Z.of_nat (length bs) <= n /\ bytes_at s b bs;
  ab_all : forall b n, live s b n -> is_Some (B !! b)
}.

(** [size] bytes at [p] are outside the blocks of [B]. *)
Definition clear (p size : Z) (B : gmap Z (list Z)) : Prop :=
  p <> 0 /\ B !! p = None /\ forall b bs, B !! b = Some bs -> p + size <= b \/ b + Z.of_nat (length bs) <= p.

Lemma abs_add s s' B size p c bs :
  abs s B -> allocated size p s s' -> 0 < size -> (forall b n q, live s b n -> b <= q < b + n -> c q = contents s q) ->
  Z.of_nat (length bs) = size -> bytes_at (set_contents c s') p bs ->
  clear p size B /\ abs (set_contents c s') (<[p := bs]> B).
Proof.
  intros [H1 H2 H3] [A1 (n & Hn & A2) A3 A4 A5] H0 Hc Hlen Hbs. assert (live s' p n) as Hp by (apply A2; by right).
  assert (B !! p = None) as Hnew.
  { destruct (B !! p) as [k|] eqn:E; [|done]. destruct (H2 _ _ E) as (m & Hm & _). by apply A3 in Hm. }
  split.
  - split; [lia|]. split; [done|]. intros b k Hb. destruct (H2 _ _ Hb) as (m & Hm & Hlm & _).
    destruct (live_disjoint s' p n b m A1 Hp) as [|]; [apply A2; by left|congruence|lia..].
  - split; [by apply set_contents_ok| |].
    + intros b k [[<- <-]|[Hne Hb]]%lookup_insert_Some; [exists n; split; [done|split; [lia|done]]|]. destruct (H2 _ _ Hb) as (m & Hm & Hlm & Hk). exists m.
      split; [apply A2; by left|]. split; [done|]. intros i v Hi. pose proof (lookup_lt_Some _ _ _ Hi). simpl. rewrite (Hc b m) by (done || lia). by apply Hk.
    + intros b m Hl. apply A2 in Hl as [Hl|[-> _]]; [|rewrite lookup_insert_eq; by eexists].
      rewrite lookup_insert_ne; [by eapply H3|]. intros <-. by apply A3 in Hl.
Qed.

Lemma abs_remove s s' B p : abs s B -> released p s s' -> abs s' (delete p B).
Proof.
  intros [H1 H2 H3] [R1 R2 R3]. split; [done| |].
  - intros b k [Hne Hb]%lookup_delete_Some. destruct (H2 _ _ Hb) as (m & Hm & Hlm & Hk). exists m. split; [by apply R2|]. split; [done|].
    intros i v Hi. pose proof (lookup_lt_Some _ _ _ Hi). rewrite (R3 b m) by (done || lia). by apply Hk.
  - intros b m [Hl Hne]%R2. rewrite lookup_delete_ne by done. by eapply H3.
Qed.

Lemma abs_same s s' B : abs s B -> same_heap s s' -> abs s' B.
Proof.
  intros [H1 H2 H3] [S1 S2 S3]. split; [done| |intros b n; rewrite S2; apply H3].
  intros b k Hb. destruct (H2 _ _ Hb) as (m & Hm & Hlm & Hk). exists m. split; [by apply S2|]. split; [done|]. intros i v Hi. rewrite S3. by apply Hk.
Qed.

(** The calls of a client. *)
Inductive op := OMalloc (size : Z) | OCalloc (a b : Z) | ORealloc (p size : Z) | OFree (p : Z).

Definition run_op (o : op) : M H Z :=
  match o with
  | OMalloc size => malloc size
  | OCalloc a b => calloc a b
  | ORealloc p size => realloc p size
  | OFree p => free p;; mret 0
  end.

(** A client passes null or one of its blocks, and asks for less than 4 GB. *)
Definition op_pre (o : op) (B : gmap Z (list Z)) : Prop :=
  match o with
  | OMalloc size => 0 <= size /\ size + ARENA_SIZE <= 2 ^ 32
  | OCalloc a b => 0 <= a /\ 0 <= b /\ a * b + ARENA_SIZE <= 2 ^ 32
  | ORealloc p size => (p = 0 \/ is_Some (B !! p)) /\ 0 <= size /\ size + ARENA_SIZE <= 2 ^ 32
  | OFree p => p = 0 \/ is_Some (B !! p)
  end.

(** A new block of [size] bytes at [p] with contents [bs], unless there is no
    memory and [p] is null. *)
Definition grows (p size : Z) (bs : list Z) (B B' : gmap Z (list Z)) : Prop :=
  p = 0 /\ B' = B \/ clear p size B /\ Z.of_nat (length bs) = size /\ B' = <[p := bs]> B.

Definition op_spec (o : op) (B : gmap Z (list Z)) (r : Z) (B' : gmap Z (list Z)) : Prop :=
  match o with
  | OMalloc size => exists bs, grows r size bs B B' /\ (size = 0 -> r = 0)
  | OCalloc a b => grows r (a * b) (replicate (Z.to_nat (a * b)) 0) B B' /\ (a * b = 0 -> r = 0)
  | ORealloc p size =>
    if size =? 0 then r = 0 /\ B' = delete p B
    else exists bs B1, grows r size bs B B1 /\ B' = (if r =? 0 then B1 else delete p B1) /\
      forall old i, B !! p = Some old -> (i < length old)%nat -> (i < length bs)%nat -> r <> 0 -> bs !! i = old !! i
  | OFree p => B' = delete p B
  end.

Lemma abs_null s B : abs s B -> B !! 0 = None.
Proof.
  intros [Hok H2 _]. destruct (B !! 0) as [bs|] eqn:E; [|done]. destruct (H2 _ _ E) as (n & (a & x & Ha & Hl) & _).
  destruct (lives_in_bounds s a x 0 n Hok Ha Hl) as (_ & _ & H & _). destruct (arena_facts s a x (heap_shape _ Hok) Ha) as (F & _).
  assert (0 < PHYS_BASE /\ ARENA_SIZE = 12) as [? ?] by done. lia.
Qed.

(** What [size] bytes at [p] are. *)
Definition read_bytes (c : Z -> Z) (p size : Z) : list Z := map c (seqZ p size).

Lemma length_read_bytes c p size : 0 <= size -> Z.of_nat (length (read_bytes c p size)) = size.
Proof. intros. unfold read_bytes. rewrite length_map, length_seqZ. lia. Qed.

Lemma read_bytes_lookup c p size i v : read_bytes c p size !! i = Some v <-> Z.of_nat i < size /\ v = c (p + Z.of_nat i).
Proof.
  unfold read_bytes. rewrite list_lookup_fmap, fmap_Some. setoid_rewrite lookup_seqZ. split; [intros (z & [Ez Hz] & ->); split; [lia|by rewrite Ez]|].
  intros [Hi ->]. exists (p + Z.of_nat i). split; [split; [done|lia]|done].
Qed.

Lemma bytes_at_read s p size : bytes_at s p (read_bytes (contents s) p size).
Proof. by intros i v [_ ->]%read_bytes_lookup. Qed.

Lemma set_contents_same s : set_contents (contents s) s = s.
Proof. by destruct s. Qed.

Lemma malloc_refines s B size : abs s B -> op_pre (OMalloc size) B ->
  wp (malloc size) (fun r s' => exists B', op_spec (OMalloc size) B r B' /\ abs s' B') s.
Proof.
  intros Hab [H0 Hsize]. destruct (decide (size = 0)) as [->|Hnz].
  { unfold malloc. simpl. wp_step. exists B. split; [|done]. exists []. split; [by left|done]. }
  eapply wp_mono; [apply malloc_ok; [apply Hab|lia|done]|]. intros p s' [[-> Hs]|Hal].
  - exists B. split; [|by eapply abs_same]. exists []. split; [by left|done].
  - pose proof (al_contents _ _ _ _ Hal) as Ec.
    destruct (abs_add s s' B size p (contents s') (read_bytes (contents s') p size) Hab Hal) as [Hcl Hab']; [lia|by rewrite Ec|apply length_read_bytes; lia| |].
    { rewrite set_contents_same. apply bytes_at_read. }
    rewrite set_contents_same in Hab'. eexists. split; [|exact Hab']. eexists. split; [|done]. right. split; [done|]. split; [apply length_read_bytes; lia|done].
Qed.

Lemma calloc_refines s B a b : abs s B -> op_pre (OCalloc a b) B ->
  wp (calloc a b) (fun r s' => exists B', op_spec (OCalloc a b) B r B' /\ abs s' B') s.
Proof.
  intros Hab (Ha & Hb & Hsize). assert (ARENA_SIZE = 12) as Ea by done. unfold calloc. rewrite wrap_small by lia. cbv zeta.
  destruct ((a * b <? a) || (a * b <? b)) eqn:Eo.
  { wp_step. exists B. split; [|done]. split; [by left|done]. }
  destruct (decide (a * b = 0)) as [Ez|Hnz].
  { rewrite Ez. unfold malloc. simpl. repeat wp_step. exists B. split; [|done]. split; [by left|done]. }
  wp_step. eapply wp_mono; [apply malloc_ok; [apply Hab|lia|done]|]. intros p s' [[-> Hs]|Hal].
  - simpl. repeat wp_step. exists B. split; [|by eapply abs_same]. split; [by left|done].
  - pose proof (al_addr _ _ _ _ Hal) as Hp. rewrite (proj2 (Z.eqb_neq p 0)) by lia. simpl. wp_step. apply wp_modify. wp_step.
    destruct (abs_add s s' B (a * b) p (fun q => if decide (p <= q < p + a * b) then 0 else contents s' q) (replicate (Z.to_nat (a * b)) 0) Hab Hal) as [Hcl Hab'];
      [lia| |rewrite length_replicate; lia| |].
    + intros b' n q Hl Hq. destruct Hal as [A1 (m & Hm & A2) A3 _ Ec]. rewrite decide_False; [by rewrite Ec|].
      assert (b' <> p) as Hne by (intros ->; by apply A3 in Hl).
      destruct (live_disjoint s' b' n p m A1) as [|]; [apply A2; by left|apply A2; by right|done|lia..].
    + intros i v [-> Hi]%lookup_replicate. simpl. rewrite decide_True; [done|lia].
    + eexists. split; [|exact Hab']. split; [|done]. right. split; [done|]. split; [rewrite length_replicate; lia|done].
Qed.

Lemma free_refines s B p : abs s B -> op_pre (OFree p) B ->
  wp (free p) (fun _ s' => abs s' (delete p B)) s.
Proof.
  intros Hab [->|[bs Hp]].
  - unfold free. simpl. wp_step. by rewrite delete_id by (by eapply abs_null).
  - destruct (ab_block _ _ Hab p bs Hp) as (n & Hl & _). eapply wp_mono; [by apply (free_ok s p n); [apply Hab|]|]. intros [] s' Hr. by eapply abs_remove.
Qed.

(** The copy of [realloc]: the new block starts with the bytes of the old one. *)
Lemma copied s s' B size p new n old k :
  abs s B -> allocated size new s s' -> 0 < size -> B !! p = Some old -> live s p n -> k = Z.min size n ->
  let c := fun q => if decide (new <= q < new + k) then contents s' (p + (q - new)) else contents s' q in
  clear new size B /\ abs (set_contents c s') (<[new := read_bytes c new size]> B) /\
  forall i, (i < length old)%nat -> (i < length (read_bytes c new size))%nat -> read_bytes c new size !! i = old !! i.
Proof.
  intros Hab Hal H0 Hp Hl Hk c. pose proof Hal as [A1 (m & Hm & A2) A3 _ Ec].
  destruct (ab_block _ _ Hab p old Hp) as (n' & Hl' & Hlen & Hbs). assert (n' = n) as -> by (by eapply live_unique; [apply Hab|..]).
  assert (forall b j q, live s b j -> b <= q < b + j -> c q = contents s q) as Hc.
  { intros b j q Hb Hq. unfold c. assert (b <> new) as Hne by (intros ->; by apply A3 in Hb). rewrite Ec, decide_False; [done|].
    destruct (live_disjoint s' b j new m A1) as [|]; [apply A2; by left|apply A2; by right|done|lia..]. }
  destruct (abs_add s s' B size new c (read_bytes c new size) Hab Hal) as [Hcl Hab']; [lia|done|apply length_read_bytes; lia| |].
  { apply (bytes_at_read (set_contents c s')). }
  split; [done|]. split; [done|]. intros i Hi Hi'. destruct (lookup_lt_is_Some_2 old i Hi) as [v Hv]. rewrite Hv.
  pose proof (length_read_bytes c new size ltac:(lia)). apply read_bytes_lookup. split; [lia|].
  unfold c. rewrite decide_True by lia. rewrite Ec, <- (Hbs i v Hv). f_equal. lia.
Qed.

Lemma realloc_refines s B p size : abs s B -> op_pre (ORealloc p size) B ->
  wp (realloc p size) (fun r s' => exists B', op_spec (ORealloc p size) B r B' /\ abs s' B') s.
Proof.
  intros Hab (Hp & H0 & Hsize). unfold realloc, op_spec. destruct (Z.eqb_spec size 0) as [->|Hnz].
  { wp_step. eapply wp_mono; [by apply (free_refines s B p)|]. intros [] s' Hs. wp_step. by exists (delete p B). }
  wp_step. eapply wp_mono; [apply malloc_ok; [apply Hab|lia|done]|]. intros new s' [[-> Hs]|Hal].
  { rewrite andb_false_r. repeat wp_step. exists B. split; [|by eapply abs_same]. exists [], B. split; [by left|]. split; [done|]. by intros. }
  pose proof (al_addr _ _ _ _ Hal) as Hnew. rewrite (proj2 (Z.eqb_neq new 0)) by lia. simpl. rewrite andb_true_r.
  destruct Hp as [->|[old Hp]].
  - simpl. repeat wp_step. pose proof (al_contents _ _ _ _ Hal) as Ec. pose proof (abs_null s B Hab) as Hn.
    destruct (abs_add s s' B size new (contents s') (read_bytes (contents s') new size) Hab Hal) as [Hcl Hab']; [lia|by rewrite Ec|apply length_read_bytes; lia| |].
    { rewrite set_contents_same. apply bytes_at_read. }
    rewrite set_contents_same in Hab'. eexists. split; [|exact Hab']. exists (read_bytes (contents s') new size). eexists. split; [right; split; [done|]; split; [apply length_read_bytes; lia|done]|].
    split; [|intros old i Ho; congruence]. rewrite (proj2 (Z.eqb_neq new 0)) by lia. rewrite delete_id; [done|]. rewrite lookup_insert_ne; [done|lia].
  - destruct (ab_block _ _ Hab p old Hp) as (n & Hl & Hlen & Hbs). assert (p <> 0) as Hp0 by (intros ->; rewrite (abs_null s B Hab) in Hp; done).
    rewrite (proj2 (Z.eqb_neq p 0)) by done. simpl. pose proof Hal as [A1 (m & Hm & A2) A3 _ Ec].
    wp_step. wp_step. eapply wp_eq; [apply (size_of_block_ok s' p n); [done|apply A2; by left]|]. wp_step. apply wp_modify.
    destruct (copied s s' B size p new n old (if size <? n then size else n) Hab Hal) as (Hcl & Hab' & Hpre);
      [lia|done..|destruct (Z.ltb_spec size n); lia|]. set (c := fun q : Z => _) in Hcl, Hab', Hpre.
    eapply wp_mono; [apply (free_refines (set_contents c s') _ p Hab')|].
    { right. rewrite lookup_insert_ne; [by eexists|]. intros <-. by apply A3 in Hl. }
    intros [] s3 Hs3. wp_step. eexists. split; [|exact Hs3]. exists (read_bytes c new size). eexists. split; [right; split; [done|]; split; [apply length_read_bytes; lia|done]|].
    split; [by rewrite (proj2 (Z.eqb_neq new 0)) by lia|]. intros old' i Ho. rewrite Hp in Ho. injection Ho as <-. intros; by apply Hpre.
Qed.

(** C1: Every call of [malloc], [calloc], [realloc] and [free] with null or a block
    of the client, for less than 4 GB, returns and is an operation of the map
    from the client's blocks to their contents: a new block is not null and
    disjoint from all others, [calloc] clears it and [realloc] starts it with
    the bytes of the old one, which is gone; a block that is not in the call has
    the same bytes afterwards; and without memory null is returned and nothing
    changes. *)
Theorem heap_refines s B o :
  abs s B -> op_pre o B -> wp (run_op o) (fun r s' => exists B', op_spec o B r B' /\ abs s' B') s.
Proof.
  intros Hab Hpre. destruct o; simpl run_op; [by apply malloc_refines|by apply calloc_refines|by apply realloc_refines|].
  wp_step. eapply wp_mono; [by apply free_refines|]. intros [] s' Hs. wp_step. eexists. split; [done|exact Hs].
Qed.

(** [malloc_init] on a new machine. *)
Definition no_heap (q : P) (c : Z -> Z) : H := Heap P q [] ∅ c.

Lemma malloc_init_abs q c : owns q ∅ -> exists s, malloc_init (no_heap q c) = Ok (tt, s) /\ abs s ∅ /\ contents s = c.
Proof.
  intros Hq. eexists. split; [reflexivity|]. split; [|done]. set (s := set_descs _ _).
  assert (Forall (fun x => free_list x = []) (descs s)) as Hf by (by repeat constructor).
  assert (forall d x, (descs s).[d] = Some x -> free_list x = []) as Hnil by (intros d x [_ Hx]%aget_Some; by apply (Forall_lookup_1 _ _ _ _ Hf Hx)).
  split; [split|by intros|by intros b n (a & x & [=] & _)].
  - simpl. by rewrite fmap_empty.
  - split; [done|]. by repeat constructor.
  - intros d x Hx. rewrite (Hnil d x Hx). constructor.
  - intros d x b Hx Hb. rewrite (Hnil d x Hx) in Hb. by apply elem_of_nil in Hb.
  - intros a d n [=].
Qed.
End heap.

(** ** On the page allocator *)

(** Kernel pages. *)
#[export] Instance palloc_pages : PageSource palloc := {
  get_pages := palloc_get_multiple 0;
  free_pages := palloc_free_multiple
}.

#[export] Program Instance palloc_laws : PageLaws palloc := {
  owns s G := exists K U live, live_ok s K U live /\ G ⊆ live
}.
Next Obligation. intros s G a n (K & U & live & Hlv & HG) Ha. eapply live_block_facts; [done|]. by eapply lookup_weaken. Qed.
Next Obligation. intros s G a n b m (K & U & live & Hlv & HG) Ha Hb. eapply live_blocks_apart; [done|by eapply lookup_weaken..]. Qed.
Next Obligation.
  intros s G n (K & U & live & Hlv & HG) Hn. eapply wp_mono; [by apply (get_live 0 n s K U live)|]. intros a s' (K' & U' & [[-> H]|(Ha & Hf & H)]).
  - left. split; [done|]. by exists K', U', live.
  - right. split; [done|]. split; [by eapply lookup_weaken_None|]. exists K', U', (<[a := n]> live). split; [done|by apply insert_mono].
Qed.
Next Obligation. done. Qed.
Next Obligation.
  intros s G a n (K & U & live & Hlv & HG) Ha. eapply wp_mono; [apply (free_live a n s K U live); [done|by eapply lookup_weaken]|].
  intros [] s' (K' & U' & H). exists K', U', (delete a live). split; [done|by apply delete_mono].
Qed.

(** The two allocators when the machine starts. *)
Definition boot : M (heap palloc) unit := on_pages (palloc_init 10);; malloc_init.

Lemma heap_refines_witness :
  wp (boot;; run_op (OCalloc 10 8)) (fun r s' => exists B', op_spec (OCalloc 10 8) ∅ r B' /\ abs s' B') (no_heap demo_boot (fun _ => 7)).
Proof.
  wp_step. unfold boot. wp_step. apply on_pages_wp. eapply wp_mono; [apply (palloc_init_ok demo_boot 10); [simpl; lia|lia|exact demo_mem_pages]|].
  intros [] q (nk & nu & Hlv & _). destruct (malloc_init_abs q (fun _ => 7)) as (s & Es & Hs & _); [by eexists _, _, ∅|].
  eapply wp_eq; [exact Es|]. apply (heap_refines s ∅ (OCalloc 10 8) Hs). split_and!; (done || unfold ARENA_SIZE; lia).
Defined.

(** A block, and how many bytes it has. *)
Definition sized (m : M (heap palloc) Z) : option (bool * Z) :=
  match (boot;; p ← m; n ← size_of_block p; mret (negb (p =? 0), n)) (no_heap demo_boot (fun _ => 7)) with
  | Ok (r, _) => Some r
  | Err _ => None
  end.

