(* ===== verification/Pagedir.v ===== *)
(** * Page directories (src/userprog/pagedir.c)

    The state is the page allocator with its memory, the page directory base
    register CR3 and the translation lookaside buffer.  A page directory is a
    page of memory; its entries point to page table pages.  The TLB maps page
    numbers to the entries the CPU has cached; writing CR3 empties it.
    [as_of] is the abstract address space of a directory, a function from user
    page numbers to page table entries, and the theorems describe every
    operation as an update of that function that leaves all other directories
    alone. *)

From S2P Require Import Prelude Bitmap Vaddr Palloc.

Record pgstate := PgState {
  pal : palloc;
  cr3 : Z;
  tlb : gmap Z Z;
  init_page_dir : Z
}.

Definition set_pal (a : palloc) (s : pgstate) : pgstate :=
  PgState a (cr3 s) (tlb s) (init_page_dir s).

(** A palloc.c operation. *)
Definition lift {A} (m : M palloc A) : M pgstate A := fun s =>
  match m (pal s) with Ok (a, p) => Ok (a, set_pal p s) | Err e => Err e end.

(** Word [i] of the page at [page]. *)
Definition read_word (page i : Z) : M pgstate Z :=
  s ← get;
  ws ← deref (mem (pal s) !! page);
  deref ws.[i].
Definition write_word (page i w : Z) : M pgstate unit :=
  s ← get;
  ws ← deref (mem (pal s) !! page);
  _ ← deref ws.[i];
  put (set_pal (set_mem (<[page := ws.[i <- w]]> (mem (pal s))) (pal s)) s).

Definition pagedir_create : M pgstate Z :=
  pd ← lift (palloc_get_page 0);
  (if negb (pd =? 0) then
     s ← get;
     ws ← deref (mem (pal s) !! init_page_dir s);
     _ ← deref (mem (pal s) !! pd);
     put (set_pal (set_mem (<[pd := ws]> (mem (pal s))) (pal s)) s)
   else mret ());;
  mret pd.

Definition pagedir_destroy (pd : Z) : M pgstate unit :=
  if pd =? 0 then mret () else
  s ← get;
  assert (negb (pd =? init_page_dir s));;
  for_ (Z.to_nat (pd_no PHYS_BASE)) 0 (fun i =>
    pde ← read_word pd i;
    if negb (Z.land pde PTE_P =? 0) then
      pt ← pde_get_pt pde;
      for_ (Z.to_nat (PGSIZE / 4)) 0 (fun j =>
        pte ← read_word pt j;
        if negb (Z.land pte PTE_P =? 0)
        then page ← pte_get_page pte; lift (palloc_free_page page)
        else mret ());;
      lift (palloc_free_page pt)
    else mret ());;
  lift (palloc_free_page pd).

(** The entry is returned as the page table's page and an index. *)
Definition lookup_page (pd vaddr : Z) (create : bool) : M pgstate (option (Z * Z)) :=
  assert (negb (pd =? 0));;
  assert (negb create || is_user_vaddr vaddr);;
  let pde := pd_no vaddr in
  w ← read_word pd pde;
  missing ← (if w =? 0 then
               if create then
                 pt ← lift (palloc_get_page PAL_ZERO);
                 if pt =? 0 then mret true
                 else e ← pde_create pt; write_word pd pde e;; mret false
               else mret true
             else mret false);
  if (missing : bool) then mret None else
  w ← read_word pd pde;
  pt ← pde_get_pt w;
  mret (Some (pt, pt_no vaddr)).

Definition pagedir_set_page (pd upage kpage : Z) (writable : bool) : M pgstate bool :=
  assert (pg_ofs upage =? 0);;
  assert (pg_ofs kpage =? 0);;
  assert (is_user_vaddr upage);;
  p ← vtop kpage;
  s ← get;
  assert (Z.shiftr p PTSHIFT <? init_ram_pages (pal s));;
  assert (negb (pd =? init_page_dir s));;
  pte ← lookup_page pd upage true;
  match pte with
  | Some (pt, i) =>
    w ← read_word pt i;
    assert (Z.land w PTE_P =? 0);;
    e ← pte_create_user kpage writable;
    write_word pt i e;;
    mret true
  | None => mret false
  end.

Definition pagedir_get_page (pd uaddr : Z) : M pgstate Z :=
  assert (is_user_vaddr uaddr);;
  pte ← lookup_page pd uaddr false;
  match pte with
  | Some (pt, i) =>
    w ← read_word pt i;
    if negb (Z.land w PTE_P =? 0)
    then page ← pte_get_page w; mret (u32 (page + pg_ofs uaddr))
    else mret 0
  | None => mret 0
  end.

Definition pagedir_activate (pd : Z) : M pgstate unit :=
  s ← get;
  let pd := if pd =? 0 then init_page_dir s else pd in
  p ← vtop pd;
  put (PgState (pal s) p ∅ (init_page_dir s)).

Definition active_pd : M pgstate Z := s ← get; ptov (cr3 s).

Definition invalidate_pagedir (pd : Z) : M pgstate unit :=
  a ← active_pd;
  if a =? pd then pagedir_activate pd else mret ().

Definition pagedir_clear_page (pd upage : Z) : M pgstate unit :=
  assert (pg_ofs upage =? 0);;
  assert (is_user_vaddr upage);;
  pte ← lookup_page pd upage false;
  match pte with
  | Some (pt, i) =>
    w ← read_word pt i;
    if negb (Z.land w PTE_P =? 0)
    then write_word pt i (Z.land w (u32 (Z.lnot PTE_P)));; invalidate_pagedir pd
    else mret ()
  | None => mret ()
  end.

(** The bit of the entry, false without an entry: [pagedir_is_dirty] and
    [pagedir_is_accessed]. *)
Definition test_pte (pd vpage bit : Z) : M pgstate bool :=
  pte ← lookup_page pd vpage false;
  match pte with
  | Some (pt, i) => w ← read_word pt i; mret (negb (Z.land w bit =? 0))
  | None => mret false
  end.

(** [pagedir_set_dirty] and [pagedir_set_accessed]. *)
Definition set_pte (pd vpage bit : Z) (value : bool) : M pgstate unit :=
  pte ← lookup_page pd vpage false;
  match pte with
  | Some (pt, i) =>
    w ← read_word pt i;
    if value then write_word pt i (Z.lor w bit)
    else write_word pt i (Z.land w (u32 (Z.lnot bit)));; invalidate_pagedir pd
  | None => mret ()
  end.

Definition pagedir_is_dirty (pd vpage : Z) : M pgstate bool := test_pte pd vpage PTE_D.
Definition pagedir_set_dirty (pd vpage : Z) (dirty : bool) : M pgstate unit :=
  set_pte pd vpage PTE_D dirty.
Definition pagedir_is_accessed (pd vpage : Z) : M pgstate bool := test_pte pd vpage PTE_A.
Definition pagedir_set_accessed (pd vpage : Z) (accessed : bool) : M pgstate unit :=
  set_pte pd vpage PTE_A accessed.

(** ** Address spaces *)

(** Directory entries below [PHYS_BASE]. *)
Definition USER_PDES : Z := 768.

(** The pages of a directory: its own and those of its page tables, which
    [pts] lists by directory index. *)
Definition footprint (pd : Z) (pts : gmap Z Z) (q : Z) : Prop :=
  q = pd \/ exists i, pts !! i = Some q.

Record is_pagedir (s : pgstate) (K U : list bool) (pd : Z) (pts : gmap Z Z) : Prop := {
  pd_page : kpage_ok pd;
  pd_used : forall q, footprint pd pts q -> used (pal s) K U q;
  pd_words : exists ws, mem (pal s) !! pd = Some ws /\ length ws = WORDS /\
    forall i, 0 <= i < USER_PDES ->
      ws.[i] = Some match pts !! i with Some pt => entry pt 7 | None => 0 end;
  pd_tables : forall i pt, pts !! i = Some pt -> 0 <= i < USER_PDES /\ kpage_ok pt /\ pt <> pd /\
    exists tws, mem (pal s) !! pt = Some tws /\ length tws = WORDS /\
      Forall (fun w => 0 <= w < 2 ^ 30) tws;
  pd_inj : forall i j pt, pts !! i = Some pt -> pts !! j = Some pt -> i = j
}.

(** The entry for user page number [v]; 0 when there is no page table. *)
Definition as_of (s : pgstate) (pts : gmap Z Z) (v : Z) : Z :=
  match pts !! (v / 1024) with
  | Some pt => match mem (pal s) !! pt with Some tws => default 0 tws.[v mod 1024] | None => 0 end
  | None => 0
  end.

(** All the directories of the system, with disjoint footprints. *)
Record dirs_ok (s : pgstate) (K U : list bool) (D : gmap Z (gmap Z Z)) : Prop := {
  do_pal : pal_rep (pal s) K U;
  do_dir : forall pd pts, D !! pd = Some pts -> is_pagedir s K U pd pts;
  do_sep : forall pd1 pts1 pd2 pts2 q, D !! pd1 = Some pts1 -> D !! pd2 = Some pts2 ->
    footprint pd1 pts1 q -> footprint pd2 pts2 q -> pd1 = pd2
}.

Lemma read_word_ok s page i ws w :
  mem (pal s) !! page = Some ws -> ws.[i] = Some w -> read_word page i s = Ok (w, s).
Proof.
  intros Hp Hi. unfold read_word, mbind, M_bind, get, deref. by rewrite Hp; unfold mret, M_ret; rewrite Hi.
Qed.

Definition put_word (page i w : Z) (ws : list Z) (s : pgstate) : pgstate :=
  set_pal (set_mem (<[page := ws.[i <- w]]> (mem (pal s))) (pal s)) s.

Lemma write_word_ok s page i ws w0 w :
  mem (pal s) !! page = Some ws -> ws.[i] = Some w0 ->
  write_word page i w s = Ok (tt, put_word page i w ws s).
Proof.
  intros Hp Hi. unfold write_word, mbind, M_bind, get, deref.
  by rewrite Hp; unfold mret, M_ret; rewrite Hi.
Qed.

Lemma words_get (ws : list Z) i : length ws = WORDS -> 0 <= i < 1024 -> exists w, ws.[i] = Some w.
Proof. intros Hl Hi. apply aget_is_Some. unfold alen. rewrite Hl. unfold WORDS. lia. Qed.

Lemma entry_nonzero p f : kpage_ok p -> 0 < f < PGSIZE -> entry p f <> 0.
Proof. intros [Hp _] Hf. unfold entry. lia. Qed.

Lemma pte_entry w :
  0 <= w < 2 ^ 30 -> exists p f, kpage_ok p /\ 0 <= f < PGSIZE /\ w = entry p f /\
    p = w / PGSIZE * PGSIZE + PHYS_BASE /\ f = w mod PGSIZE.
Proof.
  intros Hw. exists (w / PGSIZE * PGSIZE + PHYS_BASE), (w mod PGSIZE).
  pose proof (Z.div_mod w PGSIZE ltac:(done)) as E. pose proof (Z.mod_pos_bound w PGSIZE ltac:(done)).
  split_and!; try lia; try (unfold entry; lia). split.
  - assert (0 <= w / PGSIZE) by (apply Z.div_pos; [lia|done]).
    change PGSIZE with 4096 in *. change PHYS_BASE with 0xc0000000. lia.
  - change PHYS_BASE with (0xc0000 * PGSIZE). rewrite <- Z.mul_add_distr_r. by apply Z.mod_mul.
Qed.

Lemma entry_small p f : kpage_ok p -> 0 <= f < PGSIZE -> 0 <= entry p f < 2 ^ 30.
Proof.
  intros Hp Hf. destruct (kpage_phys p Hp) as (a & -> & Ha). unfold entry.
  change PGSIZE with 4096 in *. change PHYS_BASE with 0xc0000000 in *. lia.
Qed.

(** Indices of a user address. *)
Lemma user_indices va :
  0 <= va < PHYS_BASE ->
  0 <= pd_no va < USER_PDES /\ 0 <= pt_no va < 1024 /\
  pd_no va = pg_no va / 1024 /\ pt_no va = pg_no va mod 1024 /\ 0 <= pg_no va < 768 * 1024.
Proof.
  change PHYS_BASE with 0xc0000000. intros Hva. rewrite pd_no_div, pt_no_div, pg_no_div.
  change PGSIZE with 4096. unfold USER_PDES.
  assert (0 <= va / 4096 < 768 * 1024) as Hn.
  { split; [apply Z.div_pos; lia|apply Z.div_lt_upper_bound; lia]. }
  split_and!; try done; try lia.
  - apply Z.div_pos; lia.
  - apply Z.div_lt_upper_bound; lia.
  - apply Z.mod_pos_bound. lia.
  - apply Z.mod_pos_bound. lia.
Qed.

Section lookup.
Context (s : pgstate) (K U : list bool) (pd : Z) (pts : gmap Z Z).
Hypothesis Hpd : is_pagedir s K U pd pts.

Lemma pd_nonzero : pd <> 0.
Proof. destruct (pd_page _ _ _ _ _ Hpd) as [H _]. unfold PHYS_BASE in H. lia. Qed.

Lemma read_pde va :
  0 <= va < PHYS_BASE ->
  read_word pd (pd_no va) s =
    Ok (match pts !! pd_no va with Some pt => entry pt 7 | None => 0 end, s).
Proof.
  intros Hva. destruct (user_indices va Hva) as (Hi & _).
  destruct (pd_words _ _ _ _ _ Hpd) as (ws & Hws & _ & Hget). eapply read_word_ok; [done|by apply Hget].
Qed.

Lemma lookup_page_ok va :
  0 <= va < PHYS_BASE ->
  lookup_page pd va false s =
    Ok (match pts !! pd_no va with Some pt => Some (pt, pt_no va) | None => None end, s).
Proof.
  intros Hva. cut (wp (lookup_page pd va false) (fun r s' => s' = s /\
    r = match pts !! pd_no va with Some pt => Some (pt, pt_no va) | None => None end) s).
  { by intros (r & s' & -> & -> & ->)%wp_iff. }
  unfold lookup_page. pose proof pd_nonzero. do 5 wp_step.
  eapply wp_eq; [by apply read_pde|]. destruct (pts !! pd_no va) as [pt|] eqn:E.
  - destruct (pd_tables _ _ _ _ _ Hpd _ _ E) as (_ & Hpt & _).
    rewrite (proj2 (Z.eqb_neq _ 0)) by (by apply entry_nonzero). do 2 wp_step. wp_step.
    eapply wp_eq; [by apply read_pde|]. rewrite E. wp_step.
    eapply wp_eq; [by apply pde_get_pt_ok|]. by wp_step.
  - simpl. by do 3 wp_step.
Qed.

Lemma read_pte va pt :
  0 <= va < PHYS_BASE -> pts !! pd_no va = Some pt ->
  exists tws w, mem (pal s) !! pt = Some tws /\ length tws = WORDS /\ tws.[pt_no va] = Some w /\
    read_word pt (pt_no va) s = Ok (w, s) /\ as_of s pts (pg_no va) = w /\ 0 <= w < 2 ^ 30.
Proof.
  intros Hva Hpt. destruct (user_indices va Hva) as (_ & Hj & Ed & Et & _).
  destruct (pd_tables _ _ _ _ _ Hpd _ _ Hpt) as (_ & _ & _ & tws & Htws & Hl & Hall).
  destruct (words_get tws (pt_no va) Hl Hj) as [w Hw]. exists tws, w.
  pose proof (Forall_aget _ _ _ _ Hall Hw) as Hwr. cbv beta in Hwr.
  split_and!; try done; try lia; [by eapply read_word_ok|].
  unfold as_of. by rewrite <- Ed, <- Et, Hpt, Htws, Hw.
Qed.

(** A missing page table reads as entries that are not present. *)
Lemma as_of_missing va : pts !! pd_no va = None -> 0 <= va < PHYS_BASE -> as_of s pts (pg_no va) = 0.
Proof.
  intros Hn Hva. destruct (user_indices va Hva) as (_ & _ & Ed & _). unfold as_of. by rewrite <- Ed, Hn.
Qed.

Lemma pagedir_get_page_ok va :
  0 <= va < PHYS_BASE ->
  pagedir_get_page pd va s =
    Ok (let w := as_of s pts (pg_no va) in
        if Z.land w PTE_P =? 0 then 0 else w / PGSIZE * PGSIZE + PHYS_BASE + va mod PGSIZE, s).
Proof.
  intros Hva. cut (wp (pagedir_get_page pd va) (fun r s' => s' = s /\ r =
    let w := as_of s pts (pg_no va) in
    if Z.land w PTE_P =? 0 then 0 else w / PGSIZE * PGSIZE + PHYS_BASE + va mod PGSIZE) s).
  { by intros (r & s' & -> & -> & ->)%wp_iff. }
  unfold pagedir_get_page, is_user_vaddr. do 3 wp_step.
  eapply wp_eq; [by apply lookup_page_ok|]. destruct (pts !! pd_no va) as [pt|] eqn:E.
  2:{ rewrite as_of_missing by done. by wp_step. }
  destruct (read_pte va pt Hva E) as (tws & w & _ & _ & _ & Hrd & -> & Hw).
  wp_step. eapply wp_eq; [exact Hrd|]. cbv zeta. destruct (Z.land w PTE_P =? 0); simpl; [by wp_step|].
  destruct (pte_entry w Hw) as (p & f & Hp & Hf & Ew & Ep & _). unfold pte_get_page. rewrite Ew at 1.
  wp_step. eapply wp_eq; [by apply entry_page|]. wp_step. split; [done|]. rewrite pg_ofs_mod, <- Ep.
  pose proof (Z.mod_pos_bound va PGSIZE ltac:(done)) as Hm.
  destruct (kpage_phys p Hp) as (a & -> & Ha). apply wrap_small.
  change PGSIZE with 4096 in *. change PHYS_BASE with 0xc0000000. lia.
Qed.
End lookup.

(** ** Changes of memory *)
Lemma is_pagedir_mem s s' K U K' U' pd pts :
  is_pagedir s K U pd pts ->
  (forall q, used (pal s) K U q -> used (pal s') K' U' q) ->
  mem (pal s') !! pd = mem (pal s) !! pd ->
  (forall i pt, pts !! i = Some pt -> mem (pal s') !! pt = mem (pal s) !! pt \/
     exists tws, mem (pal s') !! pt = Some tws /\ length tws = WORDS /\ Forall (fun w => 0 <= w < 2 ^ 30) tws) ->
  is_pagedir s' K' U' pd pts.
Proof.
  intros Hpd Hus Hm Ht. split.
  - apply Hpd.
  - intros q Hq. by apply Hus, (pd_used _ _ _ _ _ Hpd).
  - rewrite Hm. apply Hpd.
  - intros i pt Hi. destruct (pd_tables _ _ _ _ _ Hpd i pt Hi) as (? & ? & ? & tws & Htws & ?).
    split_and!; try done; try lia. destruct (Ht i pt Hi) as [->|?]; [by exists tws|done].
  - apply Hpd.
Qed.

Lemma as_of_mem s s' pts v :
  (forall i pt, pts !! i = Some pt -> mem (pal s') !! pt = mem (pal s) !! pt) ->
  as_of s' pts v = as_of s pts v.
Proof. intros Hm. unfold as_of. destruct (pts !! (v / 1024)) eqn:E; [|done]. by rewrite (Hm _ _ E). Qed.

Lemma pool_rep_insert m p bs q ws ws' :
  pool_rep m p bs -> m !! q = Some ws -> length ws' = length ws -> pool_rep (<[q := ws']> m) p bs.
Proof.
  intros [? ? ? ? Hp] Hq Hl. split; try done. intros i Hi. destruct (Hp i Hi) as (w0 & Hw0 & Hl0).
  destruct (decide (q = base p + PGSIZE * i)) as [->|].
  - rewrite lookup_insert_eq. exists ws'. split; [done|]. simplify_eq. congruence.
  - rewrite lookup_insert_ne by done. by exists w0.
Qed.

Lemma length_aset (ws : list Z) i w : length ws.[i <- w] = length ws.
Proof. pose proof (alen_aset ws i w). unfold alen in *. lia. Qed.

Lemma pal_rep_put s K U q i w ws :
  pal_rep (pal s) K U -> mem (pal s) !! q = Some ws -> pal_rep (pal (put_word q i w ws s)) K U.
Proof.
  intros [Hk Hu Hd] Hq. split; simpl; [| |done]; (eapply pool_rep_insert; [done..|apply length_aset]).
Qed.

Lemma put_word_eq q i w ws s : mem (pal (put_word q i w ws s)) !! q = Some ws.[i <- w].
Proof. apply lookup_insert_eq. Qed.

Lemma put_word_ne q q' i w ws s : q' <> q -> mem (pal (put_word q i w ws s)) !! q' = mem (pal s) !! q'.
Proof. intros Hq. simpl. by rewrite lookup_insert_ne. Qed.

(** What all the operations keep besides memory and the bitmaps. *)
Definition same_regs (s s' : pgstate) : Prop :=
  cr3 s' = cr3 s /\ tlb s' = tlb s /\ init_page_dir s' = init_page_dir s /\
  init_ram_pages (pal s') = init_ram_pages (pal s).

Definition same_limits (s s' : pgstate) : Prop :=
  init_page_dir s' = init_page_dir s /\ init_ram_pages (pal s') = init_ram_pages (pal s).

(** The address spaces other than that of [pd] are the same. *)
Definition others_same (s s' : pgstate) (D : gmap Z (gmap Z Z)) (pd : Z) : Prop :=
  forall pd2 pts2 v, pd2 <> pd -> D !! pd2 = Some pts2 -> as_of s' pts2 v = as_of s pts2 v.

(** Writing one entry of a page table of [pd]. *)
Lemma put_pte_ok s K U D pd pts i pt tws j w :
  dirs_ok s K U D -> D !! pd = Some pts -> pts !! i = Some pt ->
  mem (pal s) !! pt = Some tws -> 0 <= j < 1024 -> 0 <= w < 2 ^ 30 ->
  let s' := put_word pt j w tws s in
  dirs_ok s' K U D /\ others_same s s' D pd /\
  forall v, as_of s' pts v = if decide (v = i * 1024 + j) then w else as_of s pts v.
Proof.
  intros HD Hpd Hi Ht Hj Hw s'. pose proof (do_dir _ _ _ _ HD _ _ Hpd) as Hdir.
  destruct (pd_tables _ _ _ _ _ Hdir i pt Hi) as (_ & _ & Hne & tws' & Htws' & Hl & Hall).
  simplify_eq. assert (footprint pd pts pt) as Hfp by (right; eauto). split_and!.
  - split; [apply pal_rep_put; [apply HD|done]| |apply HD].
    intros pd2 pts2 Hpd2. pose proof (do_dir _ _ _ _ HD _ _ Hpd2) as Hdir2.
    eapply is_pagedir_mem; [exact Hdir2|done| |].
    + apply put_word_ne. intros ->. apply Hne. symmetry.
      eapply (do_sep _ _ _ _ HD pd pts pt pts2 pt); [done..|by left].
    + intros k pt2 Hk. destruct (decide (pt2 = pt)) as [->|]; [|left; by apply put_word_ne].
      right. eexists. split; [apply put_word_eq|]. split; [by rewrite length_aset|].
      by apply Forall_aset.
  - intros pd2 pts2 v Hn Hpd2. apply as_of_mem. intros k pt2 Hk. apply put_word_ne. intros ->.
    apply Hn. eapply (do_sep _ _ _ _ HD pd2 pts2 pd pts pt); [done..|right; eauto|done].
  - intros v. unfold as_of. destruct (decide (v = i * 1024 + j)) as [->|Hv].
    + rewrite Z.div_add_l, Z.div_small, Z.add_0_r, Hi by lia. unfold s'. rewrite put_word_eq.
      rewrite Z.add_comm, Z.mod_add, Z.mod_small by lia.
      rewrite aget_aset_eq; [done|]. unfold alen. rewrite Hl. unfold WORDS. lia.
    + destruct (pts !! (v / 1024)) as [pt2|] eqn:E; [|done].
      destruct (decide (pt2 = pt)) as [->|].
      * assert (v / 1024 = i) as Hvi by (by eapply (pd_inj _ _ _ _ _ Hdir)).
        unfold s'. rewrite put_word_eq, Ht. rewrite aget_aset_ne; [done|].
        intros ->. apply Hv. rewrite <- Hvi. rewrite Z.mul_comm. apply Z.div_mod. lia.
      * unfold s'. by rewrite put_word_ne.
Qed.

(** ** A new page table *)
Lemma lift_wp {A} (m : M palloc A) (Q : A -> pgstate -> Prop) s :
  wp m (fun a p => Q a (set_pal p s)) (pal s) -> wp (lift m) Q s.
Proof. unfold wp, lift. by destruct (m _) as [[a p]|e]. Qed.

Lemma used_layout p p' K U q : same_layout p p' -> used p K U q <-> used p' K U q.
Proof. intros Hsl. unfold used. by setoid_rewrite (same_layout_get _ _ _ Hsl). Qed.

(** A page newly taken from the kernel pool. *)
Lemma kernel_page_ok p K U i :
  pal_rep p K U -> 0 <= i < alen K -> kpage_ok (base (kernel_pool p) + PGSIZE * i).
Proof.
  intros Hrep Hi. destruct (pal_kernel _ _ _ Hrep) as [_ Ha Hb He _]. split.
  - change PGSIZE with 4096 in *. change PHYS_BASE with 0xc0000000 in *. lia.
  - by rewrite Z.mul_comm, Z.mod_add.
Qed.

Lemma dirs_ok_pal s K U D p' K' U' :
  dirs_ok s K U D -> pal_rep p' K' U' ->
  (forall q, used (pal s) K U q -> used p' K' U' q /\ mem p' !! q = mem (pal s) !! q) ->
  dirs_ok (set_pal p' s) K' U' D /\
  forall pd pts v, D !! pd = Some pts -> as_of (set_pal p' s) pts v = as_of s pts v.
Proof.
  intros HD Hp' Hus. split.
  - split; [done| |apply HD]. intros pd pts Hpd. pose proof (do_dir _ _ _ _ HD _ _ Hpd) as Hdir.
    eapply is_pagedir_mem; [exact Hdir|intros q Hq; by apply Hus| |].
    + apply Hus, (pd_used _ _ _ _ _ Hdir). by left.
    + intros i pt Hi. left. apply Hus, (pd_used _ _ _ _ _ Hdir). right. eauto.
  - intros pd pts v Hpd. pose proof (do_dir _ _ _ _ HD _ _ Hpd) as Hdir. apply as_of_mem.
    intros i pt Hi. apply Hus, (pd_used _ _ _ _ _ Hdir). right. eauto.
Qed.

(** A page taken from the kernel pool belongs to no directory. *)
Definition taken (s : pgstate) (K K' U : list bool) (D : gmap Z (gmap Z Z)) (zero : bool)
    (p : Z) (s' : pgstate) : Prop :=
  p <> 0 /\ kpage_ok p /\ ~ used (pal s) K U p /\ used (pal s') K' U p /\
  (forall q, used (pal s) K U q -> used (pal s') K' U q) /\
  (forall pd pts, D !! pd = Some pts -> ~ footprint pd pts p) /\
  exists ws, mem (pal s') !! p = Some ws /\ length ws = WORDS /\ (zero = true -> ws = filled 0).

Lemma get_kernel_page_ok s K U D flags :
  dirs_ok s K U D -> flag flags PAL_USER = false -> flag flags PAL_ASSERT = false ->
  wp (lift (palloc_get_page flags)) (fun p s' => same_regs s s' /\
    (forall q, q <> p -> mem (pal s') !! q = mem (pal s) !! q) /\
    (forall pd pts v, D !! pd = Some pts -> as_of s' pts v = as_of s pts v) /\
    exists K', dirs_ok s' K' U D /\
    ((p = 0 /\ K' = K /\ forall i, 0 <= i -> ~ group K 1 false i) \/
     taken s K K' U D (flag flags PAL_ZERO) p s')) s.
Proof.
  intros HD Hfu Hfa. pose proof (do_pal _ _ _ _ HD) as Hpal.
  apply lift_wp. eapply wp_mono; [apply palloc_get_multiple_ok; [done|lia|by rewrite Hfa]|].
  intros p a' (Hsl & Hpost). rewrite Hfu in Hpost. cbn [pick upd_k upd_u get_pool] in Hpost.
  split; [split_and!; [done..|apply Hsl]|].
  destruct Hpost as [(-> & Hno & Hrep & Hm)|(i & -> & Hnz & [Hr Hfree] & _ & Hrep & Hm)].
  - destruct (dirs_ok_pal s K U D a' K U HD Hrep) as [HD' Has].
    { intros q Hq. split; [by apply (used_layout _ _ _ _ _ Hsl)|by rewrite Hm]. }
    split; [intros q _; simpl; by rewrite Hm|]. split; [done|]. exists K. split; [done|]. by left.
  - set (pt := base (kernel_pool (pal s)) + PGSIZE * i) in *. pose proof Hr as (Hi & _ & Hlen).
    pose proof (fun q => used_fill (pal s) a' K U false i 1 true q Hpal Hsl Hr) as Huf.
    cbn [pick upd_k upd_u get_pool] in Huf. cbv zeta in Huf. fold pt in Huf.
    assert (~ used (pal s) K U pt) as Hnu.
    { intros (u & k & E & Hk). pose proof (aget_lt _ _ _ Hk).
      destruct (page_inj _ _ _ false u i k Hpal) as [<- <-]; [simpl; lia|lia|done|].
      simpl in Hk. rewrite Hfree in Hk by lia. done. }
    assert (forall q, in_block pt 1 q <-> q = pt) as Hblk.
    { intros q. split; [|intros ->; apply in_block_first; lia]. intros (k & Hk & ->).
      replace k with 0 by lia. lia. }
    assert (forall q, q <> pt -> mem a' !! q = mem (pal s) !! q) as Hout.
    { intros q Hq. rewrite Hm. destruct (flag flags PAL_ZERO); [|done]. apply fill_mem_out. by rewrite Hblk. }
    assert (forall q, used (pal s) K U q -> used a' (fill K i 1 true) U q) as Hkeep.
    { intros q Hq. apply Huf. right. split; [|done]. intros ->%Hblk. done. }
    destruct (dirs_ok_pal s K U D a' (fill K i 1 true) U HD Hrep) as [HD' Has].
    { intros q Hq. split; [by apply Hkeep|]. apply Hout. by intros ->. }
    split; [done|]. split; [done|]. exists (fill K i 1 true). split; [done|]. right.
    destruct (pr_mem _ _ _ (pal_kernel _ _ _ Hrep) i) as (ws & Hws & Hl); [rewrite alen_fill by done; lia|].
    destruct Hsl as (Hbk & _). rewrite Hbk in Hws. fold pt in Hws.
    split_and!; [done|apply (kernel_page_ok _ K U); [done|lia]|done| |done| |].
    + simpl. apply Huf. left. split; [by apply Hblk|done].
    + intros pd2 pts2 H2 Hq. apply Hnu. by apply (pd_used _ _ _ _ _ (do_dir _ _ _ _ HD _ _ H2)).
    + exists ws. split_and!; [done..|]. intros Hz. rewrite Hm, Hz in Hws.
      rewrite fill_mem_in in Hws by (by apply Hblk). congruence.
Qed.

(** Installing the zeroed page [pt] as the page table of an empty slot. *)
Lemma install_table s K U D pd pts i pt ws :
  dirs_ok s K U D -> D !! pd = Some pts -> 0 <= i < USER_PDES -> pts !! i = None ->
  kpage_ok pt -> used (pal s) K U pt -> mem (pal s) !! pt = Some (filled 0) ->
  (forall pd2 pts2, D !! pd2 = Some pts2 -> ~ footprint pd2 pts2 pt) ->
  mem (pal s) !! pd = Some ws ->
  let s' := put_word pd i (entry pt 7) ws s in
  let pts' := <[i := pt]> pts in
  dirs_ok s' K U (<[pd := pts']> D) /\ others_same s s' D pd /\
  forall v, as_of s' pts' v = as_of s pts v.
Proof.
  intros HD Hpd Hi Hnone Hpt Hus Hz Hfresh Hws s' pts'.
  pose proof (do_dir _ _ _ _ HD _ _ Hpd) as Hdir. assert (pt <> pd) as Hne.
  { intros ->. eapply Hfresh; [exact Hpd|by left]. }
  assert (forall pd2 pts2 q, pd2 <> pd -> D !! pd2 = Some pts2 -> footprint pd2 pts2 q -> q <> pd) as Hother.
  { intros pd2 pts2 q Hn H2 Hq ->. apply Hn. eapply (do_sep _ _ _ _ HD); [exact H2|exact Hpd|exact Hq|by left]. }
  assert (forall q, footprint pd pts' q -> footprint pd pts q \/ q = pt) as Hfp.
  { intros q [->|[k Hk]]; [by left; left|]. apply lookup_insert_Some in Hk as [[_ <-]|[_ Hk]]; [by right|].
    left. right. eauto. }
  split_and!.
  - split; [apply pal_rep_put; [apply HD|done]| |].
    + intros pd2 pts2 [[<- <-]|[Hn H2]]%lookup_insert_Some.
      * destruct (pd_words _ _ _ _ _ Hdir) as (ws' & Hws' & Hl & Hget). simplify_eq. split.
        -- apply Hdir.
        -- intros q [Hq| ->]%Hfp; [by apply (pd_used _ _ _ _ _ Hdir)|done].
        -- eexists. split; [apply put_word_eq|]. split; [by rewrite length_aset|].
           intros k Hk. rewrite aget_aset by (unfold alen; rewrite Hl; unfold WORDS, USER_PDES in *; lia).
           unfold pts'. case_decide as Hik; [subst; by rewrite lookup_insert_eq|].
           rewrite lookup_insert_ne by done. by apply Hget.
        -- intros k q [[<- <-]|[Hik Hk]]%lookup_insert_Some.
           ++ split_and!; try done; try lia. exists (filled 0). unfold s'. rewrite put_word_ne by done.
              split_and!; [done|apply length_filled|]. apply Forall_replicate. lia.
           ++ destruct (pd_tables _ _ _ _ _ Hdir k q Hk) as (? & ? & ? & tws & ? & ?).
              split_and!; try done; try lia. exists tws. unfold s'. by rewrite put_word_ne.
        -- intros k1 k2 q [[<- <-]|[? H1]]%lookup_insert_Some [[<- E]|[? H2]]%lookup_insert_Some; try done.
           ++ exfalso. eapply Hfresh; [exact Hpd|right; eauto].
           ++ subst. exfalso. eapply Hfresh; [exact Hpd|right; eauto].
           ++ by eapply (pd_inj _ _ _ _ _ Hdir).
      * pose proof (do_dir _ _ _ _ HD _ _ H2) as Hdir2. eapply is_pagedir_mem; [exact Hdir2|done| |].
        -- apply put_word_ne. apply (Hother pd2 pts2); [done..|by left].
        -- intros k q Hk. left. apply put_word_ne. apply (Hother pd2 pts2); [done..|right; eauto].
    + intros pd1 pts1 pd2 pts2 q [[<- <-]|[Hn1 H1]]%lookup_insert_Some
        [[<- <-]|[Hn2 H2]]%lookup_insert_Some Hq1 Hq2; [done|..].
      * apply Hfp in Hq1 as [Hq1| ->]; [by eapply (do_sep _ _ _ _ HD)|]. exfalso. by eapply Hfresh.
      * apply Hfp in Hq2 as [Hq2| ->]; [by eapply (do_sep _ _ _ _ HD)|]. exfalso. by eapply Hfresh.
      * by eapply (do_sep _ _ _ _ HD).
  - intros pd2 pts2 v Hn H2. apply as_of_mem. intros k q Hk. apply put_word_ne.
    apply (Hother pd2 pts2); [done..|right; eauto].
  - intros v. unfold as_of, pts'. destruct (decide (i = v / 1024)) as [->|Hv].
    + rewrite lookup_insert_eq, Hnone. unfold s'. rewrite put_word_ne, Hz by done.
      destruct (filled 0).[v mod 1024] as [w|] eqn:E; [|done]. simpl.
      by apply aget_Some in E as [_ [-> _]%lookup_replicate].
    + rewrite lookup_insert_ne by done. destruct (pts !! (v / 1024)) as [q|] eqn:E; [|done].
      unfold s'. rewrite put_word_ne; [done|].
      by destruct (pd_tables _ _ _ _ _ Hdir _ q E) as (_ & _ & ? & _).
Qed.

(** The outcome of [lookup_page] with [create]: a page table for the address,
    new or not, with all the address spaces unchanged; or no free kernel page. *)
Definition create_post (s : pgstate) (K U : list bool) (D : gmap Z (gmap Z Z)) (pd : Z) (pts : gmap Z Z)
    (va : Z) (r : option (Z * Z)) (s' : pgstate) : Prop :=
  same_regs s s' /\ exists K' pts', dirs_ok s' K' U (<[pd := pts']> D) /\ others_same s s' D pd /\
  (forall v, as_of s' pts' v = as_of s pts v) /\
  match r with
  | Some (pt, j) => pts' !! pd_no va = Some pt /\ j = pt_no va
  | None => forall i, 0 <= i -> ~ group K 1 false i
  end.

Lemma new_table_ok s K U D pd pts va :
  dirs_ok s K U D -> D !! pd = Some pts -> 0 <= va < PHYS_BASE -> pts !! pd_no va = None ->
  wp (pt ← lift (palloc_get_page PAL_ZERO);
      if pt =? 0 then mret true
      else e ← pde_create pt; write_word pd (pd_no va) e;; mret false)
    (fun missing s' => create_post s K U D pd pts va None s' /\ missing = true \/
       exists pt, create_post s K U D pd pts va (Some (pt, pt_no va)) s' /\ missing = false) s.
Proof.
  intros HD Hpd Hva Hnone. pose proof (do_dir _ _ _ _ HD _ _ Hpd) as Hdir.
  destruct (user_indices va Hva) as (Hidx & _).
  wp_step. eapply wp_mono; [by apply get_kernel_page_ok|].
  intros pt s1 (Hregs & Hm & Has & K' & HD1 & [(-> & -> & Hno)|Htk]).
  - rewrite Z.eqb_refl. wp_step. left. split; [|done]. split; [done|]. exists K, pts.
    rewrite insert_id by done. split_and!; [done| |intros v; by eapply Has|done].
    intros pd2 pts2 v _ H2. by eapply Has.
  - destruct Htk as (Hnz & Hpt & _ & Hus & _ & Hfresh & tws & Htws & _ & Hz). rewrite Hz in Htws by done.
    destruct (pd_words _ _ _ _ _ (do_dir _ _ _ _ HD1 _ _ Hpd)) as (ws & Hws & Hl & Hget).
    rewrite (proj2 (Z.eqb_neq pt 0)) by done. wp_step. eapply wp_eq; [by apply pde_create_ok|].
    wp_step. eapply wp_eq; [eapply write_word_ok; [exact Hws|by apply Hget]|]. wp_step.
    right. exists pt. split; [|done].
    destruct (install_table s1 K' U D pd pts (pd_no va) pt ws) as (HD2 & Hoth & Has2); [done..|].
    split; [done|]. eexists _, _. split; [exact HD2|]. split_and!; [| |by rewrite lookup_insert_eq|done].
    + intros pd2 pts2 v Hn H2. rewrite Hoth by done. by eapply Has.
    + intros v. rewrite Has2. by eapply Has.
Qed.

Lemma lookup_page_create_ok s K U D pd pts va :
  dirs_ok s K U D -> D !! pd = Some pts -> 0 <= va < PHYS_BASE ->
  wp (lookup_page pd va true) (create_post s K U D pd pts va) s.
Proof.
  intros HD Hpd Hva. pose proof (do_dir _ _ _ _ HD _ _ Hpd) as Hdir.
  unfold lookup_page. pose proof (pd_nonzero _ _ _ _ _ Hdir). do 2 wp_step. wp_step. wp_step.
  { unfold is_user_vaddr. simpl. lia. }
  wp_step. eapply wp_eq; [by eapply read_pde|]. wp_step.
  eapply wp_mono with (P := fun missing s' => create_post s K U D pd pts va None s' /\ missing = true \/
    exists pt, create_post s K U D pd pts va (Some (pt, pt_no va)) s' /\ missing = false).
  - destruct (pts !! pd_no va) as [pt|] eqn:E; [|by apply new_table_ok].
    destruct (pd_tables _ _ _ _ _ Hdir _ _ E) as (_ & Hpt & _).
    rewrite (proj2 (Z.eqb_neq _ 0)) by (by apply entry_nonzero). wp_step. right. exists pt.
    split; [|done]. split; [done|]. exists K, pts. rewrite insert_id by done. done.
  - intros missing s' [[Hpost ->]|(pt & Hpost & ->)]; [by wp_step|].
    pose proof Hpost as (_ & K' & pts' & HD' & _ & _ & Hpt & _).
    assert ((<[pd:=pts']> D) !! pd = Some pts') as Hin by apply lookup_insert_eq.
    pose proof (do_dir _ _ _ _ HD' _ _ Hin) as Hdir'.
    wp_step. eapply wp_eq; [by eapply read_pde|]. rewrite Hpt.
    destruct (pd_tables _ _ _ _ _ Hdir' _ _ Hpt) as (_ & Hok & _).
    wp_step. eapply wp_eq; [by apply pde_get_pt_ok|]. by wp_step.
Qed.

(** ** Mapping a page *)
Lemma pagedir_set_page_ok s K U D pd pts upage kpage w :
  dirs_ok s K U D -> D !! pd = Some pts -> pd <> init_page_dir s ->
  0 <= upage < PHYS_BASE -> upage mod PGSIZE = 0 ->
  kpage_ok kpage -> (kpage - PHYS_BASE) / PGSIZE < init_ram_pages (pal s) ->
  Z.land (as_of s pts (pg_no upage)) PTE_P = 0 ->
  wp (pagedir_set_page pd upage kpage w) (fun ok s' => same_regs s s' /\
    exists K' pts', dirs_ok s' K' U (<[pd := pts']> D) /\ others_same s s' D pd /\
    (forall v, as_of s' pts' v = if decide (ok = true /\ v = pg_no upage)
                                 then entry kpage (user_flags w) else as_of s pts v) /\
    (ok = false -> forall i, 0 <= i -> ~ group K 1 false i)) s.
Proof.
  intros HD Hpd Hinit Hu Hal Hk Hram HP. unfold pagedir_set_page.
  do 2 wp_step. { rewrite pg_ofs_mod, Hal. done. }
  do 2 wp_step. { by apply pg_ofs_kpage. }
  do 2 wp_step. { unfold is_user_vaddr. lia. }
  wp_step. eapply wp_eq; [by apply vtop_ok|]. do 4 wp_step.
  { rewrite Z.shiftr_div_pow2 by done. change (2 ^ PTSHIFT) with PGSIZE. lia. }
  do 2 wp_step. wp_step. eapply wp_mono; [by apply lookup_page_create_ok|].
  intros [[pt j]|] s1 (Hregs & K' & pts' & HD' & Hoth & Has & Hr).
  2:{ wp_step. split; [done|]. exists K', pts'. split_and!; [done..| |done].
      intros v. rewrite decide_False; [apply Has|]. by intros [? _]. }
  destruct Hr as [Hpt ->].
  assert ((<[pd:=pts']> D) !! pd = Some pts') as Hin by apply lookup_insert_eq.
  pose proof (do_dir _ _ _ _ HD' _ _ Hin) as Hdir'.
  destruct (read_pte _ _ _ _ _ Hdir' upage pt Hu Hpt) as (tws & w0 & Htws & Hl & Hw0 & Hrd & Has0 & _).
  wp_step. eapply wp_eq; [exact Hrd|]. do 2 wp_step. { rewrite <- Has0, Has, HP. done. }
  wp_step. eapply wp_eq; [by apply pte_create_user_ok|]. wp_step.
  eapply wp_eq; [by eapply write_word_ok|]. wp_step.
  destruct (user_indices upage Hu) as (_ & Hj & Ed & Et & _).
  destruct (put_pte_ok s1 K' U (<[pd:=pts']> D) pd pts' (pd_no upage) pt tws (pt_no upage) (entry kpage (user_flags w)))
    as (HD2 & Hoth2 & Has2); try done.
  { apply entry_small; [done|by destruct w]. }
  split; [done|]. exists K', pts'. split_and!; [done| | |done].
  - intros pd2 pts2 v Hn H2. rewrite (Hoth2 pd2 pts2 v Hn); [by apply (Hoth pd2)|by rewrite lookup_insert_ne].
  - intros v. rewrite Has2.
    assert (pd_no upage * 1024 + pt_no upage = pg_no upage) as ->.
    { rewrite Ed, Et, Z.mul_comm. symmetry. by apply Z.div_mod. }
    case_decide; [by rewrite decide_True|]. rewrite decide_False; [apply Has|]. by intros [_ ?].
Qed.


(** ** A new directory *)

(** The base directory maps no user page. *)
Definition init_dir_ok (s : pgstate) : Prop :=
  exists ws, mem (pal s) !! init_page_dir s = Some ws /\ length ws = WORDS /\
    forall i, 0 <= i < USER_PDES -> ws.[i] = Some 0.

Lemma pagedir_create_ok s K U D :
  dirs_ok s K U D -> init_dir_ok s -> used (pal s) K U (init_page_dir s) ->
  wp pagedir_create (fun pd s' => same_regs s s' /\
    ((pd = 0 /\ dirs_ok s' K U D /\ (forall i, 0 <= i -> ~ group K 1 false i)) \/
     (D !! pd = None /\ ~ used (pal s) K U pd /\ exists K', dirs_ok s' K' U (<[pd := ∅]> D) /\
      others_same s s' D pd))) s.
Proof.
  intros HD (iws & Hiw & Hil & Hi0) Hiu. unfold pagedir_create.
  wp_step. eapply wp_mono; [by apply get_kernel_page_ok|].
  intros pd s1 (Hregs & Hm & Has & K' & HD1 & [(-> & -> & Hno)|Htk]).
  - rewrite Z.eqb_refl. cbn [negb]. do 3 wp_step. split; [done|]. by left.
  - destruct Htk as (Hnz & Hkp & Hnu & Hus & Hkeep & Hfresh & w0 & Hw0 & Hl0 & _).
    assert (forall pd2 pts2 q, D !! pd2 = Some pts2 -> footprint pd2 pts2 q -> q <> pd) as Hne.
    { intros pd2 pts2 q H2 Hq ->. by eapply Hfresh. }
    assert (D !! pd = None) as HDn.
    { destruct (D !! pd) as [pts|] eqn:E; [|done]. exfalso. eapply Hne; [exact E|by left|done]. }
    assert (init_page_dir s <> pd) as Hni by (intros <-; done).
    rewrite (proj2 (Z.eqb_neq pd 0)) by done. cbn [negb]. do 4 wp_step.
    assert (init_page_dir s1 = init_page_dir s) as Ei by apply Hregs.
    eapply wp_deref; [rewrite Ei, Hm by done; exact Hiw|]. wp_step. eapply wp_deref; [exact Hw0|].
    do 2 wp_step. split; [done|]. right. split; [done|]. split; [done|].
    set (s' := set_pal (set_mem (<[pd := iws]> (mem (pal s1))) (pal s1)) s1).
    assert (forall q, q <> pd -> mem (pal s') !! q = mem (pal s1) !! q) as Hmem.
    { intros q Hq. simpl. by rewrite lookup_insert_ne. }
    exists K'. split; [split|].
    + destruct (do_pal _ _ _ _ HD1) as [Hk Hu Hd].
      split; simpl; [..|done]; (eapply pool_rep_insert; [done..|congruence]).
    + intros pd2 pts2 [[<- <-]|[Hn H2]]%lookup_insert_Some.
      * split; try done.
        -- by intros q [->|[k []%lookup_empty_Some]].
        -- exists iws. simpl. rewrite lookup_insert_eq. split_and!; [done..|]. intros k Hk.
           rewrite lookup_empty. by apply Hi0.
      * eapply is_pagedir_mem; [by apply (do_dir _ _ _ _ HD1)|done|by apply Hmem|].
        intros k q Hk. left. apply Hmem. eapply Hne; [exact H2|right; eauto].
    + intros pd1 pts1 pd2 pts2 q [[<- <-]|[Hn1 H1]]%lookup_insert_Some
        [[<- <-]|[Hn2 H2]]%lookup_insert_Some Hq1 Hq2; [done|..].
      * destruct Hq1 as [->|[k []%lookup_empty_Some]]. by destruct (Hne _ _ _ H2 Hq2).
      * destruct Hq2 as [->|[k []%lookup_empty_Some]]. by destruct (Hne _ _ _ H1 Hq1).
      * by eapply (do_sep _ _ _ _ HD1).
    + intros pd2 pts2 v Hn H2. rewrite <- (Has _ _ v H2). apply as_of_mem. intros k q Hk. apply Hmem.
      eapply Hne; [exact H2|right; eauto].
Qed.

(** ** The translation lookaside buffer

    What the CPU may rely on in a cached entry: the frame and the present,
    writable and user bits.  A cached accessed or dirty bit may differ. *)
Definition TLB_BITS : Z := 0xfffff007.

Definition coherent (s : pgstate) (pts : gmap Z Z) : Prop :=
  forall v w, tlb s !! v = Some w -> 0 <= v < 768 * 1024 ->
    Z.land (as_of s pts v) PTE_P <> 0 /\ Z.land (as_of s pts v) TLB_BITS = Z.land w TLB_BITS.

(** [apd], with page tables [apts], is the directory CR3 points to. *)
Definition active (s : pgstate) (D : gmap Z (gmap Z Z)) (apd : Z) (apts : gmap Z Z) : Prop :=
  D !! apd = Some apts /\ cr3 s = apd - PHYS_BASE.

Lemma invalidate_ok s K U D pd apd apts :
  dirs_ok s K U D -> active s D apd apts -> kpage_ok pd ->
  invalidate_pagedir pd s =
    Ok (tt, if decide (apd = pd) then PgState (pal s) (cr3 s) ∅ (init_page_dir s) else s).
Proof.
  intros HD [Ha Hc] Hp. pose proof (pd_page _ _ _ _ _ (do_dir _ _ _ _ HD _ _ Ha)) as Hk.
  unfold invalidate_pagedir, active_pd, mbind, M_bind, get. rewrite Hc.
  assert (ptov (apd - PHYS_BASE) s = Ok (apd, s)) as ->.
  { destruct (kpage_phys apd Hk) as (a & -> & Har).
    replace (a * PGSIZE + PHYS_BASE - PHYS_BASE) with (a * PGSIZE) by ring.
    apply ptov_ok. change PGSIZE with 4096. lia. }
  destruct (Z.eqb_spec apd pd) as [->|Hne]; [|by rewrite decide_False].
  rewrite decide_True by done. unfold pagedir_activate, mbind, M_bind, get.
  rewrite (proj2 (Z.eqb_neq pd 0)) by (destruct Hk as [? _]; unfold PHYS_BASE in *; lia).
  by rewrite vtop_ok.
Qed.

(** Flushing the TLB changes no address space. *)
Lemma dirs_ok_flush s K U D :
  dirs_ok s K U D -> dirs_ok (PgState (pal s) (cr3 s) ∅ (init_page_dir s)) K U D.
Proof.
  intros [Hp Hd Hs]. split; [done| |done]. intros pd pts Hpd. destruct (Hd pd pts Hpd). by split.
Qed.

Lemma coherent_flush s pts : coherent (PgState (pal s) (cr3 s) ∅ (init_page_dir s)) pts.
Proof. intros v w Hv. simpl in Hv. by apply lookup_empty_Some in Hv. Qed.

(** A change of one entry of [pd] followed by [invalidate_pagedir]. *)
Lemma update_invalidate_ok s K U D pd pts va pt tws w apd apts :
  dirs_ok s K U D -> D !! pd = Some pts -> active s D apd apts -> coherent s apts ->
  0 <= va < PHYS_BASE -> pts !! pd_no va = Some pt -> mem (pal s) !! pt = Some tws -> 0 <= w < 2 ^ 30 ->
  wp (invalidate_pagedir pd) (fun _ s' => dirs_ok s' K U D /\ active s' D apd apts /\ coherent s' apts /\
    others_same s s' D pd /\ same_limits s s' /\
    forall v, as_of s' pts v = if decide (v = pg_no va) then w else as_of s pts v)
    (put_word pt (pt_no va) w tws s).
Proof.
  intros HD Hpd Hact Hco Hva Hpt Htws Hw. destruct (user_indices va Hva) as (_ & Hj & Ed & Et & _).
  destruct (put_pte_ok s K U D pd pts (pd_no va) pt tws (pt_no va) w) as (HD1 & Hoth & Has); [done..|].
  assert (pd_no va * 1024 + pt_no va = pg_no va) as E.
  { rewrite Ed, Et, Z.mul_comm. symmetry. by apply Z.div_mod. }
  rewrite E in Has. set (s1 := put_word pt (pt_no va) w tws s) in *.
  assert (active s1 D apd apts) as Hact1 by done.
  eapply wp_eq; [eapply invalidate_ok; [exact HD1|exact Hact1|apply (do_dir _ _ _ _ HD _ _ Hpd)]|].
  case_decide as Hcase.
  - split_and!; try done. by apply dirs_ok_flush.
  - split_and!; try done. intros v w' Hv Hr.
    destruct Hact as [Ha _]. rewrite (Hoth apd apts v) by done. by apply Hco.
Qed.

(** An entry that is not present is not changed by clearing its present bit. *)
Lemma land_not_present w :
  0 <= w < 2 ^ 30 -> Z.land w PTE_P = 0 -> Z.land w (u32 (Z.lnot PTE_P)) = w.
Proof.
  intros Hw HP. assert (0 <= w < 2 ^ 32) as Hw32 by lia. apply range_iff_wrap in Hw32; [|lia].
  apply Z.bits_inj'. intros n Hn. rewrite Z.land_spec, testbit_wrap, Z.lnot_spec by lia.
  change PTE_P with (2 ^ 0) in *. rewrite testbit_pow2 by lia. destruct (Z.ltb_spec n 32).
  - destruct (Z.eqb_spec 0 n) as [<-|]; [|by rewrite andb_true_r].
    assert (Z.testbit (Z.land w (2 ^ 0)) 0 = false) as Hb by (rewrite HP; apply Z.bits_0).
    rewrite Z.land_spec in Hb. simpl in Hb |- *. rewrite andb_true_r in Hb. by rewrite Hb.
  - simpl. rewrite andb_false_r, <- Hw32, testbit_wrap by lia.
    by rewrite (proj2 (Z.ltb_ge _ _)) by lia.
Qed.

(** The operations that change entries. *)
Inductive pg_op :=
  | PSet (pd upage kpage : Z) (writable : bool)
  | PClear (pd upage : Z)
  | PDirty (pd vpage : Z) (dirty : bool)
  | PAccessed (pd vpage : Z) (accessed : bool).

Definition run_pg_op (o : pg_op) : M pgstate unit :=
  match o with
  | PSet pd upage kpage w => pagedir_set_page pd upage kpage w;; mret ()
  | PClear pd upage => pagedir_clear_page pd upage
  | PDirty pd vpage d => pagedir_set_dirty pd vpage d
  | PAccessed pd vpage a => pagedir_set_accessed pd vpage a
  end.

Definition pg_pre (s : pgstate) (D : gmap Z (gmap Z Z)) (o : pg_op) : Prop :=
  match o with
  | PSet pd upage kpage _ => exists pts, D !! pd = Some pts /\ pd <> init_page_dir s /\
      0 <= upage < PHYS_BASE /\ upage mod PGSIZE = 0 /\ kpage_ok kpage /\
      (kpage - PHYS_BASE) / PGSIZE < init_ram_pages (pal s) /\
      Z.land (as_of s pts (pg_no upage)) PTE_P = 0
  | PClear pd upage => exists pts, D !! pd = Some pts /\ 0 <= upage < PHYS_BASE /\ upage mod PGSIZE = 0
  | PDirty pd vpage _ | PAccessed pd vpage _ =>
      exists pts, D !! pd = Some pts /\ 0 <= vpage < PHYS_BASE
  end.

Definition tlb_post (U : list bool) (D : gmap Z (gmap Z Z)) (apd : Z) (s' : pgstate) : Prop :=
  exists K' D' apts', dirs_ok s' K' U D' /\ dom D' = dom D /\ active s' D' apd apts' /\ coherent s' apts'.

Section tlb.
Context (s : pgstate) (K U : list bool) (D : gmap Z (gmap Z Z)) (apd : Z) (apts : gmap Z Z).
Hypothesis HD : dirs_ok s K U D.
Hypothesis Hact : active s D apd apts.
Hypothesis Hco : coherent s apts.

Lemma pagedir_clear_page_ok pd pts upage :
  D !! pd = Some pts -> 0 <= upage < PHYS_BASE -> upage mod PGSIZE = 0 ->
  wp (pagedir_clear_page pd upage) (fun _ s' => dirs_ok s' K U D /\ active s' D apd apts /\
    coherent s' apts /\ others_same s s' D pd /\ same_limits s s' /\
    forall v, as_of s' pts v = if decide (v = pg_no upage)
                               then Z.land (as_of s pts v) (u32 (Z.lnot PTE_P)) else as_of s pts v) s.
Proof.
  intros Hpd Hu Hal. pose proof (do_dir _ _ _ _ HD _ _ Hpd) as Hdir. unfold pagedir_clear_page.
  do 2 wp_step. { rewrite pg_ofs_mod, Hal. done. }
  do 2 wp_step. { unfold is_user_vaddr. lia. }
  wp_step. eapply wp_eq; [by eapply lookup_page_ok|].
  assert (forall w, as_of s pts (pg_no upage) = w -> Z.land w PTE_P = 0 -> 0 <= w < 2 ^ 30 ->
    forall v, as_of s pts v = if decide (v = pg_no upage)
                              then Z.land (as_of s pts v) (u32 (Z.lnot PTE_P)) else as_of s pts v) as Hsame.
  { intros w Hw HP Hr v. case_decide; [|done]. subst v. by rewrite Hw, land_not_present. }
  destruct (pts !! pd_no upage) as [pt|] eqn:E.
  2:{ wp_step. split_and!; try done; [by apply Hact..|]. eapply Hsame; [by eapply as_of_missing|done|done]. }
  destruct (read_pte _ _ _ _ _ Hdir upage pt Hu E) as (tws & w & Htws & _ & Hw & Hrd & Has & Hr).
  wp_step. eapply wp_eq; [exact Hrd|]. destruct (Z.eqb_spec (Z.land w PTE_P) 0); simpl negb; cbv iota.
  { wp_step. split_and!; try done; [by apply Hact..|]. by eapply Hsame. }
  wp_step. eapply wp_eq; [by eapply write_word_ok|].
  eapply wp_mono; [eapply update_invalidate_ok; try done; by apply (land_range 30)|].
  intros [] s' (H1 & H2 & H3 & H4 & H5 & H6). split_and!; try done; try apply H5; [by apply H2..|].
  intros v. rewrite H6. case_decide; [|done]. subst v. by rewrite Has.
Qed.

(** The accessed and dirty bits. *)
Definition soft_bit (bit : Z) : Prop := bit = PTE_A \/ bit = PTE_D.

Lemma soft_bit_lor w bit m :
  soft_bit bit -> m = TLB_BITS \/ m = PTE_P -> Z.land (Z.lor w bit) m = Z.land w m.
Proof.
  intros Hb Hm. rewrite Z.land_lor_distr_l. assert (Z.land bit m = 0) as ->; [|apply Z.lor_0_r].
  destruct Hb as [->| ->], Hm as [->| ->]; done.
Qed.

Lemma set_pte_ok pd pts vpage bit value :
  D !! pd = Some pts -> 0 <= vpage < PHYS_BASE -> soft_bit bit ->
  wp (set_pte pd vpage bit value) (fun _ s' => dirs_ok s' K U D /\ active s' D apd apts /\
    coherent s' apts /\ others_same s s' D pd /\ same_limits s s' /\
    (forall v, v <> pg_no vpage -> as_of s' pts v = as_of s pts v) /\
    (value = false -> as_of s' pts (pg_no vpage) = Z.land (as_of s pts (pg_no vpage)) (u32 (Z.lnot bit))) /\
    (value = true -> as_of s pts (pg_no vpage) <> 0 -> as_of s' pts (pg_no vpage) = Z.lor (as_of s pts (pg_no vpage)) bit)) s.
Proof.
  intros Hpd Hu Hbit. pose proof (do_dir _ _ _ _ HD _ _ Hpd) as Hdir. unfold set_pte.
  wp_step. eapply wp_eq; [by eapply lookup_page_ok|].
  destruct (pts !! pd_no vpage) as [pt|] eqn:E.
  2:{ wp_step. split_and!; try done; [by apply Hact..| |]; (intros _; by rewrite (as_of_missing s pts vpage)). }
  destruct (read_pte _ _ _ _ _ Hdir vpage pt Hu E) as (tws & w & Htws & _ & Hw & Hrd & Has & Hr).
  assert (0 <= bit < 2 ^ 30) as Hbr by (destruct Hbit as [->| ->]; done).
  wp_step. eapply wp_eq; [exact Hrd|]. destruct value.
  - eapply wp_eq; [by eapply write_word_ok|].
    destruct (user_indices vpage Hu) as (_ & Hj & Ed & Et & _).
    destruct (put_pte_ok s K U D pd pts (pd_no vpage) pt tws (pt_no vpage) (Z.lor w bit))
      as (HD1 & Hoth & Has1); [done..|apply (lor_range 30); lia|].
    assert (pd_no vpage * 1024 + pt_no vpage = pg_no vpage) as Ei.
    { rewrite Ed, Et, Z.mul_comm. symmetry. by apply Z.div_mod. }
    rewrite Ei in Has1. split_and!; try done; [by apply Hact..| | | ].
    + intros v w' Hv Hvr. simpl in Hv. destruct (Hco v w' Hv Hvr) as [HP HT].
      destruct (decide (apd = pd)) as [->|Hne].
      * destruct Hact as [Ha _]. simplify_eq. rewrite Has1. case_decide; [|done]. subst v.
        rewrite (soft_bit_lor _ bit PTE_P), (soft_bit_lor _ bit TLB_BITS) by tauto. done.
      * by rewrite (Hoth apd apts v Hne (proj1 Hact)).
    + intros v Hv. rewrite Has1. by rewrite decide_False.
    + intros _ _. rewrite Has1, decide_True by done. by rewrite Has.
  - wp_step. eapply wp_eq; [by eapply write_word_ok|].
    eapply wp_mono; [eapply update_invalidate_ok; try done; by apply (land_range 30)|].
    intros [] s' (H1 & H2 & H3 & H4 & H5 & H6). split_and!; try done; try apply H5; [by apply H2..| |].
    + intros v Hv. rewrite H6. by rewrite decide_False.
    + intros _. rewrite H6, decide_True by done. by rewrite Has.
Qed.

(** A new translation leaves the cached ones right. *)
Lemma set_page_coherent pd pts pts' upage (ok : bool) w s' :
  D !! pd = Some pts -> Z.land (as_of s pts (pg_no upage)) PTE_P = 0 -> same_regs s s' -> others_same s s' D pd ->
  (forall v, as_of s' pts' v = if decide (ok = true /\ v = pg_no upage) then w else as_of s pts v) ->
  exists apts', active s' (<[pd := pts']> D) apd apts' /\ coherent s' apts'.
Proof.
  intros Hpd HP (Hcr & Htlb & _) Hoth Has. destruct Hact as [Ha Hc]. destruct (decide (apd = pd)) as [->|Hne].
  - exists pts'. split; [split; [apply lookup_insert_eq|congruence]|].
    intros v w' Hv Hvr. rewrite Htlb in Hv. destruct (Hco v w' Hv Hvr) as [HPv HTv].
    simplify_eq. rewrite Has, decide_False; [done|]. by intros [_ ->].
  - exists apts. split; [split; [by rewrite lookup_insert_ne|congruence]|].
    intros v w' Hv Hvr. rewrite Htlb in Hv. rewrite (Hoth apd apts v Hne Ha). by apply Hco.
Qed.

Lemma set_page_tlb pd pts upage kpage w :
  D !! pd = Some pts -> pd <> init_page_dir s -> 0 <= upage < PHYS_BASE -> upage mod PGSIZE = 0 ->
  kpage_ok kpage -> (kpage - PHYS_BASE) / PGSIZE < init_ram_pages (pal s) ->
  Z.land (as_of s pts (pg_no upage)) PTE_P = 0 ->
  wp (pagedir_set_page pd upage kpage w) (fun _ s' => tlb_post U D apd s') s.
Proof.
  intros Hpd Hi Hu Hal Hk Hram HP. eapply wp_mono; [by eapply pagedir_set_page_ok|].
  intros ok s' (Hregs & K' & pts' & HD' & Hoth & Has & _).
  destruct (set_page_coherent pd pts pts' upage ok _ s' Hpd HP Hregs Hoth Has) as (apts' & Hact' & Hco').
  exists K', (<[pd := pts']> D), apts'. split_and!; try done; [|by apply Hact'..].
  rewrite dom_insert_L. apply elem_of_dom_2 in Hpd. set_solver.
Qed.
End tlb.


(** ** An example: a directory with one free kernel page left *)
Definition demo_base : Z := PHYS_BASE + 2 ^ 20.
Definition demo_page (i : Z) : Z := demo_base + PGSIZE * i.
Definition demo_pg : pgstate := PgState
  (Palloc (Pool (Bitmap 3 [3]) demo_base) (Pool (Bitmap 1 [0]) (demo_page 3)) (fill_mem ∅ demo_base 4 0) 300)
  (demo_page 1 - PHYS_BASE) ∅ (demo_page 0).
Definition demo_K : list bool := [true; true; false].
Definition demo_U : list bool := [false].
Definition demo_D : gmap Z (gmap Z Z) := {[demo_page 1 := ∅]}.

Lemma demo_lookup i : 0 <= i < 4 -> fill_mem ∅ demo_base 4 0 !! demo_page i = Some (filled 0).
Proof. intros Hi. apply fill_mem_in. by exists i. Qed.

Lemma demo_pal : pal_rep (pal demo_pg) demo_K demo_U.
Proof.
  split.
  - split; [|reflexivity|vm_compute; discriminate..|].
    + change demo_K with (map (bit (Bitmap 3 [3])) (seqZ 0 3)).
      apply is_bitmap_intro; [lia|vm_compute; discriminate|repeat constructor; lia].
    + intros i Hi. exists (filled 0). split; [|apply length_filled]. apply (demo_lookup i).
      change (alen demo_K) with 3 in Hi. lia.
  - split; [|reflexivity|vm_compute; discriminate..|].
    + change demo_U with (map (bit (Bitmap 1 [0])) (seqZ 0 1)).
      apply is_bitmap_intro; [lia|vm_compute; discriminate|repeat constructor; lia].
    + intros i Hi. change (alen demo_U) with 1 in Hi. assert (i = 0) as -> by lia.
      exists (filled 0). split; [|apply length_filled].
      change (base (user_pool (pal demo_pg)) + PGSIZE * 0) with (demo_page 3). by apply demo_lookup.
  - vm_compute. discriminate.
Qed.

Lemma demo_dirs : dirs_ok demo_pg demo_K demo_U demo_D.
Proof.
  unfold demo_D. split; [apply demo_pal| |].
  - intros pd pts [<- <-]%lookup_singleton_Some. split.
    + split; [split; [vm_compute; discriminate|reflexivity]|reflexivity].
    + intros q [->|[i []%lookup_empty_Some]]. by exists false, 1.
    + exists (filled 0). split; [by apply demo_lookup|]. split; [apply length_filled|].
      intros i Hi. rewrite lookup_empty. apply aget_Some. split; [unfold USER_PDES in Hi; lia|].
      apply lookup_replicate_2. unfold WORDS, USER_PDES in *. lia.
    + by intros i pt []%lookup_empty_Some.
    + by intros i j pt []%lookup_empty_Some.
  - intros pd1 pts1 pd2 pts2 q [<- <-]%lookup_singleton_Some [<- <-]%lookup_singleton_Some. done.
Qed.

Lemma demo_unmapped : demo_D !! demo_page 1 = Some ∅ /\ Z.land (as_of demo_pg ∅ (pg_no 0x08048000)) PTE_P = 0.
Proof. split; [apply lookup_singleton_eq|reflexivity]. Qed.


