(* ===== verification/Thread.v ===== *)
(** * Threads and the scheduler (src/threads/thread.c)

    The state of the threading system: the threads with their status and what
    they still have to execute, the ready list, the running thread, and the
    semaphores, lock holders and condition variables of synch.c that threads
    share.  What a thread executes is a list of atomic actions, [act]: each is
    a piece of code that runs with interrupts disabled or makes one access to
    shared memory, so that interrupts, and with them thread switches, happen
    between actions and not inside them.  A thread is identified by its tid.
    This file has the operations of thread.c on that state; Synch has those of
    synch.c, the execution of actions and the theorems. *)

From S2P Require Import Prelude.

Inductive thread_status := THREAD_RUNNING | THREAD_READY | THREAD_BLOCKED | THREAD_DYING.

#[export] Instance thread_status_eq_dec : EqDecision thread_status.
Proof. solve_decision. Defined.

(** The semaphores: those inside locks, others of the kernel, the one on the
    stack of a thread in [cond_wait], and a thread's [wait_sema] and
    [load_sema]. *)
Inductive sema_id :=
  | SLock (l : Z)
  | SKern (n : Z)
  | SWaiter (t : Z)
  | SWait (t : Z)
  | SLoad (t : Z).

#[export] Instance sema_id_eq_dec : EqDecision sema_id.
Proof. solve_decision. Defined.

#[export] Instance sema_id_countable : Countable sema_id.
Proof.
  refine (inj_countable'
    (fun s => match s with
              | SLock l => (0, l) | SKern n => (1, n) | SWaiter t => (2, t)
              | SWait t => (3, t) | SLoad t => (4, t) end)
    (fun p => let '(k, n) := (p : Z * Z) in
              if k =? 0 then SLock n else if k =? 1 then SKern n else if k =? 2 then SWaiter n
              else if k =? 3 then SWait n else SLoad n) _).
  by intros [].
Defined.

(** Atomic actions.  [ACreate f pages] is [thread_create] with the function
    number [f] when the page allocator has [pages] pages left for it; the
    comments name the statement an action comes from. *)
Inductive act :=
  | ADown (s : sema_id)              (* one test of the loop of sema_down *)
  | AUp (s : sema_id)                (* sema_up *)
  | AInit (s : sema_id) (v : Z)      (* sema_init *)
  | AAssertFree (l : Z)              (* ASSERT (!lock_held_by_current_thread (lock)) *)
  | AAssertHeld (l : Z)              (* ASSERT (lock_held_by_current_thread (lock)) *)
  | ATryDown (l : Z)                 (* success = sema_try_down; if (success) ... *)
  | ASetHolder (l : Z)               (* lock->holder = thread_current () *)
  | AClearHolder (l : Z)             (* lock->holder = NULL *)
  | AEnqueue (c : Z) (s : sema_id)   (* list_push_back (&cond->waiters, ...) *)
  | ASignal (c : Z)                  (* the body of cond_signal *)
  | ABroadcast (c l : Z)             (* the loop of cond_broadcast *)
  | AYield                           (* thread_yield *)
  | ACreate (f pages : Z)            (* thread_create *)
  | AExitUp                          (* sema_up (&thread_current()->parent->wait_sema) *)
  | ADie                             (* the end of thread_exit *)
  | ASetStatus (status : Z)          (* child_struct_ptr->exit_status = status *)
  | AWait (tid : Z)                  (* process_wait up to its sema_down *)
  | ATakeStatus (tid : Z).           (* process_wait after its sema_down *)

(** [struct thread_child]. *)
Record thread_child := ThreadChild { child_tid : Z; exit_status : Z }.

Record thread := Thread {
  status : thread_status;
  cont : list act;             (* what is left to execute *)
  parent : Z;                  (* tid of the parent, 0 for none *)
  children : list thread_child;
  retval : Z                   (* result of the last process_wait *)
}.

Record semaphore := Semaphore { value : Z; waiters : list Z }.

Record kst := Kst {
  threads : gmap Z thread;
  ready_list : list Z;
  all_list : list Z;
  current : Z;
  idle_thread : Z;
  initial_thread : Z;
  next_tid : Z;
  thread_ticks : Z;
  semas : gmap sema_id semaphore;
  holders : gmap Z Z;          (* holder of each lock, 0 for none *)
  conds : gmap Z (list sema_id)
}.

Definition UNUSED_CHILD_EXIT_STATUS : Z := -666.
Definition SYSCALL_ERROR : Z := -1.
Definition TIME_SLICE : Z := 4.

(** ** Field updates *)
Definition set_threads (m : gmap Z thread) (s : kst) : kst :=
  Kst m (ready_list s) (all_list s) (current s) (idle_thread s) (initial_thread s) (next_tid s)
      (thread_ticks s) (semas s) (holders s) (conds s).
Definition set_ready (l : list Z) (s : kst) : kst :=
  Kst (threads s) l (all_list s) (current s) (idle_thread s) (initial_thread s) (next_tid s)
      (thread_ticks s) (semas s) (holders s) (conds s).
Definition set_all (l : list Z) (s : kst) : kst :=
  Kst (threads s) (ready_list s) l (current s) (idle_thread s) (initial_thread s) (next_tid s)
      (thread_ticks s) (semas s) (holders s) (conds s).
Definition set_current (t : Z) (s : kst) : kst :=
  Kst (threads s) (ready_list s) (all_list s) t (idle_thread s) (initial_thread s) (next_tid s)
      (thread_ticks s) (semas s) (holders s) (conds s).
Definition set_next_tid (n : Z) (s : kst) : kst :=
  Kst (threads s) (ready_list s) (all_list s) (current s) (idle_thread s) (initial_thread s) n
      (thread_ticks s) (semas s) (holders s) (conds s).
Definition set_ticks (n : Z) (s : kst) : kst :=
  Kst (threads s) (ready_list s) (all_list s) (current s) (idle_thread s) (initial_thread s) (next_tid s)
      n (semas s) (holders s) (conds s).
Definition set_semas (m : gmap sema_id semaphore) (s : kst) : kst :=
  Kst (threads s) (ready_list s) (all_list s) (current s) (idle_thread s) (initial_thread s) (next_tid s)
      (thread_ticks s) m (holders s) (conds s).
Definition set_holders (m : gmap Z Z) (s : kst) : kst :=
  Kst (threads s) (ready_list s) (all_list s) (current s) (idle_thread s) (initial_thread s) (next_tid s)
      (thread_ticks s) (semas s) m (conds s).
Definition set_conds (m : gmap Z (list sema_id)) (s : kst) : kst :=
  Kst (threads s) (ready_list s) (all_list s) (current s) (idle_thread s) (initial_thread s) (next_tid s)
      (thread_ticks s) (semas s) (holders s) m.

(** Dereferencing a thread pointer; [is_thread] is that there is a thread. *)
Definition get_thread (t : Z) : M kst thread := s ← get; deref (threads s !! t).
Definition put_thread (t : Z) (x : thread) : M kst unit :=
  modify (fun s => set_threads (<[t := x]> (threads s)) s).

Definition with_status (st : thread_status) (x : thread) : thread :=
  Thread st (cont x) (parent x) (children x) (retval x).
Definition with_cont (k : list act) (x : thread) : thread :=
  Thread (status x) k (parent x) (children x) (retval x).
Definition with_children (l : list thread_child) (x : thread) : thread :=
  Thread (status x) (cont x) (parent x) l (retval x).
Definition with_retval (v : Z) (x : thread) : thread :=
  Thread (status x) (cont x) (parent x) (children x) v.

Definition set_status (t : Z) (st : thread_status) : M kst unit :=
  x ← get_thread t; put_thread t (with_status st x).

(** ** Operations *)
Definition thread_current : M kst Z :=
  s ← get;
  x ← get_thread (current s);
  assert (bool_decide (status x = THREAD_RUNNING));;
  mret (current s).

Definition next_thread_to_run : M kst Z :=
  s ← get;
  match ready_list s with
  | [] => mret (idle_thread s)
  | t :: rest => put (set_ready rest s);; mret t
  end.

(** [palloc_free_page (prev)] is the end of the thread, and of the semaphores
    inside its [struct thread] and on its stack. *)
Definition free_thread (p : Z) (s : kst) : kst :=
  set_semas (delete (SWait p) (delete (SLoad p) (delete (SWaiter p) (semas s))))
    (set_threads (delete p (threads s)) s).

Definition thread_schedule_tail (prev : option Z) : M kst unit :=
  s ← get;
  let cur := current s in
  set_status cur THREAD_RUNNING;;
  modify (set_ticks 0);;
  match prev with
  | None => mret ()
  | Some p =>
    x ← get_thread p;
    if bool_decide (status x = THREAD_DYING) && negb (p =? initial_thread s) then
      assert (negb (p =? cur));;
      modify (free_thread p)
    else mret ()
  end.

(** [switch_threads] makes [next] the running thread. *)
Definition schedule : M kst unit :=
  s ← get;
  let cur := current s in
  next ← next_thread_to_run;
  x ← get_thread cur;
  assert (negb (bool_decide (status x = THREAD_RUNNING)));;
  s ← get;
  assert (bool_decide (is_Some (threads s !! next)));;
  (if negb (cur =? next) then modify (set_current next) else mret ());;
  thread_schedule_tail (if negb (cur =? next) then Some cur else None).

Definition thread_block : M kst unit :=
  t ← thread_current;
  set_status t THREAD_BLOCKED;;
  schedule.

Definition thread_unblock (t : Z) : M kst unit :=
  s ← get;
  assert (bool_decide (is_Some (threads s !! t)));;
  x ← get_thread t;
  assert (bool_decide (status x = THREAD_BLOCKED));;
  modify (fun s => set_ready (ready_list s ++ [t]) s);;
  set_status t THREAD_READY.

Definition thread_yield : M kst unit :=
  cur ← thread_current;
  s ← get;
  (if negb (cur =? idle_thread s) then put (set_ready (ready_list s ++ [cur]) s) else mret ());;
  set_status cur THREAD_READY;;
  schedule.

(** [thread_tick] and, when it asks for it, the yield on return from the
    interrupt. *)
Definition thread_tick : M kst unit :=
  s ← get;
  _ ← thread_current;
  let n := u32 (thread_ticks s + 1) in
  modify (set_ticks n);;
  if TIME_SLICE <=? n then thread_yield else mret ().

Definition allocate_tid : M kst Z :=
  s ← get;
  let tid := next_tid s in
  put (set_next_tid (s32 (tid + 1)) s);;
  mret tid.

(** [init_thread]: a blocked thread on the list of all threads, with its two
    semaphores. *)
Definition init_thread (t : Z) (code : list act) (par : Z) : M kst unit :=
  s ← get;
  put (set_all (all_list s ++ [t])
      (set_semas (<[SWait t := Semaphore 0 []]> (<[SLoad t := Semaphore 0 []]> (semas s)))
      (set_threads (<[t := Thread THREAD_BLOCKED code par [] 0]> (threads s)) s))).

(** [thread_create] allocates a page for the thread and one for its
    [struct thread_child]; without the second it returns with the new thread
    on the list of all threads, blocked and never started.  The code a thread
    runs may depend on where the thread is, as the address of a variable on its
    stack does. *)
Definition TID_ERROR : Z := -1.

Definition thread_create (code : Z -> list act) (pages : Z) : M kst Z :=
  cur ← thread_current;
  if pages <? 1 then mret TID_ERROR else
  tid ← allocate_tid;
  if pages <? 2 then init_thread tid [] 0;; mret TID_ERROR else
  init_thread tid (code tid) cur;;
  x ← get_thread cur;
  put_thread cur (with_children (children x ++ [ThreadChild tid UNUSED_CHILD_EXIT_STATUS]) x);;
  thread_unblock tid;;
  mret tid.

(** The loop over the children: [get_child_by_tid]. *)
Fixpoint get_child_by_tid (l : list thread_child) (tid : Z) : option thread_child :=
  match l with
  | [] => None
  | c :: rest => if child_tid c =? tid then Some c else get_child_by_tid rest tid
  end.

(** The end of [thread_exit]: off the list of all threads, dying, and away. *)
Definition thread_exit : M kst unit :=
  t ← thread_current;
  modify (fun s => set_all (filter (fun x => x <> t) (all_list s)) s);;
  set_status t THREAD_DYING;;
  schedule.
