(* ===== verification/Synch.v ===== *)
(** * Semaphores, locks, condition variables (src/threads/synch.c)

    The operations of synch.c as lists of atomic actions composed the way the
    functions call each other, and [exec], which executes one action of the
    running thread.  [step] is one event of the machine: the running thread
    executes an action, or the timer interrupts it.  [run] is any sequence of
    events, so the theorems hold for every interleaving the timer can cause.

    The theorems: the scheduler's invariant (one running thread, a ready
    thread is on the ready list exactly once, a blocked thread on the waiters
    of exactly one semaphore), mutual exclusion of locks, no lost wakeups, and
    conservation of semaphore units. *)

From S2P Require Import Prelude Thread.

(** ** The functions of synch.c *)
Definition sema_down (s : sema_id) : list act := [ADown s].
Definition sema_up_act (s : sema_id) : list act := [AUp s].

Definition lock_acquire (l : Z) : list act := [AAssertFree l] ++ sema_down (SLock l) ++ [ASetHolder l].
Definition lock_try_acquire (l : Z) : list act := [AAssertFree l; ATryDown l].
Definition lock_release (l : Z) : list act := [AAssertHeld l; AClearHolder l] ++ sema_up_act (SLock l).

(** Thread [t] waits with the [struct semaphore_elem] on its stack. *)
Definition cond_wait (t c l : Z) : list act :=
  [AAssertHeld l; AInit (SWaiter t) 0; AEnqueue c (SWaiter t)] ++
  lock_release l ++ sema_down (SWaiter t) ++ lock_acquire l.
Definition cond_signal (c l : Z) : list act := [AAssertHeld l; ASignal c].
Definition cond_broadcast (c l : Z) : list act := [ABroadcast c l].

(** [exit] of syscall.c followed by [thread_exit], and [process_wait]. *)
Definition exit_ (status : Z) : list act := [ASetStatus status; AExitUp; ADie].
Definition process_wait (tid : Z) : list act := [AWait tid].

(** ** Execution *)
Definition get_sema (i : sema_id) : M kst semaphore := s ← get; deref (semas s !! i).
Definition put_sema (i : sema_id) (x : semaphore) : M kst unit :=
  modify (fun s => set_semas (<[i := x]> (semas s)) s).

Definition sema_init (i : sema_id) (v : Z) : M kst unit := put_sema i (Semaphore v []).

Definition sema_up (i : sema_id) : M kst unit :=
  x ← get_sema i;
  match waiters x with
  | [] => put_sema i (Semaphore (u32 (value x + 1)) [])
  | t :: rest =>
    put_sema i (Semaphore (value x) rest);;
    thread_unblock t;;
    y ← get_sema i;
    put_sema i (Semaphore (u32 (value y + 1)) (waiters y))
  end.

Definition sema_try_down (i : sema_id) : M kst bool :=
  x ← get_sema i;
  if 0 <? value x
  then put_sema i (Semaphore (u32 (value x - 1)) (waiters x));; mret true
  else mret false.

Definition lock_held_by_current_thread (l : Z) : M kst bool :=
  s ← get;
  h ← deref (holders s !! l);
  t ← thread_current;
  mret (h =? t).

Definition set_cont (t : Z) (k : list act) : M kst unit :=
  x ← get_thread t; put_thread t (with_cont k x).

(** [child_list_elem] leads to the [struct thread_child] in the parent's list,
    which outlives the parent; nobody reads it then, or after [process_wait]
    took it off the list.  The initial thread has none. *)
Definition set_exit_status (t st : Z) : M kst unit :=
  x ← get_thread t;
  s ← get;
  if parent x =? 0 then fail BadPointer
  else match threads s !! parent x with
       | None => mret ()
       | Some p => put_thread (parent x) (with_children
           (map (fun c => if child_tid c =? t then ThreadChild t st else c) (children p)) p)
       end.

Section exec.
(** The code of each function a thread can be created with. *)
Variable body : Z -> Z -> list act.

(** Execute action [a] of the running thread, [k] being the rest. *)
Definition exec (a : act) (k : list act) : M kst unit :=
  cur ← thread_current;
  match a with
  | ADown i =>
    x ← get_sema i;
    if value x =? 0 then
      put_sema i (Semaphore (value x) (waiters x ++ [cur]));;
      thread_block
    else
      put_sema i (Semaphore (u32 (value x - 1)) (waiters x));;
      set_cont cur k
  | AUp i => sema_up i;; set_cont cur k
  | AInit i v => sema_init i v;; set_cont cur k
  | AAssertFree l =>
    h ← lock_held_by_current_thread l; assert (negb h);; set_cont cur k
  | AAssertHeld l =>
    h ← lock_held_by_current_thread l; assert h;; set_cont cur k
  | ATryDown l =>
    success ← sema_try_down (SLock l);
    set_cont cur (if success : bool then ASetHolder l :: k else k)
  | ASetHolder l =>
    s ← get; _ ← deref (holders s !! l);
    put (set_holders (<[l := cur]> (holders s)) s);; set_cont cur k
  | AClearHolder l =>
    s ← get; _ ← deref (holders s !! l);
    put (set_holders (<[l := 0]> (holders s)) s);; set_cont cur k
  | AEnqueue c i =>
    s ← get; ws ← deref (conds s !! c);
    put (set_conds (<[c := ws ++ [i]]> (conds s)) s);; set_cont cur k
  | ASignal c =>
    s ← get; ws ← deref (conds s !! c);
    match ws with
    | [] => set_cont cur k
    | i :: rest => put (set_conds (<[c := rest]> (conds s)) s);; set_cont cur (AUp i :: k)
    end
  | ABroadcast c l =>
    s ← get; ws ← deref (conds s !! c);
    match ws with
    | [] => set_cont cur k
    | _ :: _ => set_cont cur (cond_signal c l ++ ABroadcast c l :: k)
    end
  | AYield => set_cont cur k;; thread_yield
  | ACreate f pages => _ ← thread_create (body f) pages; set_cont cur k
  | AExitUp => x ← get_thread cur; sema_up (SWait (parent x));; set_cont cur k
  | ADie => thread_exit
  | ASetStatus st => set_exit_status cur st;; set_cont cur k
  | AWait tid =>
    x ← get_thread cur;
    match get_child_by_tid (children x) tid with
    | None => put_thread cur (with_cont k (with_retval SYSCALL_ERROR x))
    | Some _ => set_cont cur (sema_down (SWait cur) ++ ATakeStatus tid :: k)
    end
  | ATakeStatus tid =>
    x ← get_thread cur;
    c ← deref (get_child_by_tid (children x) tid);
    put_thread cur (with_cont k (with_retval (exit_status c)
      (with_children (filter (fun c => child_tid c <> tid) (children x)) x)))
  end.

(** The idle thread blocks again whenever it runs. *)
Inductive event := EvRun | EvTimer.

Definition step (e : event) : M kst unit :=
  match e with
  | EvTimer => thread_tick
  | EvRun =>
    s ← get;
    if current s =? idle_thread s then thread_block
    else
      x ← get_thread (current s);
      match cont x with
      | [] => fail PanicHalt
      | a :: k => exec a k
      end
  end.

Fixpoint run (es : list event) : M kst unit :=
  match es with
  | [] => mret ()
  | e :: es => step e;; run es
  end.
End exec.

(** ** Start-up
    Locks, semaphores and conditions are initialised before they are used. *)
Definition lock_init (l : Z) : M kst unit :=
  modify (fun s => set_holders (<[l := 0]> (holders s)) s);; sema_init (SLock l) 1.
Definition cond_init (c : Z) : M kst unit :=
  modify (fun s => set_conds (<[c := []]> (conds s)) s).

Inductive object := OLock (l : Z) | OSema (i v : Z) | OCond (c : Z).

Definition init_object (o : object) : M kst unit :=
  match o with
  | OLock l => lock_init l
  | OSema i v => sema_init (SKern i) v
  | OCond c => cond_init c
  end.

Fixpoint init_objects (os : list object) : M kst unit :=
  match os with
  | [] => mret ()
  | o :: os => init_object o;; init_objects os
  end.

(** After [thread_init] and [thread_start]: the initial thread runs [code],
    the idle thread, its child, is blocked. *)
Definition thread_started (code : list act) : kst :=
  Kst {[ 1 := Thread THREAD_RUNNING code 0 [ThreadChild 2 UNUSED_CHILD_EXIT_STATUS] 0;
         2 := Thread THREAD_BLOCKED [] 1 [] 0 ]}
      [] [1; 2] 1 2 1 3 0
      {[ SWait 1 := Semaphore 0 []; SLoad 1 := Semaphore 0 [];
         SWait 2 := Semaphore 0 []; SLoad 2 := Semaphore 0 [] ]} ∅ ∅.

(** A kernel that initialises [os], starts [code] and goes through [es]. *)
Definition kernel (body : Z -> Z -> list act) (os : list object) (code : list act) (es : list event)
    : result (unit * kst) :=
  (init_objects os;; run body es) (thread_started code).

(** ** Well-formed code

    The actions of synch.c on a lock occur only as [lock_acquire] and
    [lock_release] compose them, and a thread waits only on its own
    semaphores. *)
Definition plain (t : Z) (a : act) : Prop :=
  match a with
  | ADown (SLock _) | AUp (SLock _) | ASetHolder _ | AClearHolder _ => False
  | ADown (SWaiter q) | ADown (SWait q) | ADown (SLoad q) => q = t
  | AInit i v => i = SWaiter t /\ v = 0
  | AEnqueue _ i => i = SWaiter t
  | _ => True
  end.

Inductive wf (t : Z) : list act -> Prop :=
  | wf_nil : wf t []
  | wf_acquire l k : wf t k -> wf t (ADown (SLock l) :: ASetHolder l :: k)
  | wf_release l k : wf t k -> wf t (AAssertHeld l :: AClearHolder l :: AUp (SLock l) :: k)
  | wf_plain a k : plain t a -> wf t k -> wf t (a :: k).

(** What is left of a thread's code, inside one of the lock operations. *)
Inductive cont_ok (h : gmap Z Z) (t : Z) : list act -> Prop :=
  | co_wf k : wf t k -> cont_ok h t k
  | co_acquired l k : wf t k -> cont_ok h t (ASetHolder l :: k)
  | co_asserted l k : wf t k -> h !! l = Some t -> cont_ok h t (AClearHolder l :: AUp (SLock l) :: k)
  | co_cleared l k : wf t k -> h !! l = Some 0 -> cont_ok h t (AUp (SLock l) :: k).

(** Thread [t] has lock [l]: it is the holder, or it has taken the semaphore
    and is about to become the holder, or it is about to give it back. *)
Definition owns (s : kst) (t l : Z) : Prop :=
  holders s !! l = Some t /\ t <> 0 \/
  exists x k, threads s !! t = Some x /\ (cont x = ASetHolder l :: k \/ cont x = AUp (SLock l) :: k).

(** Awake and about to test semaphore [i]. *)
Definition at_down (i : sema_id) (x : thread) : bool :=
  match status x, cont x with
  | THREAD_RUNNING, ADown j :: _ | THREAD_READY, ADown j :: _ => bool_decide (i = j)
  | _, _ => false
  end.
Definition awake (s : kst) (i : sema_id) : Z := Z.of_nat (mcount (at_down i) (threads s)).

(** ** The invariant *)
Record thread_ok (s : kst) (t : Z) (x : thread) : Prop := {
  to_tid : 0 < t < next_tid s;
  to_idle : t = idle_thread s -> cont x = [] /\ status x <> THREAD_DYING;
  to_ready : status x = THREAD_READY -> t <> idle_thread s -> t ∈ ready_list s;
  to_blocked : status x = THREAD_BLOCKED -> cont x <> [] ->
    exists i m, semas s !! i = Some m /\ t ∈ waiters m;
  to_dying : status x = THREAD_DYING -> exists k, cont x = ADie :: k;
  to_cont : cont_ok (holders s) t (cont x)
}.

Record sema_ok (s : kst) (i : sema_id) (m : semaphore) : Prop := {
  so_nodup : NoDup (waiters m);
  so_value : 0 <= value m;
  so_waiters : forall t, t ∈ waiters m -> exists x k, threads s !! t = Some x /\
    status x = THREAD_BLOCKED /\ t <> idle_thread s /\ cont x = ADown i :: k;
  so_wakeup : waiters m <> [] -> value m <= awake s i
}.

Definition lock_ok (s : kst) (l : Z) : Prop :=
  exists m, semas s !! SLock l = Some m /\
    (value m = 1 /\ (forall t, ~ owns s t l) \/
     value m = 0 /\ exists t, owns s t l /\ forall t', owns s t' l -> t' = t).

Record base (s : kst) : Prop := {
  b_thread : forall t x, threads s !! t = Some x -> thread_ok s t x;
  b_ready : NoDup (ready_list s) /\ forall t, t ∈ ready_list s ->
    exists x, threads s !! t = Some x /\ status x = THREAD_READY /\ t <> idle_thread s;
  b_sema : forall i m, semas s !! i = Some m -> sema_ok s i m;
  b_cond : forall c ws i, conds s !! c = Some ws -> i ∈ ws -> exists t, i = SWaiter t;
  b_lock : forall l h, holders s !! l = Some h -> lock_ok s l;
  b_idle : is_Some (threads s !! idle_thread s)
}.

Definition running (s : kst) : Prop :=
  (exists x, threads s !! current s = Some x /\ status x = THREAD_RUNNING) /\
  forall t x, threads s !! t = Some x -> status x = THREAD_RUNNING -> t = current s.

Definition inv (s : kst) : Prop := base s /\ running s.

(** ** Running the scheduler *)
Lemma wf_inv_plain t a k : wf t (a :: k) -> plain t a \/ (exists l, a = ADown (SLock l)) \/ exists l, a = AAssertHeld l.
Proof. inversion 1; subst; eauto. Qed.

(** A thread waits on its own semaphores only. *)
Lemma own_sema h t q i k :
  cont_ok h t (ADown i :: k) -> i = SWait q \/ i = SLoad q \/ i = SWaiter q -> q = t.
Proof.
  intros Hc Hi. inversion Hc as [k' Hwf| | |]; subst.
  apply wf_inv_plain in Hwf as [Hp|[[l [= ->]]|[l [=]]]].
  - destruct Hi as [->|[->| ->]]; done.
  - destruct Hi as [|[|]]; done.
Qed.

Lemma owns_holders s s' t l :
  holders s' = holders s -> threads s' = threads s -> owns s' t l <-> owns s t l.
Proof. unfold owns. by intros -> ->. Qed.

(** Ownership depends on the code left, not on the status. *)
Lemma owns_update s s' t0 x y t l :
  holders s' = holders s -> threads s !! t0 = Some x -> threads s' = <[t0 := y]> (threads s) ->
  cont y = cont x -> owns s' t l <-> owns s t l.
Proof.
  intros Hh Hx Ht Hc. unfold owns. rewrite Hh, Ht. split; (intros [?|(z & k & Hz & Hk)]; [by left|right]).
  - apply lookup_insert_Some in Hz as [[<- <-]|[_ Hz]].
    + rewrite Hc in Hk. by exists x, k.
    + by exists z, k.
  - destruct (decide (t0 = t)) as [->|].
    + simplify_eq. exists y, k. rewrite lookup_insert_eq. split; [done|]. by rewrite Hc.
    + exists z, k. by rewrite lookup_insert_ne.
Qed.

Lemma lock_ok_value s s' l :
  lock_ok s l -> (forall m, semas s !! SLock l = Some m -> exists m', semas s' !! SLock l = Some m' /\ value m' = value m) ->
  (forall t, owns s' t l <-> owns s t l) -> lock_ok s' l.
Proof.
  intros (m & Hm & Hcase) Hs Ho. destruct (Hs m Hm) as (m' & Hm' & Hv). exists m'. split; [done|]. rewrite Hv.
  by setoid_rewrite Ho.
Qed.

Lemma lock_ok_same s s' l :
  lock_ok s l -> semas s' !! SLock l = semas s !! SLock l -> (forall t, owns s' t l <-> owns s t l) ->
  lock_ok s' l.
Proof. intros Hl Hs. apply lock_ok_value; [done|]. intros m. rewrite Hs. eauto. Qed.

(** The thread that [next_thread_to_run] picks starts to run. *)
Definition activate (t : Z) (x : thread) (rest : list Z) (s : kst) : kst :=
  set_ticks 0 (set_threads (<[t := with_status THREAD_RUNNING x]> (threads s)) (set_current t (set_ready rest s))).

Lemma activate_ok s t x rest :
  base s -> (forall t x, threads s !! t = Some x -> status x <> THREAD_RUNNING) ->
  threads s !! t = Some x ->
  (ready_list s = t :: rest \/ ready_list s = [] /\ rest = [] /\ t = idle_thread s) ->
  inv (activate t x rest s).
Proof.
  intros Hb Hnr Hx Hpick. pose proof (b_ready _ Hb) as [Hnd Hrd].
  assert (forall i, awake (activate t x rest s) i = awake s i) as Haw.
  { intros i. unfold awake. simpl. f_equal. eapply mcount_insert_same; [done|].
    unfold at_down. simpl. destruct Hpick as [Hr|(_ & _ & ->)].
    - destruct (Hrd t) as (y & Hy & Hst & _); [rewrite Hr; set_solver|]. simplify_eq. by rewrite Hst.
    - destruct (to_idle _ _ _ (b_thread _ Hb _ _ Hx) eq_refl) as [-> _]. by destruct (status x). }
  assert (forall t' z, threads (activate t x rest s) !! t' = Some z ->
    t' = t /\ z = with_status THREAD_RUNNING x \/ t' <> t /\ threads s !! t' = Some z) as Hget.
  { intros t' z Hz. simpl in Hz. apply lookup_insert_Some in Hz as [[<- <-]|[? ?]]; [by left|by right]. }
  assert (t ∉ rest /\ (forall t', t' ∈ ready_list s -> t' <> t -> t' ∈ rest) /\
    (forall t', t' ∈ rest -> t' ∈ ready_list s) /\ NoDup rest) as (Hnot & Hin & Hsub & Hndr).
  { destruct Hpick as [Hr|(Hr & -> & _)]; rewrite Hr in *; [|set_solver by constructor].
    apply NoDup_cons in Hnd as [? ?]. set_solver. }
  assert (forall t' l, owns (activate t x rest s) t' l <-> owns s t' l) as Hown.
  { intros t' l. by eapply owns_update. }
  split; [split|split].
  - intros t' z [[-> ->]|[Hne Hz]]%Hget.
    + destruct (b_thread _ Hb _ _ Hx) as [H1 H2 H3 H4 H5 H6].
      split; simpl; try done. intros Hi. split; [by apply H2|done].
    + destruct (b_thread _ Hb _ _ Hz) as [H1 H2 H3 H4 H5 H6]. split; simpl; try done. auto.
  - split; [done|]. intros t' Ht'. destruct (Hrd t') as (z & Hz & Hst & Hi); [by apply Hsub|].
    exists z. simpl. rewrite lookup_insert_ne; [done|]. intros <-. done.
  - intros i m Hm. destruct (b_sema _ Hb _ _ Hm) as [H1 H2 H3 H4]. split; [done|done| |by rewrite Haw].
    intros t' Ht'. destruct (H3 t' Ht') as (z & k & Hz & Hst & Hi & Hc). exists z, k. simpl.
    rewrite lookup_insert_ne; [done|]. intros <-. simplify_eq. destruct Hpick as [Hr|(_ & _ & ->)]; [|done].
    destruct (Hrd t) as (y & Hy & Hst' & _); [rewrite Hr; set_solver|]. simplify_eq. congruence.
  - apply (b_cond _ Hb).
  - intros l h Hl. eapply lock_ok_same; [by eapply (b_lock _ Hb)|done|done].
  - simpl. destruct (decide (t = idle_thread s)) as [->|]; [by rewrite lookup_insert_eq|].
    rewrite lookup_insert_ne by done. apply Hb.
  - eexists. simpl. rewrite lookup_insert_eq. done.
  - intros t' z [[-> _]|[Hne Hz]]%Hget Hst; [done|]. by apply Hnr in Hz.
Qed.

(** The page of a dead thread is freed. *)
Lemma free_thread_ok s p x :
  inv s -> threads s !! p = Some x -> status x = THREAD_DYING -> inv (free_thread p s).
Proof.
  intros [Hb [(c & Hc & Hcr) Hrun]] Hx Hst.
  pose proof (b_thread _ Hb _ _ Hx) as Hxok. destruct (to_dying _ _ _ Hxok Hst) as [k Hk].
  assert (p <> current s) as Hpc by (intros ->; simplify_eq; congruence).
  assert (p <> idle_thread s) as Hpi by (intros E; by apply (to_idle _ _ _ Hxok E)).
  assert (forall t z, threads (free_thread p s) !! t = Some z -> t <> p /\ threads s !! t = Some z) as Hget.
  { intros t z Hz. simpl in Hz. by apply lookup_delete_Some in Hz as [? ?]. }
  assert (forall i m, semas (free_thread p s) !! i = Some m -> semas s !! i = Some m) as Hsem.
  { intros i m Hm. simpl in Hm. by rewrite !lookup_delete_Some in Hm; destruct Hm as (_ & _ & _ & ?). }
  assert (forall i m t, semas s !! i = Some m -> t ∈ waiters m -> semas (free_thread p s) !! i = Some m) as Hkeep.
  { intros i m t Hm Ht. destruct (so_waiters _ _ _ (b_sema _ Hb _ _ Hm) t Ht) as (z & kz & Hz & Hstz & _ & Hcz).
    assert (p <> t) as Hpt by (intros <-; simplify_eq; congruence).
    pose proof (to_cont _ _ _ (b_thread _ Hb _ _ Hz)) as Hco. rewrite Hcz in Hco.
    simpl. rewrite !lookup_delete_ne; [done|..];
      (intros <-; apply Hpt; eapply own_sema; [exact Hco|tauto]). }
  assert (forall i, awake (free_thread p s) i = awake s i) as Haw.
  { intros i. unfold awake. simpl. pose proof (mcount_delete (at_down i) _ _ _ Hx) as E.
    unfold at_down at 2 in E. rewrite Hst in E. simpl in E. lia. }
  assert (forall t l, owns (free_thread p s) t l <-> owns s t l) as Hown.
  { intros t l. unfold owns. simpl. split; (intros [?|(z & kz & Hz & Hkz)]; [by left|right; exists z, kz]).
    - by apply lookup_delete_Some in Hz as [_ Hz].
    - split; [|done]. apply lookup_delete_Some. split; [|done]. intros <-. simplify_eq.
      rewrite Hk in Hkz. by destruct Hkz. }
  split; [split|split].
  - intros t z [Hne Hz]%Hget. destruct (b_thread _ Hb _ _ Hz) as [H1 H2 H3 H4 H5 H6].
    split; simpl; try done. intros Hs Hi. destruct (H4 Hs Hi) as (i & m & Hm & Ht).
    exists i, m. split; [by eapply Hkeep|done].
  - destruct (b_ready _ Hb) as [Hnd Hrd]. split; [done|]. intros t Ht.
    destruct (Hrd t Ht) as (z & Hz & Hsz & Hi). exists z. split; [|done].
    apply lookup_delete_Some. split; [|done]. intros <-. simplify_eq. congruence.
  - intros i m Hm%Hsem. destruct (b_sema _ Hb _ _ Hm) as [H1 H2 H3 H4]. split; [done|done| |by rewrite Haw].
    intros t Ht. destruct (H3 t Ht) as (z & kz & Hz & Hsz & Hi & Hcz). exists z, kz. split; [|done].
    apply lookup_delete_Some. split; [|done]. intros <-. simplify_eq. congruence.
  - apply (b_cond _ Hb).
  - intros l h Hl. eapply lock_ok_same; [by eapply (b_lock _ Hb)| |done]. simpl.
    by rewrite !lookup_delete_ne.
  - simpl. rewrite lookup_delete_ne by done. apply Hb.
  - exists c. split; [|done]. apply lookup_delete_Some. done.
  - intros t z [Hne Hz]%Hget Hsz. by eapply Hrun.
Qed.

(** No counter of the state overflows in the next [n] events. *)
Definition fits (n : Z) (s : kst) : Prop :=
  next_tid s + n < 2 ^ 31 /\ forall i m, semas s !! i = Some m -> value m + n < 2 ^ 32.

Lemma get_thread_ok s t x : threads s !! t = Some x -> get_thread t s = Ok (x, s).
Proof. intros Hx. unfold get_thread, mbind, M_bind, get, deref. by rewrite Hx. Qed.

Lemma set_status_ok s t x st :
  threads s !! t = Some x ->
  set_status t st s = Ok (tt, set_threads (<[t := with_status st x]> (threads s)) s).
Proof. intros Hx. unfold set_status, mbind, M_bind. by rewrite (get_thread_ok s t x). Qed.

Lemma schedule_ok s n :
  base s -> (forall t x, threads s !! t = Some x -> status x <> THREAD_RUNNING) ->
  is_Some (threads s !! current s) -> fits n s ->
  wp schedule (fun _ s' => inv s' /\ fits n s') s.
Proof.
  intros Hb Hnr [c Hc] Hfit. unfold schedule. do 2 wp_step.
  assert (exists t x rest, threads s !! t = Some x /\ next_thread_to_run s = Ok (t, set_ready rest s) /\
    (ready_list s = t :: rest \/ ready_list s = [] /\ rest = [] /\ t = idle_thread s))
    as (t & x & rest & Hx & Hnext & Hpick).
  { unfold next_thread_to_run, mbind, M_bind, get. destruct (ready_list s) as [|t rest] eqn:E.
    - destruct (b_idle _ Hb) as [x Hx]. exists (idle_thread s), x, []. split; [done|].
      split; [|by right]. destruct s; simpl in *. by rewrite E.
    - destruct (proj2 (b_ready _ Hb) t) as (x & Hx & _); [rewrite E; set_solver|].
      exists t, x, rest. split; [done|]. split; [done|by left]. }
  pose proof (activate_ok s t x rest Hb Hnr Hx Hpick) as Hinv.
  wp_step. eapply wp_eq; [exact Hnext|]. wp_step. eapply wp_eq; [by apply get_thread_ok|].
  do 2 wp_step. { rewrite bool_decide_eq_false_2; [done|]. by eapply Hnr. }
  do 4 wp_step. { apply bool_decide_eq_true_2. by exists x. }
  wp_step. eapply wp_eq with (a := tt) (s' := set_current t (set_ready rest s)).
  { destruct (Z.eqb_spec (current s) t) as [E|]; [|done]. simpl. destruct s; simpl in *. by rewrite E. }
  unfold thread_schedule_tail. do 2 wp_step. wp_step.
  eapply wp_eq; [by apply set_status_ok|]. do 2 wp_step.
  change (set_ticks 0 (set_threads (<[t:=with_status THREAD_RUNNING x]> _) _)) with (activate t x rest s).
  destruct (Z.eqb_spec (current s) t) as [Heq|Hne]; simpl negb; cbv iota.
  { by wp_step. }
  assert (threads (activate t x rest s) !! current s = Some c) as Hc'.
  { simpl. by rewrite lookup_insert_ne. }
  wp_step. eapply wp_eq; [by apply get_thread_ok|].
  destruct (bool_decide_reflect (status c = THREAD_DYING)) as [Hd|Hd]; cbn [andb]; [|by wp_step].
  destruct (Z.eqb_spec (current s) (initial_thread s)); cbn [negb]; [by wp_step|].
  do 3 wp_step. split; [by eapply free_thread_ok|].
  destruct Hfit as [Hf1 Hf2]. split; [done|]. intros i m Hm. apply (Hf2 i m). simpl in Hm.
  by rewrite !lookup_delete_Some in Hm; destruct Hm as (_ & _ & _ & ?).
Qed.

(** ** The running thread goes on *)
Lemma awake_update s s' t x y i :
  threads s !! t = Some x -> threads s' = <[t := y]> (threads s) ->
  awake s' i + Z.b2z (at_down i x) = awake s i + Z.b2z (at_down i y).
Proof.
  intros Hx Ht. unfold awake. rewrite Ht.
  pose proof (mcount_insert (at_down i) (threads s) t x y Hx) as E.
  destruct (at_down i x), (at_down i y); simpl in *; lia.
Qed.

Lemma running_not_waiting s i m :
  inv s -> semas s !! i = Some m -> current s ∉ waiters m.
Proof.
  intros [Hb [(x & Hx & Hr) _]] Hm Hin.
  destruct (so_waiters _ _ _ (b_sema _ Hb _ _ Hm) _ Hin) as (y & k & Hy & Hs & _). simplify_eq. congruence.
Qed.

Lemma running_not_ready s : inv s -> current s ∉ ready_list s.
Proof.
  intros [Hb [(x & Hx & Hr) _]] Hin. destruct (proj2 (b_ready _ Hb) _ Hin) as (y & Hy & Hs & _).
  simplify_eq. congruence.
Qed.

(** The changes an action makes to the running thread [cur], the semaphores,
    the holders and the conditions, and what they must keep. *)
Record advances (s s' : kst) (y : thread) : Prop := {
  ad_threads : threads s' = <[current s := y]> (threads s);
  ad_running : status y = THREAD_RUNNING;
  ad_ready : ready_list s' = ready_list s;
  ad_current : current s' = current s;
  ad_idle : idle_thread s' = idle_thread s;
  ad_tid : next_tid s' = next_tid s;
  ad_cont : cont_ok (holders s') (current s) (cont y);
  ad_others : forall t z, t <> current s -> threads s !! t = Some z -> cont_ok (holders s') t (cont z);
  ad_semas : forall i m', semas s' !! i = Some m' -> 0 <= value m' /\
    (waiters m' = [] \/ exists m, semas s !! i = Some m /\ waiters m' = waiters m /\ value m' <= awake s' i);
  ad_waiters : forall i m, semas s !! i = Some m -> waiters m <> [] ->
    exists m', semas s' !! i = Some m' /\ waiters m' = waiters m;
  ad_conds : forall c ws i, conds s' !! c = Some ws -> i ∈ ws -> exists t, i = SWaiter t;
  ad_locks : forall l h, holders s' !! l = Some h -> lock_ok s' l
}.

Lemma inv_advance s s' y : inv s -> current s <> idle_thread s -> advances s s' y -> inv s'.
Proof.
  intros Hinv Hci [Ht Hyr Hr Hcu Hi Htid Hcont Hoth Hsem Hwt Hco Hlk].
  pose proof Hinv as [Hb [(x & Hx & Hxr) Hrun]].
  assert (forall t z, threads s' !! t = Some z ->
    t = current s /\ z = y \/ t <> current s /\ threads s !! t = Some z) as Hget.
  { intros t z Hz. rewrite Ht in Hz. apply lookup_insert_Some in Hz as [[<- <-]|[? ?]]; [by left|by right]. }
  assert (forall t, t <> current s -> threads s' !! t = threads s !! t) as Hne.
  { intros t Hn. rewrite Ht. by rewrite lookup_insert_ne. }
  split; [split|split].
  - intros t z [[-> ->]|[Hn Hz]]%Hget.
    + split; rewrite ?Hi, ?Hr, ?Htid; try congruence; apply (b_thread _ Hb _ _ Hx).
    + destruct (b_thread _ Hb _ _ Hz) as [H1 H2 H3 H4 H5 H6].
      split; rewrite ?Hi, ?Hr, ?Htid; try done; [|by apply Hoth].
      intros Hs Hni. destruct (H4 Hs Hni) as (i & m & Hm & Hin).
      destruct (Hwt i m Hm) as (m' & Hm' & Hw); [by eapply elem_not_nil|]. exists i, m'. by rewrite Hw.
  - rewrite Hr, Hi. destruct (b_ready _ Hb) as [Hnd Hrd]. split; [done|]. intros t Hin.
    rewrite Hne; [by apply Hrd|]. intros ->. by apply (running_not_ready s).
  - intros i m' Hm'. destruct (Hsem i m' Hm') as [Hv [Hnil|(m & Hm & Hw & Hle)]].
    + split; rewrite ?Hnil; [constructor|done|by intros t Hin%elem_of_nil|done].
    + destruct (b_sema _ Hb _ _ Hm) as [H1 H2 H3 H4]. split; rewrite ?Hw, ?Hi; try done.
      intros t Hin. rewrite Hne; [by apply H3|]. intros ->. by apply (running_not_waiting s i m).
  - apply Hco.
  - apply Hlk.
  - rewrite Hi, Hne by done. apply Hb.
  - exists y. by rewrite Hcu, Ht, lookup_insert_eq.
  - rewrite Hcu. intros t z [[-> _]|[Hn Hz]]%Hget Hs; [done|by eapply Hrun].
Qed.

(** The semaphores an action leaves alone. *)
Lemma semas_same s s' x y :
  inv s -> threads s !! current s = Some x -> threads s' = <[current s := y]> (threads s) ->
  forall i m, (at_down i x = true -> at_down i y = true) -> semas s !! i = Some m -> 0 <= value m /\
    (waiters m = [] \/ exists m0, semas s !! i = Some m0 /\ waiters m = waiters m0 /\ value m <= awake s' i).
Proof.
  intros [Hb _] Hx Ht i m Had Hm. destruct (b_sema _ Hb _ _ Hm) as [H1 H2 H3 H4]. split; [done|].
  destruct (waiters m) as [|w ws] eqn:E; [by left|]. right. exists m. split_and!; [done..|].
  pose proof (awake_update s s' _ x y i Hx Ht) as Ha. specialize (H4 ltac:(done)).
  destruct (at_down i x), (at_down i y); simpl in *; lia || done.
Qed.

(** Being about to become the holder, or to give the lock back. *)
Definition own_cont (l : Z) (k : list act) : Prop :=
  exists k', k = ASetHolder l :: k' \/ k = AUp (SLock l) :: k'.

Lemma wf_not_own t l k : wf t k -> ~ own_cont l k.
Proof. intros Hw (k' & [->| ->]); inversion Hw; subst; done. Qed.

Lemma owns_cont s t l :
  owns s t l <-> holders s !! l = Some t /\ t <> 0 \/ exists x, threads s !! t = Some x /\ own_cont l (cont x).
Proof.
  unfold owns, own_cont. split; (intros [?|Hx]; [by left|right]).
  - destruct Hx as (x & k & ? & ?). eauto.
  - destruct Hx as (x & ? & k & ?). eauto.
Qed.

Lemma owns_insert s s' t0 y t l :
  holders s' = holders s -> threads s' = <[t0 := y]> (threads s) ->
  owns s' t l <-> holders s !! l = Some t /\ t <> 0 \/
    (t = t0 /\ own_cont l (cont y)) \/ (t <> t0 /\ exists x, threads s !! t = Some x /\ own_cont l (cont x)).
Proof.
  intros Hh Ht. rewrite owns_cont, Hh, Ht. split.
  - intros [?|(x & Hx & Ho)]; [by left|right].
    apply lookup_insert_Some in Hx as [[<- <-]|[? ?]]; [by left|right; eauto].
  - intros [?|[[-> Ho]|[Hn (x & Hx & Ho)]]]; [by left|right|right].
    + exists y. by rewrite lookup_insert_eq.
    + exists x. by rewrite lookup_insert_ne.
Qed.

Lemma lock_keep s s' x y l h :
  inv s -> threads s !! current s = Some x -> threads s' = <[current s := y]> (threads s) ->
  holders s' = holders s -> semas s' !! SLock l = semas s !! SLock l ->
  (own_cont l (cont x) <-> own_cont l (cont y)) -> holders s !! l = Some h -> lock_ok s' l.
Proof.
  intros [Hb _] Hx Ht Hh Hs Hoc Hl. eapply lock_ok_same; [by eapply (b_lock _ Hb)|done|].
  intros t. rewrite (owns_insert s s' (current s) y) by done. rewrite owns_cont. split.
  - intros [?|[[-> Ho]|[Hn (z & Hz & Ho)]]]; [by left|right|right; eauto]. exists x. split; [done|by apply Hoc].
  - intros [?|(z & Hz & Ho)]; [by left|right]. destruct (decide (t = current s)) as [->|]; [left|right; eauto].
    simplify_eq. split; [done|]. by apply Hoc.
Qed.

(** An action that changes no semaphore and no holder. *)
Lemma advance_simple s s' x y :
  inv s -> current s <> idle_thread s -> threads s !! current s = Some x -> status y = THREAD_RUNNING ->
  threads s' = <[current s := y]> (threads s) ->
  ready_list s' = ready_list s -> current s' = current s -> idle_thread s' = idle_thread s ->
  next_tid s' = next_tid s -> semas s' = semas s -> holders s' = holders s ->
  (forall c ws i, conds s' !! c = Some ws -> i ∈ ws -> exists t, i = SWaiter t) ->
  (forall i, at_down i x = true -> at_down i y = true) ->
  (forall l, ~ own_cont l (cont x)) -> (forall l, ~ own_cont l (cont y)) ->
  cont_ok (holders s) (current s) (cont y) -> inv s'.
Proof.
  intros Hinv Hci Hx Hyr Ht Hr Hcu Hi Htid Hs Hh Hco Had Hox Hoy Hcont.
  pose proof Hinv as [Hb _]. eapply inv_advance; [done..|]. split; rewrite ?Hh, ?Hs; try done.
  - intros t z Hn Hz. apply (b_thread _ Hb _ _ Hz).
  - intros i m Hm. eapply semas_same; try done. apply Had.
  - intros i m Hm _. by exists m.
  - intros l h Hl. eapply (lock_keep s s' x y); try done; [by rewrite Hs|].
    specialize (Hox l). specialize (Hoy l). tauto.
Qed.

(** ** The code left after an action *)
Lemma cont_tail h t a k :
  cont_ok h t (a :: k) ->
  match a with
  | ADown (SLock l) => exists k', k = ASetHolder l :: k' /\ wf t k'
  | AAssertHeld l => wf t k \/ exists k', k = AClearHolder l :: AUp (SLock l) :: k' /\ wf t k'
  | ASetHolder l => wf t k
  | AClearHolder l => h !! l = Some t /\ exists k', k = AUp (SLock l) :: k' /\ wf t k'
  | AUp (SLock l) => h !! l = Some 0 /\ wf t k
  | _ => plain t a /\ wf t k
  end.
Proof.
  inversion 1 as [k' Hwf|l k' Hwf|l k' Hwf Hh|l k' Hwf Hh]; subst; try done; [|by eauto].
  inversion Hwf as [|l k'' Hw|l k'' Hw|a' k'' Hp Hw]; subst; [by eauto|by eauto|].
  destruct a; try done; try (by left); try (destruct s; done).
Qed.

Lemma thread_current_ok s : inv s -> thread_current s = Ok (current s, s).
Proof.
  intros [_ [(x & Hx & Hr) _]]. unfold thread_current, mbind, M_bind, get.
  rewrite (get_thread_ok _ _ _ Hx). unfold assert. by rewrite bool_decide_eq_true_2.
Qed.

Lemma set_cont_ok s t x k :
  threads s !! t = Some x ->
  set_cont t k s = Ok (tt, set_threads (<[t := with_cont k x]> (threads s)) s).
Proof. intros Hx. unfold set_cont, mbind, M_bind. by rewrite (get_thread_ok _ _ _ Hx). Qed.

Lemma held_ok s l h :
  inv s -> holders s !! l = Some h ->
  lock_held_by_current_thread l s = Ok (h =? current s, s).
Proof.
  intros Hinv Hl. unfold lock_held_by_current_thread, mbind, M_bind, get. rewrite Hl. simpl.
  by rewrite thread_current_ok.
Qed.

(** What an action needs of the program that executes it: the objects it uses
    exist, and the assertions about lock ownership hold. *)
Definition safe (s : kst) (x : thread) (a : act) : Prop :=
  match a with
  | ADown i | AUp i => is_Some (semas s !! i)
  | AAssertFree l => exists h, holders s !! l = Some h /\ h <> current s
  | AAssertHeld l => holders s !! l = Some (current s)
  | ATryDown l => is_Some (semas s !! SLock l)
  | ASetHolder l | AClearHolder l => is_Some (holders s !! l)
  | AEnqueue c _ | ASignal c | ABroadcast c _ => is_Some (conds s !! c)
  | AExitUp => is_Some (semas s !! SWait (parent x))
  | ASetStatus _ => parent x <> 0
  | ATakeStatus tid => is_Some (get_child_by_tid (children x) tid)
  | _ => True
  end.

Section actions.
Context (body : Z -> Z -> list act) (Hbody : forall f t, wf t (body f t)).
Context (s : kst) (x : thread) (n : Z).
Hypothesis Hinv : inv s.
Hypothesis Hci : current s <> idle_thread s.
Hypothesis Hx : threads s !! current s = Some x.
Hypothesis Hn0 : 0 <= n.
Hypothesis Hfit : fits (n + 1) s.

Lemma x_running : status x = THREAD_RUNNING.
Proof. destruct Hinv as [_ [(y & Hy & Hr) _]]. simplify_eq. done. Qed.

Lemma x_cont : cont_ok (holders s) (current s) (cont x).
Proof. destruct Hinv as [Hb _]. apply (b_thread _ Hb _ _ Hx). Qed.

Lemma fits_less s' : next_tid s' = next_tid s -> semas s' = semas s -> fits n s'.
Proof.
  intros Ht Hs. destruct Hfit as [H1 H2]. split; rewrite ?Ht, ?Hs; [lia|].
  intros i m Hm. specialize (H2 i m Hm). lia.
Qed.

(** Not at a semaphore test, not in the middle of a lock operation. *)
Definition ordinary (a : act) : Prop :=
  match a with ADown _ | AUp (SLock _) | ASetHolder _ => False | _ => True end.

Lemma ordinary_down a k i : cont x = a :: k -> ordinary a -> at_down i x = false.
Proof. intros Hk Ho. unfold at_down. rewrite Hk, x_running. by destruct a. Qed.

Lemma ordinary_own a k l : cont x = a :: k -> ordinary a -> ~ own_cont l (cont x).
Proof. intros -> Ho (k' & [[= -> ->]|[= -> ->]]); done. Qed.

(** Only the code left, the children or the result of the running thread and
    the conditions change. *)
Lemma step_simple s' a k y :
  cont x = a :: k -> ordinary a ->
  s' = set_conds (conds s') (set_threads (<[current s := y]> (threads s)) s) ->
  status y = THREAD_RUNNING ->
  (forall c ws i, conds s' !! c = Some ws -> i ∈ ws -> exists t, i = SWaiter t) ->
  (forall l, ~ own_cont l (cont y)) -> cont_ok (holders s) (current s) (cont y) ->
  inv s' /\ fits n s'.
Proof.
  intros Hk Ho Hs' Hy Hco Hoy Hcy. split.
  - eapply (advance_simple s s' x y); try done; try (rewrite Hs'; done).
    + intros i. by rewrite (ordinary_down a k).
    + intros l. by eapply ordinary_own.
  - by apply fits_less; rewrite Hs'.
Qed.

Abbreviation done_post := (fun (_ : unit) s' => inv s' /\ fits n s').

Lemma with_cont_same k : with_cont k x = Thread (status x) k (parent x) (children x) (retval x).
Proof. done. Qed.

(** The running thread goes on with [k'], well-formed or not owning a lock by
    its code, and the conditions are [cs]. *)
Lemma goto_ok a k k' cs :
  cont x = a :: k -> ordinary a -> cont_ok (holders s) (current s) k' -> (forall l, ~ own_cont l k') ->
  (forall c ws i, cs !! c = Some ws -> i ∈ ws -> exists t, i = SWaiter t) ->
  wp (set_cont (current s) k') done_post (set_conds cs s).
Proof.
  intros Hk Ho Hc Hn Hcs. eapply wp_eq; [by apply set_cont_ok|].
  eapply (step_simple _ a k (with_cont k' x)); try done. apply x_running.
Qed.

Lemma goto_same a k k' :
  cont x = a :: k -> ordinary a -> cont_ok (holders s) (current s) k' -> (forall l, ~ own_cont l k') ->
  wp (set_cont (current s) k') done_post s.
Proof.
  intros Hk Ho Hc Hn. replace s with (set_conds (conds s) s) at 2 by (by destruct s).
  eapply goto_ok; try done. destruct Hinv as [Hb _]. apply (b_cond _ Hb).
Qed.

Lemma goto_wf a k k' :
  cont x = a :: k -> ordinary a -> wf (current s) k' -> wp (set_cont (current s) k') done_post s.
Proof. intros Hk Ho Hw. eapply goto_same; try done; [by constructor|]. intros l. by eapply wf_not_own. Qed.

Lemma x_tail a k : cont x = a :: k -> cont_ok (holders s) (current s) (a :: k).
Proof. intros Hk. rewrite <- Hk. apply x_cont. Qed.

Ltac start := unfold exec; wp_step; (eapply wp_eq; [by apply thread_current_ok|]).

Lemma exec_assert_free l k :
  cont x = AAssertFree l :: k -> safe s x (AAssertFree l) ->
  wp (exec body (AAssertFree l) k) done_post s.
Proof.
  intros Hk (h & Hl & Hne). pose proof (cont_tail _ _ _ _ (x_tail _ _ Hk)) as [_ Hw].
  start. wp_step. eapply wp_eq; [by apply held_ok|].
  rewrite (proj2 (Z.eqb_neq _ _)) by done. do 2 wp_step. by eapply goto_wf.
Qed.

Lemma exec_assert_held l k :
  cont x = AAssertHeld l :: k -> safe s x (AAssertHeld l) ->
  wp (exec body (AAssertHeld l) k) done_post s.
Proof.
  intros Hk Hl. simpl in Hl. pose proof (cont_tail _ _ _ _ (x_tail _ _ Hk)) as Ht.
  start. wp_step. eapply wp_eq; [by apply held_ok|].
  rewrite Z.eqb_refl. do 2 wp_step. destruct Ht as [Hw|(k' & -> & Hw)]; [by eapply goto_wf|].
  eapply goto_same; try done; [by constructor|]. intros l' (k2 & [[=]|[=]]).
Qed.

Lemma exec_enqueue c i k :
  cont x = AEnqueue c i :: k -> safe s x (AEnqueue c i) ->
  wp (exec body (AEnqueue c i) k) done_post s.
Proof.
  intros Hk [ws Hc]. pose proof (cont_tail _ _ _ _ (x_tail _ _ Hk)) as [-> Hw].
  start. do 3 wp_step. eapply wp_deref; [exact Hc|]. do 2 wp_step.
  eapply goto_ok; try done; [by constructor|intros l; by eapply wf_not_own|].
  intros c' ws' j. destruct Hinv as [Hb _]. intros [[<- <-]|[_ Hc']]%lookup_insert_Some Hj.
  - apply elem_of_app in Hj as [Hj|Hj%list_elem_of_singleton]; [by eapply (b_cond _ Hb)|by exists (current s)].
  - by eapply (b_cond _ Hb).
Qed.

Lemma exec_signal c k :
  cont x = ASignal c :: k -> safe s x (ASignal c) -> wp (exec body (ASignal c) k) done_post s.
Proof.
  intros Hk [ws Hc]. pose proof (cont_tail _ _ _ _ (x_tail _ _ Hk)) as [_ Hw].
  start. do 3 wp_step. eapply wp_deref; [exact Hc|]. destruct Hinv as [Hb _].
  destruct ws as [|i rest]; [by eapply goto_wf|]. do 2 wp_step.
  destruct (b_cond _ Hb c _ i Hc) as [t ->]; [by left|]. assert (wf (current s) (AUp (SWaiter t) :: k)) by by constructor.
  eapply goto_ok; try done; [by constructor|intros l; by eapply wf_not_own|].
  intros c' ws' j [[<- <-]|[_ Hc']]%lookup_insert_Some Hj; [|by eapply (b_cond _ Hb)].
  eapply (b_cond _ Hb); [exact Hc|by right].
Qed.

Lemma exec_broadcast c l k :
  cont x = ABroadcast c l :: k -> safe s x (ABroadcast c l) ->
  wp (exec body (ABroadcast c l) k) done_post s.
Proof.
  intros Hk [ws Hc]. pose proof (cont_tail _ _ _ _ (x_tail _ _ Hk)) as [_ Hw].
  start. do 3 wp_step. eapply wp_deref; [exact Hc|].
  destruct ws as [|i rest]; [by eapply goto_wf|].
  eapply goto_wf; [done..|]. simpl. by repeat constructor.
Qed.

(** The result or the children of the running thread change. *)
Lemma put_self_ok a k y :
  cont x = a :: k -> ordinary a -> status y = status x -> wf (current s) (cont y) ->
  wp (put_thread (current s) y) done_post s.
Proof.
  intros Hk Ho Hs Hw. unfold put_thread. wp_step.
  eapply (step_simple _ a k y); try done.
  - rewrite Hs. apply x_running.
  - destruct Hinv as [Hb _]. apply (b_cond _ Hb).
  - intros l. by eapply wf_not_own.
  - by constructor.
Qed.

Lemma exec_wait tid k :
  cont x = AWait tid :: k -> wp (exec body (AWait tid) k) done_post s.
Proof.
  intros Hk. pose proof (cont_tail _ _ _ _ (x_tail _ _ Hk)) as [_ Hw].
  start. wp_step. eapply wp_eq; [by apply get_thread_ok|].
  destruct (get_child_by_tid (children x) tid); [|by eapply put_self_ok].
  eapply goto_wf; [done..|]. simpl. by repeat constructor.
Qed.

Lemma exec_take tid k :
  cont x = ATakeStatus tid :: k -> safe s x (ATakeStatus tid) ->
  wp (exec body (ATakeStatus tid) k) done_post s.
Proof.
  intros Hk [c Hc]. pose proof (cont_tail _ _ _ _ (x_tail _ _ Hk)) as [_ Hw].
  start. wp_step. eapply wp_eq; [by apply get_thread_ok|]. wp_step. eapply wp_deref; [exact Hc|].
  by eapply put_self_ok.
Qed.

(** *** Taking a unit of a semaphore *)
Lemma fits_sema i m' s' :
  next_tid s' = next_tid s -> semas s' = <[i := m']> (semas s) -> value m' + n < 2 ^ 32 -> fits n s'.
Proof.
  intros Ht Hs Hv. destruct Hfit as [H1 H2]. split; rewrite ?Ht, ?Hs; [lia|].
  intros j m [[<- <-]|[_ Hm]]%lookup_insert_Some; [done|]. specialize (H2 j m Hm). lia.
Qed.

(** The running thread becomes the owner of the lock whose semaphore it took. *)
Lemma lock_taken l m s' k :
  semas s !! SLock l = Some m -> 0 < value m -> lock_ok s l ->
  threads s' = <[current s := with_cont (ASetHolder l :: k) x]> (threads s) -> holders s' = holders s ->
  (exists m', semas s' !! SLock l = Some m' /\ value m' = value m - 1) -> lock_ok s' l.
Proof.
  intros Hm Hv (m0 & Hm0 & Hcase) Ht Hh (m' & Hm' & Hv'). simplify_eq. exists m'. split; [done|].
  destruct Hcase as [[Hv1 Hno]|[Hv0 _]]; [|lia]. right. split; [lia|]. exists (current s). split.
  - apply (owns_insert s s' (current s) (with_cont (ASetHolder l :: k) x)); [done..|].
    right. left. split; [done|]. exists k. by left.
  - intros t Ho. apply (owns_insert s s' (current s) (with_cont (ASetHolder l :: k) x)) in Ho; [|done..].
    destruct Ho as [Ho|[[-> _]|[_ Ho]]]; [|done|]; destruct (Hno t); apply owns_cont; [by left|by right].
Qed.

Lemma take_ok i m a k' :
  cont x = a :: tail (cont x) -> (a = ADown i \/ ordinary a) -> semas s !! i = Some m -> 0 < value m ->
  match i with
  | SLock l => exists k, k' = ASetHolder l :: k /\ wf (current s) k
  | _ => wf (current s) k'
  end ->
  let m' := Semaphore (u32 (value m - 1)) (waiters m) in
  let s' := set_threads (<[current s := with_cont k' x]> (threads s)) (set_semas (<[i := m']> (semas s)) s) in
  inv s' /\ fits n s'.
Proof.
  intros Hk Ha Hm Hv Hk' m' s'. pose proof Hinv as [Hb _]. pose proof (b_sema _ Hb _ _ Hm) as [S1 S2 S3 S4].
  pose proof x_running as Hrun. pose proof (proj2 Hfit i m Hm) as Hfm.
  assert (u32 (value m - 1) = value m - 1) as Eu by (apply wrap_small; lia).
  assert (forall l, ~ own_cont l (cont x)) as Hox.
  { intros l (k2 & [E|E]); rewrite Hk in E; injection E as -> _; destruct Ha as [|]; done. }
  assert (threads s' = <[current s := with_cont k' x]> (threads s)) as Ht by done.
  split; [|apply (fits_sema i m'); simpl; [done..|lia]].
  apply (inv_advance s s' (with_cont k' x)); [done..|]. split; try done.
  - destruct i; [|by constructor..]. destruct Hk' as (k & -> & Hw). by constructor.
  - intros t z Hne Hz. apply (b_thread _ Hb _ _ Hz).
  - intros j mj Hj. simpl in Hj. apply lookup_insert_Some in Hj as [[<- <-]|[Hne Hj]]; simpl.
    + split; [lia|]. destruct (waiters m) as [|w ws] eqn:E; [by left|]. right. exists m.
      split_and!; [done..|]. rewrite Eu. specialize (S4 ltac:(done)).
      pose proof (awake_update s s' _ x _ i Hx Ht) as Haw.
      destruct (at_down i x), (at_down i (with_cont k' x)); simpl in Haw; lia.
    + eapply (semas_same s s' x (with_cont k' x)); try done. unfold at_down. rewrite Hrun, Hk.
      destruct Ha as [->|Ho]; [|by destruct a]. by rewrite bool_decide_eq_false_2.
  - intros j mj Hj Hw. destruct (decide (i = j)) as [->|Hne].
    + simplify_eq. exists m'. simpl. by rewrite lookup_insert_eq.
    + exists mj. simpl. by rewrite lookup_insert_ne.
  - apply (b_cond _ Hb).
  - intros l h Hl. simpl in Hl. destruct (decide (i = SLock l)) as [->|Hne].
    + destruct Hk' as (k & -> & Hw). eapply (lock_taken l m s' k); [done..|by eapply (b_lock _ Hb)|done|done|].
      exists m'. simpl. by rewrite lookup_insert_eq.
    + eapply (lock_keep s s' x (with_cont k' x)); try done; [simpl; by rewrite lookup_insert_ne|].
      split; [by intros []%Hox|]. simpl. destruct i as [l0| | | |].
      { destruct Hk' as (k & -> & Hw). intros (k2 & [[= -> _]|[=]]). done. }
      all: by intros []%(wf_not_own _ _ _ Hk').
Qed.

(** *** Giving a unit of a semaphore *)
Lemma resema i m' k' s' :
  s' = set_threads (<[current s := with_cont k' x]> (threads s)) (set_semas (<[i := m']> (semas s)) s) ->
  (forall j, at_down j x = false) -> cont_ok (holders s) (current s) k' -> 0 <= value m' ->
  (forall m, semas s !! i = Some m -> waiters m' = waiters m /\ (waiters m <> [] -> value m' <= awake s i)) ->
  (semas s !! i = None -> waiters m' = []) ->
  (forall l h, holders s !! l = Some h -> lock_ok s' l) -> value m' + n < 2 ^ 32 ->
  inv s' /\ fits n s'.
Proof.
  intros Hs' Hnd Hk' Hv Hsome Hnone Hlk Hfm. pose proof Hinv as [Hb _]. pose proof x_running as Hrun.
  assert (threads s' = <[current s := with_cont k' x]> (threads s)) as Ht by by rewrite Hs'.
  split; [|apply (fits_sema i m'); [by rewrite Hs'..|done]].
  apply (inv_advance s s' (with_cont k' x)); [done..|]. split; rewrite ?Hs'; try done.
  - intros t z Hne Hz. apply (b_thread _ Hb _ _ Hz).
  - rewrite <- Hs'. intros j mj Hj. rewrite Hs' in Hj. simpl in Hj.
    apply lookup_insert_Some in Hj as [[<- <-]|[Hne Hj]].
    + split; [done|]. destruct (waiters m') as [|w ws] eqn:E; [by left|]. right.
      destruct (semas s !! i) as [m|] eqn:Em; [|by specialize (Hnone eq_refl)].
      destruct (Hsome m eq_refl) as [Hw Hle]. exists m. split_and!; [done|done|].
      pose proof (awake_update s s' _ x _ i Hx Ht) as Haw. rewrite Hnd in Haw. simpl in Haw.
      specialize (Hle ltac:(by rewrite <- Hw)). destruct (at_down i _); simpl in Haw; lia.
    + eapply (semas_same s s' x (with_cont k' x)); try done. by rewrite Hnd.
  - intros j mj Hj Hw. simpl. destruct (decide (i = j)) as [->|Hne].
    + exists m'. rewrite lookup_insert_eq. split; [done|]. by apply Hsome.
    + exists mj. by rewrite lookup_insert_ne.
  - apply (b_cond _ Hb).
  - intros l h Hl. rewrite <- Hs'. by eapply Hlk.
Qed.

(** The lock whose semaphore gets its unit back has no owner. *)
Lemma lock_given l k' s' :
  own_cont l (cont x) -> holders s !! l = Some 0 -> wf (current s) k' -> lock_ok s l ->
  threads s' = <[current s := with_cont k' x]> (threads s) -> holders s' = holders s ->
  (forall m, semas s !! SLock l = Some m ->
    exists m', semas s' !! SLock l = Some m' /\ value m' = value m + 1) -> lock_ok s' l.
Proof.
  intros Hoc Hh0 Hw (m & Hm & Hcase) Ht Hh Hm'. destruct (Hm' m Hm) as (m' & Hs & Hv). exists m'. split; [done|].
  assert (owns s (current s) l) as Hcur by (apply owns_cont; right; eauto).
  destruct Hcase as [[_ Hno]|[Hv0 (o & Ho & Huniq)]]; [by destruct (Hno (current s))|].
  left. split; [lia|]. intros t Ht'.
  apply (owns_insert s s' (current s) (with_cont k' x)) in Ht'; [|done..].
  destruct Ht' as [[? ?]|[[_ Hk]|[Hne Hk]]]; [congruence|by apply (wf_not_own _ _ _ Hw) in Hk|].
  apply Hne. assert (t = o) as -> by (apply Huniq, owns_cont; by right). symmetry. by apply Huniq.
Qed.

(** [sema->value++] and the rest of the running thread. *)
Lemma raise_ok i m k' :
  semas s !! i = Some m -> (waiters m <> [] -> value m + 1 <= awake s i) ->
  (forall j, at_down j x = false) -> wf (current s) k' ->
  match i with
  | SLock l => own_cont l (cont x) /\ (forall l', l' <> l -> ~ own_cont l' (cont x)) /\ holders s !! l = Some 0
  | _ => forall l, ~ own_cont l (cont x)
  end ->
  let s' := set_threads (<[current s := with_cont k' x]> (threads s))
    (set_semas (<[i := Semaphore (u32 (value m + 1)) (waiters m)]> (semas s)) s) in
  inv s' /\ fits n s'.
Proof.
  intros Hm Hle Hnd Hw Hi s'. pose proof Hinv as [Hb _]. pose proof (proj2 Hfit i m Hm) as Hfm.
  pose proof (so_value _ _ _ (b_sema _ Hb _ _ Hm)) as Hv.
  assert (u32 (value m + 1) = value m + 1) as Eu by (apply wrap_small; lia).
  eapply resema; [done|done|by constructor|simpl; lia| |by rewrite Hm| |simpl; lia].
  { intros m0 Hm0. simplify_eq. simpl. rewrite Eu. done. }
  intros l h Hl. destruct (decide (i = SLock l)) as [->|Hne].
  - destruct Hi as (Ho & _ & Hh). apply (lock_given l k'); try done; [by eapply (b_lock _ Hb)|].
    intros m0 Hm0. simplify_eq. eexists. split; [simpl; by rewrite lookup_insert_eq|]. simpl. lia.
  - eapply (lock_keep s s' x (with_cont k' x)); try done; [simpl; by rewrite lookup_insert_ne|].
    split; [|by intros []%(wf_not_own _ _ _ Hw)].
    destruct i as [l0| | | |]; [|by intros []%Hi..]. destruct Hi as (_ & Ho & _). intros []%Ho. congruence.
Qed.
End actions.

(** [sema_up] wakes the first thread that waits. *)
Definition woken (t : Z) (y : thread) (i : sema_id) (m : semaphore) (s : kst) : kst :=
  set_threads (<[t := with_status THREAD_READY y]> (threads s))
    (set_ready (ready_list s ++ [t]) (set_semas (<[i := m]> (semas s)) s)).

Lemma wake_awake s i t y k m :
  threads s !! t = Some y -> status y = THREAD_BLOCKED -> cont y = ADown i :: k ->
  forall j, awake (woken t y i m s) j = awake s j + Z.b2z (bool_decide (j = i)).
Proof.
  intros Hy Hst Hc j. pose proof (awake_update s (woken t y i m s) t y _ j Hy eq_refl) as E.
  unfold at_down in E. simpl in E. rewrite Hst, Hc in E. simpl in E. lia.
Qed.

Lemma wake_waiters s i m t rest t' :
  semas s !! i = Some m -> waiters m = t :: rest ->
  forall j mj, semas s !! j = Some mj -> t' ∈ waiters mj -> t' <> t ->
  exists mj', <[i := Semaphore (value m) rest]> (semas s) !! j = Some mj' /\ t' ∈ waiters mj'.
Proof.
  intros Hm Hw j mj Hj Hin Hne. destruct (decide (i = j)) as [->|].
  - simplify_eq. rewrite lookup_insert_eq. eexists. split; [done|]. simpl. rewrite Hw in Hin.
    by apply elem_of_cons in Hin as [->|].
  - exists mj. by rewrite lookup_insert_ne.
Qed.

(** A waiting thread waits on one semaphore. *)
Lemma waits_once s i j mi mj t :
  base s -> semas s !! i = Some mi -> semas s !! j = Some mj -> t ∈ waiters mi -> t ∈ waiters mj -> i = j.
Proof.
  intros Hb Hi Hj Hti Htj.
  destruct (so_waiters _ _ _ (b_sema _ Hb _ _ Hi) t Hti) as (x & k & Hx & _ & _ & Hc).
  destruct (so_waiters _ _ _ (b_sema _ Hb _ _ Hj) t Htj) as (x' & k' & Hx' & _ & _ & Hc'). congruence.
Qed.

Lemma wake_ok s i m t rest :
  inv s -> semas s !! i = Some m -> waiters m = t :: rest ->
  exists y, threads s !! t = Some y /\ status y = THREAD_BLOCKED /\ t <> current s /\
    let s1 := woken t y i (Semaphore (value m) rest) s in inv s1 /\ value m + 1 <= awake s1 i.
Proof.
  intros Hinv Hm Hw. pose proof Hinv as [Hb [(x & Hx & Hxr) Hrun]].
  pose proof (b_sema _ Hb _ _ Hm) as [S1 S2 S3 S4].
  destruct (S3 t) as (y & k & Hy & Hst & Hti & Hc); [rewrite Hw; by left|].
  assert (t <> current s) as Htc by (intros ->; congruence).
  pose proof (wake_awake s i t y k (Semaphore (value m) rest) Hy Hst Hc) as Haw.
  exists y. split_and!; [done..|]. intros s1.
  assert (value m <= awake s i) as Hle by (apply S4; by rewrite Hw).
  split; [|unfold s1; rewrite Haw, bool_decide_eq_true_2 by done; simpl; lia].
  assert (forall t' z, threads s1 !! t' = Some z ->
    t' = t /\ z = with_status THREAD_READY y \/ t' <> t /\ threads s !! t' = Some z) as Hget.
  { intros t' z Hz. simpl in Hz. apply lookup_insert_Some in Hz as [[<- <-]|[? ?]]; [by left|by right]. }
  rewrite Hw in S1. apply NoDup_cons in S1 as [Hnot Hnd].
  split; [split|split].
  - intros t' z [[-> ->]|[Hne Hz]]%Hget.
    + destruct (b_thread _ Hb _ _ Hy) as [H1 H2 H3 H4 H5 H6]. split; simpl; try done.
      intros _ _. apply elem_of_app. right. by left.
    + destruct (b_thread _ Hb _ _ Hz) as [H1 H2 H3 H4 H5 H6]. split; simpl; try done.
      * intros Hs Hi. apply elem_of_app. left. auto.
      * intros Hs Hi. destruct (H4 Hs Hi) as (j & mj & Hj & Hin). exists j. by eapply wake_waiters.
  - destruct (b_ready _ Hb) as [Hrn Hrd]. simpl. split.
    + apply NoDup_app. split_and!; [done| |apply NoDup_singleton].
      intros t' Hin ->%list_elem_of_singleton. destruct (Hrd t Hin) as (z & Hz & Hs & _). congruence.
    + intros t' [Hin| ->%list_elem_of_singleton]%elem_of_app.
      * destruct (Hrd t' Hin) as (z & Hz & Hs & Hi). exists z. rewrite lookup_insert_ne; [done|].
        intros <-. congruence.
      * eexists. by rewrite lookup_insert_eq.
  - intros j mj Hj. simpl in Hj.
    assert (forall t', t' <> t -> threads s1 !! t' = threads s !! t') as Hsame.
    { intros t' Hn. simpl. by rewrite lookup_insert_ne. }
    apply lookup_insert_Some in Hj as [[<- <-]|[Hne Hj]].
    + split; simpl; [done|done| |unfold s1; rewrite Haw; destruct (bool_decide _); simpl; lia].
      intros t' Hin. rewrite Hsame by (intros ->; done). apply S3. rewrite Hw. by right.
    + destruct (b_sema _ Hb _ _ Hj) as [H1 H2 H3 H4]. split; [done|done| |].
      * intros t' Hin. rewrite Hsame; [by apply H3|]. intros ->. apply Hne.
        eapply (waits_once s i j m mj t); try done. rewrite Hw. by left.
      * intros Hn. specialize (H4 Hn). unfold s1. rewrite Haw. destruct (bool_decide _); simpl; lia.
  - apply (b_cond _ Hb).
  - intros l h Hl. eapply lock_ok_value; [by eapply (b_lock _ Hb)| |intros t'; by eapply owns_update].
    intros ml Hml. simpl. destruct (decide (i = SLock l)) as [->|Hne].
    + simplify_eq. rewrite lookup_insert_eq. by eexists.
    + rewrite lookup_insert_ne by done. eauto.
  - simpl. rewrite lookup_insert_ne by done. apply Hb.
  - exists x. simpl. by rewrite lookup_insert_ne.
  - intros t' z [[-> ->]|[Hne Hz]]%Hget Hs; [done|]. by eapply Hrun.
Qed.

Lemma get_sema_ok s i m : semas s !! i = Some m -> get_sema i s = Ok (m, s).
Proof. intros Hm. unfold get_sema, mbind, M_bind, get, deref. by rewrite Hm. Qed.

Lemma unblock_ok s t y :
  threads s !! t = Some y -> status y = THREAD_BLOCKED ->
  thread_unblock t s =
    Ok (tt, set_threads (<[t := with_status THREAD_READY y]> (threads s)) (set_ready (ready_list s ++ [t]) s)).
Proof.
  intros Hy Hst. unfold thread_unblock, mbind, M_bind, get. rewrite Hy. unfold assert.
  rewrite bool_decide_eq_true_2 by done. rewrite (get_thread_ok s t y) by done.
  rewrite bool_decide_eq_true_2 by done. simpl. by rewrite (set_status_ok _ t y).
Qed.

Section more_actions.
Context (body : Z -> Z -> list act) (Hbody : forall f t, wf t (body f t)).
Context (s : kst) (x : thread) (n : Z).
Hypothesis Hinv : inv s.
Hypothesis Hci : current s <> idle_thread s.
Hypothesis Hx : threads s !! current s = Some x.
Hypothesis Hn0 : 0 <= n.
Hypothesis Hfit : fits (n + 1) s.

Abbreviation done_post := (fun (_ : unit) s' => inv s' /\ fits n s').
Ltac start := unfold exec; wp_step; (eapply wp_eq; [by apply thread_current_ok|]).
Ltac tail_of Hk := pose proof (cont_tail _ _ _ _ (x_tail s x Hinv Hx _ _ Hk)).

(** [sema_up] and the rest of the running thread. *)
Lemma up_ok i m k' :
  semas s !! i = Some m -> (forall j, at_down j x = false) -> wf (current s) k' ->
  match i with
  | SLock l => own_cont l (cont x) /\ (forall l', l' <> l -> ~ own_cont l' (cont x)) /\ holders s !! l = Some 0
  | _ => forall l, ~ own_cont l (cont x)
  end ->
  wp (sema_up i;; set_cont (current s) k') done_post s.
Proof.
  intros Hm Hnd Hw Hi. unfold sema_up. do 2 wp_step. eapply wp_eq; [by apply get_sema_ok|].
  destruct (waiters m) as [|t rest] eqn:Ew.
  - unfold put_sema. wp_step. eapply wp_eq; [by apply set_cont_ok|]. rewrite <- Ew.
    apply (raise_ok s x n Hinv Hci Hx Hn0 Hfit i m k'); try done.
  - destruct (wake_ok s i m t rest Hinv Hm Ew) as (y & Hy & Hst & Htc & Hinv1 & Haw).
    unfold put_sema. do 2 wp_step. wp_step.
    eapply wp_eq; [by apply (unblock_ok _ t y)|].
    change (set_threads _ (set_ready _ _)) with (woken t y i (Semaphore (value m) rest) s).
    set (s1 := woken _ _ _ _ _) in *.
    wp_step. eapply wp_eq; [apply get_sema_ok; simpl; by rewrite lookup_insert_eq|]. wp_step.
    assert (threads s1 !! current s = Some x) as Hx1 by (simpl; by rewrite lookup_insert_ne).
    eapply wp_eq; [by apply (set_cont_ok _ _ x)|].
    assert (fits (n + 1) s1) as Hfit1.
    { destruct Hfit as [F1 F2]. split; [done|]. intros j mj. simpl.
      intros [[<- <-]|[_ Hj]]%lookup_insert_Some; [apply (F2 i m Hm)|by eapply F2]. }
    apply (raise_ok s1 x n Hinv1 Hci Hx1 Hn0 Hfit1 i (Semaphore (value m) rest) k'); try done.
    simpl. by rewrite lookup_insert_eq.
Qed.

Lemma exec_up i k :
  cont x = AUp i :: k -> safe s x (AUp i) -> wp (exec body (AUp i) k) done_post s.
Proof.
  intros Hk [m Hm]. tail_of Hk.
  assert (forall j, at_down j x = false) as Hnd.
  { intros j. unfold at_down. rewrite Hk. by destruct (status x). }
  start. destruct i as [l| | | |]; destruct H as [H1 H2]; apply (up_ok _ m); try done;
    try (intros l (k' & [E|E]); congruence).
  split_and!; [exists k; by right| |done]. intros l' Hl (k' & [E|E]); congruence.
Qed.

Lemma exec_exit_up k :
  cont x = AExitUp :: k -> safe s x AExitUp -> wp (exec body AExitUp k) done_post s.
Proof.
  intros Hk [m Hm]. tail_of Hk. destruct H as [_ Hw].
  start. wp_step. eapply wp_eq; [by apply get_thread_ok|]. apply (up_ok _ m); try done.
  - intros j. by eapply (ordinary_down s x Hinv Hx _ _ j Hk).
  - intros l. by eapply (ordinary_own x _ _ l Hk).
Qed.

Lemma exec_down_free i m k :
  cont x = ADown i :: k -> semas s !! i = Some m -> value m <> 0 -> wp (exec body (ADown i) k) done_post s.
Proof.
  intros Hk Hm Hv. tail_of Hk. pose proof Hinv as [Hb _].
  pose proof (so_value _ _ _ (b_sema _ Hb _ _ Hm)) as Hge.
  start. wp_step. eapply wp_eq; [by apply get_sema_ok|]. rewrite (proj2 (Z.eqb_neq _ _)) by done.
  unfold put_sema. do 2 wp_step. eapply wp_eq; [by apply (set_cont_ok _ _ x)|].
  apply (take_ok s x n Hinv Hci Hx Hn0 Hfit i m (ADown i) k); try done; [by rewrite Hk|by left|lia|].
  destruct i; [done|by destruct H..].
Qed.

Lemma exec_try_down l k :
  cont x = ATryDown l :: k -> safe s x (ATryDown l) -> wp (exec body (ATryDown l) k) done_post s.
Proof.
  intros Hk [m Hm]. tail_of Hk. destruct H as [_ Hw]. pose proof Hinv as [Hb _].
  pose proof (so_value _ _ _ (b_sema _ Hb _ _ Hm)) as Hge.
  start. unfold sema_try_down. do 2 wp_step. eapply wp_eq; [by apply get_sema_ok|].
  destruct (Z.ltb_spec 0 (value m)).
  - unfold put_sema. do 3 wp_step. eapply wp_eq; [by apply (set_cont_ok _ _ x)|].
    apply (take_ok s x n Hinv Hci Hx Hn0 Hfit (SLock l) m (ATryDown l)); try done; [by rewrite Hk|by right|].
    by exists k.
  - wp_step. by eapply (goto_wf s x n).
Qed.

Lemma exec_init i v k :
  cont x = AInit i v :: k -> wp (exec body (AInit i v) k) done_post s.
Proof.
  intros Hk. tail_of Hk. destruct H as [[-> ->] Hw]. pose proof Hinv as [Hb _].
  start. unfold sema_init, put_sema. do 2 wp_step. eapply wp_eq; [by apply (set_cont_ok _ _ x)|].
  pose proof (fun l => wf_not_own _ l _ Hw) as Hnk.
  eapply (resema s x n Hinv Hci Hx Hfit (SWaiter (current s)) (Semaphore 0 [])); try done; simpl.
  - intros j. by eapply (ordinary_down s x Hinv Hx _ _ j Hk).
  - by constructor.
  - intros m Hm. assert (waiters m = []) as ->; [|done].
    destruct (waiters m) as [|t rest] eqn:E; [done|].
    assert (t ∈ waiters m) as Hin by (rewrite E; by left).
    destruct (so_waiters _ _ _ (b_sema _ Hb _ _ Hm) t Hin) as (y & ky & Hy & _ & _ & Hc).
    pose proof (to_cont _ _ _ (b_thread _ Hb _ _ Hy)) as Hco. rewrite Hc in Hco.
    apply (own_sema _ _ (current s)) in Hco; [|tauto]. subst t. by apply (running_not_waiting s _ m Hinv Hm) in Hin.
  - intros l h Hl. eapply (lock_keep s _ x (with_cont k x)); try done; [simpl; by rewrite lookup_insert_ne|].
    pose proof (ordinary_own x _ _ l Hk I). specialize (Hnk l). simpl. tauto.
  - destruct Hfit. pose proof (to_tid _ _ _ (b_thread _ Hb _ _ Hx)). lia.
Qed.

(** *** The holder of a lock changes *)
Definition held_by (h l : Z) (k' : list act) : kst :=
  set_threads (<[current s := with_cont k' x]> (threads s)) (set_holders (<[l := h]> (holders s)) s).

Lemma held_owns h l k' t l' :
  owns (held_by h l k') t l' <-> <[l := h]> (holders s) !! l' = Some t /\ t <> 0 \/
    (t = current s /\ own_cont l' k') \/ (t <> current s /\ exists y, threads s !! t = Some y /\ own_cont l' (cont y)).
Proof.
  rewrite (owns_insert (set_holders (<[l := h]> (holders s)) s) _ (current s) (with_cont k' x)) by done. done.
Qed.

Lemma holders_cont h l t k :
  cont_ok (holders s) t k -> ~ (holders s !! l = Some t \/ own_cont l k) -> cont_ok (<[l := h]> (holders s)) t k.
Proof.
  intros Hc Hno. destruct Hc as [|l' k|l' k Hw Hl|l' k Hw Hl]; [by constructor..| |]; constructor; try done;
    (rewrite lookup_insert_ne; [done|]); intros <-; apply Hno; [by left|right; eexists; by right].
Qed.

Lemma lock_moved h l k' :
  owns s (current s) l -> lock_ok s l -> h = 0 /\ own_cont l k' \/ h = current s ->
  (forall l', l' <> l -> own_cont l' (cont x) <-> own_cont l' k') ->
  forall l', (l' <> l -> lock_ok s l') -> lock_ok (held_by h l k') l'.
Proof.
  intros Ho (m & Hm & Hcase) Hh Hk l' Hl'. destruct (decide (l' = l)) as [->|Hne].
  - exists m. split; [done|]. right. destruct Hcase as [[_ Hno]|[Hv (o & _ & Hu)]]; [by destruct (Hno (current s))|].
    split; [done|]. exists (current s). assert (o = current s) as -> by (symmetry; by apply Hu). split.
    + apply held_owns. rewrite lookup_insert_eq. destruct Hh as [[-> Hk']| ->]; [right; left|left]; [done|].
      split; [done|]. destruct Hinv as [Hb _]. pose proof (to_tid _ _ _ (b_thread _ Hb _ _ Hx)). lia.
    + intros t Ht. apply held_owns in Ht. rewrite lookup_insert_eq in Ht.
      destruct Ht as [[[= <-] Hn]|[[-> _]|[_ Ht]]]; [by destruct Hh as [[? _]|?]|done|].
      apply Hu, owns_cont. by right.
  - eapply lock_ok_same; [by apply Hl'|done|]. intros t. rewrite held_owns, owns_cont, lookup_insert_ne by done.
    destruct (decide (t = current s)) as [->|Hn].
    + split; (intros [?|Ht]; [by left|right]).
      * destruct Ht as [[_ Ht]|[? _]]; [|done]. exists x. split; [done|]. by apply Hk.
      * left. split; [done|]. destruct Ht as (y & Hy & Ht). simplify_eq. by apply Hk.
    + split; (intros [?|Ht]; [by left|right]); [|by right]. by destruct Ht as [[? _]|[_ ?]].
Qed.

Lemma hold_ok h l k' :
  is_Some (holders s !! l) -> owns s (current s) l -> h = 0 /\ own_cont l k' \/ h = current s ->
  (forall l', l' <> l -> own_cont l' (cont x) <-> own_cont l' k') ->
  (forall j, at_down j x = false) -> cont_ok (<[l := h]> (holders s)) (current s) k' ->
  inv (held_by h l k') /\ fits n (held_by h l k').
Proof.
  intros [h0 Hl] Ho Hh Hk Hnd Hc. pose proof Hinv as [Hb _].
  split; [|by apply (fits_less s n Hfit)].
  apply (inv_advance s _ (with_cont k' x)); [done..|]. split; try done.
  - by apply (x_running s x).
  - intros t z Hne Hz. apply holders_cont; [apply (b_thread _ Hb _ _ Hz)|]. intros Hoz. apply Hne.
    destruct (b_lock _ Hb _ _ Hl) as (m & Hm & [[_ Hno]|[_ (o & _ & Hu)]]); [by destruct (Hno (current s))|].
    rewrite (Hu (current s) Ho). apply Hu. apply owns_cont. destruct Hoz as [?|?]; [left|right; eauto].
    split; [done|]. pose proof (to_tid _ _ _ (b_thread _ Hb _ _ Hz)). lia.
  - intros i m Hm. eapply (semas_same s _ x (with_cont k' x)); try done. by rewrite Hnd.
  - intros i m Hm _. by exists m.
  - apply (b_cond _ Hb).
  - intros l' h' Hl'. apply lock_moved; try done; [by eapply (b_lock _ Hb)|].
    intros Hne. simpl in Hl'. rewrite lookup_insert_ne in Hl' by done. by eapply (b_lock _ Hb).
Qed.

Lemma exec_set_holder l k :
  cont x = ASetHolder l :: k -> safe s x (ASetHolder l) -> wp (exec body (ASetHolder l) k) done_post s.
Proof.
  intros Hk [h Hl]. tail_of Hk. start. do 3 wp_step. eapply wp_deref; [exact Hl|]. do 2 wp_step.
  eapply wp_eq; [by apply (set_cont_ok _ _ x)|]. apply (hold_ok (current s) l k); try done.
  - apply owns_cont. right. exists x. split; [done|]. exists k. by left.
  - by right.
  - intros l' Hne. split; [intros (k' & [E|E]); congruence|by intros []%(wf_not_own _ _ _ H)].
  - intros j. unfold at_down. rewrite Hk. by destruct (status x).
  - by constructor.
Qed.

Lemma exec_clear_holder l k :
  cont x = AClearHolder l :: k -> wp (exec body (AClearHolder l) k) done_post s.
Proof.
  intros Hk. tail_of Hk. destruct H as (Hl & k' & -> & Hw). pose proof Hinv as [Hb _].
  start. do 3 wp_step. eapply wp_deref; [exact Hl|]. do 2 wp_step.
  eapply wp_eq; [by apply (set_cont_ok _ _ x)|]. apply (hold_ok 0 l (AUp (SLock l) :: k')); try done.
  - left. split; [done|]. pose proof (to_tid _ _ _ (b_thread _ Hb _ _ Hx)). lia.
  - left. split; [done|]. exists k'. by right.
  - intros l' Hne. split; intros (k2 & [E|E]); congruence.
  - intros j. unfold at_down. rewrite Hk. by destruct (status x).
  - apply co_cleared; [done|]. by rewrite lookup_insert_eq.
Qed.
End more_actions.

(** ** The running thread stops running *)
Record suspends (s s' : kst) (x : thread) (st : thread_status) : Prop := {
  su_threads : threads s' = <[current s := with_status st x]> (threads s);
  su_status : st <> THREAD_RUNNING;
  su_current : current s' = current s;
  su_idle : idle_thread s' = idle_thread s;
  su_tid : next_tid s' = next_tid s;
  su_holders : holders s' = holders s;
  su_conds : conds s' = conds s;
  su_ready : ready_list s' = ready_list s /\ (st = THREAD_READY -> current s = idle_thread s) \/
    ready_list s' = ready_list s ++ [current s] /\ st = THREAD_READY /\ current s <> idle_thread s;
  su_dying : st = THREAD_DYING -> current s <> idle_thread s /\ exists k, cont x = ADie :: k;
  su_semas : semas s' = semas s /\ (st = THREAD_BLOCKED -> current s = idle_thread s) \/
    st = THREAD_BLOCKED /\ current s <> idle_thread s /\ exists i m k, semas s !! i = Some m /\ value m = 0 /\
      cont x = ADown i :: k /\ semas s' = <[i := Semaphore 0 (waiters m ++ [current s])]> (semas s);
}.

Lemma suspend_thread s s' x st :
  inv s -> threads s !! current s = Some x -> suspends s s' x st -> thread_ok s' (current s) (with_status st x).
Proof.
  intros [Hb _] Hx [Ht Hst Hcu Hi Htid Hh Hco Hr Hd Hs].
  destruct (b_thread _ Hb _ _ Hx) as [H1 H2 H3 H4 H5 H6]. split; simpl; rewrite ?Hi, ?Htid, ?Hh; try done.
  - intros E. split; [by apply H2|]. intros E'. by destruct (Hd E') as [? _].
  - intros E Hni. destruct Hr as [[_ Hr]|[-> _]]; [by specialize (Hr E)|]. apply elem_of_app. right. by left.
  - intros E Hni. destruct Hs as [[_ Hs]|(_ & _ & i & m & k & Hm & _ & _ & ->)].
    { exfalso. by apply Hni, H2, Hs. }
    exists i, (Semaphore 0 (waiters m ++ [current s])). rewrite lookup_insert_eq. split; [done|].
    apply elem_of_app. right. by left.
  - intros E. by apply Hd.
Qed.

Lemma suspend_awake s s' x st j m :
  inv s -> threads s !! current s = Some x -> suspends s s' x st -> semas s' !! j = Some m ->
  awake s j <= awake s' j \/ value m = 0.
Proof.
  intros Hinv Hx [Ht Hst Hcu Hi Htid Hh Hco Hr Hd Hs] Hj.
  pose proof (awake_update s s' _ x _ j Hx Ht) as E. pose proof (x_running s x Hinv Hx) as Hxr.
  unfold at_down in E. simpl in E. rewrite Hxr in E.
  destruct st; [done|left; lia|..].
  - destruct Hs as [[_ Hs]|(_ & _ & i & mi & k & Hm & _ & Hc & Hs)].
    + left. destruct Hinv as [Hb _]. destruct (to_idle _ _ _ (b_thread _ Hb _ _ Hx) (Hs eq_refl)) as [Hc _].
      rewrite Hc in E. lia.
    + rewrite Hc in E. destruct (decide (j = i)) as [->|Hne].
      * right. rewrite Hs, lookup_insert_eq in Hj. by simplify_eq.
      * left. rewrite bool_decide_eq_false_2 in E by done. lia.
  - left. destruct (Hd eq_refl) as [_ [k Hc]]. rewrite Hc in E. lia.
Qed.

Lemma suspend_sema s s' x st j m :
  inv s -> threads s !! current s = Some x -> suspends s s' x st -> semas s' !! j = Some m -> sema_ok s' j m.
Proof.
  intros Hinv Hx Hsu Hj. pose proof (suspend_awake s s' x st j m Hinv Hx Hsu Hj) as Haw.
  destruct Hsu as [Ht Hst Hcu Hi Htid Hh Hco Hr Hd Hs]. pose proof Hinv as [Hb _].
  assert (forall t, t <> current s -> threads s' !! t = threads s !! t) as Hne.
  { intros t Hn. rewrite Ht. by rewrite lookup_insert_ne. }
  assert (forall j m, semas s !! j = Some m -> awake s j <= awake s' j \/ value m = 0 -> sema_ok s' j m) as Hold.
  { clear j m Hj Haw. intros j m Hj Haw. destruct (b_sema _ Hb _ _ Hj) as [H1 H2 H3 H4]. split; [done|done| |].
    - rewrite Hi. intros t Hin. rewrite Hne; [by apply H3|]. intros ->. by apply (running_not_waiting s j m).
    - intros Hw. specialize (H4 Hw). unfold awake in *. lia. }
  destruct Hs as [[Hs _]|(-> & Hni & i & mi & k & Hm & Hv & Hc & Hs)]; rewrite Hs in Hj; [by apply Hold|].
  apply lookup_insert_Some in Hj as [[<- <-]|[_ Hj]]; [|by apply Hold].
  destruct (Hold i mi Hm) as [H1 H2 H3 H4]; [by right|]. split; simpl; [|lia| |unfold awake; lia].
  - apply NoDup_app. split_and!; [done| |apply NoDup_singleton].
    intros t Hin ->%list_elem_of_singleton. by apply (running_not_waiting s i mi).
  - intros t [Hin| ->%list_elem_of_singleton]%elem_of_app; [by apply H3|].
    exists (with_status THREAD_BLOCKED x), k. rewrite Ht, lookup_insert_eq, Hi. done.
Qed.

Lemma suspend_ok s s' x st n :
  inv s -> threads s !! current s = Some x -> suspends s s' x st -> fits n s ->
  wp schedule (fun _ s'' => inv s'' /\ fits n s'') s'.
Proof.
  intros Hinv Hx Hsu Hfit. pose proof (suspend_thread s s' x st Hinv Hx Hsu) as Hcur.
  pose proof (suspend_sema s s' x st) as Hsem.
  pose proof Hsu as [Ht Hst Hcu Hi Htid Hh Hco Hr Hd Hs]. pose proof Hinv as [Hb [_ Hrun]].
  assert (forall t z, threads s' !! t = Some z ->
    t = current s /\ z = with_status st x \/ t <> current s /\ threads s !! t = Some z) as Hget.
  { intros t z Hz. rewrite Ht in Hz. apply lookup_insert_Some in Hz as [[<- <-]|[? ?]]; [by left|by right]. }
  assert (forall i m, semas s !! i = Some m -> exists m', semas s' !! i = Some m' /\ value m' = value m /\
    forall t, t ∈ waiters m -> t ∈ waiters m') as Hkeep.
  { intros i m Hm. destruct Hs as [[-> _]|(_ & _ & j & mj & k & Hj & Hv & _ & ->)]; [by exists m|].
    destruct (decide (j = i)) as [->|]; [|exists m; by rewrite lookup_insert_ne].
    simplify_eq. eexists. rewrite lookup_insert_eq. split; [done|]. split; [done|]. simpl. intros t ?.
    apply elem_of_app. by left. }
  apply schedule_ok.
  - split.
    + intros t z [[-> ->]|[Hne Hz]]%Hget; [done|]. destruct (b_thread _ Hb _ _ Hz) as [H1 H2 H3 H4 H5 H6].
      split; rewrite ?Hi, ?Htid, ?Hh; try done.
      * intros E1 E2. destruct Hr as [[-> _]|[-> _]]; [auto|]. apply elem_of_app. left. auto.
      * intros E1 E2. destruct (H4 E1 E2) as (i & m & Hm & Hin). destruct (Hkeep i m Hm) as (m' & Hm' & _ & Hsub).
        exists i, m'. eauto.
    + destruct (b_ready _ Hb) as [Hnd Hrd]. pose proof (running_not_ready s Hinv) as Hnr. rewrite Hi.
      assert (forall t, t ∈ ready_list s -> exists z, threads s' !! t = Some z /\ status z = THREAD_READY /\ t <> idle_thread s) as Hrd'.
      { intros t Hin. rewrite Ht, lookup_insert_ne by (intros <-; done). by apply Hrd. }
      destruct Hr as [[-> _]|(-> & -> & Hni)]; [done|]. split.
      * apply NoDup_app. split_and!; [done| |apply NoDup_singleton]. by intros t Hin ->%list_elem_of_singleton.
      * intros t [Hin| ->%list_elem_of_singleton]%elem_of_app; [by apply Hrd'|].
        exists (with_status THREAD_READY x). by rewrite Ht, lookup_insert_eq.
    + intros i m Hm. by apply Hsem.
    + rewrite Hco. apply (b_cond _ Hb).
    + rewrite Hh. intros l h Hl. eapply lock_ok_value; [by eapply (b_lock _ Hb)| |intros t; by eapply owns_update].
      intros m Hm. destruct (Hkeep _ m Hm) as (m' & ? & ? & _). eauto.
    + rewrite Hi, Ht. destruct (decide (current s = idle_thread s)) as [->|]; [by rewrite lookup_insert_eq|].
      rewrite lookup_insert_ne by done. apply Hb.
  - intros t z [[-> ->]|[Hne Hz]]%Hget; [done|]. intros E. by apply Hne, (Hrun t z).
  - rewrite Hcu, Ht, lookup_insert_eq. eauto.
  - destruct Hfit as [F1 F2]. split; [by rewrite Htid|]. intros i m Hm.
    destruct Hs as [[Hs _]|(_ & _ & j & mj & k & Hj & Hv & _ & Hs)]; rewrite Hs in Hm; [by eapply F2|].
    apply lookup_insert_Some in Hm as [[<- <-]|[_ Hm]]; [|by eapply F2]. specialize (F2 _ _ Hj). simpl. lia.
Qed.

Lemma yield_ok s n :
  inv s -> fits n s -> wp thread_yield (fun _ s' => inv s' /\ fits n s') s.
Proof.
  intros Hinv Hfit. pose proof Hinv as [Hb [(x & Hx & _) _]]. unfold thread_yield.
  wp_step. eapply wp_eq; [by apply thread_current_ok|]. do 3 wp_step.
  set (s1 := if current s =? idle_thread s then s else set_ready (ready_list s ++ [current s]) s).
  apply (wp_eq _ _ _ tt s1). { unfold s1. by destruct (current s =? idle_thread s). }
  assert (threads s1 = threads s) as Ht by (unfold s1; by destruct (current s =? idle_thread s)).
  wp_step. eapply wp_eq; [apply (set_status_ok _ _ x); by rewrite Ht|]. rewrite Ht.
  eapply (suspend_ok s _ x THREAD_READY); [done..| |done].
  unfold s1. destruct (Z.eqb_spec (current s) (idle_thread s)); split; try done.
  - by left.
  - by left.
  - by right.
  - by left.
Qed.

Lemma tick_ok s n :
  inv s -> fits n s -> wp thread_tick (fun _ s' => inv s' /\ fits n s') s.
Proof.
  intros Hinv Hfit. unfold thread_tick. do 2 wp_step. wp_step.
  eapply wp_eq; [by apply thread_current_ok|]. do 2 wp_step.
  assert (forall k, inv (set_ticks k s) /\ fits n (set_ticks k s)) as Hs.
  { intros k. split; [|done]. destruct Hinv as [[B1 B2 B3 B4 B5 B6] ?]. split; [|done]. split; try done.
    - intros t x Hx. by destruct (B1 t x Hx).
    - intros i m Hm. by destruct (B3 i m Hm). }
  destruct (TIME_SLICE <=? u32 (thread_ticks s + 1)); [apply yield_ok; apply Hs|wp_step; apply Hs].
Qed.

Lemma block_ok s s1 x n :
  inv s -> threads s !! current s = Some x -> fits n s ->
  threads s1 = threads s -> current s1 = current s ->
  suspends s (set_threads (<[current s := with_status THREAD_BLOCKED x]> (threads s)) s1) x THREAD_BLOCKED ->
  wp thread_block (fun _ s' => inv s' /\ fits n s') s1.
Proof.
  intros Hinv Hx Hfit Ht Hc Hsu. unfold thread_block. wp_step.
  eapply (wp_eq _ _ _ (current s) s1).
  { unfold thread_current, mbind, M_bind, get. rewrite Hc, (get_thread_ok _ _ x) by (by rewrite Ht).
    unfold assert. by rewrite bool_decide_eq_true_2 by (by apply (x_running s)). }
  wp_step. eapply wp_eq; [apply (set_status_ok _ _ x); by rewrite Ht|]. rewrite Ht. by eapply suspend_ok.
Qed.

Lemma idle_block_ok s n :
  inv s -> fits n s -> current s = idle_thread s -> wp thread_block (fun _ s' => inv s' /\ fits n s') s.
Proof.
  intros Hinv Hfit Hi. pose proof Hinv as [_ [(x & Hx & _) _]].
  apply (block_ok s s x); try done. split; try done; by left.
Qed.

(** A change to the children or the result of a thread. *)
Lemma inv_same_code s s' t y z :
  inv s -> threads s !! t = Some y -> status z = status y -> cont z = cont y ->
  s' = set_threads (<[t := z]> (threads s)) s -> inv s'.
Proof.
  intros [Hb [(x & Hx & Hxr) Hrun]] Hy Hst Hc ->. set (s' := set_threads _ _).
  assert (forall t' w, threads s' !! t' = Some w ->
    exists w', threads s !! t' = Some w' /\ status w = status w' /\ cont w = cont w') as Hback.
  { intros t' w Hw. simpl in Hw. apply lookup_insert_Some in Hw as [[<- <-]|[_ Hw]]; eauto. }
  assert (forall t' w', threads s !! t' = Some w' ->
    exists w, threads s' !! t' = Some w /\ status w = status w' /\ cont w = cont w') as Hforth.
  { intros t' w' Hw. simpl. destruct (decide (t = t')) as [<-|]; [rewrite lookup_insert_eq|rewrite lookup_insert_ne by done].
    - simplify_eq. eauto.
    - eauto. }
  assert (forall i, awake s' i = awake s i) as Haw.
  { intros i. pose proof (awake_update s s' t y z i Hy eq_refl) as E. unfold at_down in E.
    rewrite Hst, Hc in E. lia. }
  split; [split|split]; try apply Hb.
  - intros t' w (w' & Hw & E1 & E2)%Hback. destruct (b_thread _ Hb _ _ Hw) as [H1 H2 H3 H4 H5 H6].
    split; rewrite ?E1, ?E2; done.
  - destruct (b_ready _ Hb) as [Hnd Hrd]. split; [done|]. intros t' Hin. destruct (Hrd t' Hin) as (w' & Hw & Es & Hi).
    destruct (Hforth _ _ Hw) as (w & ? & ? & ?). exists w. split_and!; [done|congruence|done].
  - intros i m Hm. destruct (b_sema _ Hb _ _ Hm) as [H1 H2 H3 H4]. split; [done|done| |by rewrite Haw].
    intros t' Hin. destruct (H3 t' Hin) as (w' & k & Hw & Es & Hi & Ec).
    destruct (Hforth _ _ Hw) as (w & ? & ? & ?). exists w, k. split_and!; [done|congruence|done|congruence].
  - intros l h Hl. eapply lock_ok_same; [by eapply (b_lock _ Hb)|done|]. intros t'. by eapply owns_update.
  - destruct (b_idle _ Hb) as [w' Hw]. destruct (Hforth _ _ Hw) as (w & ? & _). by exists w.
  - destruct (Hforth _ _ Hx) as (w & ? & ? & _). exists w. split; [done|congruence].
  - intros t' w (w' & Hw & E1 & E2)%Hback E. eapply Hrun; [done|congruence].
Qed.

(** *** A thread is created *)
Definition joined (y : thread) (r : list Z) (s : kst) : kst :=
  let t := next_tid s in
  set_ready r (set_next_tid (t + 1) (set_all (all_list s ++ [t])
    (set_semas (<[SWait t := Semaphore 0 []]> (<[SLoad t := Semaphore 0 []]> (semas s)))
    (set_threads (<[t := y]> (threads s)) s)))).

(** The thread starts, or its creation failed after [init_thread]. *)
Definition joins (y : thread) (r : list Z) (s : kst) : Prop :=
  status y = THREAD_READY /\ r = ready_list s ++ [next_tid s] /\ wf (next_tid s) (cont y) \/
  status y = THREAD_BLOCKED /\ r = ready_list s /\ cont y = [].

Lemma fresh_tid s t : base s -> is_Some (threads s !! t) -> 0 < t /\ t <> next_tid s.
Proof. intros Hb [x Hx]. pose proof (to_tid _ _ _ (b_thread _ Hb _ _ Hx)). lia. Qed.

(** A new semaphore of a new thread replaces none that is waited on. *)
Lemma spawn_waiters s y r i m :
  base s -> semas s !! i = Some m -> waiters m <> [] -> semas (joined y r s) !! i = Some m.
Proof.
  intros Hb Hm Hw. destruct (waiters m) as [|t rest] eqn:E; [done|].
  destruct (so_waiters _ _ _ (b_sema _ Hb _ _ Hm) t) as (z & k & Hy & _ & _ & Hc); [rewrite E; by left|].
  pose proof (to_cont _ _ _ (b_thread _ Hb _ _ Hy)) as Hco. rewrite Hc in Hco.
  destruct (fresh_tid s t Hb (ex_intro _ _ Hy)) as [_ Hne].
  simpl. rewrite !lookup_insert_ne; [done|..];
    intros <-; apply Hne; symmetry; eapply own_sema; try done; tauto.
Qed.

Lemma spawn_sema s y r i m :
  base s -> semas (joined y r s) !! i = Some m ->
  value m = 0 /\ waiters m = [] \/ semas s !! i = Some m.
Proof.
  intros Hb Hm. simpl in Hm. apply lookup_insert_Some in Hm as [[_ <-]|[_ Hm]]; [by left|].
  apply lookup_insert_Some in Hm as [[_ <-]|[_ Hm]]; [by left|by right].
Qed.

Lemma spawn_ok s y r : inv s -> joins y r s -> inv (joined y r s).
Proof.
  intros Hinv Hj. pose proof Hinv as [Hb [(x & Hx & Hxr) Hrun]]. set (s' := joined y r s).
  pose proof (fresh_tid s) as Hfr.
  assert (threads s !! next_tid s = None) as Hnone.
  { destruct (threads s !! next_tid s) as [z|] eqn:E; [|done].
    destruct (Hfr (next_tid s) Hb) as [_ []]; [by exists z|done]. }
  assert (forall t z, threads s' !! t = Some z ->
    t = next_tid s /\ z = y \/ t <> next_tid s /\ threads s !! t = Some z) as Hget.
  { intros t z Hz. simpl in Hz. apply lookup_insert_Some in Hz as [[<- <-]|[? ?]]; [by left|by right]. }
  assert (forall t z, threads s !! t = Some z -> threads s' !! t = Some z) as Hkeep.
  { intros t z Hz. simpl. rewrite lookup_insert_ne; [done|]. intros <-. congruence. }
  assert (forall i, awake s i <= awake s' i) as Haw.
  { intros i. unfold awake. simpl. rewrite mcount_insert_new by done. lia. }
  pose proof (b_idle _ Hb) as Hidle. pose proof (Hfr _ Hb Hidle) as [_ Hni].
  assert (0 < next_tid s) as Hpos by (destruct (to_tid _ _ _ (b_thread _ Hb _ _ Hx)); lia).
  assert (wf (next_tid s) (cont y)) as Hw by (destruct Hj as [(_ & _ & ?)|(_ & _ & ->)]; [done|constructor]).
  assert (forall t, t ∈ r <-> t ∈ ready_list s \/ t = next_tid s /\ status y = THREAD_READY) as Hin.
  { intros t. destruct Hj as [(-> & -> & _)|(-> & -> & _)]; [rewrite elem_of_app, list_elem_of_singleton; tauto|].
    split; [by left|]. by intros [?|[_ ?]]. }
  split; [split|split].
  - intros t z [[-> ->]|[Hne Hz]]%Hget.
    + split; simpl; [lia|intros E; by symmetry in E| | | |by constructor].
      * intros E _. apply Hin. by right.
      * intros E E2. by destruct Hj as [(E3 & _)|(_ & _ & E3)]; congruence.
      * intros E. destruct Hj as [(E3 & _)|(E3 & _)]; congruence.
    + destruct (b_thread _ Hb _ _ Hz) as [H1 H2 H3 H4 H5 H6]. split; simpl; try done; [lia|..].
      * intros E1 E2. apply Hin. left. auto.
      * intros E1 E2. destruct (H4 E1 E2) as (i & m & Hm & Ht). exists i, m. split; [|done].
        apply (spawn_waiters s y r); [done..|]. by eapply elem_not_nil.
  - destruct (b_ready _ Hb) as [Hnd Hrd]. simpl. split.
    + destruct Hj as [(_ & -> & _)|(_ & -> & _)]; [|done]. apply NoDup_app. split; [done|].
      split; [|apply NoDup_singleton]. intros t Ht ->%list_elem_of_singleton.
      destruct (Hrd _ Ht) as (z & Hz & _). congruence.
    + intros t [Ht|[-> E]]%Hin.
      * destruct (Hrd _ Ht) as (z & Hz & ?). exists z. split; [by apply Hkeep|done].
      * exists y. rewrite lookup_insert_eq. by split_and!.
  - intros i m Hm. apply (spawn_sema s y r i m Hb) in Hm as [[Hv Hnil]|Hm].
    + split; rewrite ?Hnil; [constructor|lia|by intros t Ht%elem_of_nil|done].
    + destruct (b_sema _ Hb _ _ Hm) as [H1 H2 H3 H4]. split; [done|done|..].
      * intros t Ht. destruct (H3 t Ht) as (z & k & Hz & ?). exists z, k. split; [by apply Hkeep|done].
      * intros Hn. specialize (H4 Hn). specialize (Haw i). lia.
  - apply (b_cond _ Hb).
  - intros l h Hl. eapply lock_ok_same; [by eapply (b_lock _ Hb)|simpl; by rewrite !lookup_insert_ne|].
    intros t. rewrite (owns_insert s s' (next_tid s) y), owns_cont by done. simpl. split.
    + intros [?|[[-> Ho]|[_ ?]]]; [by left|by apply (wf_not_own _ _ _ Hw) in Ho|by right].
    + intros [?|(z & Hz & ?)]; [by left|right; right]. split; [intros ->; congruence|eauto].
  - destruct Hidle as [z Hz]. exists z. by apply Hkeep.
  - exists x. split; [by apply Hkeep|done].
  - intros t z [[-> ->]|[Hne Hz]]%Hget E; [|by eapply Hrun].
    destruct Hj as [(E3 & _)|(E3 & _)]; congruence.
Qed.

Lemma kst_eq s s' :
  threads s = threads s' -> ready_list s = ready_list s' -> all_list s = all_list s' -> current s = current s' ->
  idle_thread s = idle_thread s' -> initial_thread s = initial_thread s' -> next_tid s = next_tid s' ->
  thread_ticks s = thread_ticks s' -> semas s = semas s' -> holders s = holders s' -> conds s = conds s' -> s = s'.
Proof. destruct s, s'. simpl. congruence. Qed.

Definition new_thread (code : Z -> list act) (s : kst) : thread :=
  Thread THREAD_READY (code (next_tid s)) (current s) [] 0.

Lemma create_ok s x code pages :
  inv s -> threads s !! current s = Some x -> next_tid s + 1 < 2 ^ 31 -> 2 <= pages ->
  let t := next_tid s in let s1 := joined (new_thread code s) (ready_list s ++ [t]) s in
  let y := with_children (children x ++ [ThreadChild t UNUSED_CHILD_EXIT_STATUS]) x in
  thread_create code pages s = Ok (t, set_threads (<[current s := y]> (threads s1)) s1).
Proof.
  intros Hinv Hx Hlt Hpg t s1 y. pose proof Hinv as [Hb _].
  pose proof (fresh_tid s (current s) Hb (ex_intro _ _ Hx)) as [_ Hne].
  pose proof (to_tid _ _ _ (b_thread _ Hb _ _ Hx)) as Hpos.
  unfold thread_create, mbind, M_bind. rewrite (thread_current_ok s Hinv).
  rewrite !(proj2 (Z.ltb_ge _ _)) by lia.
  unfold allocate_tid, init_thread, mbind, M_bind, get, put. fold t.
  unfold mret, M_ret. simpl.
  rewrite (get_thread_ok _ _ x) by (simpl; by rewrite lookup_insert_ne).
  unfold put_thread, modify. simpl.
  rewrite (unblock_ok _ t (Thread THREAD_BLOCKED (code t) (current s) [] 0));
    [|simpl; by rewrite lookup_insert_ne, lookup_insert_eq|done].
  rewrite swrap_small by (unfold t; lia). do 2 f_equal. apply kst_eq; try reflexivity. simpl.
  change (new_thread code s) with
    (with_status THREAD_READY (Thread THREAD_BLOCKED (code t) (current s) [] 0)).
  fold t. by rewrite insert_insert_ne, insert_insert_eq by done.
Qed.

Lemma create_fails_ok s x code pages :
  inv s -> next_tid s + 1 < 2 ^ 31 -> pages < 2 -> threads s !! current s = Some x ->
  thread_create code pages s = Ok (TID_ERROR,
    if pages <? 1 then s else joined (Thread THREAD_BLOCKED [] 0 [] 0) (ready_list s) s).
Proof.
  intros Hinv Hlt Hpg Hx. unfold thread_create, mbind, M_bind. rewrite (thread_current_ok s Hinv).
  destruct (pages <? 1) eqn:E; [done|]. rewrite (proj2 (Z.ltb_lt pages 2)) by done.
  destruct Hinv as [Hb _]. pose proof (to_tid _ _ _ (b_thread _ Hb _ _ Hx)) as Hpos.
  unfold allocate_tid, init_thread, mbind, M_bind, get, put, mret, M_ret. simpl.
  rewrite swrap_small by lia. done.
Qed.

Section last_actions.
Context (body : Z -> Z -> list act) (Hbody : forall f t, wf t (body f t)).
Context (s : kst) (x : thread) (n : Z).
Hypothesis Hinv : inv s.
Hypothesis Hci : current s <> idle_thread s.
Hypothesis Hx : threads s !! current s = Some x.
Hypothesis Hn0 : 0 <= n.
Hypothesis Hfit : fits (n + 1) s.

Abbreviation done_post := (fun (_ : unit) s' => inv s' /\ fits n s').
Ltac start := unfold exec; wp_step; (eapply wp_eq; [by apply thread_current_ok|]).
Ltac tail_of Hk := pose proof (cont_tail _ _ _ _ (x_tail s x Hinv Hx _ _ Hk)).

Lemma exec_down_block i m k :
  cont x = ADown i :: k -> semas s !! i = Some m -> value m = 0 -> wp (exec body (ADown i) k) done_post s.
Proof.
  intros Hk Hm Hv. start. wp_step. eapply wp_eq; [by apply get_sema_ok|].
  rewrite (proj2 (Z.eqb_eq _ _)) by done. unfold put_sema. do 2 wp_step.
  eapply (block_ok s _ x n); try done; [by apply (fits_less s n Hfit)|].
  split; try done; [by left|]. right. split_and!; try done. exists i, m, k. simpl. by rewrite Hv.
Qed.

Lemma exec_yield k : cont x = AYield :: k -> wp (exec body AYield k) done_post s.
Proof.
  intros Hk. tail_of Hk. destruct H as [_ Hw]. start. wp_step.
  eapply wp_mono; [by apply (goto_wf s x n Hinv Hci Hx Hfit AYield k k)|].
  intros [] s' [Hi Hf]. by apply yield_ok.
Qed.

Lemma exec_die k : cont x = ADie :: k -> wp (exec body ADie k) done_post s.
Proof.
  intros Hk. start. unfold thread_exit. wp_step. eapply wp_eq; [by apply thread_current_ok|].
  do 3 wp_step. eapply wp_eq; [by apply (set_status_ok _ _ x)|].
  eapply (suspend_ok s _ x THREAD_DYING); [done..| |by apply (fits_less s n Hfit)].
  split; try done; [by left| |by left]. intros _. split; [done|]. by exists k.
Qed.

(** A thread joined, and the running thread goes on. *)
Lemma join_goes a k w r y :
  cont x = a :: k -> ordinary a -> wf (current s) k -> joins w r s -> status y = THREAD_RUNNING -> cont y = k ->
  done_post tt (set_threads (<[current s := y]> (threads (joined w r s))) (joined w r s)).
Proof.
  intros Hk Ho Hw Hj Hyr Hyk. set (s1 := joined w r s). destruct Hfit as [F1 F2].
  assert (inv s1) as Hinv1 by by apply spawn_ok.
  pose proof Hinv as [Hb _]. pose proof (fresh_tid s (current s) Hb (ex_intro _ _ Hx)) as [_ Hne].
  assert (threads s1 !! current s = Some x) as Hx1 by (simpl; by rewrite lookup_insert_ne). split.
  - eapply (advance_simple s1 _ x y); try done; try rewrite Hyk.
    + apply (b_cond _ Hb).
    + intros i. by rewrite (ordinary_down s x Hinv Hx _ _ i Hk).
    + intros l. by apply (ordinary_own x _ _ l Hk).
    + intros l. by eapply wf_not_own.
    + by constructor.
  - split; [simpl; lia|]. intros i m Hm. apply (spawn_sema s w r i m Hb) in Hm as [[Hv _]|Hm].
    + pose proof (to_tid _ _ _ (b_thread _ Hb _ _ Hx)). lia.
    + specialize (F2 i m Hm). lia.
Qed.

Lemma exec_create f p k : cont x = ACreate f p :: k -> wp (exec body (ACreate f p) k) done_post s.
Proof.
  intros Hk. tail_of Hk. destruct H as [_ Hw]. start. wp_step. destruct Hfit as [F1 F2].
  pose proof Hinv as [Hb _]. pose proof (fresh_tid s (current s) Hb (ex_intro _ _ Hx)) as [_ Hne].
  pose proof (x_running s x Hinv Hx) as Hxr. destruct (Z.ltb_spec p 2).
  - eapply wp_eq; [apply (create_fails_ok s x); [done|lia|done..]|].
    destruct (p <? 1); [by eapply (goto_wf s x n)|].
    eapply wp_eq; [apply (set_cont_ok _ _ x); simpl; by rewrite lookup_insert_ne|].
    by apply (join_goes (ACreate f p) k); try done; right.
  - eapply wp_eq; [apply (create_ok s x); [done..|lia|lia]|].
    eapply wp_eq; [apply set_cont_ok; simpl; by rewrite lookup_insert_eq|]. simpl.
    rewrite insert_insert_eq. apply (join_goes (ACreate f p) k); try done. left. split_and!; [done..|]. apply Hbody.
Qed.

Lemma exec_set_status st k :
  cont x = ASetStatus st :: k -> safe s x (ASetStatus st) -> wp (exec body (ASetStatus st) k) done_post s.
Proof.
  intros Hk Hp0. tail_of Hk. destruct H as [_ Hw]. start. unfold set_exit_status. do 2 wp_step.
  eapply wp_eq; [by apply get_thread_ok|]. do 2 wp_step. rewrite (proj2 (Z.eqb_neq _ _)) by done.
  destruct (threads s !! parent x) as [p|] eqn:Hp; [|wp_step; by eapply (goto_wf s x n)].
  unfold put_thread. wp_step. set (p' := with_children _ p). set (s1 := set_threads _ s).
  assert (inv s1) as Hinv1 by (by apply (inv_same_code s s1 (parent x) p p')).
  assert (exists x', threads s1 !! current s = Some x' /\ cont x' = cont x) as (x' & Hx' & Hc).
  { simpl. destruct (decide (parent x = current s)) as [E|].
    - rewrite E in Hp |- *. simplify_eq. rewrite lookup_insert_eq. by eexists.
    - rewrite lookup_insert_ne by done. by exists x. }
  apply (goto_wf s1 x' n Hinv1 Hci Hx' Hfit (ASetStatus st) k); [by rewrite Hc|done|done].
Qed.

(** Whatever action the running thread executes next. *)
Lemma exec_ok a k : cont x = a :: k -> safe s x a -> wp (exec body a k) done_post s.
Proof.
  intros Hk Hs. destruct a;
    [|by apply (exec_up body s x n)|by apply (exec_init body s x n)|by apply (exec_assert_free body s x n)
     |by apply (exec_assert_held body s x n)|by apply (exec_try_down body s x n)
     |by apply (exec_set_holder body s x n)|by apply (exec_clear_holder body s x n)
     |by apply (exec_enqueue body s x n)|by apply (exec_signal body s x n)|by apply (exec_broadcast body s x n)
     |by apply exec_yield|by apply exec_create|by apply (exec_exit_up body s x n)|by apply exec_die
     |by apply exec_set_status|by apply (exec_wait body s x n)|by apply (exec_take body s x n)].
  destruct Hs as [m Hm]. destruct (decide (value m = 0)).
  - by eapply exec_down_block.
  - by eapply (exec_down_free body s x n).
Qed.
End last_actions.

(** ** Events *)
Definition enabled (s : kst) (e : event) : Prop :=
  match e with
  | EvTimer => True
  | EvRun => current s = idle_thread s \/
      exists x a k, threads s !! current s = Some x /\ cont x = a :: k /\ safe s x a
  end.

(** An action that is not safe stops the machine. *)
Lemma exec_unsafe body s x a k s' :
  inv s -> threads s !! current s = Some x -> exec body a k s = Ok (tt, s') -> safe s x a.
Proof.
  intros Hinv Hx. unfold exec, mbind, M_bind. rewrite (thread_current_ok s Hinv).
  destruct a; simpl; try done.
  - unfold get_sema, mbind, M_bind, get, deref. destruct (semas s !! s0); eauto || done.
  - unfold sema_up, get_sema, mbind, M_bind, get, deref. destruct (semas s !! s0); eauto || done.
  - unfold lock_held_by_current_thread, mbind, M_bind, get, deref. destruct (holders s !! l) as [h|]; [|done].
    simpl. rewrite (thread_current_ok s Hinv). unfold mret, M_ret, assert.
    destruct (Z.eqb_spec h (current s)); [done|]. eauto.
  - unfold lock_held_by_current_thread, mbind, M_bind, get, deref. destruct (holders s !! l) as [h|]; [|done].
    simpl. rewrite (thread_current_ok s Hinv). unfold mret, M_ret, assert.
    by destruct (Z.eqb_spec h (current s)) as [->|].
  - unfold sema_try_down, get_sema, mbind, M_bind, get, deref. destruct (semas s !! SLock l); eauto || done.
  - unfold get, deref. destruct (holders s !! l); eauto || done.
  - unfold get, deref. destruct (holders s !! l); eauto || done.
  - unfold get, deref. destruct (conds s !! c); eauto || done.
  - unfold get, deref. destruct (conds s !! c); eauto || done.
  - unfold get, deref. destruct (conds s !! c); eauto || done.
  - rewrite (get_thread_ok _ _ _ Hx). unfold sema_up, get_sema, mbind, M_bind, get, deref.
    destruct (semas s !! SWait (parent x)); eauto || done.
  - unfold set_exit_status, mbind, M_bind. rewrite (get_thread_ok _ _ _ Hx). unfold get.
    by destruct (Z.eqb_spec (parent x) 0).
  - rewrite (get_thread_ok _ _ _ Hx). unfold deref. destruct (get_child_by_tid (children x) tid); eauto || done.
Qed.

Section events.
Context (body : Z -> Z -> list act) (Hbody : forall f t, wf t (body f t)).

Lemma step_ok s e n :
  inv s -> 0 <= n -> fits (n + 1) s -> enabled s e -> wp (step body e) (fun _ s' => inv s' /\ fits n s') s.
Proof.
  intros Hinv Hn Hfit Hen. assert (fits n s) as Hfit' by (by apply (fits_less s n Hfit)).
  destruct e; [|by apply tick_ok]. unfold step. do 2 wp_step.
  destruct (Z.eqb_spec (current s) (idle_thread s)); [by apply idle_block_ok|].
  destruct Hen as [?|(x & a & k & Hx & Hk & Hs)]; [done|].
  wp_step. eapply wp_eq; [by apply get_thread_ok|]. rewrite Hk. by apply (exec_ok body Hbody s x n).
Qed.

Lemma step_enabled s e s' : inv s -> step body e s = Ok (tt, s') -> enabled s e.
Proof.
  intros Hinv. destruct e; [|done]. unfold step, mbind, M_bind, get.
  destruct (Z.eqb_spec (current s) (idle_thread s)); [by left|].
  pose proof Hinv as [_ [(x & Hx & _) _]]. rewrite (get_thread_ok _ _ _ Hx).
  destruct (cont x) as [|a k] eqn:Hk; [done|]. intros He. right. exists x, a, k.
  split_and!; [done..|]. by eapply exec_unsafe.
Qed.

Lemma run_inv es s s' :
  inv s -> fits (Z.of_nat (length es)) s -> run body es s = Ok (tt, s') -> inv s'.
Proof.
  revert s. induction es as [|e es IH]; intros s Hinv Hfit; simpl.
  - by intros [= <-].
  - unfold mbind, M_bind. destruct (step body e s) as [[[] s1]|] eqn:E; [|done].
    pose proof (step_ok s e (Z.of_nat (length es)) Hinv ltac:(lia)) as Hs.
    specialize (Hs ltac:(by replace (Z.of_nat (length es) + 1) with (Z.of_nat (length (e :: es))) by (simpl; lia))
      (step_enabled s e s1 Hinv E)).
    unfold wp in Hs. rewrite E in Hs. destruct Hs as [Hi Hf]. by apply IH.
Qed.

(** What stops the machine is an event that is not enabled. *)
Lemma run_stops es s f :
  inv s -> fits (Z.of_nat (length es)) s -> run body es s = Err f ->
  exists es1 e es2 s1, es = es1 ++ e :: es2 /\ run body es1 s = Ok (tt, s1) /\ inv s1 /\ ~ enabled s1 e.
Proof.
  revert s. induction es as [|e es IH]; intros s Hinv Hfit; simpl; [done|].
  assert (fits (Z.of_nat (length es) + 1) s) as Hfit1
    by (by replace (Z.of_nat (length es) + 1) with (Z.of_nat (length (e :: es))) by (simpl; lia)).
  unfold mbind, M_bind. destruct (step body e s) as [[[] s1]|f'] eqn:E.
  - intros Hr. pose proof (step_ok s e _ Hinv (Nat2Z.is_nonneg _) Hfit1 (step_enabled s e s1 Hinv E)) as Hs.
    unfold wp in Hs. rewrite E in Hs. destruct Hs as [Hi Hf].
    destruct (IH s1 Hi Hf Hr) as (es1 & e' & es2 & s2 & -> & Hrun & Hi2 & Hne).
    exists (e :: es1), e', es2, s2. split_and!; [done| |done|done]. simpl. unfold mbind, M_bind. by rewrite E.
  - intros _. exists [], e, es, s. split_and!; [done..|]. intros Hen.
    pose proof (step_ok s e _ Hinv (Nat2Z.is_nonneg _) Hfit1 Hen) as Hs. unfold wp in Hs. by rewrite E in Hs.
Qed.
End events.

(** ** The state after start-up *)
Record started (b : Z) (code : list act) (s : kst) : Prop := {
  st_threads : threads s = threads (thread_started code);
  st_ready : ready_list s = [];
  st_current : current s = 1;
  st_idle : idle_thread s = 2;
  st_tid : next_tid s = 3;
  st_semas : forall i m, semas s !! i = Some m -> waiters m = [] /\ 0 <= value m <= b;
  st_locks : forall l h, holders s !! l = Some h -> h = 0 /\ semas s !! SLock l = Some (Semaphore 1 []);
  st_conds : forall c ws, conds s !! c = Some ws -> ws = []
}.

Definition object_ok (b : Z) (o : object) : Prop :=
  match o with OSema _ v => 0 <= v <= b | _ => True end.

Lemma started_0 b code : 0 <= b -> started b code (thread_started code).
Proof.
  intros Hb. split; try done; simpl. intros i m Hm.
  repeat (apply lookup_insert_Some in Hm as [[_ <-]|[_ Hm]]; [simpl; split; [done|lia]|]).
  apply lookup_singleton_Some in Hm as [_ <-]. simpl. split; [done|lia].
Qed.

Lemma init_object_ok b code o s :
  1 <= b -> object_ok b o -> started b code s -> wp (init_object o) (fun _ s' => started b code s') s.
Proof.
  intros Hb Ho [S1 S2 S3 S4 S5 S6 S7 S8]. destruct o as [l|i v|c]; simpl.
  - unfold lock_init, sema_init, put_sema. do 3 wp_step. split; try done; simpl.
    + intros i m [[<- <-]|[_ Hm]]%lookup_insert_Some; [simpl; split; [done|lia]|by eapply S6].
    + intros l' h [[<- <-]|[Hne Hl]]%lookup_insert_Some; [by rewrite lookup_insert_eq|].
      rewrite lookup_insert_ne by congruence. by apply S7.
  - unfold sema_init, put_sema. wp_step. split; try done; simpl.
    + intros j m [[<- <-]|[_ Hm]]%lookup_insert_Some; [done|by eapply S6].
    + intros l' h Hl. rewrite lookup_insert_ne by done. by apply S7.
  - unfold cond_init. wp_step. split; try done; simpl.
    intros c' ws [[<- <-]|[_ Hc]]%lookup_insert_Some; [done|by eapply S8].
Qed.

Lemma init_objects_ok b code os s :
  1 <= b -> Forall (object_ok b) os -> started b code s ->
  wp (init_objects os) (fun _ s' => started b code s') s.
Proof.
  intros Hb Hos. revert s. induction Hos as [|o os Ho Hos IH]; intros s Hs; simpl; [by wp_step|].
  wp_step. eapply wp_mono; [by eapply init_object_ok|]. intros [] s' Hs'. by apply IH.
Qed.

Lemma started_inv b code s : wf 1 code -> started b code s -> inv s.
Proof.
  intros Hw [S1 S2 S3 S4 S5 S6 S7 S8].
  assert (forall t x, threads s !! t = Some x ->
    t = 1 /\ cont x = code /\ status x = THREAD_RUNNING \/ t = 2 /\ cont x = [] /\ status x = THREAD_BLOCKED) as Hget.
  { intros t x Hx. rewrite S1 in Hx. simpl in Hx. apply lookup_insert_Some in Hx as [[<- <-]|[_ Hx]]; [by left|].
    apply lookup_singleton_Some in Hx as [<- <-]. by right. }
  assert (forall t l, ~ owns s t l) as Hno.
  { intros t l [[Hl Ht]|(x & Hx & Hk)]%owns_cont; [by destruct (S7 l t Hl)|].
    assert (wf t (cont x)) as Hwf by (destruct (Hget t x Hx) as [(-> & -> & _)|(-> & -> & _)]; [done|constructor]).
    by apply (wf_not_own _ l _ Hwf). }
  split; [split|split].
  - intros t x [(-> & Hc & Hs)|(-> & Hc & Hs)]%Hget; split; rewrite ?S4, ?S5, ?Hc, ?Hs; try done;
      try lia; by repeat constructor.
  - rewrite S2. split; [constructor|]. by intros t Hin%elem_of_nil.
  - intros i m Hm. destruct (S6 i m Hm) as [Hnil Hv]. split; rewrite ?Hnil; [constructor|lia| |done].
    by intros t Hin%elem_of_nil.
  - intros c ws i Hc. rewrite (S8 _ _ Hc). by intros Hin%elem_of_nil.
  - intros l h Hl. destruct (S7 l h Hl) as [_ Hm]. exists (Semaphore 1 []). split; [done|]. by left.
  - rewrite S4, S1. by eexists.
  - rewrite S3, S1. by eexists.
  - rewrite S3. intros t x [(-> & _)|(-> & _ & Hs)]%Hget E; congruence.
Qed.

(** A kernel of well-formed code with counters in range. *)
Record kernel_ok (body : Z -> Z -> list act) (os : list object) (code : list act) (es : list event) : Prop := {
  ko_body : forall f t, wf t (body f t);
  ko_code : wf 1 code;
  ko_objects : Forall (object_ok (2 ^ 31)) os;
  ko_events : 3 + Z.of_nat (length es) < 2 ^ 31
}.

Lemma started_fits b code s n : started b code s -> 3 + n < 2 ^ 31 -> b + n < 2 ^ 32 -> fits n s.
Proof.
  intros [S1 S2 S3 S4 S5 S6 S7 S8] H1 H2. split; [by rewrite S5|].
  intros i m Hm. destruct (S6 i m Hm). lia.
Qed.

Lemma kernel_start body os code es :
  kernel_ok body os code es ->
  exists s0, init_objects os (thread_started code) = Ok (tt, s0) /\ inv s0 /\ fits (Z.of_nat (length es)) s0.
Proof.
  intros [K1 K2 K3 K4]. pose proof (init_objects_ok (2 ^ 31) code os (thread_started code) ltac:(lia) K3) as Hi.
  specialize (Hi (started_0 (2 ^ 31) code ltac:(lia))). unfold wp in Hi.
  destruct (init_objects os (thread_started code)) as [[[] s0]|]; [|done].
  exists s0. split_and!; [done|by eapply started_inv|]. eapply started_fits; [done|lia..].
Qed.

Lemma kernel_inv body os code es s :
  kernel_ok body os code es -> kernel body os code es = Ok (tt, s) -> inv s.
Proof.
  intros Hk. destruct (kernel_start body os code es Hk) as (s0 & E & Hi & Hf).
  unfold kernel, mbind, M_bind. rewrite E. eapply run_inv; [apply Hk|done|done].
Qed.

(** ** Code that calls synch.c is well-formed *)
Lemma wf_lock_acquire t l k : wf t k -> wf t (lock_acquire l ++ k).
Proof. intros Hk. apply wf_plain; [done|]. by apply wf_acquire. Qed.
Lemma wf_lock_try_acquire t l k : wf t k -> wf t (lock_try_acquire l ++ k).
Proof. intros Hk. by repeat apply wf_plain. Qed.
Lemma wf_lock_release t l k : wf t k -> wf t (lock_release l ++ k).
Proof. intros Hk. by apply wf_release. Qed.
Lemma wf_cond_wait t c l k : wf t k -> wf t (cond_wait t c l ++ k).
Proof. intros Hk. do 3 (apply wf_plain; [done|]). by apply wf_release, wf_plain, wf_lock_acquire. Qed.
Lemma wf_cond_signal t c l k : wf t k -> wf t (cond_signal c l ++ k).
Proof. intros Hk. by repeat apply wf_plain. Qed.
Lemma wf_cond_broadcast t c l k : wf t k -> wf t (cond_broadcast c l ++ k).
Proof. intros Hk. by repeat apply wf_plain. Qed.
Lemma wf_exit t st : wf t (exit_ st).
Proof. do 3 (apply wf_plain; [done|]). constructor. Qed.
Lemma wf_process_wait t c k : wf t k -> wf t (process_wait c ++ k).
Proof. intros Hk. by apply wf_plain. Qed.

Create HintDb wf.
#[export] Hint Resolve wf_lock_acquire wf_lock_try_acquire wf_lock_release wf_cond_wait wf_cond_signal
  wf_cond_broadcast wf_exit wf_process_wait wf_nil : wf.

(** A thread that waits for a condition, and the initial thread that signals it. *)
Definition demo_body (f t : Z) : list act := lock_acquire 0 ++ cond_wait t 0 0 ++ lock_release 0 ++ exit_ 7.
Definition demo_code : list act := lock_acquire 0 ++ [ACreate 1 2; AYield] ++ cond_signal 0 0 ++ lock_release 0 ++ [].
Definition demo_objects : list object := [OLock 0; OSema 5 2; OCond 0].

Lemma demo_ok es : (length es <= 100)%nat -> kernel_ok demo_body demo_objects demo_code es.
Proof.
  intros Hes. split.
  - intros f t. unfold demo_body. auto with wf.
  - apply wf_lock_acquire. apply wf_plain, wf_plain; [done..|]. auto with wf.
  - repeat (apply Forall_cons_2; [simpl; lia || done|]). constructor.
  - lia.
Qed.

(** The state after [es], when the run does not stop. *)
Definition demo_state (es : list event) : kst :=
  match kernel demo_body demo_objects demo_code es with Ok (_, s) => s | Err _ => thread_started [] end.

(** ** The theorems *)

(** C11 In every state a kernel can reach, whatever the timer interrupts: the
    current thread is the one that runs; the ready list has no duplicates and
    has exactly the threads that are ready, the idle thread apart; and a
    blocked thread that has code to execute (so not the idle thread, nor one
    whose creation failed) is on the waiters of one semaphore and only one, the
    one it is about to test again. *)
Theorem scheduler_lists body os code es s :
  kernel_ok body os code es -> kernel body os code es = Ok (tt, s) ->
  (forall t x, threads s !! t = Some x -> status x = THREAD_RUNNING <-> t = current s) /\
  NoDup (ready_list s) /\
  (forall t, t ∈ ready_list s <->
    t <> idle_thread s /\ exists x, threads s !! t = Some x /\ status x = THREAD_READY) /\
  (forall t x, threads s !! t = Some x -> cont x <> [] -> status x = THREAD_BLOCKED <->
    exists i m, semas s !! i = Some m /\ t ∈ waiters m) /\
  (forall i j mi mj t, semas s !! i = Some mi -> semas s !! j = Some mj -> t ∈ waiters mi -> t ∈ waiters mj ->
    i = j /\ NoDup (waiters mi) /\ exists x k, threads s !! t = Some x /\ cont x = ADown i :: k).
Proof.
  intros Hk He. destruct (kernel_inv _ _ _ _ _ Hk He) as [Hb [(c & Hc & Hcr) Hrun]].
  destruct (b_ready _ Hb) as [Hnd Hrd]. split_and!; [|done|..].
  - intros t x Hx. split; [by eapply Hrun|]. intros ->. congruence.
  - intros t. split; [intros Ht; destruct (Hrd t Ht) as (x & ? & ? & ?); eauto|].
    intros (Hi & x & Hx & Hs). by eapply (to_ready _ _ _ (b_thread _ Hb _ _ Hx)).
  - intros t x Hx Hi. split; [intros Hs; by eapply (to_blocked _ _ _ (b_thread _ Hb _ _ Hx))|].
    intros (i & m & Hm & Ht). destruct (so_waiters _ _ _ (b_sema _ Hb _ _ Hm) t Ht) as (y & k & Hy & Hs & _).
    congruence.
  - intros i j mi mj t Hi Hj Hti Htj. pose proof (b_sema _ Hb _ _ Hi) as Hok. split_and!.
    + by eapply (waits_once s i j mi mj t).
    + apply (so_nodup _ _ _ Hok).
    + destruct (so_waiters _ _ _ Hok t Hti) as (x & k & ? & _ & _ & ?). eauto.
Qed.

Lemma scheduler_lists_witness :
  let s := demo_state (replicate 7 EvRun) in
  ready_list s = [] /\ current s = 1 /\
  (forall t, t ∈ ready_list s <->
    t <> idle_thread s /\ exists x, threads s !! t = Some x /\ status x = THREAD_READY).
Proof.
  intros s. split; [by vm_compute|]. split; [by vm_compute|].
  destruct (scheduler_lists demo_body demo_objects demo_code (replicate 7 EvRun) s) as (_ & _ & H & _);
    [apply demo_ok; simpl; lia|by vm_compute|exact H].
Defined.

(** C2 Mutual exclusion: in every state a kernel can reach, at most one thread
    is between taking the semaphore of a lock and giving it back, whatever
    mix of [lock_acquire], [lock_try_acquire], [lock_release], [cond_wait] and
    interrupts led there; the semaphore is 0 when a thread is and 1 when none
    is. *)
Theorem lock_mutual_exclusion body os code es s l h :
  kernel_ok body os code es -> kernel body os code es = Ok (tt, s) -> holders s !! l = Some h ->
  (forall t1 t2, owns s t1 l -> owns s t2 l -> t1 = t2) /\
  exists m, semas s !! SLock l = Some m /\
    (value m = 0 /\ (exists t, owns s t l) \/ value m = 1 /\ h = 0 /\ forall t, ~ owns s t l).
Proof.
  intros Hk He Hl. destruct (kernel_inv _ _ _ _ _ Hk He) as [Hb _].
  destruct (b_lock _ Hb _ _ Hl) as (m & Hm & [[Hv Hno]|[Hv (t & Ht & Hu)]]); split.
  - intros t1 t2 H1. by destruct (Hno t1).
  - exists m. split; [done|]. right. split_and!; [done| |done].
    destruct (decide (h = 0)); [done|]. destruct (Hno h). by left.
  - intros t1 t2 H1 H2. by rewrite (Hu t1 H1), (Hu t2 H2).
  - exists m. split; [done|]. left. eauto.
Qed.

Lemma lock_mutual_exclusion_witness :
  let s := demo_state (replicate 7 EvRun) in
  owns s 1 0 /\ forall t, owns s t 0 -> t = 1.
Proof.
  intros s. assert (owns s 1 0) as H1 by (left; split; [by vm_compute|done]). split; [exact H1|].
  intros t Ht.
  destruct (lock_mutual_exclusion demo_body demo_objects demo_code (replicate 7 EvRun) s 0 1) as [H _];
    [apply demo_ok; simpl; lia|by vm_compute|by vm_compute|]. exact (H t 1 Ht H1).
Defined.

(** C12 No wakeup is lost: in every state a kernel can reach, when threads wait
    on a semaphore, at least as many threads as it has units have been woken
    up and are about to test it; so no thread sleeps on a positive semaphore
    that nobody is going to take. *)
Theorem no_lost_wakeup body os code es s i m :
  kernel_ok body os code es -> kernel body os code es = Ok (tt, s) ->
  semas s !! i = Some m -> waiters m <> [] ->
  value m <= awake s i /\
  (0 < value m -> exists t x k, threads s !! t = Some x /\ cont x = ADown i :: k /\
    (status x = THREAD_RUNNING \/ status x = THREAD_READY)).
Proof.
  intros Hk He Hm Hw. destruct (kernel_inv _ _ _ _ _ Hk He) as [Hb _].
  pose proof (so_wakeup _ _ _ (b_sema _ Hb _ _ Hm) Hw) as Hle. split; [done|]. intros Hv.
  destruct (mcount_pos (at_down i) (threads s)) as (t & x & Hx & Hd); [unfold awake in Hle; lia|].
  unfold at_down in Hd. exists t, x.
  destruct (status x) eqn:Es; try done; destruct (cont x) as [|[] k] eqn:Ec; try done;
    apply bool_decide_eq_true in Hd as <-; exists k; eauto.
Qed.

Lemma no_lost_wakeup_witness :
  let s := demo_state (replicate 7 EvRun) in
  semas s !! SLock 0 = Some (Semaphore 0 [3]) /\ 0 <= awake s (SLock 0).
Proof.
  intros s. assert (semas s !! SLock 0 = Some (Semaphore 0 [3])) as Hm by by vm_compute. split; [exact Hm|].
  exact (proj1 (no_lost_wakeup demo_body demo_objects demo_code (replicate 7 EvRun) s (SLock 0) (Semaphore 0 [3])
    (demo_ok (replicate 7 EvRun) ltac:(simpl; lia)) ltac:(by vm_compute) Hm ltac:(done))).
Defined.

(** C32 What can stop a kernel: when a run ends in a fault, some event was not
    enabled, that is the running thread came to the end of its code or broke
    the precondition of the operation it called (a lock it should or should
    not hold, an object that does not exist).  So the scheduler's own
    assertions (a current thread that runs, a next thread that is a thread, a
    woken thread that is blocked) never fail. *)
Theorem kernel_stops_only_if_misused body os code es f :
  kernel_ok body os code es -> kernel body os code es = Err f ->
  exists es1 e es2 s, es = es1 ++ e :: es2 /\ kernel body os code es1 = Ok (tt, s) /\ ~ enabled s e.
Proof.
  intros Hk. destruct (kernel_start body os code es Hk) as (s0 & E & Hi & Hf).
  unfold kernel, mbind, M_bind. rewrite E. intros Hr.
  destruct (run_stops body (ko_body _ _ _ _ Hk) es s0 f Hi Hf Hr) as (es1 & e & es2 & s1 & ? & ? & _ & ?).
  exists es1, e, es2, s1. done.
Qed.

Lemma kernel_stops_only_if_misused_witness :
  kernel demo_body demo_objects demo_code (replicate 30 EvRun) = Err PanicHalt /\
  exists es1 e es2 s, replicate 30 EvRun = es1 ++ e :: es2 /\
    kernel demo_body demo_objects demo_code es1 = Ok (tt, s) /\ ~ enabled s e.
Proof.
  assert (kernel demo_body demo_objects demo_code (replicate 30 EvRun) = Err PanicHalt) as E by by vm_compute.
  split; [exact E|].
  apply (kernel_stops_only_if_misused demo_body demo_objects demo_code (replicate 30 EvRun) PanicHalt);
    [apply demo_ok; simpl; lia|exact E].
Defined.

(** The children of the initial thread: the first yields twice before it
    exits with status 7, the second exits at once with status 9. *)
Definition wait_body (f t : Z) : list act :=
  if f =? 1 then [AYield; AYield] ++ exit_ 7 else exit_ 9.
Definition wait_code : list act := [ACreate 1 2; ACreate 2 2] ++ process_wait 3 ++ [AYield].

