(* ===== verification/Kstring.v ===== *)
(** * Strings and memory blocks (src/lib/string.c)

    The functions of string.c over a byte memory: a finite map from addresses
    to bytes, where an access outside the map is a bad pointer.  A [char] is
    its byte; pointers are addresses, [NULL] is 0.  The loops that stop at a
    null byte are bounded by the size of the memory, which is enough because
    each turn reads a new address.

    Theorems: the functions agree with list functions on the contents of the
    memory, write nowhere else, and the bounded copies never exceed the size
    they are given; the tokenizer returns the words of the string. *)

From S2P Require Import Prelude.

Abbreviation mem := (gmap Z Z).

Definition load (p : Z) : M mem Z := m ← get; deref (m !! p).
Definition store (p v : Z) : M mem unit :=
  m ← get; _ ← deref (m !! p); put (<[p := u8 v]> m).

(** A loop whose turns read successive addresses. *)
Definition sloop {A B} (step : A -> M mem (A + B)) (a : A) : M mem B :=
  m ← get; loop (S (S (size m))) step a.

Definition nonnull (p size : Z) : M mem unit := assert (negb (p =? 0) || (size =? 0)).

(** ** Memory blocks *)
Definition memcpy (dst src size : Z) : M mem Z :=
  nonnull dst size;;
  nonnull src size;;
  for_ (Z.to_nat size) 0 (fun i => b ← load (src + i); store (dst + i) b);;
  mret dst.

(** The forward branch returns the advanced pointer. *)
Definition memmove (dst src size : Z) : M mem Z :=
  nonnull dst size;;
  nonnull src size;;
  if dst <? src then
    for_ (Z.to_nat size) 0 (fun i => b ← load (src + i); store (dst + i) b);;
    mret (dst + size)
  else
    for_ (Z.to_nat size) 1 (fun i => b ← load (src + size - i); store (dst + size - i) b);;
    mret dst.

Definition memcmp (a b size : Z) : M mem Z :=
  nonnull a size;;
  nonnull b size;;
  loop (S (Z.to_nat size)) (fun i =>
    if i <? size then
      x ← load (a + i); y ← load (b + i);
      if negb (x =? y) then mret (inr (if y <? x then 1 else -1)) else mret (inl (i + 1))
    else mret (inr 0)) 0.

Definition memchr (block ch size : Z) : M mem Z :=
  nonnull block size;;
  loop (S (Z.to_nat size)) (fun i =>
    if i <? size then
      x ← load (block + i);
      if x =? u8 ch then mret (inr (block + i)) else mret (inl (i + 1))
    else mret (inr 0)) 0.

Definition memset (dst value size : Z) : M mem Z :=
  nonnull dst size;;
  for_ (Z.to_nat size) 0 (fun i => store (dst + i) value);;
  mret dst.

(** ** Strings *)
Definition strcmp (a b : Z) : M mem Z :=
  assert (negb (a =? 0));;
  assert (negb (b =? 0));;
  sloop (fun i =>
    x ← load (a + i); y ← load (b + i);
    if negb (x =? 0) && (x =? y) then mret (inl (i + 1))
    else mret (inr (if x <? y then -1 else Z.b2z (y <? x)))) 0.

Definition strchr (string c : Z) : M mem Z :=
  assert (negb (string =? 0));;
  sloop (fun p =>
    x ← load p;
    if x =? u8 c then mret (inr p)
    else if x =? 0 then mret (inr 0)
    else mret (inl (p + 1))) string.

Definition strcspn (string stop : Z) : M mem Z :=
  sloop (fun length =>
    x ← load (string + length);
    if x =? 0 then mret (inr length)
    else q ← strchr stop x;
      if negb (q =? 0) then mret (inr length) else mret (inl (length + 1))) 0.

Definition strpbrk (string stop : Z) : M mem Z :=
  sloop (fun p =>
    x ← load p;
    if x =? 0 then mret (inr 0)
    else q ← strchr stop x;
      if negb (q =? 0) then mret (inr p) else mret (inl (p + 1))) string.

Definition strrchr (string c : Z) : M mem Z :=
  sloop (fun '(s, p) =>
    x ← load s;
    if x =? 0 then mret (inr p)
    else mret (inl (s + 1, if x =? u8 c then s else p))) (string, 0).

Definition strspn (string skip : Z) : M mem Z :=
  sloop (fun length =>
    x ← load (string + length);
    if x =? 0 then mret (inr length)
    else q ← strchr skip x;
      if q =? 0 then mret (inr length) else mret (inl (length + 1))) 0.

Definition strlen (string : Z) : M mem Z :=
  assert (negb (string =? 0));;
  sloop (fun p =>
    x ← load p;
    if x =? 0 then mret (inr (p - string)) else mret (inl (p + 1))) string.

Definition strnlen (string maxlen : Z) : M mem Z :=
  sloop (fun length =>
    x ← load (string + length);
    if negb (x =? 0) && (length <? maxlen) then mret (inl (length + 1)) else mret (inr length)) 0.

Definition strstr (haystack needle : Z) : M mem Z :=
  haystack_len ← strlen haystack;
  needle_len ← strlen needle;
  if needle_len <=? haystack_len then
    loop (S (S (Z.to_nat (haystack_len - needle_len)))) (fun i =>
      if i <=? haystack_len - needle_len then
        c ← memcmp (haystack + i) needle needle_len;
        if c =? 0 then mret (inr (haystack + i)) else mret (inl (i + 1))
      else mret (inr 0)) 0
  else mret 0.

(** The token and the new [*save_ptr]. *)
Definition strtok_r (s delimiters save : Z) : M mem (Z * Z) :=
  assert (negb (delimiters =? 0));;
  let s := if s =? 0 then save else s in
  assert (negb (s =? 0));;
  r ← sloop (fun s =>
    x ← load s;
    q ← strchr delimiters x;
    if q =? 0 then mret (inr (true, s))
    else if x =? 0 then mret (inr (false, s))
    else mret (inl (s + 1))) s;
  let '(found, token) := r : bool * Z in
  if negb found then mret (0, token)
  else
    e ← sloop (fun s =>
      x ← load s;
      q ← strchr delimiters x;
      if q =? 0 then mret (inl (s + 1)) else mret (inr s)) token;
    x ← load e;
    if negb (x =? 0) then store e 0;; mret (token, e + 1) else mret (token, e).

Definition strlcpy (dst src size : Z) : M mem Z :=
  assert (negb (dst =? 0));;
  assert (negb (src =? 0));;
  src_len ← strlen src;
  (if 0 <? size then
     let dst_len := if src_len <? size - 1 then src_len else size - 1 in
     _ ← memcpy dst src dst_len;
     store (dst + dst_len) 0
   else mret ());;
  mret src_len.

Definition strlcat (dst src size : Z) : M mem Z :=
  assert (negb (dst =? 0));;
  assert (negb (src =? 0));;
  src_len ← strlen src;
  dst_len ← strlen dst;
  (if (0 <? size) && (dst_len <? size) then
     let copy_cnt := if src_len <? size - dst_len - 1 then src_len else size - dst_len - 1 in
     _ ← memcpy (dst + dst_len) src copy_cnt;
     store (dst + dst_len + copy_cnt) 0
   else mret ());;
  mret (u32 (src_len + dst_len)).

(** ** Contents of the memory *)
Definition bytes_at (m : mem) (p : Z) (l : list Z) : Prop :=
  forall i x, l !! i = Some x -> m !! (p + Z.of_nat i) = Some x.

Definition is_byte (x : Z) : Prop := 0 <= x < 2 ^ 8.

(** The string [s] at [p], with its null terminator. *)
Record str_at (m : mem) (p : Z) (s : list Z) : Prop := {
  sa_ptr : 0 < p;
  sa_bytes : bytes_at m p (s ++ [0]);
  sa_chars : Forall (fun c => is_byte c /\ c <> 0) s
}.

Lemma bytes_at_size m p l : bytes_at m p l -> (length l <= size m)%nat.
Proof.
  revert m p. induction l as [|x l IH]; intros m p Hl; simpl; [lia|].
  pose proof (Hl 0%nat x eq_refl) as Hx. rewrite Z.add_0_r in Hx.
  assert (bytes_at (delete p m) (p + 1) l) as Htl.
  { intros i y Hy. rewrite lookup_delete_ne by lia. rewrite <- (Hl (S i) y Hy). f_equal. lia. }
  apply IH in Htl. rewrite map_size_delete_Some in Htl by eauto.
  assert (size m <> 0%nat); [|lia]. intros E. apply map_size_empty_inv in E. by rewrite E in Hx.
Qed.

Lemma bytes_at_app m p l k :
  bytes_at m p (l ++ k) <-> bytes_at m p l /\ bytes_at m (p + Z.of_nat (length l)) k.
Proof.
  split.
  - intros H. split; intros i x Hx.
    + apply H. by apply lookup_app_l_Some.
    + rewrite <- (H (length l + i)%nat x); [f_equal; lia|]. by rewrite lookup_app_r, Nat.add_comm, Nat.add_sub by lia.
  - intros [H1 H2] i x [Hx|[Hi Hx]]%lookup_app_Some; [by apply H1|].
    rewrite <- (H2 _ _ Hx). f_equal. lia.
Qed.

(** Memories that agree from [p] on for [n] bytes have the same contents there. *)
Lemma bytes_at_same m m' p l :
  bytes_at m p l -> (forall a, p <= a < p + Z.of_nat (length l) -> m' !! a = m !! a) -> bytes_at m' p l.
Proof.
  intros H Hs i x Hx. rewrite Hs; [by apply H|]. apply lookup_lt_Some in Hx. lia.
Qed.

Lemma load_ok m p l i x :
  bytes_at m p l -> l !! i = Some x -> load (p + Z.of_nat i) m = Ok (x, m).
Proof. intros H Hx. unfold load, mbind, M_bind, get. by rewrite (H i x Hx). Qed.

Lemma store_ok m p v : is_Some (m !! p) -> store p v m = Ok (tt, <[p := u8 v]> m).
Proof. intros [x Hx]. unfold store, mbind, M_bind, get. by rewrite Hx. Qed.

(** A loop that goes through [f 0], [f 1], ... and leaves at [f n]. *)
Lemma loop_eq {A B} (f : nat -> A) (step : A -> M mem (A + B)) m n fuel b :
  (forall i, (i < n)%nat -> step (f i) m = Ok (inl (f (S i)), m)) -> step (f n) m = Ok (inr b, m) ->
  (n < fuel)%nat -> loop fuel step (f 0%nat) m = Ok (b, m).
Proof.
  revert f fuel. induction n as [|n IH]; intros f fuel Hgo Hstop Hf; (destruct fuel as [|fuel]; [lia|]).
  - simpl. unfold mbind, M_bind. by rewrite Hstop.
  - simpl. unfold mbind, M_bind. rewrite Hgo by lia.
    apply (IH (fun i => f (S i))); [|done|lia]. intros i Hi. apply Hgo. lia.
Qed.

Lemma sloop_eq {A B} (f : nat -> A) (step : A -> M mem (A + B)) m n b a :
  a = f 0%nat -> (forall i, (i < n)%nat -> step (f i) m = Ok (inl (f (S i)), m)) -> step (f n) m = Ok (inr b, m) ->
  (n <= size m)%nat -> sloop step a m = Ok (b, m).
Proof. intros -> Hgo Hstop Hn. unfold sloop, mbind, M_bind, get. eapply loop_eq; [done..|lia]. Qed.

(** A position in a string: inside it, or at its terminator. *)
Lemma str_char m p s i : str_at m p s -> (i <= length s)%nat ->
  exists x, (s ++ [0]) !! i = Some x /\ load (p + Z.of_nat i) m = Ok (x, m) /\
    (x = 0 <-> i = length s) /\ is_byte x /\ (i < length s -> s !! i = Some x)%nat.
Proof.
  intros [Hp Hb Hc] Hi. destruct (decide (i = length s)) as [->|Hne].
  - exists 0. assert ((s ++ [0]) !! length s = Some 0) as E by (rewrite lookup_app_r, Nat.sub_diag by lia; done).
    split_and!; [done|by eapply load_ok|lia|unfold is_byte; lia|lia].
  - destruct (lookup_lt_is_Some_2 s i) as [x Hx]; [lia|]. exists x.
    assert ((s ++ [0]) !! i = Some x) as E by (by apply lookup_app_l_Some).
    pose proof (Forall_lookup_1 _ _ _ _ Hc Hx) as [Hbx Hx0].
    split_and!; [done|by eapply load_ok|split; intros; [done|lia]|done|done].
Qed.

Lemma str_size m p s : str_at m p s -> (length s < size m)%nat.
Proof. intros [_ Hb _]. apply bytes_at_size in Hb. rewrite length_app in Hb. simpl in Hb. lia. Qed.

Lemma str_at_drop m p s i :
  str_at m p s -> (i <= length s)%nat -> str_at m (p + Z.of_nat i) (drop i s).
Proof.
  intros [Hp Hb Hc] Hi. split; [lia| |by apply Forall_drop].
  intros j x Hx. rewrite <- (Hb (i + j)%nat x); [f_equal; lia|].
  rewrite <- Hx, <- (lookup_drop (s ++ [0])), drop_app_le by done. done.
Qed.

(** ** Reference functions on lists *)
(** How many characters [P] holds of at the start of [s]. *)
Fixpoint prefix_len (P : Z -> bool) (s : list Z) : nat :=
  match s with
  | [] => 0
  | c :: s => if P c then S (prefix_len P s) else 0
  end.

Lemma prefix_len_le P s : (prefix_len P s <= length s)%nat.
Proof. induction s as [|c s IH]; simpl; [done|]. destruct (P c); lia. Qed.

Lemma prefix_len_lookup P s i x : (i < prefix_len P s)%nat -> s !! i = Some x -> P x = true.
Proof.
  revert i. induction s as [|c s IH]; intros i Hi; simpl in *; [done|].
  destruct (P c) eqn:E; [|lia]. destruct i as [|i]; simpl; [by intros [= <-]|]. apply IH. lia.
Qed.

Lemma prefix_len_stop P s x : s !! prefix_len P s = Some x -> P x = false.
Proof.
  induction s as [|c s IH]; simpl; [done|]. destruct (P c) eqn:E; simpl; [done|]. by intros [= <-].
Qed.

Lemma prefix_len_unique P s n :
  (n <= length s)%nat -> (forall i x, (i < n)%nat -> s !! i = Some x -> P x = true) ->
  (forall x, s !! n = Some x -> P x = false) -> prefix_len P s = n.
Proof.
  revert n. induction s as [|c s IH]; intros n Hn Hall Hstop; simpl in *; [lia|].
  destruct n as [|n].
  - by rewrite (Hstop c eq_refl).
  - rewrite (Hall 0%nat c ltac:(lia) eq_refl). f_equal. apply IH; [lia| |done].
    intros i x Hi. apply (Hall (S i)). lia.
Qed.

(** The character [c] is in [s]. *)
Definition has (s : list Z) (c : Z) : bool := bool_decide (c ∈ s).

(** ** Reading functions *)
Ltac bind := unfold mbind, M_bind, mret, M_ret.
Ltac nn Hs := rewrite ?(proj2 (Z.eqb_neq _ 0)) by (destruct Hs; lia); cbn [negb orb].

Ltac nonzero := rewrite ?(proj2 (Z.eqb_neq _ 0)) by done; cbn [negb orb andb].

(** A loop over the characters of a string that goes on while [P] holds. *)
Lemma scan_ok {A B} (P : Z -> bool) (f : nat -> A) (step : A -> M mem (A + B)) m p s b a :
  str_at m p s -> a = f 0%nat ->
  (forall i x, s !! i = Some x -> load (p + Z.of_nat i) m = Ok (x, m) -> is_byte x -> x <> 0 -> P x = true ->
    step (f i) m = Ok (inl (f (S i)), m)) ->
  (forall x, load (p + Z.of_nat (prefix_len P s)) m = Ok (x, m) -> is_byte x ->
    x = 0 /\ prefix_len P s = length s \/
    x <> 0 /\ P x = false /\ (prefix_len P s < length s)%nat /\ s !! prefix_len P s = Some x ->
    step (f (prefix_len P s)) m = Ok (inr b, m)) ->
  sloop step a m = Ok (b, m).
Proof.
  intros Hs -> Hgo Hstop. pose proof (prefix_len_le P s) as Hn.
  apply (sloop_eq f _ m (prefix_len P s)); [done| | |apply str_size in Hs; lia].
  - intros i Hi. destruct (str_char m p s i Hs) as (x & _ & E & Hx & Hb & Hsx); [lia|].
    apply (Hgo i x); [apply Hsx; lia|done|done|intros Hx0; apply Hx in Hx0; lia|].
    eapply prefix_len_lookup; [done|apply Hsx; lia].
  - destruct (str_char m p s (prefix_len P s) Hs) as (x & _ & E & Hx & Hb & Hsx); [done|].
    apply (Hstop x); [done|done|]. destruct (decide (prefix_len P s = length s)) as [Hl|Hl]; [left; tauto|right].
    specialize (Hsx ltac:(lia)). split_and!; [tauto|by eapply prefix_len_stop|lia|done].
Qed.

Lemma prefix_len_all s : prefix_len (fun _ => true) s = length s.
Proof. induction s as [|c s IH]; simpl; [done|]. by f_equal. Qed.

Lemma strlen_ok m p s : str_at m p s -> strlen p m = Ok (Z.of_nat (length s), m).
Proof.
  intros Hs. unfold strlen. bind. unfold assert. nn Hs.
  apply (scan_ok (fun _ => true) (fun i => p + Z.of_nat i) _ m p s); [done|lia|..].
  - intros i x _ E _ Hx _. rewrite E. nonzero. do 3 f_equal. lia.
  - intros x E _ [[-> Hl]|(_ & ? & _)]; [|done]. rewrite E, prefix_len_all. simpl. do 3 f_equal. lia.
Qed.

(** [strchr] finds the first place of [c], the terminator included. *)
Definition find_char (s : list Z) (c : Z) : option nat :=
  if c =? 0 then Some (length s)
  else if bool_decide (c ∈ s) then Some (prefix_len (fun x => negb (x =? c)) s) else None.

Definition place (p : Z) (o : option nat) : Z := match o with Some i => p + Z.of_nat i | None => 0 end.

Lemma not_before s c : prefix_len (fun x => negb (x =? c)) s = length s -> c ∉ s.
Proof.
  intros Hl [i Hi]%list_elem_of_lookup. pose proof (lookup_lt_Some _ _ _ Hi) as Hlt. rewrite <- Hl in Hlt.
  pose proof (prefix_len_lookup _ _ _ _ Hlt Hi) as E. apply negb_true_iff, Z.eqb_neq in E. done.
Qed.

Lemma strchr_ok m p s c : str_at m p s -> strchr p c m = Ok (place p (find_char s (u8 c)), m).
Proof.
  intros Hs. unfold strchr. bind. unfold assert. nn Hs. set (k := u8 c).
  apply (scan_ok (fun x => negb (x =? k)) (fun i => p + Z.of_nat i) _ m p s); [done|lia|..].
  - intros i x _ E _ Hx Hk. rewrite E. apply negb_true_iff in Hk. rewrite Hk. nonzero. do 3 f_equal. lia.
  - intros x E _ Hcase. rewrite E. unfold find_char. destruct Hcase as [[-> Hl]|(Hx & Hk & Hlt & Hsx)].
    + rewrite Z.eqb_sym. destruct (k =? 0); [by rewrite Hl|]. simpl.
      rewrite bool_decide_eq_false_2; [done|by apply not_before].
    + apply negb_false_iff, Z.eqb_eq in Hk as ->. rewrite Z.eqb_refl. nonzero.
      rewrite bool_decide_eq_true_2; [done|]. apply list_elem_of_lookup. eauto.
Qed.

(** Whether a character of another string is in [d]: the test of the spans and
    of the tokenizer. *)
Lemma strchr_test m q d x :
  str_at m q d -> is_byte x -> exists r, strchr q x m = Ok (r, m) /\ (r =? 0) = negb ((x =? 0) || has d x).
Proof.
  intros Hd Hx. eexists. split; [by apply strchr_ok|]. rewrite wrap_small by done. unfold find_char, has.
  pose proof (sa_ptr _ _ _ Hd). destruct (x =? 0); simpl; [apply Z.eqb_neq; lia|].
  destruct (bool_decide (x ∈ d)); simpl; [apply Z.eqb_neq; lia|done].
Qed.

Ltac char_test q d Hd Hb := let r := fresh "r" in let Hr := fresh "Hr" in
  destruct (strchr_test _ q d _ Hd Hb) as (r & -> & Hr); rewrite ?Hr; nonzero; rewrite ?negb_involutive.

Section spans.
Context (m : mem) (p q : Z) (s d : list Z).
Hypotheses (Hs : str_at m p s) (Hd : str_at m q d).

Abbreviation outside := (prefix_len (fun c => negb (has d c)) s).
Abbreviation inside := (prefix_len (has d) s).

Lemma strcspn_ok : strcspn p q m = Ok (Z.of_nat outside, m).
Proof.
  apply (scan_ok (fun c => negb (has d c)) Z.of_nat _ m p s); [done|lia|..]; unfold mbind, M_bind.
  - intros i x _ -> Hb Hx HP. nonzero. char_test q d Hd Hb. apply negb_true_iff in HP. rewrite HP.
    bind. do 3 f_equal. lia.
  - intros x -> Hb [[-> _]|(Hx & HP & _)]; [done|]. nonzero. char_test q d Hd Hb.
    apply negb_false_iff in HP. by rewrite HP.
Qed.

Lemma strspn_ok : strspn p q m = Ok (Z.of_nat inside, m).
Proof.
  apply (scan_ok (has d) Z.of_nat _ m p s); [done|lia|..]; unfold mbind, M_bind.
  - intros i x _ -> Hb Hx HP. nonzero. char_test q d Hd Hb. rewrite HP. bind. simpl. do 3 f_equal. lia.
  - intros x -> Hb [[-> _]|(Hx & HP & _)]; [done|]. nonzero. char_test q d Hd Hb. by rewrite HP.
Qed.

Lemma strpbrk_ok :
  strpbrk p q m = Ok (place p (if (outside <? length s)%nat then Some outside else None), m).
Proof.
  apply (scan_ok (fun c => negb (has d c)) (fun i => p + Z.of_nat i) _ m p s); [done|lia|..]; unfold mbind, M_bind.
  - intros i x _ -> Hb Hx HP. nonzero. char_test q d Hd Hb. apply negb_true_iff in HP. rewrite HP.
    bind. do 3 f_equal. lia.
  - intros x -> Hb [[-> Hl]|(Hx & HP & Hlt & _)].
    + by rewrite (proj2 (Nat.ltb_ge _ _)) by lia.
    + nonzero. char_test q d Hd Hb. apply negb_false_iff in HP. rewrite HP.
      by rewrite (proj2 (Nat.ltb_lt _ _)) by lia.
Qed.
End spans.

Lemma strnlen_ok m p s n :
  str_at m p s -> 0 <= n -> strnlen p n m = Ok (Z.min (Z.of_nat (length s)) n, m).
Proof.
  intros Hs Hn. unfold strnlen.
  apply (sloop_eq Z.of_nat _ m (Z.to_nat (Z.min (Z.of_nat (length s)) n))); [lia|..].
  - intros i Hi. destruct (str_char m p s i Hs) as (x & _ & E & Hx & _); [lia|]. bind. rewrite E.
    rewrite (proj2 (Z.eqb_neq x 0)) by (intros Hx0; apply Hx in Hx0; lia).
    rewrite (proj2 (Z.ltb_lt _ _)) by lia. simpl. do 3 f_equal. lia.
  - set (k := Z.to_nat _). destruct (str_char m p s k Hs) as (x & _ & E & Hx & _); [lia|]. bind. rewrite E.
    assert (negb (x =? 0) && (Z.of_nat k <? n) = false) as ->.
    { destruct (decide (k = length s)) as [Hk|]; [rewrite (proj2 Hx Hk); done|].
      rewrite (proj2 (Z.ltb_ge _ _)) by lia. by rewrite andb_false_r. }
    do 3 f_equal. lia.
  - apply str_size in Hs. lia.
Qed.

(** The last place of [c]. *)
Definition last_char (s : list Z) (c : Z) : option nat :=
  match list_find (eq c) (rev s) with Some (i, _) => Some (length s - S i)%nat | None => None end.

Lemma last_char_snoc s x c :
  last_char (s ++ [x]) c = if x =? c then Some (length s) else last_char s c.
Proof.
  unfold last_char. rewrite rev_app_distr, length_app. simpl.
  destruct (Z.eqb_spec x c) as [->|Hne].
  - rewrite decide_True by done. f_equal. lia.
  - rewrite decide_False by done. destruct (list_find (eq c) (rev s)) as [[i y]|]; simpl; [|done]. f_equal. lia.
Qed.

Lemma strrchr_ok m p s c : str_at m p s -> strrchr p c m = Ok (place p (last_char s (u8 c)), m).
Proof.
  intros Hs. unfold strrchr. set (k := u8 c).
  apply (scan_ok (fun _ => true) (fun i => (p + Z.of_nat i, place p (last_char (take i s) k))) _ m p s);
    [done|f_equal; lia|..]; rewrite ?prefix_len_all; bind.
  - intros i x Hi -> Hb Hx _. nonzero. do 3 f_equal. f_equal; [lia|].
    rewrite (take_S_r _ _ _ Hi), last_char_snoc, length_take_le by (apply lookup_lt_Some in Hi; lia).
    by destruct (x =? k).
  - intros x -> _ [[-> _]|(_ & ? & _)]; [|done]. simpl. by rewrite take_ge by done.
Qed.

(** ** Comparison *)
Fixpoint cmp (a b : list Z) : Z :=
  match a, b with
  | [], [] => 0
  | [], _ :: _ => -1
  | _ :: _, [] => 1
  | x :: a, y :: b => if x =? y then cmp a b else if y <? x then 1 else -1
  end.

Fixpoint common (a b : list Z) : nat :=
  match a, b with
  | x :: a, y :: b => if x =? y then S (common a b) else 0
  | _, _ => 0
  end.

Lemma common_eq a b i : (i < common a b)%nat -> exists x, a !! i = Some x /\ b !! i = Some x.
Proof.
  revert b i. induction a as [|x a IH]; intros [|y b] i; simpl; try lia.
  destruct (Z.eqb_spec x y) as [->|]; [|lia]. destruct i as [|i]; simpl; [eauto|]. intros Hi. apply IH. lia.
Qed.

Lemma common_stop a b :
  cmp a b = match a !! common a b, b !! common a b with
            | Some x, Some y => if y <? x then 1 else -1
            | Some _, None => 1 | None, Some _ => -1 | None, None => 0 end /\
  forall x y, a !! common a b = Some x -> b !! common a b = Some y -> x <> y.
Proof.
  revert b. induction a as [|x a IH]; intros [|y b]; simpl; try done.
  destruct (Z.eqb_spec x y) as [->|]; simpl; [apply IH|]. split; [done|]. by intros ? ? [= <-] [= <-].
Qed.

Lemma common_le a b : (common a b <= length a)%nat /\ (common a b <= length b)%nat.
Proof.
  revert b. induction a as [|x a IH]; intros [|y b]; simpl; try lia.
  destruct (x =? y); [|lia]. specialize (IH b). lia.
Qed.

Lemma memcmp_ok m p q a b :
  bytes_at m p a -> bytes_at m q b -> length a = length b -> (a <> [] -> 0 < p /\ 0 < q) ->
  memcmp p q (Z.of_nat (length a)) m = Ok (cmp a b, m).
Proof.
  intros Ha Hb Hlen Hnn. unfold memcmp, nonnull. bind. unfold assert.
  assert (forall r, 0 < r \/ a = [] -> negb (r =? 0) || (Z.of_nat (length a) =? 0) = true) as Hor.
  { intros r [Hr| ->]; [rewrite (proj2 (Z.eqb_neq _ _)) by lia; done|by rewrite orb_true_r]. }
  assert (a = [] \/ 0 < p /\ 0 < q) as Hpq by (destruct a; [by left|right; by apply Hnn]).
  rewrite !Hor by tauto. destruct (common_stop a b) as [Hc Hne]. pose proof (common_le a b) as [Hla Hlb].
  change 0 with (Z.of_nat 0). apply (loop_eq Z.of_nat _ m (common a b)); [| |lia].
  - intros i Hi. rewrite (proj2 (Z.ltb_lt _ _)) by lia. destruct (common_eq a b i Hi) as (x & Hx & Hy).
    rewrite (load_ok m p a i x), (load_ok m q b i x) by done. rewrite Z.eqb_refl. simpl. do 3 f_equal. lia.
  - rewrite Hc. destruct (a !! common a b) as [x|] eqn:Ex, (b !! common a b) as [y|] eqn:Ey.
    + pose proof (lookup_lt_Some _ _ _ Ex). rewrite (proj2 (Z.ltb_lt _ _)) by lia.
      rewrite (load_ok m p a _ x), (load_ok m q b _ y) by done.
      rewrite (proj2 (Z.eqb_neq x y)) by (by apply Hne). done.
    + apply lookup_lt_Some in Ex. apply lookup_ge_None in Ey. lia.
    + apply lookup_lt_Some in Ey. apply lookup_ge_None in Ex. lia.
    + apply lookup_ge_None in Ex. by rewrite (proj2 (Z.ltb_ge _ _)) by lia.
Qed.

Lemma strcmp_ok m p q a b : str_at m p a -> str_at m q b -> strcmp p q m = Ok (cmp a b, m).
Proof.
  intros Ha Hb. unfold strcmp. bind. unfold assert. nn Ha. nn Hb.
  destruct (common_stop a b) as [Hc Hne]. pose proof (common_le a b) as [Hla Hlb].
  apply (sloop_eq Z.of_nat _ m (common a b)); [done| | |apply str_size in Ha; lia].
  - intros i Hi. destruct (common_eq a b i Hi) as (z & Hx & Hy).
    destruct (str_char m p a i Ha) as (x & _ & -> & H0 & _ & Hsx); [lia|].
    destruct (str_char m q b i Hb) as (y & _ & -> & _ & _ & Hsy); [lia|].
    rewrite Hsx in Hx by lia. rewrite Hsy in Hy by lia. simplify_eq. rewrite Z.eqb_refl.
    rewrite (proj2 (Z.eqb_neq _ 0)) by (intros E; apply H0 in E; lia). simpl. do 3 f_equal. lia.
  - rewrite Hc. destruct (str_char m p a (common a b) Ha) as (x & _ & -> & H0 & Bx & Hsx); [lia|].
    destruct (str_char m q b (common a b) Hb) as (y & _ & -> & H0' & By & Hsy); [lia|]. unfold is_byte in *.
    destruct (decide (common a b = length a)) as [Ea|Ea], (decide (common a b = length b)) as [Eb|Eb].
    + rewrite (proj2 H0), (proj2 H0') by done. simpl. by rewrite !lookup_ge_None_2 by lia.
    + rewrite (proj2 H0) by done. specialize (Hsy ltac:(lia)). rewrite Hsy, lookup_ge_None_2 by lia. simpl.
      by rewrite (proj2 (Z.ltb_lt 0 y)) by lia.
    + rewrite (proj2 H0') by done. specialize (Hsx ltac:(lia)). rewrite Hsx, (lookup_ge_None_2 b) by lia.
      rewrite (proj2 (Z.eqb_neq x 0)) by tauto. simpl. rewrite (proj2 (Z.ltb_ge x 0)) by lia.
      by rewrite (proj2 (Z.ltb_lt 0 x)) by lia.
    + specialize (Hsx ltac:(lia)). specialize (Hsy ltac:(lia)). rewrite Hsx, Hsy.
      specialize (Hne _ _ Hsx Hsy). rewrite (proj2 (Z.eqb_neq x y)) by done. rewrite andb_false_r.
      destruct (Z.ltb_spec x y), (Z.ltb_spec y x); try lia; done.
Qed.

Lemma cmp_eq a b : cmp a b = 0 <-> a = b.
Proof.
  revert b. induction a as [|x a IH]; intros [|y b]; simpl; try done.
  destruct (Z.eqb_spec x y) as [->|Hne].
  - rewrite IH. split; [by intros ->|by intros [= ->]].
  - split; [by destruct (y <? x)|by intros [= -> _]].
Qed.

Lemma cmp_antisym a b : cmp b a = - cmp a b.
Proof.
  revert b. induction a as [|x a IH]; intros [|y b]; simpl; try done.
  rewrite (Z.eqb_sym y x). destruct (Z.eqb_spec x y) as [->|Hne]; [apply IH|].
  destruct (Z.ltb_spec y x), (Z.ltb_spec x y); lia || done.
Qed.

Lemma nonnull_ok p n m : 0 < p \/ n = 0 -> nonnull p n m = Ok (tt, m).
Proof.
  intros [Hp| ->]; unfold nonnull, assert; [by rewrite (proj2 (Z.eqb_neq _ _)) by lia|by rewrite orb_true_r].
Qed.

Lemma memchr_ok m p a c :
  bytes_at m p a -> 0 < p ->
  memchr p c (Z.of_nat (length a)) m =
    Ok (place p (if has a (u8 c) then Some (prefix_len (fun x => negb (x =? u8 c)) a) else None), m).
Proof.
  intros Ha Hp. unfold memchr. bind. rewrite nonnull_ok by by left. set (k := u8 c).
  set (P := fun x => negb (x =? k)). pose proof (prefix_len_le P a) as Hn.
  change 0 with (Z.of_nat 0) at 1. apply (loop_eq Z.of_nat _ m (prefix_len P a)); [| |lia].
  - intros i Hi. rewrite (proj2 (Z.ltb_lt _ _)) by lia. destruct (lookup_lt_is_Some_2 a i) as [x Hx]; [lia|].
    rewrite (load_ok m p a i x) by done. pose proof (prefix_len_lookup P a i x Hi Hx) as E.
    apply negb_true_iff in E. rewrite E. do 3 f_equal. lia.
  - destruct (decide (prefix_len P a = length a)) as [Hl|Hl].
    + rewrite (proj2 (Z.ltb_ge _ _)) by lia. unfold has. by rewrite bool_decide_eq_false_2 by (by apply not_before).
    + rewrite (proj2 (Z.ltb_lt _ _)) by lia. destruct (lookup_lt_is_Some_2 a (prefix_len P a)) as [x Hx]; [lia|].
      rewrite (load_ok m p a _ x) by done. pose proof (prefix_len_stop P a x Hx) as E.
      apply negb_false_iff in E. rewrite E. apply Z.eqb_eq in E as <-. unfold has.
      rewrite bool_decide_eq_true_2; [done|]. apply list_elem_of_lookup. eauto.
Qed.

(** The first place of [nd] in [h]. *)
Fixpoint find_sub (h nd : list Z) : option nat :=
  if bool_decide (take (length nd) h = nd) then Some 0%nat
  else match h with [] => None | _ :: h => S <$> find_sub h nd end.

Lemma find_sub_Some h nd i :
  find_sub h nd = Some i <->
  take (length nd) (drop i h) = nd /\ (i <= length h)%nat /\
  forall j, (j < i)%nat -> take (length nd) (drop j h) <> nd.
Proof.
  revert i. induction h as [|c h IH]; intros i; simpl; case_bool_decide as E.
  - split; [intros [= <-]; split_and!; [done|lia|lia]|].
    intros (_ & Hi & _). f_equal. simpl in Hi. lia.
  - split; [done|]. intros (H & Hi & _). simpl in Hi. destruct i; [done|lia].
  - split; [intros [= <-]; split_and!; [done|lia|lia]|]. intros (_ & _ & Hj).
    destruct i as [|i]; [done|]. by destruct (Hj 0%nat ltac:(lia)).
  - rewrite fmap_Some. split.
    + intros (k & (H1 & H2 & H3)%IH & ->). simpl. split_and!; [done|lia|].
      intros [|j] Hj; simpl; [done|]. apply H3. lia.
    + intros (H1 & H2 & H3). destruct i as [|i]; [done|]. exists i. split; [|done]. apply IH.
      split_and!; [done|simpl in H2; lia|]. intros j Hj. apply (H3 (S j)). lia.
Qed.

Lemma find_sub_None h nd :
  find_sub h nd = None -> forall j, (j <= length h)%nat -> take (length nd) (drop j h) <> nd.
Proof.
  induction h as [|c h IH]; simpl; case_bool_decide as E; try done; intros Hn j Hj.
  - by replace j with 0%nat by lia.
  - destruct j as [|j]; simpl; [done|]. apply IH; [|lia]. by destruct (find_sub h nd).
Qed.

Lemma bytes_at_take_drop m p s i n :
  str_at m p s -> (i + n <= length s)%nat -> bytes_at m (p + Z.of_nat i) (take n (drop i s)).
Proof.
  intros [Hp Hb Hc] Hi. apply bytes_at_app in Hb as [Hb _].
  rewrite <- (take_drop i s) in Hb. apply bytes_at_app in Hb as [_ Hb].
  rewrite length_take_le in Hb by lia. rewrite <- (take_drop n (drop i s)) in Hb. by apply bytes_at_app in Hb as [Hb _].
Qed.

Lemma strstr_ok m p q h nd :
  str_at m p h -> str_at m q nd -> strstr p q m = Ok (place p (find_sub h nd), m).
Proof.
  intros Hh Hnd. unfold strstr. bind. rewrite (strlen_ok m p h), (strlen_ok m q nd) by done.
  assert (forall i, (i + length nd <= length h)%nat ->
    memcmp (p + Z.of_nat i) q (Z.of_nat (length nd)) m = Ok (cmp (take (length nd) (drop i h)) nd, m)) as Hcmp.
  { intros i Hi. assert (length (take (length nd) (drop i h)) = length nd) as E
      by (rewrite length_take_le; [done|rewrite length_drop; lia]).
    rewrite <- E at 1. apply memcmp_ok; [by apply bytes_at_take_drop| |done|].
    - destruct Hnd as [_ Hb _]. by apply bytes_at_app in Hb as [Hb _].
    - intros _. destruct Hh, Hnd. lia. }
  assert (forall i, take (length nd) (drop i h) = nd -> (i <= length h -> i + length nd <= length h)%nat) as Hfit.
  { intros i E Hi. apply (f_equal length) in E. rewrite length_take, length_drop in E. lia. }
  destruct (Z.leb_spec (Z.of_nat (length nd)) (Z.of_nat (length h))) as [Hle|Hgt].
  - change 0 with (Z.of_nat 0) at 3. destruct (find_sub h nd) as [i|] eqn:E.
    + apply find_sub_Some in E as (H1 & H2 & H3). specialize (Hfit i H1 H2).
      apply (loop_eq Z.of_nat _ m i); [| |lia].
      * intros j Hj. rewrite (proj2 (Z.leb_le _ _)) by lia. rewrite Hcmp by lia.
        rewrite (proj2 (Z.eqb_neq _ _)) by (rewrite cmp_eq; by apply H3). do 3 f_equal. lia.
      * rewrite (proj2 (Z.leb_le _ _)) by lia. rewrite Hcmp by lia. by rewrite (proj2 (cmp_eq _ _) H1).
    + pose proof (find_sub_None h nd E) as Hno. apply (loop_eq Z.of_nat _ m (length h - length nd + 1)); [| |lia].
      * intros j Hj. rewrite (proj2 (Z.leb_le _ _)) by lia. rewrite Hcmp by lia.
        rewrite (proj2 (Z.eqb_neq _ _)) by (rewrite cmp_eq; apply Hno; lia). do 3 f_equal. lia.
      * by rewrite (proj2 (Z.leb_gt _ _)) by lia.
  - destruct (find_sub h nd) as [i|] eqn:E; [|done]. apply find_sub_Some in E as (H1 & H2 & _).
    specialize (Hfit i H1 H2). lia.
Qed.

(** ** Writing functions *)
(** The memory [m] with [l] written at [p]. *)
Fixpoint write (m : mem) (p : Z) (l : list Z) : mem :=
  match l with
  | [] => m
  | x :: l => <[p := x]> (write m (p + 1) l)
  end.

Definition mapped (m : mem) (p : Z) (n : nat) : Prop := forall i, p <= i < p + Z.of_nat n -> is_Some (m !! i).

Lemma write_out m p l a : a < p \/ p + Z.of_nat (length l) <= a -> write m p l !! a = m !! a.
Proof.
  revert p. induction l as [|x l IH]; intros p Ha; simpl in *; [done|].
  rewrite lookup_insert_ne by lia. apply IH. lia.
Qed.

Lemma write_in m p l : bytes_at (write m p l) p l.
Proof.
  revert p. induction l as [|x l IH]; intros p i y; simpl; [done|]. destruct i as [|i]; simpl.
  - intros [= <-]. by rewrite Z.add_0_r, lookup_insert_eq.
  - intros Hy. rewrite lookup_insert_ne by lia. rewrite <- (IH (p + 1) i y Hy). f_equal. lia.
Qed.

Lemma write_snoc m p l x : write m p (l ++ [x]) = <[p + Z.of_nat (length l) := x]> (write m p l).
Proof.
  revert p. induction l as [|y l IH]; intros p; simpl; [by rewrite Z.add_0_r|].
  rewrite IH. rewrite insert_insert_ne by lia. f_equal. lia.
Qed.

Lemma write_mapped m p l a : is_Some (m !! a) -> is_Some (write m p l !! a).
Proof.
  intros Ha. revert p. induction l as [|x l IH]; intros p; simpl; [done|].
  destruct (decide (p = a)) as [->|]; [rewrite lookup_insert_eq; eauto|by rewrite lookup_insert_ne].
Qed.

Lemma bytes_mapped m p l : bytes_at m p l -> mapped m p (length l).
Proof.
  intros Hb i Hi. destruct (lookup_lt_is_Some_2 l (Z.to_nat (i - p))) as [x Hx]; [lia|].
  exists x. rewrite <- (Hb _ _ Hx). f_equal. lia.
Qed.

(** Copying upwards is right when the destination is below the source or they
    do not overlap. *)
Lemma copy_up_ok m dst src l :
  bytes_at m src l -> Forall is_byte l -> mapped m dst (length l) ->
  dst <= src \/ src + Z.of_nat (length l) <= dst ->
  wp (for_ (length l) 0 (fun i => b ← load (src + i); store (dst + i) b)) (fun _ m' => m' = write m dst l) m.
Proof.
  intros Hs Hb Hd Hov. eapply wp_mono.
  - apply (wp_for (fun i m' => m' = write m dst (take (Z.to_nat i) l))); [|done].
    intros i m' Hi ->. destruct (lookup_lt_is_Some_2 l (Z.to_nat i)) as [x Hx]; [lia|]. wp_step.
    assert (length (take (Z.to_nat i) l) = Z.to_nat i) as Hlen by (rewrite length_take_le; [done|lia]).
    eapply wp_eq.
    { unfold load. bind. unfold get. rewrite write_out by (rewrite Hlen; lia).
      replace (src + i) with (src + Z.of_nat (Z.to_nat i)) by lia. by rewrite (Hs _ _ Hx). }
    eapply wp_eq; [apply store_ok, write_mapped, Hd; lia|].
    rewrite wrap_small by (by apply (Forall_lookup_1 _ _ _ _ Hb Hx)).
    replace (Z.to_nat (i + 1)) with (S (Z.to_nat i)) by lia. rewrite (take_S_r _ _ _ Hx), write_snoc, Hlen.
    f_equal. lia.
  - intros [] m'. cbv beta. intros ->. rewrite take_ge by lia. done.
Qed.

(** Copying downwards is right when the destination is above the source. *)
Lemma copy_down_ok m dst src l :
  bytes_at m src l -> Forall is_byte l -> mapped m dst (length l) -> src <= dst ->
  let n := Z.of_nat (length l) in
  wp (for_ (length l) 1 (fun i => b ← load (src + n - i); store (dst + n - i) b)) (fun _ m' => m' = write m dst l) m.
Proof.
  intros Hs Hb Hd Hov n. eapply wp_mono.
  - apply (wp_for (fun i m' => m' = write m (dst + n - (i - 1)) (drop (Z.to_nat (n - (i - 1))) l))).
    2: { rewrite drop_ge by lia. done. }
    intros i m' Hi ->. set (k := Z.to_nat (n - i)). destruct (lookup_lt_is_Some_2 l k) as [x Hx]; [lia|]. wp_step.
    replace (Z.to_nat (n - (i - 1))) with (S k) by lia.
    assert (length (drop (S k) l) = Z.to_nat (i - 1)) as Hlen by (rewrite length_drop; lia).
    eapply wp_eq.
    { unfold load. bind. unfold get. rewrite write_out by (rewrite Hlen; lia).
      replace (src + n - i) with (src + Z.of_nat k) by lia. by rewrite (Hs _ _ Hx). }
    eapply wp_eq; [apply store_ok, write_mapped, Hd; lia|].
    rewrite wrap_small by (by apply (Forall_lookup_1 _ _ _ _ Hb Hx)).
    replace (Z.to_nat (n - (i + 1 - 1))) with k by lia. rewrite (drop_S _ _ _ Hx). simpl.
    f_equal; [lia|]. f_equal; lia.
  - intros [] m'. cbv beta. intros ->. replace (Z.to_nat _) with 0%nat by lia. rewrite drop_0. f_equal. lia.
Qed.

Lemma memcpy_ok m dst src l :
  bytes_at m src l -> Forall is_byte l -> mapped m dst (length l) -> 0 < dst -> 0 < src ->
  dst + Z.of_nat (length l) <= src \/ src + Z.of_nat (length l) <= dst ->
  wp (memcpy dst src (Z.of_nat (length l))) (fun r m' => r = dst /\ m' = write m dst l) m.
Proof.
  intros Hs Hb Hd Hp Hq Hov. unfold memcpy. do 2 (wp_step; (eapply wp_eq; [apply nonnull_ok; by left|])).
  wp_step. rewrite Nat2Z.id. eapply wp_mono; [apply copy_up_ok; try done; lia|]. intros [] m'. cbv beta. intros ->.
  by wp_step.
Qed.

Lemma memset_ok m dst v n :
  mapped m dst n -> 0 < dst ->
  wp (memset dst v (Z.of_nat n)) (fun r m' => r = dst /\ m' = write m dst (replicate n (u8 v))) m.
Proof.
  intros Hd Hp. unfold memset. wp_step. eapply wp_eq; [apply nonnull_ok; by left|]. wp_step.
  eapply wp_mono.
  - apply (wp_for (fun i m' => m' = write m dst (replicate (Z.to_nat i) (u8 v)))); [|done].
    intros i m' Hi ->. eapply wp_eq; [apply store_ok, write_mapped, Hd; lia|].
    replace (Z.to_nat (i + 1)) with (S (Z.to_nat i)) by lia.
    rewrite replicate_S_end, write_snoc, length_replicate. f_equal. lia.
  - intros [] m'. cbv beta. intros ->. wp_step. rewrite Nat2Z.id. split; [done|]. do 2 f_equal. lia.
Qed.

Lemma str_at_write m p s :
  0 < p -> Forall (fun c => is_byte c /\ c <> 0) s -> str_at (write m p (s ++ [0])) p s.
Proof. intros Hp Hc. split; [done|apply write_in|done]. Qed.

Lemma chars_bytes s : Forall (fun c => is_byte c /\ c <> 0) s -> Forall is_byte s.
Proof. intros H. eapply Forall_impl; [exact H|]. by intros x [? _]. Qed.

(** [k] characters of [s] and a terminator are copied to [dst]. *)
Lemma copy_string_ok m dst src s k :
  str_at m src s -> (k <= length s)%nat -> 0 < dst -> mapped m dst (S k) ->
  dst + Z.of_nat (S k) <= src \/ src + Z.of_nat (length s) < dst ->
  wp (_ ← memcpy dst src (Z.of_nat k); store (dst + Z.of_nat k) 0)
    (fun _ m' => m' = write m dst (take k s ++ [0])) m.
Proof.
  intros Hs Hk Hp Hd Hov. wp_step.
  assert (length (take k s) = k) as Hlen by (by rewrite length_take_le).
  rewrite <- Hlen at 1. eapply wp_mono.
  { apply (memcpy_ok m dst src (take k s)).
    - rewrite <- (drop_0 s), <- (Z.add_0_r src). apply (bytes_at_take_drop m src s 0 k); [done|lia].
    - apply Forall_take, chars_bytes. apply Hs.
    - intros i Hi. apply Hd. rewrite Hlen in Hi. lia.
    - done.
    - apply Hs.
    - rewrite Hlen. lia. }
  intros r m' [_ ->]. eapply wp_eq; [apply store_ok, write_mapped, Hd; lia|].
  by rewrite write_snoc, Hlen.
Qed.

(** C30 [memmove] copies [SIZE] bytes from [SRC] to [DST] whether or not the
    blocks overlap: afterwards the destination has the bytes the source had
    before, and no other byte changed.  It returns [DST] only when [DST] is not
    below [SRC]: the forward branch returns the advanced pointer. *)
Theorem memmove_overlap m dst src l :
  bytes_at m src l -> Forall is_byte l -> mapped m dst (length l) -> 0 < dst -> 0 < src ->
  wp (memmove dst src (Z.of_nat (length l))) (fun r m' =>
    bytes_at m' dst l /\
    (forall a, a < dst \/ dst + Z.of_nat (length l) <= a -> m' !! a = m !! a) /\
    r = if dst <? src then dst + Z.of_nat (length l) else dst) m.
Proof.
  intros Hs Hb Hd Hp Hq. unfold memmove. do 2 (wp_step; (eapply wp_eq; [apply nonnull_ok; by left|])).
  rewrite Nat2Z.id. destruct (Z.ltb_spec dst src); wp_step.
  - eapply wp_mono; [apply copy_up_ok; try done; lia|]. intros [] m'. cbv beta. intros ->. wp_step.
    split; [apply write_in|]. split; [|done]. intros a. apply write_out.
  - eapply wp_mono; [by apply copy_down_ok|]. intros [] m'. cbv beta. intros ->. wp_step.
    split; [apply write_in|]. split; [|done]. intros a. apply write_out.
Qed.

Definition demo_mem : mem := write ∅ 100 [72; 101; 108; 108; 111; 0; 32; 97; 32; 0].

Lemma memmove_overlap_witness :
  bytes_at demo_mem 101 [101; 108; 108] /\
  exists r m', memmove 102 101 3 demo_mem = Ok (r, m') /\ r = 102 /\ bytes_at m' 102 [101; 108; 108].
Proof.
  assert (bytes_at demo_mem 101 [101; 108; 108]) as Hs.
  { intros [|[|[|i]]] x Hx; vm_compute in Hx; simplify_eq; by vm_compute. }
  split; [exact Hs|].
  assert (mapped demo_mem 102 3) as Hd.
  { intros i Hi. assert (i = 102 \/ i = 103 \/ i = 104) as [->|[->| ->]] by lia; vm_compute; eauto. }
  destruct (proj1 (wp_iff _ _ _) (memmove_overlap demo_mem 102 101 [101; 108; 108] Hs
    ltac:(repeat constructor; unfold is_byte; lia) Hd ltac:(lia) ltac:(lia))) as (r & m' & E & H1 & _ & H3).
  exists r, m'. split; [exact E|]. split; [exact H3|exact H1].
Defined.

Lemma take_min (s : list Z) n k : k = Nat.min (length s) n -> take n s = take k s.
Proof. intros ->. destruct (Nat.min_spec (length s) n) as [[? ->]|[? ->]]; [|done]. by rewrite !take_ge by lia. Qed.

Lemma strlcpy_ok m dst src s size :
  str_at m src s -> 0 < dst -> 0 < size -> mapped m dst (Z.to_nat size) ->
  dst + size <= src \/ src + Z.of_nat (length s) < dst ->
  wp (strlcpy dst src size) (fun r m' =>
    r = Z.of_nat (length s) /\ m' = write m dst (take (Z.to_nat (size - 1)) s ++ [0])) m.
Proof.
  intros Hs Hp Hsz Hd Hov. unfold strlcpy. pose proof (sa_ptr _ _ _ Hs) as Hsp.
  do 4 wp_step. wp_step. eapply wp_eq; [by apply strlen_ok|]. rewrite (proj2 (Z.ltb_lt 0 size)) by done.
  set (k := Nat.min (length s) (Z.to_nat (size - 1))).
  rewrite (take_min s _ k) by done.
  replace (if _ <? _ then _ else _) with (Z.of_nat k) by (destruct (Z.ltb_spec (Z.of_nat (length s)) (size - 1)); lia).
  wp_step. cbv zeta. eapply wp_mono.
  - apply (copy_string_ok m dst src s k); [done|lia|done| |lia]. intros i Hi. apply Hd. lia.
  - intros [] m'. cbv beta. intros ->. by wp_step.
Qed.

Lemma strlcat_ok m dst src s d size :
  str_at m src s -> str_at m dst d -> Z.of_nat (length d) < size -> mapped m dst (Z.to_nat size) ->
  Z.of_nat (length s + length d) < 2 ^ 32 ->
  dst + size <= src \/ src + Z.of_nat (length s) < dst ->
  wp (strlcat dst src size) (fun r m' =>
    r = Z.of_nat (length s + length d) /\
    m' = write m (dst + Z.of_nat (length d)) (take (Z.to_nat (size - 1) - length d) s ++ [0])) m.
Proof.
  intros Hs Hd Hsz Hmap Hlt Hov. unfold strlcat.
  pose proof (sa_ptr _ _ _ Hs) as Hsp. pose proof (sa_ptr _ _ _ Hd) as Hdp.
  do 4 wp_step. wp_step. eapply wp_eq; [by apply strlen_ok|]. wp_step. eapply wp_eq; [by apply strlen_ok|].
  rewrite (proj2 (Z.ltb_lt 0 size)), (proj2 (Z.ltb_lt (Z.of_nat (length d)) size)) by lia. cbn [andb].
  set (k := Nat.min (length s) (Z.to_nat (size - 1) - length d)). rewrite (take_min s _ k) by done.
  replace (if _ <? _ then _ else _) with (Z.of_nat k)
    by (destruct (Z.ltb_spec (Z.of_nat (length s)) (size - Z.of_nat (length d) - 1)); lia).
  wp_step. cbv zeta. eapply wp_mono.
  - apply (copy_string_ok m (dst + Z.of_nat (length d)) src s k); [done|lia|lia| |lia]. intros i Hi. apply Hmap. lia.
  - intros [] m'. cbv beta. intros ->. wp_step. split; [|done]. rewrite wrap_small by lia. lia.
Qed.

(** C29 [strlcpy] and [strlcat] never write outside the [SIZE] bytes at [DST],
    which must not overlap [SRC].  They leave at [DST] the first [SIZE - 1]
    characters of the copy, or of the concatenation, null terminated, and
    return the length it would have without the limit. *)
Theorem strlcpy_strlcat_bounded m dst src s d size :
  str_at m src s -> str_at m dst d -> Z.of_nat (length d) < size -> mapped m dst (Z.to_nat size) ->
  Z.of_nat (length s + length d) < 2 ^ 32 ->
  dst + size <= src \/ src + Z.of_nat (length s) < dst ->
  wp (strlcpy dst src size) (fun r m' =>
    r = Z.of_nat (length s) /\ str_at m' dst (take (Z.to_nat (size - 1)) s) /\
    forall a, a < dst \/ dst + size <= a -> m' !! a = m !! a) m /\
  wp (strlcat dst src size) (fun r m' =>
    r = Z.of_nat (length s + length d) /\ str_at m' dst (take (Z.to_nat (size - 1)) (d ++ s)) /\
    forall a, a < dst \/ dst + size <= a -> m' !! a = m !! a) m.
Proof.
  intros Hs Hd Hsz Hmap Hlt Hov. pose proof (sa_ptr _ _ _ Hd) as Hdp. split.
  - eapply wp_mono; [apply strlcpy_ok; try done; lia|]. intros r m' [-> ->]. split; [done|]. split.
    + apply str_at_write; [done|]. by apply Forall_take, Hs.
    + intros a Ha. apply write_out. rewrite length_app, length_take. simpl. lia.
  - eapply wp_mono; [by apply strlcat_ok|]. intros r m' [-> ->]. split; [done|]. split.
    + rewrite take_app, (take_ge d) by lia. split; [done| |by apply Forall_app; split; [apply Hd|apply Forall_take, Hs]].
      rewrite <- app_assoc. apply bytes_at_app. split; [|apply write_in].
      eapply bytes_at_same; [destruct Hd as [_ Hb _]; by apply bytes_at_app in Hb as [Hb _]|].
      intros a Ha. apply write_out. lia.
    + intros a Ha. apply write_out. rewrite length_app, length_take. simpl. lia.
Qed.

Lemma strlcpy_strlcat_bounded_witness :
  exists m', strlcat 100 107 7 demo_mem = Ok (7, m') /\ str_at m' 100 [72; 101; 108; 108; 111; 97].
Proof.
  assert (forall p s, 0 < p -> Forall (fun c => is_byte c /\ c <> 0) s ->
    (forall i x, (s ++ [0]) !! i = Some x -> demo_mem !! (p + Z.of_nat i) = Some x) -> str_at demo_mem p s) as Hstr.
  { intros p s H1 H2 H3. by split. }
  destruct (strlcpy_strlcat_bounded demo_mem 100 107 [97; 32] [72; 101; 108; 108; 111] 7) as [_ H].
  - apply Hstr; [lia|repeat constructor; unfold is_byte; lia|].
    intros [|[|[|i]]] x Hx; vm_compute in Hx; simplify_eq; by vm_compute.
  - apply Hstr; [lia|repeat constructor; unfold is_byte; lia|].
    intros [|[|[|[|[|[|i]]]]]] x Hx; vm_compute in Hx; simplify_eq; by vm_compute.
  - simpl. lia.
  - intros i Hi.
    assert (i = 100 \/ i = 101 \/ i = 102 \/ i = 103 \/ i = 104 \/ i = 105 \/ i = 106)
      as [->|[->|[->|[->|[->|[->| ->]]]]]] by lia; vm_compute; eauto.
  - simpl. lia.
  - left. lia.
  - apply wp_iff in H as (r & m' & E & -> & Hs & _). exists m'. split; [exact E|exact Hs].
Defined.

(** ** The tokenizer *)
(** The maximal runs of characters that are not delimiters. *)
Fixpoint words (delim : Z -> bool) (s : list Z) : list (list Z) :=
  match s with
  | [] => []
  | c :: r =>
    if delim c then words delim r
    else match r with
         | [] => [[c]]
         | c2 :: _ =>
           if delim c2 then [c] :: words delim r
           else match words delim r with w :: ws => (c :: w) :: ws | [] => [[c]] end
         end
  end.

Lemma words_none P s : prefix_len P s = length s -> words P s = [].
Proof.
  induction s as [|c s IH]; simpl; [done|]. destruct (P c); [|lia]. intros [=]. auto.
Qed.

Lemma words_skip P s : words P s = words P (drop (prefix_len P s) s).
Proof. induction s as [|c s IH]; simpl; [done|]. destruct (P c) eqn:E; [done|]. simpl. by rewrite E. Qed.

Lemma words_first P c s : P c = false ->
  let n := prefix_len (fun x => negb (P x)) (c :: s) in
  words P (c :: s) = take n (c :: s) :: words P (drop (S n) (c :: s)).
Proof.
  revert c. induction s as [|c2 s IH]; intros c Hc n; unfold n.
  - simpl. by rewrite Hc.
  - change (prefix_len (fun x => negb (P x)) (c :: c2 :: s)) with
      (if negb (P c) then S (prefix_len (fun x => negb (P x)) (c2 :: s)) else 0%nat).
    rewrite Hc. cbn [negb]. destruct (P c2) eqn:E2.
    + simpl. rewrite Hc, E2. done.
    + specialize (IH c2 E2). cbv zeta in IH. cbn [words]. rewrite Hc, E2. cbn [words] in IH. rewrite E2 in IH.
      rewrite IH. simpl. by rewrite E2.
Qed.

(** The loop of the function's comment: all tokens of a string. *)
Fixpoint strtok_all (fuel : nat) (s delimiters save : Z) : M mem (list Z) :=
  match fuel with
  | O => fail NoFuel
  | S fuel =>
    r ← strtok_r s delimiters save;
    let '(token, save) := r : Z * Z in
    if token =? 0 then mret []
    else rest ← strtok_all fuel 0 delimiters save; mret (token :: rest)
  end.

(** One call: nothing but delimiters is left, or a token and what follows it. *)
Lemma strtok_r_ok m p s q d s0 save :
  str_at m p s -> str_at m q d -> (s0 = p \/ s0 = 0 /\ save = p) ->
  let k := prefix_len (has d) s in
  let n := prefix_len (fun c => negb (has d c)) (drop k s) in
  let e := p + Z.of_nat (k + n) in
  strtok_r s0 q save m =
    if (k =? length s)%nat then Ok ((0, p + Z.of_nat (length s)), m)
    else if (k + n <? length s)%nat then Ok ((p + Z.of_nat k, e + 1), <[e := 0]> m)
    else Ok ((p + Z.of_nat k, e), m).
Proof.
  intros Hs Hd Hstart k n e. pose proof (sa_ptr _ _ _ Hs) as Hsp. pose proof (sa_ptr _ _ _ Hd) as Hdp.
  pose proof (prefix_len_le (has d) s) as Hk. fold k in Hk.
  assert ((if s0 =? 0 then save else s0) = p) as Es.
  { destruct Hstart as [->|[-> ->]]; [|done]. by rewrite (proj2 (Z.eqb_neq _ _)) by lia. }
  unfold strtok_r. bind. unfold assert. rewrite Es.
  rewrite !(proj2 (Z.eqb_neq _ 0)) by lia. cbn [negb].
  rewrite (scan_ok (has d) (fun i => p + Z.of_nat i) _ m p s (negb (k =? length s)%nat, p + Z.of_nat k)); [|done|lia|..].
  2: { intros i x _ -> Hb Hx HP. char_test q d Hd Hb. rewrite HP. cbn [negb]. do 3 f_equal. lia. }
  2: { intros x -> Hb Hcase. fold k in Hcase |- *. char_test q d Hd Hb.
       destruct Hcase as [[-> Hl]|(Hx & HP & Hlt & _)].
       - by rewrite Hl, Nat.eqb_refl.
       - rewrite (proj2 (Z.eqb_neq x 0)), HP by done. by rewrite (proj2 (Nat.eqb_neq _ _)) by lia. }
  rewrite negb_involutive. destruct (Nat.eqb_spec k (length s)) as [->|Hne]; [done|].
  pose proof (str_at_drop m p s k Hs Hk) as Hs1.
  pose proof (prefix_len_le (fun c => negb (has d c)) (drop k s)) as Hn. rewrite length_drop in Hn. fold n in Hn.
  rewrite (scan_ok (fun c => negb (has d c)) (fun i => p + Z.of_nat (k + i)) _ m (p + Z.of_nat k) (drop k s) e);
    [|done|f_equal; lia|..].
  2: { intros i x _. replace (p + Z.of_nat k + Z.of_nat i) with (p + Z.of_nat (k + i)) by lia.
       intros -> Hb Hx HP. char_test q d Hd Hb. rewrite HP. cbn [negb]. do 3 f_equal. lia. }
  2: { intros x. fold n. replace (p + Z.of_nat k + Z.of_nat n) with (p + Z.of_nat (k + n)) by lia.
       intros -> Hb Hcase. destruct (strchr_test m q d x Hd Hb) as (r & -> & Hr). rewrite Hr.
       destruct Hcase as [[-> _]|(Hx & HP & _)]; [done|].
       rewrite (proj2 (Z.eqb_neq x 0)) by done. apply negb_false_iff in HP. by rewrite HP. }
  destruct (str_char m p s (k + n) Hs) as (x & _ & E & Hx & _); [lia|]. fold e in E. rewrite E.
  destruct (Nat.ltb_spec (k + n) (length s)).
  - rewrite (proj2 (Z.eqb_neq x 0)) by (intros Hx0; apply Hx in Hx0; lia). cbn [negb].
    rewrite store_ok; [done|]. apply (bytes_mapped _ _ _ (sa_bytes _ _ _ Hs)). rewrite length_app. simpl. lia.
  - rewrite (proj2 Hx) by lia. done.
Qed.

Lemma str_at_same m m' p s :
  str_at m p s -> (forall a, p <= a <= p + Z.of_nat (length s) -> m' !! a = m !! a) -> str_at m' p s.
Proof.
  intros [H1 H2 H3] Hs. split; [done| |done]. eapply bytes_at_same; [done|]. intros a.
  rewrite length_app. simpl. intros Ha. apply Hs. lia.
Qed.

(** A string cut at [i] by a null byte. *)
Lemma str_at_cut m p s i :
  str_at m p s -> (i < length s)%nat ->
  str_at (<[p + Z.of_nat i := 0]> m) p (take i s) /\
  str_at (<[p + Z.of_nat i := 0]> m) (p + Z.of_nat (S i)) (drop (S i) s).
Proof.
  intros Hs Hi. split.
  - destruct Hs as [H1 H2 H3]. split; [done| |by apply Forall_take].
    apply bytes_at_app in H2 as [H2 _]. rewrite <- (take_drop i s) in H2. apply bytes_at_app in H2 as [H2 _].
    apply bytes_at_app. rewrite length_take_le by lia. split.
    + eapply bytes_at_same; [done|]. intros a. rewrite length_take_le by lia. intros Ha.
      by rewrite lookup_insert_ne by lia.
    + intros [|[|j]] x; simpl; try done. intros [= <-]. by rewrite Z.add_0_r, lookup_insert_eq.
  - eapply str_at_same; [apply str_at_drop; [done|lia]|]. intros a Ha. by rewrite lookup_insert_ne by lia.
Qed.

Lemma strtok_all_ok fuel m p s q d s0 save :
  str_at m p s -> str_at m q d -> (s0 = p \/ s0 = 0 /\ save = p) ->
  q + Z.of_nat (length d) < p \/ p + Z.of_nat (length s) < q -> (length s < fuel)%nat ->
  wp (strtok_all fuel s0 q save) (fun toks m' =>
    Forall2 (str_at m') toks (words (has d) s) /\
    forall a, a < p \/ p + Z.of_nat (length s) <= a -> m' !! a = m !! a) m.
Proof.
  revert m p s s0 save. induction fuel as [|fuel IH]; intros m p s s0 save Hs Hd Hst Hov Hf; [lia|].
  cbn [strtok_all]. wp_step. pose proof (strtok_r_ok m p s q d s0 save Hs Hd Hst) as E. cbv zeta in E.
  pose proof (sa_ptr _ _ _ Hs) as Hsp.
  set (k := prefix_len (has d) s) in *. pose proof (prefix_len_le (has d) s) as Hk. fold k in Hk.
  set (n := prefix_len (fun c => negb (has d c)) (drop k s)) in *.
  destruct (Nat.eqb_spec k (length s)) as [Hkl|Hkl].
  { eapply wp_eq; [exact E|]. simpl. wp_step. split; [|done]. rewrite words_none by done. constructor. }
  pose proof (prefix_len_le (fun c => negb (has d c)) (drop k s)) as Hn. rewrite length_drop in Hn. fold n in Hn.
  destruct (lookup_lt_is_Some_2 s k) as [c Hc]; [lia|].
  assert (words (has d) s = take n (drop k s) :: words (has d) (drop (S (k + n)) s)) as Hw.
  { rewrite words_skip. fold k. rewrite (drop_S _ _ _ Hc). rewrite words_first by (by apply (prefix_len_stop _ s)).
    rewrite <- (drop_S _ _ _ Hc). fold n. rewrite drop_drop. do 3 f_equal. lia. }
  pose proof (str_at_drop m p s k Hs Hk) as Hs1. rewrite Hw.
  destruct (Nat.ltb_spec (k + n) (length s)) as [Hlt|Hge]; (eapply wp_eq; [exact E|]);
    cbv iota beta; rewrite (proj2 (Z.eqb_neq _ 0)) by lia; wp_step.
  - set (e := p + Z.of_nat (k + n)) in *. set (m1 := <[e := 0]> m).
    destruct (str_at_cut m (p + Z.of_nat k) (drop k s) n Hs1) as [Ht Hr]; [rewrite length_drop; lia|].
    replace (p + Z.of_nat k + Z.of_nat n) with e in Ht, Hr by lia. fold m1 in Ht, Hr.
    rewrite drop_drop in Hr. replace (k + S n)%nat with (S (k + n)) in Hr by lia.
    replace (p + Z.of_nat k + Z.of_nat (S n)) with (e + 1) in Hr by lia.
    eapply wp_mono; [apply (IH m1 (e + 1) (drop (S (k + n)) s)); [done| |by right| |]|].
    + eapply str_at_same; [done|]. intros a Ha. unfold m1. rewrite lookup_insert_ne by lia. done.
    + rewrite length_drop. lia.
    + rewrite length_drop. lia.
    + intros toks m' [HF Hsame]. rewrite length_drop in Hsame. wp_step. split.
      * constructor; [|done]. eapply str_at_same; [done|]. rewrite length_take, length_drop. intros a Ha.
        apply Hsame. lia.
      * intros a Ha. rewrite Hsame by lia. unfold m1. by rewrite lookup_insert_ne by lia.
  - rewrite (drop_ge s (S (k + n))) by lia. pose proof (str_at_drop m p s (length s) Hs ltac:(lia)) as He.
    rewrite drop_all in He. replace (p + Z.of_nat (k + n)) with (p + Z.of_nat (length s)) by lia.
    eapply wp_mono; [apply (IH m (p + Z.of_nat (length s)) []); [done|done|by right|simpl; lia|simpl; lia]|].
    intros toks m' [HF Hsame]. simpl in Hsame. wp_step. split.
    + constructor; [|done]. rewrite take_ge by (rewrite length_drop; lia).
      eapply str_at_same; [done|]. rewrite length_drop. intros a Ha. apply Hsame. lia.
    + intros a Ha. apply Hsame. lia.
Qed.

(** C28 The tokens that successive calls of [strtok_r] return are, in order, the
    words of the string, its maximal runs of characters that are not
    delimiters, as null-terminated strings in place; runs of delimiters and
    delimiters at the ends give no empty token, and no byte outside the string
    changes. *)
Theorem strtok_r_words m p s q d :
  str_at m p s -> str_at m q d ->
  q + Z.of_nat (length d) < p \/ p + Z.of_nat (length s) < q ->
  wp (strtok_all (S (length s)) p q 0) (fun toks m' =>
    Forall2 (str_at m') toks (words (has d) s) /\
    forall a, a < p \/ p + Z.of_nat (length s) <= a -> m' !! a = m !! a) m.
Proof. intros Hs Hd Hov. apply strtok_all_ok; try done; [by left|lia]. Qed.

(** " ab  c" and the delimiter " ". *)
Definition demo_args : mem := write (write ∅ 100 [32; 97; 98; 32; 32; 99; 0]) 200 [32; 0].

Lemma demo_args_str : str_at demo_args 100 [32; 97; 98; 32; 32; 99] /\ str_at demo_args 200 [32].
Proof.
  split; (split; [lia| |repeat constructor; unfold is_byte; lia]).
  - apply (bytes_at_same (write ∅ 100 [32; 97; 98; 32; 32; 99; 0])); [apply write_in|].
    intros a Ha. apply write_out. simpl in Ha. lia.
  - apply write_in.
Qed.

Lemma strtok_r_words_witness :
  exists m', strtok_all 7 100 200 0 demo_args = Ok ([101; 105], m') /\ str_at m' 101 [97; 98] /\ str_at m' 105 [99].
Proof.
  destruct (proj1 (wp_iff _ _ _) (strtok_r_words demo_args 100 [32; 97; 98; 32; 32; 99] 200 [32]
    (proj1 demo_args_str) (proj2 demo_args_str) ltac:(right; simpl; lia))) as (toks & m' & E & HF & _).
  assert (toks = [101; 105]) as Et by (vm_compute in E; by injection E as <- _).
  exists m'. split; [by rewrite <- Et|]. rewrite Et in HF. vm_compute in HF.
  inversion HF as [|? ? ? ? H1 HF2]; subst. inversion HF2 as [|? ? ? ? H2 _]; subst. split; [exact H1|exact H2].
Defined.
