(* ===== verification/Kstdlib.v ===== *)
(** * Sorting, searching and number parsing (src/lib/stdlib.c)

    [sort] and [binary_search] work on the bytes of an array of [cnt] elements
    of [size] bytes; the comparison function is a parameter with the laws of a
    [strcmp]-type result.  [atoi] reads a string of the memory of Kstring.

    Theorems: [sort] leaves the elements in order and is a permutation of
    them, element by element, although it moves single bytes; [binary_search]
    finds an element of a sorted array if there is one; [atoi] returns the
    number a string denotes. *)

From S2P Require Import Prelude Kstring.

(** ** ctype.h *)
Definition isdigit (c : Z) : bool := (48 <=? c) && (c <=? 57).
Definition isspace (c : Z) : bool :=
  (c =? 32) || (c =? 12) || (c =? 10) || (c =? 13) || (c =? 9) || (c =? 11).

(** ** atoi *)
(** The loop over the digits; the value is accumulated with the sign negative. *)
Definition atoi_digits (s : Z) : M mem Z :=
  sloop (fun '(s, value) =>
    x ← load s;
    if isdigit x then mret (inl (s + 1, s32 (s32 (value * 10) - (x - 48)))) else mret (inr value)) (s, 0).

Definition atoi (s : Z) : M mem Z :=
  assert (negb (s =? 0));;
  s ← sloop (fun s => x ← load s; if isspace x then mret (inl (s + 1)) else mret (inr s)) s;
  x ← load s;
  let '(negative, s) :=
    if x =? 43 then (false, s + 1) else if x =? 45 then (true, s + 1) else (false, s) in
  value ← atoi_digits s;
  mret (if negative : bool then value else s32 (- value)).

(** ** sort *)
Section sort.
Variable compare : list Z -> list Z -> Z.

Definition elem_at (bytes : list Z) (ofs size : Z) : list Z := take (Z.to_nat size) (drop (Z.to_nat ofs) bytes).

(** Offsets of the elements with 1-based indexes [a_idx] and [b_idx]. *)
Definition do_swap (a_idx b_idx size : Z) : M (list Z) unit :=
  let a := u32 (u32 (a_idx - 1) * size) in
  let b := u32 (u32 (b_idx - 1) * size) in
  for_ (Z.to_nat size) 0 (fun i =>
    array ← get;
    t ← deref array.[a + i];
    x ← deref array.[b + i];
    put array.[a + i <- x].[b + i <- t]).

(** [compare] reads the [size] bytes at each pointer. *)
Definition do_compare (a_idx b_idx size : Z) : M (list Z) Z :=
  array ← get;
  let a := u32 (u32 (a_idx - 1) * size) in
  let b := u32 (u32 (b_idx - 1) * size) in
  _ ← deref (if (a + size <=? alen array) && (b + size <=? alen array) then Some tt else None);
  mret (compare (elem_at array a size) (elem_at array b size)).

Definition heapify (i cnt size : Z) : M (list Z) unit :=
  loop (Z.to_nat (cnt + 1)) (fun i =>
    let left := u32 (2 * i) in
    let right := u32 (2 * i + 1) in
    max ← (if left <=? cnt then c ← do_compare left i size; mret (if 0 <? c then left else i) else mret i);
    max ← (if right <=? cnt then c ← do_compare right max size; mret (if 0 <? c then right else max) else mret max);
    if max =? i then mret (inr ())
    else do_swap i max size;; mret (inl max)) i.

Definition sort (cnt size : Z) : M (list Z) unit :=
  assert (0 <? size);;
  for_ (Z.to_nat (cnt / 2)) 0 (fun j => heapify (cnt / 2 - j) cnt size);;
  for_ (Z.to_nat (cnt - 1)) 0 (fun j =>
    do_swap 1 (cnt - j) size;;
    heapify 1 (cnt - j - 1) size).

Definition qsort (cnt size : Z) : M (list Z) unit := sort cnt size.

(** ** binary_search *)
Definition binary_search (key : list Z) (cnt size : Z) : M (list Z) (option Z) :=
  array ← get;
  loop (Z.to_nat (cnt + 1)) (fun '(first, last) =>
    if first <? last then
      let range := (last - first) / size in
      let middle := first + range / 2 * size in
      _ ← deref (if middle + size <=? alen array then Some tt else None);
      let cmp := compare key (elem_at array middle size) in
      if cmp <? 0 then mret (inl (first, middle))
      else if 0 <? cmp then mret (inl (middle + size, last))
      else mret (inr (Some middle))
    else mret (inr None)) (0, size * cnt).

Definition bsearch (key : list Z) (cnt size : Z) : M (list Z) (option Z) := binary_search key cnt size.
End sort.

(** ** The array as a list of elements *)
Definition elems (sz : nat) (es : list (list Z)) (bytes : list Z) : Prop :=
  bytes = concat es /\ Forall (fun e => length e = sz) es.

Section elements.
Context (sz : nat).
Implicit Types (es : list (list Z)).

Lemma elem_at_ok es k e :
  Forall (fun e => length e = sz) es -> es !! k = Some e ->
  elem_at (concat es) (Z.of_nat (k * sz)) (Z.of_nat sz) = e.
Proof.
  intros Hall Hk. destruct (concat_split sz es k e Hall Hk) as (l & r & E & Hl & _).
  unfold elem_at. rewrite !Nat2Z.id, E, <- Hl, drop_app_length. apply take_app_length'.
  symmetry. apply (Forall_lookup_1 _ _ _ _ Hall Hk).
Qed.

Lemma concat_aget es k e i :
  Forall (fun e => length e = sz) es -> es !! k = Some e -> (i < sz)%nat ->
  (concat es).[Z.of_nat (k * sz) + Z.of_nat i] = e !! i.
Proof.
  intros Hall Hk Hi. destruct (concat_split sz es k e Hall Hk) as (l & r & E & Hl & _).
  rewrite <- Nat2Z.inj_add, aget_nat, E, <- Hl, lookup_app_r by lia.
  rewrite Nat.add_comm, Nat.add_sub. apply lookup_app_l.
  by rewrite (Forall_lookup_1 _ _ _ _ Hall Hk).
Qed.

Lemma bytes_aset es k e i x :
  Forall (fun e => length e = sz) es -> es !! k = Some e -> (i < sz)%nat ->
  (concat es).[Z.of_nat (k * sz) + Z.of_nat i <- x] = concat (<[k := <[i := x]> e]> es).
Proof.
  intros Hall Hk Hi. destruct (concat_split sz es k e Hall Hk) as (l & r & E & Hl & Hu).
  unfold aset. destruct (Z.ltb_spec (Z.of_nat (k * sz) + Z.of_nat i) 0); [lia|].
  rewrite Hu, E, <- Nat2Z.inj_add, Nat2Z.id, <- Hl, Nat.add_comm.
  rewrite insert_app_r_alt, Nat.add_sub by lia. f_equal. apply insert_app_l.
  by rewrite (Forall_lookup_1 _ _ _ _ Hall Hk).
Qed.

(** Two bytes of different elements are exchanged. *)
Lemma swap_bytes_ok es a b ea eb i x y :
  Forall (fun e => length e = sz) es -> a <> b -> es !! a = Some ea -> es !! b = Some eb ->
  (i < sz)%nat -> 
  (concat es).[Z.of_nat (a * sz) + Z.of_nat i <- y].[Z.of_nat (b * sz) + Z.of_nat i <- x] =
  concat (<[b := <[i := x]> eb]> (<[a := <[i := y]> ea]> es)).
Proof.
  intros Hall Hab Ha Hb Hi. rewrite (bytes_aset es a ea) by done. apply bytes_aset; [|by rewrite list_lookup_insert_ne|done].
  apply Forall_insert; [done|]. rewrite length_insert. by apply (Forall_lookup_1 _ _ _ _ Hall Ha).
Qed.

(** [ea] with its first [i] bytes those of [eb]. *)
Definition mix (i : nat) (ea eb : list Z) : list Z := take i eb ++ drop i ea.

Lemma mix_step i ea eb x :
  length ea = length eb -> eb !! i = Some x -> <[i := x]> (mix i ea eb) = mix (S i) ea eb.
Proof.
  intros Hl Hx. pose proof (lookup_lt_Some _ _ _ Hx). unfold mix.
  rewrite insert_app_r_alt by (rewrite length_take; lia). rewrite length_take_le, Nat.sub_diag by lia.
  destruct (lookup_lt_is_Some_2 ea i) as [y Hy]; [lia|]. rewrite (drop_S _ _ _ Hy). simpl.
  by rewrite (take_S_r _ _ _ Hx), <- app_assoc.
Qed.

Lemma mix_lookup i ea eb : length ea = length eb -> (i < length ea)%nat -> mix i ea eb !! i = ea !! i.
Proof.
  intros Hl Hi. unfold mix. rewrite lookup_app_r by (rewrite length_take; lia).
  rewrite length_take_le, Nat.sub_diag, lookup_drop by lia. f_equal. lia.
Qed.

Lemma do_swap_ok es a b ea eb :
  Forall (fun e => length e = sz) es -> a <> b -> es !! a = Some ea -> es !! b = Some eb ->
  Z.of_nat (length es * sz) < 2 ^ 31 ->
  wp (do_swap (Z.of_nat a + 1) (Z.of_nat b + 1) (Z.of_nat sz))
    (fun _ bytes => bytes = concat (<[b := ea]> (<[a := eb]> es))) (concat es).
Proof.
  intros Hall Hab Ha Hb Hlt. pose proof (lookup_lt_Some _ _ _ Ha). pose proof (lookup_lt_Some _ _ _ Hb).
  pose proof (Forall_lookup_1 _ _ _ _ Hall Ha) as Hla. pose proof (Forall_lookup_1 _ _ _ _ Hall Hb) as Hlb.
  simpl in Hla, Hlb.
  assert (forall k, (k < length es)%nat -> u32 (u32 (Z.of_nat k + 1 - 1) * Z.of_nat sz) = Z.of_nat (k * sz)) as Hofs.
  { intros k Hk. assert (k * sz <= length es * sz)%nat by (apply Nat.mul_le_mono_r; lia).
    destruct (decide (sz = 0)%nat) as [->|]; [by rewrite Nat.mul_0_r, Z.mul_0_r|].
    assert (k <= k * sz)%nat by nia. replace (Z.of_nat k + 1 - 1) with (Z.of_nat k) by lia.
    rewrite (wrap_small 32 (Z.of_nat k)), <- Nat2Z.inj_mul by lia. apply wrap_small. lia. }
  unfold do_swap. rewrite !Hofs by done. rewrite Nat2Z.id. set (es_ i := <[b := mix i eb ea]> (<[a := mix i ea eb]> es)).
  assert (forall i, (i <= sz)%nat -> Forall (fun e => length e = sz) (es_ i) /\
    es_ i !! a = Some (mix i ea eb) /\ es_ i !! b = Some (mix i eb ea)) as Hes.
  { intros i Hi. unfold es_, mix. split_and!.
    - apply Forall_insert; [apply Forall_insert; [done|]|]; rewrite length_app, length_take, length_drop; lia.
    - by rewrite list_lookup_insert_ne, list_lookup_insert_eq by done.
    - rewrite list_lookup_insert_eq; [done|]. by rewrite length_insert. }
  eapply wp_mono.
  - apply (wp_for (fun i bytes => bytes = concat (es_ (Z.to_nat i)))).
    + intros i bytes Hi ->. assert (exists j, i = Z.of_nat j /\ (j < sz)%nat) as (j & -> & Hj)
        by (exists (Z.to_nat i); lia).
      rewrite Nat2Z.id. destruct (Hes j) as (H1 & H2 & H3); [lia|].
      destruct (lookup_lt_is_Some_2 ea j) as [x Hx]; [lia|].
      destruct (lookup_lt_is_Some_2 eb j) as [y Hy]; [lia|].
      do 3 wp_step. eapply wp_deref; [rewrite (concat_aget _ a (mix j ea eb)), mix_lookup by (done || lia); exact Hx|].
      wp_step. eapply wp_deref; [rewrite (concat_aget _ b (mix j eb ea)), mix_lookup by (done || lia); exact Hy|].
      wp_step. rewrite (swap_bytes_ok _ a b (mix j ea eb) (mix j eb ea)) by (done || lia).
      rewrite !mix_step by (done || lia). replace (Z.to_nat (Z.of_nat j + 1)) with (S j) by lia. f_equal.
      unfold es_. rewrite (list_insert_insert_ne _ b a) by done. rewrite !list_insert_insert_eq.
      rewrite list_insert_insert_ne by done. by rewrite list_insert_insert_eq.
    + unfold es_, mix. simpl. by rewrite (list_insert_id es a), (list_insert_id es b).
  - intros [] bytes. cbv beta. intros ->. unfold es_, mix. replace (Z.to_nat _) with sz by lia.
    rewrite !take_ge, !drop_ge, !app_nil_r by lia. done.
Qed.
End elements.

(** ** Heaps *)
(** A [strcmp]-type comparison: its sign is a total preorder. *)
Class Comparator (compare : list Z -> list Z -> Z) : Prop := {
  cmp_flip : forall a b, 0 < compare a b <-> compare b a < 0;
  cmp_trans : forall a b c, compare a b <= 0 -> compare b c <= 0 -> compare a c <= 0
}.

Section heaps.
Context (compare : list Z -> list Z -> Z) `{HC : !Comparator compare} (sz : nat).
Implicit Types (es : list (list Z)).

Abbreviation le a b := (compare a b <= 0).

Lemma le_refl a : le a a.
Proof. pose proof (cmp_flip a a). lia. Qed.

Lemma le_total a b : 0 < compare a b -> le b a.
Proof. intros H. apply cmp_flip in H. lia. Qed.

(** Element with the 1-based index [i]. *)
Definition at1 es (i : Z) : option (list Z) := if i <=? 0 then None else es !! Z.to_nat (i - 1).

Definition child (i j : Z) : Prop := j = 2 * i \/ j = 2 * i + 1.

(** The node [i] is not below its children among the first [cnt]. *)
Definition node_ok es (cnt i : Z) : Prop :=
  forall j x y, child i j -> j <= cnt -> at1 es i = Some x -> at1 es j = Some y -> le y x.

(** From the node [lo] on, every node is in order. *)
Definition heap es (lo cnt : Z) : Prop := forall i, lo <= i -> node_ok es cnt i.

Lemma at1_lt es i x : at1 es i = Some x -> 1 <= i <= Z.of_nat (length es).
Proof. unfold at1. destruct (Z.leb_spec i 0); [done|]. intros ?%lookup_lt_Some. lia. Qed.

Lemma at1_is_Some es i : 1 <= i <= Z.of_nat (length es) -> exists x, at1 es i = Some x.
Proof.
  intros Hi. unfold at1. destruct (Z.leb_spec i 0); [lia|]. apply lookup_lt_is_Some_2. lia.
Qed.

(** Exchanging two elements. *)
Definition exchange es (i j : Z) (x y : list Z) : list (list Z) :=
  <[Z.to_nat (j - 1) := x]> (<[Z.to_nat (i - 1) := y]> es).

Lemma at1_exchange es i j x y k :
  at1 es i = Some x -> at1 es j = Some y -> i <> j ->
  at1 (exchange es i j x y) k = if k =? i then Some y else if k =? j then Some x else at1 es k.
Proof.
  intros Hi Hj Hij. pose proof (at1_lt _ _ _ Hi). pose proof (at1_lt _ _ _ Hj). unfold at1, exchange.
  destruct (Z.leb_spec k 0); [destruct (Z.eqb_spec k i), (Z.eqb_spec k j); lia || done|].
  destruct (Z.eqb_spec k j) as [->|].
  - rewrite (proj2 (Z.eqb_neq j i)) by lia. apply list_lookup_insert_eq. rewrite length_insert. lia.
  - rewrite list_lookup_insert_ne by lia. destruct (Z.eqb_spec k i) as [->|].
    + apply list_lookup_insert_eq. lia.
    + by rewrite list_lookup_insert_ne by lia.
Qed.

Lemma exchange_perm es i j x y :
  at1 es i = Some x -> at1 es j = Some y -> exchange es i j x y ≡ₚ es.
Proof.
  unfold at1, exchange. destruct (i <=? 0), (j <=? 0); try done. intros Hi Hj. by apply Permutation_insert_swap.
Qed.

Lemma do_compare_ok es i j x y :
  Forall (fun e => length e = sz) es -> at1 es i = Some x -> at1 es j = Some y ->
  Z.of_nat (length es * sz) < 2 ^ 31 -> (0 < sz)%nat ->
  do_compare compare i j (Z.of_nat sz) (concat es) = Ok (compare x y, concat es).
Proof.
  intros Hall Hi Hj Hlt Hsz. unfold do_compare. bind. unfold get.
  assert (forall k z, at1 es k = Some z -> u32 (u32 (k - 1) * Z.of_nat sz) = Z.of_nat (Z.to_nat (k - 1) * sz) /\
    es !! Z.to_nat (k - 1) = Some z /\ (S (Z.to_nat (k - 1)) * sz <= length es * sz)%nat) as Hk.
  { intros k z Hk. pose proof (at1_lt _ _ _ Hk) as Hb. unfold at1 in Hk. destruct (Z.leb_spec k 0); [lia|].
    assert (S (Z.to_nat (k - 1)) * sz <= length es * sz)%nat by (apply Nat.mul_le_mono_r; lia).
    assert (length es <= length es * sz)%nat by nia. split_and!; [|done|done].
    rewrite (wrap_small 32 (k - 1)) by lia. rewrite Nat2Z.inj_mul, Z2Nat.id by lia. apply wrap_small. nia. }
  destruct (Hk i x Hi) as (-> & Hi' & Bi), (Hk j y Hj) as (-> & Hj' & Bj).
  unfold alen. rewrite (concat_length sz) by done.
  rewrite !(proj2 (Z.leb_le _ _)) by lia. simpl. by rewrite !(elem_at_ok sz es _ _ Hall) by done.
Qed.

Lemma swap_ok es i j x y :
  Forall (fun e => length e = sz) es -> i <> j -> at1 es i = Some x -> at1 es j = Some y ->
  Z.of_nat (length es * sz) < 2 ^ 31 ->
  wp (do_swap i j (Z.of_nat sz)) (fun _ bytes => bytes = concat (exchange es i j x y)) (concat es).
Proof.
  intros Hall Hij Hi Hj Hlt. pose proof (at1_lt _ _ _ Hi). pose proof (at1_lt _ _ _ Hj).
  unfold at1 in Hi, Hj. destruct (Z.leb_spec i 0), (Z.leb_spec j 0); try lia.
  replace i with (Z.of_nat (Z.to_nat (i - 1)) + 1) at 1 by lia.
  replace j with (Z.of_nat (Z.to_nat (j - 1)) + 1) at 1 by lia.
  eapply wp_mono; [by apply do_swap_ok; try done; lia|]. done.
Qed.

Lemma Forall_exchange es i j x y :
  Forall (fun e => length e = sz) es -> at1 es i = Some x -> at1 es j = Some y ->
  Forall (fun e => length e = sz) (exchange es i j x y).
Proof. intros Hall Hi Hj. by rewrite exchange_perm. Qed.

(** What [heapify] keeps: [es] is [es0] with the elements [lo] to [cnt] moved
    among themselves. *)
Record moved es0 es (lo cnt : Z) : Prop := {
  mv_all : Forall (fun e => length e = sz) es;
  mv_perm : es ≡ₚ es0;
  mv_out : forall k, k < lo \/ cnt < k -> at1 es k = at1 es0 k;
  mv_from : forall k x, lo <= k <= cnt -> at1 es k = Some x -> exists k', lo <= k' <= cnt /\ at1 es0 k' = Some x
}.

Lemma moved_refl es lo cnt : Forall (fun e => length e = sz) es -> moved es es lo cnt.
Proof. intros Hall. split; eauto. Qed.

Lemma moved_length es0 es lo cnt : moved es0 es lo cnt -> length es = length es0.
Proof. intros []. by apply Permutation_length. Qed.

Lemma moved_exchange es0 es lo cnt i j x y :
  moved es0 es lo cnt -> lo <= i <= cnt -> lo <= j <= cnt -> i <> j ->
  at1 es i = Some x -> at1 es j = Some y -> moved es0 (exchange es i j x y) lo cnt.
Proof.
  intros [H1 H2 H3 H4] Hi Hj Hij Hx Hy. split.
  - by apply Forall_exchange.
  - by rewrite exchange_perm.
  - intros k Hk. rewrite at1_exchange by done.
    destruct (Z.eqb_spec k i), (Z.eqb_spec k j); try lia. by apply H3.
  - intros k z Hk. rewrite at1_exchange by done.
    destruct (Z.eqb_spec k i); [intros [= <-]; by apply (H4 j y)|].
    destruct (Z.eqb_spec k j); [intros [= <-]; by apply (H4 i x)|by apply H4].
Qed.

(** The element at [i] is on its way down: all other nodes are in order, and
    the children of [i] are in order with its parent. *)
Record sifting es (lo cnt i : Z) : Prop := {
  si_i : lo <= i <= cnt;
  si_nodes : forall k, lo <= k -> k <> i -> node_ok es cnt k;
  si_up : forall k j x y, lo <= k -> child k i -> child i j -> j <= cnt ->
    at1 es k = Some x -> at1 es j = Some y -> le y x
}.

Lemma child_parent i j k : child i k -> child j k -> i = j.
Proof. unfold child. lia. Qed.

Lemma sifting_step es lo cnt i j x y :
  1 <= lo -> sifting es lo cnt i -> child i j -> j <= cnt ->
  at1 es i = Some x -> at1 es j = Some y -> le x y ->
  (forall k z, child i k -> k <= cnt -> at1 es k = Some z -> le z y) ->
  sifting (exchange es i j x y) lo cnt j.
Proof.
  intros Hlo [S1 S2 S3] Hij Hj Hx Hy Hle Hmax. assert (i < j) by (unfold child in Hij; lia).
  assert (forall k, at1 (exchange es i j x y) k = if k =? i then Some y else if k =? j then Some x else at1 es k) as Hat.
  { intros k. apply at1_exchange; try done. lia. }
  split; [lia|..].
  - intros k Hk Hkj c u v Hc Hcc. rewrite !Hat. rewrite (proj2 (Z.eqb_neq k j)) by done.
    destruct (Z.eqb_spec k i) as [->|Hki].
    + intros [= <-]. rewrite (proj2 (Z.eqb_neq c i)) by (unfold child in Hc; lia).
      destruct (Z.eqb_spec c j); [by intros [= <-]|]. by apply Hmax.
    + intros Hu. assert (c <> j) by (intros ->; by apply Hki, (child_parent _ _ j)).
      rewrite (proj2 (Z.eqb_neq c j)) by done. destruct (Z.eqb_spec c i) as [->|].
      * intros [= <-]. by eapply (S3 k j).
      * intros Hv. by eapply (S2 k).
  - intros k c u v Hk Hkj Hjc Hcc. assert (k = i) as -> by (by apply (child_parent _ _ j)).
    rewrite !Hat, Z.eqb_refl. intros [= <-].
    rewrite (proj2 (Z.eqb_neq c i)), (proj2 (Z.eqb_neq c j)) by (unfold child in *; lia).
    intros Hv. apply (S2 j ltac:(lia) ltac:(lia) c y v); done.
Qed.

Lemma sifting_done es lo cnt i x :
  sifting es lo cnt i -> at1 es i = Some x ->
  (forall k z, child i k -> k <= cnt -> at1 es k = Some z -> le z x) -> heap es lo cnt.
Proof.
  intros [S1 S2 S3] Hx Hmax k Hk. destruct (decide (k = i)) as [->|]; [|by apply S2].
  intros c u v Hc Hcc Hu Hv. simplify_eq. by eapply Hmax.
Qed.

(** The comparison with one child. *)
Lemma pick_ok es cnt i j x :
  Forall (fun e => length e = sz) es -> Z.of_nat (length es * sz) < 2 ^ 31 -> (0 < sz)%nat ->
  cnt <= Z.of_nat (length es) -> at1 es i = Some x -> 0 < j ->
  wp (if j <=? cnt then c ← do_compare compare j i (Z.of_nat sz); mret (if 0 <? c then j else i) else mret i)
    (fun r bytes => bytes = concat es /\ exists y, at1 es r = Some y /\ le x y /\
       (r = i \/ r = j /\ j <= cnt) /\ (j <= cnt -> forall z, at1 es j = Some z -> le z y)) (concat es).
Proof.
  intros Hall Hlt Hsz Hcnt Hx Hj. destruct (Z.leb_spec j cnt) as [Hle|Hgt].
  - destruct (at1_is_Some es j) as [z Hz]; [lia|]. wp_step.
    eapply wp_eq; [by apply (do_compare_ok es j i z x)|]. wp_step. split; [done|].
    destruct (Z.ltb_spec 0 (compare z x)) as [Hgt|Hngt].
    + exists z. split_and!; [done|by apply le_total|by right|]. intros _ z' Hz'. simplify_eq. apply le_refl.
    + exists x. split_and!; [done|apply le_refl|by left|]. intros _ z' Hz'. by simplify_eq.
  - wp_step. split; [done|]. exists x. split_and!; [done|apply le_refl|by left|lia].
Qed.

Lemma heapify_ok es0 i0 cnt :
  Forall (fun e => length e = sz) es0 -> Z.of_nat (length es0 * sz) < 2 ^ 31 -> (0 < sz)%nat ->
  1 <= i0 <= cnt -> cnt <= Z.of_nat (length es0) -> heap es0 (i0 + 1) cnt ->
  wp (heapify compare i0 cnt (Z.of_nat sz))
    (fun _ bytes => exists es, bytes = concat es /\ moved es0 es i0 cnt /\ heap es i0 cnt) (concat es0).
Proof.
  intros Hall0 Hlt Hsz Hi0 Hcnt Hheap. assert (length es0 <= length es0 * sz)%nat by nia. unfold heapify.
  apply (wp_loop (fun n i bytes => exists es, bytes = concat es /\ moved es0 es i0 cnt /\ sifting es i0 cnt i /\
    n = Z.to_nat (cnt - i))) with (n := Z.to_nat (cnt - i0)); [| |lia].
  2: { exists es0. split_and!; [done|by apply moved_refl| |done]. split; [lia|intros k ? ?; apply Hheap; lia|].
       intros k j x y ? Hk. unfold child in Hk. lia. }
  intros n i bytes (es & -> & Hmv & Hsi & ->). pose proof (moved_length _ _ _ _ Hmv) as Hlen.
  pose proof (mv_all _ _ _ _ Hmv) as Hall. pose proof (si_i _ _ _ _ Hsi) as Hi.
  destruct (at1_is_Some es i) as [x Hx]; [lia|].
  rewrite !wrap_small by lia. wp_step. eapply wp_mono; [apply (pick_ok es cnt i (2 * i) x); try done; lia|].
  intros m1 bytes (-> & y1 & Hy1 & Hle1 & Hm1 & Hmax1). wp_step.
  eapply wp_mono; [apply (pick_ok es cnt m1 (2 * i + 1) y1); try done; lia|].
  intros m2 bytes (-> & y2 & Hy2 & Hle2 & Hm2 & Hmax2).
  assert (forall k z, child i k -> k <= cnt -> at1 es k = Some z -> le z y2) as Hmax.
  { intros k z [->| ->] Hk Hz; [|by apply Hmax2]. eapply cmp_trans; [by apply Hmax1|done]. }
  assert (le x y2) as Hlexy by (by eapply cmp_trans).
  destruct (Z.eqb_spec m2 i) as [->|Hne]; wp_step.
  - exists es. simplify_eq. split_and!; [done|done|by eapply sifting_done].
  - assert (child i m2 /\ m2 <= cnt) as [Hc2 Hm2c] by (unfold child; lia).
    assert (i < m2) by (unfold child in Hc2; lia).
    eapply wp_mono; [apply (swap_ok es i m2 x y2); try done; by rewrite Hlen|].
    intros [] bytes. cbv beta. intros ->. wp_step. exists (Z.to_nat (cnt - m2)). split; [lia|].
    exists (exchange es i m2 x y2). split_and!; [done| |by apply sifting_step; try done; lia|done].
    apply moved_exchange; try done; lia.
Qed.
End heaps.

Section sorting.
Context (compare : list Z -> list Z -> Z) `{HC : !Comparator compare} (sz : nat).
Implicit Types (es : list (list Z)).

Abbreviation le a b := (compare a b <= 0).

Lemma heap_root es cnt j x y :
  heap compare es 1 cnt -> cnt <= Z.of_nat (length es) -> 1 <= j <= cnt ->
  at1 es 1 = Some x -> at1 es j = Some y -> le y x.
Proof.
  intros Hh Hcnt Hj Hx. assert (0 <= j) as H0 by lia. revert y Hj. pattern j. apply Z_lt_induction; [|done].
  clear j H0. intros j IH y Hj Hy. destruct (decide (j = 1)) as [->|]; [simplify_eq; apply le_refl; done|].
  assert (child (j / 2) j) as Hc by (unfold child; pose proof (Z.div_mod j 2); pose proof (Z.mod_pos_bound j 2); lia).
  assert (1 <= j / 2 < j) as Hb by (unfold child in Hc; lia).
  destruct (at1_is_Some es (j / 2)) as [p Hp]; [lia|].
  eapply cmp_trans; [|apply (IH (j / 2)); [lia|lia|done]]. eapply (Hh (j / 2)); [lia|done|lia|done|done].
Qed.

(** The elements after the first [i] are in their final place. *)
Definition sorted_from es (i : Z) : Prop :=
  forall a b x y, a < b -> i < b -> at1 es a = Some x -> at1 es b = Some y -> le x y.

(** The largest element of the heap goes to the end of it. *)
Lemma extract_ok es i x y :
  heap compare es 1 i -> sorted_from es i -> 1 < i <= Z.of_nat (length es) ->
  at1 es 1 = Some x -> at1 es i = Some y ->
  sorted_from (exchange es 1 i x y) (i - 1) /\ heap compare (exchange es 1 i x y) 2 (i - 1).
Proof.
  intros Hh Hs Hi Hx Hy.
  assert (forall k, at1 (exchange es 1 i x y) k = if k =? 1 then Some y else if k =? i then Some x else at1 es k) as Hat.
  { intros k. apply at1_exchange; try done. lia. }
  assert (forall k z, k < i -> at1 (exchange es 1 i x y) k = Some z ->
    exists k', 1 <= k' <= i /\ at1 es k' = Some z) as Hpre.
  { intros k z Hk. rewrite Hat. destruct (Z.eqb_spec k 1); [intros [= <-]; exists i; split; [lia|done]|].
    rewrite (proj2 (Z.eqb_neq k i)) by lia. intros Hz. exists k. pose proof (at1_lt _ _ _ Hz). split; [lia|done]. }
  split.
  - intros a b u v Hab Hb Hu. destruct (decide (b = i)) as [->|Hbi].
    + rewrite Hat, (proj2 (Z.eqb_neq i 1)), Z.eqb_refl by lia. intros [= <-].
      destruct (Hpre a u Hab Hu) as (k & Hk & Hku). by eapply (heap_root es i k x u Hh); try lia.
    + rewrite Hat, (proj2 (Z.eqb_neq b 1)), (proj2 (Z.eqb_neq b i)) by lia. intros Hv.
      destruct (decide (a < i)) as [Hai|Hai].
      * destruct (Hpre a u Hai Hu) as (k & Hk & Hku). apply (Hs k b); try done; lia.
      * rewrite Hat, (proj2 (Z.eqb_neq a 1)) in Hu by lia. destruct (Z.eqb_spec a i) as [->|].
        -- injection Hu as <-. apply (Hs 1 b); try done; lia.
        -- apply (Hs a b); try done; lia.
  - intros k Hk c u v Hc Hcc. rewrite !Hat.
    rewrite (proj2 (Z.eqb_neq k 1)), (proj2 (Z.eqb_neq k i)), (proj2 (Z.eqb_neq c 1)), (proj2 (Z.eqb_neq c i))
      by (unfold child in Hc; lia).
    intros Hu Hv. apply (Hh k ltac:(lia) c u v); try done. lia.
Qed.

Lemma sorted_from_moved es0 es i :
  moved sz es0 es 1 i -> sorted_from es0 i -> sorted_from es i.
Proof.
  intros Hm Hs a b x y Hab Hb Hx Hy. rewrite (mv_out _ _ _ _ _ Hm b) in Hy by lia.
  destruct (decide (a <= i)).
  - pose proof (at1_lt _ _ _ Hx). destruct (mv_from _ _ _ _ _ Hm a x) as (k & Hk & Hkx); [lia|done|].
    apply (Hs k b); try done; lia.
  - rewrite (mv_out _ _ _ _ _ Hm a) in Hx by lia. by apply (Hs a b).
Qed.

Lemma build_ok es0 :
  Forall (fun e => length e = sz) es0 -> Z.of_nat (length es0 * sz) < 2 ^ 31 -> (0 < sz)%nat ->
  let cnt := Z.of_nat (length es0) in
  wp (for_ (Z.to_nat (cnt / 2)) 0 (fun j => heapify compare (cnt / 2 - j) cnt (Z.of_nat sz)))
    (fun _ bytes => exists es, bytes = concat es /\ Forall (fun e => length e = sz) es /\ es ≡ₚ es0 /\
       heap compare es 1 cnt) (concat es0).
Proof.
  intros Hall0 Hlt Hsz cnt. pose proof (Z.div_mod cnt 2 ltac:(lia)) as Hdm.
  pose proof (Z.mod_pos_bound cnt 2 ltac:(lia)) as Hmp. eapply wp_mono.
  - apply (wp_for (fun j bytes => exists es, bytes = concat es /\ Forall (fun e => length e = sz) es /\ es ≡ₚ es0 /\
      heap compare es (cnt / 2 - j + 1) cnt)).
    + intros j bytes Hj (es & -> & Hall & Hp & Hh). pose proof (Permutation_length Hp) as Hlen.
      eapply wp_mono; [apply (heapify_ok compare sz es (cnt / 2 - j) cnt); try done; [by rewrite Hlen|lia..]|].
      intros [] bytes (es' & -> & Hmv & Hh'). exists es'. split_and!; [done|apply Hmv|by rewrite (mv_perm _ _ _ _ _ Hmv)|].
      by replace (cnt / 2 - (j + 1) + 1) with (cnt / 2 - j) by lia.
    + exists es0. split_and!; [done..|]. intros i Hi c x y Hc Hcc. unfold child in Hc. lia.
  - intros [] bytes (es & -> & ? & ? & Hh). exists es. split_and!; [done..|].
    by replace (cnt / 2 - (0 + Z.of_nat (Z.to_nat (cnt / 2))) + 1) with 1 in Hh by lia.
Qed.

Lemma sort_ok es0 :
  Forall (fun e => length e = sz) es0 -> Z.of_nat (length es0 * sz) < 2 ^ 31 -> (0 < sz)%nat ->
  wp (sort compare (Z.of_nat (length es0)) (Z.of_nat sz))
    (fun _ bytes => exists es, bytes = concat es /\ es ≡ₚ es0 /\ sorted_from es 1) (concat es0).
Proof.
  intros Hall0 Hlt Hsz. unfold sort. do 2 wp_step. set (cnt := Z.of_nat (length es0)). wp_step.
  eapply wp_mono; [by apply build_ok|]. intros [] bytes (es1 & -> & Hall1 & Hp1 & Hh1). eapply wp_mono.
  - apply (wp_for (fun j bytes => exists es, bytes = concat es /\ Forall (fun e => length e = sz) es /\ es ≡ₚ es0 /\
      heap compare es 1 (cnt - j) /\ sorted_from es (cnt - j))).
    + intros j bytes Hj (es & -> & Hall & Hp & Hh & Hs). pose proof (Permutation_length Hp) as Hlen.
      destruct (at1_is_Some es 1) as [x Hx]; [lia|]. destruct (at1_is_Some es (cnt - j)) as [y Hy]; [lia|].
      wp_step. eapply wp_mono; [apply (swap_ok sz es 1 (cnt - j) x y); try done; [lia|by rewrite Hlen]|].
      intros [] bytes. cbv beta. intros ->.
      destruct (extract_ok es (cnt - j) x y Hh Hs) as [Hs' Hh']; [lia|done|done|].
      assert (exchange es 1 (cnt - j) x y ≡ₚ es0) as Hp' by (by rewrite exchange_perm).
      pose proof (Permutation_length Hp') as Hlen'.
      eapply wp_mono; [apply (heapify_ok compare sz _ 1 (cnt - j - 1)); try done; [by apply Forall_exchange|by rewrite Hlen'|lia..]|].
      intros [] bytes (es' & -> & Hmv & Hh2). exists es'. replace (cnt - (j + 1)) with (cnt - j - 1) by lia.
      split_and!; [done|apply Hmv|by rewrite (mv_perm _ _ _ _ _ Hmv)|done|by eapply sorted_from_moved].
    + exists es1. rewrite Z.sub_0_r. split_and!; [done..|]. intros a b x y Hab Hb _ Hy%at1_lt.
      pose proof (Permutation_length Hp1). lia.
  - intros [] bytes (es & -> & _ & Hp & _ & Hs). exists es. split_and!; [done..|].
    intros a b x y Hab Hb Hx Hy. apply (Hs a b x y); try done. pose proof (at1_lt _ _ _ Hx). lia.
Qed.
End sorting.

(** ** Searching *)
Section searching.
Context (compare : list Z -> list Z -> Z) `{HC : !Comparator compare} (sz : nat) (es : list (list Z)) (key : list Z).
Hypothesis Hall : Forall (fun e => length e = sz) es.
Hypothesis Hsz : (0 < sz)%nat.
Hypothesis Hsorted : forall i j x y, (i < j)%nat -> es !! i = Some x -> es !! j = Some y -> compare x y <= 0.

Lemma sorted_le i j x y : (i <= j)%nat -> es !! i = Some x -> es !! j = Some y -> compare x y <= 0.
Proof.
  intros Hij Hx Hy. destruct (decide (i = j)) as [->|]; [simplify_eq; by apply le_refl|].
  by eapply (Hsorted i j); [lia|..].
Qed.

Lemma below_key i j x y :
  (j <= i)%nat -> es !! i = Some x -> es !! j = Some y -> 0 < compare key x -> 0 < compare key y.
Proof.
  intros Hij Hx Hy Hk. pose proof (sorted_le j i y x Hij Hy Hx) as Hle.
  destruct (decide (0 < compare key y)); [done|].
  assert (compare key x <= 0) by (eapply cmp_trans; [|exact Hle]; lia). lia.
Qed.

Lemma above_key i j x y :
  (i <= j)%nat -> es !! i = Some x -> es !! j = Some y -> compare key x < 0 -> compare key y < 0.
Proof.
  intros Hij Hx Hy Hk. pose proof (sorted_le i j x y Hij Hx Hy) as Hle.
  destruct (decide (0 < compare y key)) as [Hg|Hg]; [by apply cmp_flip|].
  assert (compare x key <= 0) by (eapply cmp_trans; [exact Hle|lia]). apply cmp_flip in Hk. lia.
Qed.

Lemma binary_search_ok :
  wp (binary_search compare key (Z.of_nat (length es)) (Z.of_nat sz)) (fun r bytes => bytes = concat es /\
    match r with
    | Some ofs => exists k e, ofs = Z.of_nat (k * sz) /\ es !! k = Some e /\ compare key e = 0
    | None => forall k e, es !! k = Some e -> compare key e <> 0
    end) (concat es).
Proof.
  unfold binary_search. do 2 wp_step.
  apply (wp_loop (fun n '(first, last) bytes => bytes = concat es /\ exists a b : nat,
    first = Z.of_nat (a * sz) /\ last = Z.of_nat (b * sz) /\ (a <= b <= length es)%nat /\ n = (b - a)%nat /\
    (forall k e, es !! k = Some e -> (k < a)%nat -> 0 < compare key e) /\
    (forall k e, es !! k = Some e -> (b <= k)%nat -> compare key e < 0))) with (n := length es); [| |lia].
  2: { split; [done|]. exists 0%nat, (length es). split_and!; [done|lia..|].
       intros k e Hk. apply lookup_lt_Some in Hk. lia. }
  intros n [first last] bytes [-> (a & b & -> & -> & Hab & -> & Hlo & Hhi)].
  destruct (Z.ltb_spec (Z.of_nat (a * sz)) (Z.of_nat (b * sz))) as [Hlt|Hge].
  2: { wp_step. split; [done|]. intros k e Hk E. assert (b <= a)%nat by nia.
       destruct (decide (k < a)%nat); [specialize (Hlo k e Hk); lia|specialize (Hhi k e Hk); lia]. }
  assert (a < b)%nat by nia. set (mid := (a + (b - a) / 2)%nat).
  assert (a <= mid < b)%nat as Hmid by (unfold mid; pose proof (Nat.div_lt (b - a) 2); lia).
  assert (Z.of_nat (a * sz) + (Z.of_nat (b * sz) - Z.of_nat (a * sz)) / Z.of_nat sz / 2 * Z.of_nat sz
    = Z.of_nat (mid * sz)) as ->.
  { replace (Z.of_nat (b * sz) - Z.of_nat (a * sz)) with (Z.of_nat (b - a) * Z.of_nat sz) by lia.
    rewrite Z.div_mul by lia. change 2 with (Z.of_nat 2). rewrite <- Nat2Z.inj_div. unfold mid. lia. }
  destruct (lookup_lt_is_Some_2 es mid) as [e He]; [lia|].
  wp_step. eapply wp_deref.
  { rewrite (proj2 (Z.leb_le _ _)); [done|]. unfold alen. rewrite (concat_length sz) by done. nia. }
  rewrite (elem_at_ok sz es mid e) by done.
  destruct (Z.ltb_spec (compare key e) 0) as [Hneg|Hnneg]; [|destruct (Z.ltb_spec 0 (compare key e)) as [Hpos|]]; wp_step.
  - exists (mid - a)%nat. split; [lia|]. split; [done|]. exists a, mid. split_and!; [done..|lia|lia|done|done|].
    intros k e' Hk Hmk. by eapply (above_key mid k).
  - exists (b - S mid)%nat. split; [lia|]. split; [done|]. exists (S mid), b. split_and!; [lia|lia|lia|lia|lia| |done].
    intros k e' Hk Hmk. eapply (below_key mid k); try done. lia.
  - split; [done|]. exists mid, e. split_and!; [done|done|lia].
Qed.
End searching.

(** ** Parsing numbers *)
Definition dec (ds : list Z) : Z := fold_left (fun v d => v * 10 + (d - 48)) ds 0.

(** The sign and the digits after leading white space. *)
Definition parse (s : list Z) : bool * list Z :=
  let digits r := take (prefix_len isdigit r) r in
  match drop (prefix_len isspace s) s with
  | [] => (false, [])
  | c :: r => if c =? 43 then (false, digits r) else if c =? 45 then (true, digits r) else (false, digits (c :: r))
  end.

Lemma dec_snoc ds x : dec (ds ++ [x]) = dec ds * 10 + (x - 48).
Proof. unfold dec. by rewrite fold_left_app. Qed.

Lemma dec_nonneg ds : Forall (fun d => isdigit d = true) ds -> 0 <= dec ds.
Proof.
  induction ds as [|x ds IH] using rev_ind; [done|]. rewrite Forall_app, Forall_singleton, dec_snoc.
  intros [Hds Hx]. specialize (IH Hds). unfold isdigit in Hx. lia.
Qed.

Lemma dec_prefix l k :
  Forall (fun d => isdigit d = true) (l ++ k) -> 0 <= dec l <= dec (l ++ k).
Proof.
  induction k as [|x k IH] using rev_ind.
  - rewrite app_nil_r. intros H. split; [by apply dec_nonneg|lia].
  - rewrite app_assoc, Forall_app, Forall_singleton, dec_snoc. intros [H Hx]. specialize (IH H).
    unfold isdigit in Hx. lia.
Qed.

Lemma digits_take s : Forall (fun d => isdigit d = true) (take (prefix_len isdigit s) s).
Proof.
  apply Forall_lookup_2. intros i x Hx. apply lookup_take_Some in Hx as [Hx Hi]. by eapply prefix_len_lookup.
Qed.

(** The loop over the digits accumulates the negated value. *)
Lemma digits_loop_ok m p s :
  str_at m p s -> dec (take (prefix_len isdigit s) s) <= 2 ^ 31 ->
  atoi_digits p m = Ok (- dec (take (prefix_len isdigit s) s), m).
Proof.
  intros Hs Hd. unfold atoi_digits. set (n := prefix_len isdigit s) in *. pose proof (digits_take s) as Hdig. fold n in Hdig.
  apply (sloop_eq (fun i => (p + Z.of_nat i, - dec (take i s))) _ m n); [f_equal; lia| | |].
  - intros i Hi. pose proof (prefix_len_le isdigit s) as Hn. fold n in Hn.
    destruct (str_char m p s i Hs) as (x & _ & E & _ & _ & Hsx); [lia|]. specialize (Hsx ltac:(lia)).
    bind. rewrite E. pose proof (prefix_len_lookup isdigit s i x Hi Hsx) as Hx. rewrite Hx.
    rewrite (take_S_r s i x Hsx), dec_snoc.
    assert (take n s = take (S i) s ++ drop (S i) (take n s)) as Etk.
    { rewrite <- (take_drop (S i) (take n s)) at 1. rewrite take_take. do 2 f_equal. lia. }
    pose proof (dec_prefix (take (S i) s) (drop (S i) (take n s))) as Hpre. rewrite <- Etk in Hpre.
    specialize (Hpre Hdig). rewrite (take_S_r s i x Hsx), dec_snoc in Hpre.
    unfold isdigit in Hx. do 3 f_equal. f_equal; [lia|].
    assert (0 <= dec (take i s)).
    { apply dec_nonneg. rewrite <- (take_drop i (take n s)), take_take, Nat.min_l in Hdig by lia.
      by apply Forall_app in Hdig as [? _]. }
    rewrite (swrap_small 32 (- dec (take i s) * 10)) by lia. rewrite swrap_small by lia. lia.
  - destruct (str_char m p s n Hs) as (x & _ & E & H0 & _ & Hsx); [apply prefix_len_le|]. bind. rewrite E.
    destruct (decide (n = length s)) as [Hl|Hl]; [by rewrite (proj2 H0 Hl)|].
    rewrite (prefix_len_stop isdigit s x); [done|]. apply Hsx. pose proof (prefix_len_le isdigit s) as Hn. fold n in Hn. lia.
  - apply str_size in Hs. pose proof (prefix_len_le isdigit s) as Hn. fold n in Hn. lia.
Qed.

Lemma atoi_ok m p s :
  str_at m p s -> let '(neg, ds) := parse s in dec ds + Z.b2z (negb neg) <= 2 ^ 31 ->
  atoi p m = Ok (if neg then - dec ds else dec ds, m).
Proof.
  intros Hs. unfold parse. set (k := prefix_len isspace s). pose proof (prefix_len_le isspace s) as Hk. fold k in Hk.
  pose proof (str_at_drop m p s k Hs Hk) as Hs1. set (p1 := p + Z.of_nat k) in *.
  assert (forall ds (neg : bool), 0 <= dec ds -> dec ds + Z.b2z (negb neg) <= 2 ^ 31 ->
    Ok (if neg then - dec ds else s32 (- - dec ds), m) = Ok (if neg then - dec ds else dec ds, m)) as Hfin.
  { intros ds neg H0 Hd. do 2 f_equal. destruct neg; simpl in Hd; [done|].
    rewrite Z.opp_involutive. apply swrap_small; lia. }
  assert (forall r, 0 <= dec (take (prefix_len isdigit r) r)) as Hnn by (intros r; apply dec_nonneg, digits_take).
  unfold atoi. bind. unfold assert. nn Hs.
  rewrite (scan_ok isspace (fun i => p + Z.of_nat i) _ m p s p1); [|done|lia|..].
  2: { intros i x _ -> _ _ HP. bind. rewrite HP. do 3 f_equal. lia. }
  2: { intros x -> _ Hcase. bind. destruct Hcase as [[-> _]|(_ & HP & _)]; [done|by rewrite HP]. }
  destruct (str_char m p1 (drop k s) 0 Hs1) as (c & Hc & E & _); [lia|]. rewrite Z.add_0_r in E. rewrite E.
  destruct (drop k s) as [|c' r] eqn:Ed; simpl in Hc; injection Hc as <-.
  - intros _. simpl. by rewrite (digits_loop_ok m p1 []) by done.
  - assert (str_at m (p1 + 1) r) as Hr by (apply (str_at_drop m p1 (c' :: r) 1 Hs1); simpl; lia).
    destruct (c' =? 43); [|destruct (c' =? 45)]; intros Hd; simpl in Hd.
    + rewrite (digits_loop_ok m (p1 + 1) r) by (done || lia). by apply (Hfin _ false).
    + rewrite (digits_loop_ok m (p1 + 1) r) by (done || lia). done.
    + rewrite (digits_loop_ok m p1 (c' :: r)) by (done || (simpl; lia)). by apply (Hfin _ false).
Qed.

(** ** The theorems *)

(** C27 [sort] sorts: whatever [strcmp]-type comparison it is given, it ends with
    the bytes of a permutation of the elements, in which no element is greater
    than one after it; whole elements move, no byte is lost or mixed. *)
Theorem sort_correct compare sz es `{HC : !Comparator compare} :
  Forall (fun e => length e = sz) es -> (0 < sz)%nat -> Z.of_nat (length es * sz) < 2 ^ 31 ->
  wp (sort compare (Z.of_nat (length es)) (Z.of_nat sz)) (fun _ bytes => exists es',
    bytes = concat es' /\ es' ≡ₚ es /\
    forall i j x y, (i < j)%nat -> es' !! i = Some x -> es' !! j = Some y -> compare x y <= 0) (concat es).
Proof.
  intros Hall Hsz Hlt. eapply wp_mono; [by apply sort_ok|]. intros [] bytes (es' & -> & Hp & Hs).
  exists es'. split_and!; [done..|]. intros i j x y Hij Hx Hy.
  assert (forall k z, es' !! k = Some z -> at1 es' (Z.of_nat k + 1) = Some z) as Hat.
  { intros k z Hk. unfold at1. rewrite (proj2 (Z.leb_gt _ _)) by lia. rewrite <- Hk. f_equal. lia. }
  apply (Hs (Z.of_nat i + 1) (Z.of_nat j + 1)); [lia|lia|by apply Hat..].
Qed.

(** The comparison of the first bytes. *)
Definition first_byte (a b : list Z) : Z := hd 0 a - hd 0 b.

#[export] Instance first_byte_comparator : Comparator first_byte.
Proof. split; unfold first_byte; lia. Qed.

Definition demo_elems : list (list Z) := [[3; 30]; [1; 10]; [2; 20]; [1; 11]].

Lemma sort_correct_witness :
  exists es', sort first_byte 4 2 (concat demo_elems) = Ok (tt, concat es') /\ es' ≡ₚ demo_elems.
Proof.
  destruct (proj1 (wp_iff _ _ _) (sort_correct first_byte 2 demo_elems
    ltac:(by repeat constructor) ltac:(lia) ltac:(simpl; lia))) as ([] & bytes & E & es' & -> & Hp & _).
  exists es'. split; [exact E|exact Hp].
Defined.

(** [binary_search] on a sorted array ends and returns the place of an
    element equal to the key, or none when there is no such element. *)
Theorem binary_search_correct compare sz es key `{HC : !Comparator compare} :
  Forall (fun e => length e = sz) es -> (0 < sz)%nat ->
  (forall i j x y, (i < j)%nat -> es !! i = Some x -> es !! j = Some y -> compare x y <= 0) ->
  wp (binary_search compare key (Z.of_nat (length es)) (Z.of_nat sz)) (fun r bytes => bytes = concat es /\
    match r with
    | Some ofs => exists k e, ofs = Z.of_nat (k * sz) /\ es !! k = Some e /\ compare key e = 0
    | None => forall k e, es !! k = Some e -> compare key e <> 0
    end) (concat es).
Proof. intros Hall Hsz Hs. by apply binary_search_ok. Qed.

Lemma binary_search_correct_witness :
  binary_search first_byte [2] 2 2 [1; 10; 2; 20] = Ok (Some 2, [1; 10; 2; 20]) /\
  exists r, binary_search first_byte [5] 2 2 [1; 10; 2; 20] = Ok (r, [1; 10; 2; 20]).
Proof.
  split; [by vm_compute|].
  destruct (proj1 (wp_iff _ _ _) (binary_search_correct first_byte 2 [[1; 10]; [2; 20]] [5]
    ltac:(by repeat constructor) ltac:(lia)
    ltac:(intros [|[|i]] [|[|j]] x y ? Hx Hy; try lia; simpl in *; simplify_eq; vm_compute; lia || done)))
    as (r & bytes & E & -> & _).
  exists r. exact E.
Defined.

(** 9 [atoi] skips white space, takes an optional sign and returns the number
    that the digits after it denote, for every number an [int] can hold,
    INT_MIN included; what follows the digits is ignored. *)
Theorem atoi_value m p s :
  str_at m p s -> dec (snd (parse s)) + Z.b2z (negb (fst (parse s))) <= 2 ^ 31 ->
  atoi p m = Ok (if fst (parse s) then - dec (snd (parse s)) else dec (snd (parse s)), m).
Proof.
  intros Hs Hd. pose proof (atoi_ok m p s Hs) as H. destruct (parse s) as [neg ds]. by apply H.
Qed.

(** " -42x" *)
Definition demo_number : mem := write ∅ 100 [32; 45; 52; 50; 120; 0].

Lemma atoi_value_witness : atoi 100 demo_number = Ok (-42, demo_number).
Proof.
  apply (atoi_value demo_number 100 [32; 45; 52; 50; 120]); [|vm_compute; done].
  split; [lia|apply write_in|repeat constructor; unfold is_byte; lia].
Defined.
