(* ===== verification/Krandom.v ===== *)
(** * The pseudo-random number generator (src/lib/random.c)

    RC4: a permutation of the 256 bytes and two indices.  The invariant is
    that the table stays a permutation, so that every index the generator
    computes is inside it and every byte it produces is in range. *)

From S2P Require Import Prelude.

Record rng := Rng { s_tab : list Z; s_i : Z; s_j : Z; inited : bool }.

(** [swap_byte (s + a, s + b)]. *)
Definition swap_byte (a b : Z) : M rng unit :=
  r ← get;
  x ← deref (s_tab r).[a];
  y ← deref (s_tab r).[b];
  put (Rng (s_tab r).[a <- y].[b <- x] (s_i r) (s_j r) (inited r)).

(** The bytes of an unsigned, the least significant first. *)
Definition seed_byte (seed k : Z) : Z := u8 (Z.shiftr seed (8 * k)).

Definition random_init (seed : Z) : M rng unit :=
  for_ 256 0 (fun i =>
    r ← get; _ ← deref (s_tab r).[i];
    put (Rng (s_tab r).[i <- u8 i] (s_i r) (s_j r) (inited r)));;
  _ ← for_acc 256 0 0 (fun i j =>
    r ← get; x ← deref (s_tab r).[i];
    let j := u8 (j + x + seed_byte seed (i mod 4)) in
    swap_byte i j;; mret j);
  modify (fun r => Rng (s_tab r) 0 0 true).

(** The bytes written to the buffer. *)
Definition random_bytes (size : Z) : M rng (list Z) :=
  r ← get;
  (if inited r then mret () else random_init 0);;
  for_acc (Z.to_nat size) 0 [] (fun _ buf =>
    modify (fun r => Rng (s_tab r) (u8 (s_i r + 1)) (s_j r) (inited r));;
    r ← get; x ← deref (s_tab r).[s_i r];
    put (Rng (s_tab r) (s_i r) (u8 (s_j r + x)) (inited r));;
    r ← get;
    swap_byte (s_i r) (s_j r);;
    r ← get;
    a ← deref (s_tab r).[s_i r];
    b ← deref (s_tab r).[s_j r];
    c ← deref (s_tab r).[u8 (a + b)];
    mret (buf ++ [c])).

Definition random_ulong : M rng Z :=
  bs ← random_bytes 4;
  mret (foldr (fun b v => b + 256 * v) 0 bs).

(** ** The invariant *)
Definition table : list Z := Z.of_nat <$> seq 0 256.

Record rng_ok (r : rng) : Prop := {
  rg_perm : s_tab r ≡ₚ table;
  rg_i : 0 <= s_i r < 256;
  rg_j : 0 <= s_j r < 256
}.

Lemma table_range x : x ∈ table -> 0 <= x < 256.
Proof. intros (k & -> & Hk%elem_of_seq)%list_elem_of_fmap. lia. Qed.

Lemma rng_get t i : t ≡ₚ table -> 0 <= i < 256 -> exists x, t.[i] = Some x /\ 0 <= x < 256.
Proof.
  intros Hp Hi. assert (exists x, t.[i] = Some x) as [x Hx].
  { apply aget_is_Some. unfold alen. rewrite (Permutation_length Hp). unfold table. rewrite length_fmap, length_seq. lia. }
  exists x. split; [done|]. apply aget_Some in Hx as [_ Hx]. apply table_range. rewrite <- Hp.
  by eapply list_elem_of_lookup_2.
Qed.

Lemma u8_range z : 0 <= u8 z < 256.
Proof. change 256 with (2 ^ 8). by apply wrap_range. Qed.

Lemma swap_byte_ok r a b :
  s_tab r ≡ₚ table -> 0 <= a < 256 -> 0 <= b < 256 ->
  wp (swap_byte a b) (fun _ r' => s_tab r' ≡ₚ table /\ s_i r' = s_i r /\ s_j r' = s_j r /\ inited r' = inited r) r.
Proof.
  intros Hp Ha Hb. destruct (rng_get _ a Hp Ha) as (x & Hx & _). destruct (rng_get _ b Hp Hb) as (y & Hy & _).
  unfold swap_byte. do 3 wp_step. eapply wp_deref; [exact Hx|]. wp_step. eapply wp_deref; [exact Hy|]. wp_step.
  simpl. split_and!; try done. rewrite <- Hp. unfold aset.
  apply aget_Some in Hx as [_ Hx]. apply aget_Some in Hy as [_ Hy].
  rewrite !(proj2 (Z.ltb_ge _ _)) by lia. by apply Permutation_insert_swap.
Qed.

(** The first loop fills the table with 0 to 255. *)
Lemma fill_ok r :
  length (s_tab r) = 256%nat ->
  wp (for_ 256 0 (fun i => r ← get; _ ← deref (s_tab r).[i];
    put (Rng (s_tab r).[i <- u8 i] (s_i r) (s_j r) (inited r)))) (fun _ r' => s_tab r' = table) r.
Proof.
  intros Hlen. eapply wp_mono.
  - apply (wp_for (fun i r' => length (s_tab r') = 256%nat /\ forall k, 0 <= k < i -> (s_tab r').[k] = Some k)).
    + intros i r' Hi [Hl Hk]. assert (0 <= i < alen (s_tab r')) as Hin by (unfold alen; lia).
      destruct (proj1 (aget_is_Some _ _) Hin) as [x Hx]. do 3 wp_step. eapply wp_deref; [exact Hx|]. wp_step. simpl. split.
      * pose proof (alen_aset (s_tab r') i (u8 i)). unfold alen in *. lia.
      * intros k Hk'. rewrite wrap_small by lia. rewrite aget_aset by done. case_decide; [by subst|]. apply Hk. lia.
    + split; [done|]. lia.
  - intros [] r' [Hl Hk]. apply alist_eq.
    + unfold alen, table. rewrite length_fmap, length_seq. lia.
    + unfold alen. intros i Hi. rewrite Hk by lia. unfold table, aget. rewrite (proj2 (Z.ltb_ge _ _)) by lia.
      rewrite list_lookup_fmap, lookup_seq_lt by lia. simpl. f_equal. lia.
Qed.

Lemma random_init_ok r seed :
  length (s_tab r) = 256%nat -> wp (random_init seed) (fun _ r' => rng_ok r' /\ inited r' = true) r.
Proof.
  intros Hlen. unfold random_init. wp_step. eapply wp_mono; [by apply fill_ok|]. intros [] r1 H1. cbv beta in H1.
  wp_step. eapply wp_mono.
  - apply (wp_for_acc (fun _ j r' => s_tab r' ≡ₚ table /\ 0 <= j < 256)).
    + intros i j r' Hi [Hp Hj]. destruct (rng_get _ i Hp) as (x & Hx & _); [lia|].
      do 3 wp_step. eapply wp_deref; [exact Hx|]. wp_step.
      eapply wp_mono; [apply swap_byte_ok; [done|lia|apply u8_range]|]. intros [] r2 (Hp2 & _). wp_step.
      split; [done|apply u8_range].
    + rewrite H1. split; [done|lia].
  - intros j r' [Hp _]. wp_step. split; [|done]. split; simpl; [done|lia|lia].
Qed.

(** A computation that uses the table only. *)
Definition same_tab (r1 r2 : rng) : Prop := s_tab r1 = s_tab r2.
Definition tab_only {A} (m : M rng A) : Prop := forall r1 r2, same_tab r1 r2 ->
  match m r1, m r2 with Ok (a, r1'), Ok (b, r2') => a = b /\ same_tab r1' r2' | Err e, Err e' => e = e' | _, _ => False end.

Lemma tab_only_bind {A B} (m : M rng A) (f : A -> M rng B) : tab_only m -> (forall a, tab_only (f a)) -> tab_only (mbind f m).
Proof.
  intros Hm Hf r1 r2 Hr. unfold mbind, M_bind. specialize (Hm r1 r2 Hr). destruct (m r1) as [[a r1']|], (m r2) as [[b r2']|]; try done. destruct Hm as [<- Hr']. by apply Hf.
Qed.

Lemma tab_only_for_acc {A} (body : Z -> A -> M rng A) n i a : (forall i a, tab_only (body i a)) -> tab_only (for_acc n i a body).
Proof. intros Hb. revert i a. induction n as [|n IH]; intros i a; [by intros r1 r2 Hr|]. simpl. by apply tab_only_bind. Qed.

Lemma swap_byte_tab a b : tab_only (swap_byte a b).
Proof.
  intros r1 r2 Hr. unfold same_tab in Hr. unfold swap_byte, mbind, M_bind, get, deref, put. simpl. rewrite <- Hr. destruct (s_tab r1).[a]; [|done]. simpl. by destruct (s_tab r1).[b].
Qed.

(** The generator forgets what it was seeded with before. *)
Lemma random_init_again r1 r2 seed : length (s_tab r1) = 256%nat -> length (s_tab r2) = 256%nat -> random_init seed r1 = random_init seed r2.
Proof.
  intros H1 H2. unfold random_init. apply fill_ok in H1, H2. apply wp_iff in H1 as ([] & q1 & E1 & T1), H2 as ([] & q2 & E2 & T2). rewrite (bind_eq _ _ _ _ _ E1), (bind_eq _ _ _ _ _ E2).
  match goal with |- mbind _ (for_acc 256 0 0 ?f) _ = _ => assert (tab_only (for_acc 256 0 0 f)) as Ht end.
  { apply tab_only_for_acc. intros i j r r' Hr. unfold mbind, M_bind, get, deref. simpl. rewrite <- Hr. destruct (s_tab r).[i] as [x|]; [|done]. simpl.
    pose proof (swap_byte_tab i (u8 (j + x + seed_byte seed (i mod 4))) r r' Hr) as Hs. destruct (swap_byte _ _ r) as [[]|], (swap_byte _ _ r') as [[]|]; try done. by destruct Hs. }
  specialize (Ht q1 q2). unfold same_tab in Ht. rewrite T1, T2 in Ht. specialize (Ht eq_refl).
  destruct (for_acc _ _ _ _ q1) as [[a p1]|] eqn:F1, (for_acc _ _ _ _ q2) as [[b p2]|] eqn:F2; try done.
  - destruct Ht as [_ Ht]. rewrite (bind_eq _ _ _ _ _ F1), (bind_eq _ _ _ _ _ F2). unfold modify. by rewrite Ht.
  - rewrite (bind_err _ _ _ _ F1), (bind_err _ _ _ _ F2). by rewrite Ht.
Qed.

Lemma random_bytes_ok r size :
  length (s_tab r) = 256%nat -> (inited r = true -> rng_ok r) ->
  wp (random_bytes size) (fun buf r' => rng_ok r' /\ inited r' = true /\
    length buf = Z.to_nat size /\ Forall (fun b => 0 <= b < 256) buf) r.
Proof.
  intros Hlen Hok. unfold random_bytes. do 2 wp_step. wp_step.
  apply (wp_mono _ (fun _ r' => rng_ok r' /\ inited r' = true)).
  { destruct (inited r) eqn:E; [wp_step; auto|by apply random_init_ok]. }
  intros [] r1 [Hr1 Hi1]. eapply wp_mono.
  - apply (wp_for_acc (fun i buf r' => rng_ok r' /\ inited r' = true /\ Z.of_nat (length buf) = i /\
      Forall (fun b => 0 <= b < 256) buf)); [|by split_and!].
    intros i buf r' _ ([Hp Hi Hj] & Hin & Hl & Hb). do 4 wp_step. simpl.
    destruct (rng_get _ (u8 (s_i r' + 1)) Hp) as (x & Hx & _); [apply u8_range|].
    wp_step. eapply wp_deref; [exact Hx|]. do 5 wp_step. simpl.
    eapply wp_mono; [apply swap_byte_ok; [done|apply u8_range..]|].
    intros [] r2 (Hp2 & E1 & E2 & E3). simpl in *. do 3 wp_step.
    destruct (rng_get _ (s_i r2) Hp2) as (a & Ha & _); [rewrite E1; apply u8_range|].
    eapply wp_deref; [exact Ha|]. wp_step.
    destruct (rng_get _ (s_j r2) Hp2) as (b & Hb2 & _); [rewrite E2; apply u8_range|].
    eapply wp_deref; [exact Hb2|]. wp_step.
    destruct (rng_get _ (u8 (a + b)) Hp2) as (c & Hc & Hcr); [apply u8_range|].
    eapply wp_deref; [exact Hc|]. wp_step. split_and!; [|congruence| |].
    + split; [done|rewrite E1; apply u8_range|rewrite E2; apply u8_range].
    + rewrite length_app. simpl. lia.
    + apply Forall_app. split; [done|]. by constructor.
  - intros buf r' (H1 & H2 & H3 & H4). split_and!; [done|done|lia|done].
Qed.

(** The generator never reads outside its table: from any state, seeded or
    not, [random_bytes] ends with the number of bytes asked for, all in range,
    and the table is still a permutation of the 256 bytes. *)
Theorem random_bytes_in_table r size :
  length (s_tab r) = 256%nat -> (inited r = true -> rng_ok r) ->
  wp (random_bytes size) (fun buf r' => rng_ok r' /\ inited r' = true /\
    length buf = Z.to_nat size /\ Forall (fun b => 0 <= b < 256) buf) r.
Proof. apply random_bytes_ok. Qed.

Lemma random_bytes_in_table_witness :
  exists buf r, random_bytes 4 (Rng (replicate 256 0) 0 0 false) = Ok (buf, r) /\ length buf = 4%nat.
Proof.
  destruct (proj1 (wp_iff _ _ _) (random_bytes_in_table (Rng (replicate 256 0) 0 0 false) 4
    eq_refl ltac:(done))) as (buf & r & E & _ & _ & Hl & _).
  exists buf, r. split; [exact E|exact Hl].
Defined.
