(* ===== verification/Kstdio.v ===== *)
(** * Formatted output (src/lib/stdio.c, src/lib/kernel/console.c)

    The [printf] family.  The formatter is a program over any state, given how
    to read a byte of memory and what the output function does, as the code is
    given its callback; [vsnprintf] and the console instantiate it.  A format
    or a string argument is a pointer into memory or a literal of the kernel
    with its terminator.  The arguments are the 32-bit words of the stack that
    [va_arg] reads, of which a 64-bit argument takes two.

    Theorems: an integer conversion never writes outside its buffer of 64 bytes
    and produces the text of the number as the flags ask; [vsnprintf] stores
    what fits of the text the format describes and writes nowhere else; [atoi]
    reads back what [snprintf] with [%d] wrote. *)

From Stdlib Require Import String Ascii.
From S2P Require Import Prelude Kstring Kstdlib.

(** The characters of a literal, and the literal with its terminator. *)
Definition txt (s : string) : list Z := map (fun c => Z.of_N (N_of_ascii c)) (list_ascii_of_string s).
Definition lit (s : string) : list Z := txt s ++ [0].

(** ** Data *)
Inductive chars :=
  | At (p : Z)
  | Lit (l : list Z).

Definition adv (f : chars) : chars :=
  match f with At p => At (p + 1) | Lit l => Lit (tail l) end.
Definition skip (f : chars) (i : Z) : chars :=
  match f with At p => At (p + i) | Lit l => Lit (drop (Z.to_nat i) l) end.

Definition MINUS : Z := 1.
Definition PLUS : Z := 2.
Definition SPACE : Z := 4.
Definition POUND : Z := 8.
Definition ZERO : Z := 16.
Definition GROUP : Z := 32.

Inductive arg_type := CHAR | SHORT | INT | INTMAX | LONG | LONGLONG | PTRDIFFT | SIZET.

Record printf_conversion := Conversion { flags : Z; width : Z; precision : Z; type : arg_type }.

Definition has_flag (c : printf_conversion) (f : Z) : bool := negb (Z.land (flags c) f =? 0).

Record integer_base := IntegerBase { base : Z; digits : list Z; base_x_char : Z; group : Z }.

Definition base_d : integer_base := IntegerBase 10 (txt "0123456789") 0 3.
Definition base_o : integer_base := IntegerBase 8 (txt "01234567") 0 3.
Definition base_x : integer_base := IntegerBase 16 (txt "0123456789abcdef") 120 4.
Definition base_X : integer_base := IntegerBase 16 (txt "0123456789ABCDEF") 88 4.

(** ** The formatter *)
Section formatter.
Context {S : Type} (rd : Z -> M S Z) (output : Z -> M S unit).

Definition peek (f : chars) : M S Z :=
  match f with At p => rd p | Lit l => deref (head l) end.

Definition output_dup (ch cnt : Z) : M S unit := for_ (Z.to_nat cnt) 0 (fun _ => output ch).

Definition flag_of (ch : Z) : Z :=
  if ch =? 45 then MINUS else if ch =? 43 then PLUS else if ch =? 32 then SPACE
  else if ch =? 35 then POUND else if ch =? 48 then ZERO else if ch =? 39 then GROUP else 0.

Definition parse_flags (fuel : nat) (f : chars) : M S (chars * Z) :=
  loop fuel (fun '(f, fl) =>
    ch ← peek f;
    if flag_of ch =? 0 then mret (inr (f, fl)) else mret (inl (adv f, Z.lor fl (flag_of ch)))) (f, 0).

Definition parse_number (fuel : nat) (f : chars) : M S (chars * Z) :=
  loop fuel (fun '(f, n) =>
    ch ← peek f;
    if isdigit ch then mret (inl (adv f, s32 (n * 10 + ch - 48))) else mret (inr (f, n))) (f, 0).

(** [va_arg]. *)
Definition va_word (args : list Z) : M S (Z * list Z) :=
  match args with w :: rest => mret (u32 w, rest) | [] => fail BadPointer end.
Definition va_int (args : list Z) : M S (Z * list Z) :=
  '(w, args) ← va_word args; mret (s32 w, args).
Definition va_dword (args : list Z) : M S (Z * list Z) :=
  '(lo, args) ← va_word args; '(hi, args) ← va_word args; mret (lo + 2 ^ 32 * hi, args).

Definition parse_type (f : chars) : M S (chars * arg_type) :=
  ch ← peek f;
  let f' := adv f in
  if ch =? 104 then
    ch2 ← peek f';
    if ch2 =? 104 then mret (adv f', CHAR) else mret (f', SHORT)
  else if ch =? 106 then mret (f', INTMAX)
  else if ch =? 108 then
    ch2 ← peek f';
    if ch2 =? 108 then mret (adv f', LONGLONG) else mret (f', LONG)
  else if ch =? 116 then mret (f', PTRDIFFT)
  else if ch =? 122 then mret (f', SIZET)
  else mret (f, INT).

Definition parse_conversion (fuel : nat) (f : chars) (args : list Z) : M S (chars * printf_conversion * list Z) :=
  '(f, fl) ← parse_flags fuel f;
  let fl := if negb (Z.land fl MINUS =? 0) then Z.ldiff fl ZERO else fl in
  let fl := if negb (Z.land fl PLUS =? 0) then Z.ldiff fl SPACE else fl in
  ch ← peek f;
  '(f, w, args) ← (if ch =? 42 then '(w, args) ← va_int args; mret (adv f, w, args)
                   else '(f, w) ← parse_number fuel f; mret (f, w, args));
  let '(w, fl) := if w <? 0 then (s32 (- w), Z.lor fl MINUS) else (w, fl) in
  ch ← peek f;
  '(f, prec, args) ←
    (if ch =? 46 then
       let f := adv f in
       ch ← peek f;
       '(f, prec, args) ← (if ch =? 42 then '(n, args) ← va_int args; mret (adv f, n, args)
                           else '(f, n) ← parse_number fuel f; mret (f, n, args));
       mret (f, if prec <? 0 then -1 else prec, args)
     else mret (f, -1, args));
  let fl := if 0 <=? prec then Z.ldiff fl ZERO else fl in
  '(f, ty) ← parse_type f;
  mret (f, Conversion fl w prec ty, args).

(** The buffer of [format_integer] is what has been stored in it. *)
Definition push (buf : list Z) (ch : Z) : M S (list Z) :=
  if alen buf <? 64 then mret (buf ++ [ch]) else fail BadPointer.

Definition accumulate_turn (b : integer_base) (c : printf_conversion) (st : Z * list Z * Z) : M S (Z * list Z * Z + list Z) :=
  let '(value, buf, digit_cnt) := st in
  if 0 <? value then
    buf ← (if has_flag c GROUP && (0 <? digit_cnt) && (digit_cnt mod group b =? 0) then push buf 44 else mret buf);
    d ← deref (digits b).[value mod base b];
    buf ← push buf d;
    mret (inl (value / base b, buf, digit_cnt + 1))
  else mret (inr buf).

Definition accumulate (value : Z) (b : integer_base) (c : printf_conversion) : M S (list Z) :=
  loop 65 (accumulate_turn b c) (value, [], 0).

Definition zero_fill (prec : Z) (buf : list Z) : M S (list Z) :=
  loop 65 (fun buf =>
    if (alen buf <? prec) && (alen buf <? 63) then buf ← push buf 48; mret (inl buf) else mret (inr buf)) buf.

Definition sign_of (is_signed negative : bool) (c : printf_conversion) : Z :=
  if is_signed then
    if has_flag c PLUS then (if negative then 45 else 43)
    else if has_flag c SPACE then (if negative then 45 else 32)
    else if negative then 45 else 0
  else 0.

Definition format_integer (value : Z) (is_signed negative : bool) (b : integer_base) (c : printf_conversion) : M S unit :=
  let sign := sign_of is_signed negative c in
  let x := if has_flag c POUND && negb (value =? 0) then base_x_char b else 0 in
  buf ← accumulate value b c;
  buf ← zero_fill (if precision c <? 0 then 1 else precision c) buf;
  buf ← (if has_flag c POUND && (base b =? 8) && ((alen buf =? 0) || negb (bool_decide (last buf = Some 48)))
         then push buf 48 else mret buf);
  let pad := s32 (width c - alen buf - (if negb (x =? 0) then 2 else 0) - Z.b2z (negb (sign =? 0))) in
  let pad_cnt := if pad <? 0 then 0 else pad in
  (if Z.land (flags c) (Z.lor MINUS ZERO) =? 0 then output_dup 32 pad_cnt else mret ());;
  (if negb (sign =? 0) then output sign else mret ());;
  (if negb (x =? 0) then output 48;; output x else mret ());;
  (if has_flag c ZERO then output_dup 48 pad_cnt else mret ());;
  for_ (length buf) 1 (fun i => ch ← deref buf.[alen buf - i]; output ch);;
  (if has_flag c MINUS then output_dup 32 pad_cnt else mret ()).

Definition format_string (s : chars) (length : Z) (c : printf_conversion) : M S unit :=
  (if (length <? width c) && negb (has_flag c MINUS) then output_dup 32 (width c - length) else mret ());;
  for_ (Z.to_nat length) 0 (fun i => ch ← peek (skip s i); output ch);;
  (if (length <? width c) && has_flag c MINUS then output_dup 32 (width c - length) else mret ()).

(** [strnlen] of string.c on such a pointer. *)
Definition strnlen_of (fuel : nat) (s : chars) (maxlen : Z) : M S Z :=
  loop fuel (fun n =>
    x ← peek (skip s n);
    if negb (x =? 0) && (n <? maxlen) then mret (inl (n + 1)) else mret (inr n)) 0.

(** The value of a signed conversion. *)
Definition signed_arg (ty : arg_type) (args : list Z) : M S (Z * list Z) :=
  match ty with
  | CHAR => '(v, args) ← va_int args; mret (swrap 8 v, args)
  | SHORT => '(v, args) ← va_int args; mret (swrap 16 v, args)
  | INT | LONG | PTRDIFFT => va_int args
  | INTMAX | LONGLONG => '(v, args) ← va_dword args; mret (swrap 64 v, args)
  | SIZET => '(v, args) ← va_word args; mret (if (2 ^ 32 - 1) / 2 <? v then v - (2 ^ 32 - 1) - 1 else v, args)
  end.

Definition unsigned_arg (ty : arg_type) (args : list Z) : M S (Z * list Z) :=
  match ty with
  | CHAR => '(v, args) ← va_word args; mret (u8 v, args)
  | SHORT => '(v, args) ← va_word args; mret (wrap 16 v, args)
  | INT | LONG | SIZET => va_word args
  | INTMAX | LONGLONG => va_dword args
  | PTRDIFFT => '(v, args) ← va_int args; mret (Z.land (wrap 64 v) (Z.lor (Z.shiftl (2 ^ 31 - 1) 1) 1), args)
  end.

(** One conversion, by its character.  [nested] is the call of [__printf] with
    a literal format. *)
Definition convert (nested : list Z -> list Z -> M S unit) (fuel : nat) (ch : Z) (c : printf_conversion) (args : list Z) :
    M S (list Z) :=
  if (ch =? 100) || (ch =? 105) then
    '(v, args) ← signed_arg (type c) args;
    format_integer (if v <? 0 then wrap 64 (- v) else v) true (v <? 0) base_d c;;
    mret args
  else if (ch =? 111) || (ch =? 117) || (ch =? 120) || (ch =? 88) then
    '(v, args) ← unsigned_arg (type c) args;
    format_integer v false false
      (if ch =? 111 then base_o else if ch =? 117 then base_d else if ch =? 120 then base_x else base_X) c;;
    mret args
  else if ch =? 99 then
    '(v, args) ← va_int args;
    format_string (Lit [u8 v]) 1 c;;
    mret args
  else if ch =? 115 then
    '(p, args) ← va_word args;
    let s := if p =? 0 then Lit (lit "(null)") else At p in
    n ← strnlen_of fuel s (u32 (precision c));
    format_string s (s32 n) c;;
    mret args
  else if ch =? 112 then
    '(p, args) ← va_word args;
    format_integer p false false base_x (Conversion POUND (width c) (precision c) (type c));;
    mret args
  else if (ch =? 102) || (ch =? 101) || (ch =? 69) || (ch =? 103) || (ch =? 71) || (ch =? 110) then
    nested (lit "<<no %%%c in kernel>>") [ch];;
    mret args
  else
    nested (lit "<<no %%%c conversion>>") [ch];;
    mret args.

Definition vprintf_turn (nested : list Z -> list Z -> M S unit) (fuel : nat) (fa : chars * list Z) :
    M S (chars * list Z + unit) :=
  let '(f, args) := fa in
  ch ← peek f;
  if ch =? 0 then mret (inr ()) else
  if negb (ch =? 37) then output ch;; mret (inl (adv f, args)) else
  let f := adv f in
  ch ← peek f;
  if ch =? 37 then output 37;; mret (inl (adv f, args)) else
  '(f, c, args) ← parse_conversion fuel f args;
  ch ← peek f;
  args ← convert nested fuel ch c args;
  mret (inl (adv f, args)).

(** [__vprintf] calls [__printf] for the conversions it does not know, once
    deep. *)
Fixpoint vprintf_loop (depth fuel : nat) (f : chars) (args : list Z) : M S unit :=
  match depth with
  | O => fail NoFuel
  | Datatypes.S d => loop fuel (vprintf_turn (fun l args => vprintf_loop d 64 (Lit l) args) fuel) (f, args)
  end.

Definition __vprintf (m : mem) (f : chars) (args : list Z) : M S unit :=
  vprintf_loop 2 (size m + match f with At _ => 2 | Lit l => length l end + 32) f args.
End formatter.

(** ** Output into a buffer *)
Record vsnprintf_aux := Aux { aux_p : Z; aux_length : Z; max_length : Z }.

Definition buf_rd (p : Z) : M (mem * vsnprintf_aux) Z := s ← get; deref (fst s !! p).

Definition vsnprintf_helper (ch : Z) : M (mem * vsnprintf_aux) unit :=
  s ← get;
  let '(m, a) := s in
  let n := aux_length a in
  let a := Aux (aux_p a) (s32 (n + 1)) (max_length a) in
  if n <? max_length a then
    _ ← deref (m !! aux_p a);
    put (<[aux_p a := u8 ch]> m, Aux (aux_p a + 1) (aux_length a) (max_length a))
  else put (m, a).

Definition vsnprintf (buffer buf_size : Z) (f : chars) (args : list Z) : M mem Z :=
  m ← get;
  '(m, a) ← (fun m => r ← __vprintf buf_rd vsnprintf_helper m f args
                            (m, Aux buffer 0 (if 0 <? buf_size then s32 (buf_size - 1) else 0));
                      Ok (snd r, m));
  put m;;
  (if 0 <? buf_size then store (aux_p a) 0 else mret ());;
  mret (aux_length a).

Definition snprintf (buffer buf_size : Z) (f : chars) (args : list Z) : M mem Z := vsnprintf buffer buf_size f args.

(** ** The console *)
(** What the running thread sees of the console: whether it runs an interrupt
    handler, whether it holds the console lock and how often it took it again,
    and what was written to the display and the serial port. *)
Record console := Console {
  cons_mem : mem;
  in_interrupt : bool;
  use_console_lock : bool;
  console_held : bool;
  console_lock_depth : Z;
  write_cnt : Z;
  screen : list Z
}.

Definition set_lock (h : bool) (d : Z) (s : console) : console :=
  Console (cons_mem s) (in_interrupt s) (use_console_lock s) h d (write_cnt s) (screen s).

Definition console_init : M console unit :=
  modify (fun s => Console (cons_mem s) (in_interrupt s) true false (console_lock_depth s) (write_cnt s) (screen s)).

Definition console_panic : M console unit :=
  modify (fun s => Console (cons_mem s) (in_interrupt s) false (console_held s) (console_lock_depth s) (write_cnt s) (screen s)).

(** [lock_acquire] returns when the lock is the thread's. *)
Definition acquire_console : M console unit :=
  s ← get;
  if negb (in_interrupt s) && use_console_lock s then
    if console_held s then put (set_lock true (s32 (console_lock_depth s + 1)) s)
    else put (set_lock true (console_lock_depth s) s)
  else mret ().

Definition release_console : M console unit :=
  s ← get;
  if negb (in_interrupt s) && use_console_lock s then
    if 0 <? console_lock_depth s then put (set_lock (console_held s) (console_lock_depth s - 1) s)
    else assert (console_held s);; put (set_lock false (console_lock_depth s) s)
  else mret ().

Definition console_locked_by_current_thread : M console bool :=
  s ← get; mret (in_interrupt s || negb (use_console_lock s) || console_held s).

Definition putchar_have_lock (c : Z) : M console unit :=
  b ← console_locked_by_current_thread;
  assert b;;
  modify (fun s => Console (cons_mem s) (in_interrupt s) (use_console_lock s) (console_held s) (console_lock_depth s)
                     (swrap 64 (write_cnt s + 1)) (screen s ++ [u8 c])).

Definition cons_rd (p : Z) : M console Z := s ← get; deref (cons_mem s !! p).

(** The count of characters is the callback's [int]. *)
Definition vprintf_helper (c : Z) : M (console * Z) unit :=
  fun s => r ← putchar_have_lock c (fst s); Ok (tt, (snd r, s32 (snd s + 1))).

Definition vprintf_rd (p : Z) : M (console * Z) Z := fun s => r ← cons_rd p (fst s); Ok (fst r, s).

Definition vprintf (f : chars) (args : list Z) : M console Z :=
  acquire_console;;
  char_cnt ← (fun s => r ← __vprintf vprintf_rd vprintf_helper (cons_mem s) f args (s, 0);
                       Ok (snd (snd r), fst (snd r)));
  release_console;;
  mret char_cnt.

(** A format of the kernel is a literal with its terminator. *)
Definition printf (f : list Z) (args : list Z) : M console Z := vprintf (Lit f) args.

Definition puts (p : Z) : M console Z :=
  acquire_console;;
  s ← get;
  loop (Datatypes.S (size (cons_mem s))) (fun p =>
    ch ← cons_rd p;
    if ch =? 0 then mret (inr ()) else putchar_have_lock ch;; mret (inl (p + 1))) p;;
  putchar_have_lock 10;;
  release_console;;
  mret 0.

Definition putbuf (buffer n : Z) : M console unit :=
  acquire_console;;
  for_ (Z.to_nat n) 0 (fun i => ch ← cons_rd (buffer + i); putchar_have_lock ch);;
  release_console.

Definition putchar (c : Z) : M console Z :=
  acquire_console;;
  putchar_have_lock c;;
  release_console;;
  mret c.

(** ** Dumps *)
Definition isprint (c : Z) : bool := (32 <=? c) && (c <? 127).

(** [printf] as a statement. *)
Definition say (f : list Z) (args : list Z) : M console unit := _ ← printf f args; mret ().

(** One line: the bytes from position [start] to [stop] of the 16. *)
Definition hex_dump_line (ofs buf start stop : Z) (ascii : bool) : M console unit :=
  say (lit "%08jx  ") [ofs / 16 * 16; 0];;
  for_ (Z.to_nat start) 0 (fun _ => say (lit "   ") []);;
  for_ (Z.to_nat (stop - start)) start (fun i =>
    b ← cons_rd (buf + (i - start));
    say (lit "%02hhx%c") [b; if i =? 16 / 2 - 1 then 45 else 32]);;
  (if ascii then
     for_ (Z.to_nat (16 - stop)) stop (fun _ => say (lit "   ") []);;
     say (lit "|") [];;
     for_ (Z.to_nat start) 0 (fun _ => say (lit " ") []);;
     for_ (Z.to_nat (stop - start)) start (fun i =>
       b ← cons_rd (buf + (i - start)); say (lit "%c") [if isprint b then b else 46]);;
     for_ (Z.to_nat (16 - stop)) stop (fun _ => say (lit " ") []);;
     say (lit "|") []
   else mret ());;
  say [10; 0] [].

Definition hex_dump (ofs buf size : Z) (ascii : bool) : M console unit :=
  loop (Datatypes.S (Z.to_nat size)) (fun '(ofs, buf, size) =>
    if 0 <? size then
      let start := ofs mod 16 in
      let stop := if size <? 16 - start then start + size else 16 in
      let n := stop - start in
      hex_dump_line ofs buf start stop ascii;;
      mret (inl (u32 (ofs + n), buf + n, size - n))
    else mret (inr ())) (ofs, buf, size).

(** ** The text of an integer *)
(** The digits of a number, the least significant first. *)
Fixpoint digits_of (fuel : nat) (b v : Z) : list Z :=
  match fuel with
  | O => []
  | Datatypes.S n => if 0 <? v then v mod b :: digits_of n b (v / b) else []
  end.

(** With a comma before the digits whose position is a multiple of [g]. *)
Fixpoint commas (g k : Z) (l : list Z) : list Z :=
  match l with
  | [] => []
  | d :: r => (if (0 <? k) && (k mod g =? 0) then [44] else []) ++ d :: commas g (k + 1) r
  end.

Definition digit_char (b : integer_base) (d : Z) : Z := default 0 (digits b).[d].

(** The characters of the number from the right: the digits, zeros up to the
    precision, and the zero that the alternative octal form begins with. *)
Definition numeral (v : Z) (b : integer_base) (c : printf_conversion) : list Z :=
  let ds := map (digit_char b) (digits_of 64 (base b) v) in
  let body := if has_flag c GROUP then commas (group b) 0 ds else ds in
  let prec := if precision c <? 0 then 1 else precision c in
  let body := body ++ replicate (Z.to_nat (Z.min prec 63 - alen body)) 48 in
  if has_flag c POUND && (base b =? 8) && negb (bool_decide (last body = Some 48)) then body ++ [48] else body.

Definition integer_text (v : Z) (is_signed negative : bool) (b : integer_base) (c : printf_conversion) : list Z :=
  let nonzero z := if z =? 0 then [] else [z] in
  let sign := nonzero (sign_of is_signed negative c) in
  let prefix := if has_flag c POUND && negb (v =? 0) && negb (base_x_char b =? 0) then [48; base_x_char b] else [] in
  let body := numeral v b c in
  let pad := Z.to_nat (width c - alen body - alen prefix - alen sign) in
  (if has_flag c MINUS || has_flag c ZERO then [] else replicate pad 32) ++ sign ++ prefix ++
  (if has_flag c ZERO then replicate pad 48 else []) ++ reverse body ++
  (if has_flag c MINUS then replicate pad 32 else []).

Definition a_base (b : integer_base) : Prop := b = base_d \/ b = base_o \/ b = base_x \/ b = base_X.

Lemma a_base_facts b : a_base b -> 8 <= base b /\ alen (digits b) = base b /\ 3 <= group b.
Proof. intros [->|[->|[->| ->]]]; vm_compute; by split_and!. Qed.

Lemma digit_char_get b d : a_base b -> 0 <= d < base b -> (digits b).[d] = Some (digit_char b d).
Proof.
  intros Hb Hd. destruct (a_base_facts b Hb) as (_ & Hl & _). unfold digit_char.
  destruct (proj1 (aget_is_Some (digits b) d)) as [x ->]; [lia|done].
Qed.

Lemma digits_of_length n b v k : 2 <= b -> 0 <= v < b ^ Z.of_nat k -> (length (digits_of n b v) <= k)%nat.
Proof.
  intros Hb. revert v k. induction n as [|n IH]; intros v k Hv; simpl; [lia|].
  destruct (Z.ltb_spec 0 v); simpl; [|lia]. destruct k as [|k]; [simpl in Hv; lia|].
  enough (length (digits_of n b (v / b)) <= k)%nat by lia. apply IH.
  rewrite Nat2Z.inj_succ, Z.pow_succ_r in Hv by lia. split; [apply Z.div_pos; lia|apply Z.div_lt_upper_bound; lia].
Qed.

Lemma commas_length g l k : (length (commas g k l) <= 2 * length l)%nat.
Proof. revert k. induction l as [|d l IH]; intros k; simpl; [lia|]. specialize (IH (k + 1)). destruct (_ && _); simpl; lia. Qed.

Section text.
Context {S : Type} (rd : Z -> M S Z) (output : Z -> M S unit).

Fixpoint emit (l : list Z) : M S unit :=
  match l with [] => mret () | ch :: l => output ch;; emit l end.

Lemma emit_app l k s : emit (l ++ k) s = (emit l;; emit k) s.
Proof.
  revert s. induction l as [|ch l IH]; intros s; [done|]. simpl. unfold mbind, M_bind in *.
  destruct (output ch s) as [[[] s']|]; [|done]. apply IH.
Qed.

Lemma for_emit (body : Z -> M S unit) l i : 
  (forall j ch s, l !! j = Some ch -> body (i + Z.of_nat j) s = output ch s) ->
  forall s, for_ (length l) i body s = emit l s.
Proof.
  revert i. induction l as [|ch l IH]; intros i H s; [done|]. simpl. unfold mbind, M_bind.
  rewrite <- (H 0%nat ch s) by done. replace (i + Z.of_nat 0) with i by lia.
  destruct (body i s) as [[[] s']|]; [|done]. apply IH. intros j x s1 Hj. rewrite <- (H (Datatypes.S j) x s1) by done. f_equal. lia.
Qed.

Lemma output_dup_emit ch cnt s : output_dup output ch cnt s = emit (replicate (Z.to_nat cnt) ch) s.
Proof.
  unfold output_dup. rewrite <- (length_replicate (Z.to_nat cnt) ch) at 1. apply for_emit.
  intros j x s' Hj. by apply lookup_replicate in Hj as [-> _].
Qed.

Lemma push_ok (buf : list Z) (ch : Z) (s : S) : (length buf < 64)%nat -> push buf ch s = Ok (buf ++ [ch], s).
Proof. intros H. unfold push. unfold alen. by rewrite (proj2 (Z.ltb_lt _ _)) by lia. Qed.

Lemma loop_step {A B} fuel (step : A -> M S (A + B)) a s r s' : step a s = Ok (r, s') ->
  loop (Datatypes.S fuel) step a s = match r with inl a' => loop fuel step a' s' | inr b => Ok (b, s') end.
Proof. intros E. cbn [loop]. unfold mbind, M_bind. rewrite E. by destruct r. Qed.

Lemma accumulate_turn_ok b c v buf k s :
  a_base b -> (length buf < 63)%nat ->
  accumulate_turn (S := S) b c (v, buf, k) s = Ok (if 0 <? v then
    inl (v / base b, buf ++ (if has_flag c GROUP && (0 <? k) && (k mod group b =? 0) then [44] else []) ++
      [digit_char b (v mod base b)], k + 1) else inr buf, s).
Proof.
  intros Hb Hl. destruct (a_base_facts b Hb) as (Hb8 & _). unfold accumulate_turn. destruct (0 <? v); [|done].
  set (comma := if has_flag c GROUP && (0 <? k) && (k mod group b =? 0) then [44] else []). unfold mbind, M_bind.
  assert ((if has_flag c GROUP && (0 <? k) && (k mod group b =? 0) then push buf 44 else mret buf) s = Ok (buf ++ comma, s)) as ->.
  { unfold comma. destruct (_ && _); [by rewrite push_ok by lia|by rewrite app_nil_r]. }
  assert (length comma <= 1)%nat by (unfold comma; destruct (_ && _); simpl; lia).
  rewrite (digit_char_get b) by (try done; apply Z.mod_pos_bound; lia). unfold deref at 1. cbn [mret M_ret].
  rewrite push_ok by (rewrite length_app; lia). by rewrite <- app_assoc.
Qed.

Lemma accumulate_loop_ok b c s n fuel v buf k :
  a_base b -> 0 <= v < base b ^ Z.of_nat n -> 0 <= k -> (length buf + 2 * n < 63)%nat -> (n < fuel)%nat ->
  let ds := map (digit_char b) (digits_of n (base b) v) in
  loop fuel (accumulate_turn (S := S) b c) (v, buf, k) s =
    Ok (buf ++ (if has_flag c GROUP then commas (group b) k ds else ds), s).
Proof.
  intros Hb. destruct (a_base_facts b Hb) as (Hb8 & _ & Hg). revert fuel v buf k.
  induction n as [|n IH]; intros [|fuel] v buf k Hv Hk Hl Hf; try lia;
    rewrite (loop_step _ _ _ _ _ _ (accumulate_turn_ok b c v buf k s Hb ltac:(lia))); cbn [digits_of].
  - simpl in Hv. assert (v = 0) as -> by lia. by destruct (has_flag c GROUP); rewrite app_nil_r.
  - destruct (Z.ltb_spec 0 v); cbv iota; [|by destruct (has_flag c GROUP); rewrite app_nil_r].
    rewrite Nat2Z.inj_succ, Z.pow_succ_r in Hv by lia.
    rewrite IH; [|split; [apply Z.div_pos; lia|apply Z.div_lt_upper_bound; lia]|lia| |lia].
    + do 2 f_equal. cbn [map]. rewrite <- !app_assoc. f_equal. by destruct (has_flag c GROUP).
    + rewrite !length_app. destruct (_ && _ && _); simpl; lia.
Qed.

Lemma digits_of_enough n k b v : 2 <= b -> 0 <= v < b ^ Z.of_nat n -> (n <= k)%nat -> digits_of k b v = digits_of n b v.
Proof.
  intros Hb. revert k v. induction n as [|n IH]; intros k v Hv Hk.
  - simpl in Hv. assert (v = 0) as -> by lia. by destruct k.
  - destruct k as [|k]; [lia|]. cbn [digits_of]. destruct (0 <? v); [|done]. f_equal.
    rewrite Nat2Z.inj_succ, Z.pow_succ_r in Hv by lia.
    apply IH; [|lia]. split; [apply Z.div_pos; lia|apply Z.div_lt_upper_bound; lia].
Qed.

Lemma base_22 b v : a_base b -> 0 <= v < 2 ^ 64 -> 0 <= v < base b ^ Z.of_nat 22.
Proof.
  intros Hb Hv. destruct (a_base_facts b Hb) as (Hb8 & _). split; [lia|].
  apply Z.lt_le_trans with (8 ^ Z.of_nat 22); [by apply (Z.lt_trans _ (2 ^ 64)); [lia|]|]. apply Z.pow_le_mono_l. lia.
Qed.

Lemma accumulate_ok v b c s : a_base b -> 0 <= v < 2 ^ 64 ->
  let ds := map (digit_char b) (digits_of 64 (base b) v) in
  accumulate (S := S) v b c s = Ok (if has_flag c GROUP then commas (group b) 0 ds else ds, s).
Proof.
  intros Hb Hv. pose proof (base_22 b v Hb Hv). destruct (a_base_facts b Hb) as (Hb8 & _). unfold accumulate.
  rewrite (accumulate_loop_ok b c s 22) by (try done; simpl; lia). by rewrite (digits_of_enough 22 64) by (try done; lia).
Qed.

Lemma zero_fill_ok prec buf (s : S) : (length buf <= 63)%nat ->
  zero_fill prec buf s = Ok (buf ++ replicate (Z.to_nat (Z.min prec 63 - alen buf)) 48, s).
Proof.
  intros Hl. unfold zero_fill. assert (64 - length buf < 65)%nat as Hf by lia. revert buf Hl Hf. generalize 65%nat as fuel.
  induction fuel as [|fuel IH]; intros buf Hl Hf; [lia|]. cbn [loop]. unfold mbind, M_bind, alen in *.
  destruct (Z.ltb_spec (Z.of_nat (length buf)) prec); [destruct (Z.ltb_spec (Z.of_nat (length buf)) 63)|]; cbn [andb].
  2,3: cbn [mret M_ret];
    replace (Z.to_nat (Z.min prec 63 - Z.of_nat (length buf))) with 0%nat by lia; by rewrite app_nil_r.
  rewrite push_ok by lia. cbn [mret M_ret]. rewrite IH by (rewrite length_app; simpl; lia). do 2 f_equal.
  rewrite <- app_assoc, length_app. f_equal. change [48] with (replicate 1 48). rewrite <- replicate_add. f_equal. simpl. lia.
Qed.
Definition emits (m : M S unit) (l : list Z) : Prop := forall s, m s = emit l s.

Lemma emits_seq m1 m2 l1 l2 : emits m1 l1 -> emits m2 l2 -> emits (m1;; m2) (l1 ++ l2).
Proof.
  intros H1 H2 s. rewrite emit_app. unfold mbind, M_bind. rewrite H1. destruct (emit l1 s) as [[[] s']|]; [apply H2|done].
Qed.

Lemma emits_if (b : bool) m l : emits m l -> emits (if b then m else mret ()) (if b then l else []).
Proof. intros H. by destruct b. Qed.

Lemma emits_one ch : emits (output ch) [ch].
Proof. intros s. simpl. unfold mbind, M_bind. by destruct (output ch s) as [[[] s']|]. Qed.

Lemma emits_reverse buf : emits (for_ (length buf) 1 (fun i => ch ← deref buf.[alen buf - i]; output ch)) (reverse buf).
Proof.
  intros s. rewrite <- (length_reverse buf) at 1. apply for_emit. intros j ch s' Hj.
  pose proof (lookup_lt_Some _ _ _ Hj) as Hlt. rewrite length_reverse in Hlt. rewrite reverse_lookup in Hj by done.
  unfold mbind, M_bind. rewrite (proj2 (aget_Some _ _ ch)); [done|]. unfold alen. split; [lia|]. by replace (Z.to_nat _) with (length buf - Datatypes.S j)%nat by lia.
Qed.

Lemma numeral_length v b c : a_base b -> 0 <= v < 2 ^ 64 -> (length (numeral v b c) <= 64)%nat.
Proof.
  intros Hb Hv. destruct (a_base_facts b Hb) as (Hb8 & _). unfold numeral. set (ds := map _ _).
  assert (length ds <= 22)%nat by (unfold ds; rewrite length_map; apply digits_of_length; [lia|by apply base_22]).
  set (body := if has_flag c GROUP then _ else _).
  assert (length body <= 44)%nat by (unfold body; destruct (has_flag c GROUP); [pose proof (commas_length (group b) ds 0)|]; lia).
  destruct (_ && _ && _); rewrite ?length_app, length_replicate; unfold alen; simpl; lia.
Qed.

Lemma has_minus_zero c : (Z.land (flags c) (Z.lor MINUS ZERO) =? 0) = negb (has_flag c MINUS || has_flag c ZERO).
Proof.
  unfold has_flag. rewrite Z.land_lor_distr_r. apply Bool.eq_true_iff_eq.
  rewrite Z.eqb_eq, negb_true_iff, orb_false_iff, !negb_false_iff, !Z.eqb_eq. apply Z.lor_eq_0_iff.
Qed.

Lemma numeral_ok v b c s : a_base b -> 0 <= v < 2 ^ 64 ->
  (buf ← accumulate (S := S) v b c;
   buf ← zero_fill (if precision c <? 0 then 1 else precision c) buf;
   (if has_flag c POUND && (base b =? 8) && ((alen buf =? 0) || negb (bool_decide (last buf = Some 48)))
    then push buf 48 else mret buf)) s = Ok (numeral v b c, s).
Proof.
  intros Hb Hv. destruct (a_base_facts b Hb) as (Hb8 & _). unfold mbind, M_bind. rewrite accumulate_ok by done.
  unfold numeral. set (ds := map _ _).
  assert (length ds <= 22)%nat by (unfold ds; rewrite length_map; apply digits_of_length; [lia|by apply base_22]).
  set (body := if has_flag c GROUP then _ else _).
  assert (length body <= 44)%nat by (unfold body; destruct (has_flag c GROUP); [pose proof (commas_length (group b) ds 0)|]; lia).
  rewrite zero_fill_ok by lia. set (full := body ++ _).
  assert (length full <= 63)%nat by (unfold full; rewrite length_app, length_replicate; unfold alen; lia).
  assert ((alen full =? 0) || negb (bool_decide (last full = Some 48)) = negb (bool_decide (last full = Some 48))) as ->.
  { destruct full; [done|]. rewrite (proj2 (Z.eqb_neq _ _)); [done|]. unfold alen. simpl. lia. }
  destruct (_ && _ && _); [by rewrite push_ok by lia|done].
Qed.

Lemma format_integer_ok v is_signed negative b c :
  a_base b -> 0 <= v < 2 ^ 64 -> 0 <= width c < 2 ^ 31 ->
  emits (format_integer output v is_signed negative b c) (integer_text v is_signed negative b c).
Proof.
  intros Hb Hv Hw s. unfold format_integer, integer_text. pose proof (numeral_ok v b c s Hb Hv) as E.
  pose proof (numeral_length v b c Hb Hv) as Hl.
  set (sign := sign_of is_signed negative c). set (x := if has_flag c POUND && negb (v =? 0) then base_x_char b else 0).
  set (body := numeral v b c) in *. 
  unfold mbind at 1 2 3, M_bind at 1 2 3. unfold mbind, M_bind in E.
  destruct (accumulate v b c s) as [[buf1 s1]|]; [|done]. destruct (zero_fill _ buf1 s1) as [[buf2 s2]|]; [|done].
  rewrite E. clear E.
  set (pre := if _ && _ && _ then [48; base_x_char b] else []). set (sg := if sign =? 0 then [] else [sign]).
  assert (pre = if negb (x =? 0) then [48; x] else []) as Ep.
  { unfold pre, x. destruct (has_flag c POUND), (v =? 0); done. }
  assert (sg = if negb (sign =? 0) then [sign] else []) as Es by (unfold sg; by destruct (sign =? 0)).
  assert (Z.to_nat (let p := s32 (width c - alen body - (if negb (x =? 0) then 2 else 0) - Z.b2z (negb (sign =? 0))) in
    if p <? 0 then 0 else p) = Z.to_nat (width c - alen body - alen pre - alen sg)) as Epad.
  { rewrite Ep, Es. unfold alen in *. rewrite swrap_small by (destruct (x =? 0), (sign =? 0); simpl; lia).
    cbv zeta. destruct (x =? 0), (sign =? 0); simpl; destruct (_ <? 0) eqn:E; lia. }
  cbv zeta in Epad. rewrite has_minus_zero, <- Epad, Es, Ep.
  set (pad := if _ <? 0 then 0 else _). revert s.
  apply emits_seq; [|apply emits_seq; [|apply emits_seq; [|apply emits_seq; [|apply emits_seq]]]].
  - destruct (_ || _); [done|]. intros s. apply output_dup_emit.
  - apply emits_if, emits_one.
  - apply emits_if. apply (emits_seq _ _ [48] [x]); apply emits_one.
  - apply emits_if. intros s. apply output_dup_emit.
  - apply emits_reverse.
  - apply emits_if. intros s. apply output_dup_emit.
Qed.
End text.

(** ** The text that a format describes *)
(** The formatter with an output function that appends to a text, of at most
    [INT_MAX] characters. *)
Definition text_rd (m : mem) (p : Z) : M (list Z) Z := deref (m !! p).
Definition text_output (ch : Z) : M (list Z) unit :=
  out ← get; if alen out <? 2 ^ 31 - 1 then put (out ++ [u8 ch]) else fail PanicHalt.

Definition formatted (m : mem) (f : chars) (args : list Z) : result (list Z) :=
  r ← __vprintf (text_rd m) text_output m f args []; Ok (snd r).

(** Two programs that do the same, on related states, as far as the first one
    goes. *)
Section simulation.
Context {S1 S2 : Type} (R : S1 -> S2 -> Prop).

Definition sim {A} (m1 : M S1 A) (m2 : M S2 A) : Prop :=
  forall s1 s2 a s1', R s1 s2 -> m1 s1 = Ok (a, s1') -> exists s2', m2 s2 = Ok (a, s2') /\ R s1' s2'.

Lemma sim_ret {A} (a : A) : sim (mret a) (mret a).
Proof. intros s1 s2 b s1' H [= <- <-]. eauto. Qed.

Lemma sim_bind {A B} (m1 : M S1 A) (m2 : M S2 A) (f1 : A -> M S1 B) (f2 : A -> M S2 B) :
  sim m1 m2 -> (forall a, sim (f1 a) (f2 a)) -> sim (mbind f1 m1) (mbind f2 m2).
Proof.
  intros Hm Hf s1 s2 b s1' H E. unfold mbind, M_bind in *. destruct (m1 s1) as [[a s1a]|] eqn:E1; [|done].
  destruct (Hm s1 s2 a s1a H E1) as (s2a & -> & Ha). by apply (Hf a s1a).
Qed.

Lemma sim_fail {A} e (m2 : M S2 A) : sim (fail e) m2.
Proof. by intros s1 s2 a s1' H. Qed.

Lemma sim_deref {A} (o : option A) : sim (deref o) (deref o).
Proof. destruct o as [a|]; [apply sim_ret|apply sim_fail]. Qed.

Lemma sim_loop {A B} n1 n2 (f1 : A -> M S1 (A + B)) (f2 : A -> M S2 (A + B)) a :
  (n1 <= n2)%nat -> (forall a, sim (f1 a) (f2 a)) -> sim (loop n1 f1 a) (loop n2 f2 a).
Proof.
  intros Hn Hf. revert n2 a Hn. induction n1 as [|n1 IH]; intros [|n2] a Hn; try lia; try apply sim_fail.
  apply sim_bind; [apply Hf|]. intros [a'|b]; [apply IH; lia|apply sim_ret].
Qed.

Lemma sim_for n i (f1 : Z -> M S1 unit) (f2 : Z -> M S2 unit) :
  (forall j, sim (f1 j) (f2 j)) -> sim (for_ n i f1) (for_ n i f2).
Proof.
  intros Hf. revert i. induction n as [|n IH]; intros i; [apply sim_ret|]. simpl. apply sim_bind; [apply Hf|]. intros _. apply IH.
Qed.

Lemma sim_if {A} (b : bool) (m1 m1' : M S1 A) (m2 m2' : M S2 A) :
  sim m1 m2 -> sim m1' m2' -> sim (if b then m1 else m1') (if b then m2 else m2').
Proof. by destruct b. Qed.

Context (rd1 : Z -> M S1 Z) (rd2 : Z -> M S2 Z) (out1 : Z -> M S1 unit) (out2 : Z -> M S2 unit).
Hypothesis Hrd : forall p, sim (rd1 p) (rd2 p).
Hypothesis Hout : forall ch, sim (out1 ch) (out2 ch).

Ltac sim_step :=
  match goal with
  | |- sim (mret _) _ => apply sim_ret
  | |- sim (fail _) _ => apply sim_fail
  | |- sim (deref _) _ => apply sim_deref
  | |- sim (mbind _ _) _ => apply sim_bind; [|intros ?]
  | |- sim (match ?p with (_, _) => _ end) _ => destruct p
  | |- sim (if _ then _ else _) _ => apply sim_if
  | |- sim (for_ _ _ _) _ => apply sim_for; intros ?
  | |- sim (loop _ _ _) _ => apply sim_loop; [lia|intros ?]
  end.

Lemma sim_peek f : sim (peek rd1 f) (peek rd2 f).
Proof. destruct f; [apply Hrd|apply sim_deref]. Qed.

Lemma sim_va_word args : sim (va_word args) (va_word args).
Proof. destruct args; [apply sim_fail|apply sim_ret]. Qed.

Ltac sim_auto :=
  repeat first [apply sim_peek | apply sim_va_word | apply Hout | sim_step].

Lemma sim_va_int args : sim (va_int args) (va_int args).
Proof. unfold va_int. sim_auto. Qed.

Lemma sim_va_dword args : sim (va_dword args) (va_dword args).
Proof. unfold va_dword. sim_auto. Qed.

Lemma sim_parse_number n1 n2 f : (n1 <= n2)%nat -> sim (parse_number rd1 n1 f) (parse_number rd2 n2 f).
Proof. intros Hn. unfold parse_number. sim_auto. Qed.

Lemma sim_parse_conversion n1 n2 f args : (n1 <= n2)%nat ->
  sim (parse_conversion rd1 n1 f args) (parse_conversion rd2 n2 f args).
Proof.
  intros Hn. unfold parse_conversion, parse_flags, parse_type.
  repeat first [apply sim_parse_number; lia | apply sim_va_int | progress sim_auto | progress cbv zeta].
Qed.

Lemma sim_format_integer v sg ng b c : sim (format_integer out1 v sg ng b c) (format_integer out2 v sg ng b c).
Proof. unfold format_integer, accumulate, accumulate_turn, zero_fill, output_dup, push. cbv zeta. sim_auto. Qed.

Lemma sim_format_string s n c : sim (format_string rd1 out1 s n c) (format_string rd2 out2 s n c).
Proof. unfold format_string, output_dup. sim_auto. Qed.

Lemma sim_convert nested1 nested2 n1 n2 ch c args : (n1 <= n2)%nat ->
  (forall l a, sim (nested1 l a) (nested2 l a)) ->
  sim (convert rd1 out1 nested1 n1 ch c args) (convert rd2 out2 nested2 n2 ch c args).
Proof.
  intros Hn Hnest. unfold convert, signed_arg, unsigned_arg, strnlen_of. destruct (type c).
  all: repeat first [apply sim_format_integer | apply sim_format_string | apply sim_va_int | apply sim_va_dword | apply Hnest |
    progress sim_auto | progress cbv zeta].
Qed.

Lemma sim_vprintf d n1 n2 f args : (n1 <= n2)%nat -> sim (vprintf_loop rd1 out1 d n1 f args) (vprintf_loop rd2 out2 d n2 f args).
Proof.
  revert n1 n2 f args. induction d as [|d IH]; intros n1 n2 f args Hn; [apply sim_fail|]. cbn [vprintf_loop].
  apply sim_loop; [done|]. intros [f' args']. unfold vprintf_turn.
  repeat first [apply sim_parse_conversion; done | apply sim_convert; [done|by intros; apply IH] | progress sim_auto | progress cbv zeta].
Qed.
End simulation.

(** ** Formatting into a buffer *)
Definition outside (m : mem) (p n : Z) : mem := filter (fun kv => kv.1 < p \/ p + n <= kv.1) m.

(** The state of [vsnprintf] when the text so far is [out]. *)
Definition buffered (m : mem) (buffer room : Z) (out : list Z) (s : mem * vsnprintf_aux) : Prop :=
  alen out < 2 ^ 31 /\
  s = (write m buffer (take (Z.to_nat room) out), Aux (buffer + Z.min (alen out) room) (alen out) room).

Lemma buffered_rd m buffer room size p : 0 <= room <= size ->
  sim (buffered m buffer room) (text_rd (outside m buffer size) p) (buf_rd p).
Proof.
  intros Hr out s x out' [Hl ->] E. unfold text_rd, deref in E. destruct (outside m buffer size !! p) eqn:Ep; [|done].
  injection E as -> <-. apply map_lookup_filter_Some in Ep as [Hp Ho]. simpl in Ho.
  eexists. unfold buf_rd, mbind, M_bind. simpl. rewrite write_out; [rewrite Hp; by split|]. rewrite length_take. lia.
Qed.

Lemma buffered_output m buffer room ch : 0 <= room -> mapped m buffer (Z.to_nat room) ->
  sim (buffered m buffer room) (text_output ch) (vsnprintf_helper ch).
Proof.
  intros Hr Hm out s [] out' [Hl ->] E. unfold text_output, mbind, M_bind in E. simpl in E.
  destruct (Z.ltb_spec (alen out) (2 ^ 31 - 1)) as [Hlt|]; [|done]. injection E as <-.
  unfold vsnprintf_helper, mbind, M_bind. cbn [get aux_length max_length aux_p]. pose proof (alen_nonneg out).
  rewrite swrap_small by lia. destruct (Z.ltb_spec (alen out) room) as [Hroom|Hfull].
  - assert (is_Some (write m buffer (take (Z.to_nat room) out) !! (buffer + Z.min (alen out) room))) as [y ->].
    { apply write_mapped, Hm. lia. }
    cbn [deref mret M_ret put aux_length max_length aux_p]. eexists. split; [done|]. split; [rewrite alen_app; unfold alen in *; simpl; lia|].
    rewrite !take_ge by (rewrite ?length_app; unfold alen in *; simpl; lia). rewrite write_snoc, alen_app.
    replace (Z.min (alen out) room) with (Z.of_nat (length out)) by (unfold alen in *; lia). do 2 f_equal; unfold alen in *; simpl; lia.
  - cbn [put]. eexists. split; [done|]. split; [rewrite alen_app; unfold alen in *; simpl; lia|].
    rewrite alen_app. rewrite (take_app_le out) by (unfold alen in *; lia). f_equal. change (alen [u8 ch]) with 1. f_equal; lia.
Qed.

Lemma outside_size m p n : (size (outside m p n) <= size m)%nat.
Proof. apply map_subseteq_size, map_filter_subseteq. Qed.

Lemma vsnprintf_ok m buffer size f args text :
  0 <= size < 2 ^ 31 -> mapped m buffer (Z.to_nat size) ->
  formatted (outside m buffer size) f args = Ok text ->
  vsnprintf buffer size f args m =
    Ok (alen text, if 0 <? size then write m buffer (take (Z.to_nat (size - 1)) text ++ [0]) else m).
Proof.
  intros Hs Hm E. unfold formatted, mbind, result_bind in E.
  destruct (__vprintf _ _ _ f args []) as [[[] out]|] eqn:Ev; [|done]. injection E as <-. cbn [snd].
  set (room := if 0 <? size then s32 (size - 1) else 0).
  assert (0 <= room <= size /\ (0 < size -> room = size - 1)) as [Hroom Hr1].
  { unfold room. destruct (Z.ltb_spec 0 size); [rewrite swrap_small by lia|]; lia. }
  assert (buffered m buffer room [] (m, Aux buffer 0 room)) as H0.
  { split; [done|]. rewrite take_nil. change (alen (A := Z) []) with 0. simpl. do 2 f_equal; lia. }
  assert (mapped m buffer (Z.to_nat room)) as Hmr by (intros i Hi; apply Hm; lia).
  edestruct (sim_vprintf (buffered m buffer room) _ buf_rd _ vsnprintf_helper
    (fun p => buffered_rd m buffer room size p Hroom) (fun ch => buffered_output m buffer room ch ltac:(lia) Hmr))
    as (s2 & E2 & Hb); [|exact H0|exact Ev|].
  { pose proof (outside_size m buffer size). apply Nat.add_le_mono_r, Nat.add_le_mono_r. eassumption. }
  unfold vsnprintf, mbind, M_bind, result_bind. cbn [get]. unfold __vprintf. fold room. rewrite E2. clearbody room.
  destruct Hb as [Hl ->]. cbn [fst snd put aux_p aux_length]. destruct (Z.ltb_spec 0 size) as [Hpos|Hz].
  - specialize (Hr1 Hpos). subst room. pose proof (alen_nonneg out).
    rewrite store_ok by (apply write_mapped, Hm; lia). cbn [mret M_ret]. do 2 f_equal.
    rewrite write_snoc, length_take. change (u8 0) with 0. unfold alen, mret, M_ret. do 4 f_equal. lia.
  - assert (room = 0) as -> by lia. cbn [mret M_ret]. done.
Qed.

(** C16: [vsnprintf] stores the text that the format describes, cut to the
    buffer's size less one, with a terminator, writes nothing else, and returns
    the length the text would have had.  The format and the strings it refers to
    lie outside the buffer; with a size of zero nothing is written. *)
Theorem vsnprintf_bounded m buffer size f args text :
  0 <= size < 2 ^ 31 -> mapped m buffer (Z.to_nat size) ->
  formatted (outside m buffer size) f args = Ok text ->
  vsnprintf buffer size f args m =
    Ok (alen text, if 0 <? size then write m buffer (take (Z.to_nat (size - 1)) text ++ [0]) else m).
Proof. apply vsnprintf_ok. Qed.

Definition demo_buffer : mem := write (write ∅ 100 (lit "name: %s, size %5d")) 200 (lit "a.out" ++ replicate 20 255).

Lemma demo_buffer_mapped : mapped demo_buffer 206 16.
Proof.
  intros i Hi. assert (forall k : nat, (k < 16)%nat -> is_Some (demo_buffer !! (206 + Z.of_nat k))) as H.
  { intros k Hk. do 16 (destruct k as [|k]; [by eexists|]). lia. }
  replace i with (206 + Z.of_nat (Z.to_nat (i - 206))) by lia. apply H. lia.
Qed.

Lemma vsnprintf_bounded_witness :
  vsnprintf 206 16 (At 100) [200; 42] demo_buffer =
    Ok (23, write demo_buffer 206 (take 15 (txt "name: a.out, size    42") ++ [0])).
Proof.
  apply (vsnprintf_bounded demo_buffer 206 16 (At 100) [200; 42] (txt "name: a.out, size    42")).
  - lia.
  - apply demo_buffer_mapped.
  - vm_compute. reflexivity.
Defined.

(** ** Integers *)
Definition digits_value (b : Z) (ds : list Z) : Z := foldr (fun d v => d + b * v) 0 ds.

Lemma digits_of_value n b v : 2 <= b -> 0 <= v < b ^ Z.of_nat n -> digits_value b (digits_of n b v) = v.
Proof.
  intros Hb. revert v. induction n as [|n IH]; intros v Hv; [simpl in *; lia|]. cbn [digits_of].
  destruct (Z.ltb_spec 0 v); [|simpl; lia]. cbn [digits_value foldr]. fold (digits_value b (digits_of n b (v / b))).
  rewrite Nat2Z.inj_succ, Z.pow_succ_r in Hv by lia.
  rewrite IH by (split; [apply Z.div_pos; lia|apply Z.div_lt_upper_bound; lia]). pose proof (Z.div_mod v b). lia.
Qed.

Lemma digits_of_range n b v : 2 <= b -> Forall (fun d => 0 <= d < b) (digits_of n b v).
Proof.
  intros Hb. revert v. induction n as [|n IH]; intros v; [constructor|]. cbn [digits_of].
  destruct (0 <? v); constructor; [apply Z.mod_pos_bound; lia|apply IH].
Qed.



Lemma digits_of_pos n b v : 0 < v -> digits_of (Datatypes.S n) b v = v mod b :: digits_of n b (v / b).
Proof. intros H. cbn [digits_of]. by rewrite (proj2 (Z.ltb_lt _ _)). Qed.

(** Formatting an [int] in decimal. *)
Definition plain_int : printf_conversion := Conversion 0 0 (-1) INT.

Lemma text_output_ok ch out : alen out < 2 ^ 31 - 1 -> text_output ch out = Ok (tt, out ++ [u8 ch]).
Proof. intros H. unfold text_output, mbind, M_bind. cbn [get]. by rewrite (proj2 (Z.ltb_lt _ _)) by lia. Qed.

Lemma emit_text l out : alen out + alen l < 2 ^ 31 -> emit text_output l out = Ok (tt, out ++ map (wrap 8) l).
Proof.
  revert out. induction l as [|ch l IH]; intros out H; cbn [emit map]; [by rewrite app_nil_r|].
  rewrite alen_cons in H. pose proof (alen_nonneg l). unfold mbind, M_bind. rewrite text_output_ok by lia.
  rewrite IH by (rewrite alen_app; change (alen [u8 ch]) with 1; lia). by rewrite <- app_assoc.
Qed.

Definition int_text (v : Z) : list Z := integer_text (Z.abs v) true (v <? 0) base_d plain_int.

Definition decimal (v : Z) : list Z :=
  if v =? 0 then [48] else reverse (map (digit_char base_d) (digits_of 64 10 v)).

Lemma int_text_eq v : int_text v = (if v <? 0 then [45] else []) ++ decimal (Z.abs v).
Proof.
  unfold int_text, integer_text. 
  assert (numeral (Z.abs v) base_d plain_int = reverse (decimal (Z.abs v))) as ->.
  { unfold numeral, decimal. change (has_flag plain_int GROUP) with false. change (has_flag plain_int POUND) with false. cbv iota. cbn [andb].
    destruct (Z.eqb_spec (Z.abs v) 0) as [->|Hv]; [done|]. rewrite reverse_involutive. change (base base_d) with 10.
    change (if precision plain_int <? 0 then 1 else precision plain_int) with 1.
    rewrite digits_of_pos by lia. cbn [map]. rewrite alen_cons.
    match goal with |- context [Z.to_nat ?x] => replace (Z.to_nat x) with 0%nat; [by rewrite app_nil_r|] end.
    match goal with |- context [alen ?l] => pose proof (alen_nonneg l) end. lia. }
  change (has_flag plain_int MINUS) with false. change (has_flag plain_int ZERO) with false. change (has_flag plain_int POUND) with false.
  cbn [orb andb negb]. cbv iota. change (width plain_int) with 0. rewrite reverse_involutive, app_nil_r.
  match goal with |- replicate (Z.to_nat ?x) _ ++ _ = _ => replace (Z.to_nat x) with 0%nat end.
  - simpl. f_equal. unfold sign_of. change (has_flag plain_int PLUS) with false. change (has_flag plain_int SPACE) with false. by destruct (v <? 0).
  - match goal with |- context [0 - ?a - ?b - ?c] => assert (0 <= a /\ 0 <= b /\ 0 <= c) by (split_and!; apply alen_nonneg) end. lia.
Qed.

Lemma digit_char_10 d : 0 <= d < 10 -> digit_char base_d d = 48 + d.
Proof.
  intros Hd. assert (forall k : nat, (k < 10)%nat -> digit_char base_d (Z.of_nat k) = 48 + Z.of_nat k) as H.
  { intros k Hk. do 10 (destruct k as [|k]; [done|]). lia. }
  specialize (H (Z.to_nat d)). rewrite Z2Nat.id in H by lia. apply H. lia.
Qed.

Lemma decimal_digits v : Forall (fun d => isdigit d = true) (decimal v).
Proof.
  unfold decimal. destruct (v =? 0); [by repeat constructor|]. rewrite Forall_reverse, Forall_map.
  eapply Forall_impl; [by apply digits_of_range|]. intros d Hd. simpl in *. rewrite digit_char_10 by done. unfold isdigit. lia.
Qed.

Lemma decimal_value v : 0 <= v < 2 ^ 64 -> dec (decimal v) = v.
Proof.
  intros Hv. unfold decimal. destruct (Z.eqb_spec v 0) as [->|]; [done|].
  assert (0 <= v < 10 ^ Z.of_nat 64) as Hv'.
  { split; [lia|]. apply Z.lt_le_trans with (2 ^ 64); [lia|]. apply Z.leb_le. vm_compute. reflexivity. }
  pose proof (digits_of_value 64 10 v ltac:(lia) Hv') as E. rewrite <- E at 2. clear E.
  pose proof (digits_of_range 64 10 v ltac:(lia)) as H. generalize dependent (digits_of 64 10 v). intros l H. induction H as [|d ds Hd _ IH]; [done|].
  cbn [map digits_value foldr]. rewrite reverse_cons, dec_snoc, IH, digit_char_10 by done. unfold digits_value. lia.
Qed.

Lemma decimal_length v : 0 <= v <= 2 ^ 31 -> (1 <= length (decimal v) <= 10)%nat.
Proof.
  intros Hv. unfold decimal. destruct (Z.eqb_spec v 0); [simpl; lia|]. rewrite length_reverse, length_map. split.
  - rewrite digits_of_pos by lia. cbn [length]. lia.
  - apply digits_of_length; [lia|]. change (10 ^ Z.of_nat 10) with 10000000000. lia.
Qed.

Lemma int_text_chars v : Forall (fun c => is_byte c /\ c <> 0) (int_text v).
Proof.
  rewrite int_text_eq, Forall_app. split; [destruct (v <? 0); repeat constructor; unfold is_byte; lia|].
  eapply Forall_impl; [apply decimal_digits|]. intros d Hd. simpl in Hd. unfold isdigit in Hd. unfold is_byte. lia.
Qed.

Lemma int_text_length v : - 2 ^ 31 <= v < 2 ^ 31 -> (length (int_text v) <= 11)%nat.
Proof. intros Hv. rewrite int_text_eq, length_app. pose proof (decimal_length (Z.abs v)). destruct (v <? 0); simpl; lia. Qed.

Lemma map_u8_id l : Forall is_byte l -> map (wrap 8) l = l.
Proof. induction 1 as [|x l Hx _ IH]; [done|]. simpl. rewrite IH, wrap_small by done. done. Qed.

Lemma formatted_int m v : - 2 ^ 31 <= v < 2 ^ 31 -> formatted m (Lit (lit "%d")) [u32 v] = Ok (int_text v).
Proof.
  intros Hv. pose proof (int_text_length v Hv) as Hl. pose proof (int_text_chars v) as Hc. unfold formatted, __vprintf.
  replace (size m + length (lit "%d") + 32)%nat with (Datatypes.S (Datatypes.S (size m + 33))) by (simpl; lia).
  cbn [vprintf_loop]. rewrite (loop_step _ _ _ _ (inl (Lit [0], [])) (int_text v)); [done|].
  assert (s32 (u32 (u32 v)) = v) as Ev.
  { rewrite wrap_wrap by lia. unfold swrap, wrap. rewrite Zplus_mod_idemp_l, Z.mod_small; lia. }
  unfold vprintf_turn, mbind, M_bind, convert, signed_arg, va_int, mbind, M_bind. simpl. rewrite Ev.
  pose proof (format_integer_ok text_output (Z.abs v) true (v <? 0) base_d plain_int) as F.
  assert ((if v <? 0 then u64 (- v) else v) = Z.abs v) as ->.
  { destruct (Z.ltb_spec v 0); [rewrite wrap_small by lia|]; lia. }
  change (Conversion 0 0 (-1) INT) with plain_int. rewrite F; [|by left|lia|simpl; lia]. fold (int_text v).
  rewrite emit_text; [by rewrite map_u8_id by by apply chars_bytes|]. change (alen (A := Z) []) with 0. unfold alen. lia.
Qed.

Lemma parse_int_text v : parse (int_text v) = (v <? 0, decimal (Z.abs v)).
Proof.
  rewrite int_text_eq. pose proof (decimal_digits (Z.abs v)) as Hd.
  assert (forall l, Forall (fun d => isdigit d = true) l -> take (prefix_len isdigit l) l = l) as Htake.
  { intros l Hl. apply take_ge. induction Hl as [|x l Hx _ IH]; [done|]. simpl. rewrite Hx. simpl. lia. }
  assert (decimal (Z.abs v) <> []) as Hne.
  { unfold decimal. destruct (Z.eqb_spec (Z.abs v) 0); [done|]. rewrite digits_of_pos by lia. cbn [map]. rewrite reverse_cons. by destruct (reverse _). }
  unfold parse. destruct (v <? 0); [simpl; by rewrite Htake|]. cbn [app].
  specialize (Htake _ Hd). destruct (decimal (Z.abs v)) as [|c r]; [done|]. apply Forall_cons in Hd as [Hc Hd].
  assert (isspace c = false) as Hs by (unfold isdigit, isspace in *; lia). cbn [prefix_len]. rewrite Hs. cbn [drop].
  rewrite (proj2 (Z.eqb_neq c 43)), (proj2 (Z.eqb_neq c 45)) by (unfold isdigit in Hc; lia). cbn [prefix_len] in Htake. by rewrite Htake.
Qed.

(** C26: [atoi] reads back the number that [snprintf] with the format [%d] wrote,
    for every [int]: a buffer of 12 bytes is enough for all of them. *)
Theorem snprintf_atoi m buffer v :
  0 < buffer -> mapped m buffer 12 -> - 2 ^ 31 <= v < 2 ^ 31 ->
  exists m', (snprintf buffer 12 (Lit (lit "%d")) [u32 v];; atoi buffer) m = Ok (v, m').
Proof.
  intros Hb Hm Hv. pose proof (int_text_length v Hv) as Hl. unfold mbind, M_bind, snprintf.
  rewrite (vsnprintf_ok m buffer 12 _ _ (int_text v)); [|lia|done|by apply formatted_int].
  change (0 <? 12) with true. cbv iota. rewrite take_ge by (simpl; lia).
  pose proof (str_at_write m buffer (int_text v) Hb (int_text_chars v)) as Hs. eexists.
  pose proof (atoi_ok _ _ _ Hs) as H. rewrite parse_int_text, decimal_value in H by lia. rewrite H.
  - do 2 f_equal. destruct (Z.ltb_spec v 0); lia.
  - destruct (Z.ltb_spec v 0); simpl; lia.
Qed.

Lemma snprintf_atoi_witness :
  exists m', (snprintf 206 12 (Lit (lit "%d")) [u32 (- 2 ^ 31)];; atoi 206) demo_buffer = Ok (- 2 ^ 31, m').
Proof.
  apply snprintf_atoi; [lia| |lia]. intros i Hi. apply demo_buffer_mapped. lia.
Defined.

(** ** Printing on the console *)
Definition printed (text : list Z) (s : console) : console :=
  Console (cons_mem s) (in_interrupt s) (use_console_lock s) (console_held s) (console_lock_depth s)
    (swrap 64 (write_cnt s + alen text)) (screen s ++ text).

(** A thread that does not hold the lock has not nested it, and the depth is
    not at the end of its range. *)
Definition console_ok (s : console) : Prop :=
  0 <= console_lock_depth s < 2 ^ 31 - 1 /\ (console_held s = false -> console_lock_depth s = 0) /\
  - 2 ^ 63 <= write_cnt s < 2 ^ 63.

Definition may_print (s : console) : bool := in_interrupt s || negb (use_console_lock s) || console_held s.

Definition on_screen (s : console) (out : list Z) (st : console * Z) : Prop :=
  alen out < 2 ^ 31 /\ st = (printed out s, alen out).

Lemma on_screen_output s ch : may_print s = true -> sim (on_screen s) (text_output ch) (vprintf_helper ch).
Proof.
  intros Hp out st [] out' [Hl ->] E. unfold text_output, mbind, M_bind in E. simpl in E.
  destruct (Z.ltb_spec (alen out) (2 ^ 31 - 1)) as [Hlt|]; [|done]. injection E as <-. pose proof (alen_nonneg out).
  exists (printed (out ++ [u8 ch]) s, alen out + 1). split; [|split; rewrite alen_app; change (alen [u8 ch]) with 1; [lia|done]].
  unfold vprintf_helper, putchar_have_lock, console_locked_by_current_thread, mbind, M_bind, result_bind. simpl.
  fold (may_print s). rewrite Hp. simpl. do 3 f_equal; [|rewrite swrap_small; lia].
  unfold printed. simpl. rewrite swrap_add by lia. rewrite alen_app, app_assoc. change (alen [u8 ch]) with 1. do 2 f_equal. lia.
Qed.

Lemma on_screen_rd m s p : cons_mem s = m -> sim (on_screen s) (text_rd m p) (vprintf_rd p).
Proof.
  intros Hm out st x out' [Ho ->] Ex. unfold text_rd, deref in Ex. destruct (m !! p) eqn:Ep; [|done]. injection Ex as -> <-.
  eexists. unfold vprintf_rd, cons_rd, mbind, M_bind, result_bind. simpl. by rewrite Hm, Ep.
Qed.

Lemma printed_nil s : - 2 ^ 63 <= write_cnt s < 2 ^ 63 -> printed [] s = s.
Proof.
  intros H. unfold printed. change (alen (A := Z) []) with 0. rewrite Z.add_0_r, app_nil_r, swrap_small by (try done; lia). by destruct s.
Qed.

Lemma acquire_release s text : console_ok s -> exists s1, acquire_console s = Ok (tt, s1) /\ may_print s1 = true /\
  cons_mem s1 = cons_mem s /\ write_cnt s1 = write_cnt s /\ release_console (printed text s1) = Ok (tt, printed text s).
Proof.
  intros (Hd & Hh & _). unfold acquire_console, release_console, may_print, mbind, M_bind. simpl.
  destruct s as [cm ii ul ch dp wc sc]. simpl in *. destruct ii, ul; simpl; try (eexists; by split_and!).
  destruct ch; simpl.
  - eexists. split_and!; [done..|]. simpl. rewrite swrap_small by lia. rewrite (proj2 (Z.ltb_lt _ _)) by lia.
    unfold put, set_lock, printed. simpl. do 3 f_equal. lia.
  - rewrite Hh by done. eexists. split_and!; [done..|]. simpl. done.
Qed.

(** Printing on the console writes exactly the text that the format
    describes, returns its length, and leaves the console lock as it was, free
    or held to the same depth, so that printing may be nested. *)
Theorem vprintf_console s f args text :
  console_ok s -> formatted (cons_mem s) f args = Ok text -> vprintf f args s = Ok (alen text, printed text s).
Proof.
  intros Hok E. pose proof Hok as (_ & _ & Hw).
  unfold formatted, mbind, result_bind in E. destruct (__vprintf _ _ _ f args []) as [[[] out]|] eqn:Ev; [|done].
  injection E as <-. cbn [snd] in *. destruct (acquire_release s out Hok) as (s1 & Ea & Hp & Hmem & Hwc & Er).
  destruct (sim_vprintf (on_screen s1) _ _ _ _ (fun p => on_screen_rd (cons_mem s) s1 p Hmem)
    (fun ch => on_screen_output s1 ch Hp) _ _ _ _ _ (Nat.le_refl _) [] (s1, 0) _ _ ltac:(split; [done|by rewrite printed_nil by by rewrite Hwc]) Ev)
    as (s2 & E2 & Hl & ->).
  unfold vprintf, mbind, M_bind, result_bind. rewrite Ea. unfold __vprintf. rewrite Hmem, E2. cbn [fst snd]. by rewrite Er.
Qed.

Definition demo_console : console := Console demo_buffer false true true 2 0 (txt "> ").

Lemma vprintf_console_witness :
  vprintf (At 100) [200; 42] demo_console = Ok (23, printed (txt "name: a.out, size    42") demo_console).
Proof.
  apply (vprintf_console demo_console (At 100) [200; 42] (txt "name: a.out, size    42")); [|vm_compute; reflexivity].
  split_and!; simpl; (done || lia).
Defined.
