(* ===== verification/Ustar.v ===== *)
(** * Archive headers (src/lib/ustar.c)

    Headers of the ustar format, with which files are copied to and from the
    file system.  A string is the list of its characters without the
    terminator, a header the list of its 512 bytes.  [strlcpy] and [snprintf]
    into a field of the header store what fits and a terminator, as Kstring and
    Kstdio show.

    Theorems: a header that [ustar_make_header] makes parses to the name, type
    and size it was made from; what [ustar_parse_header] accepts, whatever the
    header's bytes, has the right checksum, a size that an [int] holds, and a
    name that begins neither at the root nor at a parent directory. *)

From Stdlib Require Import String.
From S2P Require Import Prelude Kstring Kstdio.

Definition USTAR_HEADER_SIZE : Z := 512.
Definition USTAR_REGULAR : Z := 48.
Definition USTAR_DIRECTORY : Z := 53.
Definition USTAR_EOF : Z := -1.

(** ** The fields of [struct ustar_header]: offset and size *)
Abbreviation F_name := (0, 100).
Abbreviation F_mode := (100, 8).
Abbreviation F_uid := (108, 8).
Abbreviation F_gid := (116, 8).
Abbreviation F_size := (124, 12).
Abbreviation F_mtime := (136, 12).
Abbreviation F_chksum := (148, 8).
Abbreviation F_typeflag := (156, 1).
Abbreviation F_linkname := (157, 100).
Abbreviation F_magic := (257, 6).
Abbreviation F_version := (263, 2).
Abbreviation F_uname := (265, 32).
Abbreviation F_gname := (297, 32).
Abbreviation F_devmajor := (329, 8).
Abbreviation F_devminor := (337, 8).
Abbreviation F_prefix := (345, 155).
Abbreviation F_padding := (500, 12).

Definition get_field (h : list Z) (f : Z * Z) : list Z := slice_of h (Z.to_nat (fst f)) (Z.to_nat (snd f)).
Definition put_bytes (h : list Z) (f : Z * Z) (l : list Z) : list Z := splice h (Z.to_nat (fst f)) l.

(** [strlcpy] or [snprintf] into a field. *)
Definition put_string (h : list Z) (f : Z * Z) (s : list Z) : list Z :=
  put_bytes h f (take (Z.to_nat (snd f - 1)) s ++ [0]).

(** The string that begins at a byte of the header. *)
Fixpoint cstr (l : list Z) : list Z :=
  match l with [] => [] | c :: r => if c =? 0 then [] else c :: cstr r end.

(** ** Operations *)
Definition in_chksum (i : Z) : bool := (fst F_chksum <=? i) && (i <? fst F_chksum + snd F_chksum).

Fixpoint chksum_from (i chksum : Z) (header : list Z) : Z :=
  match header with
  | [] => chksum
  | b :: rest => chksum_from (i + 1) (u32 (chksum + (if in_chksum i then 32 else b))) rest
  end.

Definition calculate_chksum (h : list Z) : Z := chksum_from 0 0 (take (Z.to_nat USTAR_HEADER_SIZE) h).

(** The first [n] bytes of the string and its terminator are those of [l]. *)
Definition starts (s l : list Z) : bool := bool_decide (take (length l) (s ++ [0]) = l).

Definition antisocial (s : list Z) : bool := starts s (txt "/") || starts s (txt "./") || starts s (txt "../").

(** [strchr (s, '/') + 1] *)
Fixpoint after_slash (s : list Z) : list Z :=
  match s with [] => [] | c :: r => if c =? 47 then r else after_slash r end.

Fixpoint strip_loop (fuel : nat) (s : list Z) : result (list Z) :=
  match fuel with
  | O => Err NoFuel
  | S n => if antisocial s then strip_loop n (after_slash s) else Ok s
  end.

Definition strip_antisocial_prefixes (s : list Z) : result (list Z) :=
  s ← strip_loop (S (length s)) s;
  Ok (if bool_decide (s = []) || bool_decide (s = txt "..") then txt "." else s).

Definition ustar_make_header (file_name : list Z) (type size : Z) : result (option (list Z)) :=
  if negb ((type =? USTAR_REGULAR) || (type =? USTAR_DIRECTORY)) then Err AssertFail else
  file_name ← strip_antisocial_prefixes file_name;
  if 99 <? alen file_name then Ok None else
  let h := replicate (Z.to_nat USTAR_HEADER_SIZE) 0 in
  let h := put_string h F_name file_name in
  mode ← formatted ∅ (Lit (lit "%07o")) [if type =? USTAR_REGULAR then 420 else 493];
  let h := put_string h F_mode mode in
  let h := put_string h F_uid (txt "0000000") in
  let h := put_string h F_gid (txt "0000000") in
  size_text ← formatted ∅ (Lit (lit "%011o")) [u32 size];
  let h := put_string h F_size size_text in
  mtime ← formatted ∅ (Lit (lit "%011o")) [1136102400];
  let h := put_string h F_mtime mtime in
  let h := put_bytes h F_typeflag [u8 type] in
  let h := put_string h F_magic (txt "ustar") in
  let h := put_bytes h F_version [48; 48] in
  let h := put_string h F_gname (txt "root") in
  let h := put_string h F_uname (txt "root") in
  chksum ← formatted ∅ (Lit (lit "%07o")) [calculate_chksum h];
  Ok (Some (put_string h F_chksum chksum)).

Definition ULONG_MAX : Z := 2 ^ 32 - 1.
Definition INT_MAX : Z := 2 ^ 31 - 1.

Fixpoint parse_octal_from (ofs value : Z) (s : list Z) : option Z :=
  match s with
  | [] => None
  | c :: rest =>
    if (48 <=? c) && (c <=? 55) then
      if ULONG_MAX / 8 <? value then None
      else parse_octal_from (ofs + 1) (u32 (c - 48 + value * 8)) rest
    else if (c =? 32) || (c =? 0) then (if 0 <? ofs then Some value else None)
    else None
  end.

Definition parse_octal_field (s : list Z) : option Z := parse_octal_from 0 0 s.

Definition is_all_zeros (block : list Z) : bool := forallb (Z.eqb 0) block.

Inductive ustar_error :=
  | Not_ustar | Invalid_version | Corrupt_chksum | Checksum_mismatch | Name_too_long | Unimplemented_type
  | Corrupt_size | Too_large.

(** The name, type and size, the name absent at the end of the archive. *)
Definition ustar_parse_header (h : list Z) : result (ustar_error + option (list Z) * Z * Z) :=
  if is_all_zeros (take (Z.to_nat USTAR_HEADER_SIZE) h) then Ok (inr (None, USTAR_EOF, 0)) else
  if negb (bool_decide (get_field h F_magic = lit "ustar")) then Ok (inl Not_ustar) else
  if negb (bool_decide (get_field h F_version = [48; 48])) then Ok (inl Invalid_version) else
  match parse_octal_field (get_field h F_chksum) with
  | None => Ok (inl Corrupt_chksum)
  | Some chksum =>
    if negb (chksum =? calculate_chksum h) then Ok (inl Checksum_mismatch) else
    if negb (bool_decide (last (get_field h F_name) = Some 0)) || negb (bool_decide (head (get_field h F_prefix) = Some 0))
    then Ok (inl Name_too_long) else
    let typeflag := default 0 (head (get_field h F_typeflag)) in
    if negb (typeflag =? USTAR_REGULAR) && negb (typeflag =? USTAR_DIRECTORY) then Ok (inl Unimplemented_type) else
    match (if typeflag =? USTAR_REGULAR then
             match parse_octal_field (get_field h F_size) with
             | None => inl Corrupt_size
             | Some size => if INT_MAX <? size then inl Too_large else inr size
             end
           else inr 0) with
    | inl e => Ok (inl e)
    | inr size =>
      name ← strip_antisocial_prefixes (cstr h);
      Ok (inr (Some name, typeflag, size))
    end
  end.

(** ** Names *)
Definition name_chars (s : list Z) : Prop := Forall (fun c => is_byte c /\ c <> 0) s.

(** A name that is not empty and begins with no [/], [./] or [../]. *)
Definition social (s : list Z) : Prop := s <> [] /\ antisocial s = false /\ s <> txt "..".

Lemma antisocial_slash s : antisocial s = true -> (length (after_slash s) < length s)%nat.
Proof.
  unfold antisocial, starts. rewrite !orb_true_iff, !bool_decide_eq_true.
  assert (forall r, (length (after_slash r) <= length r)%nat) as Hle.
  { induction r as [|c r IH]; simpl; [done|]. destruct (c =? 47); lia. }
  destruct s as [|a s]; [by intros [[?|?]|?]|]. simpl.
  intros [[E|E]|E]; injection E as ->; [pose proof (Hle s); simpl; lia| |]; simpl; pose proof (Hle s); lia.
Qed.

Lemma after_slash_chars s : name_chars s -> name_chars (after_slash s).
Proof. induction 1; simpl; [constructor|]. by destruct (_ =? 47). Qed.

Lemma strip_loop_ok fuel s : (length s < fuel)%nat -> name_chars s ->
  exists r, strip_loop fuel s = Ok r /\ antisocial r = false /\ name_chars r.
Proof.
  revert s. induction fuel as [|fuel IH]; intros s Hl Hc; [lia|]. simpl. destruct (antisocial s) eqn:E; [|eauto].
  apply antisocial_slash in E. apply IH; [lia|by apply after_slash_chars].
Qed.

Lemma dot_ok : social (txt ".") /\ name_chars (txt ".").
Proof. split; [by split_and!; vm_compute|]. vm_compute. repeat constructor; discriminate. Qed.

Lemma strip_ok s : name_chars s -> exists r, strip_antisocial_prefixes s = Ok r /\ social r /\ name_chars r.
Proof.
  intros Hc. destruct (strip_loop_ok (S (length s)) s ltac:(lia) Hc) as (r & E & Hr & Hrc).
  unfold strip_antisocial_prefixes. rewrite E. cbn [mbind result_bind].
  destruct (bool_decide_reflect (r = [])) as [?|Hne]; [exists (txt "."); split; [done|apply dot_ok]|].
  destruct (bool_decide_reflect (r = txt "..")) as [?|Hdd]; [exists (txt "."); split; [done|apply dot_ok]|].
  exists r. by split_and!.
Qed.

Lemma strip_social s : social s -> strip_antisocial_prefixes s = Ok s.
Proof.
  intros (H1 & H2 & H3). unfold strip_antisocial_prefixes. simpl. rewrite H2. simpl.
  by rewrite !bool_decide_eq_false_2.
Qed.

Lemma cstr_chars l : Forall is_byte l -> name_chars (cstr l).
Proof. induction 1 as [|c l Hc _ IH]; simpl; [constructor|]. destruct (Z.eqb_spec c 0); constructor; [done|done]. Qed.

Lemma cstr_app s r : name_chars s -> cstr (s ++ 0 :: r) = s.
Proof.
  induction 1 as [|c s [Hc H0] _ IH]; [done|]. simpl. rewrite (proj2 (Z.eqb_neq _ _)) by done. by rewrite IH.
Qed.

(** ** Octal fields *)
Definition octal_value (v : Z) (l : list Z) : Z := fold_left (fun v c => c - 48 + v * 8) l v.

Definition octal_chars (l : list Z) : Prop := Forall (fun c => 48 <= c <= 55) l.

Lemma octal_value_mono l v : octal_chars l -> 0 <= v -> v <= octal_value v l.
Proof.
  intros Hl. revert v. induction Hl as [|c l Hc _ IH]; intros v Hv; simpl; [lia|]. specialize (IH (c - 48 + v * 8)). unfold octal_value in *. lia.
Qed.

Lemma parse_octal_ok l ofs v : octal_chars l -> 0 <= v -> 0 <= ofs -> 0 < ofs + alen l -> octal_value v l <= ULONG_MAX ->
  parse_octal_from ofs v (l ++ [0]) = Some (octal_value v l).
Proof.
  intros Hl. revert ofs v. induction Hl as [|c l Hc Hl IH]; intros ofs v Hv Hofs Hlen Hmax; simpl.
  - rewrite (proj2 (Z.ltb_lt _ _)) by (change (alen (A := Z) []) with 0 in Hlen; lia). done.
  - rewrite (proj2 (Z.leb_le _ _)), (proj2 (Z.leb_le _ _)) by lia. cbn [andb].
    pose proof (octal_value_mono l (c - 48 + v * 8) Hl ltac:(lia)) as Hm. simpl in Hmax. unfold octal_value in *. fold (octal_value) in *.
    assert (v <= ULONG_MAX / 8) by (unfold ULONG_MAX in *; apply Z.div_le_lower_bound; lia).
    rewrite (proj2 (Z.ltb_ge _ _)) by lia. rewrite wrap_small by (unfold ULONG_MAX in *; lia).
    apply IH; [lia|lia| |done]. pose proof (alen_nonneg l). lia.
Qed.

(** The text of [%0wo], for one or two digits of width. *)
Definition octal_text (w v : Z) : list Z := integer_text v false false base_o (Conversion ZERO w (-1) INT).

Definition zero_conversion (w : Z) : printf_conversion := Conversion ZERO w (-1) INT.

Lemma digit_char_8 d : 0 <= d < 8 -> digit_char base_o d = 48 + d.
Proof.
  intros Hd. assert (forall k : nat, (k < 8)%nat -> digit_char base_o (Z.of_nat k) = 48 + Z.of_nat k) as H.
  { intros k Hk. do 8 (destruct k as [|k]; [done|]). lia. }
  specialize (H (Z.to_nat d)). rewrite Z2Nat.id in H by lia. apply H. lia.
Qed.

Lemma octal_value_app v l k : octal_value v (l ++ k) = octal_value (octal_value v l) k.
Proof. apply fold_left_app. Qed.

Lemma octal_value_zeros n : octal_value 0 (replicate n 48) = 0.
Proof. induction n; [done|]. simpl. apply IHn. Qed.

Lemma octal_digits n v : 0 <= v < 8 ^ Z.of_nat n ->
  let l := reverse (map (digit_char base_o) (digits_of n 8 v)) in octal_chars l /\ octal_value 0 l = v.
Proof.
  intros Hv. cbv zeta. pose proof (digits_of_value n 8 v ltac:(lia) Hv) as E. pose proof (digits_of_range n 8 v ltac:(lia)) as H.
  revert E H. clear Hv. generalize (digits_of n 8 v). intros l <- H. induction H as [|d ds Hd _ [IH1 IH2]]; [by split; [constructor|]|].
  cbn [map digits_value foldr]. rewrite reverse_cons, octal_value_app, IH2, digit_char_8 by done. split.
  - apply Forall_app. split; [done|]. repeat constructor; lia.
  - simpl. unfold digits_value. lia.
Qed.

(** The digits of a number below [8 ^ w] and zeros before them. *)
Lemma octal_text_eq w v : 0 < w <= 11 -> 0 <= v < 8 ^ w -> v < 2 ^ 64 -> exists n : nat, exists l,
  octal_text w v = replicate n 48 ++ l /\ Z.of_nat n + alen l = w /\ octal_chars l /\ octal_value 0 l = v.
Proof.
  intros Hw Hv Hmax. unfold octal_text, integer_text. fold (zero_conversion w).
  set (body := numeral v base_o (zero_conversion w)).
  assert (alen body <= w /\ octal_chars (reverse body) /\ octal_value 0 (reverse body) = v) as (Hl & Hc & Hval).
  { unfold body, numeral. change (has_flag (zero_conversion w) GROUP) with false. change (has_flag (zero_conversion w) POUND) with false.
    cbn [andb]. cbv iota. change (base base_o) with 8. change (if precision (zero_conversion w) <? 0 then 1 else _) with 1.
    destruct (Z.eqb_spec v 0) as [->|Hne].
    { split; [change (1 <= w); lia|]. split; [repeat constructor; lia|done]. }
    rewrite (digits_of_enough (Z.to_nat w)) by (try lia; rewrite Z2Nat.id; lia). set (ds := digits_of (Z.to_nat w) 8 v).
    assert (1 <= alen ds) as H1.
    { unfold ds. destruct (Z.to_nat w) eqn:Ew; [lia|]. rewrite digits_of_pos by lia. rewrite alen_cons. pose proof (alen_nonneg (digits_of n 8 (v / 8))). lia. }
    replace (Z.to_nat (Z.min 1 63 - alen (map (digit_char base_o) ds))) with 0%nat by (unfold alen in *; rewrite length_map; lia).
    rewrite app_nil_r. split; [|apply octal_digits; rewrite Z2Nat.id; lia].
    unfold alen. rewrite length_map. pose proof (digits_of_length (Z.to_nat w) 8 v (Z.to_nat w) ltac:(lia) ltac:(rewrite Z2Nat.id; lia)). unfold ds. lia. }
  change (has_flag (zero_conversion w) MINUS) with false. change (has_flag (zero_conversion w) ZERO) with true.
  change (has_flag (zero_conversion w) POUND) with false. cbn [orb andb sign_of app]. cbv iota. rewrite app_nil_r. cbn [app].
  change (alen (A := Z) []) with 0. eexists _, _. split; [reflexivity|]. split; [|done].
  change (width (zero_conversion w)) with w. unfold alen in *. rewrite length_reverse. change (0 =? 0) with true. cbn [length]. lia.
Qed.

Lemma octal_text_facts w v : 0 < w <= 11 -> 0 <= v < 8 ^ w -> v < 2 ^ 64 ->
  alen (octal_text w v) = w /\ octal_chars (octal_text w v) /\ octal_value 0 (octal_text w v) = v.
Proof.
  intros Hw Hv Hmax. destruct (octal_text_eq w v Hw Hv Hmax) as (n & l & -> & Hl & Hc & Hval).
  unfold alen in *. rewrite length_app, length_replicate, octal_value_app, octal_value_zeros. split_and!; [lia| |done].
  apply Forall_app. split; [|done]. apply Forall_replicate. lia.
Qed.

Lemma octal_is_byte l : octal_chars l -> Forall is_byte l.
Proof. intros H. eapply Forall_impl; [exact H|]. intros c Hc. simpl in Hc. unfold is_byte. lia. Qed.

Lemma formatted_octal w v : w = 7 \/ w = 11 -> 0 <= v < 8 ^ w -> 0 <= v < 2 ^ 32 ->
  formatted ∅ (Lit (if w =? 7 then lit "%07o" else lit "%011o")) [v] = Ok (octal_text w v).
Proof.
  intros Hw Hv Hv32. destruct (octal_text_facts w v) as (Hl & Hc & _); [lia|done|lia|].
  unfold formatted, __vprintf. change (size (∅ : mem)) with 0%nat. cbn [Nat.add].
  assert (Z.of_nat (length (if w =? 7 then lit "%07o" else lit "%011o")) <= 6) by (destruct (w =? 7); vm_compute; discriminate).
  match goal with |- context [vprintf_loop _ _ _ ?f] => replace f with (S (S (f - 2))) by lia; set (fuel := (f - 2)%nat) end.
  assert (exists k, fuel = S (S (S (S (S (S (S (S k)))))))) as [k ->] by (exists (fuel - 8)%nat; lia).
  cbn [vprintf_loop]. rewrite (loop_step _ _ _ _ (inl (Lit [0], [])) (octal_text w v)); [done|].
  pose proof (format_integer_ok text_output v false false base_o (zero_conversion w)) as F.
  unfold vprintf_turn, mbind, M_bind, convert, unsigned_arg, mbind, M_bind.
  assert (emit text_output (octal_text w v) [] = Ok (tt, octal_text w v)) as Hemit.
  { rewrite emit_text; [by rewrite map_u8_id by by apply octal_is_byte|]. rewrite Hl. change (alen (A := Z) []) with 0. lia. }
  destruct Hw as [-> | ->]; simpl; rewrite wrap_small by done.
  - match goal with |- context [format_integer _ _ _ _ _ ?c] => change c with (zero_conversion 7) end.
    rewrite F; [|by right; left|lia|simpl; lia]. change (integer_text _ _ _ _ _) with (octal_text 7 v). by rewrite Hemit.
  - match goal with |- context [format_integer _ _ _ _ _ ?c] => change c with (zero_conversion 11) end.
    rewrite F; [|by right; left|lia|simpl; lia]. change (integer_text _ _ _ _ _) with (octal_text 11 v). by rewrite Hemit.
Qed.

Lemma formatted_octal_7 v : 0 <= v < 8 ^ 7 -> formatted ∅ (Lit (lit "%07o")) [v] = Ok (octal_text 7 v).
Proof. intros Hv. apply (formatted_octal 7); [by left|done|lia]. Qed.

Lemma formatted_octal_11 v : 0 <= v < 2 ^ 32 -> formatted ∅ (Lit (lit "%011o")) [v] = Ok (octal_text 11 v).
Proof. intros Hv. apply (formatted_octal 11); [by right|lia|done]. Qed.

Lemma parse_octal_text w v : 0 < w <= 11 -> 0 <= v < 8 ^ w -> 0 <= v < 2 ^ 32 ->
  parse_octal_field (octal_text w v ++ [0]) = Some v.
Proof.
  intros Hw Hv Hv32. destruct (octal_text_facts w v Hw Hv ltac:(lia)) as (Hl & Hc & Hval).
  unfold parse_octal_field. rewrite parse_octal_ok; [by rewrite Hval|done|lia|lia|lia|rewrite Hval; unfold ULONG_MAX; lia].
Qed.

Lemma parse_octal_nonneg s v : parse_octal_field s = Some v -> 0 <= v.
Proof.
  unfold parse_octal_field. assert (forall s ofs x, 0 <= x -> parse_octal_from ofs x s = Some v -> 0 <= v) as H; [|by apply H].
  clear s. induction s as [|c s IH]; intros ofs x Hx; simpl; [done|]. destruct (_ && _).
  - destruct (_ <? x); [done|]. apply IH. apply wrap_range. lia.
  - destruct (_ || _); [|done]. destruct (0 <? ofs); [|done]. by intros [= <-].
Qed.

(** ** Fields of a header *)
Definition field_ok (f : Z * Z) : Prop := 0 <= fst f /\ 0 < snd f /\ fst f + snd f <= USTAR_HEADER_SIZE.
Definition disjoint (f g : Z * Z) : Prop := fst f + snd f <= fst g \/ fst g + snd g <= fst f.

(** Bytes written to fields, one after the other. *)
Definition puts (h : list Z) (l : list ((Z * Z) * list Z)) : list Z := foldl (fun h fb => put_bytes h (fst fb) (snd fb)) h l.

Definition fits (fb : (Z * Z) * list Z) : Prop := field_ok (fst fb) /\ alen (snd fb) <= snd (fst fb).

Lemma put_bytes_length h f b : length h = 512%nat -> fits (f, b) -> length (put_bytes h f b) = 512%nat.
Proof. intros Hh [(H1 & H2 & H3) H4]. unfold alen, USTAR_HEADER_SIZE in *. simpl in *. unfold put_bytes. rewrite splice_length; lia. Qed.

Lemma get_put_other h f b g : length h = 512%nat -> fits (f, b) -> field_ok g -> disjoint f g ->
  get_field (put_bytes h f b) g = get_field h g.
Proof.
  intros Hh [(H1 & H2 & H3) H4] (G1 & G2 & G3) Hd. unfold alen, USTAR_HEADER_SIZE, disjoint in *. simpl in *.
  apply list_eq. intros i. unfold get_field, put_bytes. destruct (decide (i < Z.to_nat (snd g))%nat) as [Hi|Hi].
  - rewrite !slice_of_lookup by done. rewrite splice_lookup by lia. case_decide; [lia|done].
  - rewrite !lookup_ge_None_2; [done| |]; unfold slice_of; rewrite length_take; lia.
Qed.

Lemma get_put_same h f b : length h = 512%nat -> fits (f, b) -> alen b = snd f -> get_field (put_bytes h f b) f = b.
Proof.
  intros Hh [(H1 & H2 & H3) H4] Hl. unfold alen, USTAR_HEADER_SIZE in *. simpl in *. unfold get_field, put_bytes.
  replace (Z.to_nat (snd f)) with (length b) by lia. apply slice_splice. lia.
Qed.

Lemma puts_length h l : length h = 512%nat -> Forall fits l -> length (puts h l) = 512%nat.
Proof.
  intros Hh Hl. revert h Hh. induction Hl as [|[f b] l Hf _ IH]; intros h Hh; [done|]. apply IH. by apply put_bytes_length.
Qed.

Lemma get_puts_other h l g : length h = 512%nat -> Forall fits l -> field_ok g -> Forall (fun fb => disjoint (fst fb) g) l ->
  get_field (puts h l) g = get_field h g.
Proof.
  intros Hh Hl Hg. revert h Hh. induction Hl as [|[f b] l Hf _ IH]; intros h Hh Hd; [done|].
  apply Forall_cons in Hd as [Hd1 Hd]. simpl. rewrite IH; [by apply get_put_other|by apply put_bytes_length|done].
Qed.

Lemma get_puts h l1 f b l2 : length h = 512%nat -> Forall fits (l1 ++ (f, b) :: l2) -> alen b = snd f ->
  Forall (fun fb => disjoint (fst fb) f) l2 -> get_field (puts h (l1 ++ (f, b) :: l2)) f = b.
Proof.
  intros Hh Hl Hb Hd. apply Forall_app in Hl as [Hl1 Hl2]. apply Forall_cons in Hl2 as [Hf Hl2].
  unfold puts. rewrite foldl_app. simpl. fold (puts h l1). fold (puts (put_bytes (puts h l1) f b) l2).
  pose proof (puts_length h l1 Hh Hl1) as H1. rewrite get_puts_other; [by apply get_put_same|by apply put_bytes_length|done|apply Hf|done].
Qed.

(** The checksum does not look at its own field. *)
Lemma chksum_from_ext l l' i c : length l = length l' -> (forall k, in_chksum (i + Z.of_nat k) = false -> l !! k = l' !! k) ->
  chksum_from i c l = chksum_from i c l'.
Proof.
  revert l' i c. induction l as [|x l IH]; intros [|y l'] i c Hl H; try done. simpl in Hl |- *.
  assert ((if in_chksum i then 32 else x) = (if in_chksum i then 32 else y)) as ->.
  { destruct (in_chksum i) eqn:E; [done|]. specialize (H 0%nat). rewrite Z.add_0_r in H. specialize (H E). by injection H. }
  apply IH; [lia|]. intros k Hk. apply (H (S k)). by replace (i + Z.of_nat (S k)) with (i + 1 + Z.of_nat k) by lia.
Qed.

Lemma chksum_own_field h b : length h = 512%nat -> alen b = 8 -> calculate_chksum (put_bytes h F_chksum b) = calculate_chksum h.
Proof.
  intros Hh Hb. unfold alen in Hb. unfold calculate_chksum. change (Z.to_nat USTAR_HEADER_SIZE) with 512%nat.
  assert (length (put_bytes h F_chksum b) = 512%nat) as Hp by (unfold put_bytes; rewrite splice_length; simpl; lia).
  rewrite !take_ge by lia. apply chksum_from_ext; [lia|]. intros k Hk. unfold in_chksum in Hk. simpl in Hk.
  unfold put_bytes. rewrite splice_lookup by (simpl; lia). case_decide as Hd; [simpl in Hd; lia|done].
Qed.

Lemma chksum_bound l i c : Forall is_byte l -> 0 <= c -> c + 255 * alen l < 2 ^ 32 ->
  0 <= chksum_from i c l <= c + 255 * alen l.
Proof.
  intros Hl. revert i c. induction Hl as [|x l Hx _ IH]; intros i c Hc Hm; [change (alen (A := Z) []) with 0; simpl; lia|].
  rewrite alen_cons in *. pose proof (alen_nonneg l). unfold is_byte in Hx. simpl. set (y := if in_chksum i then 32 else x).
  assert (0 <= y <= 255) by (unfold y; destruct (in_chksum i); lia). rewrite wrap_small by lia.
  specialize (IH (i + 1) (c + y) ltac:(lia) ltac:(lia)). lia.
Qed.

(** ** Making a header *)
Lemma puts_bytes h l : Forall is_byte h -> Forall (fun fb => Forall is_byte (snd fb)) l -> Forall is_byte (puts h l).
Proof.
  intros Hh Hl. revert h Hh. induction Hl as [|[f b] l Hf _ IH]; intros h Hh; [done|]. apply IH.
  unfold put_bytes, splice. rewrite !Forall_app. split_and!; [by apply Forall_take|done|by apply Forall_drop].
Qed.

Definition blank : list Z := replicate (Z.to_nat USTAR_HEADER_SIZE) 0.

Lemma blank_length : length blank = 512%nat.
Proof. done. Qed.

Definition header_fields (name : list Z) (type size : Z) : list ((Z * Z) * list Z) :=
  [(F_name, name ++ [0]); (F_mode, octal_text 7 (if type =? USTAR_REGULAR then 420 else 493) ++ [0]);
   (F_uid, txt "0000000" ++ [0]); (F_gid, txt "0000000" ++ [0]); (F_size, octal_text 11 size ++ [0]);
   (F_mtime, octal_text 11 1136102400 ++ [0]); (F_typeflag, [type]); (F_magic, txt "ustar" ++ [0]); (F_version, [48; 48]);
   (F_gname, txt "root" ++ [0]); (F_uname, txt "root" ++ [0])].

Definition header_of (name : list Z) (type size : Z) : list Z :=
  let h := puts blank (header_fields name type size) in
  put_bytes h F_chksum (octal_text 7 (calculate_chksum h) ++ [0]).

Section making.
Context (name : list Z) (type size : Z).
Hypothesis Hname : name_chars name.
Hypothesis Hlen : alen name <= 99.
Hypothesis Htype : type = USTAR_REGULAR \/ type = USTAR_DIRECTORY.
Hypothesis Hsize : 0 <= size < 2 ^ 31.

Lemma octal_len w v : 0 < w <= 11 -> 0 <= v < 8 ^ w -> v < 2 ^ 64 -> alen (octal_text w v ++ [0]) = w + 1.
Proof. intros Hw Hv Hm. destruct (octal_text_facts w v Hw Hv Hm) as (Hl & _). rewrite alen_app, Hl. done. Qed.

Lemma octal_bytes w v : 0 < w <= 11 -> 0 <= v < 8 ^ w -> v < 2 ^ 64 -> Forall is_byte (octal_text w v ++ [0]).
Proof.
  intros Hw Hv Hm. destruct (octal_text_facts w v Hw Hv Hm) as (_ & Hc & _). apply Forall_app.
  split; [by apply octal_is_byte|repeat constructor; unfold is_byte; lia].
Qed.

Lemma chksum_fits v : 0 <= v < 8 ^ 7 -> fits (F_chksum, octal_text 7 v ++ [0]).
Proof. intros Hv. split; [unfold field_ok, USTAR_HEADER_SIZE; simpl; lia|]. cbn [fst snd]. rewrite octal_len by lia. done. Qed.

Let mode : Z := if type =? USTAR_REGULAR then 420 else 493.

Lemma mode_range : 0 <= mode < 8 ^ 7.
Proof. unfold mode. destruct (_ =? _); lia. Qed.

Lemma header_fits : Forall fits (header_fields name type size).
Proof.
  unfold header_fields. repeat (apply Forall_cons; split); [..|constructor].
  all: split; [unfold field_ok, USTAR_HEADER_SIZE; simpl; lia|simpl].
  all: first [rewrite octal_len; try lia; fold mode; pose proof mode_range; lia | by vm_compute | idtac].
  rewrite alen_app. change (alen [0]) with 1. lia.
Qed.

Lemma header_bytes : Forall is_byte (puts blank (header_fields name type size)).
Proof.
  apply puts_bytes; [apply Forall_replicate; unfold is_byte; lia|]. unfold header_fields.
  repeat (apply Forall_cons; split); [..|constructor]; cbn [snd].
  all: first [apply octal_bytes; try lia; fold mode; pose proof mode_range; lia | vm_compute; repeat constructor; discriminate | idtac].
  - apply Forall_app. split; [by apply chars_bytes|repeat constructor; unfold is_byte; lia].
  - repeat constructor; unfold is_byte, USTAR_REGULAR, USTAR_DIRECTORY in *; lia.
Qed.

Lemma header_chksum : 0 <= calculate_chksum (puts blank (header_fields name type size)) < 8 ^ 7.
Proof.
  unfold calculate_chksum. change (Z.to_nat USTAR_HEADER_SIZE) with 512%nat.
  pose proof (puts_length blank (header_fields name type size) ltac:(done) header_fits) as Hl. rewrite take_ge by lia.
  pose proof (chksum_bound _ 0 0 header_bytes) as H. unfold alen in H. rewrite Hl in H. lia.
Qed.

Lemma puts_cons h f b l : puts h ((f, b) :: l) = puts (put_bytes h f b) l.
Proof. done. Qed.

Lemma puts_nil h : puts h [] = h.
Proof. done. Qed.

Lemma put_string_fits h f s : alen s < snd f -> put_string h f s = put_bytes h f (s ++ [0]).
Proof. intros H. unfold put_string. rewrite take_ge; [done|]. unfold alen in H. lia. Qed.

Lemma bind_Ok {A B} (a : A) (f : A -> result B) : (x ← Ok a; f x) = f a.
Proof. done. Qed.

Lemma make_ok s : strip_antisocial_prefixes s = Ok name -> ustar_make_header s type size = Ok (Some (header_of name type size)).
Proof.
  intros E. unfold ustar_make_header. destruct (_ || _) eqn:Et; [|destruct Htype as [-> | ->]; vm_compute in Et; done].
  cbn [negb]. rewrite E, bind_Ok. rewrite (proj2 (Z.ltb_ge _ _)) by lia. cbv zeta. fold mode blank.
  pose proof mode_range as Hm. rewrite (wrap_small 32 size) by lia.
  rewrite (formatted_octal_7 mode), bind_Ok, !formatted_octal_11, !bind_Ok by lia.
  assert (alen (octal_text 7 mode) = 7 /\ alen (octal_text 11 size) = 11 /\ alen (octal_text 11 1136102400) = 11) as (L1 & L2 & L3)
    by (split_and!; apply octal_text_facts; lia).
  rewrite !(put_string_fits _ _ _) by first [rewrite L1; done | rewrite L2; done | rewrite L3; done | by vm_compute | simpl; lia].
  rewrite (wrap_small 8 type) by (unfold USTAR_REGULAR, USTAR_DIRECTORY in *; lia).
  pose proof header_chksum as Hc. unfold header_of, header_fields in *. fold mode in Hc |- *. rewrite !puts_cons, puts_nil in *.
  match goal with |- context [calculate_chksum ?h] => set (hd := h) in * end. clearbody hd.
  rewrite formatted_octal_7, bind_Ok by lia. rewrite put_string_fits; [done|].
  destruct (octal_text_facts 7 (calculate_chksum hd)) as (-> & _); [lia|lia|lia|done].
Qed.

Lemma header_length : length (header_of name type size) = 512%nat.
Proof.
  apply put_bytes_length; [by apply puts_length, header_fits|]. apply chksum_fits, header_chksum.
Qed.

(** The fields of the finished header. *)
Lemma header_field l1 f b l2 : header_fields name type size = l1 ++ (f, b) :: l2 -> alen b = snd f ->
  Forall (fun fb => disjoint (fst fb) f) l2 -> disjoint F_chksum f -> get_field (header_of name type size) f = b.
Proof.
  intros E Hb Hd Hc. pose proof header_fits as Hf. pose proof header_chksum as Hk. unfold header_of.
  assert (field_ok f) as Hok by (rewrite E in Hf; apply Forall_app in Hf as [_ Hf]; apply Forall_cons in Hf as [[? _] _]; done).
  rewrite get_put_other; [|by apply puts_length| |done|done].
  - rewrite E in *. by apply get_puts.
  - by apply chksum_fits.
Qed.

Ltac by_disjoint :=
  repeat (apply Forall_cons; split); try apply Forall_nil_2; unfold disjoint; cbn [fst snd]; lia.

Lemma header_magic : get_field (header_of name type size) F_magic = lit "ustar".
Proof. eapply (header_field (take 7 (header_fields name type size))); [reflexivity|done|by_disjoint|by_disjoint]. Qed.

Lemma header_version : get_field (header_of name type size) F_version = [48; 48].
Proof. eapply (header_field (take 8 (header_fields name type size))); [reflexivity|done|by_disjoint|by_disjoint]. Qed.

Lemma header_type : get_field (header_of name type size) F_typeflag = [type].
Proof. eapply (header_field (take 6 (header_fields name type size))); [reflexivity|done|by_disjoint|by_disjoint]. Qed.

Lemma header_size : get_field (header_of name type size) F_size = octal_text 11 size ++ [0].
Proof. eapply (header_field (take 4 (header_fields name type size))); [reflexivity|rewrite octal_len; (done || lia)|by_disjoint|by_disjoint]. Qed.

Lemma header_own_chksum : get_field (header_of name type size) F_chksum = octal_text 7 (calculate_chksum (header_of name type size)) ++ [0].
Proof.
  pose proof header_chksum as Hk. pose proof (puts_length blank (header_fields name type size) ltac:(done) header_fits) as Hl.
  unfold header_of. rewrite chksum_own_field by (try done; rewrite octal_len; lia). rewrite get_put_same; [done|done| |rewrite octal_len; (done || lia)].
  by apply chksum_fits.
Qed.

Lemma header_prefix : get_field (header_of name type size) F_prefix = replicate 155 0.
Proof.
  pose proof header_chksum as Hk. pose proof header_fits as Hf. unfold header_of.
  rewrite get_put_other; [|by apply puts_length| |unfold field_ok, USTAR_HEADER_SIZE; simpl; lia|by_disjoint].
  - rewrite get_puts_other; [done|done|done|unfold field_ok, USTAR_HEADER_SIZE; simpl; lia|by_disjoint].
  - by apply chksum_fits.
Qed.

Lemma header_name : get_field (header_of name type size) F_name = name ++ 0 :: replicate (99 - length name) 0.
Proof.
  pose proof header_chksum as Hk. pose proof header_fits as Hf. unfold alen in Hlen.
  assert (field_ok F_name) as Hok by (unfold field_ok, USTAR_HEADER_SIZE; simpl; lia). unfold header_of.
  rewrite get_put_other; [|by apply puts_length| |done|by_disjoint].
  - unfold header_fields in *. rewrite puts_cons. apply Forall_cons in Hf as [Hf1 Hf2].
    rewrite get_puts_other; [|apply put_bytes_length; [apply blank_length|done]|done|done|by_disjoint].
    unfold get_field, put_bytes, slice_of, splice, blank. change (Z.to_nat (fst F_name)) with 0%nat. change (Z.to_nat (snd F_name)) with 100%nat.
    change (Z.to_nat USTAR_HEADER_SIZE) with 512%nat. rewrite take_0, drop_replicate. cbn [app].
    replace (name ++ 0 :: replicate (99 - length name) 0) with ((name ++ [0]) ++ replicate (99 - length name) 0) by by rewrite <- app_assoc.
    rewrite drop_0, take_app, take_replicate, (take_ge (name ++ [0])) by (rewrite length_app; simpl; lia). f_equal. f_equal.
    rewrite length_app. simpl. lia.
  - by apply chksum_fits.
Qed.
End making.

(** ** Parsing *)
Lemma cstr_field h s r : get_field h F_name = s ++ 0 :: r -> name_chars s -> cstr h = s.
Proof.
  intros E Hs. unfold get_field, slice_of in E. change (Z.to_nat (fst F_name)) with 0%nat in E. rewrite drop_0 in E.
  rewrite <- (take_drop (Z.to_nat (snd F_name)) h), E, <- app_assoc. cbn [app]. by apply cstr_app.
Qed.

Lemma not_all_zeros h : length h = 512%nat -> get_field h F_magic = lit "ustar" -> is_all_zeros (take (Z.to_nat USTAR_HEADER_SIZE) h) = false.
Proof.
  intros Hl E. apply Bool.not_true_iff_false. intros Hz. unfold is_all_zeros in Hz. rewrite forallb_forall in Hz.
  change (Z.to_nat USTAR_HEADER_SIZE) with 512%nat in Hz. rewrite take_ge in Hz by lia.
  assert (h !! 257%nat = Some 117) as H117.
  { replace 257%nat with (257 + 0)%nat by lia. rewrite <- (slice_of_lookup h 257 6) by lia. by change (get_field h F_magic !! 0%nat = Some 117); rewrite E. }
  apply list_elem_of_lookup_2, list_elem_of_In in H117. specialize (Hz _ H117). done.
Qed.

(** The header of a file parses to the file. *)
Lemma parse_header_ok name type size :
  name_chars name -> social name -> alen name <= 99 -> type = USTAR_REGULAR \/ type = USTAR_DIRECTORY -> 0 <= size < 2 ^ 31 ->
  ustar_parse_header (header_of name type size) = Ok (inr (Some name, type, if type =? USTAR_REGULAR then size else 0)).
Proof.
  intros Hn Hsoc Hl Ht Hsz. pose proof (header_length name type size Hn Hl Ht Hsz) as Hlen.
  pose proof (header_magic name type size Hn Hl Ht Hsz) as Hmagic. pose proof (header_name name type size Hn Hl Ht Hsz) as Hname.
  pose proof (header_chksum name type size Hn Hl Ht Hsz) as Hc.
  assert (calculate_chksum (header_of name type size) = calculate_chksum (puts blank (header_fields name type size))) as Eck.
  { apply chksum_own_field; [by apply puts_length, header_fits|]. rewrite octal_len; (done || lia). }
  unfold ustar_parse_header. rewrite not_all_zeros by done. rewrite Hmagic, bool_decide_eq_true_2 by done. cbn [negb].
  rewrite (header_version name type size), bool_decide_eq_true_2 by done. cbn [negb].
  rewrite (header_own_chksum name type size) by done. rewrite parse_octal_text by (rewrite ?Eck; lia). rewrite Z.eqb_refl. cbn [negb].
  rewrite Hname, (header_prefix name type size) by done.
  rewrite (bool_decide_eq_true_2 (head (replicate 155 0) = Some 0)) by done. rewrite bool_decide_eq_true_2.
  2: { rewrite last_app_cons. change (0 :: replicate (99 - length name) 0) with (replicate (S (99 - length name)) 0).
       by rewrite replicate_S_end, last_snoc. }
  cbn [negb orb]. rewrite (header_type name type size) by done. cbv zeta. change (default 0 (head [type])) with type.
  assert (negb (type =? USTAR_REGULAR) && negb (type =? USTAR_DIRECTORY) = false) as -> by (destruct Ht as [-> | ->]; done).
  rewrite (header_size name type size) by done. rewrite parse_octal_text by lia. rewrite (proj2 (Z.ltb_ge _ _)) by (unfold INT_MAX; lia).
  rewrite (cstr_field _ _ _ Hname Hn), (strip_social name Hsoc). by destruct (type =? USTAR_REGULAR).
Qed.

(** C24: a header made for a file parses to that file.  For every name whose
    stripped form has at most 99 characters, each of the two types and every
    size an [int] holds, [ustar_make_header] makes a header of 512 bytes and
    [ustar_parse_header] returns the stripped name, the type, and the size of a
    regular file, zero for a directory. *)
Theorem ustar_round_trip s name type size :
  name_chars s -> strip_antisocial_prefixes s = Ok name -> alen name <= 99 ->
  type = USTAR_REGULAR \/ type = USTAR_DIRECTORY -> 0 <= size < 2 ^ 31 ->
  exists h, ustar_make_header s type size = Ok (Some h) /\ length h = 512%nat /\
    ustar_parse_header h = Ok (inr (Some name, type, if type =? USTAR_REGULAR then size else 0)).
Proof.
  intros Hs E Hl Ht Hsz. destruct (strip_ok s Hs) as (name' & E' & Hsoc & Hn). rewrite E in E'. injection E' as <-.
  exists (header_of name type size). split; [by apply make_ok|]. split; [by apply header_length|by apply parse_header_ok].
Qed.

Lemma ustar_round_trip_witness :
  exists h, ustar_make_header (txt "../bin/echo") USTAR_REGULAR 4660 = Ok (Some h) /\ length h = 512%nat /\
    ustar_parse_header h = Ok (inr (Some (txt "bin/echo"), USTAR_REGULAR, 4660)).
Proof.
  apply (ustar_round_trip (txt "../bin/echo") (txt "bin/echo") USTAR_REGULAR 4660); [|by vm_compute|by vm_compute|by left|lia].
  vm_compute. repeat constructor; discriminate.
Defined.

(** C25: whatever 512 bytes it is given, [ustar_parse_header] returns an error, the
    end of the archive or a file; the file has a checksum that matches its
    header, a size that an [int] holds, and a name that is not empty and begins
    with no [/], [./] or [../]. *)
Theorem ustar_parse_safe h :
  length h = 512%nat -> Forall is_byte h ->
  exists r, ustar_parse_header h = Ok r /\
    match r with
    | inl _ => True
    | inr (None, type, size) => type = USTAR_EOF /\ size = 0 /\ is_all_zeros h = true
    | inr (Some name, type, size) => social name /\ 0 <= size <= INT_MAX /\ (type = USTAR_REGULAR \/ type = USTAR_DIRECTORY) /\
        parse_octal_field (get_field h F_chksum) = Some (calculate_chksum h)
    end.
Proof.
  intros Hl Hb. unfold ustar_parse_header. change (Z.to_nat USTAR_HEADER_SIZE) with 512%nat. rewrite take_ge by lia.
  destruct (is_all_zeros h) eqn:Hz; [eexists; by split|].
  destruct (negb (bool_decide (get_field h F_magic = _))); [eexists; by split|].
  destruct (negb (bool_decide (get_field h F_version = _))); [eexists; by split|].
  destruct (parse_octal_field (get_field h F_chksum)) as [ck|] eqn:Hck; [|eexists; by split].
  destruct (Z.eqb_spec ck (calculate_chksum h)) as [->|]; cbn [negb]; [|eexists; by split].
  destruct (_ || _); [eexists; by split|]. set (type := default 0 _).
  destruct (negb (type =? USTAR_REGULAR) && negb (type =? USTAR_DIRECTORY)) eqn:Ht; [eexists; by split|].
  set (sz := if type =? USTAR_REGULAR then _ else _).
  assert (match sz with inl _ => True | inr size => 0 <= size <= INT_MAX end) as Hsz.
  { unfold sz. destruct (type =? USTAR_REGULAR); [|unfold INT_MAX; lia].
    destruct (parse_octal_field (get_field h F_size)) as [v|] eqn:Hv; [|done]. destruct (Z.ltb_spec INT_MAX v); [done|].
    apply parse_octal_nonneg in Hv. lia. }
  destruct sz as [e|size]; [eexists; by split|]. destruct (strip_ok (cstr h) (cstr_chars h Hb)) as (name & -> & Hsoc & _).
  eexists. split; [done|]. split_and!; [done|lia|lia| |done].
  destruct (Z.eqb_spec type USTAR_REGULAR); [by left|]. destruct (Z.eqb_spec type USTAR_DIRECTORY); [by right|done].
Qed.

Lemma ustar_parse_safe_witness :
  exists r, ustar_parse_header (replicate 512 7) = Ok r /\ match r with inl e => e = Not_ustar | inr _ => False end.
Proof.
  destruct (ustar_parse_safe (replicate 512 7)) as (r & E & _); [done|by apply Forall_replicate; unfold is_byte|].
  exists r. split; [exact E|]. vm_compute in E. injection E as <-. reflexivity.
Defined.
