(* ===== verification/Intq.v ===== *)
(** * Interrupt queues (src/devices/intq.c)

    The circular buffer that kernel threads share with interrupt handlers.  The
    functions run with interrupts off, so they are atomic up to the places where
    a thread sleeps: in [lock_acquire] when another thread has the queue's lock,
    and in [wait].  The state is the queue, where each thread that is in
    [intq_getc] or [intq_putc] stands, and the bytes put and got so far; a run is
    a sequence of calls, by threads and by handlers, and of continuations of
    threads.

    Theorems: with one thread at the queue and handlers that test it first, as
    its drivers use it, every run goes without a failed assertion, bytes come
    out in the order they went in, and the thread is asleep only when the queue
    has nothing for it; two threads in [intq_getc] can stop the kernel. *)

From S2P Require Import Prelude.

Definition INTQ_BUFSIZE : Z := 64.

(** [lock] is the holder, [not_full] and [not_empty] the waiting threads, 0 for
    none. *)
Record intq := Intq { lock : Z; not_full : Z; not_empty : Z; buf : list Z; head : Z; tail : Z }.

Inductive op := Get | Put (byte : Z).

(** Where a thread is: asleep for the lock, asleep in [wait] with the lock, or
    woken from it. *)
Inductive phase := Acquiring (o : op) | Waiting (o : op) | Woken (o : op).

Record world := World { q : intq; phases : gmap Z phase; sent : list Z; got : list Z }.

Definition set_q (x : intq) (w : world) : world := World x (phases w) (sent w) (got w).
Definition set_phase (t : Z) (p : phase) (w : world) : world := World (q w) (<[t := p]> (phases w)) (sent w) (got w).
Definition set_idle (t : Z) (w : world) : world := World (q w) (delete t (phases w)) (sent w) (got w).

(** ** Operations *)
Definition intq_init : intq := Intq 0 0 0 (replicate (Z.to_nat INTQ_BUFSIZE) 0) 0 0.

Definition next (pos : Z) : Z := (pos + 1) mod INTQ_BUFSIZE.

Definition intq_empty (x : intq) : bool := head x =? tail x.
Definition intq_full (x : intq) : bool := next (head x) =? tail x.

(** The condition an operation waits for; [wait] and [signal] name it by the
    address of the waiting thread. *)
Definition blocked_on (o : op) (x : intq) : bool := match o with Get => intq_empty x | Put _ => intq_full x end.
Definition waiter (o : op) (x : intq) : Z := match o with Get => not_empty x | Put _ => not_full x end.
Definition set_waiter (o : op) (t : Z) (x : intq) : intq :=
  match o with
  | Get => Intq (lock x) (not_full x) t (buf x) (head x) (tail x)
  | Put _ => Intq (lock x) t (not_empty x) (buf x) (head x) (tail x)
  end.
Definition set_lock (t : Z) (x : intq) : intq := Intq t (not_full x) (not_empty x) (buf x) (head x) (tail x).

(** [wait]: the thread sleeps in [thread_block]. *)
Definition wait (t : Z) (o : op) : M world unit :=
  w ← get;
  assert (blocked_on o (q w));;
  modify (fun w => set_phase t (Waiting o) (set_q (set_waiter o t (q w)) w)).

(** [thread_unblock] asserts that the thread is blocked. *)
Definition signal (o : op) : M world unit :=
  w ← get;
  assert (negb (blocked_on o (q w)));;
  let t := waiter o (q w) in
  if negb (t =? 0) then
    p ← deref (phases w !! t);
    match p with
    | Waiting o' => modify (fun w => set_phase t (Woken o') (set_q (set_waiter o 0 (q w)) w))
    | _ => fail AssertFail
    end
  else mret ().

(** The end of [intq_getc] and [intq_putc], after their loops. *)
Definition take_byte : M world unit :=
  w ← get;
  let x := q w in
  byte ← deref (buf x).[tail x];
  modify (fun w => World (Intq (lock x) (not_full x) (not_empty x) (buf x) (head x) (next (tail x))) (phases w) (sent w) (got w ++ [byte]));;
  signal (Put 0).

Definition put_byte (byte : Z) : M world unit :=
  w ← get;
  let x := q w in
  _ ← deref (buf x).[head x];
  modify (fun w => World (Intq (lock x) (not_full x) (not_empty x) (buf x).[head x <- u8 byte] (next (head x)) (tail x))
                     (phases w) (sent w ++ [u8 byte]) (got w));;
  signal Get.

Definition transfer (o : op) : M world unit := match o with Get => take_byte | Put byte => put_byte byte end.

(** From the top of the loop, for a thread: [lock_acquire] sleeps when the lock
    is taken. *)
Definition acquire_and_wait (t : Z) (o : op) : M world unit :=
  w ← get;
  if lock (q w) =? 0 then modify (fun w => set_q (set_lock t (q w)) w);; wait t o
  else modify (set_phase t (Acquiring o)).

Definition intq_loop (t : Z) (o : op) : M world unit :=
  w ← get;
  if blocked_on o (q w) then acquire_and_wait t o
  else modify (set_idle t);; transfer o.

(** [intq_getc] and [intq_putc] called in an interrupt handler. *)
Definition intq_handler (o : op) : M world unit :=
  w ← get;
  assert (negb (blocked_on o (q w)));;
  transfer o.

(** A thread goes on: it gets the lock once that is free, or it was woken,
    releases the lock and tests again. *)
Definition intq_resume (t : Z) : M world unit :=
  w ← get;
  match phases w !! t with
  | Some (Acquiring o) => if lock (q w) =? 0 then acquire_and_wait t o else mret ()
  | Some (Woken o) =>
    assert (lock (q w) =? t);;
    modify (fun w => set_q (set_lock 0 (q w)) w);;
    intq_loop t o
  | _ => mret ()
  end.

(** Calls by a thread, calls by a handler that tests the queue first, as
    [input_putc] and the serial driver do, and continuations. *)
Inductive event := Call (t : Z) (o : op) | Interrupt (o : op) | Resume (t : Z).

Definition event_step (e : event) : M world unit :=
  w ← get;
  match e with
  | Call t o => match phases w !! t with None => intq_loop t o | Some _ => mret () end
  | Interrupt o => if blocked_on o (q w) then mret () else intq_handler o
  | Resume t => intq_resume t
  end.

Fixpoint run (es : list event) : M world unit :=
  match es with [] => mret () | e :: es => event_step e;; run es end.

Definition start : world := World intq_init ∅ [] [].

(** ** The bytes in the queue *)
Definition count (x : intq) : Z := (head x - tail x) mod INTQ_BUFSIZE.
Definition byte_of (x : intq) (k : Z) : Z := default 0 (buf x).[(tail x + k) mod INTQ_BUFSIZE].
Definition contents (x : intq) : list Z := map (byte_of x) (seqZ 0 (count x)).

Definition ring_ok (x : intq) : Prop :=
  alen (buf x) = INTQ_BUFSIZE /\ 0 <= head x < INTQ_BUFSIZE /\ 0 <= tail x < INTQ_BUFSIZE.

Ltac mod_lia := unfold ring_ok, count, next, INTQ_BUFSIZE in *; cbn [head tail] in *; Z.div_mod_to_equations; lia.

Lemma empty_count x : ring_ok x -> intq_empty x = (count x =? 0).
Proof. intros (_ & Hh & Ht). unfold intq_empty. apply Bool.eq_true_iff_eq. rewrite !Z.eqb_eq. split; intros; mod_lia. Qed.

Lemma full_count x : ring_ok x -> intq_full x = (count x =? 63).
Proof. intros (_ & Hh & Ht). unfold intq_full. apply Bool.eq_true_iff_eq. rewrite !Z.eqb_eq. split; intros; mod_lia. Qed.

Lemma count_range x : 0 <= count x < 64.
Proof. unfold count, INTQ_BUFSIZE. apply Z.mod_pos_bound. lia. Qed.

(** The queue without its first byte, and with one more. *)
Definition taken (x : intq) : intq := Intq (lock x) (not_full x) (not_empty x) (buf x) (head x) (next (tail x)).
Definition added (byte : Z) (x : intq) : intq :=
  Intq (lock x) (not_full x) (not_empty x) (buf x).[head x <- byte] (next (head x)) (tail x).

Lemma taken_ok x : ring_ok x -> count x <> 0 ->
  ring_ok (taken x) /\ count (taken x) = count x - 1 /\ exists b, (buf x).[tail x] = Some b /\ contents x = b :: contents (taken x).
Proof.
  intros (Hb & Hh & Ht) Hc. assert (count (taken x) = count x - 1) as Hn by (unfold taken in *; simpl in *; mod_lia).
  split; [split; [done|split; [done|unfold taken; simpl; mod_lia]]|]. split; [done|].
  destruct (proj1 (aget_is_Some (buf x) (tail x))) as [b Eb]; [lia|]. exists b. split; [done|]. unfold contents. rewrite Hn.
  rewrite (seqZ_cons 0 (count x)) by (pose proof (count_range x); lia). cbn [map]. f_equal.
  - unfold byte_of. rewrite Z.add_0_r, Z.mod_small by lia. by rewrite Eb.
  - apply list_eq. intros i. rewrite !list_lookup_fmap.
    destruct (decide (i < Z.to_nat (count x - 1))%nat) as [Hi|Hi].
    + rewrite !lookup_seqZ_lt by lia. simpl. f_equal. unfold byte_of. simpl. do 2 f_equal. mod_lia.
    + rewrite !lookup_seqZ_ge by lia. done.
Qed.

Lemma added_ok byte x : ring_ok x -> count x <> 63 ->
  ring_ok (added byte x) /\ count (added byte x) = count x + 1 /\ contents (added byte x) = contents x ++ [byte].
Proof.
  intros (Hb & Hh & Ht) Hc. pose proof (count_range x) as Hr.
  assert (count (added byte x) = count x + 1) as Hn by (unfold added in *; simpl in *; mod_lia).
  split; [split; [simpl; by rewrite alen_aset|split; [unfold added; simpl; mod_lia|done]]|]. split; [done|].
  unfold contents. rewrite Hn, seqZ_app by lia. rewrite map_app. f_equal.
  - apply map_ext_in. intros k Hk. apply list_elem_of_In, elem_of_seqZ in Hk. unfold byte_of, added. simpl. f_equal.
    rewrite aget_aset_ne; [done|]. mod_lia.
  - assert ((tail x + (0 + count x)) mod INTQ_BUFSIZE = head x) as E by mod_lia.
    change (seqZ (0 + count x) 1) with [0 + count x]. cbn [map]. f_equal. unfold byte_of, added. cbn [buf tail]. rewrite E, aget_aset_eq; [done|lia].
Qed.

(** ** One thread and interrupt handlers *)
Section one_thread.
Context (t : Z).
Hypothesis Ht : t <> 0.

(** [o] and [o'] wait for the same condition. *)
Definition same_side (o o' : op) : bool := match o, o' with Get, Get | Put _, Put _ => true | _, _ => false end.

(** The lock and the waiting threads, by where the thread is. *)
Record at_queue (w : world) : Prop := {
  aq_only : forall u p, phases w !! u = Some p -> u = t;
  aq_lock : lock (q w) = match phases w !! t with None => 0 | Some _ => t end;
  aq_waiter : forall o, waiter o (q w) = match phases w !! t with Some (Waiting o') => if same_side o o' then t else 0 | _ => 0 end;
  aq_got_lock : forall o, phases w !! t <> Some (Acquiring o)
}.

Record queue_ok (w : world) : Prop := {
  qk_ring : ring_ok (q w);
  qk_fifo : sent w = got w ++ contents (q w);
  qk_thread : at_queue w;
  qk_asleep : forall o, phases w !! t = Some (Waiting o) -> blocked_on o (q w) = true
}.

Lemma set_waiter_ring o u x : ring_ok x -> ring_ok (set_waiter o u x) /\ contents (set_waiter o u x) = contents x.
Proof. by destruct o. Qed.

Lemma waiter_set o o' u x : waiter o' (set_waiter o u x) = if same_side o' o then u else waiter o' x.
Proof. by destruct o, o'. Qed.

Lemma lock_set_waiter o u x : lock (set_waiter o u x) = lock x.
Proof. by destruct o. Qed.

Lemma same_side_sym o o' : same_side o o' = same_side o' o.
Proof. by destruct o, o'. Qed.

(** [signal] wakes the thread when it waits for the condition. *)
Lemma signal_ok o w : ring_ok (q w) -> sent w = got w ++ contents (q w) -> at_queue w -> blocked_on o (q w) = false ->
  (forall o', phases w !! t = Some (Waiting o') -> same_side o o' = true) -> wp (signal o) (fun _ w' => queue_ok w') w.
Proof.
  intros Hr Hf Ha Hb Hside. pose proof Ha as [Honly Hl Hw Hacq]. unfold signal. wp_step. wp_step. wp_step. apply wp_assert; [by rewrite Hb|].
  rewrite Hw. destruct (phases w !! t) as [[o'|o'|o']|] eqn:Ep.
  - by destruct (Hacq o').
  - rewrite Hside by done. rewrite (proj2 (Z.eqb_neq _ _)) by done. cbn [negb]. wp_step. eapply wp_deref; [exact Ep|]. apply wp_modify.
    destruct (set_waiter_ring o 0 (q w) Hr) as [Hr' Hc']. split; simpl; [done|by rewrite Hc'| |by rewrite lookup_insert_eq].
    split; simpl; [intros u p; rewrite lookup_insert_Some; naive_solver|by rewrite lookup_insert_eq, lock_set_waiter| |by rewrite lookup_insert_eq].
    intros o''. rewrite lookup_insert_eq, waiter_set, Hw. destruct (same_side o'' o) eqn:Es; [done|].
    specialize (Hside o' eq_refl). destruct o, o', o''; done.
  - apply wp_ret. by split; [..|rewrite Ep].
  - apply wp_ret. by split; [..|rewrite Ep].
Qed.

Lemma transfer_ok o w : queue_ok w -> blocked_on o (q w) = false -> wp (transfer o) (fun _ w' => queue_ok w') w.
Proof.
  intros [Hr Hf Ha Hsleep] Hb. pose proof (empty_count _ Hr) as He. pose proof (full_count _ Hr) as Hfu. pose proof (count_range (q w)) as Hn.
  pose proof Ha as [Honly Hl Hw Hacq]. destruct o as [|byte]; simpl in Hb; unfold transfer.
  - rewrite He in Hb. destruct (taken_ok (q w) Hr ltac:(lia)) as (Hr' & Hc' & b & Eb & Ect).
    unfold take_byte. wp_step. wp_step. wp_step. eapply wp_deref; [exact Eb|]. wp_step. wp_step. fold (taken (q w)).
    apply signal_ok; simpl.
    + done.
    + by rewrite <- app_assoc, Hf, Ect.
    + by split.
    + rewrite (full_count _ Hr'), Hc'. lia.
    + intros [|y] Ep; [|done]. specialize (Hsleep _ Ep). simpl in Hsleep. rewrite He in Hsleep. lia.
  - rewrite Hfu in Hb. destruct (added_ok (u8 byte) (q w) Hr ltac:(lia)) as (Hr' & Hc' & Ect). destruct Hr as (Hlen & Hh & Htl).
    unfold put_byte. wp_step. wp_step. wp_step. destruct (proj1 (aget_is_Some (buf (q w)) (head (q w)))) as [b Eb]; [lia|].
    eapply wp_deref; [exact Eb|]. wp_step. wp_step. fold (added (u8 byte) (q w)).
    apply signal_ok; simpl.
    + done.
    + by rewrite Ect, Hf, app_assoc.
    + by split.
    + rewrite (empty_count _ Hr'), Hc'. lia.
    + intros [|y] Ep; [done|]. specialize (Hsleep _ Ep). simpl in Hsleep. rewrite Hfu in Hsleep. lia.
Qed.

Lemma loop_ok o w : ring_ok (q w) -> sent w = got w ++ contents (q w) -> (forall u p, phases w !! u = Some p -> u = t) ->
  lock (q w) = 0 -> (forall o, waiter o (q w) = 0) -> wp (intq_loop t o) (fun _ w' => queue_ok w') w.
Proof.
  intros Hr Hf Honly Hl Hw. unfold intq_loop. wp_step. wp_step. destruct (blocked_on o (q w)) eqn:Eb.
  - unfold acquire_and_wait. wp_step. wp_step. rewrite Hl. simpl. wp_step. wp_step. unfold wait. wp_step. wp_step. wp_step.
    assert (blocked_on o (set_lock t (q w)) = true) as Eb' by (by destruct o).
    apply wp_assert; [done|]. apply wp_modify. assert (ring_ok (set_lock t (q w))) as Hr1 by done.
    destruct (set_waiter_ring o t (set_lock t (q w)) Hr1) as [Hr' Hc']. split; simpl; [done|by rewrite Hc'| |].
    + split; simpl; [intros u p; rewrite lookup_insert_Some; naive_solver|by rewrite lookup_insert_eq, lock_set_waiter| |by rewrite lookup_insert_eq].
      intros o'. rewrite lookup_insert_eq, waiter_set. destruct (same_side o' o); [done|]. specialize (Hw o'). by destruct o'.
    + rewrite lookup_insert_eq. intros o' [= <-]. by destruct o.
  - wp_step. wp_step. apply transfer_ok; [|done]. split; simpl; [done|done| |].
    + split; simpl; [intros u p; rewrite lookup_delete_Some; naive_solver|by rewrite lookup_delete_eq| |by rewrite lookup_delete_eq].
      intros o'. by rewrite lookup_delete_eq.
    + by rewrite lookup_delete_eq.
Qed.

(** ** What one operation does, for the drivers that use the queue *)

(** Threads that wait may have been woken, and nothing else. *)
Definition woken (w w' : world) : Prop := forall u,
  phases w' !! u = phases w !! u \/ exists o, phases w !! u = Some (Waiting o) /\ phases w' !! u = Some (Woken o).

Definition moved (o : op) (w w' : world) : Prop :=
  match o with
  | Get => sent w' = sent w /\ exists b, got w' = got w ++ [b]
  | Put byte => sent w' = sent w ++ [u8 byte] /\ got w' = got w
  end.

Lemma signal_effect o w w' : signal o w = Ok (tt, w') -> woken w w' /\ sent w' = sent w /\ got w' = got w.
Proof.
  unfold signal, get, assert, deref, modify, fail, mbind, M_bind, mret, M_ret; cbn.
  repeat (case_match; simplify_eq/=); intros; simplify_eq/=; (split; [|done]); intros u; simpl; [|by left].
  destruct (decide (u = waiter o (q w))) as [->|Hne]; [right|left; by rewrite lookup_insert_ne].
  eexists. split; [done|]. by rewrite lookup_insert_eq.
Qed.

Lemma transfer_effect o w w' : transfer o w = Ok (tt, w') -> woken w w' /\ moved o w w'.
Proof.
  destruct o as [|byte]; unfold transfer, take_byte, put_byte.
  all: unfold get, deref, modify, fail, mbind, M_bind, mret, M_ret; cbn; destruct (aget _ _); cbn; [|done].
  all: intros (Hw & Hs & Hg)%signal_effect; (split; [exact Hw|]); split; [by rewrite Hs|rewrite Hg; eauto].
Qed.

Lemma transfer_wp o w :
  queue_ok w -> blocked_on o (q w) = false -> wp (transfer o) (fun _ w' => queue_ok w' /\ woken w w' /\ moved o w w') w.
Proof.
  intros Hw Hb. destruct (proj1 (wp_iff _ _ _) (transfer_ok o w Hw Hb)) as ([] & w' & E & Hw').
  eapply wp_eq; [exact E|]. split; [done|]. by apply transfer_effect.
Qed.

Lemma intq_handler_wp o w :
  queue_ok w -> blocked_on o (q w) = false -> wp (intq_handler o) (fun _ w' => queue_ok w' /\ woken w w' /\ moved o w w') w.
Proof. intros Hw Hb. unfold intq_handler. wp_step. wp_step. wp_step. apply wp_assert; [by rewrite Hb|]. by apply transfer_wp. Qed.

Lemma idle_wp o w :
  queue_ok w -> blocked_on o (q w) = false -> lock (q w) = 0 -> (forall o, waiter o (q w) = 0) ->
  wp (intq_loop t o) (fun _ w' => queue_ok w' /\ phases w' !! t = None /\ moved o w w') w.
Proof.
  intros [Hr Hf Ha Hsleep] Hb Hl Hwt. unfold intq_loop. wp_step. wp_step. rewrite Hb. wp_step. wp_step.
  assert (Hi : queue_ok (set_idle t w)).
  { split; simpl; [done|done| |by rewrite lookup_delete_eq]. split; simpl; [intros u p; rewrite lookup_delete_Some; intros [_ H]; by eapply aq_only|by rewrite lookup_delete_eq| |by rewrite lookup_delete_eq].
    intros o'. by rewrite lookup_delete_eq. }
  eapply wp_mono; [by apply transfer_wp|]. intros [] w' (Hw' & Hk & Hm). split; [done|]. split; [|done].
  destruct (Hk t) as [E|(o' & E & _)]; simpl in E; rewrite lookup_delete_eq in E; [done|done].
Qed.

(** A thread that need not wait. *)
Lemma intq_loop_wp o w :
  queue_ok w -> phases w !! t = None -> blocked_on o (q w) = false ->
  wp (intq_loop t o) (fun _ w' => queue_ok w' /\ phases w' !! t = None /\ moved o w w') w.
Proof.
  intros Hw Hp Hb. pose proof (qk_thread _ Hw) as Ha. apply idle_wp; [done|done| |].
  - by rewrite (aq_lock _ Ha), Hp.
  - intros o'. by rewrite (aq_waiter _ Ha), Hp.
Qed.

(** A thread that must. *)
Lemma intq_loop_sleeps o w :
  queue_ok w -> phases w !! t = None -> blocked_on o (q w) = true ->
  wp (intq_loop t o) (fun _ w' => queue_ok w' /\ phases w' !! t = Some (Waiting o) /\ sent w' = sent w /\ got w' = got w) w.
Proof.
  intros Hw Hp Hb. pose proof (qk_thread _ Hw) as Ha.
  assert (Hl : lock (q w) = 0) by (by rewrite (aq_lock _ Ha), Hp).
  assert (H : wp (intq_loop t o) (fun _ w' => queue_ok w') w).
  { apply loop_ok; [apply Hw|apply Hw|apply Ha|done|]. intros o'. by rewrite (aq_waiter _ Ha), Hp. }
  destruct (proj1 (wp_iff _ _ _) H) as ([] & w' & E & Hw'). eapply wp_eq; [exact E|]. split; [done|]. revert E.
  unfold intq_loop, acquire_and_wait, wait, get, modify, assert, mbind, M_bind, mret, M_ret; cbn. rewrite Hb. rewrite Hl; cbn.
  replace (blocked_on o (set_lock t (q w))) with true by (by destruct o). cbn. intros [= <-]; cbn. by rewrite lookup_insert_eq.
Qed.

(** A thread that was woken and need no longer wait. *)
Lemma intq_resume_wp o w :
  queue_ok w -> phases w !! t = Some (Woken o) -> blocked_on o (q w) = false ->
  wp (intq_resume t) (fun _ w' => queue_ok w' /\ phases w' !! t = None /\ moved o w w') w.
Proof.
  intros Hw Hp Hb. pose proof (qk_thread _ Hw) as Ha. unfold intq_resume. wp_step. wp_step. rewrite Hp. wp_step.
  apply wp_assert; [by rewrite (aq_lock _ Ha), Hp, Z.eqb_refl|]. wp_step. wp_step.
  unfold intq_loop. wp_step. wp_step. replace (blocked_on o _) with false by (by destruct o). wp_step. wp_step.
  eapply wp_mono; [apply transfer_wp|].
  - destruct Hw as [Hr Hf _ _]. split; simpl; [done|done| |by rewrite lookup_delete_eq].
    split; simpl; [intros u p; rewrite lookup_delete_Some; intros [_ H]; by eapply aq_only|by rewrite lookup_delete_eq| |by rewrite lookup_delete_eq].
    intros o'. rewrite lookup_delete_eq. replace (waiter o' _) with (waiter o' (q w)) by (by destruct o'). by rewrite (aq_waiter _ Ha), Hp.
  - by destruct o.
  - intros [] w' (Hw' & Hk & Hm). split; [done|]. split; [|by destruct o].
    destruct (Hk t) as [E|(o' & E & _)]; simpl in E; rewrite lookup_delete_eq in E; done.
Qed.

Definition only_thread (e : event) : Prop := match e with Call u _ => u = t | Interrupt _ => True | Resume u => u = t end.

Lemma event_ok e w : queue_ok w -> only_thread e -> wp (event_step e) (fun _ w' => queue_ok w') w.
Proof.
  intros H He. pose proof H as [Hr Hf Ha Hsleep]. pose proof Ha as [Honly Hl Hw Hacq]. unfold event_step. wp_step. wp_step.
  destruct e as [u o|o|u]; simpl in He; [subst u| |subst u].
  - destruct (phases w !! t) eqn:Ep; [by wp_step|]. by apply loop_ok.
  - destruct (blocked_on o (q w)) eqn:Eb; [by wp_step|]. unfold intq_handler. wp_step. wp_step. wp_step. apply wp_assert; [by rewrite Eb|].
    by apply transfer_ok.
  - unfold intq_resume. wp_step. wp_step. destruct (phases w !! t) as [[o|o|o]|] eqn:Ep; [by destruct (Hacq o)|by wp_step| |by wp_step].
    wp_step. apply wp_assert; [by rewrite Hl, Z.eqb_refl|]. wp_step. wp_step. by apply loop_ok.
Qed.

Lemma start_ok : queue_ok start.
Proof. split; [by repeat split|done| |done]. by split; [..|intros []|]. Qed.

Lemma run_ok es w : queue_ok w -> Forall only_thread es -> wp (run es) (fun _ w' => queue_ok w') w.
Proof.
  intros Hw Hes. revert w Hw. induction Hes as [|e es He _ IH]; intros w Hw; simpl; [by wp_step|].
  wp_step. eapply wp_mono; [by apply event_ok|]. intros [] w' Hw'. by apply IH.
Qed.

(** C17: with one thread at the queue and interrupt handlers that test it before
    they use it, every run goes without a failed assertion.  The bytes got are
    the bytes put, in order, up to the at most 63 that are in the queue, and the
    thread sleeps for data or for room only while there is none. *)
Theorem intq_one_thread es :
  Forall only_thread es ->
  exists w, run es start = Ok (tt, w) /\ sent w = got w ++ contents (q w) /\ alen (contents (q w)) <= 63 /\
    forall o, phases w !! t = Some (Waiting o) -> blocked_on o (q w) = true.
Proof.
  intros Hes. destruct (proj1 (wp_iff _ _ _) (run_ok es start start_ok Hes)) as ([] & w & E & [Hr Hf Ha Hs]).
  exists w. split_and!; try done. unfold contents, alen. rewrite length_map, length_seqZ. pose proof (count_range (q w)). lia.
Qed.
End one_thread.

Lemma intq_one_thread_witness :
  exists w, run [Call 1 Get; Interrupt (Put 7); Interrupt (Put 8); Resume 1; Call 1 Get] start = Ok (tt, w) /\
    sent w = got w ++ contents (q w) /\ alen (contents (q w)) <= 63 /\
    forall o, phases w !! 1 = Some (Waiting o) -> blocked_on o (q w) = true.
Proof. apply (intq_one_thread 1); [lia|]. by repeat constructor. Defined.

(** C38: two threads in [intq_getc] can stop the kernel.  The second sleeps in
    [lock_acquire] while the first waits for data; when two bytes arrive, the
    first thread releases the lock and takes one, and the second gets the lock
    and calls [wait] without testing the queue again, whose assertion that the
    queue is empty fails. *)
Theorem intq_two_readers :
  run [Call 1 Get; Call 2 Get; Interrupt (Put 7); Interrupt (Put 8); Resume 1; Resume 2] start = Err AssertFail.
Proof. reflexivity. Qed.
