(* ===== verification/Args.v ===== *)
(** * Command lines and the initial stack (src/userprog/process.c)

    How the command line given to [process_execute] becomes the [argc] and
    [argv] of the user program: [process_execute] splits it into words that it
    packs into a page, and [setup_stack], in the new process, copies them to the
    top of the user stack and builds the pointers below.  The functions work on
    the byte memory of Kstring, in which the pages of the kernel and the stack
    page of the process are mapped at their addresses.  The page allocator and
    [thread_create] are answers: the addresses of the two pages, 0 for none, and
    the new thread's identifier.

    Theorem: the user program finds its words.  From any command line whose
    arguments fit on the stack page the two functions end, and leave a stack with
    [argc], [argv] and the strings that are the words of the command line. *)

From S2P Require Import Prelude Kstring Vaddr.

Definition TID_ERROR : Z := -1.

(** [offsetof (struct thread, magic) + 4]. *)
Definition actual_thread_size : Z := 172.

(** A pointer or an [int] in memory, little-endian. *)
Definition word_bytes (v : Z) : list Z := [u8 v; u8 (v / 2 ^ 8); u8 (v / 2 ^ 16); u8 (v / 2 ^ 24)].
Definition store32 (p v : Z) : M mem unit :=
  store p v;; store (p + 1) (v / 2 ^ 8);; store (p + 2) (v / 2 ^ 16);; store (p + 3) (v / 2 ^ 24).

(** ** process_execute *)
(** One turn of the loop over the tokens: the call of [strtok_r] and, for a
    token, the copy of it. *)
Definition pack_turn (arg_copy space : Z) (st : Z * Z * Z) : M mem (Z * Z * Z + Z) :=
  let '(s, save_ptr, indexer) := st in
  r ← strtok_r s space save_ptr;
  let '(token, save_ptr) := r : Z * Z in
  if token =? 0 then mret (inr indexer) else
  length ← strlen token;
  _ ← strlcpy (arg_copy + indexer) token (length + 1);
  mret (inl (0, save_ptr, indexer + (length + 1))).

(** [while (indexer != PGSIZE) { arg_copy[indexer] = 0; ++indexer; }] *)
Definition zero_rest (arg_copy indexer : Z) : M mem unit :=
  loop (S (Z.to_nat PGSIZE)) (fun indexer =>
    if negb (indexer =? PGSIZE) then store (arg_copy + indexer) 0;; mret (inl (indexer + 1)) else mret (inr ())) indexer.

(** [space] is the literal of the delimiters, [arg_copy] and [fn_copy] the two
    pages, [tid] the result of [thread_create], whose child record is looked up
    and dereferenced. *)
Definition process_execute (file_name space arg_copy fn_copy tid : Z) : M mem Z :=
  if arg_copy =? 0 then mret TID_ERROR else
  _ ← strlcpy arg_copy file_name PGSIZE;
  indexer ← loop (S (Z.to_nat PGSIZE)) (pack_turn arg_copy space) (arg_copy, 0, 0);
  zero_rest arg_copy indexer;;
  if fn_copy =? 0 then mret TID_ERROR else
  for_ (Z.to_nat PGSIZE) 0 (fun i => b ← load (arg_copy + i); store (fn_copy + i) b);;
  _ ← deref (if tid =? TID_ERROR then None else Some tt);
  _ ← memset arg_copy 204 PGSIZE;
  mret tid.

(** ** setup_stack *)
(** The length of the packed words: up to two null bytes in a row. *)
Definition args_length (arg_array : Z) : M mem Z :=
  loop (S (Z.to_nat PGSIZE)) (fun idx =>
    if idx <? PGSIZE then
      if negb (idx =? 0) then
        a ← load (arg_array + idx);
        b ← load (arg_array + (idx - 1));
        if (a =? 0) && (b =? 0) then mret (inr idx) else mret (inl (idx + 1))
      else mret (inl (idx + 1))
    else mret (inr idx)) 0.

(** [installed] is whether the stack page was obtained and mapped; without it
    [*esp] keeps the value it had.  The result is the value returned and the
    stack pointer. *)
Definition setup_stack (installed : bool) (esp0 arg_array : Z) : M mem (bool * Z) :=
  let esp := if installed then PHYS_BASE else esp0 in
  max_idx ← args_length arg_array;
  if PGSIZE - actual_thread_size <? max_idx then mret (false, esp) else
  for_ (Z.to_nat max_idx) 0 (fun i => b ← load (arg_array + i); store (esp - (max_idx - i)) b);;
  let my_esp := esp - max_idx in
  let remain := 4 - max_idx mod 4 in
  for_ (Z.to_nat remain) 0 (fun i => store (my_esp - (remain - i)) 0);;
  let my_cpp := my_esp - remain - 8 in
  r ← for_acc (Z.to_nat max_idx) 2 (my_cpp, 0) (fun idx '(my_cpp, argc) =>
    b ← load (PHYS_BASE - idx);
    if b =? 0 then store32 my_cpp (PHYS_BASE - idx + 1);; mret (my_cpp - 4, argc + 1) else mret (my_cpp, argc));
  let '(my_cpp, argc) := r : Z * Z in
  store32 my_cpp (my_cpp + 4);;
  store32 (my_cpp - 4) argc;;
  mret (installed, my_cpp - 8).

(** ** Packed words *)
Definition pack (ws : list (list Z)) : list Z := concat (map (fun w => w ++ [0]) ws).

Definition word_ok (w : list Z) : Prop := w <> [] /\ Forall (fun c => is_byte c /\ c <> 0) w.

(** Where a word begins. *)
Definition off (ws : list (list Z)) (i : nat) : nat := length (pack (take i ws)).

Lemma pack_app ws1 ws2 : pack (ws1 ++ ws2) = pack ws1 ++ pack ws2.
Proof. unfold pack. by rewrite map_app, concat_app. Qed.

Lemma pack_snoc ws w : pack (ws ++ [w]) = pack ws ++ w ++ [0].
Proof. rewrite pack_app. unfold pack at 2. simpl. by rewrite app_nil_r. Qed.

Lemma pack_cons w ws : pack (w :: ws) = w ++ 0 :: pack ws.
Proof. unfold pack. simpl. by rewrite <- app_assoc. Qed.

Lemma off_all ws i : (length ws <= i)%nat -> off ws i = length (pack ws).
Proof. intros H. unfold off. by rewrite take_ge. Qed.

Lemma off_S ws i w : ws !! i = Some w -> off ws (S i) = (off ws i + length w + 1)%nat.
Proof. intros H. unfold off. rewrite (take_S_r _ _ _ H), pack_snoc, !length_app. simpl. lia. Qed.

Lemma off_lt ws i j : Forall word_ok ws -> (i < j)%nat -> (j <= length ws)%nat -> (off ws i + 2 <= off ws j)%nat.
Proof.
  intros Hw Hij Hj. induction j as [|j IH]; [lia|]. destruct (lookup_lt_is_Some_2 ws j) as [w Hjw]; [lia|].
  rewrite (off_S _ _ _ Hjw). destruct (Forall_lookup_1 _ _ _ _ Hw Hjw) as [Hne _].
  assert (0 < length w)%nat by (destruct w; [done|simpl; lia]).
  destruct (decide (i = j)) as [->|]; [lia|]. specialize (IH ltac:(lia) ltac:(lia)). lia.
Qed.

Lemma off_le ws i : (off ws i <= length (pack ws))%nat.
Proof. unfold off. rewrite <- (take_drop i ws) at 2. rewrite pack_app, length_app. lia. Qed.

(** The word at its offset, and the null bytes. *)
Lemma pack_word ws i w : ws !! i = Some w -> exists l r, pack ws = l ++ (w ++ [0]) ++ r /\ length l = off ws i.
Proof.
  intros H. exists (pack (take i ws)), (pack (drop (S i) ws)). split; [|done].
  rewrite <- (take_drop i ws) at 1. rewrite (drop_S _ _ _ H), pack_app, pack_cons, <- app_assoc. done.
Qed.

Lemma pack_zero ws j : Forall word_ok ws ->
  pack ws !! j = Some 0 <-> exists i, (1 <= i <= length ws)%nat /\ off ws i = S j.
Proof.
  intros Hw. revert j. induction ws as [|w ws IH] using rev_ind; intros j.
  { split; [done|]. intros (i & Hi & _). simpl in Hi. lia. }
  apply Forall_app in Hw as [Hw Hw1]. apply Forall_cons in Hw1 as [[Hne Hc] _]. specialize (IH Hw).
  assert (forall i, (i <= length ws)%nat -> off (ws ++ [w]) i = off ws i) as Hoff.
  { intros i Hi. unfold off. by rewrite take_app_le. }
  rewrite pack_snoc, length_app. simpl. destruct (decide (j < length (pack ws))%nat) as [Hj|Hj].
  - rewrite lookup_app_l by done. rewrite IH. split.
    + intros (i & Hi & E). exists i. rewrite Hoff by lia. split; [lia|done].
    + intros (i & Hi & E). destruct (decide (i <= length ws)%nat) as [Hle|Hgt].
      * exists i. rewrite Hoff in E by lia. split; [lia|done].
      * assert (off (ws ++ [w]) i = length (pack (ws ++ [w]))) as E2 by (apply off_all; rewrite length_app; simpl; lia).
        rewrite pack_snoc, !length_app in E2. simpl in E2. lia.
  - rewrite lookup_app_r by lia. split.
    + intros E. exists (S (length ws)). split; [lia|]. rewrite off_all by (rewrite length_app; simpl; lia).
      rewrite pack_snoc, !length_app. simpl. apply lookup_app_Some in E as [E|[Hl E]].
      * apply (Forall_lookup_1 _ _ _ _ Hc) in E. tauto.
      * apply lookup_lt_Some in E. simpl in E. lia.
    + intros (i & Hi & E). destruct (decide (i <= length ws)%nat) as [Hle|Hgt].
      * rewrite Hoff in E by lia. pose proof (off_le ws i). assert (j = length (pack ws) - 1)%nat by lia. lia.
      * rewrite off_all in E by (rewrite length_app; simpl; lia). rewrite pack_snoc, !length_app in E. simpl in E.
        rewrite lookup_app_r by lia. by replace (j - length (pack ws) - length w)%nat with 0%nat by lia.
Qed.

(** ** Splitting the command line *)
Definition is_space : Z -> bool := has [32].

Lemma one_char_ok c : is_byte c /\ c <> 0 -> word_ok [c].
Proof. intros Hc. split; [done|]. by apply Forall_singleton. Qed.

Lemma words_ok P s : Forall (fun c => is_byte c /\ c <> 0) s -> Forall word_ok (words P s).
Proof.
  intros Hs. induction Hs as [|c s Hc Hs IH]; simpl; [constructor|]. destruct (P c); [done|].
  destruct s as [|c2 s]; [by apply Forall_singleton, one_char_ok|]. destruct (P c2); [constructor; [by apply one_char_ok|done]|].
  destruct (words P (c2 :: s)) as [|w ws]; [by apply Forall_singleton, one_char_ok|].
  apply Forall_cons in IH as [[Hw1 Hw2] IH]. constructor; [|done]. split; [done|]. by constructor.
Qed.

Lemma pack_words_length P s : (length (pack (words P s)) <= length s + match s with c :: _ => if P c then 0 else 1 | [] => 0 end)%nat.
Proof.
  induction s as [|c s IH]; [simpl; lia|]. destruct (P c) eqn:Ec.
  { cbn [words]. rewrite Ec. cbn [length] in *. destruct s as [|c2 s]; [simpl; lia|]. destruct (P c2); cbn [length] in *; lia. }
  destruct s as [|c2 s]; [simpl; rewrite Ec; simpl; lia|]. destruct (P c2) eqn:Ec2.
  - assert (words P (c :: c2 :: s) = [c] :: words P (c2 :: s)) as -> by (cbn [words]; by rewrite Ec, Ec2).
    rewrite pack_cons, length_app. cbn [length] in *. lia.
  - assert (words P (c :: c2 :: s) = match words P (c2 :: s) with w :: ws => (c :: w) :: ws | [] => [[c]] end) as ->
      by (cbn [words]; by rewrite Ec, Ec2).
    destruct (words P (c2 :: s)) as [|w ws]; [simpl; lia|]. rewrite pack_cons, length_app in *. cbn [length] in *. lia.
Qed.

Lemma strlcpy_down_ok m dst src s :
  str_at m src s -> 0 < dst -> dst <= src -> mapped m dst (S (length s)) ->
  wp (strlcpy dst src (Z.of_nat (length s) + 1)) (fun _ m' => m' = write m dst (s ++ [0])) m.
Proof.
  intros Hs Hp Hle Hd. unfold strlcpy. pose proof (sa_ptr _ _ _ Hs) as Hsp.
  do 4 wp_step. wp_step. eapply wp_eq; [by apply strlen_ok|]. rewrite (proj2 (Z.ltb_lt 0 _)) by lia.
  replace (Z.of_nat (length s) + 1 - 1) with (Z.of_nat (length s)) by lia. rewrite Z.ltb_irrefl. wp_step. cbv zeta. wp_step.
  unfold memcpy. do 2 (wp_step; (eapply wp_eq; [apply nonnull_ok; left; lia|])). wp_step. rewrite Nat2Z.id.
  pose proof (sa_bytes _ _ _ Hs) as Hb. apply bytes_at_app in Hb as [Hb _].
  eapply wp_mono; [apply (copy_up_ok m dst src s); [done|apply chars_bytes, Hs| |by left]|].
  { intros i Hi. apply Hd. lia. }
  intros [] m'. cbv beta. intros ->. wp_step. eapply wp_eq; [apply store_ok, write_mapped, Hd; lia|]. wp_step. by rewrite write_snoc.
Qed.

Lemma str_at_nil_write m p l a : 0 < a -> str_at m a [] -> p + Z.of_nat (length l) <= a -> str_at (write m p (l ++ [0])) a [].
Proof.
  intros Ha [H1 H2 _] Hl. split; [done| |constructor]. intros [|i] x; [|done]. intros [= <-]. rewrite Z.add_0_r, write_snoc.
  destruct (decide (p + Z.of_nat (length l) = a)) as [->|Hne]; [by rewrite lookup_insert_eq|].
  rewrite lookup_insert_ne, write_out by lia. specialize (H2 0%nat 0 eq_refl). by rewrite Z.add_0_r in H2.
Qed.

Section packing.
Context (page space : Z).

(** Outside the page nothing changes. *)
Definition same_outside (m m' : mem) : Prop := forall a, a < page \/ page + PGSIZE <= a -> m' !! a = m !! a.

Lemma same_outside_write m p l : page <= p -> p + Z.of_nat (length l) <= page + PGSIZE -> same_outside m (write m p l).
Proof. intros H1 H2 a Ha. apply write_out. lia. Qed.

Lemma words_split s (k := prefix_len is_space s) (n := prefix_len (fun c => negb (is_space c)) (drop k s)) :
  k <> length s -> words is_space s = take n (drop k s) :: words is_space (drop (S (k + n)) s) /\ (k + n <= length s)%nat /\ (0 < n)%nat.
Proof.
  intros Hk. pose proof (prefix_len_le is_space s) as Hle. fold k in Hle.
  pose proof (prefix_len_le (fun c => negb (is_space c)) (drop k s)) as Hn. rewrite length_drop in Hn. fold n in Hn.
  destruct (lookup_lt_is_Some_2 s k) as [c Hc]; [lia|]. pose proof (prefix_len_stop _ s _ Hc) as Hsc. split_and!; [|lia|].
  - rewrite words_skip. fold k. rewrite (drop_S _ _ _ Hc), words_first by done. rewrite <- (drop_S _ _ _ Hc). fold n. rewrite drop_drop. do 3 f_equal. lia.
  - unfold n. rewrite (drop_S _ _ _ Hc). simpl. rewrite Hsc. simpl. lia.
Qed.

(** The token, terminated, and the rest. *)
Lemma strtok_token m p s s0 save (k := prefix_len is_space s) (n := prefix_len (fun c => negb (is_space c)) (drop k s)) :
  str_at m p s -> str_at m space [32] -> (s0 = p \/ s0 = 0 /\ save = p) -> k <> length s ->
  exists m1 save1, strtok_r s0 space save m = Ok ((p + Z.of_nat k, save1), m1) /\ str_at m1 (p + Z.of_nat k) (take n (drop k s)) /\
    str_at m1 save1 (drop (S (k + n)) s) /\ save1 = p + Z.of_nat (min (S (k + n)) (length s)) /\
    (forall a, a < p + Z.of_nat k \/ p + Z.of_nat (length s) <= a -> m1 !! a = m !! a) /\
    (forall a, is_Some (m !! a) -> is_Some (m1 !! a)).
Proof.
  intros Hs Hsp Hst Hk. pose proof (strtok_r_ok m p s space [32] s0 save Hs Hsp Hst) as E. cbv zeta in E. fold is_space in E. fold k n in E.
  destruct (words_split s Hk) as (_ & Hkn & Hn0). fold k n in Hkn, Hn0. rewrite (proj2 (Nat.eqb_neq _ _)) in E by done.
  pose proof (str_at_drop m p s k Hs ltac:(lia)) as Hs1. destruct (Nat.ltb_spec (k + n) (length s)) as [Hlt|Hge].
  - destruct (str_at_cut m (p + Z.of_nat k) (drop k s) n Hs1) as [Ht Hr]; [rewrite length_drop; lia|].
    replace (p + Z.of_nat k + Z.of_nat n) with (p + Z.of_nat (k + n)) in Ht, Hr by lia.
    rewrite drop_drop in Hr. replace (k + S n)%nat with (S (k + n)) in Hr by lia.
    replace (p + Z.of_nat k + Z.of_nat (S n)) with (p + Z.of_nat (k + n) + 1) in Hr by lia.
    eexists _, _. split; [exact E|]. split_and!; [done|done|lia| |].
    + intros a Ha. apply lookup_insert_ne. lia.
    + intros a Ha. destruct (decide (p + Z.of_nat (k + n) = a)) as [->|]; [by rewrite lookup_insert_eq|by rewrite lookup_insert_ne].
  - eexists _, _. split; [exact E|]. pose proof (str_at_drop m p s (length s) Hs ltac:(lia)) as He. rewrite drop_all in He.
    rewrite (drop_ge s (S (k + n))) by lia. rewrite (take_ge (drop k s)) by (rewrite length_drop; lia).
    replace (k + n)%nat with (length s) by lia. split_and!; (done || lia).
Qed.

(** What the next call of [strtok_r] and the copy of the token do to a state
    where the rest [s] of the command line is at [p], above the words packed so
    far. *)
Lemma pack_turn_ok m p s s0 save packed :
  str_at m p s -> str_at m space [32] -> (s0 = p \/ s0 = 0 /\ save = p) ->
  page + alen packed <= p \/ s = [] -> page <= p -> p + Z.of_nat (length s) < page + PGSIZE -> 0 < page ->
  mapped m page (Z.to_nat PGSIZE) -> bytes_at m page packed ->
  wp (pack_turn page space (s0, save, alen packed)) (fun r m' => mapped m' page (Z.to_nat PGSIZE) /\ same_outside m m' /\
    match r with
    | inr i => words is_space s = [] /\ i = alen packed /\ bytes_at m' page packed
    | inl (s1, p', i) => exists w s', words is_space s = w :: words is_space s' /\ (length s' < length s)%nat /\ s1 = 0 /\ page <= p' /\
        i = alen (packed ++ w ++ [0]) /\ bytes_at m' page (packed ++ w ++ [0]) /\ str_at m' p' s' /\
        (page + alen (packed ++ w ++ [0]) <= p' \/ s' = []) /\ p' + Z.of_nat (length s') < page + PGSIZE
    end) m.
Proof.
  intros Hs Hsp Hst Hpk Hpp Hend Hpage Hmap Hbytes. unfold pack_turn. wp_step. set (k := prefix_len is_space s).
  destruct (decide (k = length s)) as [Hk|Hk].
  { pose proof (strtok_r_ok m p s space [32] s0 save Hs Hsp Hst) as E. cbv zeta in E. fold is_space k in E.
    rewrite (proj2 (Nat.eqb_eq _ _)) in E by done. eapply wp_eq; [exact E|]. simpl. wp_step. split_and!; try done. by apply words_none. }
  destruct (strtok_token m p s s0 save Hs Hsp Hst Hk) as (m1 & save1 & E1 & Htok & Hrest & Hsave & Hsame & Hkeep).
  destruct (words_split s Hk) as (Hw & Hkn & Hn0). fold k in E1, Htok, Hrest, Hsave, Hsame, Hw, Hkn, Hn0. set (n := prefix_len (fun c => negb (is_space c)) (drop k s)) in Htok, Hrest, Hsave, Hw, Hkn, Hn0.
  assert (page + alen packed <= p) as Hpk' by (destruct Hpk as [?|Es]; [done|rewrite Es in Hkn; simpl in Hkn; lia]). clear Hpk. unfold alen in *.
  set (w := take n (drop k s)) in *. assert (length w = n) as Hwl by (unfold w; rewrite length_take, length_drop; lia).
  pose proof (sa_ptr _ _ _ Hs) as Hsp0. assert (mapped m1 page (Z.to_nat PGSIZE)) as Hmap1 by (intros a Ha; by apply Hkeep, Hmap).
  eapply wp_eq; [exact E1|]. cbv iota beta. rewrite (proj2 (Z.eqb_neq _ 0)) by lia. wp_step. eapply wp_eq; [by apply strlen_ok|].
  wp_step. eapply wp_mono; [apply (strlcpy_down_ok m1); [done|lia|lia|]|].
  { intros a Ha. apply Hmap1. lia. }
  intros _ m2 ->. wp_step. split; [intros a Ha; by apply write_mapped, Hmap1|].
  split; [intros a Ha; rewrite write_out by (rewrite length_app; simpl; lia); apply Hsame; lia|].
  exists w, (drop (S (k + n)) s). rewrite length_drop. split_and!; try done; try lia.
  - rewrite !length_app. cbn [length]. lia.
  - apply bytes_at_app. split; [|apply write_in]. intros j x Hx. pose proof (lookup_lt_Some _ _ _ Hx).
    rewrite write_out by lia. rewrite Hsame by lia. by apply Hbytes.
  - destruct (decide (S (k + n) <= length s)%nat) as [Hle|Hgt].
    + eapply str_at_same; [done|]. intros a Ha. apply write_out. rewrite length_app. cbn [length]. lia.
    + rewrite (drop_ge s) in Hrest |- * by lia. apply str_at_nil_write; [lia|done|lia].
  - rewrite !length_app. cbn [length]. destruct (decide (S (k + n) <= length s)%nat); [left; lia|right; apply drop_ge; lia].
Qed.

(** The loop over all the tokens. *)
Lemma pack_loop_ok fuel m p s s0 save packed :
  str_at m p s -> str_at m space [32] -> space + 1 < page \/ page + PGSIZE <= space -> (s0 = p \/ s0 = 0 /\ save = p) ->
  page + alen packed <= p \/ s = [] -> page <= p -> p + Z.of_nat (length s) < page + PGSIZE -> 0 < page ->
  mapped m page (Z.to_nat PGSIZE) -> bytes_at m page packed -> (length s < fuel)%nat ->
  wp (loop fuel (pack_turn page space) (s0, save, alen packed)) (fun i m' => mapped m' page (Z.to_nat PGSIZE) /\ same_outside m m' /\
    i = alen (packed ++ pack (words is_space s)) /\ bytes_at m' page (packed ++ pack (words is_space s))) m.
Proof.
  revert m p s s0 save packed. induction fuel as [|fuel IH]; intros m p s s0 save packed Hs Hsp Hdis Hst Hpk Hpp Hend Hpage Hmap Hb Hf; [lia|].
  cbn [loop]. wp_step. eapply wp_mono; [by apply (pack_turn_ok m p s)|]. intros [[[s1 p'] i]|i] m1 (Hmap1 & Hsame & H).
  - destruct H as (w & s' & Hw & Hl & -> & Hpp' & -> & Hb1 & Hs1 & Hpk1 & Hend1).
    eapply wp_mono; [apply (IH m1 p' s' 0 p' (packed ++ w ++ [0])); try done|].
    + eapply str_at_same; [exact Hsp|]. intros a Ha. simpl in Ha. apply Hsame. lia.
    + by right.
    + lia.
    + intros i m2 (Hmap2 & Hsame2 & -> & Hb2). rewrite Hw, pack_cons. rewrite <- !app_assoc in *. cbn [app] in *.
      split_and!; try done. intros a Ha. rewrite Hsame2 by done. by apply Hsame.
  - destruct H as (Hw & -> & Hb1). wp_step. rewrite Hw. unfold pack. simpl. rewrite app_nil_r. done.
Qed.
End packing.

Lemma bytes_at_insert m p l i x : bytes_at m p l -> alen l = i -> bytes_at (<[p + i := x]> m) p (l ++ [x]).
Proof.
  intros Hl Hi j y Hy. unfold alen in Hi. apply lookup_app_Some in Hy as [Hy|[Hj Hy]].
  - pose proof (lookup_lt_Some _ _ _ Hy). rewrite lookup_insert_ne by lia. by apply Hl.
  - pose proof (lookup_lt_Some _ _ _ Hy) as Hlt. simpl in Hlt. assert (j = length l) as -> by lia.
    rewrite Nat.sub_diag in Hy. injection Hy as ->. by rewrite <- Hi, lookup_insert_eq.
Qed.

Lemma insert_keeps (m : mem) p x a : is_Some (m !! a) -> is_Some (<[p := x]> m !! a).
Proof. intros H. destruct (decide (p = a)) as [->|]; [by rewrite lookup_insert_eq|by rewrite lookup_insert_ne]. Qed.

(** The rest of the page is cleared. *)
Lemma zero_rest_ok m page l :
  mapped m page (Z.to_nat PGSIZE) -> bytes_at m page l -> alen l <= PGSIZE ->
  wp (zero_rest page (alen l)) (fun _ m' => mapped m' page (Z.to_nat PGSIZE) /\ same_outside page m m' /\
    bytes_at m' page (l ++ replicate (Z.to_nat (PGSIZE - alen l)) 0)) m.
Proof.
  intros Hmap Hb Hl. pose proof (alen_nonneg l). unfold zero_rest. change PGSIZE with 4096 in *.
  apply (wp_loop (fun n i m' => n = Z.to_nat (4096 - i) /\ alen l <= i <= 4096 /\ mapped m' page (Z.to_nat 4096) /\ same_outside page m m' /\
    bytes_at m' page (l ++ replicate (Z.to_nat (i - alen l)) 0))) with (n := Z.to_nat (4096 - alen l)); [| |lia].
  - intros n i m' (-> & Hi & Hm & Hsame & Hby). destruct (Z.eqb_spec i 4096) as [->|Hne]; cbn [negb].
    + wp_step. done.
    + wp_step. eapply wp_eq; [apply store_ok, Hm; lia|]. wp_step. change (u8 0) with 0.
      exists (Z.to_nat (4096 - (i + 1))). split; [lia|]. split; [done|]. split; [lia|]. split_and!.
      * intros a Ha. by apply insert_keeps, Hm.
      * intros a Ha. rewrite lookup_insert_ne by (change PGSIZE with 4096 in Ha; lia). by apply Hsame.
      * replace (Z.to_nat (i + 1 - alen l)) with (S (Z.to_nat (i - alen l))) by lia. rewrite replicate_S_end, app_assoc.
        apply bytes_at_insert; [done|]. rewrite alen_app. unfold alen at 2. rewrite length_replicate. lia.
  - split; [done|]. split; [lia|]. split_and!; [done|done|]. rewrite Z.sub_diag. by rewrite app_nil_r.
Qed.

(** The contents of the page of arguments. *)
Definition arg_page (ws : list (list Z)) : list Z := pack ws ++ replicate (Z.to_nat (PGSIZE - alen (pack ws))) 0.

Lemma arg_page_length ws : alen (pack ws) <= PGSIZE -> alen (arg_page ws) = PGSIZE.
Proof. intros H. unfold arg_page. rewrite alen_app. unfold alen at 2. rewrite length_replicate. unfold alen in *. lia. Qed.

Lemma Forall_pack ws : Forall word_ok ws -> Forall is_byte (pack ws).
Proof.
  induction 1 as [|w ws [_ Hw] _ IH]; [constructor|]. rewrite pack_cons. apply Forall_app. split; [by apply chars_bytes|].
  constructor; [unfold is_byte; lia|done].
Qed.

Definition apart (a n b k : Z) : Prop := a + n <= b \/ b + k <= a.

(** The words of the part of a command line that fits a page. *)
Definition command_words (s : list Z) : list (list Z) := words is_space (take (Z.to_nat (PGSIZE - 1)) s).

Lemma command_words_ok s : Forall (fun c => is_byte c /\ c <> 0) s -> Forall word_ok (command_words s) /\ alen (pack (command_words s)) <= PGSIZE.
Proof.
  intros Hs. split; [by apply words_ok, Forall_take|]. unfold command_words, alen. set (t := take _ s).
  pose proof (pack_words_length is_space t) as H. assert (length t <= 4095)%nat by (unfold t; rewrite length_take; change (Z.to_nat (PGSIZE - 1)) with 4095%nat; lia).
  change PGSIZE with 4096. destruct t as [|c t]; [simpl; lia|]. destruct (is_space c); lia.
Qed.

Lemma process_execute_ok m cmd s space arg_copy fn_copy tid :
  str_at m cmd s -> str_at m space [32] -> 0 < arg_copy -> 0 < fn_copy -> tid <> TID_ERROR ->
  mapped m arg_copy (Z.to_nat PGSIZE) -> mapped m fn_copy (Z.to_nat PGSIZE) -> apart arg_copy PGSIZE fn_copy PGSIZE ->
  apart arg_copy PGSIZE cmd (alen s + 1) -> apart arg_copy PGSIZE space 2 ->
  wp (process_execute cmd space arg_copy fn_copy tid) (fun r m' => r = tid /\ bytes_at m' fn_copy (arg_page (command_words s)) /\
    forall a, (a < arg_copy \/ arg_copy + PGSIZE <= a) -> (a < fn_copy \/ fn_copy + PGSIZE <= a) -> m' !! a = m !! a) m.
Proof.
  intros Hs Hsp Ha0 Hf0 Ht Hma Hmf Haf Hac Hasp. unfold apart, alen in *. destruct (command_words_ok s (sa_chars _ _ _ Hs)) as [Hwok Hwl].
  unfold process_execute. rewrite (proj2 (Z.eqb_neq arg_copy 0)) by lia. wp_step.
  eapply wp_mono; [apply (strlcpy_ok m arg_copy cmd s PGSIZE); try done; change PGSIZE with 4096 in *; lia|].
  intros _ m1 [_ ->]. set (t := take (Z.to_nat (PGSIZE - 1)) s).
  assert (Z.of_nat (length t) < PGSIZE) as Htl by (unfold t; rewrite length_take; change PGSIZE with 4096 in *; lia).
  set (m1 := write m arg_copy (t ++ [0])). assert (forall a, a < arg_copy \/ arg_copy + PGSIZE <= a -> m1 !! a = m !! a) as Hm1.
  { intros a Ha. unfold m1. apply write_out. rewrite length_app. simpl. lia. }
  assert (str_at m1 arg_copy t) as Ht1 by (apply str_at_write; [done|apply Forall_take, Hs]).
  wp_step. change 0 with (alen (A := Z) []) at 2. eapply wp_mono; [apply (pack_loop_ok arg_copy space (S (Z.to_nat PGSIZE)) m1 arg_copy t arg_copy 0 [])|].
  all: try done; try lia.
  - eapply str_at_same; [exact Hsp|]. intros a Ha. simpl in Ha. apply Hm1. lia.
  - left. change (alen (A := Z) []) with 0. lia.
  - intros a Ha. by apply write_mapped, Hma.
  - intros i m2 (Hmap2 & Hsame2 & -> & Hb2). cbn [app] in Hb2 |- *. fold (command_words s) in *. wp_step.
    eapply wp_mono; [by apply (zero_rest_ok m2 arg_copy (pack (command_words s)))|]. intros [] m3 (Hmap3 & Hsame3 & Hb3).
    fold (arg_page (command_words s)) in Hb3. rewrite (proj2 (Z.eqb_neq fn_copy 0)) by lia.
    pose proof (arg_page_length (command_words s) Hwl) as Hpl. set (pg := arg_page (command_words s)) in *.
    assert (Z.to_nat PGSIZE = length pg) as Epg by (unfold alen in Hpl; lia).
    assert (forall a, a < arg_copy \/ arg_copy + PGSIZE <= a -> m3 !! a = m !! a) as Hm3.
    { intros a Ha. rewrite Hsame3, Hsame2 by done. by apply Hm1. }
    wp_step. rewrite Epg. eapply wp_mono.
    { apply (copy_up_ok m3 fn_copy arg_copy pg); [done| | |unfold alen in Hpl; lia].
      - unfold pg, arg_page. apply Forall_app. split; [by apply Forall_pack|]. apply Forall_replicate. unfold is_byte. lia.
      - intros a Ha. rewrite Hm3 by lia. apply Hmf. lia. }
    intros [] m4. cbv beta. intros ->. wp_step. rewrite (proj2 (Z.eqb_neq tid _)) by done. eapply wp_eq; [done|].
    assert (mapped (write m3 fn_copy pg) arg_copy (Z.to_nat PGSIZE)) as Hmap4 by (intros a Ha; by apply write_mapped, Hmap3).
    pose proof (memset_ok (write m3 fn_copy pg) arg_copy 204 (Z.to_nat PGSIZE) Hmap4 Ha0) as Hms.
    rewrite Z2Nat.id in Hms by (change PGSIZE with 4096; lia). wp_step. eapply wp_mono; [exact Hms|]. intros r m5 [_ ->]. wp_step.
    split; [done|]. split.
    + intros j x Hx. pose proof (lookup_lt_Some _ _ _ Hx). rewrite write_out by (rewrite length_replicate; lia). by apply write_in.
    + intros a H1 H2. rewrite write_out by (rewrite length_replicate; lia). rewrite write_out by lia. by apply Hm3.
Qed.

(** ** The stack *)
Lemma last_zero ws : ws <> [] -> pack ws !! (length (pack ws) - 1)%nat = Some 0.
Proof.
  destruct ws as [|w ws] using rev_ind; [done|]. intros _. rewrite pack_snoc, app_assoc, length_app. simpl.
  rewrite lookup_app_r by lia. by replace (_ - _)%nat with 0%nat by lia.
Qed.

Lemma no_double_zero ws j : Forall word_ok ws -> pack ws !! j = Some 0 -> pack ws !! S j = Some 0 -> False.
Proof.
  intros Hw H1 H2. apply pack_zero in H1 as (i1 & Hi1 & E1); [|done]. apply pack_zero in H2 as (i2 & Hi2 & E2); [|done].
  destruct (decide (i1 < i2)%nat).
  - pose proof (off_lt ws i1 i2 Hw). lia.
  - destruct (decide (i2 < i1)%nat); [pose proof (off_lt ws i2 i1 Hw); lia|]. assert (i1 = i2) by lia. subst. lia.
Qed.

Lemma arg_page_get ws i : (i < length (pack ws))%nat -> arg_page ws !! i = pack ws !! i.
Proof. intros H. unfold arg_page. by rewrite lookup_app_l. Qed.

Lemma args_length_ok m arr ws :
  ws <> [] -> Forall word_ok ws -> alen (pack ws) <= PGSIZE -> bytes_at m arr (arg_page ws) ->
  args_length arr m = Ok (alen (pack ws), m).
Proof.
  intros Hne Hw Hl Hb. unfold args_length. set (n := length (pack ws)).
  assert (1 <= n)%nat as Hn1.
  { destruct ws as [|w ws']; [done|]. unfold n. rewrite pack_cons, length_app. simpl. lia. }
  assert (forall i x, arg_page ws !! i = Some x -> load (arr + Z.of_nat i) m = Ok (x, m)) as Hload.
  { intros i x Hx. unfold load, mbind, M_bind. simpl. by rewrite (Hb _ _ Hx). }
  apply (loop_eq (fun i => Z.of_nat i) _ m n).
  - intros i Hi. rewrite (proj2 (Z.ltb_lt _ _)) by (unfold alen in Hl; lia).
    destruct (Z.eqb_spec (Z.of_nat i) 0) as [E|E]; cbn [negb]; [unfold mret, M_ret; do 3 f_equal; lia|].
    destruct (lookup_lt_is_Some_2 (pack ws) i Hi) as [x Hx]. destruct (lookup_lt_is_Some_2 (pack ws) (i - 1)) as [y Hy]; [unfold n in *; lia|].
    unfold mbind, M_bind. rewrite (Hload i x) by (by rewrite arg_page_get).
    replace (Z.of_nat i - 1) with (Z.of_nat (i - 1)) by lia. rewrite (Hload (i - 1)%nat y) by (rewrite arg_page_get; [done|unfold n in *; lia]).
    destruct ((x =? 0) && (y =? 0)) eqn:Ez; [|unfold mret, M_ret; do 3 f_equal; lia]. exfalso. assert (x = 0 /\ y = 0) as [-> ->] by lia.
    apply (no_double_zero ws (i - 1) Hw Hy). by replace (S (i - 1)) with i by lia.
  - fold n. unfold alen in *. fold n in Hl |- *. destruct (Z.ltb_spec (Z.of_nat n) PGSIZE) as [Hlt|Hge]; [|done].
    rewrite (proj2 (Z.eqb_neq _ 0)) by lia. cbn [negb]. unfold mbind, M_bind.
    rewrite (Hload n 0). 2: { unfold arg_page. rewrite lookup_app_r by (fold n; lia). apply lookup_replicate. unfold alen. fold n. split; [done|lia]. }
    replace (Z.of_nat n - 1) with (Z.of_nat (n - 1)) by lia.
    rewrite (Hload (n - 1)%nat 0) by (rewrite arg_page_get by (fold n; lia); by apply last_zero). done.
  - unfold alen in Hl. fold n in Hl. lia.
Qed.

Lemma store32_ok m p v : mapped m p 4 -> store32 p v m = Ok (tt, write m p (word_bytes v)).
Proof.
  intros Hm. unfold store32, mbind, M_bind. rewrite !store_ok by (repeat apply insert_keeps; apply Hm; lia).
  change (word_bytes v) with (((([] ++ [u8 v]) ++ [u8 (v / 2 ^ 8)]) ++ [u8 (v / 2 ^ 16)]) ++ [u8 (v / 2 ^ 24)]).
  rewrite !write_snoc. cbn [app length write]. by rewrite Z.add_0_r.
Qed.

Lemma for_ext {S} (f g : Z -> M S unit) n i : (forall j s, f j s = g j s) -> forall s, for_ n i f s = for_ n i g s.
Proof.
  intros H. revert i. induction n as [|n IH]; intros i s; [done|]. simpl. unfold mbind, M_bind. rewrite H.
  destruct (g i s) as [[[] s']|]; [apply IH|done].
Qed.

(** The strings go to the top of the stack page, with at least one null byte
    below them. *)
Section stack.
Context (ws : list (list Z)).
Hypothesis Hws : Forall word_ok ws.
Hypothesis Hne : ws <> [].

Let n : Z := alen (pack ws).
Let k : nat := length ws.
Definition pad_of (n : Z) : Z := 4 - n mod 4.
Let strings : Z := PHYS_BASE - n.
Let args_end : Z := strings - pad_of n.

(** What the loop over the strings has found when it looks at [idx]: the [c]
    last words. *)
Record scanned (m m' : mem) (idx : Z) (c : nat) : Prop := {
  sc_count : (c <= k)%nat;
  sc_where : forall i, (i < k)%nat -> Z.of_nat (off ws i) > n - idx + 1 <-> (k - c <= i)%nat;
  sc_ptrs : forall d, (d < c)%nat -> bytes_at m' (args_end - 8 - 4 * Z.of_nat d) (word_bytes (strings + Z.of_nat (off ws (k - 1 - d))));
  sc_same : forall a, a < args_end - 4 - 4 * Z.of_nat c \/ args_end - 4 <= a -> m' !! a = m !! a;
  sc_mapped : forall a, is_Some (m !! a) -> is_Some (m' !! a)
}.

Lemma off_k : off ws k = Z.to_nat n.
Proof. unfold k, n, alen. rewrite off_all by lia. lia. Qed.

Lemma k_pos : (0 < k)%nat.
Proof. unfold k. enough (length ws <> 0%nat) by lia. intros E. by apply Hne, nil_length_inv. Qed.

Lemma scan_start m : scanned m m 2 0.
Proof.
  split; [lia| |lia|done|done]. intros i Hi. pose proof (off_lt ws i k Hws Hi ltac:(unfold k; lia)). rewrite off_k in *.
  pose proof (alen_nonneg (pack ws)). unfold n in *. lia.
Qed.

(** A null byte is where a word begins. *)
Lemma zero_is_start m idx b :
  bytes_at m (strings - 1) (0 :: pack ws) -> 2 <= idx <= n + 1 -> m !! (PHYS_BASE - idx) = Some b ->
  (b = 0 <-> exists i, (i < k)%nat /\ Z.of_nat (off ws i) = n - idx + 1).
Proof.
  intros Hb Hi Hm. set (j := Z.to_nat (n - idx + 1)). assert (Z.of_nat j = n - idx + 1) as Ej by lia.
  assert (forall x, (0 :: pack ws) !! j = Some x -> b = x) as Hx.
  { intros x Hx. apply Hb in Hx. replace (strings - 1 + Z.of_nat j) with (PHYS_BASE - idx) in Hx by (unfold strings; lia). congruence. }
  pose proof k_pos as Hk.
  destruct j as [|j'] eqn:Ejj.
  - specialize (Hx 0 eq_refl). split; [|done]. intros _. exists 0%nat. split; [done|]. unfold off. simpl. lia.
  - simpl in Hx. destruct (lookup_lt_is_Some_2 (pack ws) j') as [x Hjx]; [unfold n, alen in *; lia|]. rewrite (Hx _ Hjx).
    pose proof (pack_zero ws j' Hws) as Hz. rewrite Hjx in Hz. split.
    + intros ->. destruct (proj1 Hz eq_refl) as (i & Hi1 & Eo). exists i. split; [|lia].
      destruct (decide (i = k)) as [->|]; [|unfold k in *; lia]. rewrite off_k in Eo. unfold n in *. pose proof (alen_nonneg (pack ws)). lia.
    + intros (i & Hik & Eo). assert (Some x = Some 0) as E0; [|by injection E0]. apply Hz. exists i. split; [|lia].
      split; [|unfold k in *; lia]. destruct i; [unfold off in Eo; simpl in Eo; lia|lia].
Qed.
(** The next byte is not the beginning of a word. *)
Lemma scan_skip m m' idx c :
  scanned m m' idx c -> (forall i, (i < k)%nat -> Z.of_nat (off ws i) <> n - idx + 1) -> scanned m m' (idx + 1) c.
Proof.
  intros [H1 H2 H3 H4 H5] Hno. split; [done| |done..]. intros i Hi. rewrite <- (H2 i Hi). specialize (Hno i Hi). lia.
Qed.

(** It is, and a pointer to the word is stored. *)
Lemma scan_push m m' idx c i :
  scanned m m' idx c -> (i < k)%nat -> Z.of_nat (off ws i) = n - idx + 1 ->
  (c < k)%nat /\ scanned m (write m' (args_end - 8 - 4 * Z.of_nat c) (word_bytes (PHYS_BASE - idx + 1))) (idx + 1) (S c).
Proof.
  intros [H1 H2 H3 H4 H5] Hi Eo. assert (i < k - c)%nat as Hic by (destruct (decide (k - c <= i)%nat) as [Hle|]; [apply (H2 i Hi) in Hle; lia|lia]).
  assert (i = k - 1 - c)%nat as Ei.
  { destruct (decide (i + 1 < k - c)%nat) as [Hlt|]; [|lia]. pose proof (off_lt ws i (i + 1) Hws ltac:(lia) ltac:(unfold k in *; lia)).
    pose proof (proj1 (H2 (i + 1)%nat ltac:(lia)) ltac:(lia)). lia. }
  split; [lia|]. split.
  - lia.
  - intros i' Hi'. destruct (decide (i' = i)) as [->|Hne']; [split; intros; lia|]. split.
    + intros Hgt. assert (Z.of_nat (off ws i') > n - idx + 1) as Hgt'; [|apply H2 in Hgt'; lia].
      destruct (decide (i' < i)%nat); [|pose proof (off_lt ws i i' Hws ltac:(lia) ltac:(unfold k in *; lia)); lia].
      pose proof (off_lt ws i' i Hws ltac:(lia) ltac:(unfold k in *; lia)). lia.
    + intros Hle. assert (k - c <= i')%nat as Hle' by lia. apply (H2 i' Hi') in Hle'. lia.
  - intros d Hd. destruct (decide (d = c)) as [->|Hdc].
    + replace (PHYS_BASE - idx + 1) with (strings + Z.of_nat (off ws (k - 1 - c))) by (rewrite <- Ei; unfold strings; lia). apply write_in.
    + intros j x Hx. pose proof (lookup_lt_Some _ _ _ Hx) as Hj. simpl in Hj. rewrite write_out by (simpl; lia). by apply H3; [lia|].
  - intros a Ha. rewrite write_out by (simpl; lia). apply H4. lia.
  - intros a Ha. by apply write_mapped, H5.
Qed.

Lemma stack_scan_ok m :
  bytes_at m (strings - 1) (0 :: pack ws) -> (forall a, args_end - 4 - 4 * Z.of_nat k <= a < args_end - 4 -> is_Some (m !! a)) ->
  wp (for_acc (Z.to_nat n) 2 (args_end - 8, 0) (fun idx '(my_cpp, argc) =>
    b ← load (PHYS_BASE - idx);
    if b =? 0 then store32 my_cpp (PHYS_BASE - idx + 1);; mret (my_cpp - 4, argc + 1) else mret (my_cpp, argc)))
    (fun r m' => r = (args_end - 8 - 4 * Z.of_nat k, Z.of_nat k) /\ scanned m m' (n + 2) k) m.
Proof.
  intros Hb Hmap. pose proof (alen_nonneg (pack ws)) as Hn0. fold n in Hn0. eapply wp_mono.
  - apply (wp_for_acc (fun idx r m' => exists c, r = (args_end - 8 - 4 * Z.of_nat c, Z.of_nat c) /\ scanned m m' idx c)).
    2: { exists 0%nat. split; [f_equal; lia|apply scan_start]. }
    intros idx r m' Hidx (c & -> & Hsc). rewrite Z2Nat.id in Hidx by lia.
    assert (exists b, m !! (PHYS_BASE - idx) = Some b /\ m' !! (PHYS_BASE - idx) = Some b) as (b & Hmb & Hmb').
    { destruct (lookup_lt_is_Some_2 (0 :: pack ws) (Z.to_nat (n - idx + 1))) as [b Hbx]; [simpl; unfold n, alen in *; lia|].
      apply Hb in Hbx. replace (strings - 1 + _) with (PHYS_BASE - idx) in Hbx by (unfold strings; lia). exists b. split; [done|].
      rewrite (sc_same _ _ _ _ Hsc); [done|]. right. unfold args_end, strings, pad_of. pose proof (Z.mod_pos_bound n 4). lia. }
    wp_step. eapply wp_eq; [unfold load, mbind, M_bind; simpl; by rewrite Hmb'|].
    pose proof (zero_is_start m idx b Hb ltac:(lia) Hmb) as Hz. destruct (Z.eqb_spec b 0) as [->|Hb0].
    + destruct (proj1 Hz eq_refl) as (i & Hi & Eo). destruct (scan_push m m' idx c i Hsc Hi Eo) as [Hck Hsc'].
      wp_step. eapply wp_eq; [apply store32_ok; intros a Ha; apply (sc_mapped _ _ _ _ Hsc), Hmap; lia|]. wp_step.
      exists (S c). split; [f_equal; lia|done].
    + wp_step. exists c. split; [done|]. apply scan_skip; [done|]. intros i Hi Eo. apply Hb0, Hz. eauto.
  - intros r m' (c & -> & Hsc). rewrite Z2Nat.id in Hsc by lia. replace (2 + n) with (n + 2) in Hsc by lia.
    assert (c = k) as ->; [|done]. pose proof k_pos as Hk.
    pose proof (sc_count _ _ _ _ Hsc). pose proof (proj1 (sc_where _ _ _ _ Hsc 0%nat Hk) ltac:(lia)). lia.
Qed.
(** The strings and the padding are in place. *)
Lemma place_strings_ok m arr :
  bytes_at m arr (arg_page ws) -> n <= PGSIZE -> (forall a, PHYS_BASE - PGSIZE <= a < PHYS_BASE -> is_Some (m !! a)) ->
  n + pad_of n <= PGSIZE -> arr + PGSIZE <= PHYS_BASE - PGSIZE \/ PHYS_BASE <= arr ->
  wp (for_ (Z.to_nat n) 0 (fun i => b ← load (arr + i); store (PHYS_BASE - (n - i)) b);;
      for_ (Z.to_nat (pad_of n)) 0 (fun i => store (PHYS_BASE - n - (pad_of n - i)) 0))
    (fun _ m' => bytes_at m' (strings - 1) (0 :: pack ws) /\ (forall a, is_Some (m !! a) -> is_Some (m' !! a))) m.
Proof.
  intros Hb Hn Hmap Hfit Hap. pose proof (alen_nonneg (pack ws)) as Hn0. fold n in Hn0. pose proof (Z.mod_pos_bound n 4 ltac:(lia)) as Hm4.
  assert (1 <= pad_of n <= 4) as Hpad by (unfold pad_of; lia). wp_step.
  assert (Z.to_nat n = length (pack ws)) as En by (unfold n, alen; lia).
  pose proof (copy_up_ok m strings arr (pack ws)) as Hcp. eapply wp_mono.
  { rewrite En. unfold wp. rewrite (for_ext _ (fun i => b ← load (arr + i); store (strings + i) b)).
    - apply Hcp.
      + intros j x Hx. apply Hb. rewrite arg_page_get; [done|]. by apply lookup_lt_Some in Hx.
      + by apply Forall_pack.
      + intros a Ha. apply Hmap. unfold strings in Ha. lia.
      + unfold strings. lia.
    - intros j s'. unfold mbind, M_bind. destruct (load (arr + j) s') as [[b s1]|]; [|done]. f_equal. unfold strings. lia. }
  intros [] m1. cbv beta. intros ->. set (m1 := write m strings (pack ws)). eapply wp_mono.
  - apply (wp_for (fun i m' => m' = write m1 (strings - pad_of n) (replicate (Z.to_nat i) 0))); [|done].
    intros i m' Hi ->. eapply wp_eq; [apply store_ok; apply write_mapped, write_mapped, Hmap; lia|].
    replace (Z.to_nat (i + 1)) with (S (Z.to_nat i)) by lia. rewrite replicate_S_end, write_snoc, length_replicate.
    change (u8 0) with 0. f_equal. unfold strings. lia.
  - intros [] m'. cbv beta. intros ->. rewrite Z2Nat.id by lia. rewrite Z.add_0_l. split.
    + intros [|j] x; simpl; intros Hx.
      * injection Hx as <-. rewrite Z.add_0_r.
        pose proof (write_in m1 (strings - pad_of n) (replicate (Z.to_nat (pad_of n)) 0) (Z.to_nat (pad_of n) - 1)%nat 0) as Hw.
        rewrite <- Hw; [f_equal; lia|]. apply lookup_replicate. split; [done|lia].
      * rewrite write_out by (rewrite length_replicate; lia). replace (strings - 1 + Z.of_nat (S j)) with (strings + Z.of_nat j) by lia.
        by apply write_in.
    + intros a Ha. by apply write_mapped, write_mapped.
Qed.
End stack.

(** What the user program finds: [argc] and [argv] above the return address,
    and in [argv] pointers to its words. *)
Record user_stack (m : mem) (esp : Z) (ws : list (list Z)) : Prop := {
  us_aligned : esp mod 4 = 0;
  us_argc : bytes_at m (esp + 4) (word_bytes (alen ws));
  us_argv : bytes_at m (esp + 8) (word_bytes (esp + 12));
  us_args : forall i w, ws !! i = Some w -> exists p, bytes_at m (esp + 12 + 4 * Z.of_nat i) (word_bytes p) /\ str_at m p w /\
    PHYS_BASE - PGSIZE <= p < PHYS_BASE
}.

(** The bytes of the stack that the arguments take. *)
Definition stack_size (ws : list (list Z)) : Z :=
  let n := alen (pack ws) in n + pad_of n + 16 + 4 * alen ws.

Lemma setup_stack_ok m arr ws esp0 :
  ws <> [] -> Forall word_ok ws -> bytes_at m arr (arg_page ws) -> alen (pack ws) <= PGSIZE - actual_thread_size ->
  stack_size ws <= PGSIZE -> (forall a, PHYS_BASE - PGSIZE <= a < PHYS_BASE -> is_Some (m !! a)) ->
  arr + PGSIZE <= PHYS_BASE - PGSIZE \/ PHYS_BASE <= arr ->
  wp (setup_stack true esp0 arr) (fun r m' => r = (true, PHYS_BASE - stack_size ws) /\ user_stack m' (PHYS_BASE - stack_size ws) ws) m.
Proof.
  intros Hne Hw Hb Hn Hfit Hmap Hap. unfold stack_size in *. pose proof (alen_nonneg (pack ws)) as Hn0. set (n := alen (pack ws)) in *.
  pose proof (Z.mod_pos_bound n 4 ltac:(lia)) as Hm4. change PGSIZE with 4096 in *. unfold actual_thread_size in Hn.
  unfold setup_stack. wp_step. eapply wp_eq; [apply (args_length_ok m arr ws); try done; change PGSIZE with 4096; fold n; lia|].
  fold n. rewrite (proj2 (Z.ltb_ge _ _)) by (unfold actual_thread_size; change PGSIZE with 4096; lia).
  pose proof (alen_nonneg ws) as Hk0. assert (n + pad_of n <= 4096) as Hfit2 by lia.
  assert (1 <= pad_of n <= 4) as Hpad by (unfold pad_of; lia).
  pose proof (place_strings_ok ws Hw m arr Hb) as Hplace. fold n in Hplace. change PGSIZE with 4096 in Hplace.
  specialize (Hplace ltac:(lia) Hmap Hfit2 Hap). apply wp_bind_assoc. eapply wp_mono; [exact Hplace|].
  intros [] m1 [Hb1 Hkeep1]. wp_step. fold (pad_of n).
  assert (forall a, PHYS_BASE - 4096 <= a < PHYS_BASE -> is_Some (m1 !! a)) as Hmap1 by (intros a Ha; by apply Hkeep1, Hmap).
  pose proof (stack_scan_ok ws Hw Hne m1 Hb1) as Hscan. fold n in Hscan. unfold alen in Hfit, Hk0 |- *.
  eapply wp_mono; [apply Hscan; intros a Ha; apply Hmap1; unfold pad_of in *; lia|]. intros r m2 [-> Hsc].
  set (A := PHYS_BASE - n - pad_of n) in *. set (k := length ws) in *.
  assert (A - 16 - 4 * Z.of_nat k = PHYS_BASE - (n + pad_of n + 16 + 4 * Z.of_nat k)) as Eesp by (unfold A; lia).
  assert (forall a, PHYS_BASE - 4096 <= a < PHYS_BASE -> is_Some (m2 !! a)) as Hmap2.
  { intros a Ha. by apply (sc_mapped _ _ _ _ _ Hsc), Hmap1. }
  wp_step. eapply wp_eq; [apply store32_ok; intros a Ha; apply Hmap2; unfold A in *; lia|].
  wp_step. eapply wp_eq; [apply store32_ok; intros a Ha; apply write_mapped, Hmap2; unfold A in *; lia|]. wp_step.
  rewrite <- Eesp. split; [f_equal; lia|]. set (e := A - 16 - 4 * Z.of_nat k) in *.
  replace (A - 8 - 4 * Z.of_nat k) with (e + 8) by lia. replace (e + 8 - 4) with (e + 4) by lia. replace (e + 8 + 4) with (e + 12) by lia.
  assert (forall a, e + 12 <= a -> write (write m2 (e + 8) (word_bytes (e + 12))) (e + 4) (word_bytes (Z.of_nat k)) !! a = m2 !! a) as Hup.
  { intros a Ha. rewrite !write_out by (simpl; lia). done. }
  split.
  - rewrite Eesp. unfold pad_of, PHYS_BASE. Z.div_mod_to_equations. lia.
  - apply write_in.
  - intros j x Hx. pose proof (lookup_lt_Some _ _ _ Hx) as Hj. simpl in Hj. rewrite write_out by (simpl; lia). by apply write_in.
  - intros i w Hi. pose proof (lookup_lt_Some _ _ _ Hi) as Hik. fold k in Hik. exists (PHYS_BASE - n + Z.of_nat (off ws i)).
    destruct (pack_word ws i w Hi) as (l & r & Ep & El). pose proof (Forall_lookup_1 _ _ _ _ Hw Hi) as [Hwn Hwc].
    assert (Z.of_nat (off ws i) + Z.of_nat (length w) + 1 <= n) as Hoff.
    { unfold n, alen. rewrite Ep, !length_app. simpl. lia. }
    split_and!; [| |change PGSIZE with 4096; lia|lia].
    + intros j x Hx. pose proof (lookup_lt_Some _ _ _ Hx) as Hj. simpl in Hj. rewrite Hup by lia.
      pose proof (sc_ptrs _ _ _ _ _ Hsc (k - 1 - i)%nat ltac:(unfold k in *; lia)) as Hp. fold n k A in Hp.
      replace (k - 1 - (k - 1 - i))%nat with i in Hp by lia. rewrite <- (Hp j x Hx). f_equal. lia.
    + split; [unfold PHYS_BASE; lia| |done]. intros j x Hx. pose proof (lookup_lt_Some _ _ _ Hx) as Hj. rewrite length_app in Hj. simpl in Hj.
      rewrite Hup by lia. rewrite (sc_same _ _ _ _ _ Hsc) by (fold n A; unfold pad_of in *; right; unfold A, pad_of; lia).
      rewrite <- (Hb1 (S (off ws i + j)) x); [f_equal; lia|]. simpl. rewrite Ep, lookup_app_r by lia.
      replace (off ws i + j - length l)%nat with j by lia. rewrite lookup_app_l; [done|rewrite length_app; simpl; lia].
Qed.

(** ** From the command line to the stack *)
Definition exec_command (cmd space arg_copy fn_copy tid : Z) : M mem (Z * (bool * Z)) :=
  pid ← process_execute cmd space arg_copy fn_copy tid;
  r ← setup_stack true 0 fn_copy;
  mret (pid, r).

(** C8: the user program finds its arguments.  From a command line with at least
    one word, whose words take at most what [setup_stack] allows and fit the
    stack page with the pointers to them, [process_execute] and [setup_stack]
    end without a fault and leave an aligned stack pointer inside the stack page
    with [argc], [argv] and in [argv] pointers to the words, which are those of
    the command line, split at spaces. *)
Theorem command_line_to_argv m cmd s space arg_copy fn_copy tid :
  str_at m cmd s -> str_at m space [32] -> tid <> TID_ERROR ->
  PHYS_BASE <= arg_copy -> PHYS_BASE <= fn_copy -> apart arg_copy PGSIZE fn_copy PGSIZE ->
  apart arg_copy PGSIZE cmd (alen s + 1) -> apart arg_copy PGSIZE space 2 ->
  mapped m arg_copy (Z.to_nat PGSIZE) -> mapped m fn_copy (Z.to_nat PGSIZE) -> mapped m (PHYS_BASE - PGSIZE) (Z.to_nat PGSIZE) ->
  command_words s <> [] -> alen (pack (command_words s)) <= PGSIZE - actual_thread_size -> stack_size (command_words s) <= PGSIZE ->
  wp (exec_command cmd space arg_copy fn_copy tid) (fun r m' => exists esp, r = (tid, (true, esp)) /\
    PHYS_BASE - PGSIZE <= esp < PHYS_BASE /\ user_stack m' esp (command_words s)) m.
Proof.
  intros Hs Hsp Ht Ha Hf Haf Hac Hasp Hma Hmf Hst Hne Hn Hfit. pose proof (sa_chars _ _ _ Hs) as Hc.
  destruct (command_words_ok s Hc) as [Hw _]. unfold exec_command. wp_step.
  eapply wp_mono; [apply (process_execute_ok m cmd s); try done; unfold PHYS_BASE in *; lia|].
  intros r m1 (-> & Hb & Hsame). wp_step. eapply wp_mono; [apply (setup_stack_ok m1 fn_copy (command_words s) 0); try done|].
  - intros a Hra. rewrite Hsame by lia. apply Hst. change PGSIZE with 4096 in *. lia.
  - by right.
  - intros r m2 [-> Hus]. wp_step. eexists. split; [done|]. split; [|done].
    unfold stack_size in *. cbv zeta in *. pose proof (alen_nonneg (pack (command_words s))). pose proof (alen_nonneg (command_words s)).
    unfold pad_of in *. pose proof (Z.mod_pos_bound (alen (pack (command_words s))) 4). change PGSIZE with 4096 in *. lia.
Qed.

(** A kernel with the command line "echo  hi x", two pages and a stack page. *)
Definition demo_kernel : mem :=
  write (write (write (write (write ∅ (PHYS_BASE - PGSIZE) (replicate 4096 255)) PHYS_BASE (replicate 4096 0))
    (PHYS_BASE + 4096) (replicate 4096 0)) (PHYS_BASE + 8192) [101; 99; 104; 111; 32; 32; 104; 105; 32; 120; 0]) (PHYS_BASE + 8300) [32; 0].

Lemma demo_kernel_mapped : mapped demo_kernel (PHYS_BASE - PGSIZE) (Z.to_nat PGSIZE) /\ mapped demo_kernel PHYS_BASE (Z.to_nat PGSIZE) /\
  mapped demo_kernel (PHYS_BASE + 4096) (Z.to_nat PGSIZE).
Proof.
  assert (forall m p x, mapped (write m p (replicate 4096 x)) p (Z.to_nat PGSIZE)) as H.
  { intros m p x. pose proof (bytes_mapped _ _ _ (write_in m p (replicate 4096 x))) as Hm. by rewrite length_replicate in Hm. }
  unfold demo_kernel. split_and!; intros a Ha.
  - do 4 apply write_mapped. exact (H _ _ _ a Ha).
  - do 3 apply write_mapped. exact (H _ _ _ a Ha).
  - do 2 apply write_mapped. exact (H _ _ _ a Ha).
Qed.

Lemma demo_kernel_strings : str_at demo_kernel (PHYS_BASE + 8192) [101; 99; 104; 111; 32; 32; 104; 105; 32; 120] /\
  str_at demo_kernel (PHYS_BASE + 8300) [32].
Proof.
  split; (split; [done| |vm_compute; repeat constructor; discriminate]).
  - intros j x Hx. pose proof (lookup_lt_Some _ _ _ Hx) as Hj. simpl in Hj. unfold demo_kernel. rewrite write_out by (simpl; lia). by apply write_in.
  - apply write_in.
Qed.

Lemma command_line_to_argv_witness :
  wp (exec_command (PHYS_BASE + 8192) (PHYS_BASE + 8300) PHYS_BASE (PHYS_BASE + 4096) 3) (fun r m' => exists esp, r = (3, (true, esp)) /\
    user_stack m' esp [[101; 99; 104; 111]; [104; 105]; [120]]) demo_kernel.
Proof.
  destruct demo_kernel_mapped as (M1 & M2 & M3). destruct demo_kernel_strings as [S1 S2].
  eapply wp_mono; [apply (command_line_to_argv demo_kernel (PHYS_BASE + 8192) [101; 99; 104; 111; 32; 32; 104; 105; 32; 120]); try done|].
  - by left.
  - by left.
  - by left.
  - intros r m' (esp & -> & _ & Hus). exists esp. split; [reflexivity|exact Hus].
Defined.

(** C39: when [thread_create] fails, [process_execute] does not return [TID_ERROR]
    but stops the kernel: it dereferences the null pointer that
    [get_child_by_tid] returns before it tests the identifier. *)
Theorem process_execute_no_thread :
  process_execute (PHYS_BASE + 8192) (PHYS_BASE + 8300) PHYS_BASE (PHYS_BASE + 4096) TID_ERROR demo_kernel = Err BadPointer.
Proof. vm_compute. reflexivity. Qed.
