(* ===== verification/Block.v ===== *)
(** * Block devices (src/devices/block.c)

    A block device is its sectors, which the driver behind it stores and
    gives back, and its counters; the registry has the list of devices in
    probe order and the device of each role.  Accesses past the end of a
    device panic. *)

From S2P Require Import Prelude Kstring.

Definition BLOCK_SECTOR_SIZE : Z := 512.
Definition SECTOR : nat := 512.

Inductive block_type := BLOCK_KERNEL | BLOCK_FILESYS | BLOCK_SCRATCH | BLOCK_SWAP | BLOCK_RAW | BLOCK_FOREIGN.

#[export] Instance block_type_eq_dec : EqDecision block_type.
Proof. solve_decision. Defined.

(** The number of an enumeration constant; the roles are the first four. *)
Definition type_no (t : block_type) : Z :=
  match t with
  | BLOCK_KERNEL => 0 | BLOCK_FILESYS => 1 | BLOCK_SCRATCH => 2 | BLOCK_SWAP => 3
  | BLOCK_RAW => 4 | BLOCK_FOREIGN => 5
  end.
Definition BLOCK_ROLE_CNT : Z := 4.

Record block := Block {
  bname : list Z;
  btype : block_type;
  bsize : Z;
  sectors : list (list Z);
  read_cnt : Z;
  write_cnt : Z
}.

(** ** One device *)
Definition check_sector (sector : Z) : M block unit :=
  b ← get; if bsize b <=? sector then fail PanicHalt else mret ().

Definition block_read (sector : Z) : M block (list Z) :=
  check_sector sector;;
  b ← get;
  data ← deref (sectors b).[sector];
  put (Block (bname b) (btype b) (bsize b) (sectors b) (u64 (read_cnt b + 1)) (write_cnt b));;
  mret data.

Definition block_write (sector : Z) (data : list Z) : M block unit :=
  check_sector sector;;
  b ← get;
  assert (negb (bool_decide (btype b = BLOCK_FOREIGN)));;
  _ ← deref (sectors b).[sector];
  put (Block (bname b) (btype b) (bsize b) (sectors b).[sector <- data] (read_cnt b) (u64 (write_cnt b + 1))).

Definition block_size : M block Z := gets bsize.
Definition block_name : M block (list Z) := gets bname.
Definition block_type_of : M block block_type := gets btype.

(** ** The registry *)
Record blocks := Blocks {
  devs : gmap Z block;
  all_blocks : list Z;
  block_by_role : list Z      (* one pointer for each role, 0 for none *)
}.

Definition block_get_role (role : block_type) : M blocks Z :=
  assert (type_no role <? BLOCK_ROLE_CNT);;
  s ← get; deref (block_by_role s).[type_no role].

Definition block_set_role (role : block_type) (b : Z) : M blocks unit :=
  assert (type_no role <? BLOCK_ROLE_CNT);;
  s ← get; _ ← deref (block_by_role s).[type_no role];
  put (Blocks (devs s) (all_blocks s) (block_by_role s).[type_no role <- b]).

Definition block_first : M blocks Z := s ← get; mret (hd 0 (all_blocks s)).

Fixpoint after (l : list Z) (b : Z) : Z :=
  match l with
  | [] => 0
  | x :: l => if x =? b then hd 0 l else after l b
  end.
Definition block_next (b : Z) : M blocks Z := s ← get; mret (after (all_blocks s) b).

(** [strcmp (name, block->name)] is 0. *)
Fixpoint find_by_name (m : gmap Z block) (l : list Z) (name : list Z) : result Z :=
  match l with
  | [] => Ok 0
  | x :: l =>
    match m !! x with
    | None => Err BadPointer
    | Some b => if cmp name (bname b) =? 0 then Ok x else find_by_name m l name
    end
  end.
Definition block_get_by_name (name : list Z) : M blocks Z := fun s =>
  match find_by_name (devs s) (all_blocks s) name with Ok b => Ok (b, s) | Err e => Err e end.

(** [p] is the memory that [malloc] returned for the descriptor; a name is cut
    to the 15 characters the descriptor has room for. *)
Definition block_register (p : Z) (name : list Z) (type : block_type) (size : Z) (contents : list (list Z))
    : M blocks Z :=
  if p =? 0 then fail PanicHalt else
  s ← get;
  put (Blocks (<[p := Block (take 15 name) type size contents 0 0]> (devs s)) (all_blocks s ++ [p]) (block_by_role s));;
  mret p.

(** ** Lemmas *)
Record block_ok (b : block) : Prop := {
  bk_size : bsize b = alen (sectors b);
  bk_sectors : Forall (fun d => length d = SECTOR) (sectors b);
  bk_type : btype b <> BLOCK_FOREIGN
}.

Lemma block_read_ok b i d :
  block_ok b -> (sectors b).[i] = Some d ->
  block_read i b = Ok (d, Block (bname b) (btype b) (bsize b) (sectors b) (u64 (read_cnt b + 1)) (write_cnt b)).
Proof.
  intros [H1 H2 H3] Hd. pose proof (aget_lt _ _ _ Hd). unfold block_read, check_sector, mbind, M_bind, get.
  rewrite (proj2 (Z.leb_gt _ _)) by lia. simpl. rewrite Hd. done.
Qed.

Lemma block_write_ok b i d d' :
  block_ok b -> (sectors b).[i] = Some d ->
  block_write i d' b =
    Ok (tt, Block (bname b) (btype b) (bsize b) (sectors b).[i <- d'] (read_cnt b) (u64 (write_cnt b + 1))).
Proof.
  intros [H1 H2 H3] Hd. pose proof (aget_lt _ _ _ Hd). unfold block_write, check_sector, mbind, M_bind, get.
  rewrite (proj2 (Z.leb_gt _ _)) by lia. simpl. unfold assert. rewrite bool_decide_eq_false_2 by done. simpl.
  rewrite Hd. done.
Qed.
