(* ===== verification/Partition.v ===== *)
(** * Partitions (src/devices/partition.c, and the drivers below src/devices/block.c)

    A block device passes reads and writes to its driver: a disk has sectors of
    its own, a partition is a range of sectors of another device.
    [partition_scan] reads the table in the first sector of a disk and registers
    a device for each partition; tables of extended partitions are visited
    recursively, on fuel.  The results of the coming calls of [malloc] are a
    list in the state, and so is what is printed.

    Theorems: a disk without extended partitions gets a device for exactly the
    entries that are inside the disk; whatever the disk holds, the devices that a
    scan registers are inside the disk, and reading and writing them is reading
    and writing that range; and an extended partition in the first half of a
    disk makes the scan recur without end, since the table of the disk is read
    again in place of the table of the extended partition. *)

From stdpp Require Import strings.
From S2P Require Import Prelude Kstdio Block.

(** ** Devices and their drivers *)
Inductive operations := Disk (l : list (list Z)) | Partition (under start : Z).

Record device := Device { dname : list Z; dtype : block_type; dsize : Z; ops : operations; reads : Z; writes : Z }.

Inductive message :=
  | NoPartitions (name : list Z)
  | TablePastEnd (name : list Z) (sector : Z)
  | BadSignature (name : list Z)
  | BadExtended (name : list Z) (sector : Z)
  | ExtendedIn (name : list Z) (sector : Z)
  | StartsPastEnd (name : list Z) (part_nr start : Z)
  | EndsPastEnd (name : list Z) (part_nr finish size : Z)
  | NewDevice (name : list Z) (size : Z) (extra_info : list Z).

Record devices := Devices { devs : gmap Z device; all_blocks : list Z; mallocs : list Z; out : list message }.

Definition set_devs (m : gmap Z device) (s : devices) : devices := Devices m (all_blocks s) (mallocs s) (out s).
Definition get_dev (p : Z) : M devices device := s ← get; deref (devs s !! p).
Definition put_dev (p : Z) (d : device) : M devices unit := modify (fun s => set_devs (<[p := d]> (devs s)) s).
Definition print (x : message) : M devices unit := modify (fun s => Devices (devs s) (all_blocks s) (mallocs s) (out s ++ [x])).
Definition malloc : M devices Z := fun s =>
  match mallocs s with [] => Ok (0, s) | p :: l => Ok (p, Devices (devs s) (all_blocks s) l (out s)) end.

Definition read_done (d : device) : device := Device (dname d) (dtype d) (dsize d) (ops d) (u64 (reads d + 1)) (writes d).
Definition write_done (d : device) : device := Device (dname d) (dtype d) (dsize d) (ops d) (reads d) (u64 (writes d + 1)).
Definition set_ops (o : operations) (d : device) : device := Device (dname d) (dtype d) (dsize d) o (reads d) (writes d).

Definition check_sector (p sector : Z) : M devices unit := d ← get_dev p; if dsize d <=? sector then fail PanicHalt else mret ().

Definition partition_read (block_read : Z -> Z -> M devices (list Z)) (under start sector : Z) : M devices (list Z) :=
  block_read under (u32 (start + sector)).
Definition partition_write (block_write : Z -> Z -> list Z -> M devices unit) (under start sector : Z) (data : list Z) : M devices unit :=
  block_write under (u32 (start + sector)) data.

(** [n] bounds how many partitions are on top of a disk; 1 for those that
    [partition_scan] makes on disks. *)
Fixpoint block_read (n : nat) (p sector : Z) : M devices (list Z) :=
  check_sector p sector;;
  d ← get_dev p;
  data ← match ops d with
         | Disk l => deref l.[sector]
         | Partition under start => match n with O => fail NoFuel | S n => partition_read (block_read n) under start sector end
         end;
  d ← get_dev p;
  put_dev p (read_done d);;
  mret data.

Fixpoint block_write (n : nat) (p sector : Z) (data : list Z) : M devices unit :=
  check_sector p sector;;
  d ← get_dev p;
  assert (negb (bool_decide (dtype d = BLOCK_FOREIGN)));;
  match ops d with
  | Disk l => _ ← deref l.[sector]; put_dev p (set_ops (Disk l.[sector <- data]) d)
  | Partition under start => match n with O => fail NoFuel | S n => partition_write (block_write n) under start sector data end
  end;;
  d ← get_dev p;
  put_dev p (write_done d).

(** A name is cut to the 15 characters that the descriptor has room for. *)
Definition block_register (name : list Z) (type : block_type) (extra_info : list Z) (size : Z) (o : operations) : M devices Z :=
  p ← malloc;
  if p =? 0 then fail PanicHalt else
  modify (fun s => Devices (<[p := Device (take 15 name) type size o 0 0]> (devs s)) (all_blocks s ++ [p]) (mallocs s) (out s));;
  print (NewDevice (take 15 name) size extra_info);;
  mret p.

(** ** Partition tables *)
Record partition_table_entry := Entry { bootable : Z; e_type : Z; e_offset : Z; e_size : Z }.

Definition entry_of (pt : list Z) (i : Z) : partition_table_entry :=
  let o := (446 + 16 * Z.to_nat i)%nat in Entry (byte_at pt o) (byte_at pt (o + 4)) (word_at pt (o + 8)) (word_at pt (o + 12)).
Definition signature (pt : list Z) : Z := half_at pt 510.

Definition extended (type : Z) : bool := (type =? 0x05) || (type =? 0x0f) || (type =? 0x85) || (type =? 0xc5).

Definition type_names : list (Z * string) := [
  (0x00, "Empty"); (0x01, "FAT12"); (0x02, "XENIX root"); (0x03, "XENIX usr"); (0x04, "FAT16 <32M"); (0x05, "Extended");
  (0x06, "FAT16"); (0x07, "HPFS/NTFS"); (0x08, "AIX"); (0x09, "AIX bootable"); (0x0a, "OS/2 Boot Manager"); (0x0b, "W95 FAT32");
  (0x0c, "W95 FAT32 (LBA)"); (0x0e, "W95 FAT16 (LBA)"); (0x0f, "W95 Ext'd (LBA)"); (0x10, "OPUS"); (0x11, "Hidden FAT12");
  (0x12, "Compaq diagnostics"); (0x14, "Hidden FAT16 <32M"); (0x16, "Hidden FAT16"); (0x17, "Hidden HPFS/NTFS"); (0x18, "AST SmartSleep");
  (0x1b, "Hidden W95 FAT32"); (0x1c, "Hidden W95 FAT32 (LBA)"); (0x1e, "Hidden W95 FAT16 (LBA)"); (0x20, "Pintos OS kernel");
  (0x21, "Pintos file system"); (0x22, "Pintos scratch"); (0x23, "Pintos swap"); (0x24, "NEC DOS"); (0x39, "Plan 9");
  (0x3c, "PartitionMagic recovery"); (0x40, "Venix 80286"); (0x41, "PPC PReP Boot"); (0x42, "SFS"); (0x4d, "QNX4.x");
  (0x4e, "QNX4.x 2nd part"); (0x4f, "QNX4.x 3rd part"); (0x50, "OnTrack DM"); (0x51, "OnTrack DM6 Aux1"); (0x52, "CP/M");
  (0x53, "OnTrack DM6 Aux3"); (0x54, "OnTrackDM6"); (0x55, "EZ-Drive"); (0x56, "Golden Bow"); (0x5c, "Priam Edisk"); (0x61, "SpeedStor");
  (0x63, "GNU HURD or SysV"); (0x64, "Novell Netware 286"); (0x65, "Novell Netware 386"); (0x70, "DiskSecure Multi-Boot"); (0x75, "PC/IX");
  (0x80, "Old Minix"); (0x81, "Minix / old Linux"); (0x82, "Linux swap / Solaris"); (0x83, "Linux"); (0x84, "OS/2 hidden C: drive");
  (0x85, "Linux extended"); (0x86, "NTFS volume set"); (0x87, "NTFS volume set"); (0x88, "Linux plaintext"); (0x8e, "Linux LVM");
  (0x93, "Amoeba"); (0x94, "Amoeba BBT"); (0x9f, "BSD/OS"); (0xa0, "IBM Thinkpad hibernation"); (0xa5, "FreeBSD"); (0xa6, "OpenBSD");
  (0xa7, "NeXTSTEP"); (0xa8, "Darwin UFS"); (0xa9, "NetBSD"); (0xab, "Darwin boot"); (0xb7, "BSDI fs"); (0xb8, "BSDI swap");
  (0xbb, "Boot Wizard hidden"); (0xbe, "Solaris boot"); (0xbf, "Solaris"); (0xc1, "DRDOS/sec (FAT-12)"); (0xc4, "DRDOS/sec (FAT-16 < 32M)");
  (0xc6, "DRDOS/sec (FAT-16)"); (0xc7, "Syrinx"); (0xda, "Non-FS data"); (0xdb, "CP/M / CTOS / ..."); (0xde, "Dell Utility"); (0xdf, "BootIt");
  (0xe1, "DOS access"); (0xe3, "DOS R/O"); (0xe4, "SpeedStor"); (0xeb, "BeOS fs"); (0xee, "EFI GPT"); (0xef, "EFI (FAT-12/16/32)");
  (0xf0, "Linux/PA-RISC boot"); (0xf1, "SpeedStor"); (0xf4, "SpeedStor"); (0xf2, "DOS secondary"); (0xfd, "Linux raid autodetect");
  (0xfe, "LANstep"); (0xff, "BBT")]%string.

Definition partition_type_name (type : Z) : list Z :=
  txt (match find (fun x => fst x =? type) type_names with Some x => snd x | None => "Unknown" end).

(** [%02x] *)
Definition hex2 (v : Z) : list Z := map (fun d => if d <? 10 then 48 + d else 87 + d) [v / 16; v mod 16].

Definition role_of (part_type : Z) : block_type :=
  if part_type =? 0x20 then BLOCK_KERNEL
  else if part_type =? 0x21 then BLOCK_FILESYS
  else if part_type =? 0x22 then BLOCK_SCRATCH
  else if part_type =? 0x23 then BLOCK_SWAP
  else BLOCK_FOREIGN.

Definition found_partition (block part_type start size part_nr : Z) : M devices unit :=
  d ← get_dev block;
  if dsize d <=? start then print (StartsPastEnd (dname d) part_nr start)
  else if (u32 (start + size) <? start) || (dsize d <? u32 (start + size)) then print (EndsPastEnd (dname d) part_nr (u32 (start + size)) (dsize d))
  else
    p ← malloc;
    if p =? 0 then fail PanicHalt else
    let name := take 15 (dname d ++ int_text part_nr) in
    let extra_info := take 127 (partition_type_name part_type ++ txt " (" ++ hex2 part_type ++ txt ")") in
    block_register name (role_of part_type) extra_info size (Partition block start);;
    mret ().

(** One turn of the loop over the table; [read_partition_table] visits the table
    of an extended partition.  The number of partitions found so far is passed
    and returned. *)
Definition scan_entry (read_partition_table : Z -> Z -> Z -> M devices Z) (block : Z) (name : list Z) (sector primary_extended_sector : Z)
    (e : partition_table_entry) (part_nr : Z) : M devices Z :=
  if (e_size e =? 0) || (e_type e =? 0) then mret part_nr
  else if extended (e_type e) then
    print (ExtendedIn name sector);;
    if sector =? 0 then read_partition_table (e_offset e) (e_offset e) part_nr
    else read_partition_table (u32 (e_offset e + primary_extended_sector)) primary_extended_sector part_nr
  else
    let part_nr := s32 (part_nr + 1) in
    found_partition block (e_type e) (u32 (e_offset e + sector)) (e_size e) part_nr;;
    mret part_nr.

Fixpoint read_partition_table (n : nat) (block sector primary_extended_sector part_nr : Z) : M devices Z :=
  match n with
  | O => fail NoFuel
  | S n =>
    d ← get_dev block;
    if dsize d <=? sector then print (TablePastEnd (dname d) sector);; mret part_nr else
    p ← malloc;
    if p =? 0 then fail PanicHalt else
    pt ← block_read 1 block 0;
    if negb (signature pt =? 0xaa55) then
      print (if primary_extended_sector =? 0 then BadSignature (dname d) else BadExtended (dname d) sector);; mret part_nr
    else
    for_acc 4 0 part_nr (fun i => scan_entry (read_partition_table n block) block (dname d) sector primary_extended_sector (entry_of pt i))
  end.

Definition partition_scan (n : nat) (block : Z) : M devices unit :=
  part_nr ← read_partition_table n block 0 0 0;
  if part_nr =? 0 then d ← get_dev block; print (NoPartitions (dname d)) else mret ().

(** ** Partitions as ranges of a disk *)
Section disk.
Context (D : Z) (nm : list Z).

Definition is_disk (l : list (list Z)) (d : device) : Prop :=
  ops d = Disk l /\ dsize d = alen l /\ dtype d <> BLOCK_FOREIGN /\ dname d = nm.

(** [D] is a disk with the sectors [l], and every partition of it is inside. *)
Record parts_ok (l : list (list Z)) (s : devices) : Prop := {
  pk_disk : exists d, devs s !! D = Some d /\ is_disk l d;
  pk_size : alen l < 2 ^ 32;
  pk_parts : forall p d start, devs s !! p = Some d -> ops d = Partition D start -> 0 <= start /\ 0 <= dsize d /\ start + dsize d <= alen l
}.

Lemma get_dev_ok p d s : devs s !! p = Some d -> get_dev p s = Ok (d, s).
Proof. intros E. unfold get_dev, mbind, M_bind, get. by rewrite E. Qed.

(** Counting an access. *)
Lemma parts_ok_count l s p d d' :
  parts_ok l s -> devs s !! p = Some d -> ops d' = ops d -> dsize d' = dsize d -> dtype d' = dtype d -> dname d' = dname d ->
  parts_ok l (set_devs (<[p := d']> (devs s)) s).
Proof.
  intros [(d0 & Hd & E1 & E2 & E3 & E4) H2 H3] Hp Eo Es Et En. split; [|done|].
  - simpl. destruct (decide (p = D)) as [->|Hne]; [|rewrite lookup_insert_ne by done; by exists d0].
    rewrite lookup_insert_eq. exists d'. split; [done|]. rewrite Hd in Hp. injection Hp as <-. unfold is_disk. by rewrite Eo, Es, Et, En.
  - intros q x start. simpl. rewrite lookup_insert_Some. intros [[<- <-]|[_ Hx]] Ex; [|by eapply H3]. rewrite Es. eapply H3; [done|congruence].
Qed.

Lemma disk_read_ok l s i x n : parts_ok l s -> l.[i] = Some x ->
  wp (block_read n D i) (fun r s' => r = x /\ parts_ok l s' /\ all_blocks s' = all_blocks s /\ mallocs s' = mallocs s /\
    forall q, q <> D -> devs s' !! q = devs s !! q) s.
Proof.
  intros Hok Hx. pose proof Hok as [(d & Hd & E1 & E2 & _) _ _]. pose proof (aget_lt _ _ _ Hx).
  destruct n; simpl; (wp_step; unfold check_sector; wp_step; eapply wp_eq; [by apply get_dev_ok|]; rewrite (proj2 (Z.leb_gt _ _)) by lia; wp_step;
    wp_step; eapply wp_eq; [by apply get_dev_ok|]; wp_step; rewrite E1; eapply wp_deref; [done|]; wp_step; eapply wp_eq; [by apply get_dev_ok|];
    wp_step; apply wp_modify; wp_step; split; [done|]; split; [by apply (parts_ok_count l s D d)|]; split; [done|]; split; [done|];
    intros q Hq; simpl; by rewrite lookup_insert_ne by done).
Qed.

(** The contents of the disk are written. *)
Lemma disk_write_ok l s i x data n : parts_ok l s -> l.[i] = Some x ->
  wp (block_write n D i data) (fun _ s' => parts_ok l.[i <- data] s' /\ forall q, q <> D -> devs s' !! q = devs s !! q) s.
Proof.
  intros Hok Hx. pose proof Hok as [(d & Hd & E1 & E2 & E3 & E4) H2 H3]. pose proof (aget_lt _ _ _ Hx).
  assert (parts_ok l.[i <- data] (set_devs (<[D := set_ops (Disk l.[i <- data]) d]> (devs s)) s)) as Hok'.
  { split; rewrite ?alen_aset; [|done|].
    - exists (set_ops (Disk l.[i <- data]) d). split; [apply lookup_insert_eq|]. unfold is_disk. simpl. by rewrite alen_aset.
    - intros q y start. simpl. rewrite lookup_insert_Some. intros [[<- <-]|[_ Hy]] Ey; [done|by eapply H3]. }
  set (d1 := set_ops (Disk l.[i <- data]) d) in *.
  destruct n; simpl; (wp_step; unfold check_sector; wp_step; eapply wp_eq; [by apply get_dev_ok|]; rewrite (proj2 (Z.leb_gt _ _)) by lia; wp_step;
    wp_step; eapply wp_eq; [by apply get_dev_ok|]; wp_step; apply wp_assert; [by rewrite bool_decide_eq_false_2|]; wp_step; rewrite E1; wp_step;
    eapply wp_deref; [done|]; apply wp_modify; fold d1; wp_step; eapply wp_eq; [apply (get_dev_ok D d1); apply lookup_insert_eq|]; apply wp_modify; split;
    [by apply (parts_ok_count _ _ D d1); [|apply lookup_insert_eq|..]|]; intros q Hq; simpl; by rewrite !lookup_insert_ne by done).
Qed.

(** What stays the same of a device. *)
Definition kind (d : device) : operations * Z * block_type := (ops d, dsize d, dtype d).

Lemma part_read_ok l s p d start i x : parts_ok l s -> devs s !! p = Some d -> ops d = Partition D start -> 0 <= i < dsize d -> l.[start + i] = Some x ->
  wp (block_read 1 p i) (fun r s' => r = x /\ parts_ok l s' /\ forall q, q <> D -> kind <$> devs s' !! q = kind <$> devs s !! q) s.
Proof.
  intros Hok Hp Ho Hi Hx. destruct (pk_parts _ _ Hok p d start Hp Ho) as (H1 & H2 & H3). pose proof (pk_size _ _ Hok).
  assert (p <> D) as Hne by (intros ->; destruct (pk_disk _ _ Hok) as (d' & Hd & E & _); congruence).
  unfold block_read. fold block_read. wp_step. unfold check_sector. wp_step. eapply wp_eq; [by apply get_dev_ok|]. rewrite (proj2 (Z.leb_gt _ _)) by lia. wp_step.
  wp_step. eapply wp_eq; [by apply get_dev_ok|]. wp_step. rewrite Ho. unfold partition_read. rewrite wrap_small by lia.
  eapply wp_mono; [by apply (disk_read_ok l s (start + i) x 0)|]. intros r s1 (-> & Hok1 & _ & _ & Hs1). wp_step.
  assert (devs s1 !! p = Some d) as Hp1 by (by rewrite Hs1). eapply wp_eq; [by apply get_dev_ok|]. wp_step. apply wp_modify. wp_step. split; [done|].
  split; [by apply (parts_ok_count l s1 p d)|]. intros q HD. simpl. destruct (decide (q = p)) as [->|Hq]; [by rewrite lookup_insert_eq, Hp|]. rewrite lookup_insert_ne by done. by rewrite Hs1.
Qed.

Lemma part_write_ok l s p d start i data :
  parts_ok l s -> devs s !! p = Some d -> ops d = Partition D start -> 0 <= i < dsize d -> dtype d <> BLOCK_FOREIGN ->
  wp (block_write 1 p i data) (fun _ s' => parts_ok l.[start + i <- data] s' /\ forall q, q <> D -> kind <$> devs s' !! q = kind <$> devs s !! q) s.
Proof.
  intros Hok Hp Ho Hi Ht. destruct (pk_parts _ _ Hok p d start Hp Ho) as (H1 & H2 & H3). pose proof (pk_size _ _ Hok).
  assert (p <> D) as Hne by (intros ->; destruct (pk_disk _ _ Hok) as (d' & Hd & E & _); congruence).
  destruct (proj1 (aget_is_Some l (start + i)) ltac:(lia)) as [x Hx].
  unfold block_write. fold block_write. wp_step. unfold check_sector. wp_step. eapply wp_eq; [by apply get_dev_ok|]. rewrite (proj2 (Z.leb_gt _ _)) by lia. wp_step.
  wp_step. eapply wp_eq; [by apply get_dev_ok|]. wp_step. apply wp_assert; [by rewrite bool_decide_eq_false_2|]. wp_step. rewrite Ho. unfold partition_write. rewrite wrap_small by lia.
  eapply wp_mono; [by apply (disk_write_ok l s (start + i) x data 0)|]. intros [] s1 (Hok1 & Hs1). wp_step.
  assert (devs s1 !! p = Some d) as Hp1 by (by rewrite Hs1). eapply wp_eq; [by apply get_dev_ok|]. apply wp_modify.
  split; [by apply (parts_ok_count _ s1 p d)|]. intros q HD. simpl. destruct (decide (q = p)) as [->|Hq]; [by rewrite lookup_insert_eq, Hp|]. rewrite lookup_insert_ne by done. by rewrite Hs1.
Qed.

(** C1: A partition is its range of the disk.  Writing sector [i] of one partition
    and then reading sector [j] of the same or of another one returns, without a
    panic, the data just written when these are the same sector of the disk, and
    what the disk had there before otherwise: partitions that do not overlap
    never see each other's writes. *)
Theorem partition_is_range l s p d start i data q e start' j x :
  parts_ok l s -> devs s !! p = Some d -> ops d = Partition D start -> dtype d <> BLOCK_FOREIGN -> 0 <= i < dsize d ->
  devs s !! q = Some e -> ops e = Partition D start' -> 0 <= j < dsize e -> l.[start' + j] = Some x ->
  wp (block_write 1 p i data;; block_read 1 q j)
    (fun r s' => r = (if decide (start' + j = start + i) then data else x) /\ parts_ok l.[start + i <- data] s') s.
Proof.
  intros Hok Hp Ho Ht Hi Hq Hoq Hj Hx. destruct (pk_parts _ _ Hok p d start Hp Ho) as (H1 & H2 & H3).
  wp_step. eapply wp_mono; [by apply (part_write_ok l s p d start i data)|]. intros [] s1 [Hok1 Hs1].
  assert (q <> D) as Hne by (intros ->; destruct (pk_disk _ _ Hok) as (d' & Hd & E & _); congruence).
  specialize (Hs1 q Hne). rewrite Hq in Hs1. simpl in Hs1. apply fmap_Some in Hs1 as (e' & He' & Ek). injection Ek as Eo Es _.
  eapply wp_mono; [apply (part_read_ok _ s1 q e' start' j (if decide (start' + j = start + i) then data else x) Hok1 He'); [congruence|by rewrite <- Es|]|].
  - case_decide as Eij; [rewrite Eij; apply aget_aset_eq; lia|]. by rewrite aget_aset_ne by lia.
  - intros r s2 (-> & Hok2 & _). done.
Qed.

(** ** Scanning a disk *)
Definition used (e : partition_table_entry) : bool := negb ((e_size e =? 0) || (e_type e =? 0)).

(** The entries in use, with their numbers. *)
Fixpoint number (k : Z) (es : list partition_table_entry) : list (Z * partition_table_entry) :=
  match es with
  | [] => []
  | e :: es => if used e then (k + 1, e) :: number (k + 1) es else number k es
  end.

Definition entries (pt : list Z) : list partition_table_entry := map (entry_of pt) [0; 1; 2; 3].

(** The entries that become devices: those that end inside the disk. *)
Definition inside (size : Z) (x : Z * partition_table_entry) : bool := e_offset x.2 + e_size x.2 <=? size.

Definition part_device (x : Z * partition_table_entry) : device :=
  Device (take 15 (take 15 (nm ++ int_text x.1))) (role_of (e_type x.2)) (e_size x.2) (Partition D (e_offset x.2)) 0 0.

(** At least [k] calls of [malloc] succeed, with new addresses. *)
Definition mem_ok (k : nat) (s : devices) : Prop :=
  (k <= length (mallocs s))%nat /\ NoDup (mallocs s) /\ forall p, p ∈ mallocs s -> p <> 0 /\ devs s !! p = None.

(** [s'] has the devices for [xs] more than [s]. *)
Record registered (l : list (list Z)) (s : devices) (xs : list (Z * partition_table_entry)) (k : nat) (s' : devices) : Prop := {
  rg_ok : parts_ok l s';
  rg_mem : mem_ok k s';
  rg_new : exists ps, all_blocks s' = all_blocks s ++ ps /\ Forall2 (fun p x => devs s' !! p = Some (part_device x)) ps xs /\
    (forall p, p ∈ ps -> devs s !! p = None) /\ forall q, q <> D -> q ∉ ps -> devs s' !! q = devs s !! q
}.

Lemma malloc_dev_ok k s (Q : Z -> devices -> Prop) :
  mem_ok (S k) s -> (forall p m, p <> 0 -> devs s !! p = None -> p ∉ m -> mem_ok k (Devices (devs s) (all_blocks s) m (out s)) ->
    Q p (Devices (devs s) (all_blocks s) m (out s))) -> wp malloc Q s.
Proof.
  intros (Hk & Hnd & Hf) HQ. unfold wp, malloc. destruct (mallocs s) as [|p m] eqn:Em; simpl in Hk; [lia|]. apply NoDup_cons in Hnd as [Hp Hnd].
  destruct (Hf p (list_elem_of_here _ _)) as [H0 Hn]. apply HQ; [done..|]. split; [simpl; lia|]. split; [done|]. intros q Hq. apply Hf. by right.
Qed.

Lemma part_entry_range pt i : 0 <= e_offset (entry_of pt i) < 2 ^ 32 /\ 0 <= e_size (entry_of pt i) < 2 ^ 32 /\ 0 <= e_type (entry_of pt i) < 2 ^ 8.
Proof. split; [apply word_at_range|]. split; [apply word_at_range|apply byte_at_range]. Qed.

Lemma mem_ok_le k j s : mem_ok k s -> (j <= k)%nat -> mem_ok j s.
Proof. intros (H1 & H2 & H3) Hj. split; [lia|done]. Qed.

Lemma print_registered l s k j m : parts_ok l s -> mem_ok k s -> (j <= k)%nat -> wp (print m) (fun _ s' => registered l s [] j s') s.
Proof.
  intros [H1 H2 H3] Hm Hj. apply wp_modify. split; [by split|by eapply mem_ok_le|]. exists []. split; [by rewrite app_nil_r|]. split; [constructor|]. split; [set_solver|done].
Qed.

(** The two tests of the end of a partition. *)
Lemma end_tests o n size : 0 <= o < 2 ^ 32 -> 0 < n < 2 ^ 32 -> size < 2 ^ 32 ->
  (size <=? o) || ((u32 (o + n) <? o) || (size <? u32 (o + n))) = negb (o + n <=? size).
Proof.
  intros Ho Hn Hs. destruct (decide (o + n < 2 ^ 32)) as [Hlt|Hge].
  - rewrite wrap_small by lia. apply eq_bool_prop_intro. rewrite !orb_True, negb_True. rewrite !Is_true_true, Z.leb_le, !Z.ltb_lt. rewrite Z.leb_le. lia.
  - assert (u32 (o + n) = o + n - 2 ^ 32) as -> by (unfold wrap; symmetry; apply (Z.mod_unique_pos _ _ 1); lia).
    rewrite (proj2 (Z.ltb_lt (o + n - 2 ^ 32) o)) by lia. rewrite (proj2 (Z.leb_gt (o + n) size)) by lia. simpl. by rewrite orb_true_r.
Qed.

Lemma register_ok l s k x e ty info :
  parts_ok l s -> mem_ok (S k) s -> 0 <= e_offset e -> 0 <= e_size e -> e_offset e + e_size e <= alen l -> ty = role_of (e_type e) ->
  wp (block_register (take 15 (nm ++ int_text x)) ty info (e_size e) (Partition D (e_offset e))) (fun _ s' => registered l s [(x, e)] k s') s.
Proof.
  intros Hok Hm Ho Hs Hin ->. pose proof Hok as [(d & Hd & Hdisk) H2 H3]. unfold block_register. wp_step. apply (malloc_dev_ok k s); [done|].
  intros p m Hp Hnew Hpm Hm'. rewrite (proj2 (Z.eqb_neq p 0)) by done. wp_step. apply wp_modify. wp_step. apply wp_modify. wp_step. split.
  - split; [|done|].
    + exists d. split; [simpl; rewrite lookup_insert_ne; [done|congruence]|done].
    + intros q y start. simpl. rewrite lookup_insert_Some. intros [[<- <-]|[_ Hy]] Ey; [|by eapply H3]. simpl in *. injection Ey as <-. lia.
  - destruct Hm' as (K1 & K2 & K3). split; [done|]. split; [done|]. intros q Hq. destruct (K3 q Hq) as [K4 K5]. split; [done|].
    simpl in *. rewrite lookup_insert_ne; [done|]. by intros <-.
  - exists [p]. split; [done|]. split; [|split; [set_solver|]; intros q HD Hq; simpl; rewrite lookup_insert_ne; [done|]; set_solver].
    constructor; [|constructor]. simpl. by rewrite lookup_insert_eq.
Qed.

Lemma found_ok l s k x e : parts_ok l s -> mem_ok (2 + k) s -> 0 <= e_offset e < 2 ^ 32 -> 0 < e_size e < 2 ^ 32 ->
  wp (found_partition D (e_type e) (e_offset e) (e_size e) x) (fun _ s' => registered l s (filter (inside (alen l)) [(x, e)]) k s') s.
Proof.
  intros Hok Hm Ho Hs. pose proof Hok as [(d & Hd & E1 & E2 & E3 & E4) H2 H3]. pose proof (end_tests _ _ _ Ho Hs H2) as Et.
  unfold found_partition. wp_step. eapply wp_eq; [by apply get_dev_ok|]. rewrite E2, E4.
  assert (filter (inside (alen l)) [(x, e)] = if e_offset e + e_size e <=? alen l then [(x, e)] else []) as ->.
  { rewrite filter_cons. unfold inside. simpl. by destruct (e_offset e + e_size e <=? alen l). }
  destruct (Z.leb_spec (e_offset e + e_size e) (alen l)) as [Hin|Hout]; simpl in Et.
  - apply orb_false_iff in Et as [-> ->]. wp_step. apply (malloc_dev_ok (S k) s); [done|]. intros p m Hp _ _ Hm'. rewrite (proj2 (Z.eqb_neq p 0)) by done. cbv zeta. wp_step.
    eapply wp_mono; [apply (register_ok l _ k x e); [by split; [exists d|..]|done|lia..|done]|]. intros r s' [R1 R2 R3]. wp_step. by split.
  - destruct (alen l <=? e_offset e); [apply (print_registered l s (2 + k) k); [done|done|lia]|]. simpl in Et. rewrite Et. apply (print_registered l s (2 + k) k); [done|done|lia].
Qed.

Lemma registered_app l s s1 s2 xs ys j k : registered l s xs j s1 -> registered l s1 ys k s2 -> registered l s (xs ++ ys) k s2.
Proof.
  intros [A1 A2 (ps & A3 & A4 & A5 & A6)] [B1 B2 (qs & B3 & B4 & B5 & B6)]. split; [done..|].
  assert (forall p, p ∈ ps -> p <> D /\ is_Some (devs s1 !! p)) as Hps.
  { intros p (i & Hp)%list_elem_of_lookup. destruct (Forall2_lookup_l _ _ _ _ _ A4 Hp) as (x & _ & Hx). split; [|by eexists]. intros ->. destruct (pk_disk _ _ A1) as (d & Hd & E & _).
    rewrite Hd in Hx. by injection Hx as ->. }
  assert (forall p, p ∈ ps -> p ∉ qs) as Hpq by (intros p [_ [y Hy]]%Hps Hq; rewrite (B5 p Hq) in Hy; done).
  exists (ps ++ qs). split; [by rewrite B3, A3, <- app_assoc|]. split; [|split].
  - apply Forall2_app; [|done]. apply Forall2_same_length_lookup_2; [by eapply Forall2_length|]. intros i p x Hp Hx.
    destruct (Hps p) as [HD _]; [by eapply list_elem_of_lookup_2|]. rewrite B6; [|done|by apply Hpq; eapply list_elem_of_lookup_2].
    exact (Forall2_lookup_lr _ _ _ _ _ _ A4 Hp Hx).
  - intros p [Hp|Hp]%elem_of_app; [by apply A5|]. destruct (decide (p = D)) as [->|HD]; [destruct (pk_disk _ _ A1) as (d & Hd & _); rewrite (B5 D Hp) in Hd; done|].
    destruct (decide (p ∈ ps)) as [Hin|Hout]; [by apply A5|]. rewrite <- (A6 p HD Hout). by apply B5.
  - intros q HD Hq. rewrite elem_of_app in Hq. rewrite B6, A6; [done|done|tauto|done|tauto].
Qed.

Lemma number_app k es fs : number k (es ++ fs) = number k es ++ number (k + Z.of_nat (length (number k es))) fs.
Proof.
  revert k. induction es as [|e es IH]; intros k; simpl; [f_equal; lia|]. destruct (used e); [|apply IH]. simpl. rewrite IH. do 3 f_equal. lia.
Qed.

Lemma number_cons k e es : number k (e :: es) = number k [e] ++ number (k + Z.of_nat (length (number k [e]))) es.
Proof. exact (number_app k [e] es). Qed.

Lemma scan_entry_ok rec l s k e nr :
  parts_ok l s -> mem_ok (2 + k) s -> 0 <= e_offset e < 2 ^ 32 -> 0 <= e_size e < 2 ^ 32 -> extended (e_type e) = false -> 0 <= nr < 2 ^ 31 - 1 ->
  wp (scan_entry rec D nm 0 0 e nr) (fun nr' s' => nr' = nr + Z.of_nat (length (number nr [e])) /\ registered l s (filter (inside (alen l)) (number nr [e])) k s') s.
Proof.
  intros Hok Hm Ho Hs He Hnr. unfold scan_entry. simpl number. unfold used. destruct ((e_size e =? 0) || (e_type e =? 0)) eqn:Eu.
  - wp_step. simpl. split; [lia|]. split; [done|apply (mem_ok_le (2 + k)); [done|lia]|]. exists []. split; [by rewrite app_nil_r|]. split; [constructor|]. split; [set_solver|done].
  - rewrite He. cbv zeta. rewrite swrap_small, Z.add_0_r, wrap_small by lia. apply orb_false_iff in Eu as [Eu%Z.eqb_neq _].
    wp_step. eapply wp_mono; [apply (found_ok l s k (nr + 1) e); [done|done|done|lia]|]. intros [] s' Hr. wp_step. split; [simpl; lia|exact Hr].
Qed.

Lemma table_loop_ok rec l s pt cnt i nr :
  parts_ok l s -> mem_ok (2 * cnt) s -> (forall j, i <= j < i + Z.of_nat cnt -> extended (e_type (entry_of pt j)) = false) -> 0 <= nr -> nr + Z.of_nat cnt < 2 ^ 31 ->
  wp (for_acc cnt i nr (fun i => scan_entry rec D nm 0 0 (entry_of pt i))) (fun nr' s' => nr' = nr + Z.of_nat (length (number nr (map (entry_of pt) (seqZ i (Z.of_nat cnt))))) /\
    registered l s (filter (inside (alen l)) (number nr (map (entry_of pt) (seqZ i (Z.of_nat cnt))))) 0 s') s.
Proof.
  revert i nr s. induction cnt as [|cnt IH]; intros i nr s Hok Hm Hext Hnr Hmax.
  - simpl. wp_step. split; [lia|]. split; [done|done|]. exists []. split; [by rewrite app_nil_r|]. split; [constructor|]. split; [set_solver|done].
  - rewrite seqZ_cons by lia. replace (Z.pred (Z.of_nat (S cnt))) with (Z.of_nat cnt) by lia. simpl for_acc. wp_step. destruct (part_entry_range pt i) as (R1 & R2 & _).
    eapply wp_mono; [apply (scan_entry_ok rec l s (2 * cnt) (entry_of pt i) nr); [done|by replace (2 + 2 * cnt)%nat with (2 * S cnt)%nat by lia|done|done|apply Hext; lia|lia]|].
    intros nr' s1 [-> Hr]. rewrite map_cons, (number_cons nr (entry_of pt i) (map _ _)), list.filter_app, length_app.
    set (xs := number nr [entry_of pt i]) in *. assert (length xs <= 1)%nat by (unfold xs; simpl; destruct (used _); simpl; lia).
    eapply wp_mono; [apply (IH (i + 1)); [apply Hr|apply Hr|intros j Hj; apply Hext; lia|lia|lia]|]. intros nr'' s2 [-> Hr2].
    rewrite <- Z.add_1_r. split; [lia|]. by eapply registered_app.
Qed.

(** C1: On a disk whose table has no extended partition, [partition_scan] returns
    and registers a device for exactly the entries that are in use and end
    inside the disk, in the order of the table: with the sectors and the role
    that the entry says and the number of the entry among those in use.  All
    partitions are inside the disk, and other devices are as before. *)
Theorem partition_scan_registers l s pt n :
  parts_ok l s -> mem_ok 9 s -> l.[0] = Some pt -> signature pt = 0xaa55 -> (forall i, 0 <= i < 4 -> extended (e_type (entry_of pt i)) = false) ->
  wp (partition_scan (S n) D) (fun _ s' => registered l s (filter (inside (alen l)) (number 0 (entries pt))) 0 s') s.
Proof.
  intros Hok Hm Hpt Hsig Hext. pose proof Hok as [(d & Hd & E1 & E2 & E3 & E4) H2 H3]. pose proof (aget_lt _ _ _ Hpt).
  unfold partition_scan, read_partition_table. fold read_partition_table. wp_step. wp_step. eapply wp_eq; [by apply get_dev_ok|].
  rewrite E2, (proj2 (Z.leb_gt _ _)) by lia. wp_step. apply (malloc_dev_ok 8 s); [done|]. intros p m Hp Hnew Hpm Hm'. rewrite (proj2 (Z.eqb_neq p 0)) by done.
  set (s1 := Devices _ _ _ _) in *. assert (parts_ok l s1) as Hok1 by (split; [by exists d|done..]).
  wp_step. eapply wp_mono; [by apply (disk_read_ok l s1 0 pt 1)|]. intros r s2 (-> & Hok2 & Ea & Em & Hs2). rewrite Hsig. simpl (negb _). cbv iota. rewrite E4.
  assert (mem_ok 8 s2) as Hm2.
  { destruct Hm' as (K1 & K2 & K3). split; [by rewrite Em|]. rewrite Em. split; [done|]. intros q Hq. destruct (K3 q Hq) as [K4 K5]. split; [done|].
    rewrite Hs2; [done|]. intros ->. simpl in K5. congruence. }
  eapply wp_mono; [apply (table_loop_ok _ l s2 pt 4 0 0 Hok2 Hm2); [intros j Hj; apply Hext; lia|lia|lia]|]. intros nr s3 [_ [R1 R2 R3]].
  assert (registered l s (filter (inside (alen l)) (number 0 (entries pt))) 0 s3) as Hreg.
  { split; [done|done|]. destruct R3 as (ps & P1 & P2 & P3 & P4). exists ps. split; [by rewrite P1, Ea|]. split; [done|]. split.
    - intros q Hq. destruct (decide (q = D)) as [->|HD]; [destruct (pk_disk _ _ Hok2) as (d2 & Hd2 & _); rewrite (P3 D Hq) in Hd2; done|].
      rewrite <- (P3 q Hq). symmetry. by apply Hs2.
    - intros q HD Hq. rewrite (P4 q HD Hq). by apply Hs2. }
  destruct (nr =? 0); [|by wp_step]. destruct (pk_disk _ _ R1) as (d3 & Hd3 & _). wp_step. eapply wp_eq; [by apply get_dev_ok|]. apply wp_modify.
  destruct Hreg as [[G1 G2 G3] [M1 M2] G4]. split; [by split|by split|done].
Qed.

End disk.

(** ** Extended partitions *)

(** [m] does not return; and if it does, it keeps [J]. *)
Definition never {A} (m : M devices A) (s : devices) : Prop := forall a s', m s <> Ok (a, s').
Definition keeps {A} (J : devices -> Prop) (m : M devices A) : Prop := forall s a s', J s -> m s = Ok (a, s') -> J s'.

Lemma bind_dev {A B} (m : M devices A) (f : A -> M devices B) s b s2 :
  mbind f m s = Ok (b, s2) -> exists a s1, m s = Ok (a, s1) /\ f a s1 = Ok (b, s2).
Proof. unfold mbind, M_bind. destruct (m s) as [[a s1]|]; [by eauto|done]. Qed.

Lemma keeps_bind {A B} J (m : M devices A) (f : A -> M devices B) : keeps J m -> (forall a, keeps J (f a)) -> keeps J (mbind f m).
Proof. intros Hm Hf s b s2 Hs (a & s1 & H1 & H2)%bind_dev. by eapply Hf, H2; eapply Hm. Qed.

Lemma never_bind {A B} J (m : M devices A) (f : A -> M devices B) s : J s -> keeps J m -> (forall a s1, J s1 -> m s = Ok (a, s1) -> never (f a) s1) -> never (mbind f m) s.
Proof. intros Hs Hm Hf b s2 (a & s1 & H1 & H2)%bind_dev. by eapply (Hf a s1); [eapply Hm|..]. Qed.

Lemma keeps_ret {A} J (a : A) : keeps J (mret a).
Proof. intros s b s' Hs [= <- <-]. done. Qed.

Lemma keeps_fail {A} J e : keeps J (fail e : M devices A).
Proof. by intros s a s' _ [=]. Qed.

Section extended.
Context (D : Z) (l : list (list Z)) (pt : list Z) (i : Z).
Abbreviation e := (entry_of pt i).
Abbreviation k := (e_offset (entry_of pt i)).
Hypothesis Hl : alen l < 2 ^ 32.
Hypothesis Hpt : l.[0] = Some pt.
Hypothesis Hsig : signature pt = 0xaa55.
Hypothesis Hi : 0 <= i < 4.
Hypothesis Hused : used e = true.
Hypothesis Hext : extended (e_type e) = true.
Hypothesis Hhalf : 2 * k < alen l.

(** The disk is there, and no new device takes its place. *)
Definition there (s : devices) : Prop := (exists d, devs s !! D = Some d /\ ops d = Disk l /\ dsize d = alen l) /\ D ∉ mallocs s.

Lemma there_get p : keeps there (get_dev p).
Proof. intros s a s' Hs. unfold get_dev, mbind, M_bind, get. destruct (devs s !! p); intros E; [by injection E as <- <-|done]. Qed.

Lemma there_print m : keeps there (print m).
Proof. intros s a s' Hs [= _ <-]. done. Qed.

Lemma there_malloc s p s' : there s -> malloc s = Ok (p, s') -> there s' /\ (p <> 0 -> p <> D).
Proof.
  intros [Hd Hm]. unfold malloc. destruct (mallocs s) as [|q m] eqn:Em; intros [= <- <-]; [split; [split; [done|by rewrite Em]|done]|].
  apply not_elem_of_cons in Hm as [Hq Hm]. split; [by split|done].
Qed.

Lemma there_register name type info size o : keeps there (block_register name type info size o).
Proof.
  intros s a s' Hs (p & s1 & H1 & H2)%bind_dev. destruct (there_malloc _ _ _ Hs H1) as [[(d & Hd & Ho) Hm] Hp]. destruct (Z.eqb_spec p 0) as [|Hz]; [done|].
  injection H2 as <- <-. split; [|done]. exists d. simpl. rewrite lookup_insert_ne by (by apply Hp). done.
Qed.

Lemma there_found type start size nr : keeps there (found_partition D type start size nr).
Proof.
  apply keeps_bind; [apply there_get|]. intros d. case_match; [apply there_print|]. case_match; [apply there_print|].
  apply keeps_bind; [intros s a s' Hs Hm; by apply (there_malloc s a s')|]. intros p. case_match; [apply keeps_fail|].
  apply keeps_bind; [apply there_register|]. intros _. apply keeps_ret.
Qed.

Lemma there_read s : there s -> exists s', block_read 1 D 0 s = Ok (pt, s') /\ there s'.
Proof.
  intros [(d & Hd & Eo & Es) Hm]. pose proof (aget_lt _ _ _ Hpt). unfold block_read, check_sector.
  rewrite (bind_eq _ _ s () s); [|rewrite (bind_eq _ _ s d s) by (by apply get_dev_ok); by rewrite Es, (proj2 (Z.leb_gt _ _)) by lia].
  rewrite (bind_eq _ _ s d s) by (by apply get_dev_ok). rewrite Eo. rewrite (bind_eq _ _ s pt s) by (by rewrite Hpt). rewrite (bind_eq _ _ s d s) by (by apply get_dev_ok).
  eexists. split; [done|]. split; [|done]. exists (read_done d). simpl. by rewrite lookup_insert_eq.
Qed.

Lemma there_entry rec name sector primary x nr : (forall a b c, keeps there (rec a b c)) -> keeps there (scan_entry rec D name sector primary x nr).
Proof.
  intros Hrec. unfold scan_entry. case_match; [apply keeps_ret|]. case_match; [apply keeps_bind; [apply there_print|]; intros _; by case_match|].
  apply keeps_bind; [apply there_found|intros _; apply keeps_ret].
Qed.

Lemma there_block_read : keeps there (block_read 1 D 0).
Proof. intros s a s' Hs Hr. destruct (there_read s Hs) as (s1 & E & H1). rewrite E in Hr. by injection Hr as _ <-. Qed.

Lemma there_table n sector primary nr : keeps there (read_partition_table n D sector primary nr).
Proof.
  revert sector primary nr. induction n as [|n IH]; intros sector primary nr; cbn [read_partition_table]; [apply keeps_fail|].
  apply keeps_bind; [apply there_get|]. intros d. case_match; [apply keeps_bind; [apply there_print|intros _; apply keeps_ret]|].
  apply keeps_bind; [intros s a s' Hs Hm; by apply (there_malloc s a s')|]. intros p. case_match; [apply keeps_fail|].
  apply keeps_bind; [apply there_block_read|]. intros pt'. case_match; [apply keeps_bind; [apply there_print|intros _; apply keeps_ret]|].
  unfold for_acc. repeat (apply keeps_bind; [by apply there_entry|intros ?]). apply keeps_ret.
Qed.

(** The tables that are visited again and again. *)
Definition visited (sector primary : Z) : Prop := sector = 0 \/ primary = k /\ (sector = k \/ sector = 2 * k).

Lemma never_entry rec name sector primary nr s :
  there s -> visited sector primary -> (forall a b c t, there t -> visited a b -> never (rec a b c) t) -> never (scan_entry rec D name sector primary e nr) s.
Proof.
  intros Hs Hv Hrec. pose proof (part_entry_range pt i) as (Hk & _). unfold scan_entry. unfold used in Hused. apply negb_true_iff in Hused. rewrite Hused, Hext.
  apply (never_bind there); [done|apply there_print|]. intros _ t1 Ht1 _. destruct (Z.eqb_spec sector 0) as [->|Hz].
  - apply Hrec; [done|]. right. split; [done|by left].
  - destruct Hv as [?|[-> Hv]]; [done|]. rewrite wrap_small by lia. apply Hrec; [done|]. right. split; [done|right; lia].
Qed.

Lemma never_for cnt j nr (body : Z -> Z -> M devices Z) s :
  there s -> j <= i < j + Z.of_nat cnt -> (forall m x, keeps there (body m x)) -> (forall x t, there t -> never (body i x) t) -> never (for_acc cnt j nr body) s.
Proof.
  intros Hs Hj Hkeep Hnev. revert j nr s Hs Hj. induction cnt as [|cnt IH]; intros j nr s Hs Hj; [lia|]. simpl. destruct (decide (j = i)) as [->|Hne].
  - intros a s' (x & s1 & H1 & _)%bind_dev. by apply (Hnev nr s Hs x s1).
  - apply (never_bind there); [done|apply Hkeep|]. intros x s1 Hs1 _. apply IH; [done|lia].
Qed.

Lemma never_table n sector primary nr s : there s -> visited sector primary -> never (read_partition_table n D sector primary nr) s.
Proof.
  pose proof (part_entry_range pt i) as (Hk & _). pose proof (aget_lt _ _ _ Hpt) as H0.
  revert sector primary nr s. induction n as [|n IH]; intros sector primary nr s Hs Hv; [by intros a s' [=]|]. cbn [read_partition_table].
  apply (never_bind there); [done|apply there_get|]. intros d s1 Hs1 Ed.
  assert (dsize d = alen l) as ->.
  { destruct Hs as [(d' & Hd' & _ & Es) _]. rewrite (get_dev_ok D d' s Hd') in Ed. by injection Ed as <- _. }
  rewrite (proj2 (Z.leb_gt _ _)) by (destruct Hv as [->|[_ [->| ->]]]; lia).
  apply (never_bind there); [done|intros ? ? ? ? ?; by eapply there_malloc|]. intros p s2 Hs2 _. case_match; [by intros a s' [=]|].
  apply (never_bind there); [done|apply there_block_read|]. intros pt' s3 Hs3 Er.
  assert (pt' = pt) as -> by (destruct (there_read s2 Hs2) as (t & E & _); rewrite E in Er; by injection Er as <- _).
  rewrite Hsig. simpl (negb _). cbv iota. apply never_for; [done|lia|intros; apply there_entry; intros; apply there_table|].
  intros x t Ht. by apply never_entry.
Qed.
End extended.

(** C1: An extended partition in the first half of a disk makes [partition_scan]
    visit the same table for ever: at whatever depth it is stopped, and whatever
    [malloc] returns, it has not returned.  The code reads sector 0 of the disk
    in place of the sector of the table, finds the entry of the extended
    partition there again, and recurs. *)
Theorem extended_partition_recurs D l pt i n s :
  there D l s -> alen l < 2 ^ 32 -> l.[0] = Some pt -> signature pt = 0xaa55 ->
  0 <= i < 4 -> used (entry_of pt i) = true -> extended (e_type (entry_of pt i)) = true -> 2 * e_offset (entry_of pt i) < alen l ->
  never (partition_scan n D) s.
Proof.
  intros Hs Hl Hpt Hsig Hi Hu He Hh a s' (x & s1 & H1 & _)%bind_dev. by eapply (never_table D l pt i); [..|exact H1]; [|..|left].
Qed.

(** ** A disk of 64 sectors *)
Definition demo_entry (type start size : Z) : list Z := [0; 0; 0; 0; type; 0; 0; 0; start; 0; 0; 0; size; 0; 0; 0].
Definition demo_table (es : list (list Z)) : list Z := replicate 446 0 ++ concat es ++ [0x55; 0xaa].
Definition demo_disk (es : list (list Z)) : list (list Z) := demo_table es :: replicate 63 (replicate 512 7).
Definition demo_devs (es : list (list Z)) : devices :=
  Devices {[ 100 := Device (txt "hda") BLOCK_RAW 64 (Disk (demo_disk es)) 0 0 ]} [100] [201; 202; 203; 204; 205; 206; 207; 208; 209] [].

(** A file system, an empty entry, swap space and a partition that is too long. *)
Definition demo_parts : list (list Z) := [demo_entry 0x21 2 20; demo_entry 0 0 0; demo_entry 0x23 22 30; demo_entry 0x83 60 5].

Lemma demo_parts_ok es : parts_ok 100 (txt "hda") (demo_disk es) (demo_devs es).
Proof.
  split; [|done|].
  - eexists. split; [apply lookup_singleton_eq|]. done.
  - intros p d start Hp Ho. simpl in Hp. apply lookup_singleton_Some in Hp as [<- <-]. done.
Qed.

Lemma partition_scan_registers_witness :
  wp (partition_scan 1 100) (fun _ s' => registered 100 (txt "hda") (demo_disk demo_parts) (demo_devs demo_parts)
    [(1, entry_of (demo_table demo_parts) 0); (2, entry_of (demo_table demo_parts) 2)] 0 s') (demo_devs demo_parts).
Proof.
  apply (partition_scan_registers 100 (txt "hda") (demo_disk demo_parts) (demo_devs demo_parts) (demo_table demo_parts) 0); [apply demo_parts_ok| |done|done|].
  - split; [done|]. split; [by apply (bool_decide_unpack _); vm_compute|]. intros p Hp. split; [intros ->|]; simpl in Hp;
      [|apply lookup_singleton_ne; intros <-]; by repeat (apply elem_of_cons in Hp as [[=]|Hp]); apply elem_of_nil in Hp.
  - intros i Hi. assert (i = 0 \/ i = 1 \/ i = 2 \/ i = 3) as [->|[->|[->| ->]]] by lia; done.
Defined.

(** The disk with the two partitions registered. *)
Definition demo_two : devices :=
  Devices (<[201 := Device (txt "hda1") BLOCK_FILESYS 20 (Partition 100 2) 0 0]> (<[202 := Device (txt "hda2") BLOCK_SWAP 30 (Partition 100 22) 0 0]>
    (devs (demo_devs demo_parts)))) [100; 201; 202] [] [].

Lemma partition_is_range_witness :
  wp (block_write 1 201 19 (replicate 512 9);; block_read 1 202 0)
    (fun r s' => r = replicate 512 7 /\ parts_ok 100 (txt "hda") (demo_disk demo_parts).[21 <- replicate 512 9] s') demo_two.
Proof.
  apply (partition_is_range 100 (txt "hda") (demo_disk demo_parts) demo_two 201 (Device (txt "hda1") BLOCK_FILESYS 20 (Partition 100 2) 0 0) 2 19 (replicate 512 9)
    202 (Device (txt "hda2") BLOCK_SWAP 30 (Partition 100 22) 0 0) 22 0 (replicate 512 7)); [|done|done|done|simpl; lia|done|done|simpl; lia|done].
  split; [|done|].
  - eexists. split; [reflexivity|]. done.
  - intros p d start Hp Ho. simpl in Hp. apply lookup_insert_Some in Hp as [[<- <-]|[_ Hp]]; [injection Ho as <-; simpl; change (alen (demo_disk demo_parts)) with 64; lia|].
    apply lookup_insert_Some in Hp as [[<- <-]|[_ Hp]]; [injection Ho as <-; simpl; change (alen (demo_disk demo_parts)) with 64; lia|].
    apply lookup_singleton_Some in Hp as [<- <-]. done.
Defined.

Definition demo_ext : list (list Z) := [demo_entry 0x21 2 20; demo_entry 0x05 22 30; demo_entry 0 0 0; demo_entry 0 0 0].

Lemma extended_partition_recurs_witness : never (partition_scan 1000 100) (demo_devs demo_ext).
Proof.
  apply (extended_partition_recurs 100 (demo_disk demo_ext) (demo_table demo_ext) 1); [|done|done|done|lia|done|done|by vm_compute].
  split; [eexists; split; [apply lookup_singleton_eq|done]|]. simpl. intros Hp. by repeat (apply elem_of_cons in Hp as [[=]|Hp]); apply elem_of_nil in Hp.
Defined.
