(* ===== verification/Init.v ===== *)
(** * Start of the kernel (src/threads/init.c)

    The page directory of the kernel, the command line that the loader leaves in
    memory, its options and actions, and the choice of block devices.  What the
    actions do is a parameter: running a program is in Args.v and Elf.v, the
    commands on files in Fsutil.v.

    Theorems: after [palloc_init] and [paging_init] the processor translates
    exactly the kernel's addresses of existing memory, each to its physical
    address, for the kernel only and with the code of the kernel read-only, and
    directories of processes can be made from the result; the words of a command
    line are those the host wrote; options and actions are carried out as
    written. *)

From stdpp Require Import strings.
From S2P Require Import Prelude Kstring Kstdlib Krandom Kstdio Block Bitmap Vaddr Palloc Pagedir.

(** ** Memory *)
Section paging.
(** [_start] and [_end_kernel_text]. *)
Context (start end_text : Z).

Definition paging_turn (page pt : Z) : M pgstate Z :=
  vaddr ← ptov (u32 (page * PGSIZE));
  let pde_idx := pd_no vaddr in
  let pte_idx := pt_no vaddr in
  let in_kernel_text := (start <=? vaddr) && (vaddr <? end_text) in
  s ← get;
  w ← read_word (init_page_dir s) pde_idx;
  pt ← (if w =? 0 then
          pt ← lift (palloc_get_page (Z.lor PAL_ASSERT PAL_ZERO));
          e ← pde_create pt;
          write_word (init_page_dir s) pde_idx e;;
          mret pt
        else mret pt);
  e ← pte_create_kernel vaddr (negb in_kernel_text);
  write_word pt pte_idx e;;
  mret pt.

Definition paging_init : M pgstate unit :=
  pd ← lift (palloc_get_page (Z.lor PAL_ASSERT PAL_ZERO));
  modify (fun s => PgState (pal s) (cr3 s) (tlb s) pd);;
  s ← get;
  _ ← for_acc (Z.to_nat (init_ram_pages (pal s))) 0 0 paging_turn;
  p ← vtop pd;
  modify (fun s => PgState (pal s) p ∅ (init_page_dir s)).

(** What the processor does with an address: the physical address, and whether
    writing and access by user programs are allowed. *)
Definition read_entry (s : pgstate) (table i : Z) : option Z :=
  ws ← mem (pal s) !! (table + PHYS_BASE); w ← ws.[i]; if Z.land w PTE_P =? 0 then None else Some w.
Definition bit (w b : Z) : bool := negb (Z.land w b =? 0).
Definition translate (s : pgstate) (va : Z) : option (Z * bool * bool) :=
  pde ← read_entry s (cr3 s) (pd_no va);
  pte ← read_entry s (Z.land pde PTE_ADDR) (pt_no va);
  Some (Z.land pte PTE_ADDR + pg_ofs va, bit pde PTE_W && bit pte PTE_W, bit pde PTE_U && bit pte PTE_U).

(** ** Proof *)
Definition vpage (n : Z) : Z := n * PGSIZE + PHYS_BASE.
Definition in_text (n : Z) : bool := (start <=? vpage n) && (vpage n <? end_text).
Definition kflags (n : Z) : Z := if in_text n then 1 else 3.

Lemma vpage_ok n : 0 <= n < 2 ^ 18 -> kpage_ok (vpage n).
Proof. intros Hn. unfold vpage. split; [unfold PHYS_BASE; change PGSIZE with 4096; lia|]. rewrite Z.add_comm, Z.mod_add by done. done. Qed.

Lemma vpage_idx n : 0 <= n < 2 ^ 18 -> pd_no (vpage n) = 768 + n / 1024 /\ pt_no (vpage n) = n mod 1024.
Proof.
  intros Hn. rewrite pd_no_div, pt_no_div. unfold vpage, PHYS_BASE. change PGSIZE with 4096.
  assert ((n * 4096 + 0xc0000000) / 4096 = n + 768 * 1024) as -> by (replace (n * 4096 + 0xc0000000) with ((n + 768 * 1024) * 4096) by lia; apply Z.div_mul; lia).
  rewrite Z.div_add, Z.mod_add by lia. split; [lia|done].
Qed.

Lemma pte_create_kernel_ok {S} page w (s : S) : kpage_ok page -> pte_create_kernel page w s = Ok (entry page (if w then 3 else 1), s).
Proof.
  intros Hp. unfold pte_create_kernel, mbind, M_bind, assert. rewrite pg_ofs_kpage, vtop_ok by done. unfold mret, M_ret. rewrite entry_0, entry_lor by done. destruct w; rewrite entry_lor by done; done.
Qed.

(** The first [k] pages of the kernel pool are used. *)
Definition first_used (k n : nat) : list bool := replicate k true ++ replicate n false.

Lemma first_used_get k n i : (first_used k n).[i] = if decide (0 <= i < Z.of_nat k) then Some true else if decide (Z.of_nat k <= i < Z.of_nat (k + n)) then Some false else None.
Proof.
  unfold first_used. destruct (decide (0 <= i < Z.of_nat k)) as [H1|H1].
  - rewrite aget_app_l by (unfold alen; rewrite length_replicate; lia). apply aget_Some. split; [lia|]. apply lookup_replicate_2. lia.
  - destruct (decide (Z.of_nat k <= i < Z.of_nat (k + n))) as [H2|H2].
    + rewrite aget_app_r by (unfold alen; rewrite length_replicate; lia). apply aget_Some. unfold alen. rewrite length_replicate. split; [lia|]. apply lookup_replicate_2. lia.
    + apply aget_None. unfold alen. rewrite length_app, !length_replicate. lia.
Qed.

Lemma alen_first_used k n : alen (first_used k n) = Z.of_nat (k + n).
Proof. unfold alen, first_used. by rewrite length_app, !length_replicate. Qed.

Lemma first_used_group k n i : group (first_used k (S n)) 1 false i -> (forall j, 0 <= j < i -> ~ group (first_used k (S n)) 1 false j) ->
  i = Z.of_nat k /\ fill (first_used k (S n)) i 1 true = first_used (S k) n.
Proof.
  intros [Hr Hf] Hmin. pose proof (Hf i ltac:(lia)) as Hi. rewrite first_used_get in Hi. assert (i = Z.of_nat k) as ->.
  { destruct (decide (i = Z.of_nat k)); [done|]. destruct Hr as (? & _ & ?). exfalso. case_decide; [done|]. case_decide; [|done]. apply (Hmin (Z.of_nat k)); [lia|].
    split; [rewrite alen_first_used in *; split; [lia|]; split; [lia|]; rewrite alen_first_used; lia|]. intros j Hj. rewrite first_used_get. rewrite decide_False, decide_True by lia. done. }
  split; [done|]. apply alist_eq; [rewrite alen_fill by done; rewrite !alen_first_used; lia|]. intros i _. rewrite aget_fill by done. rewrite !first_used_get. repeat case_decide; (done || lia).
Qed.

Lemma get_zero_page s U k n :
  pal_rep (pal s) (first_used k (S n)) U ->
  wp (lift (palloc_get_page (Z.lor PAL_ASSERT PAL_ZERO))) (fun p s' => let q := base (kernel_pool (pal s)) + PGSIZE * Z.of_nat k in
    p = q /\ kpage_ok q /\ exists a, s' = set_pal a s /\ same_layout (pal s) a /\ pal_rep a (first_used (S k) n) U /\ mem a = <[q := filled 0]> (mem (pal s))) s.
Proof.
  intros Hrep. apply lift_wp. eapply wp_mono; [apply palloc_get_multiple_ok; [exact Hrep|lia|]|].
  - intros _. exists (Z.of_nat k). split; [lia|]. split; [split; [lia|]; split; [lia|]; change (pick (flag (Z.lor PAL_ASSERT PAL_ZERO) PAL_USER) (first_used k (S n)) U) with (first_used k (S n)); rewrite alen_first_used; lia|].
    intros j Hj. change (pick (flag (Z.lor PAL_ASSERT PAL_ZERO) PAL_USER) (first_used k (S n)) U) with (first_used k (S n)). rewrite first_used_get, decide_False, decide_True by lia. done.
  - intros p a (Hsl & Hpost). change (flag (Z.lor PAL_ASSERT PAL_ZERO) PAL_USER) with false in Hpost. change (flag (Z.lor PAL_ASSERT PAL_ZERO) PAL_ZERO) with true in Hpost. cbn [pick upd_k upd_u get_pool] in Hpost.
    assert (group (first_used k (S n)) 1 false (Z.of_nat k)) as Hg by (split; [split; [lia|]; split; [lia|]; rewrite alen_first_used; lia|intros j Hj; rewrite first_used_get, decide_False, decide_True by lia; done]).
    destruct Hpost as [(_ & Hno & _)|(i & -> & Hnz & Hgi & Hmin & Hrep' & Hm)]; [exfalso; by apply (Hno (Z.of_nat k)); [lia|]|].
    destruct (first_used_group k n i Hgi Hmin) as [-> Ef]. rewrite Ef in Hrep'. split; [done|]. split; [apply (kernel_page_ok _ (first_used k (S n)) U); [done|rewrite alen_first_used; lia]|].
    exists a. split; [done|]. split; [done|]. split; [done|]. rewrite Hm. simpl. by rewrite Z.mul_0_r, Z.add_0_r.
Qed.

Section tables.
Context (B R : Z) (nk : nat) (U : list bool).

Definition P (k : Z) : Z := B + PGSIZE * k.

(** [t] page tables, with the entries of the first [n] pages. *)
Record tables (n t : Z) (s : pgstate) : Prop := {
  tb_pal : pal_rep (pal s) (first_used (Z.to_nat (t + 1)) (nk - Z.to_nat (t + 1))) U;
  tb_base : base (kernel_pool (pal s)) = B;
  tb_ram : init_ram_pages (pal s) = R;
  tb_dir : init_page_dir s = P 0;
  tb_words : exists ws, mem (pal s) !! P 0 = Some ws /\ length ws = WORDS /\ forall i, 0 <= i < 1024 -> ws.[i] = Some (if decide (768 <= i < 768 + t) then entry (P (i - 767)) 7 else 0);
  tb_tables : forall j, 0 <= j < t -> exists tws, mem (pal s) !! P (j + 1) = Some tws /\ length tws = WORDS /\
    forall k, 0 <= k < 1024 -> tws.[k] = Some (if decide (1024 * j + k < n) then entry (vpage (1024 * j + k)) (kflags (1024 * j + k)) else 0)
}.

Lemma P_inj i j : P i = P j -> i = j.
Proof. unfold P. change PGSIZE with 4096. lia. Qed.

Lemma P_ok n t s k : tables n t s -> 0 <= k <= t -> t + 1 <= Z.of_nat nk -> kpage_ok (P k).
Proof. intros [Hp Hb _ _ _ _] Hk Hn. unfold P. rewrite <- Hb. apply (kernel_page_ok _ _ _ _ Hp). rewrite alen_first_used. lia. Qed.

Lemma filled_get w i : 0 <= i < 1024 -> (filled w).[i] = Some w.
Proof. intros Hi. apply aget_Some. split; [lia|]. apply lookup_replicate_2. unfold WORDS. lia. Qed.

(** A new table. *)
Lemma new_table n t s :
  tables n t s -> 0 <= t < 256 -> n <= 1024 * t -> t + 1 < Z.of_nat nk ->
  wp (pt ← lift (palloc_get_page (Z.lor PAL_ASSERT PAL_ZERO)); e ← pde_create pt; write_word (init_page_dir s) (768 + t) e;; mret pt) (fun pt s' => pt = P (t + 1) /\ tables n (t + 1) s') s.
Proof.
  intros [Hp Hb HR Hd (ws & Hws & Hl & Hw) Ht] Htr Hn Hk. wp_step. replace (nk - Z.to_nat (t + 1))%nat with (S (nk - Z.to_nat (t + 1 + 1))) in Hp by lia.
  eapply wp_mono; [by apply get_zero_page|]. cbv zeta. rewrite Hb, Z2Nat.id by lia. fold (P (t + 1)). intros pt s1 (-> & Hok & a & -> & Hsl & Hrep & Hm).
  wp_step. eapply wp_eq; [by apply pde_create_ok|]. wp_step. assert (P 0 <> P (t + 1)) as Hne by (intros E%P_inj; lia).
  eapply wp_eq; [rewrite Hd; eapply write_word_ok; [simpl; rewrite Hm, lookup_insert_ne by done; exact Hws|apply Hw; lia]|]. wp_step. split; [done|].
  replace (S (Z.to_nat (t + 1))) with (Z.to_nat (t + 1 + 1)) in Hrep by lia. destruct Hsl as (Hbk & Hbu & HRR).
  split; simpl; [|by rewrite <- Hb|by rewrite <- HR|done| |].
  - apply (pal_rep_put (set_pal a s)); [done|]. simpl. by rewrite Hm, lookup_insert_ne.
  - exists ws.[768 + t <- entry (P (t + 1)) 7]. rewrite lookup_insert_eq. split; [done|]. split; [by rewrite length_aset|]. intros i Hi. destruct (decide (i = 768 + t)) as [->|Hnei].
    + rewrite aget_aset_eq by (unfold alen; rewrite Hl; unfold WORDS; lia). rewrite decide_True by lia. do 3 f_equal. lia.
    + rewrite aget_aset_ne by done. rewrite Hw by done. repeat case_decide; (done || lia).
  - intros j Hj. rewrite lookup_insert_ne by (intros E%P_inj; lia). rewrite Hm. destruct (decide (j = t)) as [->|Hnej].
    + rewrite lookup_insert_eq. exists (filled 0). split; [done|]. split; [apply length_filled|]. intros k Hk'. rewrite filled_get by done. rewrite decide_False by lia. done.
    + rewrite lookup_insert_ne by (intros E%P_inj; lia). apply Ht. lia.
Qed.

(** The entry of a page. *)
Lemma put_entry n t s :
  tables n t s -> 0 <= n -> 1024 * (t - 1) <= n < 1024 * t ->
  wp (write_word (P t) (n mod 1024) (entry (vpage n) (kflags n))) (fun _ s' => tables (n + 1) t s') s.
Proof.
  intros [Hp Hb HR Hd (ws & Hws & Hl & Hw) Ht] Hn Hr. assert (n mod 1024 = n - 1024 * (t - 1)) as Em by (symmetry; apply (Z.mod_unique_pos _ _ (t - 1)); lia).
  destruct (Ht (t - 1)) as (tws & Htws & Htl & Htw); [lia|]. replace (t - 1 + 1) with t in Htws by lia.
  eapply wp_eq; [eapply write_word_ok; [exact Htws|apply Htw; lia]|]. assert (P 0 <> P t) as Hne by (intros E%P_inj; lia).
  split; simpl; [by apply (pal_rep_put s)|done|done|done| |].
  - exists ws. rewrite lookup_insert_ne by done. done.
  - intros j Hj. destruct (decide (j = t - 1)) as [->|Hnej].
    + replace (t - 1 + 1) with t by lia. rewrite lookup_insert_eq. eexists. split; [done|]. split; [by rewrite length_aset|]. intros k Hk. destruct (decide (k = n mod 1024)) as [->|Hnek].
      * rewrite aget_aset_eq by (unfold alen; rewrite Htl; unfold WORDS; lia). rewrite decide_True by lia. by replace (1024 * (t - 1) + n mod 1024) with n by lia.
      * rewrite aget_aset_ne by done. rewrite Htw by done. repeat case_decide; (done || lia).
    + rewrite lookup_insert_ne by (intros E%P_inj; lia). destruct (Ht j) as (tws' & H1 & H2 & H3); [lia|]. exists tws'. split; [done|]. split; [done|]. intros k Hk. rewrite H3 by done. repeat case_decide; (done || lia).
Qed.

(** After [n] pages the number of tables is [n / 1024], rounded up. *)
Definition count (n : Z) : Z := (n + 1023) / 1024.

Lemma count_bounds n : 1024 * (count n - 1) < n <= 1024 * count n.
Proof. unfold count. pose proof (Z.div_mod (n + 1023) 1024 ltac:(lia)). pose proof (Z.mod_pos_bound (n + 1023) 1024 ltac:(lia)). lia. Qed.

Lemma paging_turn_ok n pt s :
  0 <= n < 2 ^ 18 -> count (n + 1) + 1 <= Z.of_nat nk -> tables n (count n) s -> (0 < n -> pt = P (count n)) ->
  wp (paging_turn n pt) (fun pt' s' => tables (n + 1) (count (n + 1)) s' /\ pt' = P (count (n + 1))) s.
Proof.
  intros Hn Hk Htb Hpt. pose proof (count_bounds n) as C1. pose proof (count_bounds (n + 1)) as C2. pose proof (vpage_ok n Hn) as Hvp. destruct (vpage_idx n Hn) as [Ed Ep].
  pose proof (Z.div_mod n 1024 ltac:(lia)) as Dm. pose proof (Z.mod_pos_bound n 1024 ltac:(lia)) as Dm'. pose proof Htb as [_ _ _ Hdir (ws & Hws & _ & Hw) _].
  unfold paging_turn. wp_step. rewrite wrap_small by (change PGSIZE with 4096; lia). eapply wp_eq; [apply ptov_ok; change PGSIZE with 4096; lia|]. fold (vpage n). cbv zeta. rewrite Ed, Ep.
  wp_step. wp_step. wp_step. eapply wp_eq; [rewrite Hdir; eapply read_word_ok; [exact Hws|apply Hw; lia]|].
  enough (forall pt' s', pt' = P (count (n + 1)) -> tables n (count (n + 1)) s' ->
    wp (e ← pte_create_kernel (vpage n) (negb (in_text n)); write_word pt' (n mod 1024) e;; mret pt') (fun pt' s' => tables (n + 1) (count (n + 1)) s' /\ pt' = P (count (n + 1))) s') as Hend.
  { case_decide as Hc.
    - assert (count (n + 1) = count n) as Ec by lia. rewrite (proj2 (Z.eqb_neq _ _)) by (apply entry_nonzero; [apply (P_ok n (count n) s); [done|lia|lia]|done]). wp_step. wp_step. apply Hend; rewrite Ec; [apply Hpt; lia|done].
    - assert (n mod 1024 = 0 /\ count n = n / 1024 /\ count (n + 1) = count n + 1) as (E0 & E1 & E2) by lia. rewrite Z.eqb_refl, <- E1. wp_step. eapply wp_mono; [apply (new_table n (count n)); [done|lia|lia|lia]|].
      intros pt' s' [-> Ht']. apply Hend; by rewrite E2. }
  intros pt' s' -> Ht'. wp_step. eapply wp_eq; [by apply pte_create_kernel_ok|]. wp_step.
  replace (if negb (in_text n) then 3 else 1) with (kflags n) by (unfold kflags; by destruct (in_text n)). eapply wp_mono; [apply put_entry; [done|lia|lia]|]. intros [] s'' H''. by wp_step.
Qed.

Lemma paging_init_ok s :
  1 <= R < 2 ^ 18 -> count R + 1 <= Z.of_nat nk -> pal_rep (pal s) (first_used 0 nk) U -> base (kernel_pool (pal s)) = B -> init_ram_pages (pal s) = R ->
  wp paging_init (fun _ s' => tables R (count R) s' /\ cr3 s' = P 0 - PHYS_BASE /\ tlb s' = ∅) s.
Proof.
  intros HR Hk Hp Hb Hr. pose proof (count_bounds R). unfold paging_init. wp_step. destruct nk as [|nk'] eqn:Enk; [lia|]. eapply wp_mono; [by apply get_zero_page|]. cbv zeta. rewrite Hb. fold (P 0). change (Z.of_nat 0) with 0. fold (P 0).
  intros pd s1 (-> & Hok & a & -> & Hsl & Hrep & Hm). destruct Hsl as (Hbk & Hbu & HRR). wp_step. apply wp_modify. wp_step. wp_step. simpl. rewrite HRR, Hr. wp_step.
  eapply wp_mono; [apply (wp_for_acc (fun n pt s => tables n (count n) s /\ (0 < n -> pt = P (count n))))|].
  - intros n pt s2 Hn [Ht Hpt]. assert (count (n + 1) <= count R) by (pose proof (count_bounds (n + 1)); lia). eapply wp_mono; [apply paging_turn_ok; [lia|lia|done|done]|]. intros pt' s3 [H1 H2]. by split.
  - change (count 0) with 0. split; [|lia]. split; simpl; [|by rewrite Hbk|by rewrite HRR|done| |].
    + by rewrite Enk; simpl; rewrite Nat.sub_0_r.
    + exists (filled 0). rewrite Hm, lookup_insert_eq. split; [done|]. split; [apply length_filled|]. intros i Hi. rewrite filled_get by done. rewrite decide_False by lia. done.
    + intros j Hj. lia.
  - intros pt s2 [Ht _]. wp_step. eapply wp_eq; [by apply vtop_ok|]. apply wp_modify. rewrite Z.add_0_l, Z2Nat.id in Ht by lia. simpl. split; [|done]. destruct Ht. by split.
Qed.

Lemma bit_entry p f b : kpage_ok p -> 0 <= f < PGSIZE -> 0 <= b < PGSIZE -> bit (entry p f) b = bit f b.
Proof. intros Hp Hf Hb. unfold bit. by rewrite entry_flag. Qed.

Lemma entry_addr p f : kpage_ok p -> 0 <= f < PGSIZE -> Z.land (entry p f) PTE_ADDR = p - PHYS_BASE.
Proof.
  intros Hp Hf. pose proof (entry_range p f Hp Hf). rewrite land_PTE_ADDR by done. destruct (kpage_phys p Hp) as (a & -> & Ha). unfold entry.
  replace (a * PGSIZE + PHYS_BASE - PHYS_BASE + f) with (f + a * PGSIZE) by lia. rewrite Z.div_add, Z.div_small by (done || lia). lia.
Qed.

Lemma read_entry_dir s i n t : tables n t s -> t + 1 <= Z.of_nat nk -> 0 <= i < 1024 ->
  read_entry s (P 0 - PHYS_BASE) i = if decide (768 <= i < 768 + t) then Some (entry (P (i - 767)) 7) else None.
Proof.
  intros Htb Hk Hi. pose proof Htb as [_ _ _ _ (ws & Hws & _ & Hw) _]. unfold read_entry. replace (P 0 - PHYS_BASE + PHYS_BASE) with (P 0) by lia. rewrite Hws. simpl. rewrite Hw by done. simpl. case_decide; [|done].
  rewrite entry_flag; [done|apply (P_ok n t s); [done|lia|lia]|done|done].
Qed.

Lemma read_entry_table s n t j k : tables n t s -> n < 2 ^ 18 -> 0 <= j < t -> 0 <= k < 1024 ->
  read_entry s (P (j + 1) - PHYS_BASE) k = if decide (1024 * j + k < n) then Some (entry (vpage (1024 * j + k)) (kflags (1024 * j + k))) else None.
Proof.
  intros Htb Hn Hj Hk. destruct (tb_tables _ _ _ Htb j Hj) as (tws & Htws & _ & Htw). unfold read_entry. replace (P (j + 1) - PHYS_BASE + PHYS_BASE) with (P (j + 1)) by lia. rewrite Htws. simpl. rewrite Htw by done. simpl.
  case_decide; [|done]. rewrite entry_flag; [unfold kflags; by destruct (in_text _)|apply vpage_ok; lia|unfold kflags; by destruct (in_text _)|done].
Qed.

(** What the processor does with every address. *)
Lemma tables_translate s n t va :
  tables n t s -> cr3 s = P 0 - PHYS_BASE -> 1024 * (t - 1) < n <= 1024 * t -> 0 <= n < 2 ^ 18 -> t + 1 <= Z.of_nat nk -> 0 <= va < 2 ^ 32 ->
  translate s va = if decide (PHYS_BASE <= va < PHYS_BASE + n * PGSIZE) then Some (va - PHYS_BASE, negb (in_text ((va - PHYS_BASE) / PGSIZE)), false) else None.
Proof.
  intros Htb Hcr Ht Hn Hk Hva. unfold translate. rewrite Hcr. set (v := va / 4096). assert (0 <= v < 2 ^ 20) as Hv by (unfold v; split; [apply Z.div_pos; lia|apply Z.div_lt_upper_bound; lia]).
  pose proof (Z.div_mod va 4096 ltac:(lia)) as Dva. fold v in Dva. pose proof (Z.mod_pos_bound va 4096 ltac:(lia)) as Dva'.
  pose proof (Z.div_mod v 1024 ltac:(lia)) as Dv. pose proof (Z.mod_pos_bound v 1024 ltac:(lia)) as Dv'.
  rewrite pd_no_div, pt_no_div, pg_ofs_mod. change PGSIZE with 4096. fold v. rewrite (read_entry_dir s _ n t) by (done || lia). change PHYS_BASE with (786432 * 4096). case_decide as H1; simpl; [|rewrite decide_False by lia; done].
  rewrite entry_addr by (done || apply (P_ok n t s); (done || lia)). replace (v / 1024 - 767) with (v / 1024 - 768 + 1) by lia. change (786432 * 4096) with PHYS_BASE. rewrite (read_entry_table s n t) by (done || lia). change PHYS_BASE with (786432 * 4096).
  replace (1024 * (v / 1024 - 768) + v mod 1024) with (v - 786432) by lia. case_decide as H2; simpl; [|rewrite decide_False by lia; done]. rewrite decide_True by lia.
  assert (kpage_ok (vpage (v - 786432))) as Hvp by (apply vpage_ok; lia). assert (0 <= kflags (v - 786432) < PGSIZE) as Hkf by (unfold kflags; by destruct (in_text _)).
  rewrite entry_addr by done. rewrite !bit_entry by (done || apply (P_ok n t s); (done || lia)). replace ((va - 786432 * 4096) / 4096) with (v - 786432) by (apply (Z.div_unique_pos _ _ _ (va mod 4096)); lia).
  unfold vpage. change PHYS_BASE with (786432 * 4096). change PGSIZE with 4096. do 2 f_equal; [f_equal; [lia|]|]; unfold kflags; by destruct (in_text _).
Qed.
End tables.

Lemma tables_dirs B R nk U n t s : tables B R nk U n t s -> 0 <= t -> exists K, dirs_ok s K U ∅ /\ init_dir_ok s /\ used (pal s) K U (init_page_dir s).
Proof.
  intros [Hp Hb _ Hd (ws & Hws & Hl & Hw) _] Ht. eexists. split; [|split].
  - split; [exact Hp|by intros ? ? []%lookup_empty_Some|by intros ? ? ? ? ? []%lookup_empty_Some].
  - exists ws. rewrite Hd. split; [done|]. split; [done|]. unfold USER_PDES. intros i Hi. rewrite Hw, decide_False by lia. done.
  - exists false, 0. rewrite Hd. unfold P. simpl. rewrite Hb. split; [done|]. rewrite first_used_get, decide_True by lia. done.
Qed.

(** C1: On a machine with 264 pages to 64 MB of memory, [palloc_init] and then
    [paging_init] succeed, and the processor translates an address exactly when
    it is the kernel's address of existing memory, to its physical address, for
    the kernel only, and for writing unless its page is of the kernel's code.
    The result is a directory from which those of processes can be made. *)
Theorem kernel_mapped limit s :
  let R := init_ram_pages (pal s) in
  264 <= R <= 2 ^ 14 -> 1 <= limit < 2 ^ 32 -> mem_pages (mem (pal s)) (PHYS_BASE + 2 ^ 20) (R - 256) ->
  wp (lift (palloc_init limit);; paging_init) (fun _ s' =>
    (forall va, 0 <= va < 2 ^ 32 -> translate s' va =
      if decide (PHYS_BASE <= va < PHYS_BASE + R * PGSIZE) then Some (va - PHYS_BASE, negb (in_text ((va - PHYS_BASE) / PGSIZE)), false) else None) /\
    tlb s' = ∅ /\ exists K U, dirs_ok s' K U ∅ /\ init_dir_ok s' /\ used (pal s') K U (init_page_dir s')) s.
Proof.
  intros R HR Hlim Hmem. wp_step. apply lift_wp. eapply wp_mono; [apply palloc_init_ok; [lia|done|done]|]. intros [] a (nk & nu & Hlv & Hnu & Hnk & Era). fold R in Hnu, Hnk, Era.
  pose proof (count_bounds R) as HC. assert (user_share limit (R - 256) <= (R - 256) / 2) as Hs by (unfold user_share; destruct (Z.ltb_spec limit ((R - 256) / 2)); lia).
  pose proof (Z.div_mod (R - 256) 2 ltac:(lia)). pose proof (Z.mod_pos_bound (R - 256) 2 ltac:(lia)). assert (count R + 1 <= Z.of_nat nk) as Hk by lia.
  eapply wp_mono; [apply (paging_init_ok (base (kernel_pool a)) R nk (replicate nu false) (set_pal a s)); [lia|done|apply Hlv|done|done]|].
  intros [] s' (Htb & Hcr & Htlb). split; [|split; [done|]].
  - intros va Hva. eapply tables_translate; [exact Htb|done|lia|lia|done|done].
  - destruct (tables_dirs _ _ _ _ _ _ _ Htb ltac:(lia)) as (K & HK). by exists K, (replicate nu false).
Qed.
End paging.

(** 300 pages of memory, and code from 128 kB to 256 kB. *)
Lemma kernel_mapped_witness :
  let text := PHYS_BASE + 2 ^ 17 in
  wp (lift (palloc_init 10);; paging_init text (PHYS_BASE + 2 ^ 18)) (fun _ s' =>
    translate s' (text + 5) = Some (2 ^ 17 + 5, false, false) /\ translate s' (PHYS_BASE + 2 ^ 20) = Some (2 ^ 20, true, false) /\ translate s' 0x08048000 = None)
    (PgState demo_boot 0 ∅ 0).
Proof.
  eapply wp_mono; [apply (kernel_mapped (PHYS_BASE + 2 ^ 17) (PHYS_BASE + 2 ^ 18) 10 (PgState demo_boot 0 ∅ 0)); [simpl; lia|lia|exact demo_mem_pages]|].
  intros [] s' (Ht & _). rewrite !Ht by (unfold PHYS_BASE; lia). vm_compute. done.
Defined.

(** ** The command line *)
Abbreviation LOADER_ARGS_LEN := 128.

(** The loop of [read_command_line] from word [i] on; [l] are the bytes from [p]
    to [end].  The array has [LOADER_ARGS_LEN / 2 + 1] elements. *)
Fixpoint read_words (argc : nat) (i : Z) (l : list Z) : result (list (list Z)) :=
  match argc with
  | O => if i <=? LOADER_ARGS_LEN / 2 then Ok [] else Err BadPointer
  | S n =>
    match l with
    | [] => Err PanicHalt
    | _ :: _ =>
      if negb (i <=? LOADER_ARGS_LEN / 2) then Err BadPointer else
      let w := take (prefix_len (fun c => negb (c =? 0)) l) l in
      match read_words n (i + 1) (drop (length w + 1) l) with Ok ws => Ok (w :: ws) | Err e => Err e end
    end
  end.

(** [args] are the bytes that the loader left, [cnt] the number of words. *)
Definition read_command_line (cnt : Z) (args : list Z) : result (list (list Z)) :=
  let argc := s32 cnt in
  if argc <? 0 then Err BadPointer else read_words (Z.to_nat argc) 0 args.

(** ** Options *)
Inductive shutdown_type := SHUTDOWN_NONE | SHUTDOWN_POWER_OFF | SHUTDOWN_REBOOT.

Record options := Options {
  how : shutdown_type;
  format_filesys : bool;
  filesys_bdev_name : option (list Z);
  scratch_bdev_name : option (list Z);
  swap_bdev_name : option (list Z);
  thread_mlfqs : bool;
  user_page_limit : Z;
  generator : rng
}.

Definition set_how (h : shutdown_type) (o : options) : options :=
  Options h (format_filesys o) (filesys_bdev_name o) (scratch_bdev_name o) (swap_bdev_name o) (thread_mlfqs o) (user_page_limit o) (generator o).
Definition set_format (o : options) : options :=
  Options (how o) true (filesys_bdev_name o) (scratch_bdev_name o) (swap_bdev_name o) (thread_mlfqs o) (user_page_limit o) (generator o).
Definition set_filesys (n : option (list Z)) (o : options) : options :=
  Options (how o) (format_filesys o) n (scratch_bdev_name o) (swap_bdev_name o) (thread_mlfqs o) (user_page_limit o) (generator o).
Definition set_scratch (n : option (list Z)) (o : options) : options :=
  Options (how o) (format_filesys o) (filesys_bdev_name o) n (swap_bdev_name o) (thread_mlfqs o) (user_page_limit o) (generator o).
Definition set_swap (n : option (list Z)) (o : options) : options :=
  Options (how o) (format_filesys o) (filesys_bdev_name o) (scratch_bdev_name o) n (thread_mlfqs o) (user_page_limit o) (generator o).
Definition set_mlfqs (o : options) : options :=
  Options (how o) (format_filesys o) (filesys_bdev_name o) (scratch_bdev_name o) (swap_bdev_name o) true (user_page_limit o) (generator o).
Definition set_limit (n : Z) (o : options) : options :=
  Options (how o) (format_filesys o) (filesys_bdev_name o) (scratch_bdev_name o) (swap_bdev_name o) (thread_mlfqs o) n (generator o).

Definition reseed (seed : Z) : M options unit := fun o =>
  match random_init (u32 seed) (generator o) with
  | Ok (_, r) => Ok (tt, Options (how o) (format_filesys o) (filesys_bdev_name o) (scratch_bdev_name o) (swap_bdev_name o) (thread_mlfqs o) (user_page_limit o) r)
  | Err e => Err e
  end.

(** The two calls of [strtok_r]: the part before the first equals sign, and what
    follows it, if anything. *)
Definition option_name (w : list Z) : list Z := take (prefix_len (fun c => negb (c =? 61)) w) w.
Definition option_value (w : list Z) : option (list Z) :=
  match drop (length (option_name w) + 1) w with [] => None | v => Some v end.

(** [atoi] on the value, which is null when there is none; the string is at
    address 1 of a memory of its own. *)
Definition atoi_value_of {S} (v : option (list Z)) : M S Z := fun s =>
  match (match v with None => atoi 0 ∅ | Some l => atoi 1 (write ∅ 1 (l ++ [0])) end) with
  | Ok (n, _) => Ok (n, s)
  | Err e => Err e
  end.

Definition is_name (n : list Z) (s : string) : bool := bool_decide (n = txt s).

(** One option; [false] for -h, which powers the machine off. *)
Definition parse_option (w : list Z) : M options bool :=
  let name := option_name w in
  let value := option_value w in
  if is_name name "-h" then mret false
  else if is_name name "-q" then modify (set_how SHUTDOWN_POWER_OFF);; mret true
  else if is_name name "-r" then modify (set_how SHUTDOWN_REBOOT);; mret true
  else if is_name name "-f" then modify set_format;; mret true
  else if is_name name "-filesys" then modify (set_filesys value);; mret true
  else if is_name name "-scratch" then modify (set_scratch value);; mret true
  else if is_name name "-swap" then modify (set_swap value);; mret true
  else if is_name name "-rs" then n ← atoi_value_of value; reseed n;; mret true
  else if is_name name "-mlfqs" then modify set_mlfqs;; mret true
  else if is_name name "-ul" then n ← atoi_value_of value; modify (set_limit (u32 n));; mret true
  else fail PanicHalt.

(** The words that are left, or nothing when the machine is off; [time] is that of
    the clock. *)
Fixpoint parse_options (time : Z) (argv : list (list Z)) : M options (option (list (list Z))) :=
  match argv with
  | w :: rest =>
    if bool_decide (head w = Some 45) then b ← parse_option w; if b : bool then parse_options time rest else mret None
    else reseed time;; mret (Some argv)
  | [] => reseed time;; mret (Some [])
  end.

(** ** Actions *)
Inductive action := Run (task : list Z) | Ls | Cat (file : list Z) | Rm (file : list Z) | Extract | Append (file : list Z).

Definition action_table : list (string * Z) := [("run", 2); ("ls", 1); ("cat", 2); ("rm", 2); ("extract", 1); ("append", 2)]%string.

(** The action that the name and the following word ask for, and how many words
    it takes; a word that is missing or unknown stops the kernel. *)
Definition find_action (argv : list (list Z)) : result (action * Z) :=
  match argv with
  | [] => Err BadPointer
  | name :: rest =>
    match list_find (fun e => name = txt e.1) action_table with
    | None => Err PanicHalt
    | Some (_, (n, argc)) =>
      if argc =? 2 then
        match rest with
        | [] => Err PanicHalt
        | a :: _ => Ok (if String.eqb n "run" then Run a else if String.eqb n "cat" then Cat a else if String.eqb n "rm" then Rm a else Append a, argc)
        end
      else Ok (if String.eqb n "ls" then Ls else Extract, argc)
    end
  end.

Section actions.
Context {S : Type} (perform : action -> M S unit).

Fixpoint run_actions (fuel : nat) (argv : list (list Z)) : M S unit :=
  match argv with
  | [] => mret ()
  | _ :: _ =>
    match fuel with
    | O => fail NoFuel
    | Datatypes.S n => match find_action argv with Ok (a, argc) => perform a;; run_actions n (drop (Z.to_nat argc) argv) | Err e => fail e end
    end
  end.
End actions.

(** ** Block devices *)
Definition locate_block_device (role : block_type) (name : option (list Z)) : M blocks unit :=
  b ← (match name with
       | Some n => b ← block_get_by_name n; if b =? 0 then fail PanicHalt else mret b
       | None =>
         s ← get;
         b ← block_first;
         loop (Datatypes.S (length (all_blocks s))) (fun b =>
           if b =? 0 then mret (inr 0) else
           s ← get; d ← deref (devs s !! b);
           if decide (btype d = role) then mret (inr b) else n ← block_next b; mret (inl n)) b
       end);
  if b =? 0 then mret () else block_set_role role b.

Definition locate_block_devices (o : options) : M blocks unit :=
  locate_block_device BLOCK_FILESYS (filesys_bdev_name o);;
  locate_block_device BLOCK_SCRATCH (scratch_bdev_name o);;
  locate_block_device BLOCK_SWAP (swap_bdev_name o).

(** ** The command line, carried out *)

(** The bytes that the host writes for some words. *)
Definition pack (ws : list (list Z)) : list Z := concat (map (fun w => w ++ [0]) ws).
Definition word_ok (w : list Z) : Prop := w <> [] /\ Forall (fun c => c <> 0) w.

Lemma prefix_nonzero w rest : Forall (fun c => c <> 0) w -> prefix_len (fun c => negb (c =? 0)) (w ++ 0 :: rest) = length w.
Proof. induction 1 as [|c w Hc _ IH]; [done|]. simpl. rewrite (proj2 (Z.eqb_neq _ _)) by done. simpl. by rewrite IH. Qed.

Lemma pack_length ws : Forall word_ok ws -> (2 * length ws <= length (pack ws))%nat.
Proof.
  induction 1 as [|w ws [Hne _] _ IH]; [done|]. unfold pack in *. simpl. rewrite !length_app. simpl. destruct w; [done|]. simpl. lia.
Qed.

Lemma read_words_pack ws pad i : Forall word_ok ws -> 0 <= i -> i + Z.of_nat (length ws) <= 64 -> read_words (length ws) i (pack ws ++ pad) = Ok ws.
Proof.
  intros Hws. revert i. induction Hws as [|w ws [Hne Hnz] _ IH]; intros i Hi Hb; simpl.
  - change (128 / 2) with 64. by rewrite (proj2 (Z.leb_le _ _)) by (simpl in *; lia).
  - simpl in Hb. assert (pack (w :: ws) ++ pad = w ++ 0 :: (pack ws ++ pad)) as -> by (unfold pack; simpl; by rewrite <- !app_assoc). rewrite prefix_nonzero by done.
    destruct (w ++ 0 :: pack ws ++ pad) as [|c r] eqn:E; [by destruct w|]. rewrite <- E. clear E. change (128 / 2) with 64. rewrite (proj2 (Z.leb_le _ _)) by lia. simpl. rewrite take_app_length.
    replace (length w + 1)%nat with (S (length w)) by lia. rewrite drop_app_ge by lia. replace (S (length w) - length w)%nat with 1%nat by lia. simpl. rewrite drop_0, IH by lia. done.
Qed.

(** Options as the host's tool writes them. *)
Inductive opt := OPowerOff | OReboot | OFormat | OMlfqs | OFilesys (n : list Z) | OScratch (n : list Z) | OSwap (n : list Z) | OSeed (n : list Z) | OLimit (n : list Z).

Definition opt_word (x : opt) : list Z :=
  match x with
  | OPowerOff => txt "-q" | OReboot => txt "-r" | OFormat => txt "-f" | OMlfqs => txt "-mlfqs"
  | OFilesys n => txt "-filesys=" ++ n | OScratch n => txt "-scratch=" ++ n | OSwap n => txt "-swap=" ++ n
  | OSeed n => txt "-rs=" ++ n | OLimit n => txt "-ul=" ++ n
  end.

Definition number_ok (n : list Z) : Prop := n <> [] /\ Forall (fun d => isdigit d = true) n /\ dec n < 2 ^ 31.
Definition opt_ok (x : opt) : Prop :=
  match x with
  | OFilesys n | OScratch n | OSwap n => word_ok n
  | OSeed n | OLimit n => number_ok n
  | _ => True
  end.

(** What an option does; the seed is not here. *)
Definition apply_opt (o : options) (x : opt) : options :=
  match x with
  | OPowerOff => set_how SHUTDOWN_POWER_OFF o | OReboot => set_how SHUTDOWN_REBOOT o | OFormat => set_format o | OMlfqs => set_mlfqs o
  | OFilesys n => set_filesys (Some n) o | OScratch n => set_scratch (Some n) o | OSwap n => set_swap (Some n) o
  | OSeed _ => o | OLimit n => set_limit (dec n) o
  end.

Definition with_generator (r : rng) (o : options) : options :=
  Options (how o) (format_filesys o) (filesys_bdev_name o) (scratch_bdev_name o) (swap_bdev_name o) (thread_mlfqs o) (user_page_limit o) r.

(** The generator seeded with the time. *)
Definition fresh : rng := Rng (replicate 256 0) 0 0 false.
Definition seeded (seed : Z) : rng := match random_init (u32 seed) fresh with Ok (_, r) => r | Err _ => fresh end.

#[local] Opaque random_init.

Lemma reseed_ok seed o : length (s_tab (generator o)) = 256%nat -> reseed seed o = Ok (tt, with_generator (seeded seed) o) /\ length (s_tab (seeded seed)) = 256%nat.
Proof.
  intros Hl. unfold reseed, seeded. rewrite (random_init_again (generator o) fresh) by done. pose proof (random_init_ok fresh (u32 seed) eq_refl) as H. unfold wp in H.
  destruct (random_init (u32 seed) fresh) as [[[] r]|]; [|done]. split; [done|]. destruct H as [[Hp _ _] _]. rewrite (Permutation_length Hp). done.
Qed.

Lemma write_str l : Forall (fun c => 0 < c < 256) l -> str_at (write ∅ 1 (l ++ [0])) 1 l.
Proof. intros Hl. split; [lia|apply write_in|]. eapply Forall_impl; [exact Hl|]. intros c Hc. simpl in Hc. split; [unfold is_byte; lia|lia]. Qed.

Lemma digits_prefix n : Forall (fun d => isdigit d = true) n -> prefix_len isdigit n = length n.
Proof. induction 1 as [|d n Hd _ IH]; [done|]. simpl. by rewrite Hd, IH. Qed.

Lemma atoi_value_ok {S} n (s : S) : number_ok n -> atoi_value_of (Some n) s = Ok (dec n, s).
Proof.
  intros (Hne & Hd & Hb). unfold atoi_value_of. assert (str_at (write ∅ 1 (n ++ [0])) 1 n) as Hs by (apply write_str; eapply Forall_impl; [exact Hd|]; intros d E; unfold isdigit in E; lia).
  assert (parse n = (false, n)) as Ep.
  { unfold parse. destruct n as [|d n]; [done|]. pose proof (Forall_cons_1 _ _ _ Hd) as [E _]. assert (isspace d = false) as Esp by (unfold isspace, isdigit in *; lia).
    simpl. rewrite Esp. simpl. rewrite !(proj2 (Z.eqb_neq _ _)) by (unfold isdigit in E; lia). rewrite E, digits_prefix by (by apply Forall_cons_1 in Hd as [_ ?]). simpl. by rewrite firstn_all. }
  pose proof (atoi_ok _ _ _ Hs) as H. rewrite Ep in H. rewrite H; [done|]. simpl. lia.
Qed.

#[local] Opaque atoi_value_of reseed.

Lemma option_value_eq n p : n <> [] -> option_name (p ++ n) = removelast p -> length p = S (length (removelast p)) -> option_value (p ++ n) = Some n.
Proof. intros Hne E Hp. unfold option_value. rewrite E, Nat.add_1_r, <- Hp, drop_app_length. by destruct n. Qed.

(** Comparisons with the names of options. *)
Ltac eval_names := repeat match goal with |- context [is_name (txt ?a) ?b] => let v := eval vm_compute in (is_name (txt a) b) in change (is_name (txt a) b) with v; cbv iota end.

Lemma parse_option_ok x o : opt_ok x -> length (s_tab (generator o)) = 256%nat ->
  exists r, length (s_tab r) = 256%nat /\ parse_option (opt_word x) o = Ok (true, with_generator r (apply_opt o x)).
Proof.
  intros Hx Hl. destruct x as [| | | |n|n|n|n|n]; simpl in Hx.
  1-4: exists (generator o); split; [exact Hl|reflexivity].
  1-3: destruct n as [|c n]; [by destruct Hx|]; exists (generator o); split; [exact Hl|reflexivity].
  - destruct (reseed_ok (dec n) o Hl) as [E1 E2]. exists (seeded (dec n)). split; [done|].
    unfold parse_option. change (option_name (opt_word (OSeed n))) with (txt "-rs"%string). change (opt_word (OSeed n)) with (txt "-rs="%string ++ n). rewrite (option_value_eq n (txt "-rs="%string)) by (reflexivity || by destruct Hx). eval_names.
    rewrite (bind_eq _ _ _ _ _ (atoi_value_ok n o Hx)), (bind_eq _ _ _ _ _ E1). done.
  - exists (generator o). split; [done|].
    unfold parse_option. change (option_name (opt_word (OLimit n))) with (txt "-ul"%string). change (opt_word (OLimit n)) with (txt "-ul="%string ++ n). rewrite (option_value_eq n (txt "-ul="%string)) by (reflexivity || by destruct Hx). eval_names.
    rewrite (bind_eq _ _ _ _ _ (atoi_value_ok n o Hx)). destruct Hx as (_ & Hd & Hb). pose proof (dec_nonneg n Hd). rewrite wrap_small by lia. reflexivity.
Qed.

Lemma opt_word_dash x : bool_decide (head (opt_word x) = Some 45) = true.
Proof. by destruct x. Qed.

Lemma apply_opt_generator o x r : apply_opt (with_generator r o) x = with_generator r (apply_opt o x).
Proof. by destruct x. Qed.

Lemma apply_opts_generator os o r g : with_generator g (fold_left apply_opt os (with_generator r o)) = with_generator g (fold_left apply_opt os o).
Proof. revert o. induction os as [|x os IH]; intros o; [done|]. simpl. by rewrite apply_opt_generator, IH. Qed.

Lemma parse_options_ok time os rest o :
  Forall opt_ok os -> match rest with w :: _ => bool_decide (head w = Some 45) = false | [] => True end -> length (s_tab (generator o)) = 256%nat ->
  parse_options time (map opt_word os ++ rest) o = Ok (Some rest, with_generator (seeded time) (fold_left apply_opt os o)).
Proof.
  intros Hos Hrest. revert o. induction Hos as [|x os Hx _ IH]; intros o Hl.
  - destruct (reseed_ok time o Hl) as [E _]. simpl. destruct rest as [|w rest]; simpl; [|rewrite Hrest]; by rewrite (bind_eq _ _ _ _ _ E).
  - cbn [map app parse_options]. rewrite opt_word_dash. destruct (parse_option_ok x o Hx Hl) as (r & Hr & E). rewrite (bind_eq _ _ _ _ _ E), IH by done. by rewrite apply_opts_generator.
Qed.

(** ** Actions *)
Definition action_words (a : action) : list (list Z) :=
  match a with
  | Run t => [txt "run"; t] | Ls => [txt "ls"] | Cat f => [txt "cat"; f] | Rm f => [txt "rm"; f] | Extract => [txt "extract"] | Append f => [txt "append"; f]
  end.

Definition action_ok (a : action) : Prop := match a with Run w | Cat w | Rm w | Append w => word_ok w | _ => True end.

Lemma find_action_ok a rest : find_action (action_words a ++ rest) = Ok (a, Z.of_nat (length (action_words a))).
Proof. by destruct a. Qed.

Fixpoint perform_all {S} (perform : action -> M S unit) (l : list action) : M S unit :=
  match l with [] => mret () | a :: l => perform a;; perform_all perform l end.

Lemma run_actions_ok {S} (perform : action -> M S unit) l fuel s :
  (length (concat (map action_words l)) <= fuel)%nat -> run_actions perform fuel (concat (map action_words l)) s = perform_all perform l s.
Proof.
  revert fuel s. induction l as [|a l IH]; intros fuel s Hf; [by destruct fuel|]. cbn [map concat] in *. rewrite length_app in Hf.
  assert (exists w ws, action_words a = w :: ws) as (w & ws & Ea) by (destruct a; simpl; eauto). destruct fuel as [|n]; [rewrite Ea in Hf; simpl in Hf; lia|].
  assert (run_actions perform (Datatypes.S n) (action_words a ++ concat (map action_words l)) s = (perform a;; run_actions perform n (concat (map action_words l))) s) as ->.
  { pose proof (find_action_ok a (concat (map action_words l))) as E. rewrite Ea in E |- *. cbn [app run_actions] in E |- *. rewrite E, Nat2Z.id. rewrite <- Ea. change (w :: ws ++ concat (map action_words l)) with ((w :: ws) ++ concat (map action_words l)). rewrite <- Ea. by rewrite drop_app_length. }
  simpl. unfold mbind, M_bind. destruct (perform a s) as [[[] s']|]; [|done]. apply IH. rewrite Ea in Hf. simpl in Hf. lia.
Qed.

Lemma opt_words_ok os : Forall opt_ok os -> Forall word_ok (map opt_word os).
Proof.
  intros Hos. apply Forall_map. eapply Forall_impl; [exact Hos|]. intros x Hx. split; [by destruct x|].
  assert (forall n, number_ok n -> Forall (fun c => c <> 0) n) as Hnum by (intros n (_ & Hd & _); eapply Forall_impl; [exact Hd|]; intros d E ->; done).
  destruct x as [| | | |n|n|n|n|n]; simpl in Hx; try (repeat constructor; done).
  1-3: destruct Hx as [_ Hx]. all: simpl; repeat (constructor; [done|]); auto.
Qed.

Lemma action_words_ok acts : Forall action_ok acts -> Forall word_ok (concat (map action_words acts)).
Proof.
  assert (forall s, (forallb (fun c => negb (c =? 0)) (txt s) = true) -> txt s <> [] -> word_ok (txt s)) as Ht.
  { intros s Hs Hne. split; [done|]. apply Forall_forall. intros c Hc%list_elem_of_In ->. rewrite forallb_forall in Hs. by specialize (Hs _ Hc). }
  induction 1 as [|a acts Ha _ IH]; [done|]. simpl. apply Forall_app. split; [|done]. destruct a; repeat (constructor; [done || by apply Ht|]); done.
Qed.

(** C1: The command line that the host writes, options first and then actions, is
    carried out: the kernel finds its words in the area of the loader, sets what
    the options ask for, and runs the actions in their order.  There is one
    exception: the seed of option -rs has no effect, because [parse_options] seeds
    the generator with the time after it. *)
Theorem command_line_carried_out {S} (perform : action -> M S unit) os acts pad time o (s : S) :
  let rest := concat (map action_words acts) in
  let ws := map opt_word os ++ rest in
  Forall opt_ok os -> Forall action_ok acts -> alen (pack ws ++ pad) = LOADER_ARGS_LEN -> length (s_tab (generator o)) = 256%nat ->
  read_command_line (alen ws) (pack ws ++ pad) = Ok ws /\
  parse_options time ws o = Ok (Some rest, with_generator (seeded time) (fold_left apply_opt os o)) /\
  run_actions perform (length rest) rest s = perform_all perform acts s.
Proof.
  intros rest ws Hos Hacts Hlen Hl. assert (Forall word_ok ws) as Hws by (apply Forall_app; split; [by apply opt_words_ok|by apply action_words_ok]). pose proof (pack_length ws Hws) as Hp.
  unfold alen in Hlen. rewrite length_app in Hlen. assert (length ws <= 64)%nat as Hn by lia. split; [|split].
  - unfold read_command_line, alen. rewrite swrap_small by lia. rewrite (proj2 (Z.ltb_ge _ _)), Nat2Z.id by lia. apply read_words_pack; [done|lia|lia].
  - apply parse_options_ok; [done| |done]. unfold rest. destruct acts as [|a acts]; [done|]. by destruct a.
  - by apply run_actions_ok.
Qed.

Lemma command_line_carried_out_witness :
  let o := Options SHUTDOWN_NONE false None None None false 0 fresh in
  let ws := [txt "-q"; txt "-rs=42"; txt "run"; txt "args a"]%string in
  read_command_line 4 (pack ws ++ replicate 107 0) = Ok ws /\
  parse_options 7 ws o = Ok (Some [txt "run"; txt "args a"]%string, with_generator (seeded 7) (set_how SHUTDOWN_POWER_OFF o)) /\
  run_actions (fun a => modify (cons a)) 2 [txt "run"; txt "args a"]%string [] = Ok (tt, [Run (txt "args a"%string)]).
Proof.
  apply (command_line_carried_out (fun a => modify (cons a)) [OPowerOff; OSeed (txt "42"%string)] [Run (txt "args a"%string)] (replicate 107 0) 7 (Options SHUTDOWN_NONE false None None None false 0 fresh) []).
  - repeat constructor; simpl; (done || lia).
  - repeat constructor; simpl; done.
  - reflexivity.
  - reflexivity.
Defined.

(** More than 64 words do not fit the array; empty words make that possible. *)
Lemma empty_words_overflow : read_command_line 66 (replicate 128 0) = Err BadPointer.
Proof. reflexivity. Qed.

(** ** The choice of devices *)

(** The registry: every device listed once. *)
Record registry_ok (s : blocks) : Prop := {
  rg_nodup : NoDup (all_blocks s);
  rg_devs : forall b, b ∈ all_blocks s -> b <> 0 /\ is_Some (devs s !! b);
  rg_roles : alen (block_by_role s) = BLOCK_ROLE_CNT
}.

Definition has_type (s : blocks) (role : block_type) (b : Z) : Prop := exists d, devs s !! b = Some d /\ btype d = role.
#[export] Instance has_type_dec s role b : Decision (has_type s role b).
Proof.
  destruct (devs s !! b) as [d|] eqn:E; [|right; intros (d & E' & _); congruence].
  destruct (decide (btype d = role)) as [H|H]; [left; by exists d|right; intros (d' & E' & H'); congruence].
Defined.

Lemma after_app pre b post : NoDup (pre ++ b :: post) -> after (pre ++ b :: post) b = hd 0 post.
Proof.
  induction pre as [|x pre IH]; simpl; [by rewrite Z.eqb_refl|]. intros [Hx Hn]%NoDup_cons. rewrite (proj2 (Z.eqb_neq _ _)); [by apply IH|]. intros ->. apply Hx. set_solver.
Qed.

(** C1: Without a name on the command line a role is given to the first device of
    its type in the order of detection, and to none if there is none; the other
    roles and the devices are as they were. *)
Theorem locate_first_of_type role s :
  registry_ok s -> type_no role < BLOCK_ROLE_CNT ->
  wp (locate_block_device role None) (fun _ s' => devs s' = devs s /\ all_blocks s' = all_blocks s /\
    block_by_role s' = match list_find (has_type s role) (all_blocks s) with Some (_, b) => (block_by_role s).[type_no role <- b] | None => block_by_role s end) s.
Proof.
  intros [Hnd Hdev Hrole] Hr. assert (0 <= type_no role) as Hr0 by (by destruct role). unfold locate_block_device. wp_step. wp_step. wp_step. wp_step. unfold block_first. wp_step. wp_step. wp_step.
  eapply (wp_mono _ (fun b s' => s' = s /\ b = match list_find (has_type s role) (all_blocks s) with Some (_, b) => b | None => 0 end)).
  - apply (wp_loop (fun n b s' => s' = s /\ exists pre post, all_blocks s = pre ++ post /\ n = length post /\ b = hd 0 post /\ forall x, x ∈ pre -> ~ has_type s role x)) with (n := length (all_blocks s)); [|split; [done|]; exists [], (all_blocks s); split; [done|]; split; [done|]; split; [done|set_solver]|lia].
    intros n b s' (-> & pre & post & El & -> & -> & Hpre). rewrite El. destruct post as [|b post]; simpl.
    + wp_step. split; [done|]. rewrite app_nil_r. by rewrite (proj2 (list_find_None _ _)) by (by apply Forall_forall).
    + destruct (Hdev b) as (Hb0 & d & Hd); [rewrite El; set_solver|]. rewrite (proj2 (Z.eqb_neq _ _)) by done. wp_step. wp_step. wp_step. eapply wp_deref; [exact Hd|]. case_decide as Ht.
      * wp_step. split; [done|]. rewrite list_find_app_r by (apply list_find_None; by apply Forall_forall). simpl. rewrite decide_True by (by exists d). done.
      * unfold block_next. wp_step. wp_step. wp_step. wp_step. exists (length post). split; [lia|]. split; [done|]. exists (pre ++ [b]), post. split; [by rewrite <- app_assoc|]. split; [done|]. split; [rewrite El; apply after_app; by rewrite <- El|].
        intros x [Hx| ->%list_elem_of_singleton]%elem_of_app; [by apply Hpre|]. intros (d' & Hd' & Ht'). congruence.
  - intros b s' [-> ->]. destruct (list_find _ _) as [[i b]|] eqn:E; [|by rewrite Z.eqb_refl; wp_step].
    apply list_find_Some in E as (Hi & _ & _). destruct (Hdev b) as [Hb0 _]; [by eapply list_elem_of_lookup_2|]. rewrite (proj2 (Z.eqb_neq _ _)) by done.
    unfold block_set_role. wp_step. apply wp_assert; [by apply Z.ltb_lt|]. wp_step. wp_step. wp_step. destruct (proj1 (aget_is_Some (block_by_role s) (type_no role))) as [x Hx]; [lia|]. eapply wp_deref; [exact Hx|]. by wp_step.
Qed.

Lemma locate_first_of_type_witness : exists s, registry_ok s /\ wp (locate_block_device BLOCK_SWAP None) (fun _ s' => block_by_role s' = [0; 0; 0; 20]) s.
Proof.
  pose (dev t := Block [] t 0 [] 0 0). pose (s := Blocks (<[10 := dev BLOCK_RAW]> (<[20 := dev BLOCK_SWAP]> (<[30 := dev BLOCK_SWAP]> ∅))) [10; 20; 30] [0; 0; 0; 0]).
  assert (registry_ok s) as Hs.
  { split; [apply (bool_decide_unpack _); vm_compute; done| |done]. intros b Hb. repeat (apply elem_of_cons in Hb as [->|Hb]; [split; [done|eexists; reflexivity]|]). by apply elem_of_nil in Hb. }
  exists s. split; [done|]. eapply wp_mono; [by apply (locate_first_of_type BLOCK_SWAP s)|]. intros [] s' (_ & _ & ->). vm_compute. done.
Defined.
