(* ===== verification/Gdt.v ===== *)
(** * Segment descriptors and the task-state segment (src/userprog/gdt.c, tss.c)

    The global descriptor table is an array of 64-bit words that the kernel puts
    together with shifts and masks.  [pack] and [field] are how a processor
    reads such a word: fields of given widths, from the lowest bit up.

    Theorems: a descriptor has the base, limit, type and privilege level it was
    made for in the places where the processor looks for them; and with the table
    that [gdt_init] makes the user's selectors name segments of ring 3, the
    kernel's segments of ring 0, and an interrupt in user mode switches to the
    top of the page of the running thread. *)

From S2P Require Import Prelude Vaddr.

(** ** Words made of fields *)
Fixpoint pack (l : list (Z * Z)) : Z := match l with [] => 0 | (w, v) :: l => v + 2 ^ w * pack l end.
Definition field (x lo w : Z) : Z := x / 2 ^ lo mod 2 ^ w.

Definition fits (l : list (Z * Z)) : Prop := Forall (fun f => 0 <= f.1 /\ 0 <= f.2 < 2 ^ f.1) l.
Definition widths (l : list (Z * Z)) : Z := foldr (fun f n => f.1 + n) 0 l.

Lemma widths_nonneg l : fits l -> 0 <= widths l.
Proof. induction 1 as [|[w v] l [H _] _ IH]; simpl in *; lia. Qed.

Lemma pack_fields_app l k : fits l -> pack (l ++ k) = pack l + 2 ^ widths l * pack k.
Proof.
  induction 1 as [|[w v] l [Hw _] Hl IH]; simpl in *; [ring|]. rewrite IH, Z.pow_add_r by (done || by apply widths_nonneg). ring.
Qed.

Lemma pack_range l : fits l -> 0 <= pack l < 2 ^ widths l.
Proof.
  induction 1 as [|[w v] l [Hw Hv] Hl IH]; simpl in *; [lia|]. rewrite Z.pow_add_r by (done || by apply widths_nonneg).
  pose proof (Z.pow_pos_nonneg 2 w ltac:(lia) Hw). nia.
Qed.

(** A field of a packed word is the value that was put there. *)
Lemma field_pack l w v k : fits l -> 0 <= w -> 0 <= v < 2 ^ w -> field (pack (l ++ (w, v) :: k)) (widths l) w = v.
Proof.
  intros Hl Hw Hv. rewrite pack_fields_app by done. simpl. unfold field. pose proof (pack_range l Hl).
  rewrite Z.mul_comm, Z.div_add by lia. rewrite (Z.div_small (pack l)) by lia. rewrite Z.add_0_l, (Z.mul_comm (2 ^ w)), Z.mod_add by lia. by apply Z.mod_small.
Qed.

Lemma field_at l i w v : fits l -> l !! i = Some (w, v) -> field (pack l) (widths (take i l)) w = v.
Proof.
  intros Hf Hi. pose proof (Forall_lookup_1 _ _ _ _ Hf Hi) as [Hw Hv]. simpl in Hw, Hv. rewrite <- (take_drop_middle l i (w, v) Hi) at 1.
  apply field_pack; [by apply Forall_take|done..].
Qed.

(** Disjoint parts of a word. *)
Lemma lor_disjoint a b k : 0 <= k -> 0 <= a < 2 ^ k -> Z.lor a (b * 2 ^ k) = a + b * 2 ^ k.
Proof.
  intros Hk Ha. assert (Z.land a (b * 2 ^ k) = 0) as E.
  { apply Z.bits_inj'. intros n Hn. rewrite Z.land_spec, Z.bits_0. destruct (decide (n < k)) as [Hlt|Hge]; [by rewrite Z.mul_pow2_bits_low, andb_false_r by lia|].
    rewrite <- (Z.mod_small a (2 ^ k)) by lia. by rewrite Z.mod_pow2_bits_high by lia. }
  rewrite <- Z.lxor_lor by done. symmetry. by apply Z.add_nocarry_lxor.
Qed.

Lemma land_field x k n : 0 <= k -> 0 <= n -> Z.land x (Z.shiftl (Z.ones n) k) = field x k n * 2 ^ k.
Proof.
  intros Hk Hn. unfold field. rewrite <- Z.shiftr_div_pow2, <- Z.land_ones, <- Z.shiftl_mul_pow2 by done. apply Z.bits_inj'. intros m Hm.
  rewrite Z.land_spec. destruct (decide (m < k)) as [Hlt|Hge]; [by rewrite !Z.shiftl_spec_low, andb_false_r by lia|].
  rewrite !Z.shiftl_spec_high, Z.land_spec, Z.shiftr_spec by lia. by rewrite Z.sub_add.
Qed.

Lemma field_range x k n : 0 <= n -> 0 <= field x k n < 2 ^ n.
Proof. intros. apply Z.mod_pos_bound. by apply Z.pow_pos_nonneg. Qed.

(** A 32-bit number is its parts. *)
Lemma fields_sum x k : 0 <= k <= 32 -> 0 <= x < 2 ^ 32 -> x = field x 0 k + field x k (32 - k) * 2 ^ k.
Proof.
  intros Hk Hx. unfold field. rewrite Z.div_1_r, (Z.mod_small (x / 2 ^ k)).
  - pose proof (Z.div_mod x (2 ^ k) ltac:(lia)). lia.
  - split; [apply Z.div_pos; lia|]. apply Z.div_lt_upper_bound; [lia|]. rewrite <- Z.pow_add_r by lia. replace (k + (32 - k)) with 32 by lia. lia.
Qed.

(** ** Descriptors *)
Inductive seg_class := CLS_SYSTEM | CLS_CODE_DATA.
Inductive seg_granularity := GRAN_BYTE | GRAN_PAGE.

Definition class_no (c : seg_class) : Z := match c with CLS_SYSTEM => 0 | CLS_CODE_DATA => 1 end.
Definition gran_no (g : seg_granularity) : Z := match g with GRAN_BYTE => 0 | GRAN_PAGE => 1 end.

Definition make_seg_desc {S} (base limit : Z) (class : seg_class) (type dpl : Z) (granularity : seg_granularity) : M S Z :=
  assert (limit <=? 0xfffff);;
  assert ((0 <=? type) && (type <=? 15));;
  assert ((0 <=? dpl) && (dpl <=? 3));;
  let e0 := Z.lor (Z.land limit 0xffff) (u32 (Z.shiftl base 16)) in
  let e1 := Z.lor (Z.lor (Z.lor (Z.lor (Z.lor (Z.lor (Z.lor (Z.lor
              (Z.land (Z.shiftr base 16) 0xff)
              (Z.shiftl type 8))
              (Z.shiftl (class_no class) 12))
              (Z.shiftl dpl 13))
              (Z.shiftl 1 15))
              (Z.land limit 0xf0000))
              (Z.shiftl 1 22))
              (Z.shiftl (gran_no granularity) 23))
              (Z.land base 0xff000000) in
  mret (Z.lor e0 (Z.shiftl e1 32)).

Definition make_code_desc {S} (dpl : Z) : M S Z := make_seg_desc 0 0xfffff CLS_CODE_DATA 10 dpl GRAN_PAGE.
Definition make_data_desc {S} (dpl : Z) : M S Z := make_seg_desc 0 0xfffff CLS_CODE_DATA 2 dpl GRAN_PAGE.
Definition make_tss_desc {S} (laddr : Z) : M S Z := make_seg_desc laddr 0x67 CLS_SYSTEM 9 0 GRAN_BYTE.
Definition make_gdtr_operand (limit base : Z) : Z := Z.lor limit (Z.shiftl base 16).

(** What the processor reads in a descriptor. *)
Definition seg_layout (base limit : Z) (class : seg_class) (type dpl : Z) (granularity : seg_granularity) : list (Z * Z) :=
  [(16, field limit 0 16); (16, field base 0 16); (8, field base 16 8); (4, type); (1, class_no class); (2, dpl); (1, 1);
   (4, field limit 16 4); (2, 0); (1, 1); (1, gran_no granularity); (8, field base 24 8)].

Lemma make_seg_desc_ok {S} base limit class type dpl g (s : S) :
  0 <= base < 2 ^ 32 -> 0 <= limit < 2 ^ 20 -> 0 <= type < 16 -> 0 <= dpl < 4 ->
  make_seg_desc base limit class type dpl g s = Ok (pack (seg_layout base limit class type dpl g), s).
Proof.
  intros Hb Hl Ht Hd. unfold make_seg_desc. rewrite (bind_eq _ _ s () s); [|unfold assert; rewrite (proj2 (Z.leb_le _ _)) by lia; done].
  rewrite (bind_eq _ _ s () s); [|unfold assert; rewrite !(proj2 (Z.leb_le _ _)) by lia; done].
  rewrite (bind_eq _ _ s () s); [|unfold assert; rewrite !(proj2 (Z.leb_le _ _)) by lia; done].
  cbv zeta. unfold mret, M_ret. do 2 f_equal.
  change 0xffff with (Z.shiftl (Z.ones 16) 0). change 0xff with (Z.shiftl (Z.ones 8) 0). change 0xf0000 with (Z.shiftl (Z.ones 4) 16). change 0xff000000 with (Z.shiftl (Z.ones 8) 24).
  rewrite !land_field, !Z.shiftl_mul_pow2 by lia.
  assert (u32 (base * 2 ^ 16) = field base 0 16 * 2 ^ 16) as ->.
  { unfold wrap, field. change (2 ^ 32) with (2 ^ 16 * 2 ^ 16). rewrite Z.mul_mod_distr_r by lia. by rewrite Z.div_1_r. }
  assert (field (Z.shiftr base 16) 0 8 = field base 16 8) as -> by (unfold field; rewrite Z.shiftr_div_pow2 by lia; by rewrite Z.div_1_r).
  pose proof (field_range base 0 16 ltac:(lia)) as F1. pose proof (field_range base 16 8 ltac:(lia)) as F2. pose proof (field_range base 24 8 ltac:(lia)) as F3.
  pose proof (field_range limit 0 16 ltac:(lia)) as F4. pose proof (field_range limit 16 4 ltac:(lia)) as F5. unfold seg_layout, pack.
  generalize dependent (field base 0 16). generalize dependent (field base 16 8). generalize dependent (field base 24 8).
  generalize dependent (field limit 0 16). generalize dependent (field limit 16 4). intros l2 F5 l1 F4 b3 F3 b2 F2 b1 F1.
  assert (0 <= class_no class < 2) as F6 by (destruct class; simpl; lia). assert (0 <= gran_no g < 2) as F7 by (destruct g; simpl; lia).
  generalize dependent (class_no class). generalize dependent (gran_no g). intros gr F7 cl F6.
  rewrite (lor_disjoint (l1 * 2 ^ 0) b1 16), (lor_disjoint (b2 * 2 ^ 0) type 8) by lia. rewrite (lor_disjoint _ cl 12) by lia. rewrite (lor_disjoint _ dpl 13) by lia.
  rewrite (lor_disjoint _ 1 15) by lia. rewrite (lor_disjoint _ l2 16) by lia. rewrite (lor_disjoint _ 1 22) by lia. rewrite (lor_disjoint _ gr 23) by lia.
  rewrite (lor_disjoint _ b3 24) by lia. rewrite lor_disjoint by lia. lia.
Qed.

(** What the fields of a descriptor mean. *)
Record segment := Segment { s_base : Z; s_limit : Z; s_class : Z; s_type : Z; s_dpl : Z; s_present : Z; s_gran : Z }.

Definition segment_of (d : Z) : segment :=
  Segment (field d 16 16 + 2 ^ 16 * field d 32 8 + 2 ^ 24 * field d 56 8) (field d 0 16 + 2 ^ 16 * field d 48 4)
    (field d 44 1) (field d 40 4) (field d 45 2) (field d 47 1) (field d 55 1).

Lemma seg_layout_fits base limit class type dpl g : 0 <= type < 16 -> 0 <= dpl < 4 -> fits (seg_layout base limit class type dpl g).
Proof.
  intros Ht Hd. repeat constructor; simpl; try lia; try (apply field_range; lia); destruct class, g; simpl; lia.
Qed.

Lemma word_parts x : 0 <= x < 2 ^ 32 -> field x 0 16 + 2 ^ 16 * field x 16 8 + 2 ^ 24 * field x 24 8 = x.
Proof.
  intros Hx. unfold field. rewrite Z.div_1_r. change (2 ^ 16) with 65536. change (2 ^ 24) with 16777216. change (2 ^ 8) with 256.
  pose proof (Z.div_mod x 65536 ltac:(lia)). pose proof (Z.div_mod (x / 65536) 256 ltac:(lia)). rewrite Z.div_div in * by lia.
  change (65536 * 256) with 16777216 in *. rewrite (Z.mod_small (x / 16777216)); [lia|]. split; [apply Z.div_pos; lia|]. apply Z.div_lt_upper_bound; lia.
Qed.

Lemma limit_parts x : 0 <= x < 2 ^ 20 -> field x 0 16 + 2 ^ 16 * field x 16 4 = x.
Proof.
  intros Hx. unfold field. rewrite Z.div_1_r. pose proof (Z.div_mod x (2 ^ 16) ltac:(lia)). rewrite (Z.mod_small (x / 2 ^ 16)); [lia|].
  split; [apply Z.div_pos; lia|]. apply Z.div_lt_upper_bound; lia.
Qed.

(** A descriptor is read as it was made. *)
Lemma segment_of_layout base limit class type dpl g :
  0 <= base < 2 ^ 32 -> 0 <= limit < 2 ^ 20 -> 0 <= type < 16 -> 0 <= dpl < 4 ->
  segment_of (pack (seg_layout base limit class type dpl g)) = Segment base limit (class_no class) type dpl 1 (gran_no g).
Proof.
  intros Hb Hl Ht Hd. pose proof (seg_layout_fits base limit class type dpl g Ht Hd) as Hf.
  set (l := seg_layout base limit class type dpl g) in *.
  unfold segment_of.
  assert (field (pack l) 0 16 = field limit 0 16) as -> by exact (field_at l 0 _ _ Hf eq_refl).
  assert (field (pack l) 16 16 = field base 0 16) as -> by exact (field_at l 1 _ _ Hf eq_refl).
  assert (field (pack l) 32 8 = field base 16 8) as -> by exact (field_at l 2 _ _ Hf eq_refl).
  assert (field (pack l) 40 4 = type) as -> by exact (field_at l 3 _ _ Hf eq_refl).
  assert (field (pack l) 44 1 = class_no class) as -> by exact (field_at l 4 _ _ Hf eq_refl).
  assert (field (pack l) 45 2 = dpl) as -> by exact (field_at l 5 _ _ Hf eq_refl).
  assert (field (pack l) 47 1 = 1) as -> by exact (field_at l 6 _ _ Hf eq_refl).
  assert (field (pack l) 48 4 = field limit 16 4) as -> by exact (field_at l 7 _ _ Hf eq_refl).
  assert (field (pack l) 55 1 = gran_no g) as -> by exact (field_at l 10 _ _ Hf eq_refl).
  assert (field (pack l) 56 8 = field base 24 8) as -> by exact (field_at l 11 _ _ Hf eq_refl).
  by rewrite word_parts, limit_parts.
Qed.

(** C1: A descriptor that [make_seg_desc] makes, read as the processor reads it,
    is a present segment with the base, limit, class, type, privilege level and
    granularity that were asked for. *)
Theorem seg_desc_round_trip {S} base limit class type dpl g (s : S) :
  0 <= base < 2 ^ 32 -> 0 <= limit < 2 ^ 20 -> 0 <= type < 16 -> 0 <= dpl < 4 ->
  exists d, make_seg_desc base limit class type dpl g s = Ok (d, s) /\ 0 <= d < 2 ^ 64 /\
    segment_of d = Segment base limit (class_no class) type dpl 1 (gran_no g).
Proof.
  intros Hb Hl Ht Hd. eexists. split; [by apply make_seg_desc_ok|]. split; [|by apply segment_of_layout].
  exact (pack_range _ (seg_layout_fits base limit class type dpl g Ht Hd)).
Qed.

Lemma seg_desc_round_trip_witness :
  exists d, make_seg_desc 0xc0123000 0x67 CLS_SYSTEM 9 0 GRAN_BYTE tt = Ok (d, tt) /\ 0 <= d < 2 ^ 64 /\ segment_of d = Segment 0xc0123000 0x67 0 9 0 1 0.
Proof. apply (seg_desc_round_trip 0xc0123000 0x67 CLS_SYSTEM 9 0 GRAN_BYTE tt); lia. Defined.

(** ** The tables of the kernel *)
Definition SEL_NULL : Z := 0x00.
Definition SEL_KCSEG : Z := 0x08.
Definition SEL_KDSEG : Z := 0x10.
Definition SEL_UCSEG : Z := 0x1b.
Definition SEL_UDSEG : Z := 0x23.
Definition SEL_TSS : Z := 0x28.
Definition SEL_CNT : Z := 6.

(** The members of the task-state segment that are set; the others are 0. *)
Record tss := Tss { esp0 : Z; ss0 : Z; iomap : Z }.

(** [running] is the thread that runs, [gdtr] and [tr] the registers. *)
Record tables := Tables { gdt : list Z; tss_at : Z; tss_mem : tss; running : Z; gdtr : Z; tr : Z }.

Definition set_gdt (sel : Z) (d : Z) : M tables unit :=
  s ← get; _ ← deref (gdt s).[sel / 8]; put (Tables (gdt s).[sel / 8 <- d] (tss_at s) (tss_mem s) (running s) (gdtr s) (tr s)).

Definition tss_get : M tables Z := s ← get; assert (negb (tss_at s =? 0));; mret (tss_at s).

Definition tss_update : M tables unit :=
  s ← get;
  assert (negb (tss_at s =? 0));;
  put (Tables (gdt s) (tss_at s) (Tss (u32 (running s + PGSIZE)) (ss0 (tss_mem s)) (iomap (tss_mem s))) (running s) (gdtr s) (tr s)).

(** [page] is the page of zeros that [palloc_get_page] returned. *)
Definition tss_init (page : Z) : M tables unit :=
  s ← get;
  put (Tables (gdt s) page (Tss 0 SEL_KDSEG 0xdfff) (running s) (gdtr s) (tr s));;
  tss_update.

(** [table] is the address of [gdt]. *)
Definition gdt_init (table : Z) : M tables unit :=
  set_gdt SEL_NULL 0;;
  kc ← make_code_desc 0; set_gdt SEL_KCSEG kc;;
  kd ← make_data_desc 0; set_gdt SEL_KDSEG kd;;
  uc ← make_code_desc 3; set_gdt SEL_UCSEG uc;;
  ud ← make_data_desc 3; set_gdt SEL_UDSEG ud;;
  t ← tss_get; td ← make_tss_desc t; set_gdt SEL_TSS td;;
  s ← get;
  put (Tables (gdt s) (tss_at s) (tss_mem s) (running s) (make_gdtr_operand (8 * SEL_CNT - 1) table) SEL_TSS).

(** The segment that a selector names: bits 0 and 1 are the ring that asks. *)
Definition selected (s : tables) (sel : Z) : option segment := segment_of <$> (gdt s).[sel / 8].

Ltac wp_set := unfold set_gdt; wp_step; wp_step; wp_step; eapply wp_deref; [reflexivity|]; wp_step; cbn [gdt tss_at tss_mem running gdtr tr].

(** What the processor knows about the machine after [tss_init] and [gdt_init]. *)
Record protected (table page : Z) (s : tables) : Prop := {
  pt_gdtr : field (gdtr s) 0 16 = 8 * SEL_CNT - 1 /\ field (gdtr s) 16 32 = table;
  pt_kernel : selected s SEL_KCSEG = Some (Segment 0 0xfffff 1 10 0 1 1) /\ selected s SEL_KDSEG = Some (Segment 0 0xfffff 1 2 0 1 1);
  pt_user : selected s SEL_UCSEG = Some (Segment 0 0xfffff 1 10 (SEL_UCSEG mod 4) 1 1) /\ selected s SEL_UDSEG = Some (Segment 0 0xfffff 1 2 (SEL_UDSEG mod 4) 1 1);
  pt_tss : selected s (tr s) = Some (Segment page 0x67 0 9 0 1 0);
  pt_stack : esp0 (tss_mem s) = u32 (running s + PGSIZE) /\ ss0 (tss_mem s) = SEL_KDSEG
}.

(** C1: After [tss_init] and [gdt_init] the selectors of the kernel name segments
    of 4 GB in ring 0 and those of user programs segments of 4 GB in ring 3, the
    ring that the selectors ask with; the task register names the task-state
    segment in the page, and an interrupt in user mode starts on the kernel's
    data segment, at the end of the page of the thread that runs. *)
Theorem gdt_protects s table page :
  alen (gdt s) = SEL_CNT -> 0 < page < 2 ^ 32 -> 0 <= table < 2 ^ 32 ->
  wp (tss_init page;; gdt_init table) (fun _ s' => protected table page s' /\ running s' = running s) s.
Proof.
  intros Hlen Hp Ht. destruct s as [g a m r gr t]. simpl in Hlen. unfold alen, SEL_CNT in Hlen.
  destruct g as [|g0 [|g1 [|g2 [|g3 [|g4 [|g5 [|? ?]]]]]]]; simpl in Hlen; try lia. clear Hlen.
  wp_step. unfold tss_init. wp_step. wp_step. wp_step. wp_step. unfold tss_update. wp_step. wp_step. wp_step.
  apply wp_assert; [by simpl; rewrite (proj2 (Z.eqb_neq page 0)) by lia|]. wp_step. unfold gdt_init.
  wp_step. wp_set. wp_step. eapply wp_eq; [by apply make_seg_desc_ok|]. wp_step. wp_set. wp_step. eapply wp_eq; [by apply make_seg_desc_ok|]. wp_step. wp_set.
  wp_step. eapply wp_eq; [by apply make_seg_desc_ok|]. wp_step. wp_set. wp_step. eapply wp_eq; [by apply make_seg_desc_ok|]. wp_step. wp_set.
  wp_step. unfold tss_get. wp_step. wp_step. wp_step. apply wp_assert; [by simpl; rewrite (proj2 (Z.eqb_neq page 0)) by lia|]. wp_step. simpl tss_at.
  wp_step. eapply wp_eq; [apply (make_seg_desc_ok page 0x67 CLS_SYSTEM 9 0 GRAN_BYTE); lia|]. wp_step. wp_set. wp_step. wp_step. wp_step.
  split; [|done]. split; unfold selected; simpl gdt.
  - simpl gdtr. unfold make_gdtr_operand, field. rewrite Z.shiftl_mul_pow2, lor_disjoint by (unfold SEL_CNT; lia).
    rewrite Z.div_1_r, Z.mod_add, Z.div_add, (Z.div_small (8 * SEL_CNT - 1)) by (unfold SEL_CNT; lia). split; [done|]. rewrite Z.add_0_l. by apply Z.mod_small.
  - split; reflexivity.
  - split; reflexivity.
  - change (segment_of <$> _) with (Some (segment_of (pack (seg_layout page 0x67 CLS_SYSTEM 9 0 GRAN_BYTE)))). rewrite segment_of_layout by lia. done.
  - done.
Qed.

Lemma gdt_protects_witness :
  wp (tss_init 0xc0120000;; gdt_init 0xc0030000) (fun _ s' => protected 0xc0030000 0xc0120000 s' /\ running s' = 0xc000e000) (Tables (replicate 6 0) 0 (Tss 0 0 0) 0xc000e000 0 0).
Proof. apply (gdt_protects (Tables (replicate 6 0) 0 (Tss 0 0 0) 0xc000e000 0 0) 0xc0030000 0xc0120000); (done || lia). Defined.
