(* ===== verification/Interrupt.v ===== *)
(** * Interrupts (src/threads/interrupt.c, src/userprog/exception.c)

    The state has the interrupt descriptor table, the handlers by number, the
    flags of the processor and of the code, and what was sent to the ports of the
    interrupt controllers.  The assembly stubs are addresses, a parameter; so are
    the handlers, and what a handler does is a program on the state.

    Theorems: the gates are read by the processor as they were asked for; with
    the handlers that the kernel registers a user program can call exactly the
    vectors 3, 4, 5 and 0x30; an external interrupt runs its handler with
    interrupts off and is acknowledged once; and the messages about unexpected
    interrupts grow as the logarithm of their number. *)

From stdpp Require Import strings.
From S2P Require Import Prelude Khash Kstdio Gdt.

Inductive intr_level := INTR_OFF | INTR_ON.

#[export] Instance intr_level_eq_dec : EqDecision intr_level.
Proof. solve_decision. Defined.

Inductive event := Out (port value : Z) | Lidt (operand : Z) | Unexpected (vec : Z) | Yield.

Record intr := Intr {
  idt : list Z;
  intr_handlers : list Z;      (* 0 for none *)
  intr_names : list (list Z);
  unexpected_cnt : list Z;
  in_external_intr : bool;
  yield_on_return : bool;
  level : intr_level;          (* the interrupt flag *)
  events : list event
}.

Definition INTR_CNT : Z := 256.

Definition set_idt (l : list Z) (s : intr) : intr :=
  Intr l (intr_handlers s) (intr_names s) (unexpected_cnt s) (in_external_intr s) (yield_on_return s) (level s) (events s).
Definition set_handler (l : list Z) (n : list (list Z)) (s : intr) : intr :=
  Intr (idt s) l n (unexpected_cnt s) (in_external_intr s) (yield_on_return s) (level s) (events s).
Definition set_unexpected (l : list Z) (s : intr) : intr :=
  Intr (idt s) (intr_handlers s) (intr_names s) l (in_external_intr s) (yield_on_return s) (level s) (events s).
Definition set_context (b y : bool) (s : intr) : intr :=
  Intr (idt s) (intr_handlers s) (intr_names s) (unexpected_cnt s) b y (level s) (events s).
Definition set_level (l : intr_level) (s : intr) : intr :=
  Intr (idt s) (intr_handlers s) (intr_names s) (unexpected_cnt s) (in_external_intr s) (yield_on_return s) l (events s).
Definition log (e : event) (s : intr) : intr :=
  Intr (idt s) (intr_handlers s) (intr_names s) (unexpected_cnt s) (in_external_intr s) (yield_on_return s) (level s) (events s ++ [e]).

Definition outb (port value : Z) : M intr unit := modify (log (Out port value)).

(** ** The interrupt flag *)
Definition intr_get_level : M intr intr_level := gets level.
Definition intr_context : M intr bool := gets in_external_intr.

Definition intr_enable : M intr intr_level :=
  old_level ← intr_get_level;
  c ← intr_context;
  assert (negb c);;
  modify (set_level INTR_ON);;
  mret old_level.

Definition intr_disable : M intr intr_level :=
  old_level ← intr_get_level;
  modify (set_level INTR_OFF);;
  mret old_level.

Definition intr_set_level (l : intr_level) : M intr intr_level :=
  if decide (l = INTR_ON) then intr_enable else intr_disable.

Definition intr_yield_on_return : M intr unit :=
  c ← intr_context;
  assert c;;
  modify (fun s => set_context (in_external_intr s) true s).

(** ** Gates *)
Definition make_gate (function dpl type : Z) : M intr Z :=
  assert (negb (function =? 0));;
  assert ((0 <=? dpl) && (dpl <=? 3));;
  assert ((0 <=? type) && (type <=? 15));;
  let e0 := Z.lor (Z.land function 0xffff) (Z.shiftl SEL_KCSEG 16) in
  let e1 := Z.lor (Z.lor (Z.lor (Z.lor (Z.land function 0xffff0000) (Z.shiftl 1 15)) (Z.shiftl dpl 13)) (Z.shiftl 0 12)) (Z.shiftl type 8) in
  mret (Z.lor e0 (Z.shiftl e1 32)).

Definition make_intr_gate (function dpl : Z) : M intr Z := make_gate function dpl 14.
Definition make_trap_gate (function dpl : Z) : M intr Z := make_gate function dpl 15.
Definition make_idtr_operand (limit base : Z) : Z := Z.lor limit (Z.shiftl base 16).

(** ** The interrupt controllers *)
Definition pic_init : M intr unit :=
  outb 0x21 0xff;; outb 0xa1 0xff;;
  outb 0x20 0x11;; outb 0x21 0x20;; outb 0x21 0x04;; outb 0x21 0x01;;
  outb 0xa0 0x11;; outb 0xa1 0x28;; outb 0xa1 0x02;; outb 0xa1 0x01;;
  outb 0x21 0x00;; outb 0xa1 0x00.

Definition pic_end_of_interrupt (irq : Z) : M intr unit :=
  assert ((0x20 <=? irq) && (irq <? 0x30));;
  outb 0x20 0x20;;
  if 0x28 <=? irq then outb 0xa0 0x20 else mret ().

Section interrupts.
Context (intr_stubs : Z -> Z).

(** ** Registration *)
Definition put_gate (vec d : Z) : M intr unit := s ← get; _ ← deref (idt s).[vec]; put (set_idt (idt s).[vec <- d] s).

Definition known_names : list (list Z) := map txt [
  "#DE Divide Error"; "#DB Debug Exception"; "NMI Interrupt"; "#BP Breakpoint Exception"; "#OF Overflow Exception";
  "#BR BOUND Range Exceeded Exception"; "#UD Invalid Opcode Exception"; "#NM Device Not Available Exception"; "#DF Double Fault Exception";
  "Coprocessor Segment Overrun"; "#TS Invalid TSS Exception"; "#NP Segment Not Present"; "#SS Stack Fault Exception";
  "#GP General Protection Exception"; "#PF Page-Fault Exception"; "unknown"; "#MF x87 FPU Floating-Point Error";
  "#AC Alignment Check Exception"; "#MC Machine-Check Exception"; "#XF SIMD Floating-Point Exception"]%string.

(** [table] is the address of [idt]. *)
Definition intr_init (table : Z) : M intr unit :=
  pic_init;;
  for_ (Z.to_nat INTR_CNT) 0 (fun i => d ← make_intr_gate (intr_stubs i) 0; put_gate i d);;
  modify (log (Lidt (make_idtr_operand (8 * INTR_CNT - 1) table)));;
  modify (fun s => set_handler (intr_handlers s) (known_names ++ replicate 236 (txt "unknown"%string)) s).

Definition register_handler (vec_no dpl : Z) (l : intr_level) (handler : Z) (name : list Z) : M intr unit :=
  s ← get;
  h ← deref (intr_handlers s).[vec_no];
  assert (h =? 0);;
  d ← (if decide (l = INTR_ON) then make_trap_gate (intr_stubs vec_no) dpl else make_intr_gate (intr_stubs vec_no) dpl);
  put_gate vec_no d;;
  modify (fun s => set_handler (intr_handlers s).[vec_no <- handler] (intr_names s).[vec_no <- name] s).

Definition intr_register_ext (vec_no handler : Z) (name : list Z) : M intr unit :=
  assert ((0x20 <=? vec_no) && (vec_no <=? 0x2f));;
  register_handler vec_no 0 INTR_OFF handler name.

Definition intr_register_int (vec_no dpl : Z) (l : intr_level) (handler : Z) (name : list Z) : M intr unit :=
  assert ((vec_no <? 0x20) || (0x2f <? vec_no));;
  register_handler vec_no dpl l handler name.

(** ** The handlers of the kernel *)
Definition exception_init (kill page_fault : Z) : M intr unit :=
  intr_register_int 3 3 INTR_ON kill (txt "#BP Breakpoint Exception"%string);;
  intr_register_int 4 3 INTR_ON kill (txt "#OF Overflow Exception"%string);;
  intr_register_int 5 3 INTR_ON kill (txt "#BR BOUND Range Exceeded Exception"%string);;
  intr_register_int 0 0 INTR_ON kill (txt "#DE Divide Error"%string);;
  intr_register_int 1 0 INTR_ON kill (txt "#DB Debug Exception"%string);;
  intr_register_int 6 0 INTR_ON kill (txt "#UD Invalid Opcode Exception"%string);;
  intr_register_int 7 0 INTR_ON kill (txt "#NM Device Not Available Exception"%string);;
  intr_register_int 11 0 INTR_ON kill (txt "#NP Segment Not Present"%string);;
  intr_register_int 12 0 INTR_ON kill (txt "#SS Stack Fault Exception"%string);;
  intr_register_int 13 0 INTR_ON kill (txt "#GP General Protection Exception"%string);;
  intr_register_int 16 0 INTR_ON kill (txt "#MF x87 FPU Floating-Point Error"%string);;
  intr_register_int 19 0 INTR_ON kill (txt "#XF SIMD Floating-Point Exception"%string);;
  intr_register_int 14 0 INTR_OFF page_fault (txt "#PF Page-Fault Exception"%string).

Definition syscall_init (syscall_handler : Z) : M intr unit := intr_register_int 0x30 3 INTR_ON syscall_handler (txt "syscall"%string).

(** The interrupts of the devices: timer, keyboard, serial line and disks. *)
Definition timer_register (h : Z) : M intr unit := intr_register_ext 0x20 h (txt "8254 Timer"%string).
Definition kbd_register (h : Z) : M intr unit := intr_register_ext 0x21 h (txt "8042 Keyboard"%string).
Definition serial_register (h : Z) : M intr unit := intr_register_ext (0x20 + 4) h (txt "serial"%string).
Definition ide_register (h : Z) : M intr unit :=
  intr_register_ext (14 + 0x20) h (txt "ide0"%string);; intr_register_ext (15 + 0x20) h (txt "ide1"%string).

(** What [kill] ends. *)
Inductive killed := Exit (status : Z) | ThreadExit.

Definition kill (cs : Z) : M intr killed :=
  if cs =? SEL_UCSEG then mret (Exit (-1))
  else if cs =? SEL_KCSEG then fail PanicHalt
  else mret ThreadExit.

(** ** Handling *)
Definition unexpected_interrupt (vec_no : Z) : M intr unit :=
  s ← get;
  c ← deref (unexpected_cnt s).[vec_no];
  let n := u32 (c + 1) in
  put (set_unexpected (unexpected_cnt s).[vec_no <- n] s);;
  if Z.land n (u32 (n - 1)) =? 0 then modify (log (Unexpected vec_no)) else mret ().

(** [call] runs the handler at an address, [thread_yield] the scheduler. *)
Context (call : Z -> Z -> M intr unit).

(** The handler of a vector, or what is done without one. *)
Definition handled (vec_no : Z) : M intr unit :=
  s ← get;
  handler ← deref (intr_handlers s).[vec_no];
  if negb (handler =? 0) then call handler vec_no
  else if (vec_no =? 0x27) || (vec_no =? 0x2f) then mret ()
  else unexpected_interrupt vec_no.

Definition thread_yield : M intr unit := modify (log Yield).

Definition intr_handler (vec_no : Z) : M intr unit :=
  let external := (0x20 <=? vec_no) && (vec_no <? 0x30) in
  (if external then
     l ← intr_get_level; assert (bool_decide (l = INTR_OFF));;
     c ← intr_context; assert (negb c);;
     modify (set_context true false)
   else mret ());;
  handled vec_no;;
  if external then
    l ← intr_get_level; assert (bool_decide (l = INTR_OFF));;
    c ← intr_context; assert c;;
    modify (fun s => set_context false (yield_on_return s) s);;
    pic_end_of_interrupt vec_no;;
    s ← get;
    if yield_on_return s then thread_yield else mret ()
  else mret ().

Definition intr_name (vec : Z) : M intr (list Z) := s ← get; deref (intr_names s).[vec].

(** ** What a gate means *)
Record gate := Gate { g_offset : Z; g_selector : Z; g_type : Z; g_dpl : Z; g_present : Z }.
Definition gate_of (d : Z) : gate :=
  Gate (field d 0 16 + 2 ^ 16 * field d 48 16) (field d 16 16) (field d 40 4) (field d 45 2) (field d 47 1).

Definition gate_layout (function dpl type : Z) : list (Z * Z) :=
  [(16, field function 0 16); (16, SEL_KCSEG); (8, 0); (4, type); (1, 0); (2, dpl); (1, 1); (16, field function 16 16)].

Lemma make_gate_ok function dpl type s : 0 < function < 2 ^ 32 -> 0 <= dpl < 4 -> 0 <= type < 16 ->
  make_gate function dpl type s = Ok (pack (gate_layout function dpl type), s).
Proof.
  intros Hf Hd Ht. unfold make_gate. rewrite (bind_eq _ _ s () s); [|unfold assert; by rewrite (proj2 (Z.eqb_neq _ _)) by lia].
  rewrite (bind_eq _ _ s () s); [|unfold assert; by rewrite !(proj2 (Z.leb_le _ _)) by lia].
  rewrite (bind_eq _ _ s () s); [|unfold assert; by rewrite !(proj2 (Z.leb_le _ _)) by lia].
  cbv zeta. unfold mret, M_ret. do 2 f_equal.
  change 0xffff with (Z.shiftl (Z.ones 16) 0). change 0xffff0000 with (Z.shiftl (Z.ones 16) 16). rewrite !land_field, !Z.shiftl_mul_pow2 by lia.
  pose proof (field_range function 0 16 ltac:(lia)) as F1. pose proof (field_range function 16 16 ltac:(lia)) as F2. unfold gate_layout, pack, SEL_KCSEG.
  generalize dependent (field function 0 16). generalize dependent (field function 16 16). intros f2 F2 f1 F1.
  assert (forall a b k, 0 <= k -> 0 <= a < 2 ^ k -> Z.lor (b * 2 ^ k) a = b * 2 ^ k + a) as lor_high by (intros; rewrite Z.lor_comm, lor_disjoint by done; lia).
  rewrite (lor_disjoint (f1 * 2 ^ 0) 8 16) by lia. rewrite (lor_high (1 * 2 ^ 15) f2 16) by lia. replace (f2 * 2 ^ 16 + 1 * 2 ^ 15) with ((2 * f2 + 1) * 2 ^ 15) by lia.
  rewrite (lor_high (dpl * 2 ^ 13) (2 * f2 + 1) 15) by lia. replace ((2 * f2 + 1) * 2 ^ 15 + dpl * 2 ^ 13) with ((8 * f2 + 4 + dpl) * 2 ^ 13) by lia.
  rewrite (lor_high (0 * 2 ^ 12) (8 * f2 + 4 + dpl) 13) by lia. rewrite Z.mul_0_l, Z.add_0_r. rewrite (lor_high (type * 2 ^ 8) (8 * f2 + 4 + dpl) 13) by lia.
  rewrite lor_disjoint by lia. lia.
Qed.

Lemma gate_of_layout function dpl type : 0 < function < 2 ^ 32 -> 0 <= dpl < 4 -> 0 <= type < 16 ->
  gate_of (pack (gate_layout function dpl type)) = Gate function SEL_KCSEG type dpl 1.
Proof.
  intros Hf Hd Ht. assert (fits (gate_layout function dpl type)) as Hfit.
  { repeat constructor; simpl; try lia; try (apply field_range; lia); unfold SEL_KCSEG; lia. }
  set (l := gate_layout function dpl type) in *. unfold gate_of.
  assert (field (pack l) 0 16 = field function 0 16) as -> by exact (field_at l 0 _ _ Hfit eq_refl).
  assert (field (pack l) 16 16 = SEL_KCSEG) as -> by exact (field_at l 1 _ _ Hfit eq_refl).
  assert (field (pack l) 40 4 = type) as -> by exact (field_at l 3 _ _ Hfit eq_refl).
  assert (field (pack l) 45 2 = dpl) as -> by exact (field_at l 5 _ _ Hfit eq_refl).
  assert (field (pack l) 47 1 = 1) as -> by exact (field_at l 6 _ _ Hfit eq_refl).
  assert (field (pack l) 48 16 = field function 16 16) as -> by exact (field_at l 7 _ _ Hfit eq_refl).
  f_equal. pose proof (fields_sum function 16 ltac:(lia) ltac:(lia)) as E. change (32 - 16) with 16 in E. lia.
Qed.

(** ** The table *)
Hypothesis stubs_ok : forall v, 0 < intr_stubs v < 2 ^ 32.

(** What is registered: privilege level, whether interrupts stay on, handler. *)
Abbreviation registry := (gmap Z (Z * intr_level * Z)).

Definition gate_dpl (R : registry) (v : Z) : Z := match R !! v with Some (dpl, _, _) => dpl | None => 0 end.
Definition gate_type (R : registry) (v : Z) : Z := match R !! v with Some (_, INTR_ON, _) => 15 | _ => 14 end.
Definition gate_handler (R : registry) (v : Z) : Z := match R !! v with Some (_, _, h) => h | None => 0 end.

Record table_ok (R : registry) (s : intr) : Prop := {
  to_idt : alen (idt s) = INTR_CNT;
  to_handlers : alen (intr_handlers s) = INTR_CNT;
  to_gate : forall v, 0 <= v < INTR_CNT -> exists d, (idt s).[v] = Some d /\ gate_of d = Gate (intr_stubs v) SEL_KCSEG (gate_type R v) (gate_dpl R v) 1;
  to_handler : forall v, 0 <= v < INTR_CNT -> (intr_handlers s).[v] = Some (gate_handler R v)
}.

Lemma put_gate_ok s v d (Q : unit -> intr -> Prop) : 0 <= v < alen (idt s) -> Q () (set_idt (idt s).[v <- d] s) -> wp (put_gate v d) Q s.
Proof.
  intros Hv HQ. destruct (proj1 (aget_is_Some (idt s) v) Hv) as [x Hx]. unfold put_gate. do 3 wp_step. eapply wp_deref; [done|]. by wp_step.
Qed.

(** What registration does not touch. *)
Record same_flags (s s' : intr) : Prop := {
  sf_ext : in_external_intr s' = in_external_intr s;
  sf_level : level s' = level s;
  sf_cnt : unexpected_cnt s' = unexpected_cnt s
}.

Lemma intr_init_table s table :
  alen (idt s) = INTR_CNT -> alen (intr_handlers s) = INTR_CNT -> (forall v, 0 <= v < INTR_CNT -> (intr_handlers s).[v] = Some 0) ->
  wp (intr_init table) (fun _ s' => table_ok ∅ s' /\ same_flags s s') s.
Proof.
  intros Hi Hh H0. unfold intr_init. wp_step. apply wp_mono with (P := fun _ s1 => idt s1 = idt s /\ intr_handlers s1 = intr_handlers s /\ same_flags s s1).
  { unfold pic_init, outb. repeat (wp_step; apply wp_modify). apply wp_modify. split; [done|]. split; [done|by split]. }
  intros [] s1 (E1 & E2 & E3). wp_step.
  eapply wp_mono; [apply (wp_for (fun i t => alen (idt t) = INTR_CNT /\ intr_handlers t = intr_handlers s /\ same_flags s t /\
    forall v, 0 <= v < i -> exists d, (idt t).[v] = Some d /\ gate_of d = Gate (intr_stubs v) SEL_KCSEG 14 0 1))|].
  - intros i t Hit (T1 & T2 & T3 & T4). wp_step. eapply wp_eq; [apply make_gate_ok; [apply stubs_ok|lia|lia]|].
    apply put_gate_ok; [rewrite T1; unfold INTR_CNT in *; lia|]. split; [by simpl; rewrite alen_aset|]. split; [done|]. split; [destruct T3; by split|].
    intros v Hv. simpl. destruct (decide (v = i)) as [->|Hne].
    + eexists. split; [apply aget_aset_eq; rewrite T1; unfold INTR_CNT in *; lia|]. apply gate_of_layout; [apply stubs_ok|lia|lia].
    + rewrite aget_aset_ne by done. apply T4. lia.
  - rewrite E1, E2. split; [done|]. split; [done|]. split; [done|]. intros v Hv. lia.
  - intros [] s2 (S1 & S2 & S3 & S4). wp_step. apply wp_modify. apply wp_modify. split; [|destruct S3; by split]. split; simpl; [done|by rewrite S2| |].
    + intros v Hv. apply S4. unfold INTR_CNT in *. lia.
    + intros v Hv. rewrite S2. by apply H0.
Qed.

Lemma register_table R s v dpl l h name :
  table_ok R s -> 0 <= v < INTR_CNT -> R !! v = None -> 0 <= dpl < 4 ->
  wp (register_handler v dpl l h name) (fun _ s' => table_ok (<[v := (dpl, l, h)]> R) s' /\ same_flags s s') s.
Proof.
  intros [T1 T2 T3 T4] Hv Hn Hd. unfold register_handler. wp_step. wp_step. wp_step. eapply wp_deref; [by apply T4|].
  unfold gate_handler. rewrite Hn. wp_step. apply wp_assert; [done|]. wp_step.
  eapply wp_eq with (a := pack (gate_layout (intr_stubs v) dpl (gate_type (<[v := (dpl, l, h)]> R) v))) (s' := s).
  { unfold gate_type. rewrite lookup_insert_eq. destruct l; apply make_gate_ok; (apply stubs_ok || lia). }
  wp_step. apply put_gate_ok; [by rewrite T1|]. apply wp_modify. split; [|by split]. split; simpl; [by rewrite alen_aset..| |].
  - intros w Hw. destruct (decide (w = v)) as [->|Hne].
    + eexists. split; [apply aget_aset_eq; by rewrite T1|]. unfold gate_dpl. rewrite lookup_insert_eq. apply gate_of_layout; [apply stubs_ok|done|].
      unfold gate_type. rewrite lookup_insert_eq. destruct l; lia.
    + destruct (T3 w Hw) as (d & E & Hg). exists d. rewrite aget_aset_ne by done. split; [done|]. unfold gate_type, gate_dpl in *. by rewrite lookup_insert_ne by done.
  - intros w Hw. unfold gate_handler in *. destruct (decide (w = v)) as [->|Hne].
    + rewrite aget_aset_eq by (by rewrite T2). by rewrite lookup_insert_eq.
    + rewrite aget_aset_ne by done. rewrite lookup_insert_ne by done. by apply T4.
Qed.

Lemma gate_type_cases R v : gate_type R v ∈ [14; 15].
Proof. unfold gate_type. destruct (R !! v) as [[[? []] ?]|]; by repeat constructor. Qed.

Lemma register_int_wp R s v dpl l h name (Q : unit -> intr -> Prop) :
  table_ok R s -> 0 <= v < INTR_CNT -> (v < 0x20 \/ 0x2f < v) -> R !! v = None -> 0 <= dpl < 4 ->
  (forall s', table_ok (<[v := (dpl, l, h)]> R) s' -> Q () s') -> wp (intr_register_int v dpl l h name) Q s.
Proof.
  intros Hs Hv Hi Hn Hd HQ. unfold intr_register_int. wp_step. apply wp_assert; [apply orb_true_iff; rewrite !Z.ltb_lt; lia|].
  eapply wp_mono; [by apply (register_table R)|]. intros [] s' [Hs' _]. by apply HQ.
Qed.

Lemma register_ext_wp R s v h name (Q : unit -> intr -> Prop) :
  table_ok R s -> 0x20 <= v <= 0x2f -> R !! v = None -> (forall s', table_ok (<[v := (0, INTR_OFF, h)]> R) s' -> Q () s') -> wp (intr_register_ext v h name) Q s.
Proof.
  intros Hs Hv Hn HQ. unfold intr_register_ext. wp_step. apply wp_assert; [by rewrite !(proj2 (Z.leb_le _ _)) by lia|].
  eapply wp_mono; [apply (register_table R); [done|unfold INTR_CNT; lia|done|lia]|]. intros [] s' [Hs' _]. by apply HQ.
Qed.

Ltac reg Hs := try wp_step; first [eapply register_int_wp; [exact Hs|unfold INTR_CNT; lia|lia|reflexivity|lia|] | eapply register_ext_wp; [exact Hs|lia|reflexivity|]];
  clear Hs; intros ? Hs.

(** The vectors that user programs can call, and those whose handlers start with
    interrupts on. *)
Definition user_vectors : list Z := [3; 4; 5; 0x30].
Definition trap_vectors : list Z := [0; 1; 3; 4; 5; 6; 7; 11; 12; 13; 16; 19; 0x30].

(** The state before [intr_init]: static variables are 0. *)
Definition fresh (s : intr) : Prop :=
  alen (idt s) = INTR_CNT /\ alen (intr_handlers s) = INTR_CNT /\ forall v, 0 <= v < INTR_CNT -> (intr_handlers s).[v] = Some 0.

(** C1: The kernel's registrations succeed, and afterwards each of the 256 vectors
    enters its own stub in the kernel's code segment.  A user program can call
    exactly the vectors 3, 4, 5 and 0x30, the system call; interrupts are left
    on exactly for the exceptions other than the page fault and for system calls,
    so that external interrupts and page faults start with interrupts off. *)
Theorem kernel_gates s table kill page_fault syscall_handler timer kbd serial ide :
  fresh s ->
  wp (intr_init table;; timer_register timer;; kbd_register kbd;; exception_init kill page_fault;; syscall_init syscall_handler;; serial_register serial;; ide_register ide)
    (fun _ s' => forall v, 0 <= v < INTR_CNT -> exists d dpl type, (idt s').[v] = Some d /\ gate_of d = Gate (intr_stubs v) SEL_KCSEG type dpl 1 /\
      (dpl = 3 <-> v ∈ user_vectors) /\ (type = 15 <-> v ∈ trap_vectors) /\ type ∈ [14; 15]) s.
Proof.
  intros (H1 & H2 & H3). wp_step. eapply wp_mono; [by apply intr_init_table|]. intros [] s1 [Hs _].
  unfold timer_register, kbd_register, exception_init, syscall_init, serial_register, ide_register.
  do 2 reg Hs. wp_step. do 13 reg Hs. do 4 reg Hs. match type of Hs with table_ok ?R _ => set (R0 := R) in * end.
  intros v Hv. destruct (to_gate _ _ Hs v Hv) as (d & Hd & Hg). exists d, (gate_dpl R0 v), (gate_type R0 v). split; [done|]. split; [done|].
  assert (forallb (fun v => Bool.eqb (gate_dpl R0 v =? 3) (bool_decide (v ∈ user_vectors)) && Bool.eqb (gate_type R0 v =? 15) (bool_decide (v ∈ trap_vectors)))
    (seqZ 0 256) = true) as Hall by (vm_compute; reflexivity).
  rewrite forallb_forall in Hall. specialize (Hall v). rewrite <- list_elem_of_In in Hall.
  assert (v ∈ seqZ 0 256) as Hin by (apply elem_of_seqZ; unfold INTR_CNT in Hv; lia). destruct (andb_prop _ _ (Hall Hin)) as [E1%Bool.eqb_prop E2%Bool.eqb_prop].
  split; [by rewrite <- Z.eqb_eq, E1, bool_decide_eq_true|]. split; [by rewrite <- Z.eqb_eq, E2, bool_decide_eq_true|].
  apply gate_type_cases.
Qed.

(** ** External interrupts *)

(** What is sent to the controllers at the end: to the slave for its lines only. *)
Definition acks (vec_no : Z) : list event := Out 0x20 0x20 :: (if 0x28 <=? vec_no then [Out 0xa0 0x20] else []).

(** A handler that a device driver may register: it does not turn interrupts on,
    which [intr_enable] would refuse. *)
Definition polite (h vec_no : Z) : Prop := forall s, in_external_intr s = true -> level s = INTR_OFF ->
  wp (call h vec_no) (fun _ s' => in_external_intr s' = true /\ level s' = INTR_OFF) s.

Lemma unexpected_ok s v (Q : unit -> intr -> Prop) :
  0 <= v < alen (unexpected_cnt s) ->
  (forall c s', (unexpected_cnt s).[v] = Some c -> unexpected_cnt s' = (unexpected_cnt s).[v <- u32 (c + 1)] -> in_external_intr s' = in_external_intr s ->
    level s' = level s -> intr_handlers s' = intr_handlers s ->
    events s' = events s ++ (if Z.land (u32 (c + 1)) (u32 (u32 (c + 1) - 1)) =? 0 then [Unexpected v] else []) -> Q () s') ->
  wp (unexpected_interrupt v) Q s.
Proof.
  intros Hv HQ. destruct (proj1 (aget_is_Some _ _) Hv) as [c Hc]. unfold unexpected_interrupt. wp_step. wp_step. wp_step. eapply wp_deref; [done|]. cbv zeta.
  wp_step. wp_step. case_match eqn:E.
  - apply wp_modify. by apply (HQ c); [..|simpl; rewrite E].
  - wp_step. apply (HQ c); [done..|]. rewrite E. by rewrite app_nil_r.
Qed.

(** C1: An external interrupt that arrives with interrupts off and outside of
    another one runs its handler with interrupts off and marked as an external
    interrupt, tells each controller that delivered it once that it is done, and
    only then gives up the processor, if the handler asked for that.  No
    assertion fails when the handler does not turn interrupts on. *)
Theorem external_interrupt_once s v h :
  0x20 <= v < 0x30 -> in_external_intr s = false -> level s = INTR_OFF -> (intr_handlers s).[v] = Some h -> alen (unexpected_cnt s) = INTR_CNT ->
  (h <> 0 -> polite h v) ->
  wp (intr_handler v) (fun _ s' => exists s1, handled v (set_context true false s) = Ok (tt, s1) /\
    in_external_intr s' = false /\ level s' = INTR_OFF /\ events s' = events s1 ++ acks v ++ (if yield_on_return s1 then [Yield] else [])) s.
Proof.
  intros Hv Hc Hl Hh Hu Hp. unfold intr_handler. rewrite (proj2 (Z.leb_le _ _)), (proj2 (Z.ltb_lt _ _)) by lia. cbn [andb]. cbv zeta.
  assert (wp (handled v) (fun _ s1 => in_external_intr s1 = true /\ level s1 = INTR_OFF) (set_context true false s)) as Hrun.
  { unfold handled. wp_step. wp_step. wp_step. eapply wp_deref; [exact Hh|]. destruct (Z.eqb_spec h 0) as [->|Hz]; simpl.
    - case_match; [by wp_step|]. apply unexpected_ok; [simpl; rewrite Hu; unfold INTR_CNT; lia|]. intros c s' _ _ E1 E2 _ _. rewrite E1, E2. done.
    - by apply Hp. }
  apply wp_iff in Hrun as ([] & s1 & Hrun & E1 & E2).
  wp_step. wp_step. unfold intr_get_level, intr_context. wp_step. rewrite Hl. wp_step. apply wp_assert; [done|]. wp_step. wp_step. rewrite Hc. wp_step.
  apply wp_assert; [done|]. apply wp_modify. wp_step. eapply wp_eq; [exact Hrun|].
  wp_step. wp_step. rewrite E2. wp_step. apply wp_assert; [done|]. wp_step. wp_step. rewrite E1. wp_step. apply wp_assert; [done|]. wp_step. apply wp_modify.
  unfold pic_end_of_interrupt, outb, acks. wp_step. wp_step. apply wp_assert; [by rewrite (proj2 (Z.leb_le _ _)), (proj2 (Z.ltb_lt _ _)) by lia|]. wp_step. apply wp_modify.
  destruct (0x28 <=? v); [apply wp_modify|wp_step]; wp_step; wp_step; cbn [yield_on_return set_context log];
    (destruct (yield_on_return s1) eqn:Ey; [apply wp_modify|wp_step]); exists s1; (split; [done|]); (split; [done|]); (split; [exact E2|]); simpl; by rewrite Ey, <- ?app_assoc.
Qed.

(** ** Unexpected interrupts *)
Fixpoint unexpected_times (k : nat) (v : Z) : M intr unit :=
  match k with O => mret () | S k => unexpected_times k v;; unexpected_interrupt v end.

Lemma log2_step c : 0 <= c < 2 ^ 32 - 1 -> Z.land (u32 (c + 1)) (u32 (u32 (c + 1) - 1)) =? 0 = bool_decide (c = 0 \/ Z.log2 (c + 1) = Z.log2 c + 1).
Proof.
  intros Hc. rewrite !wrap_small by (rewrite ?wrap_small by lia; lia). replace (c + 1 - 1) with c by lia.
  destruct (decide (c = 0)) as [->|Hz]; [done|]. destruct (land_pred_log2 (c + 1) ltac:(lia)) as [[E1 E2]|[E1 E2]]; replace (c + 1 - 1) with c in * by lia.
  - rewrite E1. symmetry. apply bool_decide_eq_true_2. right. rewrite E2 at 1. rewrite Z.log2_pow2 by apply Z.log2_nonneg.
    assert (0 < Z.log2 (c + 1)) by (apply Z.log2_pos; lia). enough (Z.log2 c = Z.pred (Z.log2 (c + 1))) by lia.
    replace c with (Z.pred (c + 1)) at 1 by lia. rewrite E2 at 1. by apply Z.log2_pred_pow2.
  - rewrite (proj2 (Z.eqb_neq _ 0)) by lia. symmetry. apply bool_decide_eq_false_2. intros [?|E]; [done|].
    pose proof (Z.log2_spec c ltac:(lia)) as Hs. pose proof (Z.log2_nonneg c).
    pose proof (land_range (Z.log2 c + 1) c (c + 1) ltac:(lia)) as Hr. rewrite Z.land_comm in Hr.
    assert (Z.log2 (Z.land (c + 1) c) < Z.log2 c + 1) by (apply Z.log2_lt_pow2; lia). lia.
Qed.

(** C1: The messages about unexpected interrupts are few: after [k] interrupts
    without a handler on a vector, with [0 < k < 2^32], exactly [log2 k + 1]
    messages were printed, the first at the first interrupt. *)
Theorem unexpected_messages k s v :
  0 <= v < alen (unexpected_cnt s) -> (unexpected_cnt s).[v] = Some 0 -> 0 < Z.of_nat k < 2 ^ 32 ->
  wp (unexpected_times k v) (fun _ s' => events s' = events s ++ replicate (Z.to_nat (Z.log2 (Z.of_nat k) + 1)) (Unexpected v)) s.
Proof.
  intros Hv H0 Hk. cut (wp (unexpected_times k v) (fun _ s' => (unexpected_cnt s').[v] = Some (Z.of_nat k) /\
    events s' = events s ++ replicate (Z.to_nat (if decide (k = 0%nat) then 0 else Z.log2 (Z.of_nat k) + 1)) (Unexpected v)) s).
  { intros Hw. eapply wp_mono; [exact Hw|]. intros [] s' [_ E]. rewrite decide_False in E by lia. done. }
  destruct Hk as [_ Hk]. induction k as [|k IH]; simpl unexpected_times; [wp_step; by rewrite app_nil_r|].
  wp_step. eapply wp_mono; [apply IH; lia|]. intros [] s1 [Hc He]. apply unexpected_ok; [by apply aget_lt in Hc|]. intros c s' Hc' Ec _ _ _ Ee.
  rewrite Hc in Hc'. injection Hc' as <-. rewrite log2_step in Ee by lia. rewrite Ec, Ee, He. split.
  { rewrite aget_aset_eq by (by apply aget_lt in Hc). rewrite wrap_small by lia. f_equal. lia. }
  rewrite <- app_assoc. f_equal. rewrite (decide_False (P := S k = 0%nat)) by done. rewrite Nat2Z.inj_succ, <- Z.add_1_r.
  pose proof (Z.log2_nonneg (Z.of_nat k)). case_bool_decide as Hb; case_decide as Hz.
  - subst k. done.
  - destruct Hb as [?|Hb]; [lia|]. rewrite Hb. replace (Z.to_nat (Z.log2 (Z.of_nat k) + 1 + 1)) with (Z.to_nat (Z.log2 (Z.of_nat k) + 1) + 1)%nat by lia.
    by rewrite replicate_add.
  - lia.
  - rewrite app_nil_r. f_equal. f_equal. destruct (Z.log2_succ_or (Z.of_nat k)) as [E|E]; rewrite <- Z.add_1_r in E; [|lia]. exfalso. apply Hb. right. lia.
Qed.
End interrupts.

(** ** The machine when it starts *)
Definition demo_intr : intr := Intr (replicate 256 0) (replicate 256 0) (replicate 256 []) (replicate 256 0) false false INTR_OFF [].
Definition demo_stubs (v : Z) : Z := if (0 <=? v) && (v <? 256) then 0xc0020000 + 16 * v else 1.

Lemma demo_stubs_ok v : 0 < demo_stubs v < 2 ^ 32.
Proof. unfold demo_stubs. destruct (Z.leb_spec 0 v), (Z.ltb_spec v 256); simpl; lia. Qed.

Lemma demo_intr_fresh : fresh demo_intr.
Proof. split; [done|]. split; [done|]. intros v Hv. unfold INTR_CNT in Hv. apply aget_Some. split; [lia|]. apply lookup_replicate. split; [done|lia]. Qed.

Lemma kernel_gates_witness :
  wp (intr_init demo_stubs 0xc0040000;; timer_register demo_stubs 100;; kbd_register demo_stubs 200;; exception_init demo_stubs 300 400;;
      syscall_init demo_stubs 500;; serial_register demo_stubs 600;; ide_register demo_stubs 700)
    (fun _ s' => forall v, 0 <= v < INTR_CNT -> exists d dpl type, (idt s').[v] = Some d /\ gate_of d = Gate (demo_stubs v) SEL_KCSEG type dpl 1 /\
      (dpl = 3 <-> v ∈ user_vectors) /\ (type = 15 <-> v ∈ trap_vectors) /\ type ∈ [14; 15]) demo_intr.
Proof. apply (kernel_gates demo_stubs demo_stubs_ok). exact demo_intr_fresh. Defined.

(** A timer interrupt whose handler asks for another thread. *)
Definition demo_call (h vec : Z) : M intr unit := intr_yield_on_return.
Definition demo_timer : intr := set_handler (intr_handlers demo_intr).[0x20 <- 100] (intr_names demo_intr) demo_intr.

Lemma external_interrupt_once_witness :
  wp (intr_handler demo_call 0x20) (fun _ s' => exists s1, handled demo_call 0x20 (set_context true false demo_timer) = Ok (tt, s1) /\
    in_external_intr s' = false /\ level s' = INTR_OFF /\ events s' = events s1 ++ acks 0x20 ++ (if yield_on_return s1 then [Yield] else [])) demo_timer.
Proof.
  apply (external_interrupt_once demo_call demo_timer 0x20 100); [lia|done|done|done|done|]. intros _ s Hc Hl. unfold demo_call, intr_yield_on_return, intr_context.
  wp_step. wp_step. rewrite Hc. wp_step. apply wp_assert; [done|]. apply wp_modify. simpl. done.
Defined.

Lemma unexpected_messages_witness :
  wp (unexpected_times 1000 0x33) (fun _ s' => events s' = replicate 10 (Unexpected 0x33)) demo_intr.
Proof. apply (unexpected_messages 1000 demo_intr 0x33); [done|done|lia]. Defined.
