(* ===== verification/Ide.v ===== *)
(** * ATA disks (src/devices/ide.c)

    The driver talks to a controller through ports.  The controller is hardware:
    a class, [Hardware], has what the processor can do with its ports, and
    another, [AtaLaws], says what the ATA standard promises of them, against a
    view of the controller as registers, a phase of the current command, and the
    sectors of the disks.  Time passes when the driver sleeps or waits for an
    interrupt, and may pass when it reads a status register.

    Theorems: reading and writing a sector is reading and writing the array of
    sectors of the disk, for every sector number the driver accepts; and what
    becomes of the strings in the identity of a disk. *)

From S2P Require Import Prelude Kstdlib Block.

(** ** Hardware *)
Class Hardware (W : Type) := {
  inb : Z -> M W Z;
  outb : Z -> Z -> M W unit;
  insw : Z -> Z -> M W (list Z);     (* so many halfwords, as bytes *)
  outsw : Z -> list Z -> M W unit;
  pause : M W unit;
  interrupt : M W bool               (* until the controller interrupts; false for never *)
}.

(** Registers, relative to the base of a channel. *)
Abbreviation reg_data := 0.
Abbreviation reg_error := 1.
Abbreviation reg_nsect := 2.
Abbreviation reg_lbal := 3.
Abbreviation reg_lbam := 4.
Abbreviation reg_lbah := 5.
Abbreviation reg_device := 6.
Abbreviation reg_status := 7.
Abbreviation reg_ctl := 0x206.

Abbreviation STA_BSY := 0x80.
Abbreviation STA_DRDY := 0x40.
Abbreviation STA_DRQ := 0x08.
Abbreviation CTL_SRST := 0x04.
Abbreviation DEV_MBS := 0xa0.
Abbreviation DEV_LBA := 0x40.
Abbreviation DEV_DEV := 0x10.
Abbreviation CMD_IDENTIFY_DEVICE := 0xec.
Abbreviation CMD_READ_SECTOR_RETRY := 0x20.
Abbreviation CMD_WRITE_SECTOR_RETRY := 0x30.

(** ** The state of the driver *)
Record ata_disk := AtaDisk { dev_no : Z; is_ata : bool }.

Record channel := Channel {
  reg_base : Z;
  irq : Z;
  held : bool;                 (* the lock *)
  expecting_interrupt : bool;
  completion_wait : Z;
  devices : list ata_disk
}.

Inductive message := IdleTimeout | BusyWaiting | BusyOk | BusyFailed | UnexpectedInterrupt | TooLarge (capacity : Z).

(** [found] has the disks that were registered: channel, device, number of
    sectors, and the two strings that are printed. *)
Record ide {W : Type} := Ide {
  hw : W;
  channels : list channel;
  intr_on : bool;
  out : list message;
  found : list (Z * Z * Z * (list Z * list Z))
}.
Arguments ide : clear implicits.

Section driver.
Context {W : Type} `{!Hardware W}.
Abbreviation S_ := (ide W).

Definition on_hw {A} (m : M W A) : M S_ A := fun s =>
  match m (hw s) with Ok (a, w) => Ok (a, Ide W w (channels s) (intr_on s) (out s) (found s)) | Err e => Err e end.
Definition get_channel (c : Z) : M S_ channel := s ← get; deref (channels s).[c].
Definition put_channel (c : Z) (x : channel) : M S_ unit :=
  modify (fun s => Ide W (hw s) (channels s).[c <- x] (intr_on s) (out s) (found s)).
Definition get_disk (c d : Z) : M S_ ata_disk := x ← get_channel c; deref (devices x).[d].
Definition set_is_ata (c d : Z) (b : bool) : M S_ unit :=
  x ← get_channel c;
  k ← deref (devices x).[d];
  put_channel c (Channel (reg_base x) (irq x) (held x) (expecting_interrupt x) (completion_wait x) (devices x).[d <- AtaDisk (dev_no k) b]).
Definition print (m : message) : M S_ unit :=
  modify (fun s => Ide W (hw s) (channels s) (intr_on s) (out s ++ [m]) (found s)).

Definition in_reg (c r : Z) : M S_ Z := x ← get_channel c; on_hw (inb (reg_base x + r)).
Definition out_reg (c r v : Z) : M S_ unit := x ← get_channel c; on_hw (outb (reg_base x + r) (u8 v)).

(** ** Low-level primitives *)
Fixpoint idle_poll (n : nat) (c : Z) : M S_ unit :=
  match n with
  | O => print IdleTimeout
  | S n => v ← in_reg c reg_status; if Z.land v (Z.lor STA_BSY STA_DRQ) =? 0 then mret () else on_hw pause;; idle_poll n c
  end.
Definition wait_until_idle (c : Z) : M S_ unit := idle_poll 1000 c.

Fixpoint busy_poll (n : nat) (i c : Z) : M S_ bool :=
  match n with
  | O => print BusyFailed;; mret false
  | S n =>
    (if i =? 700 then print BusyWaiting else mret ());;
    v ← in_reg c reg_ctl;
    if Z.land v STA_BSY =? 0 then
      (if 700 <=? i then print BusyOk else mret ());;
      v ← in_reg c reg_ctl;
      mret (negb (Z.land v STA_DRQ =? 0))
    else on_hw pause;; busy_poll n (i + 1) c
  end.
Definition wait_while_busy (c : Z) : M S_ bool := busy_poll 3000 0 c.

Definition select_device (c d : Z) : M S_ unit :=
  k ← get_disk c d;
  let dev := if dev_no k =? 1 then Z.lor DEV_MBS DEV_DEV else DEV_MBS in
  out_reg c reg_device dev;;
  _ ← in_reg c reg_ctl;
  on_hw pause.

Definition select_device_wait (c d : Z) : M S_ unit :=
  wait_until_idle c;; select_device c d;; wait_until_idle c.

Definition select_sector (c d sec_no : Z) : M S_ unit :=
  assert (sec_no <? 2 ^ 28);;
  select_device_wait c d;;
  out_reg c reg_nsect 1;;
  out_reg c reg_lbal sec_no;;
  out_reg c reg_lbam (Z.shiftr sec_no 8);;
  out_reg c reg_lbah (Z.shiftr sec_no 16);;
  k ← get_disk c d;
  out_reg c reg_device (Z.lor (Z.lor (Z.lor DEV_MBS DEV_LBA) (if dev_no k =? 1 then DEV_DEV else 0)) (Z.shiftr sec_no 24)).

Definition issue_pio_command (c command : Z) : M S_ unit :=
  s ← get;
  assert (intr_on s);;
  x ← get_channel c;
  put_channel c (Channel (reg_base x) (irq x) (held x) true (completion_wait x) (devices x));;
  out_reg c reg_status command.

Definition input_sector (c : Z) : M S_ (list Z) := x ← get_channel c; on_hw (insw (reg_base x + reg_data) (BLOCK_SECTOR_SIZE / 2)).
Definition output_sector (c : Z) (sector : list Z) : M S_ unit := x ← get_channel c; on_hw (outsw (reg_base x + reg_data) sector).

(** ** Interrupts *)
Definition set_completion (c n : Z) : M S_ unit :=
  x ← get_channel c; put_channel c (Channel (reg_base x) (irq x) (held x) (expecting_interrupt x) n (devices x)).

(** The channel of a vector, from channel [c] on. *)
Fixpoint handle_vec (l : list channel) (c vec_no : Z) : M S_ unit :=
  match l with
  | [] => fail AssertFail
  | x :: l =>
    if vec_no =? irq x then
      if expecting_interrupt x then _ ← in_reg c reg_status; set_completion c (completion_wait x + 1) else print UnexpectedInterrupt
    else handle_vec l (c + 1) vec_no
  end.
Definition interrupt_handler (vec_no : Z) : M S_ unit := s ← get; handle_vec (channels s) 0 vec_no.

(** [sema_down (&c->completion_wait)]: while the semaphore is 0 the thread waits
    for an interrupt; [n] bounds how many it waits for. *)
Fixpoint await (n : nat) (c : Z) : M S_ unit :=
  x ← get_channel c;
  if 0 <? completion_wait x then set_completion c (completion_wait x - 1)
  else match n with
       | O => fail NoFuel
       | S n => b ← on_hw interrupt; if b : bool then interrupt_handler (irq x);; await n c else fail NoFuel
       end.
Definition sema_down (c : Z) : M S_ unit := await 2 c.

Definition lock_acquire (c : Z) : M S_ unit :=
  x ← get_channel c; if held x then fail NoFuel else put_channel c (Channel (reg_base x) (irq x) true (expecting_interrupt x) (completion_wait x) (devices x)).
Definition lock_release (c : Z) : M S_ unit :=
  x ← get_channel c; assert (held x);; put_channel c (Channel (reg_base x) (irq x) false (expecting_interrupt x) (completion_wait x) (devices x)).

(** ** Reading and writing *)
Definition ide_read (c d sec_no : Z) : M S_ (list Z) :=
  lock_acquire c;;
  select_sector c d sec_no;;
  issue_pio_command c CMD_READ_SECTOR_RETRY;;
  sema_down c;;
  ok ← wait_while_busy c;
  if negb ok then fail PanicHalt else
  buffer ← input_sector c;
  lock_release c;;
  mret buffer.

Definition ide_write (c d sec_no : Z) (buffer : list Z) : M S_ unit :=
  lock_acquire c;;
  select_sector c d sec_no;;
  issue_pio_command c CMD_WRITE_SECTOR_RETRY;;
  ok ← wait_while_busy c;
  if negb ok then fail PanicHalt else
  output_sector c buffer;;
  sema_down c;;
  lock_release c.

(** ** Detection *)
Definition probe (c d : Z) : M S_ bool :=
  select_device c d;;
  out_reg c reg_nsect 0x55;; out_reg c reg_lbal 0xaa;;
  out_reg c reg_nsect 0xaa;; out_reg c reg_lbal 0x55;;
  out_reg c reg_nsect 0x55;; out_reg c reg_lbal 0xaa;;
  n ← in_reg c reg_nsect;
  if n =? 0x55 then l ← in_reg c reg_lbal; mret (l =? 0xaa) else mret false.

Fixpoint slave_poll (n : nat) (c : Z) : M S_ unit :=
  match n with
  | O => mret ()
  | S n =>
    v ← in_reg c reg_nsect;
    b ← (if v =? 1 then l ← in_reg c reg_lbal; mret (l =? 1) else mret false);
    if b : bool then mret () else on_hw pause;; slave_poll n c
  end.

Definition reset_channel (c : Z) : M S_ unit :=
  p0 ← probe c 0;
  p1 ← probe c 1;
  out_reg c reg_ctl 0;; on_hw pause;;
  out_reg c reg_ctl CTL_SRST;; on_hw pause;;
  out_reg c reg_ctl 0;; on_hw pause;;
  (if p0 : bool then select_device c 0;; _ ← wait_while_busy c; mret () else mret ());;
  if p1 : bool then select_device c 1;; slave_poll 3000 c;; _ ← wait_while_busy c; mret () else mret ().

Definition check_device_type (c d : Z) : M S_ bool :=
  select_device c d;;
  error ← in_reg c reg_error;
  lbam ← in_reg c reg_lbam;
  lbah ← in_reg c reg_lbah;
  status ← in_reg c reg_status;
  k ← get_disk c d;
  if (negb (error =? 1) && (negb (error =? 0x81) || (dev_no k =? 1))) || (Z.land status STA_DRDY =? 0) || negb (Z.land status STA_BSY =? 0)
  then set_is_ata c d false;; mret (negb (error =? 0x81))
  else set_is_ata c d (((lbam =? 0) && (lbah =? 0)) || ((lbam =? 0x3c) && (lbah =? 0xc3)));; mret true.

(** The bytes of a string of an identity, in pairs the other way round, up to the
    last character that is not white; the terminator is not part of the result. *)
Fixpoint swap_pairs (l : list Z) : list Z :=
  match l with x :: y :: l => y :: x :: swap_pairs l | _ => l end.
Fixpoint trim_length (l : list Z) (size : nat) : nat :=
  match size with
  | O => O
  | S n => let c := default 0 (l !! n) in if negb (c =? 0) && negb (isspace c) then size else trim_length l n
  end.
Definition descramble_ata_string (string : list Z) (size : nat) : list Z :=
  let l := swap_pairs (take size string) in take (trim_length l (size - 1)) l.

(** The new block device, the disk, is searched for partitions (Partition.v); the
    search reads sectors of the disk with [ide_read]. *)
Variable partition_scan : Z -> Z -> M S_ unit.

Definition identify_ata_device (c d : Z) : M S_ unit :=
  k ← get_disk c d;
  assert (is_ata k);;
  select_device_wait c d;;
  issue_pio_command c CMD_IDENTIFY_DEVICE;;
  sema_down c;;
  ok ← wait_while_busy c;
  if negb ok then set_is_ata c d false else
  id ← input_sector c;
  let capacity := word_at id 120 in
  let model := descramble_ata_string (drop 20 id) 20 in
  let serial := descramble_ata_string (drop 54 id) 40 in
  if 1024 * 1024 * 1024 / BLOCK_SECTOR_SIZE <=? capacity then print (TooLarge capacity);; set_is_ata c d false
  else modify (fun s => Ide W (hw s) (channels s) (intr_on s) (out s) (found s ++ [(c, d, capacity, (model, serial))]));; partition_scan c d.

Definition ide_init_channel (c : Z) : M S_ unit :=
  '(base, vec) ← (if c =? 0 then mret (0x1f0, 14 + 0x20) else if c =? 1 then mret (0x170, 15 + 0x20) else fail AssertFail);
  put_channel c (Channel base vec false false 0 [AtaDisk 0 false; AtaDisk 1 false]);;
  reset_channel c;;
  b ← check_device_type c 0;
  (if b : bool then _ ← check_device_type c 1; mret () else mret ());;
  k0 ← get_disk c 0;
  (if is_ata k0 then identify_ata_device c 0 else mret ());;
  k1 ← get_disk c 1;
  if is_ata k1 then identify_ata_device c 1 else mret ().

Definition ide_init : M S_ unit := for_ 2 0 ide_init_channel.
End driver.

(** ** What the standard promises *)

(** A command takes time ([Busy k]: over after at most [k + 1] pauses), and then the
    controller has data for the driver, wants data, or is idle again. *)
Inductive phase := Idle | DataIn (l : list Z) | DataOut (dev lba : Z) | Busy (k : nat) (p : phase).

Definition settled (p : phase) : phase := match p with Busy _ q => q | _ => p end.

(** Time passes; a pause takes some. *)
Definition later (p p' : phase) : Prop :=
  match p with Busy k q => p' = q \/ exists j, (j <= k)%nat /\ p' = Busy j q | _ => p' = p end.
Definition after_pause (p p' : phase) : Prop :=
  match p with Busy k q => p' = q \/ exists j, (j < k)%nat /\ p' = Busy j q | _ => p' = p end.

Definition busy (p : phase) : bool := match p with Busy _ _ => true | _ => false end.
Definition drq (p : phase) : bool := match p with DataIn _ | DataOut _ _ => true | _ => false end.

(** A value of the status register. *)
Definition status_of (p : phase) (v : Z) : Prop := Z.testbit v 7 = busy p /\ (busy p = false -> Z.testbit v 3 = drq p).

(** The controller of a channel: registers, phase, and the sectors of its disks. *)
Record ata := Ata { regs : Z -> Z; ph : phase; media : Z -> option (list (list Z)); identity : Z -> list Z }.

Definition set_ph (p : phase) (a : ata) : ata := Ata (regs a) p (media a) (identity a).
Definition set_reg (r v : Z) (a : ata) : ata := Ata (fun q => if decide (q = r) then v else regs a q) (ph a) (media a) (identity a).
Definition set_sector (dev lba : Z) (l : list Z) (a : ata) : ata :=
  Ata (regs a) (ph a) (fun e => if decide (e = dev) then (fun m => m.[lba <- l]) <$> media a dev else media a e) (identity a).

(** The device and the sector that the registers select. *)
Definition sel_dev (a : ata) : Z := if Z.testbit (regs a reg_device) 4 then 1 else 0.
Definition sel_lba (a : ata) : Z :=
  regs a reg_lbal + 2 ^ 8 * regs a reg_lbam + 2 ^ 16 * regs a reg_lbah + 2 ^ 24 * Z.land (regs a reg_device) 15.

(** The phase a command leads to, for one sector in LBA mode. *)
Definition response (a : ata) (command : Z) : option phase :=
  l ← media a (sel_dev a);
  if command =? CMD_IDENTIFY_DEVICE then Some (DataIn (identity a (sel_dev a)))
  else if negb (Z.testbit (regs a reg_device) 6 && (regs a reg_nsect =? 1)) then None
  else data ← l.[sel_lba a];
       if command =? CMD_READ_SECTOR_RETRY then Some (DataIn data)
       else if command =? CMD_WRITE_SECTOR_RETRY then Some (DataOut (sel_dev a) (sel_lba a)) else None.

(** A command is over within so many pauses, which is 30 seconds. *)
Definition patience : nat := 2998.

Class AtaLaws (W : Type) `{!Hardware W} (base : Z) := {
  view : W -> ata;
  status_law w r : r = reg_status \/ r = reg_ctl ->
    wp (inb (base + r)) (fun v w' => exists p, later (ph (view w)) p /\ view w' = set_ph p (view w) /\ status_of p v) w;
  pause_law w : wp pause (fun _ w' => exists p, after_pause (ph (view w)) p /\ view w' = set_ph p (view w)) w;
  reg_law w r v : ph (view w) = Idle -> reg_nsect <= r <= reg_device -> 0 <= v < 256 ->
    wp (outb (base + r) v) (fun _ w' => view w' = set_reg r v (view w)) w;
  command_law w v p : ph (view w) = Idle -> response (view w) v = Some p ->
    wp (outb (base + reg_status) v) (fun _ w' => exists k, (k <= patience)%nat /\ view w' = set_ph (Busy k p) (view w)) w;
  irq_law w k p : ph (view w) = Busy k p -> busy p = false -> drq p = false \/ (exists l, p = DataIn l) ->
    wp interrupt (fun b w' => b = true /\ view w' = set_ph p (view w)) w;
  in_law w l : ph (view w) = DataIn l -> wp (insw (base + reg_data) (BLOCK_SECTOR_SIZE / 2)) (fun r w' => r = l /\ view w' = set_ph Idle (view w)) w;
  out_law w dev lba l : ph (view w) = DataOut dev lba -> length l = SECTOR ->
    wp (outsw (base + reg_data) l) (fun _ w' => exists k, (k <= patience)%nat /\ view w' = set_sector dev lba l (set_ph (Busy k Idle) (view w))) w
}.

(** ** The driver on such hardware *)
Section correct.
Context {W : Type} `{!Hardware W} {base : Z} `{!AtaLaws W base}.
Abbreviation S_ := (ide W).
Implicit Types s : S_.

(** The only channel with its interrupt. *)
Definition own_irq (c : Z) (x : channel) (s : S_) : Prop := forall i y, (channels s).[i] = Some y -> irq y = irq x -> i = c.

(** Channel [c] between two requests of the driver. *)
Record chan_ok (c : Z) (s : S_) : Prop := {
  co_chan : exists x, (channels s).[c] = Some x /\ reg_base x = base /\ held x = false /\ completion_wait x = 0 /\ own_irq c x s /\
    forall d, d = 0 \/ d = 1 -> exists k, (devices x).[d] = Some k /\ dev_no k = d;
  co_intr : intr_on s = true;
  co_idle : ph (view (hw s)) = Idle
}.

Lemma on_hw_wp {A} (m : M W A) (Q : A -> S_ -> Prop) s :
  wp m (fun a w => Q a (Ide W w (channels s) (intr_on s) (out s) (found s))) (hw s) -> wp (on_hw m) Q s.
Proof. unfold wp, on_hw. by destruct (m (hw s)) as [[a w]|]. Qed.

Lemma get_channel_ok c x s : (channels s).[c] = Some x -> get_channel c s = Ok (x, s).
Proof. intros E. unfold get_channel, mbind, M_bind, get. by rewrite E. Qed.

(** What the steps of a request keep: everything but the controller and the
    messages. *)
Definition with_hw (w : W) (o : list message) (s : S_) : S_ := Ide W w (channels s) (intr_on s) o (found s).

Lemma status_wp c x r s (Q : Z -> S_ -> Prop) :
  (channels s).[c] = Some x -> reg_base x = base -> r = reg_status \/ r = reg_ctl ->
  (forall v w p, later (ph (view (hw s))) p -> view w = set_ph p (view (hw s)) -> status_of p v -> Q v (with_hw w (out s) s)) ->
  wp (in_reg c r) Q s.
Proof.
  intros Hx Hb Hr HQ. unfold in_reg. wp_step. eapply wp_eq; [by apply get_channel_ok|]. apply on_hw_wp. rewrite Hb.
  eapply wp_mono; [by apply status_law|]. intros v w (p & H1 & H2 & H3). by apply (HQ v w p).
Qed.

Lemma status_busy v : (Z.land v STA_BSY =? 0) = negb (Z.testbit v 7).
Proof. exact (land_bit_zero v 7 ltac:(lia)). Qed.

Lemma status_drq v : (Z.land v STA_DRQ =? 0) = negb (Z.testbit v 3).
Proof. exact (land_bit_zero v 3 ltac:(lia)). Qed.

Lemma status_idle v : (Z.land v (Z.lor STA_BSY STA_DRQ) =? 0) = negb (Z.testbit v 7) && negb (Z.testbit v 3).
Proof.
  rewrite <- status_busy, <- status_drq, Z.land_lor_distr_r. apply eq_bool_prop_intro. rewrite andb_True, !Is_true_true, !Z.eqb_eq. apply Z.lor_eq_0_iff.
Qed.

(** An idle controller is found idle at once. *)
Lemma wait_until_idle_wp c x s (Q : unit -> S_ -> Prop) :
  (channels s).[c] = Some x -> reg_base x = base -> ph (view (hw s)) = Idle ->
  (forall w, view w = view (hw s) -> Q () (with_hw w (out s) s)) -> wp (wait_until_idle c) Q s.
Proof.
  intros Hx Hb Hp HQ. unfold wait_until_idle. change 1000%nat with (S 999). simpl idle_poll. wp_step. eapply status_wp; [done..|by left|].
  intros v w p Hl Hv [H1 H2]. rewrite Hp in Hl. simpl in Hl. subst p. rewrite status_idle, H1, H2 by done. simpl. wp_step. apply HQ. rewrite Hv. unfold set_ph. rewrite <- Hp. by destruct (view (hw s)).
Qed.

(** A settled controller stays as it is. *)
Lemma later_settled p p' : busy p = false -> later p p' -> p' = p.
Proof. by destruct p. Qed.

Lemma set_ph_same p a : ph a = p -> set_ph p a = a.
Proof. intros <-. by destruct a. Qed.

Lemma maybe_print_wp (b : bool) m s (Q : unit -> S_ -> Prop) : (forall o, Q () (with_hw (hw s) o s)) -> wp (if b then print m else mret ()) Q s.
Proof. intros HQ. destruct b; [apply wp_modify; apply (HQ (out s ++ [m]))|]. wp_step. specialize (HQ (out s)). by destruct s. Qed.

Definition over_within (p : phase) (n : nat) (q : phase) : Prop := (q = p /\ (0 < n)%nat) \/ exists j, q = Busy j p /\ (S j < n)%nat.

Lemma settled_poll_wp c x s p i (Q : bool -> S_ -> Prop) :
  (channels s).[c] = Some x -> reg_base x = base -> busy p = false -> ph (view (hw s)) = p ->
  (forall w o, view w = view (hw s) -> Q (drq p) (with_hw w o s)) ->
  wp ((if 700 <=? i then print BusyOk else mret ());; v ← in_reg c reg_ctl; mret (negb (Z.land v STA_DRQ =? 0))) Q s.
Proof.
  intros Hx Hb Hp Hv HQ. wp_step. apply maybe_print_wp. intros o. wp_step. eapply status_wp; [done..|by right|]. intros v w p1 Hl Ew [Hs1 Hs2]. simpl in Hl, Ew.
  rewrite Hv in Hl. apply later_settled in Hl as ->; [|done]. rewrite set_ph_same in Ew by done. wp_step. rewrite status_drq, Hs2, negb_involutive by done. by apply HQ.
Qed.

(** A busy controller is found settled before the driver gives up. *)
Lemma busy_poll_wp c x s p n i (Q : bool -> S_ -> Prop) :
  (channels s).[c] = Some x -> reg_base x = base -> busy p = false -> over_within p n (ph (view (hw s))) ->
  (forall w o, view w = set_ph p (view (hw s)) -> Q (drq p) (with_hw w o s)) -> wp (busy_poll n i c) Q s.
Proof.
  intros Hx Hb Hp. revert i s Hx. induction n as [|n IH]; intros i s Hx Hq HQ; [destruct Hq as [[_ ?]|(? & _ & ?)]; lia|]. simpl busy_poll. wp_step. apply maybe_print_wp. intros o. wp_step. eapply status_wp; [done..|by right|]. intros v w p1 Hl Ew [Hs1 Hs2]. simpl in Hl, Ew. rewrite status_busy, Hs1.
  assert (p1 = p \/ exists j, p1 = Busy j p /\ (S j < S n)%nat) as [->|(j & -> & Hj)].
  { destruct Hq as [[E Hn]|(j & E & Hj)]; rewrite E in Hl; [left; by apply later_settled|]. destruct Hl as [->|(m & Hm & ->)]; [by left|]. right. exists m. split; [done|lia]. }
  - rewrite Hp. simpl negb. cbv iota. eapply (settled_poll_wp c x _ p); [done..|by simpl; rewrite Ew|]. intros w' o' Ew'. simpl in Ew'. apply (HQ w' o'). by rewrite Ew', Ew.
  - simpl negb. cbv iota. wp_step. apply on_hw_wp. eapply wp_mono; [apply pause_law|]. intros [] w1 (p2 & Hp2 & Ew1). simpl in Hp2, Ew1. rewrite Ew in Hp2. simpl in Hp2.
    apply IH; [done| |].
    + simpl. rewrite Ew1. simpl. destruct Hp2 as [->|(m & Hm & ->)]; [left; split; [done|lia]|right; exists m; split; [done|lia]].
    + intros w' o' Ew'. simpl in Ew'. apply (HQ w' o'). rewrite Ew', Ew1, Ew. done.
Qed.

(** ** The steps of a request *)
Lemma out_reg_wp c x r v s (Q : unit -> S_ -> Prop) :
  (channels s).[c] = Some x -> reg_base x = base -> ph (view (hw s)) = Idle -> reg_nsect <= r <= reg_device ->
  (forall w, view w = set_reg r (u8 v) (view (hw s)) -> Q () (with_hw w (out s) s)) -> wp (out_reg c r v) Q s.
Proof.
  intros Hx Hb Hp Hr HQ. unfold out_reg. wp_step. eapply wp_eq; [by apply get_channel_ok|]. apply on_hw_wp. rewrite Hb.
  eapply wp_mono; [apply reg_law; [done|done|exact (wrap_range 8 v ltac:(lia))]|]. intros [] w Ew. by apply HQ.
Qed.

Lemma get_disk_ok c d x k s : (channels s).[c] = Some x -> (devices x).[d] = Some k -> get_disk c d s = Ok (k, s).
Proof. intros Hx Hk. unfold get_disk. rewrite (bind_eq _ _ _ x s) by (by apply get_channel_ok). by rewrite Hk. Qed.

Lemma select_device_wait_wp c d x k s (Q : unit -> S_ -> Prop) :
  (channels s).[c] = Some x -> reg_base x = base -> (devices x).[d] = Some k -> ph (view (hw s)) = Idle ->
  (forall w v, view w = set_reg reg_device v (view (hw s)) -> Q () (with_hw w (out s) s)) -> wp (select_device_wait c d) Q s.
Proof.
  intros Hx Hb Hk Hp HQ. unfold select_device_wait, select_device. wp_step. eapply wait_until_idle_wp; [done..|]. intros w1 E1. wp_step. wp_step.
  eapply wp_eq; [by apply (get_disk_ok c d x k)|]. cbv zeta. wp_step. eapply out_reg_wp; [done|done|by simpl; rewrite E1|lia|]. intros w2 E2. simpl in E2. rewrite E1 in E2.
  wp_step. eapply status_wp; [done..|by right|]. intros v w3 p Hl E3 _. simpl in Hl, E3. rewrite E2 in Hl, E3. simpl in Hl. rewrite Hp in Hl. simpl in Hl. subst p. rewrite set_ph_same in E3 by done.
  apply on_hw_wp. eapply wp_mono; [apply pause_law|]. intros [] w4 (p & Ha & E4). simpl in Ha, E4. rewrite E3 in Ha, E4. simpl in Ha. rewrite Hp in Ha. simpl in Ha. subst p. rewrite set_ph_same in E4 by done.
  eapply wait_until_idle_wp; [done..|by simpl; rewrite E4|]. intros w5 E5. simpl in E5. rewrite E4 in E5. by apply (HQ w5 _ E5).
Qed.

(** The registers select sector [sec] of device [d]. *)
Record selects (d sec : Z) (a a' : ata) : Prop := {
  se_dev : sel_dev a' = d;
  se_lba : sel_lba a' = sec;
  se_mode : Z.testbit (regs a' reg_device) 6 && (regs a' reg_nsect =? 1) = true;
  se_idle : ph a' = Idle;
  se_media : media a' = media a
}.

(** The byte in the device register. *)
Lemma device_byte d h : (d = 0 \/ d = 1) -> 0 <= h < 16 ->
  let v := u8 (Z.lor (Z.lor (Z.lor DEV_MBS DEV_LBA) (if d =? 1 then DEV_DEV else 0)) h) in
  Z.testbit v 4 = (d =? 1) /\ Z.testbit v 6 = true /\ Z.land v 15 = h.
Proof.
  intros Hd Hh. assert (h ∈ seqZ 0 16) as Hin by (apply elem_of_seqZ; lia). cbn in Hin.
  destruct Hd as [-> | ->]; repeat (apply elem_of_cons in Hin as [-> | Hin]; [done|]); by apply elem_of_nil in Hin.
Qed.

Lemma sector_bytes sec : 0 <= sec < 2 ^ 28 ->
  u8 sec + 2 ^ 8 * u8 (Z.shiftr sec 8) + 2 ^ 16 * u8 (Z.shiftr sec 16) + 2 ^ 24 * Z.shiftr sec 24 = sec /\ 0 <= Z.shiftr sec 24 < 16.
Proof.
  intros Hs. rewrite !Z.shiftr_div_pow2 by lia. unfold wrap. change (2 ^ 8) with 256. change (2 ^ 16) with 65536. change (2 ^ 24) with 16777216.
  pose proof (Z.div_mod sec 256 ltac:(lia)). pose proof (Z.div_mod (sec / 256) 256 ltac:(lia)). pose proof (Z.div_mod (sec / 65536) 256 ltac:(lia)).
  rewrite !Z.div_div in * by lia. change (256 * 256) with 65536 in *. change (65536 * 256) with 16777216 in *.
  split; [lia|]. split; [apply Z.div_pos; lia|]. apply Z.div_lt_upper_bound; lia.
Qed.

Lemma select_sector_wp c d x k sec s (Q : unit -> S_ -> Prop) :
  (channels s).[c] = Some x -> reg_base x = base -> (devices x).[d] = Some k -> dev_no k = d -> (d = 0 \/ d = 1) -> ph (view (hw s)) = Idle -> 0 <= sec < 2 ^ 28 ->
  (forall w, selects d sec (view (hw s)) (view w) -> Q () (with_hw w (out s) s)) -> wp (select_sector c d sec) Q s.
Proof.
  intros Hx Hb Hk Hd Hd01 Hp Hs HQ. destruct (sector_bytes sec Hs) as [Esec Hh]. destruct (device_byte d _ Hd01 Hh) as (D1 & D2 & D3).
  unfold select_sector. wp_step. apply wp_assert; [apply Z.ltb_lt; lia|]. wp_step. eapply select_device_wait_wp; [done..|]. intros w0 v0 E0.
  wp_step. eapply out_reg_wp; [done|done|by simpl; rewrite E0|done|]. intros w1 E1. simpl in E1.
  wp_step. eapply out_reg_wp; [done|done|by simpl; rewrite E1, E0|done|]. intros w2 E2. simpl in E2.
  wp_step. eapply out_reg_wp; [done|done|by simpl; rewrite E2, E1, E0|done|]. intros w3 E3. simpl in E3.
  wp_step. eapply out_reg_wp; [done|done|by simpl; rewrite E3, E2, E1, E0|done|]. intros w4 E4. simpl in E4.
  wp_step. eapply wp_eq; [by apply (get_disk_ok c d x k)|]. rewrite Hd.
  eapply out_reg_wp; [done|done|by simpl; rewrite E4, E3, E2, E1, E0|done|]. intros w5 E5. simpl in E5. apply HQ. rewrite E5, E4, E3, E2, E1, E0.
  split; unfold sel_dev, sel_lba; cbn [set_reg regs ph media]; rewrite ?(decide_True (P := reg_device = reg_device)) by done.
  - rewrite D1. destruct Hd01 as [-> | ->]; done.
  - rewrite D3. exact Esec.
  - rewrite D2. done.
  - done.
  - done.
Qed.

(** The state with other values in channel [c]. *)
Definition upd_chan (c : Z) (x : channel) (w : W) (o : list message) (s : S_) : S_ := Ide W w (channels s).[c <- x] (intr_on s) o (found s).
Definition expects (x : channel) : channel := Channel (reg_base x) (irq x) (held x) true (completion_wait x) (devices x).
Definition with_completion (n : Z) (x : channel) : channel := Channel (reg_base x) (irq x) (held x) (expecting_interrupt x) n (devices x).
Definition with_held (b : bool) (x : channel) : channel := Channel (reg_base x) (irq x) b (expecting_interrupt x) (completion_wait x) (devices x).

Lemma issue_wp c x s v p (Q : unit -> S_ -> Prop) :
  (channels s).[c] = Some x -> reg_base x = base -> intr_on s = true -> ph (view (hw s)) = Idle -> response (view (hw s)) v = Some p -> 0 <= v < 256 ->
  (forall w k, (k <= patience)%nat -> view w = set_ph (Busy k p) (view (hw s)) -> Q () (upd_chan c (expects x) w (out s) s)) ->
  wp (issue_pio_command c v) Q s.
Proof.
  intros Hx Hb Hi Hp Hr Hv HQ. pose proof (aget_lt _ _ _ Hx). unfold issue_pio_command. wp_step. wp_step. wp_step. apply wp_assert; [done|]. wp_step. eapply wp_eq; [by apply get_channel_ok|].
  wp_step. apply wp_modify. unfold out_reg. wp_step. eapply wp_eq; [apply get_channel_ok; simpl; by apply aget_aset_eq|]. apply on_hw_wp. simpl. rewrite Hb, wrap_small by lia.
  eapply wp_mono; [by apply (command_law _ v p)|]. intros [] w (k & Hk & Ew). rewrite <- Hb at 1. by apply (HQ w k).
Qed.

Lemma handle_vec_wp l c0 c x s (Q : unit -> S_ -> Prop) :
  c0 <= c -> l !! Z.to_nat (c - c0) = Some x -> (forall i y, l !! i = Some y -> irq y = irq x -> c0 + Z.of_nat i = c) -> expecting_interrupt x = true ->
  wp (_ ← in_reg c reg_status; set_completion c (completion_wait x + 1)) Q s -> wp (handle_vec l c0 (irq x)) Q s.
Proof.
  revert c0. induction l as [|y l IH]; intros c0 Hc Hx Hu He HQ; [done|]. simpl. destruct (Z.eqb_spec (irq x) (irq y)) as [E|Hne].
  - pose proof (Hu 0%nat y eq_refl (eq_sym E)). assert (c0 = c) as -> by lia. rewrite Z.sub_diag in Hx. injection Hx as ->. by rewrite He.
  - assert (c0 <> c) by (intros ->; rewrite Z.sub_diag in Hx; injection Hx as ->; done). apply IH; [lia| |intros i z Hz Ez; specialize (Hu (S i) z Hz Ez); lia|done..].
    by replace (Z.to_nat (c - c0)) with (S (Z.to_nat (c - (c0 + 1)))) in Hx by lia.
Qed.

Lemma sema_down_wp c x s k p (Q : unit -> S_ -> Prop) :
  (channels s).[c] = Some x -> reg_base x = base -> expecting_interrupt x = true -> completion_wait x = 0 -> own_irq c x s ->
  ph (view (hw s)) = Busy k p -> drq p = false \/ (exists l, p = DataIn l) -> busy p = false ->
  (forall w, view w = set_ph p (view (hw s)) -> Q () (upd_chan c x w (out s) s)) -> wp (sema_down c) Q s.
Proof.
  intros Hx Hb He Hz Hu Hp Hd Hs HQ. pose proof (aget_lt _ _ _ Hx). unfold sema_down. simpl await. wp_step. eapply wp_eq; [by apply get_channel_ok|]. rewrite Hz. change (0 <? 0) with false. cbv iota.
  wp_step. apply on_hw_wp. eapply wp_mono; [by apply (irq_law _ k p)|]. intros b w [-> Ew]. cbv iota. wp_step. unfold interrupt_handler. wp_step. wp_step.
  eapply (handle_vec_wp _ 0 c x); [lia| |intros i y Hy Ey; rewrite Z.add_0_l; apply (Hu (Z.of_nat i) y); [apply aget_Some; split; [lia|by rewrite Nat2Z.id]|done]|done|].
  { rewrite Z.sub_0_r. simpl. by apply aget_Some in Hx as [_ Hx]. }
  wp_step. eapply status_wp; [done..|by left|]. intros v w1 p1 Hl E1 _. simpl in Hl, E1. rewrite Ew in Hl, E1. simpl in Hl. apply later_settled in Hl as ->; [|done].
  unfold set_completion. wp_step. eapply wp_eq; [by apply get_channel_ok|]. apply wp_modify. rewrite Hz. cbv beta.
  wp_step. eapply wp_eq; [apply get_channel_ok; simpl; by apply aget_aset_eq|]. simpl. wp_step. eapply wp_eq; [apply get_channel_ok; simpl; by apply aget_aset_eq|]. apply wp_modify. simpl.
  rewrite aset_aset. specialize (HQ w1). unfold upd_chan in HQ. destruct x as [x1 x2 x3 x4 x5 x6]. simpl in *. rewrite Hz in HQ. apply HQ. by rewrite E1.
Qed.

(** ** Requests *)
Inductive request := Read (sec : Z) | Write (sec : Z) (data : list Z).

Definition run_request (c d : Z) (r : request) : M S_ (list Z) :=
  match r with Read sec => ide_read c d sec | Write sec data => ide_write c d sec data;; mret data end.

(** A disk as an array of sectors: what a request returns and leaves. *)
Definition request_spec (r : request) (l : list (list Z)) : option (list Z * list (list Z)) :=
  match r with
  | Read sec => data ← l.[sec]; Some (data, l)
  | Write sec data => _ ← l.[sec]; Some (data, l.[sec <- data])
  end.

(** The driver takes sector numbers of 28 bits and sectors of 512 bytes. *)
Definition request_ok (r : request) : Prop :=
  match r with Read sec => 0 <= sec < 2 ^ 28 | Write sec data => 0 <= sec < 2 ^ 28 /\ length data = SECTOR end.

(** Disk [d] of channel [c] has the sectors [l]; [m] are those of all disks. *)
Definition disk_ok (c : Z) (m : Z -> option (list (list Z))) (s : S_) : Prop := chan_ok c s /\ forall e, media (view (hw s)) e = m e.

Lemma chan_ok_upd c x s w o :
  chan_ok c s -> (channels s).[c] = Some x -> ph (view w) = Idle ->
  chan_ok c (upd_chan c (with_held false (expects x)) w o s).
Proof.
  intros [(x' & Hx' & H1 & H2 & H3 & H4 & H5) Hi _] Hx Hp. rewrite Hx in Hx'. injection Hx' as <-. pose proof (aget_lt _ _ _ Hx). split; [|done|done].
  exists (with_held false (expects x)). split; [simpl; by apply aget_aset_eq|]. split; [done|]. split; [done|]. split; [done|]. split; [|done].
  intros i y Hy Ey. simpl in Hy. destruct (decide (i = c)) as [|Hne]; [done|]. rewrite aget_aset_ne in Hy by done. by apply (H4 i y).
Qed.

Lemma lock_release_wp c x s (Q : unit -> S_ -> Prop) :
  (channels s).[c] = Some x -> held x = true -> Q () (upd_chan c (with_held false x) (hw s) (out s) s) -> wp (lock_release c) Q s.
Proof.
  intros Hx Hh HQ. unfold lock_release. wp_step. eapply wp_eq; [by apply get_channel_ok|]. wp_step. apply wp_assert; [done|]. by apply wp_modify.
Qed.

(** The common start of a request: lock, selection, command. *)
Lemma request_start c d s l sec v p (m : M S_ (list Z)) (Q : list Z -> S_ -> Prop) x k :
  chan_ok c s -> (channels s).[c] = Some x -> (devices x).[d] = Some k -> dev_no k = d -> (d = 0 \/ d = 1) -> 0 <= sec < 2 ^ 28 -> 0 <= v < 256 -> media (view (hw s)) d = Some l ->
  (forall a, selects d sec (view (hw s)) a -> response a v = Some p) ->
  (forall w j, (j <= patience)%nat -> ph (view w) = Busy j p -> media (view w) = media (view (hw s)) -> wp m Q (upd_chan c (expects (with_held true x)) w (out s) s)) ->
  wp (lock_acquire c;; select_sector c d sec;; issue_pio_command c v;; m) Q s.
Proof.
  intros [(x' & Hx' & H1 & H2 & H3 & H4 & H5) Hi Hidle] Hx Hk Hd Hd01 Hs Hv Hm Hr HQ. rewrite Hx in Hx'. injection Hx' as <-. pose proof (aget_lt _ _ _ Hx) as Hc.
  unfold lock_acquire. wp_step. wp_step. eapply wp_eq; [by apply get_channel_ok|]. rewrite H2. apply wp_modify. wp_step.
  eapply (select_sector_wp c d (with_held true x) k sec); [simpl; by apply aget_aset_eq|done..|]. intros w Hsel. simpl in Hsel. wp_step.
  eapply (issue_wp c (with_held true x) _ v p); [simpl; by apply aget_aset_eq|done|done|apply Hsel|by apply Hr|done|]. intros w1 j Hj Ew. simpl in Ew.
  unfold upd_chan. simpl. rewrite aset_aset. apply (HQ w1 j Hj); rewrite Ew; [done|]. simpl. apply Hsel.
Qed.

Lemma response_read d sec a0 a l data : selects d sec a0 a -> media a0 d = Some l -> l.[sec] = Some data -> response a CMD_READ_SECTOR_RETRY = Some (DataIn data).
Proof. intros [S1 S2 S3 _ S5] Hm Hd. unfold response. rewrite S1, S2, S3, S5, Hm. simpl. by rewrite Hd. Qed.

Lemma response_write d sec a0 a l data : selects d sec a0 a -> media a0 d = Some l -> l.[sec] = Some data -> response a CMD_WRITE_SECTOR_RETRY = Some (DataOut d sec).
Proof. intros [S1 S2 S3 _ S5] Hm Hd. unfold response. rewrite S1, S2, S3, S5, Hm. simpl. by rewrite Hd. Qed.

Lemma over_within_patience p j : (j <= patience)%nat -> over_within p 3000 (Busy j p).
Proof. intros Hj. right. exists j. split; [done|]. unfold patience in Hj. lia. Qed.

Lemma ide_read_ok c d m l sec data s :
  disk_ok c m s -> (d = 0 \/ d = 1) -> m d = Some l -> 0 <= sec < 2 ^ 28 -> l.[sec] = Some data ->
  wp (ide_read c d sec) (fun r s' => r = data /\ disk_ok c m s') s.
Proof.
  intros [Hok Hm] Hd01 Hl Hs Hdata. pose proof Hok as [(x & Hx & H1 & H2 & H3 & H4 & H5) Hi Hidle]. destruct (H5 d Hd01) as (k & Hk & Hd). pose proof (aget_lt _ _ _ Hx) as Hc.
  unfold ide_read. eapply (request_start c d s l sec _ (DataIn data) _ _ x k); [done..|by rewrite Hm|intros a Ha; eapply response_read; [exact Ha|by rewrite Hm|done]|].
  intros w j Hj Hp Hmed. wp_step. eapply (sema_down_wp c (expects (with_held true x)) _ j (DataIn data)); [simpl; by apply aget_aset_eq|done|done|done| |done|right; by eexists|done|].
  { intros i y Hy Ey. simpl in Hy. destruct (decide (i = c)) as [|Hne]; [done|]. rewrite aget_aset_ne in Hy by done. by apply (H4 i y). }
  intros w1 E1. simpl in E1. wp_step. eapply (busy_poll_wp c (expects (with_held true x)) _ (DataIn data)); [simpl; rewrite aset_aset; by apply aget_aset_eq|done|done|left; split; [by simpl; rewrite E1|lia]|].
  intros w2 o2 E2. simpl in E2. simpl negb. cbv iota. wp_step. unfold input_sector. wp_step. eapply wp_eq; [apply get_channel_ok; simpl; rewrite aset_aset; by apply aget_aset_eq|].
  apply on_hw_wp. simpl reg_base. rewrite H1. eapply wp_mono; [apply (in_law _ data); simpl; by rewrite E2|]. intros r w3 [-> E3]. simpl in E3. wp_step.
  eapply (lock_release_wp c (expects (with_held true x))); [simpl; rewrite aset_aset; by apply aget_aset_eq|done|]. wp_step. split; [done|].
  unfold upd_chan. simpl. rewrite !aset_aset. split; [apply (chan_ok_upd c x s w3 o2 Hok Hx); by rewrite E3|]. intros e. simpl. rewrite E3, E2, E1. simpl. rewrite Hmed. apply Hm.
Qed.

Lemma request_assoc {A B} (m1 m2 m3 : M S_ unit) (m4 : M S_ A) (m5 : M S_ B) (Q : B -> S_ -> Prop) s :
  wp (m1;; m2;; m3;; (m4;; m5)) Q s -> wp ((m1;; m2;; m3;; m4);; m5) Q s.
Proof. unfold wp, mbind, M_bind. destruct (m1 s) as [[? s1]|]; [|done]. destruct (m2 s1) as [[? s2]|]; [|done]. by destruct (m3 s2) as [[? s3]|]. Qed.

Lemma ide_write_ok c d m l sec data s :
  disk_ok c m s -> (d = 0 \/ d = 1) -> m d = Some l -> 0 <= sec < alen l -> sec < 2 ^ 28 -> length data = SECTOR ->
  wp (ide_write c d sec data;; mret data) (fun r s' => r = data /\ disk_ok c (fun e => if decide (e = d) then Some l.[sec <- data] else m e) s') s.
Proof.
  intros [Hok Hm] Hd01 Hl Hs Hs28 Hlen. pose proof Hok as [(x & Hx & H1 & H2 & H3 & H4 & H5) Hi Hidle]. destruct (H5 d Hd01) as (k & Hk & Hd). pose proof (aget_lt _ _ _ Hx) as Hc.
  destruct (proj1 (aget_is_Some l sec) Hs) as [old Hold].
  unfold ide_write. apply request_assoc.
  eapply (request_start c d s l sec _ (DataOut d sec) _ _ x k); [done..|lia|done|by rewrite Hm|intros a Ha; eapply response_write; [exact Ha|by rewrite Hm|done]|].
  intros w j Hj Hp Hmed. wp_step. wp_step. eapply (busy_poll_wp c (expects (with_held true x)) _ (DataOut d sec)); [simpl; by apply aget_aset_eq|done|done|simpl; rewrite Hp; by apply over_within_patience|].
  intros w1 o1 E1. simpl in E1. simpl negb. cbv iota. wp_step. unfold output_sector. wp_step. eapply wp_eq; [apply get_channel_ok; simpl; by apply aget_aset_eq|].
  apply on_hw_wp. simpl reg_base. rewrite H1. eapply wp_mono; [apply (out_law _ d sec data); [simpl; by rewrite E1|done]|]. intros [] w2 (j2 & Hj2 & E2). simpl in E2.
  wp_step. eapply (sema_down_wp c (expects (with_held true x)) _ j2 Idle); [simpl; by apply aget_aset_eq|done|done|done| |by simpl; rewrite E2|by left|done|].
  { intros i y Hy Ey. simpl in Hy. destruct (decide (i = c)) as [|Hne]; [done|]. rewrite aget_aset_ne in Hy by done. by apply (H4 i y). }
  intros w3 E3. simpl in E3. eapply (lock_release_wp c (expects (with_held true x))); [simpl; rewrite aset_aset; by apply aget_aset_eq|done|]. wp_step. split; [done|].
  unfold upd_chan. simpl. rewrite !aset_aset. split; [apply (chan_ok_upd c x s w3 o1 Hok Hx); by rewrite E3|].
  intros e. simpl. rewrite E3, E2, E1. simpl. rewrite Hmed. destruct (decide (e = d)) as [->|Hne]; [|apply Hm]. rewrite Hm, Hl. done.
Qed.

(** C1: On a controller that does what the ATA standard says, every request for a
    sector of a disk that the driver accepts, a read or a write, returns, and is
    the read or the write of that element of the array of sectors of the disk;
    the other disk of the channel is as it was, and the channel is ready for the
    next request. *)
Theorem ide_refines c d m l r data l' s :
  disk_ok c m s -> (d = 0 \/ d = 1) -> m d = Some l -> request_ok r -> request_spec r l = Some (data, l') ->
  wp (run_request c d r) (fun r' s' => r' = data /\ disk_ok c (fun e => if decide (e = d) then Some l' else m e) s') s.
Proof.
  intros Hok Hd Hl Hr Hspec. destruct r as [sec|sec dat]; simpl in *.
  - destruct (l.[sec]) as [x|] eqn:Ex; simplify_eq/=. eapply wp_mono; [by apply (ide_read_ok c d m l' sec data)|]. intros r s' [-> [H1 H2]]. split; [done|]. split; [done|].
    intros e. case_decide as E; [subst e; by rewrite H2|apply H2].
  - destruct (l.[sec]) as [x|] eqn:Ex; simplify_eq/=. pose proof (aget_lt _ _ _ Ex). destruct Hr as [Hr Hlen]. apply ide_write_ok; (done || lia).
Qed.
End correct.

(** ** A controller *)

(** The first channel, with a controller whose commands take three pauses; nothing
    answers at other ports. *)
Module Sim.
Definition base : Z := 0x1f0.

(** A device that is not there is never ready. *)
Definition status (a : ata) : Z :=
  match ph a with Busy _ _ => 0x80 | DataIn _ | DataOut _ _ => 0x48 | Idle => if media a (sel_dev a) then 0x40 else 0 end.

Definition tick (p : phase) : phase := match p with Busy O q => q | Busy (S k) q => Busy k q | _ => p end.
Definition finish (p : phase) : option phase :=
  match p with Busy _ (Idle as q) | Busy _ (DataIn _ as q) => Some q | _ => None end.

(** The registers after a reset: the signature of a disk. *)
Definition reset_regs : Z -> Z := fun r => if (r =? reg_error) || (r =? reg_nsect) || (r =? reg_lbal) then 1 else 0.

Definition inb (p : Z) : M ata Z :=
  a ← get;
  if (p =? base + reg_status) || (p =? base + reg_ctl) then mret (status a)
  else mret (if (base <=? p) && (p <? base + reg_status) then regs a (p - base) else 0xff).

Definition outb (p v : Z) : M ata unit :=
  a ← get;
  if p =? base + reg_status then
    (match response a v with Some q => put (set_ph (Busy 3 q) a) | None => mret () end)
  else if p =? base + reg_ctl then (if v =? CTL_SRST then put (Ata reset_regs Idle (media a) (identity a)) else mret ())
  else if (base + reg_nsect <=? p) && (p <=? base + reg_device) then put (set_reg (p - base) v a) else mret ().

Definition insw (p n : Z) : M ata (list Z) :=
  a ← get; match ph a with DataIn l => put (set_ph Idle a);; mret l | _ => mret [] end.
Definition outsw (p : Z) (l : list Z) : M ata unit :=
  a ← get; match ph a with DataOut dev lba => put (set_sector dev lba l (set_ph (Busy 3 Idle) a)) | _ => mret () end.
Definition pause : M ata unit := modify (fun a => set_ph (tick (ph a)) a).
Definition interrupt : M ata bool :=
  a ← get; match finish (ph a) with Some q => put (set_ph q a);; mret true | None => mret false end.

#[local] Instance sim_hardware : Hardware ata := {| Ide.inb := inb; Ide.outb := outb; Ide.insw := insw; Ide.outsw := outsw; Ide.pause := pause; Ide.interrupt := interrupt |}.

Lemma status_ok a : status_of (ph a) (status a).
Proof. unfold status. destruct (ph a); [by destruct (media a (sel_dev a))|done..]. Qed.

#[local] Program Instance sim_laws : AtaLaws ata base := {| view := id |}.
Next Obligation.
  intros a r Hr. simpl. unfold inb. wp_step. wp_step.
  assert ((base + r =? base + reg_status) || (base + r =? base + reg_ctl) = true) as -> by (by destruct Hr as [-> | ->]).
  wp_step. exists (ph a). split; [|split; [by destruct a|apply status_ok]]. destruct (ph a); simpl; [done..|]. right. eexists. split; [|done]. done.
Qed.
Next Obligation.
  intros a. simpl. unfold pause. apply wp_modify. exists (tick (ph a)). split; [|done]. destruct (ph a) as [| | |[|k] q]; simpl; [done..|by left|]. right. exists k. split; [lia|done].
Qed.
Next Obligation.
  intros a r v Hp Hr Hv. simpl. unfold outb. wp_step. wp_step.
  rewrite !(proj2 (Z.eqb_neq _ _)) by (unfold base; lia). rewrite (proj2 (Z.leb_le _ _)) by (unfold base; lia). rewrite (proj2 (Z.leb_le _ _)) by (unfold base; lia). simpl.
  wp_step. by replace (base + r - base) with r by lia.
Qed.
Next Obligation.
  intros a v p Hp Hr. simpl. unfold outb. wp_step. wp_step. rewrite Z.eqb_refl. change (id a) with a in Hr. rewrite Hr. wp_step. exists 3%nat. split; [unfold patience; lia|done].
Qed.
Next Obligation.
  intros a k p Hp Hb Hd. simpl. unfold interrupt. wp_step. wp_step. change (id a) with a in Hp. rewrite Hp.
  assert (finish (Busy k p) = Some p) as -> by (destruct p; [done|done| |done]; destruct Hd as [|[]]; done). by repeat wp_step.
Qed.
Next Obligation.
  intros a l Hp. simpl. unfold insw. wp_step. wp_step. change (id a) with a in Hp. rewrite Hp. by repeat wp_step.
Qed.
Next Obligation.
  intros a dev lba l Hp Hl. simpl. unfold outsw. wp_step. wp_step. change (id a) with a in Hp. rewrite Hp. wp_step. exists 3%nat. split; [unfold patience; lia|done].
Qed.

(** A disk of four sectors, found by the driver. *)
Definition words (l : list (Z * Z)) : list Z := List.map (fun i => match list_find (fun p => p.1 = Z.of_nat i) l with Some (_, p) => p.2 | None => 0 end) (seq 0 SECTOR).
Definition fill (x : Z) : list Z := replicate SECTOR x.
Definition disk : list (list Z) := [fill 0; fill 1; fill 2; fill 3].
Definition controller : ata := Ata reset_regs Idle (fun d => if decide (d = 0) then Some disk else None) (fun _ => words [(120, 4); (55, 81); (54, 69)]).
Definition power_on : ide ata := Ide ata controller [Channel 0 0 false false 0 []; Channel 0 0 false false 0 []] true [] [].

Definition booted : ide ata := match ide_init (fun _ _ => mret ()) power_on with Ok (_, s) => s | Err _ => power_on end.

Lemma booted_channels : channels booted = [Channel base 46 false true 0 [AtaDisk 0 true; AtaDisk 1 false]; Channel 0x170 47 false false 0 [AtaDisk 0 false; AtaDisk 1 false]].
Proof. vm_compute. reflexivity. Qed.

Lemma booted_media e : media (hw booted) e = media controller e.
Proof. vm_compute. reflexivity. Qed.

Lemma booted_intr : intr_on booted = true.
Proof. vm_compute. reflexivity. Qed.

Lemma booted_idle : ph (hw booted) = Idle.
Proof. vm_compute. reflexivity. Qed.

#[local] Opaque booted.

Lemma booted_ok : disk_ok (base := base) 0 (media controller) booted.
Proof.
  split; [split|]; [|exact booted_intr|exact booted_idle|exact booted_media]. eexists. unfold own_irq. rewrite booted_channels.
  split; [reflexivity|]. split; [done|]. split; [done|]. split; [done|]. split.
  - intros i y Hy Ei. apply aget_Some in Hy as [Hi Hy]. destruct (Z.to_nat i) as [|[|n]] eqn:En; [lia| |by destruct n]. injection Hy as <-. done.
  - intros d [-> | ->]; eexists; (split; [reflexivity|done]).
Qed.

(** The disk that start-up finds, read and written at sector 2. *)
Lemma ide_refines_witness :
  wp (run_request 0 0 (Read 2)) (fun r _ => r = fill 2) booted /\
  wp (run_request 0 0 (Write 2 (fill 7))) (fun _ s' => media (hw s') 0 = Some [fill 0; fill 1; fill 7; fill 3]) booted.
Proof.
  pose proof (ide_refines (base := base) 0 0 _ disk (Read 2) (fill 2) disk booted booted_ok (or_introl eq_refl) eq_refl ltac:(simpl; lia) eq_refl) as H1.
  pose proof (ide_refines (base := base) 0 0 _ disk (Write 2 (fill 7)) (fill 7) _ booted booted_ok (or_introl eq_refl) eq_refl ltac:(simpl; split; [lia|done]) eq_refl) as H2.
  split.
  - eapply wp_mono; [exact H1|]. by intros r s [-> _].
  - eapply wp_mono; [exact H2|]. intros r s [_ [_ Hm]]. exact (Hm 0).
Defined.
End Sim.

(** ** The strings of the identity *)

(** The string in the order of its characters, padded with blanks to the field. *)
Definition blank (c : Z) : bool := (c =? 0) || isspace c.

Lemma trim_length_spec l n : (n <= length l)%nat ->
  let k := trim_length l n in (k <= n)%nat /\ (forall i x, (k <= i < n)%nat -> l !! i = Some x -> blank x = true) /\ (k <> O -> exists x, l !! (k - 1)%nat = Some x /\ blank x = false).
Proof.
  induction n as [|n IH]; intros Hn; cbv zeta; simpl; [split; [done|]; split; [lia|done]|].
  destruct (lookup_lt_is_Some_2 l n) as [c Hc]; [lia|]. rewrite Hc. simpl. destruct (negb (c =? 0) && negb (isspace c)) eqn:E.
  - split; [done|]. split; [lia|]. intros _. exists c. simpl. rewrite Nat.sub_0_r. split; [done|]. unfold blank. apply andb_true_iff in E as [E1 E2]. apply negb_true_iff in E1, E2. by rewrite E1, E2.
  - destruct (IH ltac:(lia)) as (H1 & H2 & H3). split; [lia|]. split; [|done]. intros i x Hi Hx. destruct (decide (i = n)) as [->|Hne]; [|apply (H2 i x); [lia|done]].
    rewrite Hc in Hx. injection Hx as <-. unfold blank. destruct (c =? 0), (isspace c); done.
Qed.

Lemma swap_pairs_twice n l : (length l <= n)%nat -> swap_pairs (swap_pairs l) = l /\ length (swap_pairs l) = length l.
Proof.
  revert l. induction n as [|n IH]; intros l Hl; [by destruct l; simpl in Hl; [|lia]|]. destruct l as [|x [|y l]]; [done..|]. simpl in *.
  destruct (IH l ltac:(lia)) as [E1 E2]. by rewrite E1, E2.
Qed.

(** C1: A string of the identity of a disk, of which the standard has the bytes of
    each halfword the other way round and pads the field with blanks, comes out as
    it is where there is padding; but a string that fills its field always loses
    its last character, with nothing said. *)
Theorem ata_string_round_trip s p :
  Forall (fun c => blank c = true) p -> (forall c, last s = Some c -> blank c = false) ->
  let r := descramble_ata_string (swap_pairs (s ++ p)) (length (s ++ p)) in
  (p <> [] -> r = s) /\ (p = [] -> s <> [] -> (length r < length s)%nat).
Proof.
  intros Hp Hs. cbv zeta. unfold descramble_ata_string. destruct (swap_pairs_twice _ (s ++ p) ltac:(done)) as [E1 E2].
  rewrite (firstn_all2 (swap_pairs (s ++ p))), E1 by lia. destruct (trim_length_spec (s ++ p) (length (s ++ p) - 1)) as (H1 & H2 & H3); [lia|]. rewrite length_app in *. split.
  - intros Hne. assert (0 < length p)%nat by (destruct p; [done|simpl; lia]). set (k := trim_length _ _) in *.
    enough (k = length s) as -> by (by rewrite take_app_length). destruct (Nat.lt_trichotomy k (length s)) as [Hk|[Hk|Hk]]; [|done|].
    + exfalso. destruct (lookup_lt_is_Some_2 s (length s - 1)) as [c Hc]; [lia|]. assert (last s = Some c) as Hl by (rewrite last_lookup; by replace (pred (length s)) with (length s - 1)%nat by lia).
      specialize (H2 (length s - 1)%nat c ltac:(lia)). rewrite lookup_app_l in H2 by lia. specialize (H2 Hc). rewrite (Hs c Hl) in H2. done.
    + exfalso. destruct H3 as (c & Hc & Hb); [lia|]. rewrite lookup_app_r in Hc by lia. rewrite Forall_lookup in Hp. rewrite (Hp _ _ Hc) in Hb. done.
  - intros -> Hne. rewrite length_take, length_app. simpl in *. assert (0 < length s)%nat by (destruct s; [done|simpl; lia]). lia.
Qed.

(** The names of two disks: six characters in a field of eight, and in one of six. *)
Lemma ata_string_round_trip_witness :
  let s := [81; 69; 77; 85; 32; 72] in
  descramble_ata_string (swap_pairs (s ++ [32; 32])) 8 = s /\ descramble_ata_string (swap_pairs s) 6 = [81; 69; 77; 85].
Proof.
  split; [|vm_compute; reflexivity].
  refine (proj1 (ata_string_round_trip [81; 69; 77; 85; 32; 72] [32; 32] _ _) _); [repeat constructor| |done]. intros c Hc. simpl in Hc. by simplify_eq.
Defined.
