(* ===== verification/Timer.v ===== *)
(** * The timer (src/devices/timer.c, src/devices/pit.c)

    The state adds the tick counter and the calibration to the state of the
    interrupt system (Interrupt.v) and of the scheduler (Thread.v), which the
    timer interrupt drives.  Time is the processor's: [rate] iterations of a
    waiting loop take one period of the timer, which is the assumption that the
    code makes when it measures it.  What happens while a thread has yielded is a
    parameter of [timer_sleep].

    Theorems: the timer chip counts the nearest number of its cycles; what the
    calibration finds, and how far from the speed of the machine that can be; a
    delay is as long as asked up to rounding; a thread that sleeps wakes, and not
    before its time. *)

From S2P Require Import Prelude Thread Gdt Interrupt.

Definition TIMER_FREQ : Z := 100.
Definition PIT_HZ : Z := 1193180.

(** ** The timer chip *)
Definition pit_count (frequency : Z) : Z :=
  if frequency <? 19 then 0
  else if PIT_HZ <? frequency then 2
  else u16 ((PIT_HZ + frequency / 2) / frequency).

Definition pit_configure_channel (channel mode frequency : Z) : M intr unit :=
  assert ((channel =? 0) || (channel =? 2));;
  assert ((mode =? 2) || (mode =? 3));;
  let count := pit_count frequency in
  old_level ← intr_disable;
  outb 0x43 (u8 (Z.lor (Z.lor (Z.shiftl channel 6) 0x30) (Z.shiftl mode 1)));;
  outb (0x40 + channel) (u8 count);;
  outb (0x40 + channel) (u8 (Z.shiftr count 8));;
  _ ← intr_set_level old_level;
  mret ().

(** ** State *)
Record timer := Timer {
  ticks : Z;
  loops_per_tick : Z;
  phase : Z;                  (* loops since the chip last raised its interrupt *)
  kernel : kst;
  machine : intr
}.

Definition set_ticks (n : Z) (s : timer) : timer := Timer n (loops_per_tick s) (phase s) (kernel s) (machine s).
Definition set_loops (n : Z) (s : timer) : timer := Timer (ticks s) n (phase s) (kernel s) (machine s).
Definition set_phase (n : Z) (s : timer) : timer := Timer (ticks s) (loops_per_tick s) n (kernel s) (machine s).
Definition on_kernel {A} (m : M kst A) : M timer A := fun s =>
  match m (kernel s) with Ok (a, k) => Ok (a, Timer (ticks s) (loops_per_tick s) (phase s) k (machine s)) | Err e => Err e end.
Definition on_machine {A} (m : M intr A) : M timer A := fun s =>
  match m (machine s) with Ok (a, i) => Ok (a, Timer (ticks s) (loops_per_tick s) (phase s) (kernel s) i) | Err e => Err e end.

Definition timer_init (intr_stubs : Z -> Z) (timer_interrupt : Z) : M timer unit :=
  on_machine (pit_configure_channel 0 2 TIMER_FREQ;; timer_register intr_stubs timer_interrupt).

Definition timer_interrupt : M timer unit :=
  modify (fun s => set_ticks (s64 (ticks s + 1)) s);;
  on_kernel thread_tick.

Definition timer_ticks : M timer Z :=
  old_level ← on_machine intr_disable;
  t ← gets ticks;
  _ ← on_machine (intr_set_level old_level);
  mret t.

Definition timer_elapsed (then_ : Z) : M timer Z := t ← timer_ticks; mret (s64 (t - then_)).

Section timer.
Context (rate : Z).

(** One turn of a waiting loop.  The interrupt of the chip is taken when
    interrupts are on, and otherwise lost. *)
Definition barrier : M timer unit :=
  s ← get;
  if phase s + 1 <? rate then put (set_phase (phase s + 1) s)
  else put (set_phase 0 s);; if decide (level (machine s) = INTR_ON) then timer_interrupt else mret ().

Definition busy_wait (loops : Z) : M timer unit := for_ (Z.to_nat loops) 0 (fun _ => barrier).

(** [while (ticks == start) barrier ();]: the chip raises its interrupt within
    [rate] turns. *)
Definition next_tick (start : Z) : M timer unit :=
  loop (S (Z.to_nat rate)) (fun _ : unit => s ← get; if ticks s =? start then barrier;; mret (inl ()) else mret (inr ())) ().

Definition too_many_loops (loops : Z) : M timer bool :=
  start ← gets ticks;
  next_tick start;;
  start ← gets ticks;
  busy_wait loops;;
  t ← gets ticks;
  mret (negb (start =? t)).

(** Doubling: at most 22 times, for then the counter is 0. *)
Definition double_turn (_ : unit) : M timer (unit + unit) :=
  l ← gets loops_per_tick;
  b ← too_many_loops (u32 (Z.shiftl l 1));
  if b : bool then mret (inr ()) else
  modify (set_loops (u32 (Z.shiftl l 1)));;
  l ← gets loops_per_tick;
  assert (negb (l =? 0));;
  mret (inl ()).

(** The refinement, with [test_bit] from [high_bit >> 1] on. *)
Definition refine_turn (high_bit : Z) (test_bit : Z) : M timer (Z + unit) :=
  if test_bit =? Z.shiftr high_bit 10 then mret (inr ()) else
  b ← too_many_loops (Z.lor high_bit test_bit);
  (if negb b then modify (fun s => set_loops (Z.lor (loops_per_tick s) test_bit) s) else mret ());;
  mret (inl (Z.shiftr test_bit 1)).

Definition timer_calibrate : M timer unit :=
  l ← on_machine intr_get_level;
  assert (bool_decide (l = INTR_ON));;
  modify (set_loops (2 ^ 10));;
  loop 23 double_turn ();;
  high_bit ← gets loops_per_tick;
  loop 32 (refine_turn high_bit) (Z.shiftr high_bit 1).

(** ** Delays *)
Definition delay_loops (l num denom : Z) : Z :=
  Z.quot (s64 (Z.quot (s64 (l * num)) 1000 * TIMER_FREQ)) (Z.quot denom 1000).

Definition real_time_delay (num denom : Z) : M timer unit :=
  assert (Z.rem denom 1000 =? 0);;
  l ← gets loops_per_tick;
  busy_wait (delay_loops l num denom).

(** ** Sleeping *)
Context (thread_yield : M timer unit).

Definition sleep_turn (start t : Z) (_ : unit) : M timer (unit + unit) :=
  e ← timer_elapsed start;
  if e <? t then thread_yield;; mret (inl ()) else mret (inr ()).

Definition timer_sleep (fuel : nat) (t : Z) : M timer unit :=
  start ← timer_ticks;
  l ← on_machine intr_get_level;
  assert (bool_decide (l = INTR_ON));;
  loop fuel (sleep_turn start t) ().

Definition sleep_ticks (num denom : Z) : Z := Z.quot (s64 (num * TIMER_FREQ)) denom.

Definition real_time_sleep (fuel : nat) (num denom : Z) : M timer unit :=
  let t := sleep_ticks num denom in
  l ← on_machine intr_get_level;
  assert (bool_decide (l = INTR_ON));;
  if 0 <? t then timer_sleep fuel t else real_time_delay num denom.

Definition timer_msleep (fuel : nat) (ms : Z) : M timer unit := real_time_sleep fuel ms 1000.
Definition timer_usleep (fuel : nat) (us : Z) : M timer unit := real_time_sleep fuel us (1000 * 1000).
Definition timer_nsleep (fuel : nat) (ns : Z) : M timer unit := real_time_sleep fuel ns (1000 * 1000 * 1000).
Definition timer_mdelay (ms : Z) : M timer unit := real_time_delay ms 1000.
Definition timer_udelay (us : Z) : M timer unit := real_time_delay us (1000 * 1000).
Definition timer_ndelay (ns : Z) : M timer unit := real_time_delay ns (1000 * 1000 * 1000).
End timer.

(** ** The chip *)

(** C1: For a frequency from 19 Hz to that of the chip, the counter that
    [pit_configure_channel] loads, low byte first, fits its 16 bits, is not the 0
    that the chip takes for 65536, and is the number of cycles nearest to the
    period asked for; the interrupt flag is as before.  Above two thirds of the
    frequency of the chip, however, the count is 1, which mode 2 does not allow. *)
Theorem pit_count_nearest channel mode f s :
  channel = 0 \/ channel = 2 -> mode = 2 \/ mode = 3 -> in_external_intr s = false -> 19 <= f <= PIT_HZ ->
  let n := pit_count f in
  wp (pit_configure_channel channel mode f) (fun _ s' => level s' = level s /\
    events s' = events s ++ [Out 0x43 (64 * channel + 0x30 + 2 * mode); Out (0x40 + channel) (n mod 256); Out (0x40 + channel) (n / 256)]) s /\
  0 < n < 2 ^ 16 /\ 2 * Z.abs (n * f - PIT_HZ) <= f /\ (n = 1 <-> 795454 <= f).
Proof.
  intros Hc Hm He Hf. cbv zeta.
  assert (pit_count f = u16 ((PIT_HZ + f / 2) / f)) as Ef by (unfold pit_count; by rewrite (proj2 (Z.ltb_ge _ _)), (proj2 (Z.ltb_ge _ _)) by lia). unfold PIT_HZ in *.
  set (q := (1193180 + f / 2) / f). pose proof (Z.div_mod f 2 ltac:(lia)) as D1. pose proof (Z.mod_pos_bound f 2 ltac:(lia)).
  pose proof (Z.div_mod (1193180 + f / 2) f ltac:(lia)) as D2. pose proof (Z.mod_pos_bound (1193180 + f / 2) f ltac:(lia)). fold q in D2, Ef.
  assert (0 < q < 2 ^ 16) as Hq by (change (2 ^ 16) with 65536; nia). rewrite (wrap_small 16) in Ef by lia. rewrite Ef. split; [|split; [done|split; [nia|split; intros; nia]]].
  unfold pit_configure_channel. rewrite Ef. wp_step. apply wp_assert; [by destruct Hc as [-> | ->]|]. wp_step. apply wp_assert; [by destruct Hm as [-> | ->]|].
  assert (u8 (Z.lor (Z.lor (Z.shiftl channel 6) 48) (Z.shiftl mode 1)) = 64 * channel + 48 + 2 * mode) as -> by (by destruct Hc as [-> | ->], Hm as [-> | ->]).
  assert (u8 (Z.shiftr q 8) = q / 256) as -> by (rewrite Z.shiftr_div_pow2 by lia; apply wrap_small; change (2 ^ 8) with 256; change (2 ^ 16) with 65536 in Hq; split; [apply Z.div_pos; lia|apply Z.div_lt_upper_bound; lia]).
  unfold intr_set_level, intr_enable, intr_disable, intr_get_level, intr_context, outb, wp, mbind, M_bind, modify, gets, mret, M_ret. simpl.
  destruct (decide (level s = INTR_ON)) as [El|El]; simpl; rewrite ?He; simpl; rewrite <- !app_assoc; [by rewrite El|by destruct (level s)].
Qed.

Lemma pit_count_nearest_witness : exists s, wp (pit_configure_channel 0 2 TIMER_FREQ) (fun _ s' => events s' = [Out 0x43 0x34; Out 0x40 0x9c; Out 0x40 0x2e]) s.
Proof.
  exists (Intr [] [] [] [] false false INTR_OFF []). destruct (pit_count_nearest 0 2 TIMER_FREQ (Intr [] [] [] [] false false INTR_OFF [])) as [H _]; [by left|by left|done|unfold TIMER_FREQ, PIT_HZ; lia|].
  eapply wp_mono; [exact H|]. intros _ s' [_ ->]. done.
Defined.

(** ** Time *)

(** The running thread is the only one that could run. *)
Definition alone (k : kst) : Prop :=
  ready_list k = [] /\ current k <> idle_thread k /\ exists x, threads k !! current k = Some x /\ status x = THREAD_RUNNING.

Lemma thread_tick_alone k : alone k -> wp thread_tick (fun _ k' => alone k') k.
Proof.
  intros (Hr & Hi & x & Hx & Hs). assert (thread_current k = Ok (current k, k)) as Hcur by (unfold thread_current, get_thread, get, deref, mbind, M_bind; rewrite Hx; simpl; by rewrite Hs).
  unfold thread_tick. wp_step. wp_step. wp_step. eapply wp_eq; [exact Hcur|]. wp_step. apply wp_modify. case_match; [|by wp_step; split_and!; eauto].
  destruct x as [st ct pa ch rv]. simpl in Hs. subst st. unfold thread_yield. apply wp_bind. cbv beta.  eapply wp_eq; [unfold thread_current, get_thread, get, deref, mbind, M_bind; simpl; by rewrite Hx|].
  unfold set_status, schedule, next_thread_to_run, thread_schedule_tail, set_status, get_thread, put_thread, wp, mbind, M_bind, get, put, modify, deref, assert. simpl.
  rewrite (proj2 (Z.eqb_neq _ _)) by done. simpl. rewrite Hx. simpl. rewrite Hr. simpl. rewrite !lookup_insert_eq. simpl. rewrite bool_decide_true by (rewrite lookup_insert_eq; by eexists). rewrite Z.eqb_refl. simpl. rewrite lookup_insert_eq. simpl.
  split; [done|]. split; [done|]. eexists. split; [apply lookup_insert_eq|done].
Qed.

Lemma get_level_wp (Q : intr_level -> timer -> Prop) s : Q (level (machine s)) s -> wp (on_machine intr_get_level) Q s.
Proof. intros H. unfold wp, on_machine, intr_get_level, gets. by destruct s. Qed.

Section time.
Context (rate : Z) (Hrate : 1 <= rate).

Record running (s : timer) : Prop := {
  ru_phase : 0 <= phase s < rate;
  ru_ticks : s64 (ticks s) = ticks s;
  ru_on : level (machine s) = INTR_ON;
  ru_alone : alone (kernel s)
}.

(** After [n] turns of a waiting loop. *)
Record after (n : Z) (s s' : timer) : Prop := {
  af_ticks : ticks s' = s64 (ticks s + (phase s + n) / rate);
  af_phase : phase s' = (phase s + n) mod rate;
  af_loops : loops_per_tick s' = loops_per_tick s;
  af_machine : machine s' = machine s;
  af_running : running s'
}.

Lemma after_0 s : running s -> after 0 s s.
Proof. intros [H1 H2 H3 H4]. split; [|..]; try done; rewrite Z.add_0_r; [by rewrite Z.div_small, Z.add_0_r|by rewrite Z.mod_small]. Qed.

Lemma barrier_wp n s0 s : 0 <= n -> after n s0 s -> wp (barrier rate) (fun _ s' => after (n + 1) s0 s') s.
Proof.
  intros Hn [A1 A2 A3 A4 [R1 R2 R3 R4]]. unfold barrier. wp_step. wp_step. pose proof (Z.div_mod (phase s0 + n) rate ltac:(lia)) as D. rewrite <- A2 in D.
  case_match eqn:E.
  - apply Z.ltb_lt in E. wp_step. split; simpl; [| |done|done|split; simpl; done || lia].
    + rewrite A1. do 2 f_equal. apply (Z.div_unique_pos _ _ _ (phase s + 1)); lia.
    + apply (Z.mod_unique_pos _ _ ((phase s0 + n) / rate)); lia.
  - apply Z.ltb_ge in E. wp_step. wp_step. rewrite decide_True by done. unfold timer_interrupt. wp_step. apply wp_modify.
    unfold on_kernel. unfold wp. pose proof (thread_tick_alone (kernel s) R4) as Ht. unfold wp in Ht. simpl. destruct (thread_tick (kernel s)) as [[u k]|]; [|done].
    assert ((phase s0 + (n + 1)) / rate = (phase s0 + n) / rate + 1) as Ediv by (symmetry; apply (Z.div_unique_pos _ _ _ 0); lia).
    assert (s64 (ticks s + 1) = s64 (ticks s0 + (phase s0 + (n + 1)) / rate)) as Et by (rewrite A1, swrap_add by lia; by rewrite Ediv, Z.add_assoc).
    split; simpl; [done|apply (Z.mod_unique_pos _ _ ((phase s0 + n) / rate + 1)); lia|done|done|split; simpl; [lia| |done|done]].
    rewrite <- (Z.add_0_r (s64 (ticks s + 1))) at 1. rewrite swrap_add by lia. by rewrite Z.add_0_r.
Qed.

Lemma busy_wait_wp n s : 0 <= n -> running s -> wp (busy_wait rate n) (fun _ s' => after n s s') s.
Proof.
  intros Hn Hr. unfold busy_wait. eapply wp_mono; [apply (wp_for (fun i s' => after i s s') _ 0)|].
  - intros i s' Hi Ha. apply barrier_wp; [lia|done].
  - by apply after_0.
  - intros [] s' Ha. by rewrite Z.add_0_l, Z2Nat.id in Ha by done.
Qed.

(** Fewer than 2^64 ticks are seen. *)
Lemma s64_same t d : s64 t = t -> 0 <= d < 2 ^ 64 -> (t =? s64 (t + d)) = (d =? 0).
Proof.
  intros Ht Hd. destruct (Z.eqb_spec d 0) as [->|Hne]; [rewrite Z.add_0_r, Ht; apply Z.eqb_refl|]. apply Z.eqb_neq. intros E. rewrite <- Ht in E at 1. unfold swrap in E.
  replace (t + d + 2 ^ (64 - 1)) with (t + 2 ^ (64 - 1) + d) in E by lia. set (a := t + 2 ^ (64 - 1)) in E.
  assert (a mod 2 ^ 64 = (a + d) mod 2 ^ 64) as E' by lia. pose proof (Z.div_mod a (2 ^ 64) ltac:(lia)). pose proof (Z.div_mod (a + d) (2 ^ 64) ltac:(lia)).
  assert (d = 2 ^ 64 * ((a + d) / 2 ^ 64 - a / 2 ^ 64)) as Em by lia. nia.
Qed.

Lemma next_tick_wp s : running s -> rate < 2 ^ 63 -> wp (next_tick rate (ticks s)) (fun _ s' => after (rate - phase s) s s') s.
Proof.
  intros Hr Hr63. unfold next_tick. apply (wp_loop (fun n _ s' => exists i, 0 <= i <= rate - phase s /\ n = Z.to_nat (rate - phase s - i) /\ after i s s')) with (n := Z.to_nat (rate - phase s)).
  - intros n [] s' (i & Hi & -> & Ha). wp_step. wp_step. destruct Ha as [A1 A2 A3 A4 A5]. rewrite Z.eqb_sym, A1, s64_same; [|by apply Hr|].
    2:{ destruct Hr as [? _ _ _]. split; [apply Z.div_pos; lia|]. apply Z.div_lt_upper_bound; nia. }
    case_match eqn:E; wp_step.
    + apply Z.eqb_eq, Z.div_small_iff in E; [|lia]. assert (i < rate - phase s) by (destruct Hr as [? _ _ _]; lia). eapply wp_mono; [apply (barrier_wp i s); [lia|done]|].
      intros [] s'' Ha. wp_step. exists (Z.to_nat (rate - phase s - (i + 1))). split; [lia|]. exists (i + 1). split; [lia|done].
    + apply Z.eqb_neq in E. enough (i = rate - phase s) as <- by done. destruct (decide (i < rate - phase s)); [|lia]. exfalso. apply E. apply Z.div_small. destruct Hr as [? _ _ _]. lia.
  - exists 0. destruct Hr as [? ? ? ?] eqn:?. split; [lia|]. split; [f_equal; lia|by apply after_0].
  - destruct Hr as [? _ _ _]. lia.
Qed.

Lemma too_many_loops_wp l s : running s -> rate < 2 ^ 63 -> 0 <= l < 2 ^ 63 ->
  wp (too_many_loops rate l) (fun b s' => b = (rate <=? l) /\ running s' /\ loops_per_tick s' = loops_per_tick s /\ machine s' = machine s) s.
Proof.
  intros Hr Hr63 Hl. unfold too_many_loops. wp_step. wp_step. wp_step. eapply wp_mono; [by apply next_tick_wp|]. intros [] s1 A. wp_step. wp_step. wp_step.
  assert (phase s1 = 0) as E0 by (rewrite (af_phase _ _ _ A); replace (phase s + (rate - phase s)) with rate by lia; apply Z.mod_same; lia).
  eapply wp_mono; [apply busy_wait_wp; [lia|apply A]|]. intros [] s2 A2. wp_step. wp_step. wp_step. rewrite (af_ticks _ _ _ A2), s64_same, E0, Z.add_0_l; [|by apply A|].
  2:{ rewrite E0. split; [apply Z.div_pos; lia|]. apply Z.div_lt_upper_bound; nia. }
  split; [|split; [apply A2|split; [rewrite (af_loops _ _ _ A2); apply A|rewrite (af_machine _ _ _ A2); apply A]]].
  destruct (Z.leb_spec rate l) as [Hle|Hlt]; [|by rewrite Z.div_small by lia]. apply negb_true_iff, Z.eqb_neq. intros E. apply Z.div_small_iff in E; lia.
Qed.

(** ** Calibration *)
Lemma double_loop s : running s -> rate <= 2 ^ 31 -> loops_per_tick s = 2 ^ 10 ->
  wp (loop 23 (double_turn rate) ()) (fun _ s' => running s' /\ exists k, 10 <= k <= 30 /\ loops_per_tick s' = 2 ^ k /\ (k = 10 \/ 2 ^ k < rate) /\ rate <= 2 ^ (k + 1)) s.
Proof.
  intros Hr H31 Hl. apply (wp_loop (fun n _ s' => running s' /\ exists k, 10 <= k <= 30 /\ n = Z.to_nat (30 - k) /\ loops_per_tick s' = 2 ^ k /\ (k = 10 \/ 2 ^ k < rate))) with (n := 20%nat); [|by split; [|exists 10; split; [lia|split; [|split; [|left]]]]|lia].
  clear s Hr Hl. intros n [] s (Hr & k & Hk & -> & Hl & Hlow). unfold double_turn. wp_step. wp_step. wp_step. rewrite Hl, Z.shiftl_mul_pow2 by lia. rewrite <- Z.pow_add_r by lia.
  assert (2 ^ (k + 1) <= 2 ^ 31) by (apply Z.pow_le_mono_r; lia). pose proof (Z.pow_pos_nonneg 2 (k + 1) ltac:(lia) ltac:(lia)). rewrite wrap_small by lia.
  eapply wp_mono; [apply too_many_loops_wp; [done|lia|lia]|]. intros b s' (-> & Hr' & El & _). destruct (Z.leb_spec rate (2 ^ (k + 1))) as [Hle|Hlt].
  - wp_step. split; [done|]. exists k. split; [lia|]. split; [by rewrite El|done].
  - wp_step. apply wp_modify. wp_step. wp_step. wp_step. simpl. apply wp_assert; [apply negb_true_iff, Z.eqb_neq; lia|]. wp_step.
    assert (k + 1 < 31) by (apply (Z.pow_lt_mono_r_iff 2); lia). exists (Z.to_nat (30 - (k + 1))). split; [lia|]. split; [by destruct Hr'|]. exists (k + 1). split; [lia|]. split; [done|]. split; [done|by right].
Qed.

(** The accepted bits are those below some [m]. *)
Definition refined (k j m : Z) (l : Z) : Prop :=
  j <= m <= k /\ l = 2 ^ k + 2 ^ m - 2 ^ j /\ (m < k -> rate <= 2 ^ k + 2 ^ m) /\ (j < m -> 2 ^ k + 2 ^ (m - 1) < rate).

Lemma lor_bit j q : 0 <= j -> Z.lor (q * 2 ^ (j + 1)) (2 ^ j) = q * 2 ^ (j + 1) + 2 ^ j.
Proof. intros Hj. pose proof (Z.pow_pos_nonneg 2 j ltac:(lia) Hj). rewrite Z.lor_comm, lor_disjoint; [lia|lia|]. rewrite Z.pow_add_r by lia. lia. Qed.

Lemma lor_bit_pow k j : 0 <= j < k -> Z.lor (2 ^ k) (2 ^ j) = 2 ^ k + 2 ^ j.
Proof. intros Hj. replace (2 ^ k) with (2 ^ (k - (j + 1)) * 2 ^ (j + 1)) by (rewrite <- Z.pow_add_r by lia; f_equal; lia). apply lor_bit. lia. Qed.

Lemma lor_bit_refined k j m l : 0 <= j -> refined k (j + 1) m l -> Z.lor l (2 ^ j) = l + 2 ^ j.
Proof.
  intros Hj (Hm & -> & _). replace (2 ^ k + 2 ^ m - 2 ^ (j + 1)) with ((2 ^ (k - (j + 1)) + 2 ^ (m - (j + 1)) - 1) * 2 ^ (j + 1)); [by apply lor_bit|].
  rewrite Z.mul_sub_distr_r, Z.mul_add_distr_r, <- !Z.pow_add_r by lia. replace (k - (j + 1) + (j + 1)) with k by lia. replace (m - (j + 1) + (j + 1)) with m by lia. lia.
Qed.

Lemma refine_accept k j m l : 0 <= j -> refined k (j + 1) m l -> 2 ^ k + 2 ^ j < rate -> refined k j m (l + 2 ^ j).
Proof.
  intros Hj (Hm & -> & H1 & H2) Hlt. split; [lia|]. split; [rewrite Z.pow_add_r by lia; lia|]. split; [done|]. intros _. destruct (decide (m = j + 1)) as [->|Hne]; [by replace (j + 1 - 1) with j by lia|apply H2; lia].
Qed.

Lemma refine_reject k j m l : 0 <= j < k -> refined k (j + 1) m l -> rate <= 2 ^ k + 2 ^ j -> refined k j j l.
Proof.
  intros Hj (Hm & -> & H1 & H2) Hle. assert (m = j + 1) as ->.
  { destruct (decide (m = j + 1)); [done|]. pose proof (Z.pow_le_mono_r 2 j (m - 1) ltac:(lia) ltac:(lia)). specialize (H2 ltac:(lia)). lia. }
  split; [lia|]. split; [lia|]. split; [done|lia].
Qed.

Lemma refine_loop k s : running s -> rate <= 2 ^ 31 -> 10 <= k <= 30 -> loops_per_tick s = 2 ^ k ->
  wp (loop 32 (refine_turn rate (2 ^ k)) (2 ^ (k - 1))) (fun _ s' => running s' /\ exists m, refined k (k - 9) m (loops_per_tick s')) s.
Proof.
  intros Hr H31 Hk Hl.
  apply (wp_loop (fun n b s' => running s' /\ exists j m, k - 10 <= j < k /\ n = Z.to_nat (j - (k - 10)) /\ b = 2 ^ j /\ refined k (j + 1) m (loops_per_tick s'))) with (n := 9%nat); [|split; [done|]; exists (k - 1), k|lia].
  - clear s Hr Hl. intros n b s (Hr & j & m & Hj & -> & -> & Href). unfold refine_turn. rewrite Z.shiftr_div_pow2 by lia.
    replace (2 ^ k / 2 ^ 10) with (2 ^ (k - 10)) by (rewrite Z.pow_sub_r by lia; done). destruct (Z.eqb_spec (2 ^ j) (2 ^ (k - 10))) as [E|Hne].
    + apply Z.pow_inj_r in E; [|lia..]. subst j. wp_step. split; [done|]. exists m. by replace (k - 10 + 1) with (k - 9) in Href by lia.
    + assert (j <> k - 10) by (by intros ->). wp_step. rewrite lor_bit_pow by lia. pose proof (Z.pow_lt_mono_r 2 j k ltac:(lia) ltac:(lia) ltac:(lia)).
      pose proof (Z.pow_le_mono_r 2 k 30 ltac:(lia) ltac:(lia)). pose proof (Z.pow_pos_nonneg 2 j ltac:(lia) ltac:(lia)).
      eapply wp_mono; [apply too_many_loops_wp; [done|lia|lia]|]. intros b s' (-> & Hr' & El & _). rewrite Z.shiftr_div_pow2 by lia. replace (2 ^ j / 2 ^ 1) with (2 ^ (j - 1)) by (rewrite Z.pow_sub_r by lia; done).
      wp_step. destruct (Z.leb_spec rate (2 ^ k + 2 ^ j)) as [Hle|Hlt]; simpl negb; cbv iota.
      * wp_step. wp_step. exists (Z.to_nat (j - 1 - (k - 10))). split; [lia|]. split; [done|]. exists (j - 1), j. split; [lia|]. split; [done|]. split; [done|]. rewrite El. replace (j - 1 + 1) with j by lia. by apply (refine_reject k j m); [lia|..].
      * apply wp_modify. wp_step. exists (Z.to_nat (j - 1 - (k - 10))). split; [lia|]. split; [by destruct Hr'|]. exists (j - 1), m. split; [lia|]. split; [done|]. split; [done|].
        simpl. rewrite El, (lor_bit_refined k j m) by (done || lia). replace (j - 1 + 1) with j by lia. by apply refine_accept; [lia|..].
  - split; [lia|]. split; [lia|]. split; [done|]. replace (k - 1 + 1) with k by lia. split; [lia|]. split; [lia|]. split; lia.
Qed.

Lemma refined_close k m l : 9 <= k -> refined k (k - 9) m l -> 2 ^ k < rate <= 2 ^ (k + 1) -> 511 * rate <= 512 * l /\ 3 * l < 4 * rate.
Proof.
  intros Hk (Hm & -> & H1 & H2) Hr. rewrite Z.pow_add_r in Hr by lia. assert (2 ^ k = 512 * 2 ^ (k - 9)) as Ek by (rewrite <- (Z.pow_add_r 2 9) by lia; f_equal; lia).
  pose proof (Z.pow_pos_nonneg 2 (k - 9) ltac:(lia) ltac:(lia)). destruct (decide (m = k - 9)) as [->|Hne]; [specialize (H1 ltac:(lia)); lia|].
  specialize (H2 ltac:(lia)). assert (2 ^ m = 2 * 2 ^ (m - 1)) as Em by (rewrite <- (Z.pow_add_r 2 1) by lia; f_equal; lia). pose proof (Z.pow_le_mono_r 2 m k ltac:(lia) ltac:(lia)).
  destruct (decide (m = k)) as [->|Hk']; [lia|specialize (H1 ltac:(lia)); lia].
Qed.

(** C1: On a machine that runs [rate] turns of the loop in a tick, calibration ends
    and finds nearly [rate] or more: at most one part in 512 below it.  But it can
    be up to a third above: the refinement tests each bit with the highest bit
    alone, and not with the bits that it has found, and so accepts bits that
    together are more than a tick. *)
Theorem calibrate_bounds s :
  2 ^ 10 < rate <= 2 ^ 31 -> running s ->
  wp (timer_calibrate rate) (fun _ s' => running s' /\ 511 * rate <= 512 * loops_per_tick s' /\ 3 * loops_per_tick s' < 4 * rate) s.
Proof.
  intros Hr Hrun. unfold timer_calibrate. wp_step. apply get_level_wp.
  wp_step. apply wp_assert; [apply bool_decide_eq_true; apply Hrun|]. wp_step. apply wp_modify. wp_step. eapply wp_mono; [apply double_loop; [by destruct Hrun|lia|done]|].
  intros [] s1 (Hr1 & k & Hk & El & Hlow & Hhigh). wp_step. wp_step. rewrite El, Z.shiftr_div_pow2 by lia. replace (2 ^ k / 2 ^ 1) with (2 ^ (k - 1)) by (rewrite Z.pow_sub_r by lia; done).
  eapply wp_mono; [apply refine_loop; [done|lia|done|done]|]. intros [] s2 (Hr2 & m & Href). split; [done|]. apply (refined_close k m); [lia|done|]. split; [|done]. destruct Hlow as [-> | ]; lia.
Qed.

(** ** Delays *)

(** A delay is so many turns of the loop: those of the time asked for, at
    [loops_per_tick] turns to the tick, less rounding. *)
Lemma delay_loops_close l num denom :
  denom = 1000 \/ denom = 1000 * 1000 \/ denom = 1000 * 1000 * 1000 -> 0 <= l -> 0 <= num -> l * num < 2 ^ 59 ->
  let n := delay_loops l num denom in 0 <= n /\ denom * n <= l * num * TIMER_FREQ < denom * (n + 1) + 100000.
Proof.
  intros Hd Hl Hn Hx. cbv zeta. unfold delay_loops, TIMER_FREQ. set (x := l * num) in *. assert (0 <= x) by (unfold x; nia). rewrite (swrap_small 64 x) by lia.
  rewrite (Z.quot_div_nonneg x 1000) by lia. pose proof (Z.div_mod x 1000 ltac:(lia)). pose proof (Z.mod_pos_bound x 1000 ltac:(lia)). rewrite swrap_small by lia.
  assert (Z.quot denom 1000 = denom / 1000) as -> by (by destruct Hd as [->|[->| ->]]). rewrite Z.quot_div_nonneg by (lia || by destruct Hd as [->|[->| ->]]).
  destruct Hd as [->|[->| ->]].
  all: match goal with |- context [?a / (?b / 1000)] => let c := eval vm_compute in (b / 1000) in change (b / 1000) with c; pose proof (Z.div_mod a c ltac:(lia)); pose proof (Z.mod_pos_bound a c ltac:(lia)) end; lia.
Qed.

(** C1: [timer_mdelay], [timer_udelay] and [timer_ndelay] end, after as many turns
    of the loop as the time asked for takes at the calibrated speed, rounded down,
    and less by no more than the rounding of a thousandth. *)
Theorem real_time_delay_time num denom s :
  denom = 1000 \/ denom = 1000 * 1000 \/ denom = 1000 * 1000 * 1000 -> running s -> 0 <= loops_per_tick s -> 0 <= num -> loops_per_tick s * num < 2 ^ 59 ->
  exists n, denom * n <= loops_per_tick s * num * TIMER_FREQ < denom * (n + 1) + 100000 /\ wp (real_time_delay rate num denom) (fun _ s' => after n s s') s.
Proof.
  intros Hd Hr Hl Hn Hx. destruct (delay_loops_close _ num denom Hd Hl Hn Hx) as [H1 H2]. exists (delay_loops (loops_per_tick s) num denom). split; [done|].
  unfold real_time_delay. wp_step. apply wp_assert; [by destruct Hd as [->|[->| ->]]|]. wp_step. wp_step. by apply busy_wait_wp.
Qed.
End time.

Lemma calibrate_bounds_witness : exists s0 s1, running 1600 s0 /\ timer_calibrate 1600 s0 = Ok (tt, s1) /\ loops_per_tick s1 = 2046 /\ 3 * loops_per_tick s1 < 4 * 1600.
Proof.
  pose (s0 := Timer 0 0 0 (Kst {[1 := Thread THREAD_RUNNING [] 0 [] 0]} [] [1] 1 2 1 3 0 ∅ ∅ ∅) (Intr [] [] [] [] false false INTR_ON [])).
  assert (running 1600 s0) as Hr by (split; [simpl; lia|done|done|split; [done|]; split; [done|]; eexists; split; [reflexivity|done]]).
  pose proof (calibrate_bounds 1600 ltac:(lia) s0 ltac:(lia) Hr) as H. assert (loops_per_tick <$> (match timer_calibrate 1600 s0 with Ok (_, s) => Some s | Err _ => None end) = Some 2046) as E by (vm_compute; reflexivity).
  unfold wp in H. exists s0. destruct (timer_calibrate 1600 s0) as [[[] s1]|]; [|done]. exists s1. split; [done|]. split; [done|]. injection E as E. split; [done|apply H].
Defined.

Lemma real_time_delay_time_witness : exists s n, running 2000 s /\ wp (real_time_delay 2000 5 1000) (fun _ s' => after 2000 n s s') s /\ 1000 * n <= 2000 * 5 * TIMER_FREQ.
Proof.
  pose (s0 := Timer 0 2000 0 (Kst {[1 := Thread THREAD_RUNNING [] 0 [] 0]} [] [1] 1 2 1 3 0 ∅ ∅ ∅) (Intr [] [] [] [] false false INTR_ON [])).
  assert (running 2000 s0) as Hr by (split; [simpl; lia|done|done|split; [done|]; split; [done|]; eexists; split; [reflexivity|done]]).
  destruct (real_time_delay_time 2000 ltac:(lia) 5 1000 s0 (or_introl eq_refl) Hr ltac:(simpl; lia) ltac:(lia) ltac:(simpl; lia)) as (n & [H1 _] & H2). exists s0, n. split; [exact Hr|]. split; [exact H2|exact H1].
Defined.

(** ** Sleeping *)
Lemma timer_ticks_wp s (Q : Z -> timer -> Prop) : in_external_intr (machine s) = false -> Q (ticks s) s -> wp timer_ticks Q s.
Proof.
  intros He HQ. destruct s as [t l p k [m1 m2 m3 m4 m5 m6 m7 m8]]. simpl in *. subst m5.
  unfold timer_ticks, on_machine, intr_disable, intr_set_level, intr_enable, intr_disable, intr_get_level, intr_context, wp, mbind, M_bind, gets, modify, mret, M_ret. simpl. by destruct m7.
Qed.

Section sleep.
(** Other threads run during [thread_yield], and time passes: up to [most] ticks in
    one call.  No more than [B] calls in a row are within one tick. *)
Context (thread_yield : M timer unit) (most : Z) (B : nat) (rank : timer -> nat).
Hypothesis rank_bound : forall s, (rank s <= B)%nat.
Hypothesis yield_law : forall s, in_external_intr (machine s) = false -> level (machine s) = INTR_ON -> s64 (ticks s) = ticks s ->
  wp thread_yield (fun _ s' => machine s' = machine s /\ exists d, 0 <= d <= most /\ ticks s' = s64 (ticks s + d) /\ (0 < d \/ (rank s' < rank s)%nat)) s.

(** [e] ticks after [s0]. *)
Definition passed (s0 : timer) (e : Z) (s : timer) : Prop := 0 <= e /\ ticks s = s64 (ticks s0 + e) /\ machine s = machine s0.

Lemma elapsed_wp s0 e s (Q : Z -> timer -> Prop) :
  in_external_intr (machine s0) = false -> e < 2 ^ 63 -> passed s0 e s -> Q e s -> wp (timer_elapsed (ticks s0)) Q s.
Proof.
  intros He Hb (H0 & Ht & Hm) HQ. unfold timer_elapsed. wp_step. apply timer_ticks_wp; [by rewrite Hm|]. wp_step. enough (s64 (ticks s - ticks s0) = e) as -> by done.
  rewrite Ht. unfold Z.sub. rewrite swrap_add by lia. replace (ticks s0 + e + - ticks s0) with e by lia. apply swrap_small; lia.
Qed.

(** C1: [timer_sleep] returns, when at least so many ticks as asked for have passed
    and fewer than one call of [thread_yield] takes on top of them. *)
Theorem timer_sleep_wakes t fuel s :
  in_external_intr (machine s) = false -> level (machine s) = INTR_ON -> s64 (ticks s) = ticks s -> 0 < t -> t + most < 2 ^ 63 -> (Z.to_nat t * S B + B + 1 < fuel)%nat ->
  wp (timer_sleep thread_yield fuel t) (fun _ s' => exists e, passed s e s' /\ t <= e < t + most) s.
Proof.
  intros He Hl Hs Ht Hmost Hfuel. unfold timer_sleep. wp_step. apply timer_ticks_wp; [done|]. wp_step. apply get_level_wp. wp_step. apply wp_assert; [by apply bool_decide_eq_true|].
  apply (wp_loop (fun n _ s' => exists e, passed s e s' /\ (e = 0 \/ e < t + most) /\ s64 (ticks s') = ticks s' /\ n = if e <? t then (Z.to_nat (t - e) * S B + rank s' + 1)%nat else O)) with (n := (Z.to_nat t * S B + rank s + 1)%nat).
  - intros n [] s' (e & Hp & Hb & Hs' & ->). unfold sleep_turn. wp_step. eapply (elapsed_wp s e); [done|destruct Hp; lia|done|]. destruct (Z.ltb_spec e t) as [Hlt|Hge]; [|wp_step; exists e; destruct Hp; split; [done|lia]].
    wp_step. destruct Hp as (H0 & Et & Em). eapply wp_mono; [apply yield_law; [by rewrite Em|by rewrite Em|done]|]. intros [] s'' (Em' & d & Hd & Ed & Hr). wp_step.
    eexists. split; [|exists (e + d); split; [|split; [|split; [|reflexivity]]]].
    + pose proof (rank_bound s''). destruct (Z.ltb_spec (e + d) t) as [Hlt'|_]; [|apply Nat.add_pos_r; lia]. destruct Hr as [Hr|Hr]; [|assert (Z.to_nat (t - (e + d)) <= Z.to_nat (t - e))%nat by lia; nia].
      assert (S (Z.to_nat (t - (e + d))) <= Z.to_nat (t - e))%nat by lia. nia.
    + split; [lia|]. split; [rewrite Ed, Et, swrap_add by lia; by rewrite Z.add_assoc|by rewrite Em', Em].
    + lia.
    + rewrite Ed. rewrite <- (Z.add_0_r (s64 (ticks s' + d))) at 1. rewrite swrap_add by lia. by rewrite Z.add_0_r.
  - exists 0. split; [split; [lia|split; [by rewrite Z.add_0_r|done]]|]. split; [by left|]. split; [done|]. by rewrite (proj2 (Z.ltb_lt _ _)), Z.sub_0_r by lia.
  - pose proof (rank_bound s). lia.
Qed.
End sleep.

(** A yield that takes three ticks, and a sleep of ten. *)
Lemma timer_sleep_wakes_witness : exists s, wp (timer_sleep (modify (fun s => set_ticks (s64 (ticks s + 3)) s)) 100 10) (fun _ s' => exists e, passed s e s' /\ 10 <= e < 10 + 3) s.
Proof.
  exists (Timer 0 0 0 (Kst ∅ [] [] 0 0 0 0 0 ∅ ∅ ∅) (Intr [] [] [] [] false false INTR_ON [])).
  apply (timer_sleep_wakes _ 3 0 (fun _ => O)); [done| |done|done|done|lia|lia|simpl; lia].
  intros s _ _ _. apply wp_modify. split; [done|]. exists 3. split; [lia|]. split; [done|by left].
Defined.
