(* ===== verification/Rtc.v ===== *)
(** * The real time clock (src/devices/rtc.c)

    The clock is the contents of its registers at each access: [cmos n i] is
    what register [i] holds when the port is read for the [n]th time, so a date
    can change between two reads.

    Theorem: read while the clock goes from one second to the next, the date that
    [rtc_get_time] takes is the one before or the one after and never a mixture,
    and the time it returns for it is 27 to 32 days ahead of the number of seconds
    since 1970 that its comment promises. *)

From S2P Require Import Prelude.

(** ** Program *)
Record rtc := Rtc { accesses : nat; selected : Z }.

Definition bcd_to_bin (x : Z) : Z := Z.land x 0x0f + Z.shiftr x 4 * 10.

Record fields := Fields { f_sec : Z; f_min : Z; f_hour : Z; f_mday : Z; f_mon : Z; f_year : Z }.

Definition days_per_month : list Z := [31; 28; 31; 30; 31; 30; 31; 31; 30; 31; 30; 31].

(** [for (i = 1; i <= mon; i++) time += days_per_month[i - 1] * 24 * 60 * 60]; a
    month past the table is a read outside of it. *)
Fixpoint add_months (cnt : nat) (i time : Z) : option Z :=
  match cnt with
  | O => Some time
  | S cnt => match days_per_month.[i - 1] with
             | Some d => add_months cnt (i + 1) (u32 (time + d * 24 * 60 * 60))
             | None => None
             end
  end.

Definition years_since (year : Z) : Z := (if year <? 70 then year + 100 else year) - 70.

(** The seconds up to the month, which is where the table is used. *)
Definition month_time (year mon : Z) : option Z :=
  let time := u32 (s32 ((year * 365 + Z.quot (year - 1) 4) * 24 * 60 * 60)) in
  match add_months (Z.to_nat mon) 1 time with
  | Some time => Some (if (2 <? mon) && (Z.rem year 4 =? 0) then u32 (time + 24 * 60 * 60) else time)
  | None => None
  end.

Definition seconds_of (f : fields) : option Z :=
  match month_time (years_since (f_year f)) (f_mon f) with
  | Some time =>
      let time := u32 (time + (f_mday f - 1) * 24 * 60 * 60) in
      let time := u32 (time + f_hour f * 60 * 60) in
      let time := u32 (time + f_min f * 60) in
      Some (u32 (time + f_sec f))
  | None => None
  end.

Section rtc.
Variable cmos : nat -> Z -> Z.

Definition cmos_read (index : Z) : M rtc Z :=
  modify (fun s => Rtc (accesses s) index);;
  s ← get;
  modify (fun s => Rtc (S (accesses s)) (selected s));;
  mret (u8 (cmos (accesses s) (selected s))).

(** One pass of the loop, with its test. *)
Definition rtc_turn (_ : unit) : M rtc (unit + fields) :=
  sec ← cmos_read 0;
  min ← cmos_read 2;
  hour ← cmos_read 4;
  mday ← cmos_read 7;
  mon ← cmos_read 8;
  year ← cmos_read 9;
  again ← cmos_read 0;
  if negb (bcd_to_bin sec =? bcd_to_bin again) then mret (inl ())
  else mret (inr (Fields (bcd_to_bin sec) (bcd_to_bin min) (bcd_to_bin hour) (bcd_to_bin mday) (bcd_to_bin mon) (bcd_to_bin year))).

Definition rtc_get_time (fuel : nat) : M rtc Z :=
  f ← loop fuel rtc_turn ();
  deref (seconds_of f).

Definition pass (n : nat) : fields :=
  Fields (bcd_to_bin (u8 (cmos n 0))) (bcd_to_bin (u8 (cmos (n + 1) 2))) (bcd_to_bin (u8 (cmos (n + 2) 4)))
    (bcd_to_bin (u8 (cmos (n + 3) 7))) (bcd_to_bin (u8 (cmos (n + 4) 8))) (bcd_to_bin (u8 (cmos (n + 5) 9))).

Lemma rtc_turn_eq n i :
  rtc_turn () (Rtc n i) =
  Ok (if f_sec (pass n) =? bcd_to_bin (u8 (cmos (n + 6) 0)) then inr (pass n) else inl (), Rtc (n + 7) 0).
Proof.
  unfold rtc_turn, cmos_read, pass, modify, get, mbind, M_bind, mret, M_ret; cbn.
  replace (n + 1)%nat with (S n) by lia; replace (n + 2)%nat with (S (S n)) by lia.
  replace (n + 3)%nat with (S (S (S n))) by lia; replace (n + 4)%nat with (S (S (S (S n)))) by lia.
  replace (n + 5)%nat with (S (S (S (S (S n))))) by lia; replace (n + 6)%nat with (S (S (S (S (S (S n)))))) by lia.
  replace (n + 7)%nat with (S (S (S (S (S (S (S n))))))) by lia.
  by destruct (bcd_to_bin (u8 (cmos n 0)) =? _).
Qed.
End rtc.

(** ** Dates *)
Record date := Date { year : Z; mon : Z; mday : Z; hour : Z; min : Z; sec : Z }.

Definition leap (y : Z) : bool := (y mod 4 =? 0) && (negb (y mod 100 =? 0) || (y mod 400 =? 0)).
Definition year_days (y : Z) : Z := if leap y then 366 else 365.
Definition month_days (y m : Z) : Z :=
  default 0 days_per_month.[m - 1] + (if leap y && (m =? 2) then 1 else 0).
Definition sum (l : list Z) : Z := foldr Z.add 0 l.
(** The days from 1 January 1970 to the first of the month. *)
Definition epoch_days (y m : Z) : Z :=
  sum (year_days <$> seqZ 1970 (y - 1970)) + sum (month_days y <$> seqZ 1 (m - 1)).
Definition unix_time (d : date) : Z :=
  (((epoch_days (year d) (mon d) + mday d - 1) * 24 + hour d) * 60 + min d) * 60 + sec d.

Definition date_ok (d : date) : Prop :=
  1970 <= year d < 2070 /\ 1 <= mon d <= 12 /\ 1 <= mday d <= month_days (year d) (mon d) /\
  0 <= hour d < 24 /\ 0 <= min d < 60 /\ 0 <= sec d < 60.

(** How the clock holds a date. *)
Definition bcd (n : Z) : Z := n / 10 * 16 + n mod 10.
Definition registers (d : date) (i : Z) : Z :=
  bcd (if i =? 0 then sec d else if i =? 2 then min d else if i =? 4 then hour d
       else if i =? 7 then mday d else if i =? 8 then mon d else year d mod 100).

Lemma bcd_inv n : 0 <= n < 100 -> bcd_to_bin (u8 (bcd n)) = n.
Proof.
  intros Hn. assert (C : forallb (fun n => bcd_to_bin (u8 (bcd n)) =? n) (seqZ 0 100) = true) by (vm_compute; reflexivity).
  by apply Z.eqb_eq, (forallb_seqZ _ _ _ _ C).
Qed.

Definition fields_of (d : date) : fields := Fields (sec d) (min d) (hour d) (mday d) (mon d) (year d mod 100).

Lemma month_days_le y m : month_days y m <= 32.
Proof.
  unfold month_days, days_per_month. assert (H : default 0 [31; 28; 31; 30; 31; 30; 31; 31; 30; 31; 30; 31].[m - 1] <= 31).
  - destruct (_.[m - 1]) as [x|] eqn:E; cbn; [|lia].
    eapply (Forall_aget (fun x => x <= 31)); [|exact E]. repeat constructor; lia.
  - destruct (_ && _); lia.
Qed.

(** The loop over the months, against the calendar. *)
Lemma month_time_ahead y m :
  1970 <= y < 2070 -> 1 <= m <= 12 ->
  exists k, 27 <= k <= 32 /\ month_time (years_since (y mod 100)) m = Some ((epoch_days y m + k) * 86400) /\
    0 <= epoch_days y m <= 36600.
Proof.
  intros Hy Hm.
  assert (C : forallb (fun y => forallb (fun m =>
    match month_time (years_since (y mod 100)) m with
    | Some t => let k := t / 86400 - epoch_days y m in
        (27 <=? k) && (k <=? 32) && (t =? (epoch_days y m + k) * 86400) && (0 <=? epoch_days y m) && (epoch_days y m <=? 36600)
    | None => false
    end) (seqZ 1 12)) (seqZ 1970 100) = true) by (vm_compute; reflexivity).
  apply (forallb_seqZ _ _ _ y), (forallb_seqZ _ _ _ m) in C; [|lia..].
  cbv beta in C. destruct (month_time _ _) as [t|]; [|discriminate]. exists (t / 86400 - epoch_days y m).
  rewrite !andb_true_iff, !Z.leb_le, Z.eqb_eq in C. destruct C as [[[[? ?] ?] ?] ?].
  split; [lia|]. split; [by f_equal|lia].
Qed.

Lemma seconds_of_ahead d :
  date_ok d -> exists k, 27 <= k <= 32 /\ seconds_of (fields_of d) = Some (unix_time d + 86400 * k).
Proof.
  intros (Hy & Hm & Hd & Hh & Hn & Hs). destruct (month_time_ahead (year d) (mon d) Hy Hm) as (k & Hk & E & He).
  exists k. split; [done|]. unfold seconds_of, fields_of, unix_time; cbn [f_sec f_min f_hour f_mday f_mon f_year]. rewrite E. pose proof (month_days_le (year d) (mon d)).
  unfold wrap. rewrite !Zplus_mod_idemp_l, <- !Z.add_assoc, !Zplus_mod_idemp_l, Z.mod_small by lia. f_equal; lia.
Qed.

(** ** Reading the clock while it changes *)
Section change.
Variables (A B : date) (j : nat).
Hypothesis HA : date_ok A.
Hypothesis HB : date_ok B.
Hypothesis tick : sec A <> sec B.

(** The date changes before the [j]th access. *)
Definition clock (n : nat) : Z -> Z := registers (if (n <? j)%nat then A else B).

Lemma pass_settled n d : date_ok d -> (forall i, (i < 7)%nat -> clock (n + i) = registers d) ->
  pass clock n = fields_of d /\ bcd_to_bin (u8 (clock (n + 6) 0)) = sec d.
Proof.
  intros (Hy & Hm & Hd & Hh & Hn & Hs) H. pose proof (month_days_le (year d) (mon d)).
  pose proof (H 0%nat ltac:(lia)) as Hz. rewrite Nat.add_0_r in Hz.
  unfold pass, fields_of. rewrite Hz, !H by lia. unfold registers; cbn [Z.eqb Pos.eqb].
  rewrite !bcd_inv by first [lia | by apply Z.mod_pos_bound]. done.
Qed.

(** The time of one of the two dates, and how far off it is. *)
Definition ahead (t : Z) (_ : rtc) : Prop :=
  exists d k, (d = A \/ d = B) /\ 27 <= k <= 32 /\ t = unix_time d + 86400 * k.

Lemma loop_settled n i fuel d :
  d = A \/ d = B -> (forall i, (i < 7)%nat -> clock (n + i) = registers d) ->
  wp (loop (S fuel) (rtc_turn clock) ()) (fun f => wp (deref (seconds_of f)) ahead) (Rtc n i).
Proof.
  intros Hor H. assert (Hd : date_ok d) by (by destruct Hor as [-> | ->]).
  destruct (pass_settled n d Hd H) as [Hp Hs]. destruct (seconds_of_ahead d Hd) as (k & Hk & E). cbn [loop].
  apply wp_bind. eapply wp_eq; [apply rtc_turn_eq|]. rewrite Hp, Hs; cbn. rewrite Z.eqb_refl.
  apply wp_ret. eapply wp_deref; [exact E|]. by exists d, k.
Qed.

Lemma loop_after n i fuel :
  (j <= n)%nat -> wp (loop (S fuel) (rtc_turn clock) ()) (fun f => wp (deref (seconds_of f)) ahead) (Rtc n i).
Proof.
  intros Hj. apply (loop_settled n i fuel B); [auto|]. intros x _. unfold clock.
  by rewrite (proj2 (Nat.ltb_ge (n + x) j)) by lia.
Qed.

(** A pass during which the date changes is not accepted. *)
Lemma pass_torn n : (n < j <= n + 6)%nat -> f_sec (pass clock n) <> bcd_to_bin (u8 (clock (n + 6) 0)).
Proof.
  intros Hj. unfold pass, clock; cbn [f_sec]. rewrite (proj2 (Nat.ltb_lt n j)), (proj2 (Nat.ltb_ge (n + 6) j)) by lia.
  unfold registers; cbn [Z.eqb]. destruct HA as (_ & _ & _ & _ & _ & ?), HB as (_ & _ & _ & _ & _ & ?). by rewrite !bcd_inv by lia.
Qed.
End change.

(** C1: Read at any moment while the clock goes from one date to another with a
    different second, [rtc_get_time] ends after at most two passes with the time
    of the one date or of the other, and what it returns is at least 27 and at
    most 32 days ahead of the seconds since 1970. *)
Theorem rtc_get_time_ahead A B j fuel n i :
  date_ok A -> date_ok B -> sec A <> sec B -> (2 <= fuel)%nat ->
  wp (rtc_get_time (clock A B j) fuel) (ahead A B) (Rtc n i).
Proof.
  intros HA HB Hs Hf. destruct fuel as [|[|fuel]]; [lia..|]. unfold rtc_get_time. apply wp_bind.
  destruct (decide (j <= n)%nat) as [|Hn]; [by apply loop_after|].
  destruct (decide (n + 7 <= j)%nat) as [Hl|Hl].
  - apply (loop_settled A B j HA HB n i (S fuel) A); [auto|].
    intros x Hx. unfold clock. by rewrite (proj2 (Nat.ltb_lt (n + x) j)) by lia.
  - cbn [loop]. apply wp_bind. eapply wp_eq; [apply rtc_turn_eq|].
    rewrite (proj2 (Z.eqb_neq _ _)) by (apply pass_torn; [done..|lia]). apply (loop_after A B j HA HB); lia.
Qed.

Definition old_year : date := Date 1999 12 31 23 59 59.
Definition new_year : date := Date 2000 1 1 0 0 0.

Lemma rtc_get_time_ahead_witness : wp (rtc_get_time (clock old_year new_year 3) 2) (ahead old_year new_year) (Rtc 0 0).
Proof. apply rtc_get_time_ahead; [vm_compute; intuition congruence..|lia]. Defined.
