(* ===== verification/Serial.v ===== *)
(** * The serial line and the input buffer (src/devices/serial.c, src/devices/input.c)

    Both queues are queues of Intq.v.  The 16550A is hardware: a class, [Uart],
    has what the processor can do with its ports, and another, [UartLaws], says
    what its data sheet promises, against a view of it as its registers and the
    bytes it was given to send.  A thread that waits for room in the queue sleeps
    until the line interrupts; while it does, no other thread sends, which the
    lock of the console sees to.

    Theorem: whatever is sent, polled, queued, flushed and received, and whenever
    the line interrupts, no assertion fails and no call hangs, every byte goes out
    once and in order, and the interrupts that are needed are enabled. *)

From S2P Require Import Prelude Kstdio Gdt Interrupt Intq.

(** ** Hardware *)
Class Uart (W : Type) := {
  u_in : Z -> W -> Z * W;
  u_out : Z -> Z -> W -> W;
  u_wait : W -> W              (* until it interrupts *)
}.

Abbreviation IO_BASE := 0x3f8.
Abbreviation RBR_REG := (IO_BASE + 0).
Abbreviation THR_REG := (IO_BASE + 0).
Abbreviation IER_REG := (IO_BASE + 1).
Abbreviation LS_REG := (IO_BASE + 0).
Abbreviation MS_REG := (IO_BASE + 1).
Abbreviation IIR_REG := (IO_BASE + 2).
Abbreviation FCR_REG := (IO_BASE + 2).
Abbreviation LCR_REG := (IO_BASE + 3).
Abbreviation MCR_REG := (IO_BASE + 4).
Abbreviation LSR_REG := (IO_BASE + 5).

Abbreviation IER_RECV := 0x01.
Abbreviation IER_XMIT := 0x02.
Abbreviation LCR_N81 := 0x03.
Abbreviation LCR_DLAB := 0x80.
Abbreviation MCR_OUT2 := 0x08.
Abbreviation LSR_DR := 0x01.
Abbreviation LSR_THRE := 0x20.

(** ** Program *)
Inductive tx_mode := UNINIT | POLL | QUEUE.

#[export] Instance tx_mode_eq_dec : EqDecision tx_mode.
Proof. solve_decision. Defined.

Record line (W : Type) := Line { mode : tx_mode; txq : world; buffer : world; machine : intr; uart : W }.
Arguments Line {W}.
Arguments mode {W}.
Arguments txq {W}.
Arguments buffer {W}.
Arguments machine {W}.
Arguments uart {W}.

Section driver.
Context {W : Type} `{!Uart W}.
Abbreviation S_ := (line W).

Definition set_mode (m : tx_mode) (s : S_) : S_ := Line m (txq s) (buffer s) (machine s) (uart s).
Definition set_txq (x : world) (s : S_) : S_ := Line (mode s) x (buffer s) (machine s) (uart s).
Definition set_buffer (x : world) (s : S_) : S_ := Line (mode s) (txq s) x (machine s) (uart s).
Definition set_machine (x : intr) (s : S_) : S_ := Line (mode s) (txq s) (buffer s) x (uart s).
Definition set_uart (x : W) (s : S_) : S_ := Line (mode s) (txq s) (buffer s) (machine s) x.

Definition on_txq {A} (m : M world A) : M S_ A := fun s =>
  match m (txq s) with Ok (a, x) => Ok (a, set_txq x s) | Err e => Err e end.
Definition on_buffer {A} (m : M world A) : M S_ A := fun s =>
  match m (buffer s) with Ok (a, x) => Ok (a, set_buffer x s) | Err e => Err e end.
Definition on_machine {A} (m : M intr A) : M S_ A := fun s =>
  match m (machine s) with Ok (a, x) => Ok (a, set_machine x s) | Err e => Err e end.

Definition inb (port : Z) : M S_ Z := fun s => let (v, w) := u_in port (uart s) in Ok (v, set_uart w s).
Definition outb (port value : Z) : M S_ unit := modify (fun s => set_uart (u_out port value (uart s)) s).

Definition interrupts_off : M S_ unit := l ← on_machine intr_get_level; assert (bool_decide (l = INTR_OFF)).

Definition input_full : M S_ bool :=
  interrupts_off;;
  gets (fun s => intq_full (q (buffer s))).

Definition write_ier : M S_ unit :=
  interrupts_off;;
  e ← gets (fun s => intq_empty (q (txq s)));
  let ier := if negb e then IER_XMIT else 0 in
  f ← input_full;
  outb IER_REG (if negb f then Z.lor ier IER_RECV else ier).

Definition serial_notify : M S_ unit :=
  interrupts_off;;
  m ← gets mode;
  if decide (m = QUEUE) then write_ier else mret ().

Definition input_init : M S_ unit := modify (set_buffer start).

Definition input_putc (key : Z) : M S_ unit :=
  interrupts_off;;
  f ← gets (fun s => intq_full (q (buffer s)));
  assert (negb f);;
  on_buffer (intq_handler (Put key));;
  serial_notify.

Definition set_serial (bps : Z) : M S_ unit :=
  let base_rate := Z.quot 1843200 16 in
  let divisor := u16 (Z.quot base_rate bps) in
  assert ((300 <=? bps) && (bps <=? 115200));;
  outb LCR_REG (Z.lor LCR_N81 LCR_DLAB);;
  outb LS_REG (Z.land divisor 0xff);;
  outb MS_REG (u8 (Z.shiftr divisor 8));;
  outb LCR_REG LCR_N81.

Definition init_poll : M S_ unit :=
  m ← gets mode;
  assert (bool_decide (m = UNINIT));;
  outb IER_REG 0;;
  outb FCR_REG 0;;
  set_serial 9600;;
  outb MCR_REG MCR_OUT2;;
  modify (set_txq start);;
  modify (set_mode POLL).

Definition serial_init_queue (intr_stubs : Z -> Z) (serial_interrupt : Z) : M S_ unit :=
  m ← gets mode;
  (if decide (m = UNINIT) then init_poll else mret ());;
  m ← gets mode;
  assert (bool_decide (m = POLL));;
  on_machine (serial_register intr_stubs serial_interrupt);;
  modify (set_mode QUEUE);;
  old_level ← on_machine intr_disable;
  write_ier;;
  _ ← on_machine (intr_set_level old_level);
  mret ().

(** One test of the line status. *)
Definition poll_turn (_ : unit) : M S_ (unit + unit) :=
  v ← inb LSR_REG;
  mret (if Z.land v LSR_THRE =? 0 then inl () else inr ()).

Definition putc_poll (fuel : nat) (byte : Z) : M S_ unit :=
  interrupts_off;;
  loop fuel poll_turn ();;
  outb THR_REG byte.

(** The byte that an operation took from the queue. *)
Definition tx_byte : M S_ Z := x ← gets txq; deref (last (got x)).

(** [while (!input_full () && (inb (LSR_REG) & LSR_DR) != 0)] *)
Definition recv_turn (_ : unit) : M S_ (unit + unit) :=
  f ← input_full;
  if f : bool then mret (inr ()) else
  v ← inb LSR_REG;
  if Z.land v LSR_DR =? 0 then mret (inr ()) else
  b ← inb RBR_REG;
  input_putc b;;
  mret (inl ()).

(** [while (!intq_empty (&txq) && (inb (LSR_REG) & LSR_THRE) != 0)] *)
Definition xmit_turn (_ : unit) : M S_ (unit + unit) :=
  e ← gets (fun s => intq_empty (q (txq s)));
  if e : bool then mret (inr ()) else
  v ← inb LSR_REG;
  if Z.land v LSR_THRE =? 0 then mret (inr ()) else
  on_txq (intq_handler Get);;
  b ← tx_byte;
  outb THR_REG b;;
  mret (inl ()).

(** Neither loop can run more than 63 times. *)
Definition serial_interrupt : M S_ unit :=
  _ ← inb IIR_REG;
  loop 64 recv_turn ();;
  loop 64 xmit_turn ();;
  write_ier.

(** [t] is the running thread. *)
Variable t : Z.

(** While the thread sleeps the line interrupts, and then the thread runs again
    if that woke it. *)
Definition sleep_turn (_ : unit) : M S_ (unit + unit) :=
  x ← gets txq;
  match phases x !! t with
  | None => mret (inr ())
  | Some _ =>
      modify (fun s => set_uart (u_wait (uart s)) s);;
      serial_interrupt;;
      on_txq (intq_resume t);;
      mret (inl ())
  end.

Definition serial_putc (fuel : nat) (byte : Z) : M S_ unit :=
  old_level ← on_machine intr_disable;
  (m ← gets mode;
   if negb (bool_decide (m = QUEUE)) then
     (if decide (m = UNINIT) then init_poll else mret ());;
     putc_poll fuel byte
   else
     f ← gets (fun s => intq_full (q (txq s)));
     (if bool_decide (old_level = INTR_OFF) && f then
        on_txq (intq_loop t Get);;
        b ← tx_byte;
        putc_poll fuel b
      else mret ());;
     on_txq (intq_loop t (Put byte));;
     loop fuel sleep_turn ();;
     write_ier);;
  _ ← on_machine (intr_set_level old_level);
  mret ().

Definition flush_turn (fuel : nat) (_ : unit) : M S_ (unit + unit) :=
  e ← gets (fun s => intq_empty (q (txq s)));
  if e : bool then mret (inr ()) else
  (on_txq (intq_loop t Get);;
   b ← tx_byte;
   putc_poll fuel b);;
  mret (inl ()).

Definition serial_flush (fuel : nat) : M S_ unit :=
  old_level ← on_machine intr_disable;
  loop 64 (flush_turn fuel) ();;
  _ ← on_machine (intr_set_level old_level);
  mret ().

(** [input_getc] of a thread that finds a key in the buffer. *)
Definition input_getc : M S_ Z :=
  old_level ← on_machine intr_disable;
  on_buffer (intq_loop t Get);;
  x ← gets buffer;
  key ← deref (last (got x));
  serial_notify;;
  _ ← on_machine (intr_set_level old_level);
  mret key.
End driver.

(** ** What the 16550A promises *)
Record registers := Registers { dlab : bool; ier : Z; divisor_low : Z; divisor_high : Z; written : list Z }.

(** Writing a register: the two lowest are the divisor while DLAB is set. *)
Definition write_register (port value : Z) (r : registers) : registers :=
  if port =? THR_REG then
    if dlab r then Registers (dlab r) (ier r) value (divisor_high r) (written r)
    else Registers (dlab r) (ier r) (divisor_low r) (divisor_high r) (written r ++ [value])
  else if port =? IER_REG then
    if dlab r then Registers (dlab r) (ier r) (divisor_low r) value (written r)
    else Registers (dlab r) value (divisor_low r) (divisor_high r) (written r)
  else if port =? LCR_REG then Registers (Z.testbit value 7) (ier r) (divisor_low r) (divisor_high r) (written r)
  else r.

(** [busy] is how often the line status can be read before the transmitter is
    empty again. *)
Class UartLaws (W : Type) `{!Uart W} := {
  view : W -> registers;
  busy : W -> nat;
  patience : nat;
  view_in p w : view (snd (u_in p w)) = view w;
  byte_in p w : 0 <= fst (u_in p w) < 256;
  thre_in w : Z.testbit (fst (u_in LSR_REG w)) 5 = (busy w =? 0)%nat;
  busy_lsr w : (busy (snd (u_in LSR_REG w)) <= pred (busy w))%nat;
  busy_in p w : (busy (snd (u_in p w)) <= busy w)%nat;
  view_out p v w : view (u_out p v w) = write_register p v (view w);
  busy_out p v w : p <> THR_REG -> (busy (u_out p v w) <= busy w)%nat;
  busy_bound w : (busy w <= patience)%nat;
  view_wait w : view (u_wait w) = view w;
  busy_wait w : Z.testbit (ier (view w)) 1 = true -> busy (u_wait w) = 0%nat
}.

(** ** Correctness *)
Section correct.
Context {W : Type} `{!Uart W} `{!UartLaws W}.
Abbreviation S_ := (line W).
Variable t : Z.
Hypothesis Ht : t <> 0.
Variable intr_stubs : Z -> Z.
Hypothesis stubs_ok : forall v, 0 < intr_stubs v < 2 ^ 32.

Lemma wp_on_txq {A} (m : M world A) (Q : A -> S_ -> Prop) s : wp m (fun a x => Q a (set_txq x s)) (txq s) -> wp (on_txq m) Q s.
Proof. unfold wp, on_txq. by destruct (m (txq s)) as [[]|]. Qed.
Lemma wp_on_buffer {A} (m : M world A) (Q : A -> S_ -> Prop) s : wp m (fun a x => Q a (set_buffer x s)) (buffer s) -> wp (on_buffer m) Q s.
Proof. unfold wp, on_buffer. by destruct (m (buffer s)) as [[]|]. Qed.
Lemma wp_on_machine {A} (m : M intr A) (Q : A -> S_ -> Prop) s : wp m (fun a x => Q a (set_machine x s)) (machine s) -> wp (on_machine m) Q s.
Proof. unfold wp, on_machine. by destruct (m (machine s)) as [[]|]. Qed.
Lemma wp_inb p (Q : Z -> S_ -> Prop) s : Q (fst (u_in p (uart s))) (set_uart (snd (u_in p (uart s))) s) -> wp (inb p) Q s.
Proof. unfold wp, inb. by destruct (u_in p (uart s)). Qed.

Lemma off_wp (Q : unit -> S_ -> Prop) s : level (machine s) = INTR_OFF -> Q () s -> wp interrupts_off Q s.
Proof.
  intros Hl HQ. unfold interrupts_off. wp_step. apply wp_on_machine, wp_gets. apply wp_assert; [by rewrite Hl|]. by destruct s.
Qed.

(** The bytes on their way out, and which interrupts are on. *)
Definition stream (s : S_) : list Z := written (view (uart s)) ++ contents (q (txq s)).
Definition xmit_on (s : S_) : Prop := intq_empty (q (txq s)) = false -> Z.testbit (ier (view (uart s))) 1 = true.
Definition recv_on (s : S_) : Prop := Z.testbit (ier (view (uart s))) 0 = negb (intq_full (q (buffer s))).

Definition idle (x : world) : Prop := queue_ok t x /\ phases x !! t = None.

Lemma queue_length x : length (contents x) = Z.to_nat (count x).
Proof. unfold contents. by rewrite length_map, length_seqZ. Qed.

Lemma empty_contents x : ring_ok x -> intq_empty x = true <-> contents x = [].
Proof.
  intros Hr. rewrite empty_count, Z.eqb_eq by done. rewrite <- length_zero_iff_nil, queue_length. pose proof (count_range x). lia.
Qed.

Lemma get_contents x x' : queue_ok t x -> queue_ok t x' -> moved Get x x' ->
  exists b, last (got x') = Some b /\ contents (q x) = b :: contents (q x').
Proof.
  intros [_ Hf _ _] [_ Hf' _ _] (Hs & b & Hg). exists b. split; [by rewrite Hg, last_snoc|].
  rewrite Hs, Hg, Hf, <- app_assoc in Hf'. by apply app_inv_head in Hf'.
Qed.

Lemma put_contents x x' byte : queue_ok t x -> queue_ok t x' -> moved (Put byte) x x' -> contents (q x') = contents (q x) ++ [u8 byte].
Proof.
  intros [_ Hf _ _] [_ Hf' _ _] (Hs & Hg). rewrite Hs, Hg, Hf, <- app_assoc in Hf'. by apply app_inv_head in Hf'.
Qed.

Lemma woken_refl x : woken x x.
Proof. by left. Qed.
Lemma woken_trans x y z : woken x y -> woken y z -> woken x z.
Proof.
  intros H1 H2 u. destruct (H1 u) as [E1|(o & E1 & E2)], (H2 u) as [E3|(o' & E3 & E4)].
  - left; congruence.
  - right; exists o'; split; congruence.
  - right; exists o; split; congruence.
  - congruence.
Qed.

(** Only the chip changed, and of it only what enables interrupts. *)
Definition same_but_ier (s s' : S_) : Prop :=
  exists w, s' = set_uart w s /\ dlab (view w) = dlab (view (uart s)) /\ written (view w) = written (view (uart s)) /\ (busy w <= busy (uart s))%nat.

Lemma write_ier_wp s :
  level (machine s) = INTR_OFF -> dlab (view (uart s)) = false ->
  wp write_ier (fun _ s' => same_but_ier s s' /\ xmit_on s' /\ recv_on s') s.
Proof.
  intros Hl Hd. unfold write_ier. wp_step. apply off_wp; [done|]. wp_step. wp_step. wp_step. unfold input_full. wp_step. apply off_wp; [done|].
  apply wp_gets. unfold outb. apply wp_modify. set (v := if negb (intq_full _) then _ else _). unfold xmit_on, recv_on; cbn [uart set_uart txq buffer].
  pose proof (view_out IER_REG v (uart s)) as Hv. unfold write_register in Hv. cbn in Hv. rewrite Hd in Hv.
  split; [exists (u_out IER_REG v (uart s)); cbn in *; rewrite Hv; cbn; split; [done|split; [done|split; [done|by apply busy_out]]]|].
  cbn in *. rewrite Hv. cbn. subst v. by destruct (intq_empty (q (txq s))), (intq_full (q (buffer s))).
Qed.

Lemma thr_view w byte : dlab (view w) = false ->
  view (u_out THR_REG byte w) = Registers false (ier (view w)) (divisor_low (view w)) (divisor_high (view w)) (written (view w) ++ [byte]).
Proof. intros Hd. rewrite view_out. unfold write_register; cbn. by rewrite Hd. Qed.

Lemma putc_poll_wp s fuel byte :
  level (machine s) = INTR_OFF -> dlab (view (uart s)) = false -> (patience < fuel)%nat ->
  wp (putc_poll fuel byte) (fun _ s' => exists w, s' = set_uart w s /\ dlab (view w) = false /\ ier (view w) = ier (view (uart s)) /\
    written (view w) = written (view (uart s)) ++ [byte]) s.
Proof.
  intros Hl Hd Hf. unfold putc_poll. wp_step. apply off_wp; [done|]. wp_step.
  eapply (wp_loop (fun n _ s' => busy (uart s') = n /\ exists w, s' = set_uart w s /\ view w = view (uart s)));
    [| |pose proof (busy_bound (uart s)); instantiate (1 := busy (uart s)); lia].
  - intros n [] ? (Hn & w & -> & Hv). unfold poll_turn. wp_step. apply wp_inb. apply wp_ret. cbn [uart set_uart] in *.
    change LSR_THRE with (2 ^ 5). rewrite land_bit_zero, thre_in by lia. pose proof (view_in LSR_REG w) as Hi. pose proof (busy_lsr w).
    destruct (Nat.eqb_spec (busy w) 0) as [E|E]; cbn [negb].
    + unfold outb. apply wp_modify. cbn [uart set_uart]. eexists. split; [done|]. rewrite thr_view by congruence. rewrite Hi, Hv. done.
    + exists (busy (snd (u_in LSR_REG w))). split; [lia|]. split; [done|]. eexists. split; [done|]. congruence.
  - split; [done|]. exists (uart s). by destruct s.
Qed.

Lemma serial_notify_wp s :
  level (machine s) = INTR_OFF -> (mode s = QUEUE -> dlab (view (uart s)) = false) ->
  wp serial_notify (fun _ s' => same_but_ier s s' /\ (mode s = QUEUE -> xmit_on s' /\ recv_on s') /\ (mode s <> QUEUE -> s' = s)) s.
Proof.
  intros Hl Hd. unfold serial_notify. wp_step. apply off_wp; [done|]. wp_step. wp_step. case_decide as Hm.
  - eapply wp_mono; [apply write_ier_wp; auto|]. intros _ s' (H1 & H2 & H3). by split.
  - apply wp_ret. split; [exists (uart s); by destruct s|]. by split.
Qed.

(** A byte arrives in the input buffer. *)
Definition rx_only (s s' : S_) : Prop :=
  exists x w, s' = Line (mode s) (txq s) x (machine s) w /\ idle x /\ dlab (view w) = dlab (view (uart s)) /\
    written (view w) = written (view (uart s)) /\ (busy w <= busy (uart s))%nat.

Lemma idle_woken x x' : queue_ok t x' -> phases x !! t = None -> woken x x' -> idle x'.
Proof. intros Hx Hp Hw. split; [done|]. destruct (Hw t) as [->|(o & E & _)]; congruence. Qed.

Lemma input_putc_wp s key :
  level (machine s) = INTR_OFF -> (mode s = QUEUE -> dlab (view (uart s)) = false) -> idle (buffer s) -> intq_full (q (buffer s)) = false ->
  wp (input_putc key) (fun _ s' => rx_only s s' /\ contents (q (buffer s')) = contents (q (buffer s)) ++ [u8 key] /\
    (mode s = QUEUE -> xmit_on s' /\ recv_on s') /\ (mode s <> QUEUE -> uart s' = uart s)) s.
Proof.
  intros Hl Hd [Hb Hp] Hf. unfold input_putc. wp_step. apply off_wp; [done|]. wp_step. wp_step. wp_step. apply wp_assert; [by rewrite Hf|].
  wp_step. apply wp_on_buffer. eapply wp_mono; [by apply (intq_handler_wp t Ht)|]. intros [] x (Hx & Hw & Hm).
  eapply wp_mono; [by apply serial_notify_wp|]. intros [] s' ((w & -> & H1 & H2 & H3) & H4 & H5). cbn in *. split; [|split; [|split; [done|]]].
  - exists x, w. split; [done|]. split; [by apply (idle_woken (buffer s))|done].
  - by apply (put_contents (buffer s)).
  - intros Hne. specialize (H5 Hne). by injection H5.
Qed.

Lemma recv_loop_wp s :
  level (machine s) = INTR_OFF -> (mode s = QUEUE -> dlab (view (uart s)) = false) -> idle (buffer s) ->
  wp (loop 64 recv_turn ()) (fun _ s' => rx_only s s') s.
Proof.
  intros Hl Hd Hi.
  eapply (wp_loop (fun n _ s' => rx_only s s' /\ (n + length (contents (q (buffer s'))) = 63)%nat));
    [| |instantiate (1 := (63 - length (contents (q (buffer s))))%nat); lia].
  - intros n [] ? ((x & w & -> & Hx & H1 & H2 & H3) & Hn). unfold recv_turn, input_full. wp_step. wp_step. apply off_wp; [done|]. apply wp_gets. cbn [buffer] in *.
    destruct (intq_full (q x)) eqn:Ef; [apply wp_ret; by exists x, w|]. wp_step. apply wp_inb. cbn [uart set_uart mode txq buffer machine].
    pose proof (view_in LSR_REG w) as Hv1. pose proof (busy_in LSR_REG w) as Hb1. set (w1 := snd _) in *.
    case_match; [apply wp_ret; exists x, w1; rewrite Hv1; split; [done|split; [done|split; [done|split; [done|lia]]]]|].
    wp_step. apply wp_inb. cbn [uart set_uart mode txq buffer machine]. pose proof (view_in RBR_REG w1) as Hv2. pose proof (busy_in RBR_REG w1) as Hb2. set (w2 := snd (u_in RBR_REG w1)) in *.
    wp_step. eapply wp_mono; [apply input_putc_wp; cbn; [done|intros Hm; rewrite Hv2, Hv1, H1; auto|done|done]|].
    intros [] ? ((x' & w' & -> & Hx' & K1 & K2 & K3) & Hc & _). apply wp_ret. cbn in *. rewrite Hc, length_app; cbn.
    exists (pred n). assert (Hlt : (length (contents (q x)) < 63)%nat).
    { rewrite queue_length. destruct Hx as [[Hr _ _ _] _]. rewrite (full_count _ Hr) in Ef. pose proof (count_range (q x)). lia. }
    split; [lia|]. split; [|lia]. exists x', w'. split; [done|]. split; [done|]. split; [congruence|]. split; [congruence|lia].
  - assert (Hc : (length (contents (q (buffer s))) <= 63)%nat) by (rewrite queue_length; pose proof (count_range (q (buffer s))); lia).
    split; [|lia]. exists (buffer s), (uart s). by destruct s.
Qed.

(** Bytes leave the queue for the line. *)
Definition tx_only (s s' : S_) : Prop :=
  exists x w, s' = Line (mode s) x (buffer s) (machine s) w /\ queue_ok t x /\ woken (txq s) x /\ dlab (view w) = false /\ stream s' = stream s /\
    ((length (contents (q x)) < length (contents (q (txq s))))%nat \/ contents (q x) = contents (q (txq s)) /\ (busy w <= busy (uart s))%nat).

Lemma xmit_loop_wp s :
  level (machine s) = INTR_OFF -> dlab (view (uart s)) = false -> queue_ok t (txq s) ->
  wp (loop 64 xmit_turn ()) (fun _ s' => tx_only s s' /\
    (busy (uart s) = 0%nat -> intq_empty (q (txq s)) = false -> (length (contents (q (txq s'))) < length (contents (q (txq s))))%nat)) s.
Proof.
  intros Hl Hd Hq.
  eapply (wp_loop (fun n _ s' => tx_only s s' /\ length (contents (q (txq s'))) = n));
    [| |pose proof (queue_length (q (txq s))); pose proof (count_range (q (txq s))); instantiate (1 := length (contents (q (txq s)))); lia].
  - intros n [] ? ((x & w & -> & Hx & Hw & H1 & H2 & H3) & Hn). unfold xmit_turn. wp_step. wp_step. cbn [txq] in *.
    destruct (intq_empty (q x)) eqn:Ee.
    { apply wp_ret. split; [exists x, w; done|]. intros _ He. apply (empty_contents _ (qk_ring _ _ Hx)) in Ee. cbn [txq]. rewrite Ee; cbn.
      destruct (contents (q (txq s))) eqn:Ec; [|cbn; lia]. apply (empty_contents _ (qk_ring _ _ Hq)) in Ec. congruence. }
    wp_step. apply wp_inb. cbn [uart set_uart mode txq buffer machine]. pose proof (view_in LSR_REG w) as Hv. pose proof (busy_in LSR_REG w) as Hb.
    change LSR_THRE with (2 ^ 5). rewrite land_bit_zero, thre_in by lia. set (w1 := snd _) in *.
    destruct (Nat.eqb_spec (busy w) 0) as [E|E]; cbn [negb].
    + wp_step. apply wp_on_txq. cbn [txq set_uart]. eapply wp_mono; [apply (intq_handler_wp t Ht); [done|exact Ee]|]. intros [] x' (Hx' & Hw' & Hm).
      destruct (get_contents x x' Hx Hx' Hm) as (b & Hlast & Hc). wp_step. unfold tx_byte. wp_step. wp_step. eapply wp_deref; [exact Hlast|].
      wp_step. unfold outb. apply wp_modify. apply wp_ret. cbn [uart set_uart mode txq buffer machine set_txq].
      exists (pred n). rewrite Hc in Hn; cbn in Hn. split; [lia|]. split; [|lia]. eexists x', _. split; [done|]. split; [done|].
      split; [by apply (woken_trans _ x)|]. rewrite thr_view by congruence. split; [done|]. split.
      * rewrite <- H2. unfold stream; cbn [uart txq set_uart set_txq]. rewrite thr_view by congruence. cbn. by rewrite Hv, Hc, <- app_assoc.
      * left. rewrite Hc in H3. cbn in H3. destruct H3 as [|[H3 _]]; [lia|]. rewrite <- H3. cbn. lia.
    + apply wp_ret. split.
      * exists x, w1. rewrite Hv. split; [done|]. split; [done|]. split; [done|]. split; [done|]. split.
        { rewrite <- H2. unfold stream; cbn [uart txq set_uart set_txq]. by rewrite Hv. }
        destruct H3 as [|[H3 H4]]; [by left|right; split; [done|lia]].
      * intros Hz _. cbn [txq]. destruct H3 as [|[H3 H4]]; [done|lia].
  - split; [|done]. exists (txq s), (uart s). split; [by destruct s|]. split; [done|]. split; [apply woken_refl|]. split; [done|]. split; [done|]. by right.
Qed.

Lemma serial_interrupt_wp s :
  level (machine s) = INTR_OFF -> mode s = QUEUE -> dlab (view (uart s)) = false -> queue_ok t (txq s) -> idle (buffer s) ->
  wp serial_interrupt (fun _ s' => exists x y w, s' = Line QUEUE x y (machine s) w /\ queue_ok t x /\ idle y /\ woken (txq s) x /\
    dlab (view w) = false /\ stream s' = stream s /\ xmit_on s' /\ recv_on s' /\
    (busy (uart s) = 0%nat -> intq_empty (q (txq s)) = false -> intq_full (q x) = false)) s.
Proof.
  intros Hl Hm Hd Hq Hi. unfold serial_interrupt. wp_step. apply wp_inb. pose proof (view_in IIR_REG (uart s)) as Hv. pose proof (busy_in IIR_REG (uart s)) as Hb.
  set (w0 := snd _) in *. wp_step. eapply wp_mono; [apply recv_loop_wp; cbn; [done|by rewrite Hv|done]|].
  intros [] ? (y & w1 & -> & Hy & K1 & K2 & K3). cbn in K1, K2, K3 |- *. wp_step.
  eapply wp_mono; [apply xmit_loop_wp; cbn; [done|congruence|done]|].
  intros [] ? ((x & w2 & -> & Hx & Hw & L1 & L2 & L3) & L4). cbn in Hw, L1, L3, L4 |- *.
  eapply wp_mono; [apply write_ier_wp; cbn; [done|done]|]. intros [] ? ((w3 & -> & M1 & M2 & M3) & M4 & M5). cbn in M1, M2, M3.
  exists x, y, w3. rewrite Hm. split; [done|]. split; [done|]. split; [done|]. split; [done|]. split; [congruence|]. rewrite Hm in M4, M5. split.
  - unfold stream in *; cbn in *. rewrite M2, L2. congruence.
  - split; [done|]. split; [done|]. intros Hz He. rewrite (full_count _ (qk_ring _ _ Hx)). rewrite !queue_length in L4.
    pose proof (count_range (q x)). pose proof (count_range (q (txq s))). specialize (L4 ltac:(lia) He). lia.
Qed.

(** ** Sending a byte *)
Variable fuel : nat.
Hypothesis fuel_ok : (S patience < fuel)%nat.

(** With interrupts off, in the queued mode, [bytes] were added to the stream. *)
Definition queued (bytes : list Z) (s s' : S_) : Prop :=
  exists x y w, s' = Line QUEUE x y (machine s) w /\ idle x /\ idle y /\ dlab (view w) = false /\ stream s' = stream s ++ bytes /\ xmit_on s' /\ recv_on s'.

Lemma sleep_awake s (Q : unit -> S_ -> Prop) k : phases (txq s) !! t = None -> Q () s -> wp (loop (S k) (sleep_turn t) ()) Q s.
Proof. intros Hp HQ. cbn [loop]. wp_step. unfold sleep_turn. wp_step. wp_step. rewrite Hp. apply wp_ret. by apply wp_ret. Qed.

Lemma put_room_wp s byte :
  level (machine s) = INTR_OFF -> mode s = QUEUE -> dlab (view (uart s)) = false -> idle (txq s) -> idle (buffer s) -> 0 <= byte < 256 ->
  intq_full (q (txq s)) = false ->
  wp (on_txq (intq_loop t (Put byte));; loop fuel (sleep_turn t) ();; write_ier) (fun _ s' => queued [byte] s s') s.
Proof.
  intros Hl Hm Hd [Hx Hp] Hy Hb Hf. wp_step. apply wp_on_txq. eapply wp_mono; [by apply (intq_loop_wp t Ht)|].
  intros [] x (Hx' & Hp' & Hmv). wp_step. destruct fuel as [|k]; [lia|]. apply sleep_awake; [done|].
  eapply wp_mono; [by apply write_ier_wp|]. intros [] ? ((w & -> & K1 & K2 & K3) & K4 & K5). cbn in K1, K2, K3.
  exists x, (buffer s), w. rewrite <- Hm. split; [by destruct s|]. split; [done|]. split; [done|]. split; [congruence|]. split; [|done].
  unfold stream; cbn. rewrite K2, (put_contents (txq s) x byte Hx Hx' Hmv), wrap_small, app_assoc by lia. done.
Qed.

Lemma put_full_wp s byte :
  level (machine s) = INTR_OFF -> mode s = QUEUE -> dlab (view (uart s)) = false -> idle (txq s) -> idle (buffer s) -> 0 <= byte < 256 ->
  intq_full (q (txq s)) = true -> xmit_on s ->
  wp (on_txq (intq_loop t (Put byte));; loop fuel (sleep_turn t) ();; write_ier) (fun _ s' => queued [byte] s s') s.
Proof.
  intros Hl Hm Hd [Hx Hp] Hy Hb Hf Hon. wp_step. apply wp_on_txq. eapply wp_mono; [by apply (intq_loop_sleeps t Ht)|].
  intros [] x (Hx' & Hp' & Hs & Hg). assert (Hc : contents (q x) = contents (q (txq s))).
  { destruct Hx as [_ F _ _], Hx' as [_ F' _ _]. rewrite Hs, Hg, F in F'. by apply app_inv_head in F'. }
  assert (He : intq_empty (q x) = false).
  { rewrite (full_count _ (qk_ring _ _ Hx)) in Hf. rewrite (empty_count _ (qk_ring _ _ Hx')). pose proof (queue_length (q x)) as L. rewrite Hc, queue_length in L.
    pose proof (count_range (q x)). pose proof (count_range (q (txq s))). lia. }
  assert (Hon' : Z.testbit (ier (view (uart s))) 1 = true).
  { apply Hon. rewrite (full_count _ (qk_ring _ _ Hx)) in Hf. rewrite (empty_count _ (qk_ring _ _ Hx)). lia. }
  wp_step. destruct fuel as [|[|k]]; [lia..|]. cbn [loop]. wp_step. unfold sleep_turn at 1. wp_step. wp_step. cbn [txq set_txq]. rewrite Hp'.
  wp_step. wp_step. wp_step. eapply wp_mono; [apply serial_interrupt_wp; cbn; [done|done|by rewrite view_wait|done|done]|].
  intros [] ? (x2 & y2 & w2 & -> & Hx2 & Hy2 & Hw2 & K1 & K2 & K3 & K4 & K5). cbn in Hw2, K2, K5. rewrite busy_wait in K5 by done. specialize (K5 eq_refl He).
  wp_step. apply wp_on_txq. cbn [txq].
  assert (Hp2 : phases x2 !! t = Some (Woken (Put byte))).
  { destruct (Hw2 t) as [E|(o & E & E')]; [|congruence]. rewrite Hp' in E. pose proof (qk_asleep _ _ Hx2 _ E) as Ha. cbn in Ha. congruence. }
  eapply wp_mono; [by apply (intq_resume_wp t Ht (Put byte))|]. intros [] x3 (Hx3 & Hp3 & Hm3). apply wp_ret. cbn [set_txq mode txq buffer machine uart].
  apply sleep_awake; [done|]. eapply wp_mono; [by apply write_ier_wp|]. intros [] ? ((w & -> & L1 & L2 & L3) & L4 & L5). cbn in L1, L2, L3.
  exists x3, y2, w. split; [done|]. split; [done|]. split; [done|]. split; [congruence|]. split; [|done].
  unfold stream in *; cbn in *. rewrite L2, (put_contents x2 x3 byte Hx2 Hx3 Hm3), wrap_small, app_assoc, K2, view_wait, Hc by lia. done.
Qed.

(** Taking a byte from the queue and sending it at once leaves the stream as it is. *)
Lemma send_oldest_wp s :
  level (machine s) = INTR_OFF -> dlab (view (uart s)) = false -> idle (txq s) -> intq_empty (q (txq s)) = false ->
  wp (on_txq (intq_loop t Get);; b ← tx_byte; putc_poll fuel b) (fun _ s' => exists x w, s' = Line (mode s) x (buffer s) (machine s) w /\
    idle x /\ dlab (view w) = false /\ ier (view w) = ier (view (uart s)) /\ stream s' = stream s /\ (count (q x) = count (q (txq s)) - 1)) s.
Proof.
  intros Hl Hd [Hx Hp] He. wp_step. apply wp_on_txq. eapply wp_mono; [by apply (intq_loop_wp t Ht)|]. intros [] x (Hx' & Hp' & Hm).
  destruct (get_contents (txq s) x Hx Hx' Hm) as (b & Hlast & Hc). wp_step. unfold tx_byte. wp_step. wp_step. eapply wp_deref; [exact Hlast|].
  eapply wp_mono; [apply putc_poll_wp; cbn; [done|done|lia]|]. intros [] ? (w & -> & K1 & K2 & K3). cbn in K1, K2, K3.
  exists x, w. split; [done|]. split; [done|]. split; [done|]. split; [done|]. split.
  - unfold stream; cbn. rewrite K3, Hc, <- app_assoc. done.
  - apply (f_equal length) in Hc. cbn in Hc. rewrite !queue_length in Hc. pose proof (count_range (q x)). pose proof (count_range (q (txq s))). lia.
Qed.

(** ** The line between calls *)
Record line_ok (s : S_) : Prop := {
  lk_tx : idle (txq s);
  lk_rx : idle (buffer s);
  lk_level : level (machine s) = INTR_ON -> in_external_intr (machine s) = false;
  lk_dlab : mode s <> UNINIT -> dlab (view (uart s)) = false;
  lk_early : mode s <> QUEUE -> contents (q (txq s)) = [] /\ exists R, table_ok intr_stubs R (machine s) /\ R !! (0x20 + 4) = None;
  lk_queue : mode s = QUEUE -> xmit_on s /\ recv_on s
}.

Lemma start_idle : idle start.
Proof. split; [apply start_ok|done]. Qed.

Lemma init_poll_wp s :
  mode s = UNINIT -> wp init_poll (fun _ s' => exists w, s' = Line POLL start (buffer s) (machine s) w /\ dlab (view w) = false /\
    written (view w) = written (view (uart s)) /\ divisor_low (view w) + 256 * divisor_high (view w) = 12) s.
Proof.
  intros Hm. unfold init_poll, set_serial. wp_step. wp_step. wp_step. apply wp_assert; [by rewrite Hm|].
  unfold outb. do 4 wp_step. wp_step. wp_step. apply wp_assert; [done|]. do 12 wp_step. cbn [set_uart set_txq set_mode mode txq buffer machine uart].
  eexists. split; [done|]. cbn [set_uart set_txq set_mode mode txq buffer machine uart]. rewrite !view_out. by destruct (view (uart s)) as [[] ? ? ? ?]; vm_compute.
Qed.

Lemma disable_wp s (Q : intr_level -> S_ -> Prop) :
  Q (level (machine s)) (set_machine (set_level INTR_OFF (machine s)) s) -> wp (on_machine intr_disable) Q s.
Proof. intros HQ. apply wp_on_machine. unfold intr_disable, intr_get_level. by do 5 wp_step. Qed.

Lemma restore_wp s l (Q : intr_level -> S_ -> Prop) :
  (l = INTR_ON -> in_external_intr (machine s) = false) -> (forall o, Q o (set_machine (set_level l (machine s)) s)) ->
  wp (on_machine (intr_set_level l)) Q s.
Proof.
  intros Hl HQ. apply wp_on_machine. unfold intr_set_level, intr_enable, intr_disable, intr_get_level, intr_context. destruct l; cbn [decide]; case_decide; try done.
  - by do 5 wp_step.
  - do 4 wp_step. wp_step. apply wp_assert; [by rewrite Hl|]. by do 3 wp_step.
Qed.

Lemma level_again m : set_level (level m) (set_level INTR_OFF m) = m.
Proof. by destruct m. Qed.

Lemma table_level R m l : table_ok intr_stubs R m -> table_ok intr_stubs R (set_level l m).
Proof. intros []; by split. Qed.

(** Turning interrupts off, an operation, and putting the flag back. *)
Lemma masked_wp s (body : intr_level -> M S_ unit) (Q : unit -> S_ -> Prop) :
  (level (machine s) = INTR_ON -> in_external_intr (machine s) = false) ->
  wp (body (level (machine s))) (fun _ s' => machine s' = set_level INTR_OFF (machine s) /\ Q () (set_machine (machine s) s'))
    (set_machine (set_level INTR_OFF (machine s)) s) ->
  wp (old_level ← on_machine intr_disable; body old_level;; _ ← on_machine (intr_set_level old_level); mret ()) Q s.
Proof.
  intros Hl H. wp_step. apply disable_wp. wp_step. eapply wp_mono; [exact H|]. intros [] s' [Hm HQ]. wp_step. apply restore_wp.
  - rewrite Hm. by destruct (machine s).
  - intros _. apply wp_ret. by rewrite Hm, level_again.
Qed.

Lemma poll_branch_wp s byte :
  line_ok s -> mode s <> QUEUE ->
  wp ((if decide (mode s = UNINIT) then init_poll else mret ());; putc_poll fuel byte)
    (fun _ s' => exists x w, s' = Line POLL x (buffer s) (set_level INTR_OFF (machine s)) w /\ idle x /\ contents (q x) = [] /\ dlab (view w) = false /\
      stream s' = stream s ++ [byte]) (set_machine (set_level INTR_OFF (machine s)) s).
Proof.
  intros [H1 H2 H3 H4 H5 H6] Hm. destruct (H5 Hm) as [Hc _]. wp_step.
  assert (P : forall x w, idle x -> contents (q x) = [] -> dlab (view w) = false -> written (view w) = written (view (uart s)) ->
    wp (putc_poll fuel byte) (fun _ s' => exists x w, s' = Line POLL x (buffer s) (set_level INTR_OFF (machine s)) w /\ idle x /\ contents (q x) = [] /\
      dlab (view w) = false /\ stream s' = stream s ++ [byte]) (Line POLL x (buffer s) (set_level INTR_OFF (machine s)) w)).
  { intros x w Hx Hcx Hd Hw. eapply wp_mono; [apply putc_poll_wp; cbn; [done|done|lia]|]. intros [] ? (w' & -> & K1 & K2 & K3). cbn in K1, K2, K3.
    exists x, w'. split; [done|]. split; [done|]. split; [done|]. split; [done|]. unfold stream; cbn. rewrite K3, Hcx, Hc, Hw, !app_nil_r. done. }
  case_decide as Hu.
  - eapply wp_mono; [by apply init_poll_wp|]. intros [] ? (w & -> & K1 & K2 & _). cbn in K2 |- *. apply P; [apply start_idle|done|done|done].
  - apply wp_ret. destruct s as [[] x y m w]; try done. cbn in *. apply P; [done|done|auto|done].
Qed.

Lemma putc_ok s byte :
  line_ok s -> 0 <= byte < 256 -> wp (serial_putc t fuel byte) (fun _ s' => line_ok s' /\ stream s' = stream s ++ [byte]) s.
Proof.
  intros Hs Hb. pose proof Hs as [H1 H2 H3 H4 H5 H6]. unfold serial_putc. apply masked_wp; [done|]. wp_step. wp_step. cbn [mode set_machine].
  case_bool_decide as Hm; cbn [negb].
  - destruct (H6 Hm) as [Hon Hrn]. assert (Hd : dlab (view (uart s)) = false) by (apply H4; congruence).
    apply wp_mono with (P := fun _ s' => queued [byte] (set_machine (set_level INTR_OFF (machine s)) s) s').
    2: { intros [] ? (x & y & w & -> & Hx & Hy & K1 & K2 & K3 & K4). split; [done|]. split; [by split|done]. }
    wp_step. wp_step. wp_step. cbn [txq set_machine]. destruct (intq_full (q (txq s))) eqn:Hf; cbn [andb].
    + case_bool_decide as Hl; cbn [andb].
      * eapply wp_mono; [apply send_oldest_wp; cbn; [done|done|done|]|].
        { rewrite (full_count _ (qk_ring _ _ (proj1 H1))) in Hf. rewrite (empty_count _ (qk_ring _ _ (proj1 H1))). lia. }
        intros [] ? (x & w & -> & Hx & K1 & K2 & K3 & K4). cbn in K4. eapply wp_mono; [apply put_room_wp; cbn; try done|].
        { pose proof (count_range (q (txq s))). rewrite (full_count _ (qk_ring _ _ (proj1 Hx))). lia. }
        intros [] s' (x' & y' & w' & -> & R). cbn in R. exists x', y', w'. split; [done|]. rewrite <- K3. exact R.
      * apply wp_ret. by apply put_full_wp.
    + rewrite andb_false_r. apply wp_ret. by apply put_room_wp.
  - eapply wp_mono; [by apply poll_branch_wp|]. intros [] ? (x & w & -> & Hx & Hcx & K1 & K2). split; [done|]. split; [|exact K2].
    split; cbn; try done. intros _. split; [done|]. destruct (H5 Hm) as [_ HR]. exact HR.
Qed.

Lemma flush_ok s :
  line_ok s -> wp (serial_flush t fuel) (fun _ s' => line_ok s' /\ stream s' = stream s /\ written (view (uart s')) = stream s) s.
Proof.
  intros Hs. pose proof Hs as [H1 H2 H3 H4 H5 H6]. unfold serial_flush. apply masked_wp; [done|].
  destruct (decide (mode s = QUEUE)) as [Hm|Hm].
  - assert (Hd : dlab (view (uart s)) = false) by (apply H4; congruence).
    eapply (wp_loop (fun n _ s' => exists x w, s' = Line (mode s) x (buffer s) (set_level INTR_OFF (machine s)) w /\ idle x /\ dlab (view w) = false /\
      ier (view w) = ier (view (uart s)) /\ stream s' = stream s /\ count (q x) = Z.of_nat n));
      [| |pose proof (count_range (q (txq s))); instantiate (1 := Z.to_nat (count (q (txq s)))); lia].
    + intros n [] ? (x & w & -> & Hx & K1 & K2 & K3 & K4). unfold flush_turn. wp_step. wp_step. cbn [txq]. destruct (intq_empty (q x)) eqn:Ee.
      * apply wp_ret. split; [done|]. pose proof (proj1 (empty_contents _ (qk_ring _ _ (proj1 Hx))) Ee) as Ec.
        split; [|split; [exact K3|rewrite <- K3; unfold stream; cbn; by rewrite Ec, app_nil_r]].
        split; cbn; try done. intros _. split; [intros He; cbn in He; congruence|]. unfold recv_on; cbn. rewrite K2. by apply H6.
      * wp_step. eapply wp_mono; [apply send_oldest_wp; done|]. intros [] ? (x' & w' & -> & Hx' & L1 & L2 & L3 & L4). apply wp_ret. cbn in L2, L4.
        rewrite (empty_count _ (qk_ring _ _ (proj1 Hx))) in Ee. pose proof (count_range (q x)). exists (pred n). split; [lia|]. exists x', w'. split; [done|].
        split; [done|]. split; [done|]. split; [congruence|]. split; [congruence|lia].
    + exists (txq s), (uart s). split; [by destruct s|]. split; [done|]. split; [done|]. split; [done|]. split; [done|]. pose proof (count_range (q (txq s))). lia.
  - destruct (H5 Hm) as [Hc _]. cbn [loop]. wp_step. unfold flush_turn. wp_step. wp_step. cbn [txq set_machine].
    rewrite (proj2 (empty_contents _ (qk_ring _ _ (proj1 H1))) Hc). apply wp_ret. apply wp_ret. split; [done|]. cbn.
    replace (set_machine _ _) with s by (by destruct s). split; [done|]. split; [done|]. unfold stream. by rewrite Hc, app_nil_r.
Qed.

Lemma init_queue_ok s h :
  line_ok s -> mode s <> QUEUE -> wp (serial_init_queue intr_stubs h) (fun _ s' => line_ok s' /\ stream s' = stream s /\ mode s' = QUEUE) s.
Proof.
  intros [H1 H2 H3 H4 H5 H6] Hm. destruct (H5 Hm) as (Hc & R & HR & Hn). unfold serial_init_queue. wp_step. wp_step. wp_step.
  apply wp_mono with (P := fun _ s' => exists x w, s' = Line POLL x (buffer s) (machine s) w /\ idle x /\ contents (q x) = [] /\
    dlab (view w) = false /\ written (view w) = written (view (uart s))).
  { case_decide as Hu.
    - eapply wp_mono; [by apply init_poll_wp|]. intros [] ? (w & -> & K1 & K2 & _). exists start, w. split; [done|]. split; [apply start_idle|done].
    - apply wp_ret. exists (txq s), (uart s). destruct s as [[] x y m w]; try done. cbn in *. split; [done|]. split; [done|]. split; [done|]. split; [by apply H4|done]. }
  intros [] ? (x & w & -> & Hx & Hcx & Hd & Hw). wp_step. wp_step. wp_step. apply wp_assert; [done|].
  wp_step. apply wp_on_machine. cbn [machine]. unfold serial_register, intr_register_ext. wp_step. apply wp_assert; [done|].
  eapply wp_mono; [apply (register_table intr_stubs stubs_ok R); [done|unfold INTR_CNT; lia|done|lia]|]. intros [] m [_ [E1 E2 _]]. wp_step. wp_step.
  cbn [set_machine set_mode mode txq buffer machine uart]. cbn in E1, E2. apply masked_wp; [cbn; by rewrite E1, E2|].
  eapply wp_mono; [apply write_ier_wp; done|]. intros [] ? ((w' & -> & K1 & K2 & K3) & K4 & K5). cbn in K1, K2. split; [done|]. split; [|split; [|done]].
  - split; cbn; try done; try congruence. by rewrite E1, E2.
  - unfold stream; cbn. by rewrite K2, Hw, Hcx, Hc.
Qed.

Lemma interrupt_ok s :
  line_ok s -> mode s = QUEUE ->
  wp (on_machine (modify (set_level INTR_OFF));; serial_interrupt;; on_machine (modify (set_level (level (machine s)))))
    (fun _ s' => line_ok s' /\ stream s' = stream s) s.
Proof.
  intros [H1 H2 H3 H4 H5 H6] Hm. wp_step. apply wp_on_machine, wp_modify. wp_step.
  eapply wp_mono; [apply serial_interrupt_wp; cbn; [done|done|apply H4; congruence|apply H1|done]|].
  intros [] ? (x & y & w & -> & Hx & Hy & K1 & K2 & K3 & K4 & K5 & _). apply wp_on_machine, wp_modify. cbn. rewrite level_again. split; [|exact K3].
  split; cbn; try done. apply (idle_woken (txq s)); [done|apply H1|done].
Qed.

Lemma getc_ok s :
  line_ok s -> intq_empty (q (buffer s)) = false ->
  wp (input_getc t) (fun key s' => line_ok s' /\ stream s' = stream s /\ contents (q (buffer s)) = key :: contents (q (buffer s'))) s.
Proof.
  intros [H1 H2 H3 H4 H5 H6] He. unfold input_getc. wp_step. apply disable_wp. wp_step. apply wp_on_buffer. cbn [buffer set_machine].
  eapply wp_mono; [apply (intq_loop_wp t Ht Get); [apply H2|apply H2|exact He]|]. intros [] y (Hy & Hp & Hmv).
  destruct (get_contents _ y (proj1 H2) Hy Hmv) as (b & Hlast & Hc). wp_step. wp_step. wp_step. eapply wp_deref; [exact Hlast|].
  wp_step. eapply wp_mono; [apply serial_notify_wp; cbn; [done|intros Hm; apply H4; congruence]|].
  intros [] ? ((w & -> & K1 & K2 & K3) & K4 & K5). cbn in K1, K2, K4, K5. wp_step. apply restore_wp; [done|]. intros _. apply wp_ret. cbn. rewrite level_again.
  split; [|split; [unfold stream; cbn; by rewrite K2|done]]. split; cbn; try done. intros Hu. rewrite K1. by apply H4.
Qed.

(** A key arrives, with interrupts off. *)
Lemma key_ok s key :
  line_ok s -> level (machine s) = INTR_OFF -> intq_full (q (buffer s)) = false -> 0 <= key < 256 ->
  wp (input_putc key) (fun _ s' => line_ok s' /\ machine s' = machine s /\ stream s' = stream s /\ contents (q (buffer s')) = contents (q (buffer s)) ++ [key]) s.
Proof.
  intros [H1 H2 H3 H4 H5 H6] Hl Hf Hk. eapply wp_mono; [apply input_putc_wp; [done|intros Hm; apply H4; congruence|done|done]|].
  intros [] ? ((x & w & -> & Hx & K1 & K2 & K3) & Hc & K4 & K5). cbn in *. rewrite wrap_small in Hc by lia. split; [|split; [done|split; [|done]]].
  - split; cbn; try done. rewrite K1. done.
  - unfold stream; cbn. by rewrite K2.
Qed.

(** ** What happens to the line *)

(** The kernel switches to the queue once, the line interrupts when that is
    enabled and has been set up, and a thread reads a key when there is one. *)
Inductive request := Putc (byte : Z) | Flush | SwitchToQueue (handler : Z) | LineInterrupt | Getc.

Definition serve (r : request) : M S_ unit :=
  s ← get;
  match r with
  | Putc byte => serial_putc t fuel byte
  | Flush => serial_flush t fuel
  | SwitchToQueue h => if decide (mode s = QUEUE) then mret () else serial_init_queue intr_stubs h
  | LineInterrupt =>
      if decide (level (machine s) = INTR_ON /\ mode s = QUEUE) then
        on_machine (modify (set_level INTR_OFF));; serial_interrupt;; on_machine (modify (set_level (level (machine s))))
      else mret ()
  | Getc => if intq_empty (q (buffer s)) then mret () else input_getc t;; mret ()
  end.

Fixpoint serve_all (rs : list request) : M S_ unit := match rs with [] => mret () | r :: rs => serve r;; serve_all rs end.

Definition request_ok (r : request) : Prop := match r with Putc byte => 0 <= byte < 256 | _ => True end.
Definition bytes_of (r : request) : list Z := match r with Putc byte => [byte] | _ => [] end.

Lemma serve_ok r s : line_ok s -> request_ok r -> wp (serve r) (fun _ s' => line_ok s' /\ stream s' = stream s ++ bytes_of r) s.
Proof.
  intros Hs Hr. unfold serve. wp_step. wp_step. destruct r; cbn [bytes_of]; rewrite ?app_nil_r.
  - by apply putc_ok.
  - eapply wp_mono; [by apply flush_ok|]. intros [] s' (? & ? & _). done.
  - case_decide; [by apply wp_ret|]. eapply wp_mono; [by apply init_queue_ok|]. intros [] s' (? & ? & _). done.
  - case_decide as Hd; [|by apply wp_ret]. apply interrupt_ok; [done|apply Hd].
  - destruct (intq_empty (q (buffer s))) eqn:He; [by apply wp_ret|]. wp_step. eapply wp_mono; [by apply getc_ok|]. intros key s' (? & ? & _). by apply wp_ret.
Qed.

Lemma serve_all_ok rs s : line_ok s -> Forall request_ok rs ->
  wp (serve_all rs) (fun _ s' => line_ok s' /\ stream s' = stream s ++ (rs ≫= bytes_of)) s.
Proof.
  intros Hs Hrs. revert s Hs. induction Hrs as [|r rs Hr _ IH]; intros s Hs; cbn [serve_all].
  - apply wp_ret. by rewrite app_nil_r.
  - wp_step. eapply wp_mono; [by apply serve_ok|]. intros [] s' [Hs' E]. eapply wp_mono; [by apply IH|]. intros [] s2 [Hs2 E2]. split; [done|].
    by rewrite E2, E, bind_cons, app_assoc.
Qed.

(** C1: Whatever bytes threads send, before and after the line is switched from
    polling to its queue, with interrupts on or off, and however the line
    interrupts, keys are read and the queue is flushed in between: no assertion
    fails, no call hangs, and the bytes on the line followed by those in the queue
    are the bytes sent, in order; a flush at the end puts all of them on the line.
    While the queue has a byte the line interrupts when it can take it, and it
    interrupts for received bytes exactly when the input buffer has room. *)
Theorem serial_line_in_order rs s :
  line_ok s -> Forall request_ok rs ->
  wp (serve_all rs) (fun _ s' => stream s' = stream s ++ (rs ≫= bytes_of) /\ (mode s' = QUEUE -> xmit_on s' /\ recv_on s') /\
    wp (serial_flush t fuel) (fun _ s2 => written (view (uart s2)) = stream s ++ (rs ≫= bytes_of)) s') s.
Proof.
  intros Hs Hrs. eapply wp_mono; [by apply serve_all_ok|]. intros [] s' [Hs' E]. split; [done|]. split; [apply Hs'|].
  eapply wp_mono; [by apply flush_ok|]. intros [] s2 (_ & _ & ->). done.
Qed.
End correct.

(** ** A chip *)
Module Sim.

(** [sending] until its status is read, and the bytes that will come in. *)
Record chip := Chip { regs : registers; sending : bool; coming : list Z }.

Definition status (c : chip) : Z := (if sending c then 0 else LSR_THRE) + (if coming c then 0 else LSR_DR).
Definition received (c : chip) : Z := match coming c with b :: _ => u8 b | [] => 0 end.

#[export] Instance chip_uart : Uart chip := {
  u_in p c :=
    if p =? LSR_REG then (status c, Chip (regs c) false (coming c))
    else if p =? RBR_REG then (received c, Chip (regs c) (sending c) (drop 1 (coming c)))
    else (0, c);
  u_out p v c := Chip (write_register p v (regs c)) ((p =? THR_REG) || sending c) (coming c);
  u_wait c := Chip (regs c) false (coming c)
}.

#[export] Instance chip_laws : UartLaws chip.
Proof.
  refine {| view := regs; busy c := if sending c then 1%nat else 0%nat; patience := 1 |}; unfold u_in, u_out, u_wait; cbn -[write_register].
  - intros p c. by repeat case_match.
  - intros p c. unfold status, received. repeat case_match; cbn; try lia. all: pose proof (wrap_range 8 z ltac:(lia)); lia.
  - intros c. unfold status. by destruct (sending c), (coming c).
  - intros c. rewrite Z.eqb_refl. cbn. destruct (sending c); cbn; lia.
  - intros p c. destruct (p =? _); cbn; [destruct (sending c); lia|]. destruct (p =? _); cbn; destruct (sending c); lia.
  - done.
  - intros p v c Hp. rewrite (proj2 (Z.eqb_neq _ _)) by done. done.
  - intros c. destruct (sending c); lia.
  - done.
  - done.
Defined.

(** The line when the kernel starts with interrupts on, and bytes that will come
    in. *)
Definition power_on (m : intr) : line chip := Line UNINIT start start m (Chip (Registers true 0 0 0 []) true (seqZ 1 70)).

Lemma power_on_ok m : table_ok demo_stubs ∅ m -> in_external_intr m = false -> line_ok 1 demo_stubs (power_on m).
Proof. intros Hm He. split; cbn; try done; try apply start_idle; try lia. intros _. split; [done|]. by exists ∅. Qed.

Definition requests : list request :=
  [Putc 1; SwitchToQueue 600] ++ (Putc <$> seqZ 0 100) ++ [LineInterrupt; Getc; Putc 2; Flush; Putc 3].

Lemma serial_line_in_order_witness : exists m, level m = INTR_ON /\
  wp (serve_all 1 demo_stubs 3 requests) (fun _ s' =>
    stream s' = [1] ++ seqZ 0 100 ++ [2; 3] /\ (mode s' = QUEUE -> xmit_on s' /\ recv_on s') /\
    wp (serial_flush 1 3) (fun _ s2 => written (view (uart s2)) = [1] ++ seqZ 0 100 ++ [2; 3]) s') (power_on m).
Proof.
  destruct demo_intr_fresh as (F1 & F2 & F3).
  destruct (proj1 (wp_iff _ _ _) (intr_init_table demo_stubs demo_stubs_ok demo_intr 0xc0040000 F1 F2 F3)) as ([] & m & _ & Hm & Hf).
  exists (set_level INTR_ON m). split; [done|]. assert (Hp : (S (patience (W := chip)) < 3)%nat) by (cbn; lia).
  apply (serial_line_in_order 1 ltac:(lia) demo_stubs demo_stubs_ok 3 Hp requests (power_on (set_level INTR_ON m))).
  - apply power_on_ok; [by apply table_level|]. destruct Hf as [E _ _]. exact E.
  - repeat (constructor; [cbn; lia|]). constructor.
Defined.
End Sim.
