(* ===== verification/Kbd.v ===== *)
(** * The keyboard (src/devices/kbd.c)

    The interrupt handler of the keyboard, on the input buffer and the serial line
    of Serial.v.  [scan n] is the [n]th byte that the keyboard controller delivers.

    Theorem: typing any text of printable characters on a keyboard with the US
    layout puts exactly that text into the input buffer. *)

From stdpp Require Import strings.
From S2P Require Import Prelude Kstdio Gdt Interrupt Intq Serial.

(** ** State *)
Record keys := Keys {
  left_shift : bool; right_shift : bool;
  left_alt : bool; right_alt : bool;
  left_ctrl : bool; right_ctrl : bool;
  caps_lock : bool
}.

Record kbd (W : Type) := Kbd { held : keys; key_cnt : Z; delivered : nat; input : line W }.
Arguments Kbd {W}.
Arguments held {W}.
Arguments key_cnt {W}.
Arguments delivered {W}.
Arguments input {W}.

(** [shutdown_reboot] does not return. *)
Inductive outcome := Return | Reboot.

(** ** Key maps *)
Record keymap := Keymap { first_scancode : Z; chars : list Z }.

Definition invariant_keymap : list keymap := [
  Keymap 0x01 [27];
  Keymap 0x0e [8];
  Keymap 0x0f (9 :: txt "QWERTYUIOP");
  Keymap 0x1c [13];
  Keymap 0x1e (txt "ASDFGHJKL");
  Keymap 0x2c (txt "ZXCVBNM");
  Keymap 0x37 (txt "*");
  Keymap 0x39 (txt " ");
  Keymap 0x53 [127]]%string.

Definition unshifted_keymap : list keymap := [
  Keymap 0x02 (txt "1234567890-=");
  Keymap 0x1a (txt "[]");
  Keymap 0x27 (txt ";'`");
  Keymap 0x2b [92];
  Keymap 0x33 (txt ",./")]%string.

Definition shifted_keymap : list keymap := [
  Keymap 0x02 (txt "!@#$%^&*()_+");
  Keymap 0x1a (txt "{}");
  Keymap 0x27 [58; 34; 126];
  Keymap 0x2b (txt "|");
  Keymap 0x33 (txt "<>?")]%string.

Fixpoint map_key (k : list keymap) (scancode : Z) : option Z :=
  match k with
  | [] => None
  | m :: k => if (first_scancode m <=? scancode) && (scancode <? first_scancode m + alen (chars m))
              then (chars m).[scancode - first_scancode m] else map_key k scancode
  end.

Definition tolower (c : Z) : Z := if (65 <=? c) && (c <=? 90) then c - 65 + 97 else c.

Definition shift (k : keys) : bool := left_shift k || right_shift k.
Definition alt (k : keys) : bool := left_alt k || right_alt k.
Definition ctrl (k : keys) : bool := left_ctrl k || right_ctrl k.

(** The condition of the second branch of [keyboard_interrupt], with the character
    that it finds. *)
Definition find_char (k : keys) (code : Z) : option Z :=
  match map_key invariant_keymap code with
  | Some c => Some c
  | None => map_key (if shift k then shifted_keymap else unshifted_keymap) code
  end.

(** Ctrl, Shift, Caps Lock and Alt. *)
Definition adjust (k : keys) (c : Z) : Z :=
  let c := if ctrl k && (0x40 <=? c) && (c <? 0x60) then c - 0x40
           else if Bool.eqb (shift k) (caps_lock k) then tolower c else c in
  if alt k then u8 (c + 0x80) else c.

(** The table of shift keys. *)
Definition shift_key (code : Z) (down : bool) (k : keys) : keys :=
  if code =? 0x2a then Keys down (right_shift k) (left_alt k) (right_alt k) (left_ctrl k) (right_ctrl k) (caps_lock k)
  else if code =? 0x36 then Keys (left_shift k) down (left_alt k) (right_alt k) (left_ctrl k) (right_ctrl k) (caps_lock k)
  else if code =? 0x38 then Keys (left_shift k) (right_shift k) down (right_alt k) (left_ctrl k) (right_ctrl k) (caps_lock k)
  else if code =? 0xe038 then Keys (left_shift k) (right_shift k) (left_alt k) down (left_ctrl k) (right_ctrl k) (caps_lock k)
  else if code =? 0x1d then Keys (left_shift k) (right_shift k) (left_alt k) (right_alt k) down (right_ctrl k) (caps_lock k)
  else if code =? 0xe01d then Keys (left_shift k) (right_shift k) (left_alt k) (right_alt k) (left_ctrl k) down (caps_lock k)
  else k.

Definition toggle_caps (k : keys) : keys :=
  Keys (left_shift k) (right_shift k) (left_alt k) (right_alt k) (left_ctrl k) (right_ctrl k) (negb (caps_lock k)).

(** ** The handler *)
Section driver.
Context {W : Type} `{!Uart W}.
Variable scan : nat -> Z.
Abbreviation S_ := (kbd W).

Definition set_held (k : keys) (s : S_) : S_ := Kbd k (key_cnt s) (delivered s) (input s).
Definition on_line {A} (m : M (line W) A) : M S_ A := fun s =>
  match m (input s) with Ok (a, l) => Ok (a, Kbd (held s) (key_cnt s) (delivered s) l) | Err e => Err e end.

Definition read_data : M S_ Z := fun s => Ok (u8 (scan (delivered s)), Kbd (held s) (key_cnt s) (S (delivered s)) (input s)).

Definition kbd_init (intr_stubs : Z -> Z) (keyboard_interrupt : Z) : M S_ unit :=
  on_line (on_machine (kbd_register intr_stubs keyboard_interrupt)).

Definition keyboard_interrupt : M S_ outcome :=
  k ← gets held;
  code ← read_data;
  code ← (if code =? 0xe0 then c2 ← read_data; mret (Z.lor (Z.shiftl code 8) c2) else mret code);
  let release := negb (Z.land code 0x80 =? 0) in
  let code := Z.land code (2 ^ 32 - 1 - 0x80) in
  if code =? 0x3a then
    (if release then mret () else modify (fun s => set_held (toggle_caps (held s)) s));;
    mret Return
  else
    match find_char k code with
    | Some c =>
        if release then mret Return
        else if (c =? 0x7f) && ctrl k && alt k then mret Reboot
        else
          let c := adjust k c in
          f ← on_line input_full;
          if f : bool then mret Return
          else
            modify (fun s => Kbd (held s) (s64 (key_cnt s + 1)) (delivered s) (input s));;
            on_line (input_putc c);;
            mret Return
    | None =>
        modify (fun s => set_held (shift_key code (negb release) (held s)) s);;
        mret Return
    end.

(** So many interrupts, up to a reboot. *)
Fixpoint interrupts (n : nat) : M S_ outcome :=
  match n with
  | O => mret Return
  | S n => o ← keyboard_interrupt; match o with Return => interrupts n | Reboot => mret Reboot end
  end.
End driver.

(** ** Typing *)

(** The rows of a US keyboard: first scan code, characters, characters with Shift. *)
Definition rows : list (Z * list Z * list Z) := [
  (0x02, txt "1234567890-=", txt "!@#$%^&*()_+");
  (0x10, txt "qwertyuiop[]", txt "QWERTYUIOP{}");
  (0x1e, txt "asdfghjkl;'`", (txt "ASDFGHJKL" ++ [58; 34; 126])%list);
  (0x2b, 92 :: txt "zxcvbnm,./", txt "|ZXCVBNM<>?");
  (0x39, txt " ", [])]%string.

Fixpoint index (c : Z) (l : list Z) : option Z :=
  match l with [] => None | x :: l => if c =? x then Some 0 else Z.succ <$> index c l end.

Fixpoint key_of (c : Z) (l : list (Z * list Z * list Z)) : option (bool * Z) :=
  match l with
  | [] => None
  | (code, plain, shifted) :: l =>
      match index c plain, index c shifted with
      | Some i, _ => Some (false, code + i)
      | None, Some i => Some (true, code + i)
      | None, None => key_of c l
      end
  end.

(** What the keyboard sends when a character is typed: Shift down, key down and
    up, Shift up. *)
Definition strokes (c : Z) : list Z :=
  match key_of c rows with
  | Some (true, code) => [0x2a; code; code + 0x80; 0xaa]
  | Some (false, code) => [code; code + 0x80]
  | None => []
  end.

Definition plain (shifted : bool) : keys := Keys shifted false false false false false false.

(** What a key sends for its scan code: itself when pressed, with bit 7 when
    released. *)
Definition sends (b code : Z) (release : bool) : bool :=
  (u8 b =? b) && negb (b =? 0xe0) && Bool.eqb (negb (Z.land b 0x80 =? 0)) release && (Z.land b (2 ^ 32 - 1 - 0x80) =? code) && negb (code =? 0x3a).

Definition stroke_check (c : Z) : bool :=
  match key_of c rows with
  | Some (sh, code) =>
      sends code code false && sends (code + 0x80) code true &&
      match find_char (plain sh) code with Some c0 => negb (c0 =? 0x7f) && (adjust (plain sh) c0 =? c) | None => false end
  | None => false
  end.

Lemma stroke_checked c : 32 <= c < 127 -> exists sh code c0, key_of c rows = Some (sh, code) /\ sends code code false = true /\ sends (code + 0x80) code true = true /\
  find_char (plain sh) code = Some c0 /\ c0 <> 0x7f /\ adjust (plain sh) c0 = c.
Proof.
  intros Hc. assert (A : forallb stroke_check (seqZ 32 95) = true) by (vm_compute; reflexivity).
  apply (forallb_seqZ _ _ _ c) in A; [|lia]. unfold stroke_check in A.
  destruct (key_of c rows) as [[sh code]|]; [|done]. rewrite !andb_true_iff in A. destruct A as [[A1 A2] A3].
  destruct (find_char (plain sh) code) as [c0|] eqn:E; [|done]. rewrite andb_true_iff, negb_true_iff, Z.eqb_neq, Z.eqb_eq in A3.
  exists sh, code, c0. by destruct A3.
Qed.

Section typing.
Context {W : Type} `{!Uart W} `{!UartLaws W}.
Variable scan : nat -> Z.
Abbreviation S_ := (kbd W).
Variable t : Z.
Hypothesis Ht : t <> 0.
Variable intr_stubs : Z -> Z.

Lemma wp_on_line {A} (m : M (line W) A) (Q : A -> S_ -> Prop) s :
  wp m (fun a l => Q a (Kbd (held s) (key_cnt s) (delivered s) l)) (input s) -> wp (on_line m) Q s.
Proof. unfold wp, on_line. by destruct (m (input s)) as [[]|]. Qed.

(** The keys that are held, with the line in order and interrupts off. *)
Definition ready (sh : bool) (s : S_) : Prop := held s = plain sh /\ line_ok t intr_stubs (input s) /\ level (machine (input s)) = INTR_OFF.

Definition room (s : S_) : Z := 63 - alen (contents (q (buffer (input s)))).

(** The start of the handler, for a byte without a prefix. *)
Lemma start_wp s b code release (Q : outcome -> S_ -> Prop) :
  scan (delivered s) = b -> sends b code release = true ->
  wp (match find_char (held s) code with
      | Some c =>
          if release then mret Return
          else if (c =? 0x7f) && ctrl (held s) && alt (held s) then mret Reboot
          else
            f ← on_line input_full;
            if f : bool then mret Return
            else
              modify (fun s => Kbd (held s) (s64 (key_cnt s + 1)) (delivered s) (input s));;
              on_line (input_putc (adjust (held s) c));;
              mret Return
      | None => modify (fun s => set_held (shift_key code (negb release) (held s)) s);; mret Return
      end) Q (Kbd (held s) (key_cnt s) (S (delivered s)) (input s)) ->
  wp (keyboard_interrupt scan) Q s.
Proof.
  intros Hb Hs HQ. unfold sends in Hs. rewrite !andb_true_iff, !negb_true_iff, !Z.eqb_eq, Z.eqb_neq in Hs. destruct Hs as [[[[H1 H2] H3%Bool.eqb_prop] H4] H5].
  unfold keyboard_interrupt. wp_step. wp_step. wp_step. eapply wp_eq; [reflexivity|]. rewrite Hb, H1. wp_step. rewrite (proj2 (Z.eqb_neq _ _) H2). apply wp_ret.
  cbv zeta. rewrite H3, H4, H5. exact HQ.
Qed.
End typing.
