(* ===== verification/Inode.v ===== *)
(** * Inodes (src/filesys/inode.c)

    The state of the file system: the device, the open inodes, files and
    directories, and the free map with its file.  Objects live at addresses
    that [alloc] hands out; the outcomes of the allocations are a list of the
    state, so that every theorem covers every allocation that fails.  This file
    has the reading and writing of an inode's data; FreeMap and Filesys have
    the rest of the file system. *)

From S2P Require Import Prelude Bitmap Block.

Definition INODE_MAGIC : Z := 0x494e4f44.

Record inode_disk := InodeDisk { start : Z; ilength : Z; magic : Z }.

Record inode := Inode {
  sector : Z;
  open_cnt : Z;
  removed : bool;
  deny_write_cnt : Z;
  data : inode_disk
}.

Record file := File { f_inode : Z; f_pos : Z; f_deny_write : bool }.
Record dir := Dir { d_inode : Z; d_pos : Z }.

Record fsys := Fsys {
  fs_device : block;
  inodes : gmap Z inode;
  open_inodes : list Z;
  files : gmap Z file;
  dirs : gmap Z dir;
  free_map : bitmap;
  free_map_file : Z;
  fresh : Z;                 (* the next address [alloc] returns *)
  outcomes : list bool       (* of the next allocations; those after them succeed *)
}.

Definition set_device (b : block) (s : fsys) : fsys :=
  Fsys b (inodes s) (open_inodes s) (files s) (dirs s) (free_map s) (free_map_file s) (fresh s) (outcomes s).
Definition set_inodes (m : gmap Z inode) (s : fsys) : fsys :=
  Fsys (fs_device s) m (open_inodes s) (files s) (dirs s) (free_map s) (free_map_file s) (fresh s) (outcomes s).
Definition set_open (l : list Z) (s : fsys) : fsys :=
  Fsys (fs_device s) (inodes s) l (files s) (dirs s) (free_map s) (free_map_file s) (fresh s) (outcomes s).
Definition set_files (m : gmap Z file) (s : fsys) : fsys :=
  Fsys (fs_device s) (inodes s) (open_inodes s) m (dirs s) (free_map s) (free_map_file s) (fresh s) (outcomes s).
Definition set_dirs (m : gmap Z dir) (s : fsys) : fsys :=
  Fsys (fs_device s) (inodes s) (open_inodes s) (files s) m (free_map s) (free_map_file s) (fresh s) (outcomes s).
Definition set_map (b : bitmap) (s : fsys) : fsys :=
  Fsys (fs_device s) (inodes s) (open_inodes s) (files s) (dirs s) b (free_map_file s) (fresh s) (outcomes s).
Definition set_map_file (f : Z) (s : fsys) : fsys :=
  Fsys (fs_device s) (inodes s) (open_inodes s) (files s) (dirs s) (free_map s) f (fresh s) (outcomes s).
Definition set_alloc (n : Z) (o : list bool) (s : fsys) : fsys :=
  Fsys (fs_device s) (inodes s) (open_inodes s) (files s) (dirs s) (free_map s) (free_map_file s) n o.

Definition on_dev {A} (m : M block A) : M fsys A := fun s =>
  match m (fs_device s) with Ok (a, b) => Ok (a, set_device b s) | Err e => Err e end.

(** [malloc] and [calloc]: an address, or 0. *)
Definition alloc : M fsys Z :=
  s ← get;
  match outcomes s with
  | false :: o => put (set_alloc (fresh s) o s);; mret 0
  | o => put (set_alloc (fresh s + 1) (tail o) s);; mret (fresh s)
  end.

Definition get_inode (ip : Z) : M fsys inode := s ← get; deref (inodes s !! ip).
Definition put_inode (ip : Z) (i : inode) : M fsys unit :=
  modify (fun s => set_inodes (<[ip := i]> (inodes s)) s).

(** [memcpy] into a buffer at an offset. *)
Definition copy_to {S} (buffer : list Z) (ofs : Z) (bytes : list Z) : M S (list Z) :=
  deref (if ofs + alen bytes <=? alen buffer then Some (splice buffer (Z.to_nat ofs) bytes) else None).

(** ** Sizes and positions *)
Definition bytes_to_sectors (size : Z) : Z := u32 (Z.quot (s32 (size + BLOCK_SECTOR_SIZE - 1)) BLOCK_SECTOR_SIZE).

Definition byte_to_sector (ip pos : Z) : M fsys Z :=
  i ← get_inode ip;
  mret (if pos <? ilength (data i) then u32 (start (data i) + Z.quot pos BLOCK_SECTOR_SIZE) else u32 (-1)).

Definition inode_length (ip : Z) : M fsys Z := i ← get_inode ip; mret (ilength (data i)).

(** Offset in the sector, bytes left in it and bytes to copy from it, when
    [size] bytes at [offset] are left to copy of a file of [length] bytes. *)
Definition chunk_of (length size offset : Z) : Z * Z * Z :=
  let sector_ofs := Z.rem offset BLOCK_SECTOR_SIZE in
  let inode_left := s32 (length - offset) in
  let sector_left := BLOCK_SECTOR_SIZE - sector_ofs in
  let min_left := if inode_left <? sector_left then inode_left else sector_left in
  (sector_ofs, sector_left, if size <? min_left then size else min_left).

(** ** Reading and writing *)
(** The bounce buffer is allocated when it is first needed. *)
Definition need_bounce (bounce : bool) : M fsys bool :=
  if bounce then mret true else p ← alloc; mret (negb (p =? 0)).

(** The number of bytes read and the buffer. *)
Definition inode_read_at (ip : Z) (buffer : list Z) (size offset : Z) : M fsys (Z * list Z) :=
  loop (S (Z.to_nat size)) (fun '(size, offset, bytes_read, bounce, buffer) =>
    if 0 <? size then
      sector_idx ← byte_to_sector ip offset;
      length ← inode_length ip;
      let '(sector_ofs, sector_left, chunk_size) := chunk_of length size offset in
      if chunk_size <=? 0 then mret (inr (bytes_read, buffer))
      else
        let next bounce buffer := inl (size - chunk_size, offset + chunk_size, bytes_read + chunk_size, bounce, buffer) in
        if (sector_ofs =? 0) && (chunk_size =? BLOCK_SECTOR_SIZE) then
          d ← on_dev (block_read sector_idx);
          buffer ← copy_to buffer bytes_read d;
          mret (next bounce buffer)
        else
          ok ← need_bounce bounce;
          if negb ok then mret (inr (bytes_read, buffer))
          else
            d ← on_dev (block_read sector_idx);
            buffer ← copy_to buffer bytes_read (slice_of d (Z.to_nat sector_ofs) (Z.to_nat chunk_size));
            mret (next true buffer)
    else mret (inr (bytes_read, buffer))) (size, offset, 0, false, buffer).

(** The part of the caller's buffer that goes into a sector. *)
Definition copy_from {S} (buffer : list Z) (ofs n : Z) : M S (list Z) :=
  deref (if ofs + n <=? alen buffer then Some (slice_of buffer (Z.to_nat ofs) (Z.to_nat n)) else None).

Definition inode_write_at (ip : Z) (buffer : list Z) (size offset : Z) : M fsys Z :=
  i ← get_inode ip;
  if negb (deny_write_cnt i =? 0) then mret 0 else
  loop (S (Z.to_nat size)) (fun '(size, offset, bytes_written, bounce) =>
    if 0 <? size then
      sector_idx ← byte_to_sector ip offset;
      length ← inode_length ip;
      let '(sector_ofs, sector_left, chunk_size) := chunk_of length size offset in
      if chunk_size <=? 0 then mret (inr bytes_written)
      else
        let next bounce := inl (size - chunk_size, offset + chunk_size, bytes_written + chunk_size, bounce) in
        if (sector_ofs =? 0) && (chunk_size =? BLOCK_SECTOR_SIZE) then
          d ← copy_from buffer bytes_written chunk_size;
          on_dev (block_write sector_idx d);;
          mret (next bounce)
        else
          ok ← need_bounce bounce;
          if negb ok then mret (inr bytes_written)
          else
            d ← (if (0 <? sector_ofs) || (chunk_size <? sector_left)
                 then on_dev (block_read sector_idx) else mret (replicate SECTOR 0));
            c ← copy_from buffer bytes_written chunk_size;
            d ← copy_to d sector_ofs c;
            on_dev (block_write sector_idx d);;
            mret (next true)
    else mret (inr bytes_written)) (size, offset, 0, false).

(** ** Other operations *)
Definition inode_init : M fsys unit := modify (set_open []).

Definition inode_reopen (ip : Z) : M fsys Z :=
  (if ip =? 0 then mret ()
   else i ← get_inode ip;
        put_inode ip (Inode (sector i) (s32 (open_cnt i + 1)) (removed i) (deny_write_cnt i) (data i)));;
  mret ip.

Definition inode_get_inumber (ip : Z) : M fsys Z := i ← get_inode ip; mret (sector i).

Definition inode_remove (ip : Z) : M fsys unit :=
  assert (negb (ip =? 0));;
  i ← get_inode ip;
  put_inode ip (Inode (sector i) (open_cnt i) true (deny_write_cnt i) (data i)).

Definition inode_deny_write (ip : Z) : M fsys unit :=
  i ← get_inode ip;
  let d := s32 (deny_write_cnt i + 1) in
  put_inode ip (Inode (sector i) (open_cnt i) (removed i) d (data i));;
  assert (d <=? open_cnt i).

Definition inode_allow_write (ip : Z) : M fsys unit :=
  i ← get_inode ip;
  assert (0 <? deny_write_cnt i);;
  assert (deny_write_cnt i <=? open_cnt i);;
  put_inode ip (Inode (sector i) (open_cnt i) (removed i) (deny_write_cnt i - 1) (data i)).

(** ** The data of an inode *)
(** What operations on file data leave alone: all but the sectors, the
    counters of the device and the allocator. *)
Record fs_frame (s s' : fsys) : Prop := {
  fr_inodes : inodes s' = inodes s;
  fr_open : open_inodes s' = open_inodes s;
  fr_files : files s' = files s;
  fr_dirs : dirs s' = dirs s;
  fr_map : free_map s' = free_map s;
  fr_map_file : free_map_file s' = free_map_file s;
  fr_size : bsize (fs_device s') = bsize (fs_device s);
  fr_type : btype (fs_device s') = btype (fs_device s);
  fr_fresh : fresh s <= fresh s';
  fr_outcomes : outcomes s = [] -> outcomes s' = []
}.

Lemma fs_frame_refl s : fs_frame s s.
Proof. by split. Qed.

Lemma fs_frame_trans s1 s2 s3 : fs_frame s1 s2 -> fs_frame s2 s3 -> fs_frame s1 s3.
Proof. intros [] []. split; try congruence; [lia|auto]. Qed.

Abbreviation disk s := (sectors (fs_device s)).

(** The bytes of the [n] sectors from [st] on. *)
Definition region (D : list (list Z)) (st n : nat) : list Z := concat (slice_of D st n).

(** An inode whose data are the [n] sectors from [st] on. *)
Record data_ok (D : list (list Z)) (d : inode_disk) (st n : nat) : Prop := {
  do_start : start d = Z.of_nat st;
  do_end : (st + n <= length D)%nat;
  do_length : 0 <= ilength d < 2 ^ 31;
  do_room : ilength d <= Z.of_nat (n * SECTOR);
  do_disk : Z.of_nat (length D) < 2 ^ 32
}.

Definition contents (D : list (list Z)) (d : inode_disk) (st n : nat) : list Z :=
  take (Z.to_nat (ilength d)) (region D st n).

Lemma region_length D st n :
  Forall (fun d => length d = SECTOR) D -> (st + n <= length D)%nat -> length (region D st n) = (n * SECTOR)%nat.
Proof.
  intros Hall Hn. unfold region. rewrite (concat_length SECTOR); [by rewrite slice_of_length|].
  unfold slice_of. by apply Forall_take, Forall_drop.
Qed.

(** The sector of a position and the chunk copied from it. *)
Lemma chunk_of_inside len size off :
  0 <= len < 2 ^ 31 -> 0 <= off < len -> 0 < size ->
  exists k ofs c, off = Z.of_nat (k * SECTOR + ofs) /\ (ofs < SECTOR)%nat /\ Z.quot off BLOCK_SECTOR_SIZE = Z.of_nat k /\
    chunk_of len size off = (Z.of_nat ofs, 512 - Z.of_nat ofs, Z.of_nat c) /\
    (0 < c)%nat /\ (ofs + c <= SECTOR)%nat /\ Z.of_nat c <= size /\ off + Z.of_nat c <= len.
Proof.
  intros Hlen Hoff Hsz. unfold chunk_of, BLOCK_SECTOR_SIZE, SECTOR.
  rewrite Z.rem_mod_nonneg, Z.quot_div_nonneg by lia.
  pose proof (Z.div_mod off 512 ltac:(lia)). pose proof (Z.mod_pos_bound off 512 ltac:(lia)).
  pose proof (Z.div_pos off 512). rewrite swrap_small by lia.
  set (c := if _ <? _ then size else _). assert (0 < c /\ off mod 512 + c <= 512 /\ c <= size /\ off + c <= len) as Hc.
  { unfold c. destruct (Z.ltb_spec (len - off) (512 - off mod 512)).
    - destruct (Z.ltb_spec size (len - off)); lia.
    - destruct (Z.ltb_spec size (512 - off mod 512)); lia. }
  exists (Z.to_nat (off / 512)), (Z.to_nat (off mod 512)), (Z.to_nat c). split_and!; try lia.
  do 2 f_equal; lia.
Qed.

Lemma chunk_of_past len size off :
  0 <= len < 2 ^ 31 -> len <= off < 2 ^ 31 -> 0 < size -> (snd (chunk_of len size off)) <= 0.
Proof.
  intros Hlen Hoff Hsz. unfold chunk_of, BLOCK_SECTOR_SIZE. simpl. rewrite swrap_small by lia.
  rewrite Z.rem_mod_nonneg by lia. pose proof (Z.mod_pos_bound off 512 ltac:(lia)).
  rewrite (proj2 (Z.ltb_lt (len - off) (512 - off mod 512))) by lia. destruct (Z.ltb_spec size (len - off)); lia.
Qed.

Lemma get_inode_ok s ip i : inodes s !! ip = Some i -> get_inode ip s = Ok (i, s).
Proof. intros H. unfold get_inode, mbind, M_bind, get, deref. by rewrite H. Qed.

(** The [k]th data sector of an inode. *)
Lemma data_sector D d st n k e :
  data_ok D d st n -> slice_of D st n !! k = Some e ->
  u32 (start d + Z.of_nat k) = Z.of_nat (st + k) /\ D.[Z.of_nat (st + k)] = Some e /\ (k < n)%nat.
Proof.
  intros [H1 H2 H3 H4 H5] He. pose proof (lookup_lt_Some _ _ _ He) as Hk. rewrite slice_of_length in Hk by done.
  rewrite slice_of_lookup in He by done. split_and!; [|by rewrite aget_nat|done].
  rewrite H1, <- Nat2Z.inj_add. apply wrap_small. lia.
Qed.

Lemma data_slice D st n k e ofs c :
  Forall (fun d => length d = SECTOR) D -> slice_of D st n !! k = Some e -> (ofs + c <= SECTOR)%nat ->
  slice_of e ofs c = slice_of (region D st n) (k * SECTOR + ofs) c.
Proof.
  intros Hall He Hc. assert (Forall (fun d => length d = SECTOR) (slice_of D st n)) as Hs
    by (unfold slice_of; by apply Forall_take, Forall_drop).
  destruct (concat_split SECTOR _ k e Hs He) as (l & r & E & Hl & _). unfold region. rewrite E, <- Hl.
  rewrite slice_of_mid; [done|]. by rewrite (Forall_lookup_1 _ _ _ _ Hs He).
Qed.

(** Writing a part of the [k]th data sector writes that part of the region. *)
Lemma data_splice D st n k e ofs bytes :
  Forall (fun d => length d = SECTOR) D -> slice_of D st n !! k = Some e -> (ofs + length bytes <= SECTOR)%nat ->
  (st + n <= length D)%nat ->
  region (<[(st + k)%nat := splice e ofs bytes]> D) st n = splice (region D st n) (k * SECTOR + ofs) bytes.
Proof.
  intros Hall He Hc Hn. assert (Forall (fun d => length d = SECTOR) (slice_of D st n)) as Hs
    by (unfold slice_of; by apply Forall_take, Forall_drop).
  pose proof (lookup_lt_Some _ _ _ He) as Hk. rewrite slice_of_length in Hk by done.
  destruct (concat_split SECTOR _ k e Hs He) as (l & r & E & Hl & Hu). unfold region.
  rewrite E, <- Hl, splice_mid by (by rewrite (Forall_lookup_1 _ _ _ _ Hs He)). rewrite <- Hu. f_equal.
  unfold slice_of. rewrite drop_insert_ge by lia. rewrite Nat.add_comm, Nat.add_sub. by rewrite take_insert_lt.
Qed.

Section data.
Context (s : fsys) (ip : Z) (i : inode) (st n : nat).
Hypothesis Hi : inodes s !! ip = Some i.
Hypothesis Hb : block_ok (fs_device s).
Hypothesis Hd : data_ok (disk s) (data i) st n.

Abbreviation B := (region (disk s) st n).
Abbreviation len := (ilength (data i)).

(** How much of [size] bytes at [off] is inside the file. *)
Definition avail (size off : Z) : Z := Z.max 0 (Z.min size (len - off)).

Lemma need_bounce_ok bounce s1 :
  fs_frame s s1 -> 0 < fresh s1 ->
  wp (need_bounce bounce) (fun ok s2 => fs_frame s s2 /\ 0 < fresh s2 /\ fs_device s2 = fs_device s1 /\
    (outcomes s = [] -> ok = true)) s1.
Proof.
  intros Hfr Hfresh. unfold need_bounce. destruct bounce; [by wp_step|]. wp_step. unfold alloc. do 2 wp_step.
  destruct (outcomes s1) as [|[] o] eqn:E; simpl; do 2 wp_step; simpl; do 2 wp_step; simpl.
  - split_and!; [|lia|done|by rewrite (proj2 (Z.eqb_neq _ _)) by lia].
    eapply fs_frame_trans; [done|]. split; simpl; try done. lia.
  - split_and!; [|lia|done|by rewrite (proj2 (Z.eqb_neq _ _)) by lia].
    eapply fs_frame_trans; [done|]. split; simpl; try done; [lia|by rewrite E].
  - split_and!; [|lia|done|].
    + eapply fs_frame_trans; [done|]. split; simpl; try done. by rewrite E.
    + intros Ho. by rewrite (fr_outcomes _ _ Hfr Ho) in E.
Qed.

Lemma on_dev_ok {A} (m : M block A) s1 a b : m (fs_device s1) = Ok (a, b) -> on_dev m s1 = Ok (a, set_device b s1).
Proof. intros H. unfold on_dev. by rewrite H. Qed.

Lemma read_sector_ok s1 k e :
  fs_frame s s1 -> block_ok (fs_device s1) -> slice_of (disk s1) st n !! k = Some e -> data_ok (disk s1) (data i) st n ->
  0 < fresh s1 ->
  wp (on_dev (block_read (u32 (start (data i) + Z.of_nat k)))) (fun d s2 => d = e /\ fs_frame s s2 /\
    block_ok (fs_device s2) /\ disk s2 = disk s1 /\ 0 < fresh s2) s1.
Proof.
  intros Hfr Hb1 He Hd1 Hf. destruct (data_sector _ _ _ _ _ _ Hd1 He) as (-> & Hg & _).
  eapply wp_eq; [apply on_dev_ok; by apply (block_read_ok _ _ e)|]. split_and!; try done.
  - eapply fs_frame_trans; [done|]. by split.
  - destruct Hb1. by split.
Qed.

(** The next chunk goes after the bytes already read. *)
Lemma copy_chunk_ok buffer off br c (s1 : fsys) :
  (off + br + c <= length B)%nat -> (br + c <= length buffer)%nat ->
  copy_to (splice buffer 0 (slice_of B off br)) (Z.of_nat br) (slice_of B (off + br) c) s1 =
  Ok (splice buffer 0 (slice_of B off (br + c)), s1).
Proof.
  intros H1 H2. assert (length (slice_of B off br) = br) as Hl1 by (apply slice_of_length; lia).
  assert (length (slice_of B (off + br) c) = c) as Hl2 by (apply slice_of_length; lia).
  unfold copy_to, alen. rewrite splice_length, Hl2, (proj2 (Z.leb_le _ _)) by (rewrite ?Hl1; lia). simpl.
  pose proof (splice_app buffer 0 (slice_of B off br) (slice_of B (off + br) c)) as E.
  rewrite Nat.add_0_l, Hl1, Hl2, slice_of_app in E. by rewrite Nat2Z.id, E by lia.
Qed.

(** Before a turn of the reading loop: [br] bytes are read. *)
Definition reading (buffer : list Z) (size off : Z) (k : nat) (a : Z * Z * Z * bool * list Z) (s1 : fsys) : Prop :=
  let '(sz, o, br, bounce, buf) := a in
  k = Z.to_nat sz /\ o = off + br /\ sz = size - br /\ 0 <= br <= avail size off /\
  buf = splice buffer 0 (slice_of B (Z.to_nat off) (Z.to_nat br)) /\
  fs_frame s s1 /\ block_ok (fs_device s1) /\ disk s1 = disk s /\ 0 < fresh s1.

Lemma region_size : length B = (n * SECTOR)%nat.
Proof. apply region_length; [apply Hb|apply Hd]. Qed.

Lemma inode_read_ok buffer size off :
  0 <= off -> 0 <= size <= alen buffer -> off + size < 2 ^ 31 -> 0 < fresh s ->
  wp (inode_read_at ip buffer size off) (fun r s' => fs_frame s s' /\ block_ok (fs_device s') /\
    disk s' = disk s /\ 0 < fresh s' /\ 0 <= r.1 <= avail size off /\ (outcomes s = [] -> r.1 = avail size off) /\
    r.2 = splice buffer 0 (slice_of B (Z.to_nat off) (Z.to_nat r.1))) s.
Proof.
  intros Hoff Hsz Hsum Hfresh. unfold inode_read_at. pose proof region_size as HlB. unfold alen in Hsz.
  pose proof (do_room _ _ _ _ Hd) as Hroom. pose proof (do_length _ _ _ _ Hd) as Hlen. unfold SECTOR in Hroom, HlB.
  apply (wp_loop (reading buffer size off)) with (n := Z.to_nat size); [| |lia].
  2: { unfold reading. split_and!; try done; try lia; try apply fs_frame_refl; unfold avail; lia. }
  intros k [[[[sz o] br] bounce] buf] s1 (-> & -> & -> & Hbr & -> & Hfr & Hb1 & HD & Hf1).
  destruct (Z.ltb_spec 0 (size - br)) as [Hpos|Hnpos].
  2: { wp_step. simpl. split_and!; try done; try lia. unfold avail in *. lia. }
  assert (inodes s1 !! ip = Some i) as Hi1 by (by rewrite (fr_inodes _ _ Hfr)).
  unfold byte_to_sector, inode_length. do 2 wp_step. eapply wp_eq; [by apply get_inode_ok|]. do 3 wp_step.
  eapply wp_eq; [by apply get_inode_ok|]. wp_step. unfold avail in Hbr.
  destruct (decide (off + br < len)) as [Hin|Hout].
  2: { pose proof (chunk_of_past len (size - br) (off + br)) as Hch.
       destruct (chunk_of _ _ _) as [[so sl] ch]. simpl in Hch. rewrite (proj2 (Z.leb_le _ _)) by (apply Hch; lia).
       wp_step. unfold avail. simpl. split_and!; try done; lia. }
  destruct (chunk_of_inside len (size - br) (off + br)) as (j & so & c & Ej & Hso & Hq & -> & Hc & Hsc & Hcs & Hcl); try lia.
  rewrite (proj2 (Z.leb_gt _ _)) by lia. rewrite (proj2 (Z.ltb_lt _ _)) by lia. rewrite Hq.
  assert (exists e, slice_of (disk s1) st n !! j = Some e) as [e He].
  { apply lookup_lt_is_Some_2. rewrite HD, slice_of_length by apply Hd. unfold SECTOR in *. lia. }
  assert (data_ok (disk s1) (data i) st n) as Hd1 by (by rewrite HD).
  assert (slice_of e so c = slice_of B (Z.to_nat off + Z.to_nat br) c) as Hslice.
  { rewrite (data_slice (disk s1) st n j e so c); [|apply Hb1|done|done]. rewrite HD. f_equal. lia. }
  assert (forall bounce' s2, fs_frame s s2 -> block_ok (fs_device s2) -> disk s2 = disk s -> 0 < fresh s2 ->
    reading buffer size off (Z.to_nat (size - br - Z.of_nat c)) (size - br - Z.of_nat c, off + br + Z.of_nat c,
      br + Z.of_nat c, bounce', splice buffer 0 (slice_of B (Z.to_nat off) (Z.to_nat br + c))) s2) as Hnext.
  { intros bounce' s2 F1 F2 F3 F4. unfold reading, avail. split_and!; try done; try lia. do 2 f_equal. lia. }
  pose proof (copy_chunk_ok buffer (Z.to_nat off) (Z.to_nat br) c) as Hcopy. rewrite Z2Nat.id in Hcopy by lia.
  unfold SECTOR in *.
  destruct ((Z.of_nat so =? 0) && (Z.of_nat c =? BLOCK_SECTOR_SIZE)) eqn:Efull; wp_step.
  - apply andb_true_iff in Efull as [E1%Z.eqb_eq E2%Z.eqb_eq]. unfold BLOCK_SECTOR_SIZE in E2.
    eapply wp_mono; [by apply (read_sector_ok s1 j e)|]. intros d s2 (-> & F1 & F2 & F3 & F4).
    assert (slice_of e so c = e) as Ee.
    { unfold slice_of. replace so with 0%nat by lia. rewrite drop_0, take_ge; [done|].
      assert (length e = 512%nat) as ->; [|lia]. apply (Forall_lookup_1 (fun d => length d = SECTOR) (slice_of (disk s1) st n) j); [|done].
      unfold slice_of. apply Forall_take, Forall_drop. apply Hb1. }
    wp_step. rewrite <- Ee, Hslice. eapply wp_eq; [apply Hcopy; lia|]. wp_step. eexists. split; [|apply Hnext; by rewrite ?F3]. lia.
  - eapply wp_mono; [by apply need_bounce_ok|]. intros ok s2 (F1 & F2 & F3 & Fok).
    destruct ok; cbn [negb]; [|wp_step; unfold avail; simpl; rewrite F3; split_and!; try done; try lia; intros Ho; by specialize (Fok Ho)].
    wp_step. eapply wp_mono; [apply (read_sector_ok s2 j e); rewrite ?F3; done|]. intros d s3 (-> & G1 & G2 & G3 & G4).
    rewrite !Nat2Z.id, Hslice. wp_step. eapply wp_eq; [apply Hcopy; lia|]. wp_step. eexists. split; [|apply Hnext; by rewrite ?G3, ?F3]. lia.
Qed.

(** The state when the first [bw] bytes of the buffer are written at [off]. *)
Record written (buffer : list Z) (off bw : nat) (s1 : fsys) : Prop := {
  wr_frame : fs_frame s s1;
  wr_block : block_ok (fs_device s1);
  wr_fresh : 0 < fresh s1;
  wr_length : length (disk s1) = length (disk s);
  wr_region : region (disk s1) st n = splice B off (take bw buffer);
  wr_others : forall k, (k < st \/ st + n <= k)%nat -> disk s1 !! k = disk s !! k
}.

Lemma written_0 buffer off : 0 < fresh s -> written buffer off 0 s.
Proof. intros Hf. split; try done. symmetry. apply splice_nil. Qed.

Lemma written_data buffer off bw s1 : written buffer off bw s1 -> data_ok (disk s1) (data i) st n.
Proof. intros []. destruct Hd. by split; rewrite ?wr_length0. Qed.

(** One sector is written. *)
Lemma write_sector_ok buffer off bw s1 j e so c :
  written buffer off bw s1 -> slice_of (disk s1) st n !! j = Some e -> (so + c <= SECTOR)%nat ->
  (off + bw = j * SECTOR + so)%nat -> (bw + c <= length buffer)%nat -> (off + bw + c <= length B)%nat ->
  wp (on_dev (block_write (u32 (start (data i) + Z.of_nat j)) (splice e so (slice_of buffer bw c))))
    (fun _ s2 => written buffer off (bw + c) s2) s1.
Proof.
  intros Hw He Hsc Ho Hbuf HB. pose proof (written_data _ _ _ _ Hw) as Hd1. destruct Hw as [W1 W2 W3 W4 W5 W6].
  destruct (data_sector _ _ _ _ _ _ Hd1 He) as (-> & Hg & Hj).
  assert (length (slice_of buffer bw c) = c) as Hlc by (apply slice_of_length; lia).
  pose proof (Forall_aget _ _ _ _ (bk_sectors _ W2) Hg) as Hle. simpl in Hle.
  eapply wp_eq; [apply on_dev_ok; by apply (block_write_ok _ _ e)|].
  assert ((disk s1).[Z.of_nat (st + j) <- splice e so (slice_of buffer bw c)] =
    <[(st + j)%nat := splice e so (slice_of buffer bw c)]> (disk s1)) as Eset.
  { unfold aset. rewrite (proj2 (Z.ltb_ge _ _)) by lia. by rewrite Nat2Z.id. }
  rewrite Eset. split; simpl.
  - eapply fs_frame_trans; [done|]. by split.
  - destruct W2 as [K1 K2 K3]. split; simpl; [|apply Forall_insert; [done|]|done].
    + rewrite K1. unfold alen. by rewrite length_insert.
    + rewrite splice_length; [done|]. rewrite Hlc, Hle. lia.
  - done.
  - by rewrite length_insert.
  - rewrite (data_splice (disk s1) st n j e so); [|apply W2|done|by rewrite Hlc|apply Hd1].
    rewrite W5, <- Ho. pose proof (splice_app B off (take bw buffer) (slice_of buffer bw c)) as E.
    rewrite length_take_le in E by lia. rewrite E by (rewrite Hlc; lia). f_equal.
    pose proof (slice_of_app buffer 0 bw c) as E2. by unfold slice_of at 1 3 in E2.
  - intros k Hk. rewrite list_lookup_insert_ne by lia. by apply W6.
Qed.

Definition writing (buffer : list Z) (size off : Z) (k : nat) (a : Z * Z * Z * bool) (s1 : fsys) : Prop :=
  let '(sz, o, bw, bounce) := a in
  k = Z.to_nat sz /\ o = off + bw /\ sz = size - bw /\ 0 <= bw <= avail size off /\
  written buffer (Z.to_nat off) (Z.to_nat bw) s1.

Lemma inode_write_ok buffer size off :
  0 <= off -> 0 <= size <= alen buffer -> off + size < 2 ^ 31 -> 0 < fresh s ->
  wp (inode_write_at ip buffer size off) (fun r s' => written buffer (Z.to_nat off) (Z.to_nat r) s' /\
    0 <= r <= avail size off /\ (deny_write_cnt i <> 0 -> r = 0) /\
    (deny_write_cnt i = 0 -> outcomes s = [] -> r = avail size off)) s.
Proof.
  intros Hoff Hsz Hsum Hfresh. unfold inode_write_at. pose proof region_size as HlB. unfold alen in Hsz.
  pose proof (do_room _ _ _ _ Hd) as Hroom. pose proof (do_length _ _ _ _ Hd) as Hlen. unfold SECTOR in Hroom, HlB.
  wp_step. eapply wp_eq; [by apply get_inode_ok|].
  destruct (Z.eqb_spec (deny_write_cnt i) 0) as [Hdw|Hdw]; cbn [negb].
  2: { wp_step. split_and!; try done; [by apply written_0|unfold avail; lia]. }
  apply (wp_loop (writing buffer size off)) with (n := Z.to_nat size); [| |lia].
  2: { unfold writing, avail. split_and!; try done; try lia. by apply written_0. }
  intros k [[[sz o] bw] bounce] s1 (-> & -> & -> & Hbw & Hw).
  destruct (Z.ltb_spec 0 (size - bw)) as [Hpos|Hnpos].
  2: { wp_step. unfold avail in *. split_and!; try done; lia. }
  pose proof (wr_frame _ _ _ _ Hw) as Hfr. pose proof (written_data _ _ _ _ Hw) as Hd1.
  assert (inodes s1 !! ip = Some i) as Hi1 by (by rewrite (fr_inodes _ _ Hfr)).
  unfold byte_to_sector, inode_length. do 2 wp_step. eapply wp_eq; [by apply get_inode_ok|]. do 3 wp_step.
  eapply wp_eq; [by apply get_inode_ok|]. wp_step. unfold avail in Hbw.
  destruct (decide (off + bw < len)) as [Hin|Hout].
  2: { pose proof (chunk_of_past len (size - bw) (off + bw)) as Hch.
       destruct (chunk_of _ _ _) as [[so sl] ch]. simpl in Hch. rewrite (proj2 (Z.leb_le _ _)) by (apply Hch; lia).
       wp_step. unfold avail. split_and!; try done; lia. }
  destruct (chunk_of_inside len (size - bw) (off + bw)) as (j & so & c & Ej & Hso & Hq & -> & Hc & Hsc & Hcs & Hcl); try lia.
  rewrite (proj2 (Z.leb_gt _ _)) by lia. rewrite (proj2 (Z.ltb_lt _ _)) by lia. rewrite Hq.
  assert (exists e, slice_of (disk s1) st n !! j = Some e) as [e He].
  { apply lookup_lt_is_Some_2. rewrite slice_of_length by apply Hd1. unfold SECTOR in *. lia. }
  assert (length e = SECTOR) as Hle.
  { apply (Forall_lookup_1 (fun d => length d = SECTOR) (slice_of (disk s1) st n) j); [|done].
    unfold slice_of. apply Forall_take, Forall_drop. apply Hw. }
  assert (forall s2, written buffer (Z.to_nat off) (Z.to_nat bw) s2 -> disk s2 = disk s1 ->
    wp (on_dev (block_write (u32 (start (data i) + Z.of_nat j)) (splice e so (slice_of buffer (Z.to_nat bw) c))))
      (fun _ s3 => forall b, exists m, (m < Z.to_nat (size - bw))%nat /\ writing buffer size off m
        (size - bw - Z.of_nat c, off + bw + Z.of_nat c, bw + Z.of_nat c, b) s3) s2) as Hstep.
  { intros s2 Hw2 HD2. eapply wp_mono; [apply (write_sector_ok buffer (Z.to_nat off) (Z.to_nat bw) s2 j e so c); try done|].
    - by rewrite HD2.
    - lia.
    - lia.
    - unfold SECTOR in *. lia.
    - intros [] s3 H3 b. exists (Z.to_nat (size - bw - Z.of_nat c)). split; [lia|]. unfold writing, avail.
      split_and!; try done; try lia. by replace (Z.to_nat (bw + Z.of_nat c)) with (Z.to_nat bw + c)%nat by lia. }
  assert (forall s2 : fsys, copy_from buffer bw (Z.of_nat c) s2 = Ok (slice_of buffer (Z.to_nat bw) c, s2)) as Hfrom.
  { intros s2. unfold copy_from, alen. rewrite (proj2 (Z.leb_le _ _)), Nat2Z.id by lia. done. }
  assert (length (slice_of buffer (Z.to_nat bw) c) = c) as Hlc by (apply slice_of_length; lia).
  destruct ((Z.of_nat so =? 0) && (Z.of_nat c =? BLOCK_SECTOR_SIZE)) eqn:Efull; wp_step.
  - apply andb_true_iff in Efull as [E1%Z.eqb_eq E2%Z.eqb_eq]. unfold BLOCK_SECTOR_SIZE in E2.
    eapply wp_eq; [apply Hfrom|]. wp_step.
    assert (splice e so (slice_of buffer (Z.to_nat bw) c) = slice_of buffer (Z.to_nat bw) c) as Ee.
    { unfold splice. rewrite Hlc, drop_ge by (unfold SECTOR in *; lia). replace so with 0%nat by lia. by rewrite take_0, app_nil_r. }
    rewrite <- Ee. eapply wp_mono; [by apply Hstep|]. intros [] s3 H3. wp_step. apply H3.
  - eapply wp_mono; [apply (need_bounce_ok bounce s1); [done|apply Hw]|]. intros ok s2 (F1 & F2 & F3 & Fok).
    assert (written buffer (Z.to_nat off) (Z.to_nat bw) s2) as Hw2 by (destruct Hw; split; rewrite ?F3; done).
    destruct ok; cbn [negb]; [|wp_step; unfold avail; split_and!; try done; try lia; intros _ Ho; by specialize (Fok Ho)].
    assert ((0 <? Z.of_nat so) || (Z.of_nat c <? 512 - Z.of_nat so) = true) as ->.
    { unfold BLOCK_SECTOR_SIZE, SECTOR in *. lia. }
    wp_step. eapply wp_mono; [apply (read_sector_ok s2 j e); rewrite ?F3; try done; apply Hw|].
    intros d s3 (-> & G1 & G2 & G3 & G4).
    assert (written buffer (Z.to_nat off) (Z.to_nat bw) s3) as Hw3 by (destruct Hw2; split; rewrite ?G3; done).
    wp_step. eapply wp_eq; [apply Hfrom|]. wp_step. unfold copy_to, alen. eapply wp_deref.
    { rewrite Hlc, Hle, (proj2 (Z.leb_le _ _)), Nat2Z.id by (unfold SECTOR in *; lia). done. }
    wp_step. eapply wp_mono; [apply Hstep; [done|by rewrite G3, F3]|]. intros [] s4 H4. wp_step. apply H4.
Qed.
End data.

Lemma contents_length D d st n :
  Forall (fun b => length b = SECTOR) D -> data_ok D d st n -> length (contents D d st n) = Z.to_nat (ilength d).
Proof.
  intros Hs [H1 H2 H3 H4 H5]. unfold contents. rewrite length_take, region_length by done. lia.
Qed.

Definition demo_device : block :=
  Block [] BLOCK_FILESYS 4 (replicate 4 (replicate SECTOR 7)) 0 0.
Definition demo_inode : inode := Inode 0 1 false 0 (InodeDisk 1 600 INODE_MAGIC).
Definition demo_state : fsys :=
  Fsys demo_device {[ 5 := demo_inode ]} [5] ∅ ∅ (Bitmap 4 [15]) 0 9 [].

Lemma demo_state_ok :
  inodes demo_state !! 5 = Some demo_inode /\ block_ok (fs_device demo_state) /\
  data_ok (disk demo_state) (data demo_inode) 1 2.
Proof.
  split_and!; [done| |split; vm_compute; intuition congruence || lia].
  split; [done|by apply Forall_replicate|done].
Qed.

(** C20: reading and writing an inode are reading and writing an array of bytes
    of the file's length that cannot grow.  A read returns the bytes of the
    array from the offset on, as many as were asked for and are there, and
    leaves the disk alone.  A write replaces those bytes, none when writes are
    denied, and leaves every sector of other files alone.  A failed allocation
    of the bounce buffer makes either one shorter and nothing else. *)
Theorem inode_is_byte_array s ip i st n buffer size off :
  inodes s !! ip = Some i -> block_ok (fs_device s) -> data_ok (disk s) (data i) st n ->
  0 <= off -> 0 <= size <= alen buffer -> off + size < 2 ^ 31 -> 0 < fresh s ->
  wp (inode_read_at ip buffer size off) (fun r s' => fs_frame s s' /\ disk s' = disk s /\
    0 <= r.1 <= avail i size off /\ (outcomes s = [] -> r.1 = avail i size off) /\
    r.2 = splice buffer 0 (slice_of (contents (disk s) (data i) st n) (Z.to_nat off) (Z.to_nat r.1))) s /\
  wp (inode_write_at ip buffer size off) (fun r s' => fs_frame s s' /\
    0 <= r <= avail i size off /\ (deny_write_cnt i <> 0 -> r = 0) /\
    (deny_write_cnt i = 0 -> outcomes s = [] -> r = avail i size off) /\
    contents (disk s') (data i) st n =
      splice (contents (disk s) (data i) st n) (Z.to_nat off) (take (Z.to_nat r) buffer) /\
    (forall k, (k < st \/ st + n <= k)%nat -> disk s' !! k = disk s !! k)) s.
Proof.
  intros Hi Hb Hd Hoff Hsz Hsum Hf. pose proof (do_room _ _ _ _ Hd) as Hroom.
  pose proof (do_length _ _ _ _ Hd) as Hlen. unfold alen in Hsz. split.
  - eapply wp_mono; [by apply (inode_read_ok s ip i st n)|]. intros r s' (H1 & H2 & H3 & H4 & H5 & H6 & H7).
    unfold avail in *. split_and!; try done; try lia. rewrite H7. unfold contents.
    destruct (decide (off < ilength (data i))) as [Hin|Hout]; [by rewrite slice_take by lia|].
    replace (Z.to_nat r.1) with 0%nat by lia. done.
  - eapply wp_mono; [by apply (inode_write_ok s ip i st n)|]. intros r s' (H1 & H2 & H3 & H4).
    unfold avail in *. split_and!; try done; try lia; try apply H1. unfold contents. rewrite (wr_region _ _ _ _ _ _ _ H1).
    destruct (decide (r = 0)) as [->|Hr]; [simpl; by rewrite !take_0, !splice_nil|].
    rewrite take_splice; [done| |].
    + rewrite length_take. lia.
    + rewrite (region_size s i st n) by done. lia.
Qed.

Lemma inode_is_byte_array_witness :
  wp (inode_write_at 5 [1; 2; 3; 4] 4 598) (fun r _ => r = 2) demo_state.
Proof.
  destruct demo_state_ok as (H1 & H2 & H3).
  destruct (inode_is_byte_array demo_state 5 demo_inode 1 2 [1; 2; 3; 4] 4 598 H1 H2 H3) as [_ H]; try (unfold alen; simpl; lia).
  eapply wp_mono; [exact H|]. intros r s' (_ & _ & _ & Hr & _). by apply Hr.
Defined.

(** Bytes written to a file are the bytes read back from it: when writes
    are allowed, the range is inside the file and no allocation fails, reading
    the range after writing it gives the bytes that were written. *)
Theorem inode_write_then_read s ip i st n bytes buffer off :
  inodes s !! ip = Some i -> block_ok (fs_device s) -> data_ok (disk s) (data i) st n ->
  deny_write_cnt i = 0 -> outcomes s = [] -> 0 < fresh s ->
  0 <= off -> off + alen bytes <= ilength (data i) -> alen buffer = alen bytes ->
  wp (w ← inode_write_at ip bytes (alen bytes) off; r ← inode_read_at ip buffer (alen bytes) off; mret (w, r))
    (fun r _ => r = (alen bytes, (alen bytes, bytes))) s.
Proof.
  intros Hi Hb Hd Hdw Ho Hf Hoff Hlen Hbuf. pose proof (do_length _ _ _ _ Hd) as Hl.
  pose proof (do_room _ _ _ _ Hd) as Hroom. pose proof (alen_nonneg bytes) as Hpos. wp_step.
  eapply wp_mono; [apply (inode_write_ok s ip i st n); (done || lia)|]. intros w s1 (H1 & H2 & _ & H4).
  specialize (H4 Hdw Ho). assert (w = alen bytes) as -> by (unfold avail in H4; lia).
  pose proof (written_data s i st n Hd _ _ _ _ H1) as Hd1. pose proof (wr_frame _ _ _ _ _ _ _ H1) as Hfr. wp_step.
  eapply wp_mono.
  { apply (inode_read_ok s1 ip i st n); try done; try lia; try apply H1. by rewrite (fr_inodes _ _ Hfr). }
  intros [r b] s2 (_ & _ & _ & _ & _ & G5 & G6). wp_step. simpl in *.
  specialize (G5 (fr_outcomes _ _ Hfr Ho)). assert (r = alen bytes) as -> by (unfold avail in G5; lia).
  do 2 f_equal. rewrite G6, (wr_region _ _ _ _ _ _ _ H1). unfold alen in *. rewrite Nat2Z.id, take_ge by lia.
  rewrite slice_splice by (rewrite (region_size s i st n) by done; lia).
  unfold splice. rewrite take_0, drop_ge, app_nil_r by lia. done.
Qed.

Lemma inode_write_then_read_witness :
  wp (w ← inode_write_at 5 [1; 2; 3; 4] 4 510; r ← inode_read_at 5 [0; 0; 0; 0] 4 510; mret (w, r))
    (fun r _ => r = (4, (4, [1; 2; 3; 4]))) demo_state.
Proof.
  destruct demo_state_ok as (H1 & H2 & H3).
  apply (inode_write_then_read demo_state 5 demo_inode 1 2 [1; 2; 3; 4] [0; 0; 0; 0] 510 H1 H2 H3);
    try done; unfold alen; simpl; lia.
Defined.
