(* ===== verification/FreeMap.v ===== *)
(** * The free map and the life of inodes (src/filesys/free-map.c, inode.c, and
    the reading and writing of files and bitmaps in file.c and bitmap.c)

    The free map has one bit per sector, and is kept in a file of the file
    system itself: allocating or releasing sectors writes that file.  Inodes
    are created on disk, opened in memory with a count of their openers, and
    release their sectors when the last opener closes a removed one. *)

From S2P Require Import Prelude Bitmap Block Inode.

Definition FREE_MAP_SECTOR : Z := 0.
Definition ROOT_DIR_SECTOR : Z := 1.

Definition get_file (fp : Z) : M fsys file := s ← get; deref (files s !! fp).
Definition put_file (fp : Z) (f : file) : M fsys unit :=
  modify (fun s => set_files (<[fp := f]> (files s)) s).

Definition file_read_at (fp : Z) (buffer : list Z) (size file_ofs : Z) : M fsys (Z * list Z) :=
  f ← get_file fp; inode_read_at (f_inode f) buffer size file_ofs.
Definition file_write_at (fp : Z) (buffer : list Z) (size file_ofs : Z) : M fsys Z :=
  f ← get_file fp; inode_write_at (f_inode f) buffer size file_ofs.

(** ** Words in memory, least significant byte first *)
Definition le4 (w : Z) : list Z := [u8 w; u8 (Z.shiftr w 8); u8 (Z.shiftr w 16); u8 (Z.shiftr w 24)].

Definition un4 (bs : list Z) : Z :=
  match bs with
  | [a; b; c; d] => a + 256 * (b + 256 * (c + 256 * d))
  | _ => 0
  end.

Fixpoint words_of (bs : list Z) : list Z :=
  match bs with
  | a :: b :: c :: d :: rest => un4 [a; b; c; d] :: words_of rest
  | _ => []
  end.

(** ** Bitmaps in files *)
Definition bitmap_file_size (b : bitmap) : Z := byte_cnt (bit_cnt b).

Definition on_map {A} (m : M bitmap A) : M fsys A := fun s =>
  match m (free_map s) with Ok (a, b) => Ok (a, set_map b s) | Err e => Err e end.

(** [bitmap_read (free_map, file)]. *)
Definition bitmap_read (fp : Z) : M fsys bool :=
  s ← get;
  let b := free_map s in
  if 0 <? bit_cnt b then
    let size := byte_cnt (bit_cnt b) in
    r ← file_read_at fp (concat (le4 <$> bits b)) size 0;
    let ws := words_of r.2 in
    w ← deref ws.[elem_cnt (bit_cnt b) - 1];
    modify (set_map (Bitmap (bit_cnt b) ws.[elem_cnt (bit_cnt b) - 1 <- Z.land w (last_mask b)]));;
    mret (r.1 =? size)
  else mret true.

Definition bitmap_write (fp : Z) : M fsys bool :=
  s ← get;
  let size := byte_cnt (bit_cnt (free_map s)) in
  n ← file_write_at fp (concat (le4 <$> bits (free_map s))) size 0;
  mret (n =? size).

(** ** The free map *)
(** [junk] is what the memory of the bitmap held before. *)
Definition free_map_init (junk : list Z) : M fsys unit :=
  size ← on_dev block_size;
  p ← alloc;
  q ← (if p =? 0 then mret 0 else alloc);
  match bitmap_create (fun _ => if q =? 0 then None else Some junk) size with
  | Ok (Some b) =>
    modify (set_map b);;
    on_map (bitmap_mark FREE_MAP_SECTOR);;
    on_map (bitmap_mark ROOT_DIR_SECTOR)
  | Ok None => fail PanicHalt
  | Err e => fail e
  end.

(** [*SECTORP], when the result of the function is true. *)
Definition free_map_allocate (cnt : Z) : M fsys (option Z) :=
  sector ← on_map (bitmap_scan_and_flip 0 cnt false);
  if sector =? BITMAP_ERROR then mret None
  else
    s ← get;
    written ← (if free_map_file s =? 0 then mret true else bitmap_write (free_map_file s));
    if written : bool then mret (Some sector)
    else on_map (bitmap_set_multiple sector cnt false);; mret None.

Definition free_map_release (sector cnt : Z) : M fsys unit :=
  all ← on_map (bitmap_all sector cnt);
  assert all;;
  on_map (bitmap_set_multiple sector cnt false);;
  s ← get;
  _ ← bitmap_write (free_map_file s);
  mret ().

(** ** Inodes on disk and in memory *)
Definition encode_inode (d : inode_disk) : list Z :=
  le4 (start d) ++ le4 (u32 (ilength d)) ++ le4 (magic d) ++ replicate 500 0.

Definition decode_inode (bs : list Z) : inode_disk :=
  InodeDisk (un4 (slice_of bs 0 4)) (s32 (un4 (slice_of bs 4 4))) (un4 (slice_of bs 8 4)).

Definition inode_create (sector length : Z) : M fsys bool :=
  assert (0 <=? length);;
  disk_inode ← alloc;
  if disk_inode =? 0 then mret false
  else
    let sectors := bytes_to_sectors length in
    r ← free_map_allocate sectors;
    match r with
    | None => mret false
    | Some start =>
      on_dev (block_write sector (encode_inode (InodeDisk start length INODE_MAGIC)));;
      for_ (Z.to_nat sectors) 0 (fun i => on_dev (block_write (u32 (start + i)) (replicate SECTOR 0)));;
      mret true
    end.

(** The open inode of a sector. *)
Fixpoint find_open (m : gmap Z inode) (l : list Z) (sec : Z) : result (option Z) :=
  match l with
  | [] => Ok None
  | ip :: l =>
    match m !! ip with
    | None => Err BadPointer
    | Some i => if sector i =? sec then Ok (Some ip) else find_open m l sec
    end
  end.

Definition inode_open (sec : Z) : M fsys Z :=
  s ← get;
  match find_open (inodes s) (open_inodes s) sec with
  | Err e => fail e
  | Ok (Some ip) => inode_reopen ip
  | Ok None =>
    ip ← alloc;
    if ip =? 0 then mret 0
    else
      modify (fun s => set_open (ip :: open_inodes s) s);;
      bs ← on_dev (block_read sec);
      put_inode ip (Inode sec 1 false 0 (decode_inode bs));;
      mret ip
  end.

Definition inode_close (ip : Z) : M fsys unit :=
  if ip =? 0 then mret ()
  else
    i ← get_inode ip;
    let cnt := s32 (open_cnt i - 1) in
    put_inode ip (Inode (sector i) cnt (removed i) (deny_write_cnt i) (data i));;
    if cnt =? 0 then
      modify (fun s => set_open (filter (fun p => p <> ip) (open_inodes s)) s);;
      (if removed i then
         free_map_release (sector i) 1;;
         free_map_release (start (data i)) (bytes_to_sectors (ilength (data i)))
       else mret ());;
      modify (fun s => set_inodes (delete ip (inodes s)) s)
    else mret ().

(** ** Opening and closing files *)
Definition file_open (ip : Z) : M fsys Z :=
  fp ← alloc;
  if negb (ip =? 0) && negb (fp =? 0) then put_file fp (File ip 0 false);; mret fp
  else inode_close ip;; mret 0.

Definition file_reopen (fp : Z) : M fsys Z :=
  f ← get_file fp; ip ← inode_reopen (f_inode f); file_open ip.

Definition file_deny_write (fp : Z) : M fsys unit :=
  assert (negb (fp =? 0));;
  f ← get_file fp;
  if f_deny_write f then mret ()
  else put_file fp (File (f_inode f) (f_pos f) true);; inode_deny_write (f_inode f).

Definition file_allow_write (fp : Z) : M fsys unit :=
  assert (negb (fp =? 0));;
  f ← get_file fp;
  if f_deny_write f then put_file fp (File (f_inode f) (f_pos f) false);; inode_allow_write (f_inode f)
  else mret ().

Definition file_close (fp : Z) : M fsys unit :=
  if fp =? 0 then mret ()
  else
    file_allow_write fp;;
    f ← get_file fp;
    inode_close (f_inode f);;
    modify (fun s => set_files (delete fp (files s)) s).

Definition free_map_open : M fsys unit :=
  ip ← inode_open FREE_MAP_SECTOR;
  fp ← file_open ip;
  modify (set_map_file fp);;
  if fp =? 0 then fail PanicHalt
  else ok ← bitmap_read fp; if ok : bool then mret () else fail PanicHalt.

Definition free_map_close : M fsys unit := s ← get; file_close (free_map_file s).

Definition free_map_create : M fsys unit :=
  s ← get;
  ok ← inode_create FREE_MAP_SECTOR (s32 (bitmap_file_size (free_map s)));
  if negb ok then fail PanicHalt
  else
    ip ← inode_open FREE_MAP_SECTOR;
    fp ← file_open ip;
    modify (set_map_file fp);;
    if fp =? 0 then fail PanicHalt
    else ok ← bitmap_write fp; if ok : bool then mret () else fail PanicHalt.

(** ** The rest of file.c *)
Definition file_get_inode (fp : Z) : M fsys Z := f ← get_file fp; mret (f_inode f).

Definition file_read (fp : Z) (buffer : list Z) (size : Z) : M fsys (Z * list Z) :=
  f ← get_file fp;
  r ← inode_read_at (f_inode f) buffer size (f_pos f);
  put_file fp (File (f_inode f) (s32 (f_pos f + r.1)) (f_deny_write f));;
  mret r.

Definition file_write (fp : Z) (buffer : list Z) (size : Z) : M fsys Z :=
  f ← get_file fp;
  n ← inode_write_at (f_inode f) buffer size (f_pos f);
  put_file fp (File (f_inode f) (s32 (f_pos f + n)) (f_deny_write f));;
  mret n.

Definition file_length (fp : Z) : M fsys Z :=
  assert (negb (fp =? 0));; f ← get_file fp; inode_length (f_inode f).

Definition file_seek (fp new_pos : Z) : M fsys unit :=
  assert (negb (fp =? 0));;
  assert (0 <=? new_pos);;
  f ← get_file fp; put_file fp (File (f_inode f) new_pos (f_deny_write f)).

Definition file_tell (fp : Z) : M fsys Z :=
  assert (negb (fp =? 0));; f ← get_file fp; mret (f_pos f).
