(* ===== verification/Filesys.v ===== *)
(** * Directories and the file system (src/filesys/directory.c, filesys.c)

    A directory is a file of entries of 20 bytes: the sector of an inode, a
    name of at most 14 characters and its terminator, and a flag.  The file
    system has one directory, the root.  A file name is the list of its
    characters, without the terminator. *)

From S2P Require Import Prelude Bitmap Block Inode FreeMap.

Definition NAME_MAX : Z := 14.
Definition DIR_ENTRY_SIZE : Z := 20.

(** ** Entries as bytes *)
Definition de_sector (e : list Z) : Z := un4 (slice_of e 0 4).
Definition de_in_use (e : list Z) : bool := negb (default 0 (e !! 19%nat) =? 0).

Definition set_in_use (v : Z) (e : list Z) : list Z := splice e 19 [v].

(** The entry [dir_add] writes over what [e] held. *)
Definition fill_entry (e name : list Z) (sec : Z) : list Z :=
  splice (splice (set_in_use 1 e) 4 (take 14 name ++ [0])) 0 (le4 sec).

(** The string at the start of some bytes, when it ends inside them. *)
Fixpoint cstring (bs : list Z) : option (list Z) :=
  match bs with
  | [] => None
  | b :: bs => if b =? 0 then Some [] else cons b <$> cstring bs
  end.

(** [!strcmp (name, e.name)], with [name] and its terminator on the left;
    nothing when the comparison leaves the entry. *)
Fixpoint same_name (name bs : list Z) : option bool :=
  match name, bs with
  | _, [] => None
  | [], b :: _ => Some (b =? 0)
  | c :: name, b :: bs => if c =? b then same_name name bs else Some false
  end.

(** ** Opening and closing *)
Definition get_dir (dp : Z) : M fsys dir := s ← get; deref (dirs s !! dp).
Definition put_dir (dp : Z) (d : dir) : M fsys unit :=
  modify (fun s => set_dirs (<[dp := d]> (dirs s)) s).

Definition dir_create (sector entry_cnt : Z) : M fsys bool :=
  inode_create sector (s32 (u32 (entry_cnt * DIR_ENTRY_SIZE))).

Definition dir_open (ip : Z) : M fsys Z :=
  dp ← alloc;
  if negb (ip =? 0) && negb (dp =? 0) then put_dir dp (Dir ip 0);; mret dp
  else inode_close ip;; mret 0.

Definition dir_open_root : M fsys Z := ip ← inode_open ROOT_DIR_SECTOR; dir_open ip.

Definition dir_reopen (dp : Z) : M fsys Z :=
  d ← get_dir dp; ip ← inode_reopen (d_inode d); dir_open ip.

Definition dir_close (dp : Z) : M fsys unit :=
  if dp =? 0 then mret ()
  else
    d ← get_dir dp;
    inode_close (d_inode d);;
    modify (fun s => set_dirs (delete dp (dirs s)) s).

Definition dir_get_inode (dp : Z) : M fsys Z := d ← get_dir dp; mret (d_inode d).

(** ** Entries *)
(** The scan of the entries of a directory that [lookup] and [dir_add] share:
    the first entry that [found] accepts, or the end with what the variable
    [e] then holds.  Its fuel is a turn per byte and one more. *)
Definition scan_entries (ip : Z) (found : list Z -> option bool) (e : list Z) : M fsys (bool * list Z * Z) :=
  len ← inode_length ip;
  loop (S (Z.to_nat len)) (fun '(e, ofs) =>
    r ← inode_read_at ip e DIR_ENTRY_SIZE ofs;
    if r.1 =? DIR_ENTRY_SIZE then
      b ← deref (found r.2);
      mret (if b : bool then inr (true, r.2, ofs) else inl (r.2, ofs + DIR_ENTRY_SIZE))
    else mret (inr (false, r.2, ofs))) (e, 0).

Definition matches (name e : list Z) : option bool :=
  if de_in_use e then same_name name (drop 4 e) else Some false.

(** The entry and its offset, when there is one; [e] is what the stack held. *)
Definition lookup (dp : Z) (name e : list Z) : M fsys (option (list Z * Z)) :=
  assert (negb (dp =? 0));;
  d ← get_dir dp;
  r ← scan_entries (d_inode d) (matches name) e;
  mret (if r.1.1 : bool then Some (r.1.2, r.2) else None).

(** [*INODE]; the function returns whether it is not null. *)
Definition dir_lookup (dp : Z) (name e : list Z) : M fsys Z :=
  assert (negb (dp =? 0));;
  r ← lookup dp name e;
  match r with Some (e, _) => inode_open (de_sector e) | None => mret 0 end.

Definition dir_add (dp : Z) (name : list Z) (inode_sector : Z) (e : list Z) : M fsys bool :=
  assert (negb (dp =? 0));;
  if (alen name =? 0) || (NAME_MAX <? alen name) then mret false
  else
    r ← lookup dp name e;
    match r with
    | Some _ => mret false
    | None =>
      d ← get_dir dp;
      slot ← scan_entries (d_inode d) (fun e => Some (negb (de_in_use e))) e;
      n ← inode_write_at (d_inode d) (fill_entry slot.1.2 name inode_sector) DIR_ENTRY_SIZE slot.2;
      mret (n =? DIR_ENTRY_SIZE)
    end.

Definition dir_remove (dp : Z) (name e : list Z) : M fsys bool :=
  assert (negb (dp =? 0));;
  r ← lookup dp name e;
  match r with
  | None => inode_close 0;; mret false
  | Some (e, ofs) =>
    ip ← inode_open (de_sector e);
    if ip =? 0 then inode_close ip;; mret false
    else
      d ← get_dir dp;
      n ← inode_write_at (d_inode d) (set_in_use 0 e) DIR_ENTRY_SIZE ofs;
      success ← (if negb (n =? DIR_ENTRY_SIZE) then mret false else inode_remove ip;; mret true);
      inode_close ip;;
      mret success
  end.

(** The name of the next entry, when there is one. *)
Definition dir_readdir (dp : Z) (e : list Z) : M fsys (option (list Z)) :=
  d ← get_dir dp;
  len ← inode_length (d_inode d);
  loop (S (Z.to_nat len)) (fun e =>
    d ← get_dir dp;
    r ← inode_read_at (d_inode d) e DIR_ENTRY_SIZE (d_pos d);
    if r.1 =? DIR_ENTRY_SIZE then
      put_dir dp (Dir (d_inode d) (s32 (d_pos d + DIR_ENTRY_SIZE)));;
      if de_in_use r.2 then name ← deref (cstring (drop 4 r.2)); mret (inr (Some (take 14 name)))
      else mret (inl r.2)
    else mret (inr None)) e.

(** ** The file system *)
(** The sector allocated for the inode, if one was, and whether all went well. *)
Definition filesys_create (name : list Z) (initial_size : Z) (e : list Z) : M fsys bool :=
  dp ← dir_open_root;
  r ← (if dp =? 0 then mret (false, 0)
       else
         a ← free_map_allocate 1;
         match a with
         | None => mret (false, 0)
         | Some inode_sector =>
           created ← inode_create inode_sector initial_size;
           if created : bool then ok ← dir_add dp name inode_sector e; mret (ok, inode_sector)
           else mret (false, inode_sector)
         end);
  (if negb r.1 && negb (r.2 =? 0) then free_map_release r.2 1 else mret ());;
  dir_close dp;;
  mret r.1.

Definition filesys_open (name e : list Z) : M fsys Z :=
  dp ← dir_open_root;
  ip ← (if dp =? 0 then mret 0 else dir_lookup dp name e);
  dir_close dp;;
  file_open ip.

Definition filesys_remove (name e : list Z) : M fsys bool :=
  dp ← dir_open_root;
  success ← (if dp =? 0 then mret false else dir_remove dp name e);
  dir_close dp;;
  mret success.

Definition do_format : M fsys unit :=
  free_map_create;;
  ok ← dir_create ROOT_DIR_SECTOR 16;
  if negb ok then fail PanicHalt else free_map_close.

(** [device] is the device that has the role [BLOCK_FILESYS], if one has. *)
Definition filesys_init (device : option block) (junk : list Z) (format : bool) : M fsys unit :=
  match device with Some b => modify (set_device b) | None => fail PanicHalt end;;
  inode_init;;
  free_map_init junk;;
  (if format then do_format else mret ());;
  free_map_open.

Definition filesys_done : M fsys unit := free_map_close.
