(* ===== verification/FsDisk.v ===== *)
(** * What the file system keeps on disk

    Words and inodes as bytes and back, the sectors an inode owns, and the
    property of a disk that the inodes on it own disjoint sectors: writing the
    data of one leaves all others as they were. *)

From S2P Require Import Prelude Bitmap Block Inode FreeMap.

(** ** Words and inodes as bytes *)
Lemma le4_length w : length (le4 w) = 4%nat.
Proof. done. Qed.

Lemma un4_le4 w : 0 <= w < 2 ^ 32 -> un4 (le4 w) = w.
Proof.
  intros Hw. unfold un4, le4, u8, wrap. rewrite !Z.shiftr_div_pow2 by lia.
  pose proof (Z.div_mod w (2 ^ 8) ltac:(lia)) as E0. pose proof (Z.div_mod (w / 2 ^ 8) (2 ^ 8) ltac:(lia)) as E1.
  pose proof (Z.div_mod (w / 2 ^ 16) (2 ^ 8) ltac:(lia)) as E2.
  rewrite Z.div_div in E1, E2 by lia. change (2 ^ 8 * 2 ^ 8) with (2 ^ 16) in *. change (2 ^ 16 * 2 ^ 8) with (2 ^ 24) in *.
  rewrite (Z.mod_small (w / 2 ^ 24) (2 ^ 8)); [lia|]. split; [apply Z.div_pos; lia|apply Z.div_lt_upper_bound; lia].
Qed.

Lemma words_of_le4 ws :
  Forall (fun w => 0 <= w < 2 ^ 32) ws -> words_of (concat (le4 <$> ws)) = ws.
Proof.
  induction 1 as [|w ws Hw _ IH]; [done|].
  change (un4 (le4 w) :: words_of (concat (le4 <$> ws)) = w :: ws). by rewrite un4_le4, IH.
Qed.

Lemma le4s_length ws : length (concat (le4 <$> ws)) = (4 * length ws)%nat.
Proof.
  induction ws as [|w ws IH]; [done|].
  rewrite fmap_cons, concat_cons, length_app, IH, le4_length. simpl. lia.
Qed.

(** The fields of an inode are in the range of their types, and the length
    leaves room for the rounding of [bytes_to_sectors]. *)
Record idisk_ok (d : inode_disk) : Prop := {
  id_start : 0 <= start d < 2 ^ 32;
  id_length : 0 <= ilength d /\ ilength d + 511 < 2 ^ 31;
  id_magic : magic d = INODE_MAGIC
}.

Lemma encode_inode_length d : length (encode_inode d) = SECTOR.
Proof. done. Qed.

Lemma decode_encode d : idisk_ok d -> decode_inode (encode_inode d) = d.
Proof.
  intros [H1 H2 H3]. unfold decode_inode.
  change (slice_of (encode_inode d) 0 4) with (le4 (start d)).
  change (slice_of (encode_inode d) 4 4) with (le4 (u32 (ilength d))).
  change (slice_of (encode_inode d) 8 4) with (le4 (magic d)).
  assert (u32 (ilength d) = ilength d) as -> by (apply wrap_small; lia).
  rewrite !un4_le4 by (unfold INODE_MAGIC in *; lia). rewrite swrap_small by lia. by destruct d.
Qed.

Definition nsec (d : inode_disk) : nat := Z.to_nat (bytes_to_sectors (ilength d)).
Definition first (d : inode_disk) : nat := Z.to_nat (start d).

Lemma bytes_to_sectors_ok len :
  0 <= len -> len + 511 < 2 ^ 31 -> 0 <= bytes_to_sectors len < 2 ^ 31 /\ len <= bytes_to_sectors len * 512 < len + 512.
Proof.
  intros H1 H2. unfold bytes_to_sectors, BLOCK_SECTOR_SIZE. rewrite swrap_small by lia.
  replace (len + 512 - 1) with (len + 511) by lia. rewrite Z.quot_div_nonneg by lia.
  pose proof (Z.div_mod (len + 511) 512 ltac:(lia)). pose proof (Z.mod_pos_bound (len + 511) 512 ltac:(lia)).
  rewrite wrap_small; lia.
Qed.

(** ** Sectors *)
Definition in_data (d : inode_disk) (k : nat) : Prop := (first d <= k < first d + nsec d)%nat.
Definition owns (x : nat) (d : inode_disk) (k : nat) : Prop := k = x \/ in_data d k.

(** The inode of sector [x] and its data are on the disk. *)
Record stored (D : list (list Z)) (x : nat) (d : inode_disk) : Prop := {
  st_header : D !! x = Some (encode_inode d);
  st_ok : idisk_ok d;
  st_end : (first d + nsec d <= length D)%nat;
  st_apart : ~ in_data d x
}.

(** [L]: the inodes on the disk. *)
Record disk_ok (D : list (list Z)) (L : gmap nat inode_disk) : Prop := {
  dk_size : Z.of_nat (length D) < 2 ^ 31;
  dk_sectors : Forall (fun b => length b = SECTOR) D;
  dk_stored : map_Forall (stored D) L;
  dk_apart : forall x y d e k, L !! x = Some d -> L !! y = Some e -> owns x d k -> owns y e k -> x = y
}.

Definition fdata (D : list (list Z)) (d : inode_disk) : list Z := contents D d (first d) (nsec d).

Lemma stored_data D x d : Z.of_nat (length D) < 2 ^ 31 -> stored D x d -> data_ok D d (first d) (nsec d).
Proof.
  intros HD [H1 [H2 H3 _] H4 H5]. destruct (bytes_to_sectors_ok (ilength d)) as [H6 H7]; try lia.
  unfold first, nsec, SECTOR in *. split; unfold SECTOR; lia.
Qed.

Lemma disk_data D L x d : disk_ok D L -> L !! x = Some d -> data_ok D d (first d) (nsec d).
Proof. intros [H1 H2 H3 H4] Hx. apply (stored_data D x); [done|]. by apply (H3 x d). Qed.

Lemma fdata_length D L x d : disk_ok D L -> L !! x = Some d -> length (fdata D d) = Z.to_nat (ilength d).
Proof. intros HD Hx. apply contents_length; [apply HD|by eapply disk_data]. Qed.

(** [D'] differs from [D] at most in the sectors of [P]. *)
Record changes (P : nat -> Prop) (D D' : list (list Z)) : Prop := {
  ch_length : length D' = length D;
  ch_sectors : Forall (fun b => length b = SECTOR) D -> Forall (fun b => length b = SECTOR) D';
  ch_same : forall k, ~ P k -> D' !! k = D !! k
}.

Lemma changes_refl P D : changes P D D.
Proof. by split. Qed.

Lemma changes_trans P Q D1 D2 D3 : changes P D1 D2 -> changes Q D2 D3 -> changes (fun k => P k \/ Q k) D1 D3.
Proof.
  intros [A1 A2 A3] [B1 B2 B3]. split; [congruence|auto|]. intros k Hk. rewrite B3, A3; tauto.
Qed.

Lemma changes_mono (P Q : nat -> Prop) D D' : changes P D D' -> (forall k, P k -> Q k) -> changes Q D D'.
Proof. intros [A1 A2 A3] H. split; auto. Qed.

Lemma stored_changes (P : nat -> Prop) D D' x d :
  changes P D D' -> (forall k, owns x d k -> ~ P k) -> stored D x d -> stored D' x d /\ fdata D' d = fdata D d.
Proof.
  intros HC HP [H1 H2 H3 H4]. split.
  - split; [|done|by rewrite (ch_length _ _ _ HC)|done]. rewrite (ch_same _ _ _ HC); [done|]. apply HP. by left.
  - unfold fdata, contents, region. do 2 f_equal. apply list_eq. intros j. destruct (decide (j < nsec d)%nat) as [Hj|Hj].
    + rewrite !slice_of_lookup by done. apply (ch_same _ _ _ HC), HP. right. unfold in_data. lia.
    + rewrite !lookup_ge_None_2; [done| |]; unfold slice_of; rewrite length_take; lia.
Qed.

(** The header of an inode stays when only its data change. *)
Lemma stored_data_changes D D' x d : changes (in_data d) D D' -> stored D x d -> stored D' x d.
Proof.
  intros HC [H1 H2 H3 H4]. split; [|done|by rewrite (ch_length _ _ _ HC)|done]. by rewrite (ch_same _ _ _ HC).
Qed.

(** Changing the data of one inode keeps the disk, and the data of the others. *)
Lemma disk_ok_write D D' L x d :
  disk_ok D L -> L !! x = Some d -> changes (in_data d) D D' ->
  disk_ok D' L /\ forall y e, L !! y = Some e -> y <> x -> fdata D' e = fdata D e.
Proof.
  intros [H1 H2 H3 H4] Hx HC.
  assert (forall y e, L !! y = Some e -> y <> x -> forall k, owns y e k -> ~ in_data d k) as Hother.
  { intros y e Hy Hne k Hk Hd. apply Hne. apply (H4 y x e d k); [done..|by right]. }
  split.
  - split; [by rewrite (ch_length _ _ _ HC)|by apply (ch_sectors _ _ _ HC)| |done].
    intros y e Hy. destruct (decide (y = x)) as [->|Hne].
    + assert (e = d) as -> by congruence. apply (stored_data_changes D); [done|by apply H3].
    + apply (stored_changes _ _ _ _ _ HC); [by apply Hother|by apply H3].
  - intros y e Hy Hne. apply (stored_changes _ _ _ y _ HC); [by apply Hother|by apply H3].
Qed.

Definition owned (L : gmap nat inode_disk) (k : nat) : Prop := exists x d, L !! x = Some d /\ owns x d k.

(** Writing sectors that no inode owns. *)
Lemma disk_ok_free D D' L (P : nat -> Prop) :
  disk_ok D L -> changes P D D' -> (forall k, P k -> ~ owned L k) ->
  disk_ok D' L /\ forall y e, L !! y = Some e -> fdata D' e = fdata D e.
Proof.
  intros [H1 H2 H3 H4] HC HP.
  assert (forall y e, L !! y = Some e -> forall k, owns y e k -> ~ P k) as Hother.
  { intros y e Hy k Hk Hp. apply (HP k Hp). by exists y, e. }
  split.
  - split; [by rewrite (ch_length _ _ _ HC)|by apply (ch_sectors _ _ _ HC)| |done].
    intros y e Hy. apply (stored_changes _ _ _ _ _ HC); [by apply Hother|by apply H3].
  - intros y e Hy. apply (stored_changes _ _ _ y _ HC); [by apply Hother|by apply H3].
Qed.

Lemma disk_ok_insert D L x d :
  disk_ok D L -> stored D x d -> (forall k, owns x d k -> ~ owned L k) -> disk_ok D (<[x := d]> L).
Proof.
  intros [H1 H2 H3 H4] Hs Hfree. split; [done|done| |].
  - apply map_Forall_insert_2; done.
  - intros y z e f k Hy Hz Hk Hk'. destruct (decide (y = x)) as [->|Hy'], (decide (z = x)) as [->|Hz']; [done| | |].
    + rewrite lookup_insert_eq in Hy. injection Hy as <-. rewrite lookup_insert_ne in Hz by done. exfalso.
      apply (Hfree k Hk). by exists z, f.
    + rewrite lookup_insert_eq in Hz. injection Hz as <-. rewrite lookup_insert_ne in Hy by done. exfalso.
      apply (Hfree k Hk'). by exists y, e.
    + rewrite lookup_insert_ne in Hy, Hz by done. by apply (H4 y z e f k).
Qed.

Lemma disk_ok_delete D L x : disk_ok D L -> disk_ok D (delete x L).
Proof.
  intros [H1 H2 H3 H4]. split; [done|done| |].
  - by apply map_Forall_delete.
  - intros y z e f k [_ Hy]%lookup_delete_Some [_ Hz]%lookup_delete_Some. by apply H4.
Qed.
