(* ===== verification/FsInv.v ===== *)
(** * The free map and the inodes in memory

    The relation between the free map, the disk and the open inodes that every
    operation of the file system keeps, and what the operations of free-map.c
    and inode.c do when it holds.  Allocations of memory succeed here: what a
    failed one can do is shown in FsTheorems. *)

From S2P Require Import Prelude Bitmap Block Inode FreeMap FsDisk.

(** ** The free map *)
(** The free map's file is open and has room for the bits. *)
Definition map_file_ok (s : fsys) (L : gmap nat inode_disk) : Prop :=
  exists f i, files s !! free_map_file s = Some f /\ inodes s !! f_inode f = Some i /\ deny_write_cnt i = 0 /\
    sector i = 0 /\ L !! 0%nat = Some (data i) /\ ilength (data i) = byte_cnt (bit_cnt (free_map s)).

Record map_ok (s : fsys) (bs : list bool) (L : gmap nat inode_disk) : Prop := {
  mp_block : block_ok (fs_device s);
  mp_disk : disk_ok (disk s) L;
  mp_bits : is_bitmap (free_map s) bs;
  mp_length : length bs = length (disk s);
  mp_used : forall k, owned L k -> bs !! k = Some true;
  mp_file : is_Some (files s !! free_map_file s) -> map_file_ok s L;
  mp_alloc : outcomes s = [];
  mp_fresh : 0 < fresh s
}.

(** The file of the free map has its bits. *)
Definition synced (s : fsys) (bs : list bool) (L : gmap nat inode_disk) : Prop :=
  exists d ws, L !! 0%nat = Some d /\ fdata (disk s) d = concat (le4 <$> ws) /\
    length ws = Z.to_nat (elem_cnt (alen bs)) /\ is_bitmap (Bitmap (alen bs) ws) bs.

(** What operations on sectors leave alone. *)
Record mem_same (s s' : fsys) : Prop := {
  ms_inodes : inodes s' = inodes s;
  ms_open : open_inodes s' = open_inodes s;
  ms_files : files s' = files s;
  ms_dirs : dirs s' = dirs s;
  ms_map_file : free_map_file s' = free_map_file s;
  ms_fresh : fresh s <= fresh s'
}.

Lemma mem_same_refl s : mem_same s s.
Proof. by split. Qed.

Lemma mem_same_trans s1 s2 s3 : mem_same s1 s2 -> mem_same s2 s3 -> mem_same s1 s3.
Proof. intros [] []. split; try congruence. lia. Qed.

Lemma fs_frame_same s s' : fs_frame s s' -> mem_same s s'.
Proof. intros []. by split. Qed.

(** The data of the other inodes. *)
Definition data_same (D D' : list (list Z)) (L : gmap nat inode_disk) (P : nat -> Prop) : Prop :=
  forall x d, L !! x = Some d -> ~ P x -> fdata D' d = fdata D d.

Lemma map_sizes s bs L :
  map_ok s bs L -> bit_cnt (free_map s) = alen bs /\ alen bs < 2 ^ 31 /\
    byte_cnt (alen bs) = 4 * elem_cnt (alen bs) /\ 0 <= 32 * elem_cnt (alen bs) < alen bs + 32 /\ alen bs <= 32 * elem_cnt (alen bs) /\
    elem_cnt (alen bs) <= alen (bits (free_map s)).
Proof.
  intros H. pose proof (mp_bits _ _ _ H) as Hb. pose proof (dk_size _ _ (mp_disk _ _ _ H)) as Hd.
  pose proof (bm_room _ _ Hb) as Hr. pose proof (alen_nonneg bs).
  assert (alen bs = Z.of_nat (length (disk s))) as E by (unfold alen; by rewrite (mp_length _ _ _ H)).
  pose proof (DIV_ROUND_UP_bounds (alen bs) ELEM_BITS ltac:(lia) eq_refl ltac:(unfold ELEM_BITS; lia)) as HR.
  unfold byte_cnt, elem_cnt. unfold ELEM_BITS in *. rewrite wrap_small by lia.
  split_and!; try lia. by rewrite (bm_cnt _ _ Hb).
Qed.

Lemma is_bitmap_take b bs n :
  is_bitmap b bs -> alen bs <= 32 * Z.of_nat n -> is_bitmap (Bitmap (alen bs) (take n (bits b))) bs.
Proof.
  intros [H1 H2 H3 H4 H5] Hn. split; simpl; [done|done| |by apply Forall_take|].
  - unfold alen, ELEM_BITS in *. rewrite length_take. lia.
  - intros i Hi. rewrite (H5 i Hi). f_equal. unfold bit. simpl. unfold aget.
    assert (0 <= elem_idx i < Z.of_nat n) as Hidx.
    { unfold elem_idx, ELEM_BITS. split; [apply Z.div_pos; lia|apply Z.div_lt_upper_bound; lia]. }
    rewrite (proj2 (Z.ltb_ge _ _)) by lia. by rewrite lookup_take_lt by lia.
Qed.

Lemma take_le4s ws n : take (4 * n) (concat (le4 <$> ws)) = concat (le4 <$> take n ws).
Proof.
  revert n. induction ws as [|w ws IH]; intros [|n]; [done..|].
  replace (4 * S n)%nat with (4 + 4 * n)%nat by lia. simpl take at 2. rewrite !fmap_cons, !concat_cons.
  rewrite <- IH. pose proof (take_app_add (le4 w) (concat (le4 <$> ws)) (4 * n)) as E. by rewrite le4_length in E.
Qed.

(** Writing the free map: the file gets the bits. *)
Lemma bitmap_write_ok s bs L :
  map_ok s bs L -> is_Some (files s !! free_map_file s) ->
  wp (bitmap_write (free_map_file s)) (fun r s' => r = true /\ map_ok s' bs L /\ synced s' bs L /\
    mem_same s s' /\ free_map s' = free_map s /\ data_same (disk s) (disk s') L (eq 0%nat)) s.
Proof.
  intros H Hfile. destruct (map_sizes _ _ _ H) as (Ec & Hmax & Eb & Hel & Hel' & Hroom).
  assert (Z.to_nat (elem_cnt (alen bs)) <= length (bits (free_map s)))%nat as Hroom' by (unfold alen in *; lia).
  destruct H as [H1 H2 H3 H4 H5 H6 H7 H8]. destruct (H6 Hfile) as (f & i & Hf & Hi & Hdw & Hs0 & HL & Hlen).
  pose proof (disk_data _ _ _ _ H2 HL) as Hdat. rewrite Ec in Hlen.
  unfold bitmap_write, file_write_at, get_file. do 4 wp_step. eapply wp_deref; [done|]. rewrite Ec.
  set (buf := concat (le4 <$> bits (free_map s))).
  assert (length buf = (4 * length (bits (free_map s)))%nat) as Hbuf by apply le4s_length.
  assert (alen buf = 4 * alen (bits (free_map s))) as Hbuf' by (unfold alen; lia).
  eapply wp_mono; [apply (inode_write_ok s (f_inode f) i (first (data i)) (nsec (data i))); try done; lia|].
  intros n s' (Hw & Hn & _ & Hn'). wp_step. specialize (Hn' Hdw H7). unfold avail in Hn'.
  assert (n = byte_cnt (alen bs)) as -> by lia. pose proof (wr_frame _ _ _ _ _ _ _ Hw) as Hfr.
  assert (changes (in_data (data i)) (disk s) (disk s')) as HC.
  { split; [by rewrite (wr_length _ _ _ _ _ _ _ Hw)|intros _; apply (wr_block _ _ _ _ _ _ _ Hw)|].
    intros k Hk. apply (wr_others _ _ _ _ _ _ _ Hw). unfold in_data in Hk. lia. }
  destruct (disk_ok_write _ _ _ _ _ H2 HL HC) as [HD' Hsame]. split_and!.
  - apply Z.eqb_refl.
  - split; [apply Hw|done|by rewrite (fr_map _ _ Hfr)|by rewrite (ch_length _ _ _ HC)|done| |by apply (fr_outcomes _ _ Hfr)|apply Hw].
    intros _. exists f, i. by rewrite (fr_files _ _ Hfr), (fr_inodes _ _ Hfr), (fr_map_file _ _ Hfr), (fr_map _ _ Hfr), Ec.
  - exists (data i), (take (Z.to_nat (elem_cnt (alen bs))) (bits (free_map s))). split; [done|]. split; [|split].
    + unfold fdata, contents. rewrite (wr_region _ _ _ _ _ _ _ Hw), Hlen, Eb. simpl Z.to_nat at 2.
      replace (Z.to_nat (4 * elem_cnt (alen bs))) with (4 * Z.to_nat (elem_cnt (alen bs)))%nat by lia.
      rewrite <- take_le4s. unfold splice. rewrite take_0, app_nil_l, take_app_le by (rewrite length_take; unfold buf in *; lia).
      rewrite take_take. f_equal. lia.
    + rewrite length_take. lia.
    + apply is_bitmap_take; [done|lia].
  - by apply fs_frame_same.
  - apply Hfr.
  - intros x d Hx Hne. apply (Hsame x d Hx). congruence.
Qed.

Lemma on_map_ok {A} (m : M bitmap A) s Q :
  wp m Q (free_map s) -> wp (on_map m) (fun a s' => exists b, s' = set_map b s /\ Q a b) s.
Proof. unfold wp, on_map. destruct (m (free_map s)) as [[a b]|e]; [|done]. intros H. by exists b. Qed.

Lemma map_ok_set_map s bs L b bs' :
  map_ok s bs L -> is_bitmap b bs' -> length bs' = length bs -> (forall k, owned L k -> bs' !! k = Some true) ->
  map_ok (set_map b s) bs' L.
Proof.
  intros H Hb Hlen Hu. destruct (map_sizes _ _ _ H) as (Ec & _).
  destruct H as [H1 H2 H3 H4 H5 H6 H7 H8]. split; try done; simpl; [congruence|]. intros Hfile.
  destruct (H6 Hfile) as (f & i & Hf & Hi & Hdw & Hs0 & HL & Hl). exists f, i. simpl. split_and!; try done. rewrite Hl, Ec, (bm_cnt _ _ Hb). f_equal. unfold alen. congruence.
Qed.

(** ** Ranges of bits *)
Definition in_run (st cnt : Z) (k : nat) : Prop := st <= Z.of_nat k < st + cnt.

#[export] Instance in_run_dec st cnt k : Decision (in_run st cnt k).
Proof. unfold in_run. apply _. Defined.

Lemma fill_lookup bs st cnt v k :
  in_range bs st cnt -> fill bs st cnt v !! k = if decide (in_run st cnt k) then Some v else bs !! k.
Proof. intros H. rewrite <- !aget_nat, aget_fill by done. done. Qed.

Lemma fill_length bs st cnt v : in_range bs st cnt -> length (fill bs st cnt v) = length bs.
Proof. intros H. pose proof (alen_fill bs st cnt v H) as E. unfold alen in E. lia. Qed.

Lemma group_lookup bs st cnt v k : group bs cnt v st -> in_run st cnt k -> bs !! k = Some v.
Proof. intros [_ H] Hk. rewrite <- aget_nat. by apply H. Qed.

(** Bits that are free are not owned. *)
Lemma free_not_owned s bs L k : map_ok s bs L -> bs !! k = Some false -> ~ owned L k.
Proof. intros H Hk Ho. rewrite (mp_used _ _ _ H k Ho) in Hk. done. Qed.

Lemma free_map_allocate_ok s bs L cnt :
  map_ok s bs L -> (free_map_file s <> 0 -> is_Some (files s !! free_map_file s)) -> 0 <= cnt ->
  wp (free_map_allocate cnt) (fun r s' => mem_same s s' /\ data_same (disk s) (disk s') L (eq 0%nat) /\
    match r with
    | None => (forall i, ~ group bs cnt false i) /\ map_ok s' bs L /\ disk s' = disk s
    | Some st => group bs cnt false st /\ map_ok s' (fill bs st cnt true) L /\ (free_map_file s <> 0 -> synced s' (fill bs st cnt true) L)
    end) s.
Proof.
  intros H Hmf Hcnt. unfold free_map_allocate. wp_step. pose proof (alen_nonneg bs).
  eapply wp_mono; [apply on_map_ok, (scan_and_flip_ok _ bs); [apply H|lia|done]|].
  intros r s1 (b & -> & -> & Hb). destruct (scan_spec_error_or_group bs 0 cnt false) as [[E Hno]|(Hge & Hg & _)]; [lia|done| |].
  - rewrite E, Z.eqb_refl in *. wp_step. split_and!; try done.
    + intros i Hg. assert (0 <= i) by (destruct Hg as [Hr _]; unfold in_range in Hr; lia). by apply (Hno i).
    + apply (map_ok_set_map _ bs); [done..|apply H].
  - assert (in_range bs (scan_spec bs 0 cnt false) cnt) as Hr by apply Hg.
    destruct (map_sizes _ _ _ H) as (_ & Hmax & _).
    rewrite (proj2 (Z.eqb_neq _ _)) in Hb |- * by (unfold BITMAP_ERROR, in_range in *; lia).
    set (st := scan_spec bs 0 cnt false) in *. cbn [negb] in Hb.
    assert (map_ok (set_map b s) (fill bs st cnt true) L) as H1.
    { apply (map_ok_set_map _ bs); [done..|by apply fill_length|]. intros k Hk. rewrite fill_lookup by done.
      case_decide; [done|by apply H]. }
    do 3 wp_step. simpl. destruct (Z.eqb_spec (free_map_file s) 0) as [Hf|Hf].
    + do 2 wp_step. by split_and!.
    + eapply wp_mono; [apply (bitmap_write_ok (set_map b s)); [done|by apply Hmf]|]. intros w s2 (-> & H2 & H3 & H4 & _ & H6). wp_step.
      split_and!; try done. by destruct H4; split.
Qed.

Lemma free_map_release_ok s bs L sec cnt :
  map_ok s bs L -> is_Some (files s !! free_map_file s) -> group bs cnt true sec -> (forall k, in_run sec cnt k -> ~ owned L k) ->
  wp (free_map_release sec cnt) (fun _ s' => mem_same s s' /\ data_same (disk s) (disk s') L (eq 0%nat) /\
    map_ok s' (fill bs sec cnt false) L /\ synced s' (fill bs sec cnt false) L) s.
Proof.
  intros H Hf Hg Hno. assert (in_range bs sec cnt) as Hr by apply Hg. pose proof (mp_bits _ _ _ H) as Hb.
  unfold free_map_release, bitmap_all. wp_step. eapply wp_mono.
  { apply (on_map_ok _ _ (fun r b => b = free_map s /\ r = negb (bool_decide (false ∈ slice bs sec cnt)))).
    wp_step. eapply wp_eq; [by apply (bitmap_contains_ok _ bs)|]. by wp_step. }
  intros r s1 (b & -> & -> & ->). wp_step. apply wp_assert.
  { apply negb_true_iff, bool_decide_eq_false_2. by apply (group_slice bs cnt true sec). }
  wp_step. replace (set_map (free_map s) s) with s by (by destruct s).
  eapply wp_mono; [by apply on_map_ok, (bitmap_set_multiple_ok _ bs)|]. intros [] s2 (b2 & -> & Hb2). do 3 wp_step.
  assert (map_ok (set_map b2 s) (fill bs sec cnt false) L) as H1.
  { apply (map_ok_set_map _ bs); [done..|by apply fill_length|]. intros k Hk. rewrite fill_lookup by done.
    rewrite decide_False; [by apply H|]. intros Hin. by apply (Hno k). }
  eapply wp_mono; [by apply (bitmap_write_ok (set_map b2 s))|]. intros w s3 (-> & H2 & H3 & H4 & _ & H6). wp_step.
  split_and!; try done. by destruct H4; split.
Qed.

(** ** Creating an inode *)
Lemma alloc_ok s : outcomes s = [] -> alloc s = Ok (fresh s, set_alloc (fresh s + 1) [] s).
Proof. intros H. unfold alloc, mbind, M_bind, get. simpl. by rewrite H. Qed.

Lemma map_ok_alloc s bs L : map_ok s bs L -> map_ok (set_alloc (fresh s + 1) [] s) bs L.
Proof. intros []. split; try done. simpl. lia. Qed.

Lemma write_block_ok s k b :
  block_ok (fs_device s) -> (k < length (disk s))%nat -> length b = SECTOR ->
  wp (on_dev (block_write (Z.of_nat k) b)) (fun _ s' => fs_frame s s' /\ outcomes s' = outcomes s /\
    block_ok (fs_device s') /\ disk s' = <[k := b]> (disk s)) s.
Proof.
  intros [H1 H2 H3] Hk Hb. destruct (lookup_lt_is_Some_2 _ _ Hk) as [e He].
  eapply wp_eq; [apply on_dev_ok; apply (block_write_ok _ _ e); [done|by rewrite aget_nat]|].
  assert ((disk s).[Z.of_nat k <- b] = <[k := b]> (disk s)) as Eset.
  { unfold aset. rewrite (proj2 (Z.ltb_ge _ _)) by lia. by rewrite Nat2Z.id. }
  rewrite Eset. split_and!; [by split|done| |done].
  split; simpl; [|by apply Forall_insert|done]. rewrite H1. unfold alen. by rewrite length_insert.
Qed.

Lemma changes_insert (P : nat -> Prop) D k b : P k -> length b = SECTOR -> changes P D (<[k := b]> D).
Proof.
  intros Hk Hb. split; [by rewrite length_insert|intros; by apply Forall_insert|].
  intros j Hj. apply list_lookup_insert_ne. congruence.
Qed.

Definition zeros : list Z := replicate SECTOR 0.

(** The loop that writes zeros to the data sectors. *)
Lemma zero_sectors_ok s st (n : nat) :
  block_ok (fs_device s) -> 0 <= st -> st + Z.of_nat n <= Z.of_nat (length (disk s)) -> Z.of_nat (length (disk s)) < 2 ^ 31 ->
  wp (for_ n 0 (fun i => on_dev (block_write (u32 (st + i)) zeros))) (fun _ s' => fs_frame s s' /\
    outcomes s' = outcomes s /\ block_ok (fs_device s') /\ changes (in_run st (Z.of_nat n)) (disk s) (disk s') /\
    forall k, in_run st (Z.of_nat n) k -> disk s' !! k = Some zeros) s.
Proof.
  intros Hb Hst Hend Hmax. eapply wp_mono.
  - apply (wp_for (fun i s' => fs_frame s s' /\ outcomes s' = outcomes s /\ block_ok (fs_device s') /\
      changes (in_run st i) (disk s) (disk s') /\ forall k, in_run st i k -> disk s' !! k = Some zeros)).
    + intros i s1 Hi (A1 & A2 & A3 & A4 & A5). pose proof (ch_length _ _ _ A4) as Hl.
      replace (u32 (st + i)) with (Z.of_nat (Z.to_nat (st + i))) by (rewrite wrap_small; lia).
      eapply wp_mono; [apply write_block_ok; [done|rewrite Hl; lia|done]|]. intros [] s2 (B1 & B2 & B3 & B4).
      split_and!; [by eapply fs_frame_trans|congruence|done| |].
      * rewrite B4. eapply changes_mono; [eapply changes_trans; [exact A4|]|].
        { apply (changes_insert (fun k => k = Z.to_nat (st + i))); done. }
        intros k. unfold in_run. lia.
      * intros k Hk. rewrite B4. destruct (decide (k = Z.to_nat (st + i))) as [->|Hne].
        { apply list_lookup_insert_eq. rewrite Hl. lia. }
        rewrite list_lookup_insert_ne by done. apply A5. unfold in_run in *. lia.
    + split_and!; [apply fs_frame_refl|done|done|apply changes_refl|unfold in_run; lia].
  - intros [] s' H. exact H.
Qed.

Lemma concat_zeros n : concat (replicate n zeros) = replicate (n * SECTOR) 0.
Proof. induction n as [|n IH]; [done|]. simpl replicate at 1. rewrite concat_cons, IH. symmetry. apply replicate_add. Qed.

Lemma fdata_zeros D x d :
  Z.of_nat (length D) < 2 ^ 31 -> stored D x d -> (forall k, in_data d k -> D !! k = Some zeros) ->
  fdata D d = replicate (Z.to_nat (ilength d)) 0.
Proof.
  intros HD Hs Hz. pose proof (stored_data D x d HD Hs) as [_ H2 H3 H4 _]. unfold fdata, contents, region.
  assert (slice_of D (first d) (nsec d) = replicate (nsec d) zeros) as ->.
  { apply list_eq. intros j. destruct (decide (j < nsec d)%nat) as [Hj|Hj].
    - rewrite slice_of_lookup, lookup_replicate_2 by done. apply Hz. unfold in_data. lia.
    - rewrite !lookup_ge_None_2; [done| |]; unfold slice_of; rewrite ?length_take, ?length_replicate; lia. }
  rewrite concat_zeros, take_replicate. f_equal. lia.
Qed.

(** A new inode on sectors that were set aside for it. *)
Lemma map_ok_new s s' bs L x d :
  map_ok s bs L -> mem_same s s' -> free_map s' = free_map s -> block_ok (fs_device s') -> outcomes s' = [] ->
  changes (owns x d) (disk s) (disk s') -> stored (disk s') x d ->
  (forall k, owns x d k -> bs !! k = Some true /\ ~ owned L k) ->
  map_ok s' bs (<[x := d]> L) /\ data_same (disk s) (disk s') L (fun _ => False) /\
  (is_Some (files s !! free_map_file s) -> synced s bs L -> synced s' bs (<[x := d]> L)).
Proof.
  intros [H1 H2 H3 H4 H5 H6 H7 H8] Hm Hmap Hb Ho HC Hs Hown.
  destruct (disk_ok_free _ _ _ _ H2 HC) as [HD' Hsame]; [intros k Hk; by apply Hown|].
  assert (is_Some (files s !! free_map_file s) -> <[x := d]> L !! 0%nat = L !! 0%nat) as HL0.
  { intros Hf. destruct (H6 Hf) as (f & i & _ & _ & _ & _ & HL & _). apply lookup_insert_ne. intros ->.
    destruct (Hown 0%nat) as [_ Hno]; [by left|]. apply Hno. exists 0%nat, (data i). split; [done|by left]. }
  split_and!.
  - split; [done| |by rewrite Hmap|by rewrite (ch_length _ _ _ HC)| | |done|pose proof (ms_fresh _ _ Hm); lia].
    + apply disk_ok_insert; [done|done|]. intros k Hk. by apply Hown.
    + intros k (y & e & Hy & Hk). destruct (decide (y = x)) as [->|Hne].
      * rewrite lookup_insert_eq in Hy. injection Hy as <-. by apply Hown.
      * rewrite lookup_insert_ne in Hy by done. apply H5. by exists y, e.
    + rewrite (ms_map_file _ _ Hm), (ms_files _ _ Hm). intros Hf. destruct (H6 Hf) as (f & i & G). exists f, i.
      by rewrite HL0, (ms_map_file _ _ Hm), (ms_files _ _ Hm), (ms_inodes _ _ Hm), Hmap.
  - intros y e Hy _. by apply (Hsame y).
  - intros Hf (d0 & ws & G1 & G2 & G3). exists d0, ws. rewrite HL0 by done. split_and!; try done; [|apply G3..].
    by rewrite (Hsame 0%nat).
Qed.

Lemma bytes_to_sectors_wide len :
  0 <= len < 2 ^ 31 -> 2 ^ 31 <= len + 511 -> 2 ^ 31 <= bytes_to_sectors len.
Proof.
  intros H1 H2. unfold bytes_to_sectors, BLOCK_SECTOR_SIZE.
  assert (s32 (len + 512 - 1) = len + 511 - 2 ^ 32) as ->.
  { unfold swrap. change (32 - 1) with 31.
    rewrite <- (Z.mod_unique (len + 512 - 1 + 2 ^ 31) (2 ^ 32) 1 (len + 511 + 2 ^ 31 - 2 ^ 32)); lia. }
  assert (Z.quot (len + 511 - 2 ^ 32) 512 = - ((2 ^ 32 - (len + 511)) / 512)) as ->.
  { rewrite <- Z.quot_div_nonneg by lia. rewrite <- Z.quot_opp_l by lia. f_equal. lia. }
  pose proof (Z.div_mod (2 ^ 32 - (len + 511)) 512 ltac:(lia)) as E.
  pose proof (Z.mod_pos_bound (2 ^ 32 - (len + 511)) 512 ltac:(lia)) as E2. unfold wrap.
  rewrite <- (Z.mod_unique (- ((2 ^ 32 - (len + 511)) / 512)) (2 ^ 32) (-1) (2 ^ 32 - (2 ^ 32 - (len + 511)) / 512)); lia.
Qed.

Lemma bytes_to_sectors_nonneg len : 0 <= bytes_to_sectors len.
Proof. apply wrap_range. lia. Qed.

Definition grows (bs bs' : list bool) : Prop := forall k, bs !! k = Some true -> bs' !! k = Some true.

Lemma inode_create_ok s bs L (x : nat) len :
  map_ok s bs L -> (free_map_file s <> 0 -> is_Some (files s !! free_map_file s)) -> 0 <= len < 2 ^ 31 ->
  bs !! x = Some true -> ~ owned L x ->
  wp (inode_create (Z.of_nat x) len) (fun r s' => mem_same s s' /\ data_same (disk s) (disk s') L (eq 0%nat) /\
    if r : bool then exists d bs', ilength d = len /\ map_ok s' bs' (<[x := d]> L) /\ grows bs bs' /\
      group bs (bytes_to_sectors len) false (start d) /\ bs' = fill bs (start d) (bytes_to_sectors len) true /\
      fdata (disk s') d = replicate (Z.to_nat len) 0 /\ (free_map_file s <> 0 -> synced s' bs' (<[x := d]> L))
    else map_ok s' bs L /\ disk s' = disk s /\ forall i, ~ group bs (bytes_to_sectors len) false i) s.
Proof.
  intros H Hmf Hlen Hx Hno. unfold inode_create. wp_step. apply wp_assert; [lia|]. wp_step.
  eapply wp_eq; [apply alloc_ok, H|]. pose proof (mp_fresh _ _ _ H) as Hf. rewrite (proj2 (Z.eqb_neq _ _)) by lia.
  set (s0 := set_alloc _ _ s). assert (map_ok s0 bs L) as H0 by by apply map_ok_alloc.
  assert (mem_same s s0) as M0 by (split; try done; simpl; lia).
  pose proof (bytes_to_sectors_nonneg len) as Hbs. set (n := bytes_to_sectors len) in *. wp_step.
  eapply wp_mono; [by apply (free_map_allocate_ok s0 bs L)|]. intros [st|] s1 (M1 & DS & G).
  2: { wp_step. destruct G as (G1 & G2 & G3). split_and!; try done. by eapply mem_same_trans. }
  destruct G as (Hg & H1 & Hsync). assert (in_range bs st n) as Hr by apply Hg.
  destruct (map_sizes _ _ _ H0) as (_ & Hmax & _).
  assert (len + 511 < 2 ^ 31) as Hlen'.
  { destruct (Z.lt_ge_cases (len + 511) (2 ^ 31)) as [Hl|Hl]; [done|].
    pose proof (bytes_to_sectors_wide len Hlen Hl). unfold n, in_range in *. lia. }
  set (d := InodeDisk st len INODE_MAGIC). pose proof (mp_length _ _ _ H1) as Hl1. rewrite fill_length in Hl1 by done.
  pose proof (lookup_lt_Some _ _ _ Hx) as Hxl. unfold in_range, alen in Hr.
  assert (forall k, in_data d k <-> in_run st n k) as Hrun.
  { intros k. unfold in_data, in_run, first, nsec. simpl. fold n. lia. }
  wp_step. eapply wp_mono; [apply (write_block_ok s1 x); [apply H1|lia|apply encode_inode_length]|].
  intros [] s2 (F2 & O2 & B2 & D2). wp_step.
  pose proof (dk_size _ _ (mp_disk _ _ _ H1)) as Hsz.
  eapply wp_mono; [apply (zero_sectors_ok s2 st (Z.to_nat n)); rewrite ?D2, ?length_insert; (done || lia)|].
  intros [] s3 (F3 & O3 & B3 & C3 & Z3). wp_step. rewrite Z2Nat.id in C3, Z3 by done.
  assert (mem_same s1 s3) as M3 by (eapply mem_same_trans; by apply fs_frame_same).
  assert (changes (owns x d) (disk s1) (disk s3)) as HC.
  { rewrite D2 in C3. eapply changes_mono; [eapply changes_trans; [|exact C3]|].
    - by apply (changes_insert (fun k => k = x)).
    - intros k [->|Hk]; [by left|right; by apply Hrun]. }
  assert (bs !! x <> Some false) as Hx' by congruence.
  assert (~ in_data d x) as Hxd by (rewrite Hrun; intros Hk; by rewrite (group_lookup _ _ _ _ _ Hg Hk) in Hx').
  assert (stored (disk s3) x d) as Hst.
  { split; [|split; simpl; (done || lia)|unfold first, nsec; simpl; fold n; rewrite (ch_length _ _ _ HC); lia|done].
    rewrite (ch_same _ _ _ C3), D2; [apply list_lookup_insert_eq; lia|by rewrite <- Hrun]. }
  destruct (map_ok_new s1 s3 (fill bs st n true) L x d) as (H3 & DS3 & Sy3); try done.
  { by rewrite (fr_map _ _ F3), (fr_map _ _ F2). }
  { rewrite O3, O2. apply H1. }
  { assert (in_range bs st n) as Hr' by (unfold in_range, alen; lia).
    intros k [->|Hk%Hrun]; rewrite fill_lookup by done.
    - rewrite decide_False by (by rewrite <- Hrun). done.
    - rewrite decide_True by done. split; [done|]. eapply free_not_owned; [exact H0|]. by eapply group_lookup. }
  split_and!; [by eapply mem_same_trans; [eapply mem_same_trans|]| |].
  { intros y e Hy Hne. rewrite (DS3 y e Hy) by tauto. by apply (DS y e Hy). }
  exists d, (fill bs st n true). split_and!; try done.
  - intros k Hk. rewrite fill_lookup by (unfold in_range, alen; lia). case_decide; done.
  - rewrite (fdata_zeros _ x d); [done|rewrite (ch_length _ _ _ HC); lia|done|]. intros k Hk. by apply Z3, Hrun.
  - intros Hfile. apply Sy3; [rewrite (ms_map_file _ _ M1), (ms_files _ _ M1); by apply Hmf|by apply Hsync].
Qed.

(** ** Inodes in memory *)
(** [R] and [N] count, for each open inode, the objects that refer to it and
    those that deny writes to it. *)
Record inode_ok (fr : Z) (L : gmap nat inode_disk) (R N : Z -> nat) (ip : Z) (i : inode) : Prop := {
  io_addr : 0 < ip < fr;
  io_sector : 0 <= sector i;
  io_stored : L !! Z.to_nat (sector i) = Some (data i);
  io_refs : open_cnt i = Z.of_nat (R ip);
  io_live : (0 < R ip)%nat /\ Z.of_nat (R ip) < 2 ^ 31;
  io_deny : deny_write_cnt i = Z.of_nat (N ip);
  io_system : sector i < 2 -> removed i = false
}.

Record mem_ok (s : fsys) (L : gmap nat inode_disk) (R N : Z -> nat) : Prop := {
  mo_inodes : map_Forall (inode_ok (fresh s) L R N) (inodes s);
  mo_nodup : NoDup (open_inodes s);
  mo_list : forall ip, ip ∈ open_inodes s <-> is_Some (inodes s !! ip);
  mo_inj : forall ip jp i j, inodes s !! ip = Some i -> inodes s !! jp = Some j -> sector i = sector j -> ip = jp;
  mo_zero : forall ip, inodes s !! ip = None -> R ip = 0%nat /\ N ip = 0%nat
}.

(** What opening and closing leave alone. *)
Record rest_same (s s' : fsys) : Prop := {
  rs_files : files s' = files s;
  rs_dirs : dirs s' = dirs s;
  rs_map_file : free_map_file s' = free_map_file s;
  rs_fresh : fresh s <= fresh s'
}.

Lemma rest_same_refl s : rest_same s s.
Proof. by split. Qed.

Lemma rest_same_trans s1 s2 s3 : rest_same s1 s2 -> rest_same s2 s3 -> rest_same s1 s3.
Proof. intros [] []. split; try congruence. lia. Qed.

Lemma mem_rest_same s s' : mem_same s s' -> rest_same s s'.
Proof. intros []. by split. Qed.

(** The part of an inode that the counts do not say. *)
Definition inode_same (i i' : inode) : Prop := sector i' = sector i /\ removed i' = removed i /\ data i' = data i.

Definition bump (R : Z -> nat) (ip : Z) (jp : Z) : nat := (R jp + Nat.b2n (jp =? ip)%Z)%nat.
Definition drop1 (R : Z -> nat) (ip : Z) (jp : Z) : nat := (R jp - Nat.b2n (jp =? ip)%Z)%nat.

Lemma find_open_ok (m : gmap Z inode) l sec :
  (forall ip, ip ∈ l -> is_Some (m !! ip)) ->
  (exists ip i, find_open m l sec = Ok (Some ip) /\ ip ∈ l /\ m !! ip = Some i /\ sector i = sec) \/
  (find_open m l sec = Ok None /\ forall ip i, ip ∈ l -> m !! ip = Some i -> sector i <> sec).
Proof.
  induction l as [|jp l IH]; intros Hl; simpl.
  - right. split; [done|]. intros ip i []%elem_of_nil.
  - destruct (Hl jp) as [j Hj]; [by left|]. rewrite Hj. destruct (Z.eqb_spec (sector j) sec) as [He|He].
    + left. exists jp, j. split_and!; try done. by left.
    + destruct IH as [(ip & i & H1 & H2 & H3 & H4)|[H1 H2]]; [intros; apply Hl; by right| |].
      * left. exists ip, i. split_and!; try done. by right.
      * right. split; [done|]. intros ip i [->|Hin]%elem_of_cons Hi; [congruence|by apply (H2 ip)].
Qed.

Lemma map_ok_put s bs L ip i' :
  map_ok s bs L ->
  (forall f i, files s !! free_map_file s = Some f -> f_inode f = ip -> inodes s !! ip = Some i ->
     deny_write_cnt i' = deny_write_cnt i /\ data i' = data i /\ sector i' = sector i) ->
  map_ok (set_inodes (<[ip := i']> (inodes s)) s) bs L.
Proof.
  intros [] Hip. split; try done. intros Hf. destruct (mp_file0 Hf) as (f & i & G1 & G2 & G3 & G4 & G5 & G6).
  destruct (decide (f_inode f = ip)) as [<-|Hne].
  - destruct (Hip f i) as (E1 & E2 & E3); [done..|]. exists f, i'. simpl. rewrite lookup_insert_eq. split_and!; congruence.
  - exists f, i. simpl. by rewrite lookup_insert_ne.
Qed.

(** Another count of references for one open inode. *)
Lemma mem_ok_put s L (R R' N N' : Z -> nat) ip i i' :
  mem_ok s L R N -> inodes s !! ip = Some i -> inode_same i i' \/ (sector i' = sector i /\ data i' = data i /\ 2 <= sector i) ->
  (forall jp, jp <> ip -> R' jp = R jp /\ N' jp = N jp) ->
  open_cnt i' = Z.of_nat (R' ip) -> (0 < R' ip)%nat /\ Z.of_nat (R' ip) < 2 ^ 31 -> deny_write_cnt i' = Z.of_nat (N' ip) ->
  mem_ok (set_inodes (<[ip := i']> (inodes s)) s) L R' N'.
Proof.
  intros [H1 H2 H3 H4 H5] Hi Hs HR E1 E2 E3. assert (sector i' = sector i /\ data i' = data i) as [Es Ed] by (unfold inode_same in Hs; tauto).
  split; simpl; [|done| | |].
  - intros jp j Hj. destruct (decide (jp = ip)) as [->|Hne].
    + rewrite lookup_insert_eq in Hj. injection Hj as <-. destruct (H1 ip i Hi). split; try done; rewrite ?Es, ?Ed; try done.
      intros Hlt. destruct Hs as [(_ & -> & _)|(_ & _ & Hge)]; [by auto|lia].
    + rewrite lookup_insert_ne in Hj by done. destruct (H1 jp j Hj).
      destruct (HR jp Hne) as [G1 G2]. split; try done; by rewrite ?G1, ?G2.
  - intros jp. rewrite H3. destruct (decide (jp = ip)) as [->|Hne]; [by rewrite lookup_insert_eq, Hi|by rewrite lookup_insert_ne].
  - intros jp kp j k Hj Hk E. rewrite lookup_insert_Some in Hj, Hk.
    destruct Hj as [[<- <-]|[? Hj]], Hk as [[<- <-]|[? Hk]]; try done.
    + apply (H4 ip kp i k); congruence.
    + apply (H4 jp ip j i); congruence.
    + by apply (H4 jp kp j k).
  - intros jp Hn. apply lookup_insert_None in Hn as [Hn Hne]. destruct (HR jp) as [-> ->]; [done|by apply H5].
Qed.

Lemma inode_open_ok s bs L R N (x : nat) d :
  map_ok s bs L -> mem_ok s L R N -> L !! x = Some d -> Z.of_nat x < 2 ^ 32 -> (forall ip, Z.of_nat (R ip) + 1 < 2 ^ 31) ->
  wp (inode_open (Z.of_nat x)) (fun ip s' => 0 < ip /\ map_ok s' bs L /\ mem_ok s' L (bump R ip) N /\ rest_same s s' /\
    disk s' = disk s /\ free_map s' = free_map s /\
    (forall jp, jp <> ip -> inodes s' !! jp = inodes s !! jp) /\
    exists i', inodes s' !! ip = Some i' /\ sector i' = Z.of_nat x /\ data i' = d /\
      match inodes s !! ip with
      | Some i => inode_same i i'
      | None => removed i' = false /\ ip = fresh s /\ forall jp j, inodes s !! jp = Some j -> sector j <> Z.of_nat x
      end) s.
Proof.
  intros H Hm HL Hx HR. pose proof Hm as [H1 H2 H3 H4 H5]. unfold inode_open. do 2 wp_step.
  destruct (find_open_ok (inodes s) (open_inodes s) (Z.of_nat x)) as [(ip & i & -> & Hin & Hi & Hs)|[-> Hno]].
  { intros ip. apply H3. }
  - destruct (H1 ip i Hi) as [G1 G2 G3 G4 G5 G6 G7]. unfold inode_reopen. rewrite (proj2 (Z.eqb_neq _ _)) by lia.
    do 2 wp_step. eapply wp_eq; [by apply get_inode_ok|]. unfold put_inode. wp_step. simpl.
    set (i' := Inode (sector i) (s32 (open_cnt i + 1)) (removed i) (deny_write_cnt i) (data i)).
    assert (data i = d) as Ed by (rewrite Hs, Nat2Z.id in G3; congruence).
    split_and!; try done; try lia.
    + apply map_ok_put; [done|]. intros f j _ _ Hj. by replace j with i by congruence.
    + eapply (mem_ok_put s L R _ N N ip i); try done.
      * by left.
      * intros jp Hne. unfold bump. rewrite (proj2 (Z.eqb_neq _ _)) by done. simpl. lia.
      * simpl. unfold bump. rewrite Z.eqb_refl, swrap_small, G4 by (specialize (HR ip); lia). simpl. lia.
      * unfold bump. rewrite Z.eqb_refl. simpl. specialize (HR ip). lia.
    + intros jp Hne. simpl. by rewrite lookup_insert_ne.
    + exists i'. simpl. rewrite lookup_insert_eq, Hi. by split_and!.
  - wp_step. eapply wp_eq; [apply alloc_ok, H|]. pose proof (mp_fresh _ _ _ H) as Hf.
    rewrite (proj2 (Z.eqb_neq _ _)) by lia. do 3 wp_step. set (s0 := set_open _ _).
    pose proof (dk_stored _ _ (mp_disk _ _ _ H) x d HL) as Hst.
    assert (block_ok (fs_device s0)) as Hb by apply H.
    eapply wp_eq; [apply on_dev_ok, (block_read_ok _ _ (encode_inode d)); [done|rewrite aget_nat; apply Hst]|].
    unfold put_inode. do 3 wp_step. rewrite decode_encode by apply Hst.
    assert (inodes s !! fresh s = None) as Hnew.
    { apply eq_None_not_Some. intros [j Hj]. destruct (H1 _ _ Hj). lia. }
    assert (map_ok (set_device (Block (bname (fs_device s)) (btype (fs_device s)) (bsize (fs_device s)) (disk s)
      (u64 (read_cnt (fs_device s) + 1)) (write_cnt (fs_device s))) s0) bs L) as Hm0.
    { destruct H as [K1 K2 K3 K4 K5 K6 K7 K8]. split; try done; [|simpl; lia]. by destruct K1; split. }
    split_and!; try done; [| |split; try done; simpl; lia| |].
    + by apply map_ok_put; [|simpl; congruence].
    + split; simpl.
      * intros jp j Hj. rewrite lookup_insert_Some in Hj. destruct (H5 _ Hnew) as [R0 N0]. destruct Hj as [[<- <-]|[Hne Hj]].
        { split; simpl; rewrite ?Nat2Z.id; unfold bump; rewrite ?Z.eqb_refl, ?R0, ?N0; simpl; (done || lia). }
        { assert (bump R (fresh s) jp = R jp) as Eb by (unfold bump; rewrite (proj2 (Z.eqb_neq _ _)) by done; simpl; lia).
          destruct (H1 jp j Hj). split; rewrite ?Eb; try done; simpl; lia. }
      * apply NoDup_cons. split; [|done]. rewrite H3, Hnew. by intros [? ?].
      * intros jp. rewrite elem_of_cons, H3. destruct (decide (jp = fresh s)) as [->|Hne].
        { rewrite lookup_insert_eq. split; [eauto|by left]. }
        { rewrite lookup_insert_ne by done. split; [by intros [|]|by right]. }
      * intros jp kp j k Hj Hk E. rewrite lookup_insert_Some in Hj, Hk.
        destruct Hj as [[<- <-]|[? Hj]], Hk as [[<- <-]|[? Hk]]; try done; simpl in E.
        { exfalso. apply (Hno kp k); [apply H3; eauto|done|done]. }
        { exfalso. apply (Hno jp j); [apply H3; eauto|done|done]. }
        { by apply (H4 jp kp j k). }
      * intros jp [Hne Hn]%lookup_insert_None. unfold bump. rewrite (proj2 (Z.eqb_neq _ _)) by done.
        simpl. destruct (H5 jp); [done|]. lia.
    + intros jp Hne. simpl. by rewrite lookup_insert_ne.
    + eexists. simpl. rewrite lookup_insert_eq, Hnew. split_and!; try done.
      intros jp j Hj. apply (Hno jp j); [apply H3; eauto|done].
Qed.

(** ** Closing an inode *)
Lemma drop1_eq R ip : drop1 R ip ip = (R ip - 1)%nat.
Proof. unfold drop1. by rewrite Z.eqb_refl. Qed.

Lemma drop1_ne R ip jp : jp <> ip -> drop1 R ip jp = R jp.
Proof. intros H. unfold drop1. rewrite (proj2 (Z.eqb_neq _ _)) by done. simpl. lia. Qed.

(** The last reference goes, and perhaps the inode on disk with it. *)
Lemma mem_ok_close s s' L L' R N ip i :
  mem_ok s L R N -> inodes s !! ip = Some i -> R ip = 1%nat -> N ip = 0%nat ->
  inodes s' = delete ip (inodes s) -> open_inodes s' = filter (fun p => p <> ip) (open_inodes s) -> fresh s <= fresh s' ->
  L' = L \/ L' = delete (Z.to_nat (sector i)) L -> mem_ok s' L' (drop1 R ip) N.
Proof.
  intros [H1 H2 H3 H4 H5] Hi HR HN Ei Eo Ef HL. split; rewrite ?Ei, ?Eo.
  - intros jp j [Hne Hj]%lookup_delete_Some. destruct (H1 jp j Hj). split; try done; rewrite ?drop1_ne by done; try done; [lia|].
    destruct HL as [->| ->]; [done|]. rewrite lookup_delete_ne; [done|]. intros E. apply Hne, (H4 ip jp i j); try done.
    pose proof (io_sector _ _ _ _ _ _ (H1 ip i Hi)). lia.
  - by apply NoDup_filter.
  - intros jp. rewrite list_elem_of_filter, H3. destruct (decide (jp = ip)) as [->|Hne].
    + rewrite lookup_delete_eq. split; [tauto|by intros [? ?]].
    + rewrite lookup_delete_ne by done. tauto.
  - intros jp kp j k [_ Hj]%lookup_delete_Some [_ Hk]%lookup_delete_Some. by apply H4.
  - intros jp Hn. destruct (decide (jp = ip)) as [->|Hne]; [by rewrite drop1_eq, HR|].
    rewrite drop1_ne by done. rewrite lookup_delete_ne in Hn by done. by apply H5.
Qed.

Lemma map_ok_delete s bs L x : map_ok s bs L -> x <> 0%nat -> map_ok s bs (delete x L).
Proof.
  intros [H1 H2 H3 H4 H5 H6 H7 H8] Hx. split; try done.
  - by apply disk_ok_delete.
  - intros k (y & d & [_ Hy]%lookup_delete_Some & Hk). apply H5. by exists y, d.
  - intros Hf. destruct (H6 Hf) as (f & i & G). exists f, i. by rewrite lookup_delete_ne by done.
Qed.

Lemma not_owned_deleted s bs L x d k : map_ok s bs L -> L !! x = Some d -> owns x d k -> ~ owned (delete x L) k.
Proof.
  intros H Hx Hk (y & e & [Hne Hy]%lookup_delete_Some & Hy'). apply Hne.
  by apply (dk_apart _ _ (mp_disk _ _ _ H) x y d e k).
Qed.

Lemma run_1 x k : in_run (Z.of_nat x) 1 k <-> k = x.
Proof. unfold in_run. lia. Qed.

(** Releasing the sectors of an inode that goes. *)
Lemma release_inode_ok s bs L x d :
  map_ok s bs L -> is_Some (files s !! free_map_file s) -> L !! x = Some d -> x <> 0%nat ->
  wp (free_map_release (Z.of_nat x) 1;; free_map_release (start d) (bytes_to_sectors (ilength d))) (fun _ s' =>
    mem_same s s' /\ data_same (disk s) (disk s') (delete x L) (eq 0%nat) /\
    exists bs', map_ok s' bs' (delete x L) /\ synced s' bs' (delete x L)) s.
Proof.
  intros H Hf Hx Hne. pose proof (map_ok_delete s bs L x H Hne) as H1.
  pose proof (dk_stored _ _ (mp_disk _ _ _ H) x d Hx) as [S1 [S2 S3 _] S4 S5]. pose proof (mp_length _ _ _ H) as Hlen.
  assert (forall k, owns x d k -> bs !! k = Some true) as Hused by (intros k Hk; apply H; by exists x, d).
  assert (group bs 1 true (Z.of_nat x)) as G1.
  { pose proof (lookup_lt_Some _ _ _ S1). split; [unfold in_range, alen; lia|]. intros j Hj.
    replace j with (Z.of_nat x) by lia. rewrite aget_nat. apply Hused. by left. }
  destruct (bytes_to_sectors_ok (ilength d)) as [B1 B2]; [lia..|]. set (n := bytes_to_sectors (ilength d)) in *.
  assert (forall k, in_run (start d) n k -> in_data d k) as Hrun by (intros k; unfold in_run, in_data, first, nsec; fold n; lia).
  wp_step. eapply wp_mono; [apply (free_map_release_ok s bs (delete x L)); try done|].
  { intros k ->%run_1. eapply not_owned_deleted; [done..|by left]. }
  intros [] s1 (M1 & D1 & H2 & _). set (bs1 := fill bs (Z.of_nat x) 1 false) in *.
  eapply wp_mono; [apply (free_map_release_ok s1 bs1 (delete x L)); try done|].
  - by rewrite (ms_map_file _ _ M1), (ms_files _ _ M1).
  - split; [unfold in_range, bs1; rewrite alen_fill by apply G1; unfold alen, first, nsec in *; lia|].
    intros j Hj. unfold bs1. rewrite aget_fill by apply G1.
    assert (in_data d (Z.to_nat j)) as Hin by (apply Hrun; unfold in_run; lia).
    rewrite decide_False; [|intros E; apply S5; by replace x with (Z.to_nat j) by lia].
    replace j with (Z.of_nat (Z.to_nat j)) by lia. rewrite aget_nat. apply Hused. by right.
  - intros k Hk. eapply not_owned_deleted; [done..|right; by apply Hrun].
  - intros [] s2 (M2 & D2 & H3 & Sy). split_and!; [by eapply mem_same_trans| |by eexists].
    intros y e Hy Hy0. rewrite (D2 y e Hy Hy0). by apply (D1 y e Hy Hy0).
Qed.

Lemma inode_close_ok s bs L R N ip i :
  map_ok s bs L -> synced s bs L -> mem_ok s L R N -> is_Some (files s !! free_map_file s) -> inodes s !! ip = Some i ->
  (forall f, files s !! free_map_file s = Some f -> f_inode f = ip -> (1 < R ip)%nat) -> (R ip = 1%nat -> N ip = 0%nat) ->
  wp (inode_close ip) (fun _ s' => rest_same s s' /\ (forall jp, jp <> ip -> inodes s' !! jp = inodes s !! jp) /\
    exists bs' L', map_ok s' bs' L' /\ synced s' bs' L' /\ mem_ok s' L' (drop1 R ip) N /\
      data_same (disk s) (disk s') L' (eq 0%nat) /\
      if decide (R ip = 1%nat) then inodes s' !! ip = None /\ L' = (if removed i then delete (Z.to_nat (sector i)) L else L)
      else L' = L /\ disk s' = disk s /\ exists i', inodes s' !! ip = Some i' /\ inode_same i i') s.
Proof.
  intros H Sy Hm Hf Hi Hmf HN. pose proof (mo_inodes _ _ _ _ Hm ip i Hi) as [G1 G2 G3 G4 G5 G6 G7].
  unfold inode_close. rewrite (proj2 (Z.eqb_neq _ _)) by lia. wp_step. eapply wp_eq; [by apply get_inode_ok|].
  unfold put_inode. do 2 wp_step. rewrite swrap_small by lia. set (i1 := Inode _ _ _ _ _). set (s1 := set_inodes _ s).
  assert (map_ok s1 bs L) as H1.
  { apply map_ok_put; [done|]. intros f j _ _ Hj. by replace j with i by congruence. }
  destruct (decide (R ip = 1%nat)) as [HR|HR].
  2: { rewrite (proj2 (Z.eqb_neq _ _)) by lia. wp_step. split_and!; [by split|intros jp Hne; simpl; by rewrite lookup_insert_ne|].
       exists bs, L. split_and!; try done.
       - eapply (mem_ok_put s L R _ N N ip i); try done; [by left| |simpl; rewrite drop1_eq; lia|rewrite drop1_eq; lia].
         intros jp Hne. by rewrite drop1_ne.
       - simpl. exists i1. by rewrite lookup_insert_eq. }
  rewrite (proj2 (Z.eqb_eq _ _)) by lia. do 3 wp_step. set (s2 := set_open _ s1).
  assert (map_ok s2 bs L) as H2 by (destruct H1; by split).
  set (x := Z.to_nat (sector i)) in *. assert (sector i = Z.of_nat x) as Ex by lia.
  assert (wp (if removed i then free_map_release (sector i) 1;; free_map_release (start (data i)) (bytes_to_sectors (ilength (data i))) else mret ())
    (fun _ s3 => mem_same s2 s3 /\ exists bs' L', L' = (if removed i then delete x L else L) /\
      data_same (disk s2) (disk s3) L' (eq 0%nat) /\ map_ok s3 bs' L' /\ synced s3 bs' L') s2) as Hrel.
  { destruct (removed i) eqn:Er.
    - rewrite Ex. eapply wp_mono; [apply (release_inode_ok s2 bs L x); try done; intros E; by specialize (G7 ltac:(lia))|].
      intros [] s3 (A & B & bs' & C & D). split; [done|]. by exists bs', (delete x L).
    - wp_step. split; [apply mem_same_refl|]. by exists bs, L. }
  eapply wp_mono; [exact Hrel|]. intros [] s3 (M3 & bs' & L' & -> & D3 & H3 & Sy3).
  assert (inodes s3 = <[ip := i1]> (inodes s)) as Ei by (by rewrite (ms_inodes _ _ M3)).
  wp_step. split_and!.
  - destruct M3. by split.
  - intros jp Hne. simpl. rewrite Ei. by rewrite lookup_delete_ne, lookup_insert_ne.
  - eexists bs', _. split; [|split; [done|split; [|split; [exact D3|]]]].
    + destruct H3 as [K1 K2 K3 K4 K5 K6 K7 K8]. split; try done. intros Hf'. destruct (K6 Hf') as (f & j & E1 & E2 & E3).
      exists f, j. simpl in *. split; [done|]. rewrite lookup_delete_ne; [done|]. intros E.
      rewrite (ms_files _ _ M3), (ms_map_file _ _ M3) in E1. specialize (Hmf f E1 (eq_sym E)). lia.
    + eapply (mem_ok_close s _ L); try done; simpl.
      * by apply HN.
      * by rewrite Ei, delete_insert_eq.
      * by rewrite (ms_open _ _ M3).
      * apply (ms_fresh _ _ M3).
      * destruct (removed i); auto.
    + simpl. by rewrite lookup_delete_eq.
Qed.
