(* ===== verification/FsDir.v ===== *)
(** * Directories as finite maps

    The entries of a directory's file, the finite map from names to inodes that
    they stand for, and what reading and writing files and scanning entries do
    when the invariant of FsInv holds. *)

From S2P Require Import Prelude Bitmap Block Inode FreeMap Filesys FsDisk FsInv.

(** ** Reading and writing a file's data *)
Section access.
Context (s : fsys) (bs : list bool) (L : gmap nat inode_disk) (ip : Z) (i : inode) (x : nat).
Hypothesis H : map_ok s bs L.
Hypothesis Hi : inodes s !! ip = Some i.
Hypothesis HL : L !! x = Some (data i).

Lemma read_file_ok buffer size off :
  0 <= off -> 0 <= size <= alen buffer -> off + size < 2 ^ 31 ->
  wp (inode_read_at ip buffer size off) (fun r s' => map_ok s' bs L /\ mem_same s s' /\ disk s' = disk s /\
    free_map s' = free_map s /\ r.1 = avail i size off /\
    r.2 = splice buffer 0 (slice_of (fdata (disk s) (data i)) (Z.to_nat off) (Z.to_nat r.1))) s.
Proof.
  intros Hoff Hsz Hsum. pose proof (disk_data _ _ _ _ (mp_disk _ _ _ H) HL) as Hd.
  eapply wp_mono; [apply (inode_read_ok s ip i (first (data i)) (nsec (data i))); (done || apply H)|].
  intros r s' (F1 & F2 & F3 & F4 & F5 & F6 & F7). specialize (F6 (mp_alloc _ _ _ H)).
  pose proof (do_length _ _ _ _ Hd) as Hlen. split_and!; try done; [|by apply fs_frame_same|apply F1|].
  - destruct H as [K1 K2 K3 K4 K5 K6 K7 K8]. split; rewrite ?F3; try done; [by rewrite (fr_map _ _ F1)| |by apply (fr_outcomes _ _ F1)].
    rewrite (fr_map_file _ _ F1), (fr_files _ _ F1). intros Hf. destruct (K6 Hf) as (f & j & G). exists f, j.
    by rewrite (fr_map_file _ _ F1), (fr_files _ _ F1), (fr_inodes _ _ F1), (fr_map _ _ F1).
  - rewrite F7. unfold fdata, contents. destruct (decide (r.1 = 0)) as [->|Hr]; [done|]. unfold avail in F6.
    by rewrite slice_take by lia.
Qed.

Lemma write_file_ok buffer size off :
  x <> 0%nat -> 0 <= off -> 0 <= size <= alen buffer -> off + size < 2 ^ 31 ->
  wp (inode_write_at ip buffer size off) (fun r s' => map_ok s' bs L /\ mem_same s s' /\
    (synced s bs L -> synced s' bs L) /\ data_same (disk s) (disk s') L (eq x) /\
    r = (if deny_write_cnt i =? 0 then avail i size off else 0) /\
    fdata (disk s') (data i) = splice (fdata (disk s) (data i)) (Z.to_nat off) (take (Z.to_nat r) buffer)) s.
Proof.
  intros Hx Hoff Hsz Hsum. pose proof (disk_data _ _ _ _ (mp_disk _ _ _ H) HL) as Hd. unfold alen in Hsz.
  eapply wp_mono; [apply (inode_write_ok s ip i (first (data i)) (nsec (data i))); (done || apply H)|].
  intros r s' (F1 & F2 & F3 & F4). pose proof (wr_frame _ _ _ _ _ _ _ F1) as Fr.
  assert (r = (if deny_write_cnt i =? 0 then avail i size off else 0)) as Er.
  { destruct (Z.eqb_spec (deny_write_cnt i) 0); [by apply F4; [|apply H]|by apply F3]. }
  assert (changes (in_data (data i)) (disk s) (disk s')) as HC.
  { split; [apply F1|intros _; apply (wr_block _ _ _ _ _ _ _ F1)|]. intros k Hk.
    apply (wr_others _ _ _ _ _ _ _ F1). unfold in_data in Hk. lia. }
  destruct (disk_ok_write _ _ _ _ _ (mp_disk _ _ _ H) HL HC) as [HD' Hsame]. split_and!; try done.
  - destruct H as [K1 K2 K3 K4 K5 K6 K7 K8].
    split; [apply F1|done|by rewrite (fr_map _ _ Fr)|by rewrite (ch_length _ _ _ HC)|done| |by apply (fr_outcomes _ _ Fr)|apply F1].
    rewrite (fr_map_file _ _ Fr), (fr_files _ _ Fr). intros Hf. destruct (K6 Hf) as (f & j & G). exists f, j.
    by rewrite (fr_map_file _ _ Fr), (fr_files _ _ Fr), (fr_inodes _ _ Fr), (fr_map _ _ Fr).
  - by apply fs_frame_same.
  - intros (d & ws & G1 & G2 & G3). exists d, ws. split_and!; try done; [|apply G3..]. by rewrite (Hsame 0%nat).
  - intros y e Hy Hne. apply (Hsame y e Hy). congruence.
  - unfold fdata, contents. rewrite (wr_region _ _ _ _ _ _ _ F1).
    pose proof (do_length _ _ _ _ Hd) as Hlen. pose proof (do_room _ _ _ _ Hd) as Hroom. unfold avail in F2.
    destruct (decide (r = 0)) as [->|Hr]; [simpl; by rewrite !take_0, !splice_nil|].
    rewrite take_splice; [done| |]; rewrite ?length_take; [lia|].
    rewrite (region_length (disk s)); [lia|apply (mp_disk _ _ _ H)|apply Hd].
Qed.
End access.

(** ** Entries *)
Abbreviation ESZ := 20%nat.

(** The name and inode of an entry in use. *)
Definition entry (e : list Z) : option (list Z * nat) :=
  if de_in_use e then (fun n => (n, Z.to_nat (de_sector e))) <$> cstring (drop 4 e) else None.

Definition entry_ok (e : list Z) : Prop := length e = ESZ /\ (de_in_use e = true -> is_Some (cstring (drop 4 e)) /\ 0 <= de_sector e).

(** The directory that entries stand for. *)
Definition dmap (es : list (list Z)) : gmap (list Z) nat := list_to_map (omap entry es).

Record dir_ok (es : list (list Z)) : Prop := {
  dr_entries : Forall entry_ok es;
  dr_names : NoDup (omap entry es).*1
}.

Lemma same_name_ok name bs n :
  0 ∉ name -> cstring bs = Some n -> same_name name bs = Some (bool_decide (name = n)).
Proof.
  revert name n. induction bs as [|b bs IH]; intros name n Hz; [done|]. simpl.
  destruct (Z.eqb_spec b 0) as [->|Hb].
  - intros [= <-]. destruct name as [|c name]; simpl; [done|]. rewrite (proj2 (Z.eqb_neq _ _)); [done|].
    intros ->. apply Hz. by left.
  - destruct (cstring bs) as [n'|] eqn:En; [|done]. intros [= <-]. destruct name as [|c name]; simpl.
    + by rewrite (proj2 (Z.eqb_neq _ _)).
    + destruct (Z.eqb_spec c b) as [->|Hc].
      * rewrite (IH name n'); [|intros Hin; apply Hz; by right|done]. f_equal. apply bool_decide_ext. split; congruence.
      * f_equal. symmetry. apply bool_decide_eq_false_2. congruence.
Qed.

Lemma matches_ok name e :
  0 ∉ name -> entry_ok e -> exists b, matches name e = Some b /\ (b = true <-> exists sec, entry e = Some (name, sec)).
Proof.
  intros Hz [_ He]. unfold matches, entry. destruct (de_in_use e).
  - destruct He as [[n En] _]; [done|]. rewrite En, (same_name_ok _ _ n) by done. eexists. split; [done|].
    rewrite bool_decide_eq_true. simpl. split; [intros ->; eauto|]. by intros [? [= <-]].
  - exists false. split; [done|]. split; [done|]. by intros [? ?].
Qed.

Lemma cstring_app name rest : 0 ∉ name -> cstring (name ++ 0 :: rest) = Some name.
Proof.
  induction name as [|c name IH]; intros Hz; simpl; [done|]. rewrite (proj2 (Z.eqb_neq _ _)).
  - rewrite IH; [done|]. intros H. apply Hz. by right.
  - intros ->. apply Hz. by left.
Qed.

Lemma set_in_use_length v e : length e = ESZ -> length (set_in_use v e) = ESZ.
Proof. intros He. unfold set_in_use. rewrite splice_length; simpl; lia. Qed.

Lemma fill_entry_length e name sec : length e = ESZ -> length (fill_entry e name sec) = ESZ.
Proof.
  intros He. pose proof (set_in_use_length 1 e He) as H1. unfold fill_entry.
  assert (length (splice (set_in_use 1 e) 4 (take 14 name ++ [0])) = ESZ) as H2.
  { rewrite splice_length; [done|]. rewrite length_app, length_take, H1. cbn [length]. lia. }
  rewrite splice_length; [done|]. rewrite le4_length, H2. lia.
Qed.

Lemma fill_entry_ok e name sec :
  length e = ESZ -> 0 ∉ name -> (length name <= 14)%nat -> 0 <= sec < 2 ^ 32 ->
  entry_ok (fill_entry e name sec) /\ entry (fill_entry e name sec) = Some (name, Z.to_nat sec).
Proof.
  intros He Hz Hn Hs. unfold entry, entry_ok. rewrite fill_entry_length by done.
  assert (fill_entry e name sec = le4 sec ++ name ++ 0 :: drop (5 + length name) (set_in_use 1 e)) as E.
  { assert (length (set_in_use 1 e) = ESZ) as Hl by by apply set_in_use_length.
    unfold fill_entry. rewrite take_ge by lia. unfold splice at 1. rewrite take_0, le4_length, app_nil_l. f_equal.
    unfold splice. rewrite drop_app_ge by (rewrite length_take, Hl; lia). rewrite length_take, Hl, length_app.
    change (0 + 4 - 4 `min` 20)%nat with 0%nat. rewrite drop_0, <- app_assoc. cbn [length app]. do 3 f_equal. lia. }
  assert (de_in_use (fill_entry e name sec) = true) as ->.
  { unfold de_in_use. rewrite E. rewrite lookup_app_r by (rewrite le4_length; lia). rewrite le4_length, lookup_app_r by lia.
    replace (19 - 4 - length name)%nat with (S (14 - length name)) by lia. rewrite lookup_cons_ne_0 by lia.
    rewrite lookup_drop. replace (5 + length name + pred (S (14 - length name)))%nat with 19%nat by lia. unfold set_in_use.
    rewrite splice_lookup by (cbn [length]; lia). by rewrite decide_True by (cbn [length]; lia). }
  assert (cstring (drop 4 (fill_entry e name sec)) = Some name) as ->.
  { rewrite E, drop_app_length' by done. by apply cstring_app. }
  assert (de_sector (fill_entry e name sec) = sec) as ->.
  { unfold de_sector. rewrite E.
    change (slice_of (le4 sec ++ name ++ 0 :: drop (5 + length name) (set_in_use 1 e)) 0 4) with (le4 sec).
    by rewrite un4_le4. }
  split; [split; [done|]; intros _; split; [eauto|lia]|done].
Qed.

Lemma erased_entry e : length e = ESZ -> entry_ok (set_in_use 0 e) /\ entry (set_in_use 0 e) = None.
Proof.
  intros He. assert (de_in_use (set_in_use 0 e) = false) as E.
  { unfold de_in_use, set_in_use. rewrite splice_lookup by (simpl; lia). by rewrite decide_True by (simpl; lia). }
  unfold entry_ok, entry. rewrite E. split; [|done]. split; [by apply set_in_use_length|done].
Qed.

(** ** The directory after an update *)
Lemma omap_insert (es : list (list Z)) k e e' :
  es !! k = Some e ->
  exists l r, es = l ++ e :: r /\ omap entry es = omap entry l ++ omap entry [e] ++ omap entry r /\
    <[k := e']> es = l ++ e' :: r /\ omap entry (<[k := e']> es) = omap entry l ++ omap entry [e'] ++ omap entry r.
Proof.
  intros Hk. exists (take k es), (drop (S k) es). pose proof (lookup_lt_Some _ _ _ Hk) as Hlt.
  assert (es = take k es ++ e :: drop (S k) es) as E by (symmetry; by apply take_drop_middle).
  assert (<[k := e']> es = take k es ++ e' :: drop (S k) es) as E' by (by apply insert_take_drop).
  split_and!; try done; [rewrite E at 1|rewrite E' at 1]; rewrite omap_app; f_equal; apply (omap_app entry [_]).
Qed.

Lemma dmap_lookup es name sec :
  dir_ok es -> dmap es !! name = Some sec <-> exists k e, es !! k = Some e /\ entry e = Some (name, sec).
Proof.
  intros [_ Hn]. unfold dmap. rewrite <- elem_of_list_to_map by done. rewrite list_elem_of_omap. split.
  - intros (e & [k Hk]%list_elem_of_lookup & He). eauto.
  - intros (k & e & Hk & He). exists e. split; [|done]. by eapply list_elem_of_lookup_2.
Qed.

Lemma dmap_add es k e e' name sec :
  dir_ok es -> es !! k = Some e -> entry e = None -> entry_ok e' -> entry e' = Some (name, sec) -> dmap es !! name = None ->
  dir_ok (<[k := e']> es) /\ dmap (<[k := e']> es) = <[name := sec]> (dmap es).
Proof.
  intros [H1 H2] Hk He Hok' He' Hnew. destruct (omap_insert es k e e' Hk) as (l & r & _ & E & _ & E').
  assert (omap entry [e] = []) as E0 by (simpl; by rewrite He). assert (omap entry [e'] = [(name, sec)]) as E1 by (simpl; by rewrite He').
  rewrite E0 in E. rewrite E1 in E'. simpl in E, E'.
  assert (omap entry (<[k := e']> es) ≡ₚ (name, sec) :: omap entry es) as HP by (rewrite E, E'; symmetry; apply Permutation_middle).
  assert (NoDup ((name, sec) :: omap entry es).*1) as Hnd.
  { simpl. apply NoDup_cons. split; [|done]. by apply not_elem_of_list_to_map_2. }
  split.
  - split; [by apply Forall_insert|]. by rewrite HP.
  - unfold dmap. rewrite <- (list_to_map_proper _ _ Hnd (symmetry HP)). done.
Qed.

Lemma dmap_remove es k e e' name sec :
  dir_ok es -> es !! k = Some e -> entry e = Some (name, sec) -> entry_ok e' -> entry e' = None ->
  dir_ok (<[k := e']> es) /\ dmap (<[k := e']> es) = delete name (dmap es).
Proof.
  intros [H1 H2] Hk He Hok' He'. destruct (omap_insert es k e e' Hk) as (l & r & _ & E & _ & E').
  assert (omap entry [e] = [(name, sec)]) as E0 by (simpl; by rewrite He). assert (omap entry [e'] = []) as E1 by (simpl; by rewrite He').
  rewrite E0 in E. rewrite E1 in E'. simpl in E, E'.
  assert (omap entry es ≡ₚ (name, sec) :: omap entry (<[k := e']> es)) as HP by (rewrite E, E'; symmetry; apply Permutation_middle).
  rewrite HP in H2. pose proof H2 as Hnd. simpl in H2. apply NoDup_cons in H2 as [Hni H2]. split.
  - split; [by apply Forall_insert|done].
  - unfold dmap at 2. rewrite <- (list_to_map_proper _ _ Hnd (symmetry HP)). simpl. rewrite delete_insert_id; [done|].
    by apply not_elem_of_list_to_map_1.
Qed.

(** ** Entries in the data of a file *)
Lemma entry_slice es k e :
  Forall entry_ok es -> es !! k = Some e -> slice_of (concat es) (k * ESZ) ESZ = e.
Proof.
  intros Hes Hk. assert (Forall (fun e => length e = ESZ) es) as Hl by (eapply Forall_impl; [done|by intros ? []]).
  destruct (concat_split ESZ es k e Hl Hk) as (l & r & -> & Hlen & _).
  pose proof (Forall_lookup_1 _ _ _ _ Hl Hk) as He. simpl in He.
  pose proof (slice_of_mid l e r 0 ESZ ltac:(lia)) as E. rewrite Nat.add_0_r, Hlen in E. rewrite E.
  unfold slice_of. by rewrite drop_0, take_ge by lia.
Qed.

Lemma entry_splice es k e e' :
  Forall entry_ok es -> es !! k = Some e -> length e' = ESZ -> splice (concat es) (k * ESZ) e' = concat (<[k := e']> es).
Proof.
  intros Hes Hk He'. assert (Forall (fun e => length e = ESZ) es) as Hl by (eapply Forall_impl; [done|by intros ? []]).
  destruct (concat_split ESZ es k e Hl Hk) as (l & r & -> & Hlen & ->).
  pose proof (Forall_lookup_1 _ _ _ _ Hl Hk) as He. simpl in He.
  pose proof (splice_mid l e r 0 e' ltac:(lia)) as E. rewrite Nat.add_0_r, Hlen in E. rewrite E.
  unfold splice. rewrite take_0, Nat.add_0_l, He', drop_ge by lia. by rewrite app_nil_r.
Qed.

Lemma entries_length es : Forall entry_ok es -> length (concat es) = (length es * ESZ)%nat.
Proof. intros Hes. apply concat_length. eapply Forall_impl; [done|by intros ? []]. Qed.

(** What reading leaves alone. *)
Record read_same (s s' : fsys) : Prop := {
  rd_mem : mem_same s s';
  rd_disk : disk s' = disk s;
  rd_map : free_map s' = free_map s
}.

Lemma read_same_refl s : read_same s s.
Proof. split; [apply mem_same_refl|done..]. Qed.

Lemma read_same_trans s1 s2 s3 : read_same s1 s2 -> read_same s2 s3 -> read_same s1 s3.
Proof. intros [] []. split; [by eapply mem_same_trans|congruence..]. Qed.

Lemma synced_disk s s' bs L : disk s' = disk s -> synced s bs L -> synced s' bs L.
Proof. intros E (d & ws & H). exists d, ws. by rewrite E. Qed.

Section scan.
Context (s : fsys) (bs : list bool) (L : gmap nat inode_disk) (ip : Z) (i : inode) (x : nat) (es : list (list Z)).
Hypothesis H : map_ok s bs L.
Hypothesis Hi : inodes s !! ip = Some i.
Hypothesis HL : L !! x = Some (data i).
Hypothesis Hes : fdata (disk s) (data i) = concat es.
Hypothesis Hok : Forall entry_ok es.

Lemma entries_size : ilength (data i) = Z.of_nat (length es * ESZ) /\ Z.of_nat (length es * ESZ) + 511 < 2 ^ 31.
Proof.
  pose proof (fdata_length _ _ _ _ (mp_disk _ _ _ H) HL) as E. rewrite Hes, entries_length in E by done.
  pose proof (st_ok _ _ _ (dk_stored _ _ (mp_disk _ _ _ H) x _ HL)) as [_ ? _]. lia.
Qed.

Lemma scan_entries_ok found e0 :
  length e0 = ESZ -> Forall (fun e => is_Some (found e)) es ->
  wp (scan_entries ip found e0) (fun r s' => map_ok s' bs L /\ read_same s s' /\
    ((exists k e, es !! k = Some e /\ found e = Some true /\ r = (true, e, Z.of_nat (k * ESZ))) \/
     (Forall (fun e => found e = Some false) es /\ exists e, length e = ESZ /\ r = (false, e, Z.of_nat (length es * ESZ))))) s.
Proof.
  intros He0 Hfound. destruct entries_size as [Hlen Hmax]. unfold scan_entries, inode_length.
  do 2 wp_step. eapply wp_eq; [by apply get_inode_ok|]. wp_step.
  apply (wp_loop (fun n a s1 => exists k, (k <= length es)%nat /\ n = (length es - k)%nat /\ a.2 = Z.of_nat (k * ESZ) /\
    length a.1 = ESZ /\ map_ok s1 bs L /\ read_same s s1 /\ forall j e, (j < k)%nat -> es !! j = Some e -> found e = Some false))
    with (n := length es); [| |lia].
  2: { exists 0%nat. split_and!; try done; try lia. }
  intros n [e ofs] s1 (k & Hk & -> & Eofs & He & H1 & Hrd & Hall). simpl in Eofs, He. subst ofs. wp_step.
  assert (inodes s1 !! ip = Some i) as Hi1 by (by rewrite (ms_inodes _ _ (rd_mem _ _ Hrd))).
  eapply wp_mono; [apply (read_file_ok s1 bs L ip i x); try done; unfold alen, DIR_ENTRY_SIZE; lia|].
  intros [r b] s2 (H2 & M2 & D2 & F2 & Er & Eb). simpl in Er, Eb. cbn [fst snd].
  rewrite (rd_disk _ _ Hrd), Hes in Eb. assert (read_same s s2) as Hrd2 by (eapply read_same_trans; [done|by split]).
  destruct (decide (k = length es)) as [->|Hne].
  - assert (r = 0) as -> by (rewrite Er; unfold avail; lia). change (0 =? DIR_ENTRY_SIZE) with false. cbv iota. wp_step. split_and!; try done. right. split.
    + apply Forall_lookup. intros j e' Hj. apply (Hall j); [by eapply lookup_lt_Some|done].
    + exists b. split; [|done]. rewrite Eb. simpl. unfold slice_of. by rewrite take_0, splice_nil.
  - destruct (lookup_lt_is_Some_2 es k) as [e' He']; [lia|].
    assert (r = 20) as -> by (rewrite Er; unfold avail, DIR_ENTRY_SIZE; lia).
    assert (b = e') as ->.
    { rewrite Eb, Nat2Z.id. change (Z.to_nat 20) with ESZ. rewrite (entry_slice es k e') by done.
      pose proof (Forall_lookup_1 _ _ _ _ Hok He') as [He'' _].
      unfold splice. rewrite take_0, He'', drop_ge by lia. by rewrite app_nil_r. }
    destruct (Forall_lookup_1 _ _ _ _ Hfound He') as [c Hc]. change (20 =? DIR_ENTRY_SIZE) with true. cbv iota. wp_step.
    eapply wp_deref; [done|]. wp_step. destruct c.
    + split_and!; try done. left. exists k, e'. by split_and!.
    + exists (length es - S k)%nat. split; [lia|]. exists (S k). simpl. split_and!; try done; try lia.
      * unfold DIR_ENTRY_SIZE. lia.
      * by apply (Forall_lookup_1 _ _ _ _ Hok He').
      * intros j e1 Hj Hj'. destruct (decide (j = k)) as [->|]; [congruence|]. apply (Hall j); [lia|done].
Qed.
End scan.
