(* ===== verification/FsCore.v ===== *)
(** * The invariant of the file system

    The directory, the inodes on disk and the inodes in memory fit together:
    every name stands for an inode of its own, every inode on disk has a name
    or is open, and an open inode is marked removed when it has no name.  The
    operations on inodes and directories keep the invariant. *)

From S2P Require Import Prelude Bitmap Block Inode FreeMap Filesys FsDisk FsInv FsDir.

Definition named (es : list (list Z)) (x : nat) : Prop := exists n, dmap es !! n = Some x.

Record core (s : fsys) (bs : list bool) (L : gmap nat inode_disk) (es : list (list Z)) (R N : Z -> nat) : Prop := {
  co_map : map_ok s bs L;
  co_sync : synced s bs L;
  co_mem : mem_ok s L R N;
  co_file : free_map_file s <> 0 /\ is_Some (files s !! free_map_file s);
  co_root : exists d, L !! 1%nat = Some d /\ fdata (disk s) d = concat es;
  co_dir : dir_ok es;
  co_names : forall n x, dmap es !! n = Some x -> (2 <= x)%nat /\ is_Some (L !! x);
  co_inj : forall n m x, dmap es !! n = Some x -> dmap es !! m = Some x -> n = m;
  co_live : forall x d, L !! x = Some d -> (2 <= x)%nat ->
    named es x \/ (exists ip i, inodes s !! ip = Some i /\ sector i = Z.of_nat x);
  co_removed : forall ip i, inodes s !! ip = Some i -> 2 <= sector i ->
    (removed i = false <-> named es (Z.to_nat (sector i)));
  co_quiet : forall ip i, inodes s !! ip = Some i -> sector i < 2 -> N ip = 0%nat
}.

Lemma mem_ok_same s s' L R N : mem_same s s' -> mem_ok s L R N -> mem_ok s' L R N.
Proof.
  intros [E1 E2 _ _ _ E6] [H1 H2 H3 H4 H5]. split; rewrite ?E1, ?E2; try done.
  intros ip i Hi. destruct (H1 ip i Hi). split; try done. lia.
Qed.

Lemma mem_ok_ext s L (R R' N N' : Z -> nat) :
  (forall ip, R ip = R' ip) -> (forall ip, N ip = N' ip) -> mem_ok s L R N -> mem_ok s L R' N'.
Proof.
  intros ER EN [H1 H2 H3 H4 H5]. split; try done.
  - intros ip i Hi. destruct (H1 ip i Hi). split; try done; by rewrite <- ?ER, <- ?EN.
  - intros ip Hn. rewrite <- ER, <- EN. by apply H5.
Qed.

Lemma core_ext s bs L es (R R' N N' : Z -> nat) :
  (forall ip, R ip = R' ip) -> (forall ip, N ip = N' ip) -> core s bs L es R N -> core s bs L es R' N'.
Proof.
  intros ER EN []. split; try done; [by eapply mem_ok_ext|]. intros ip i Hi Hs. rewrite <- EN. by eapply co_quiet0.
Qed.

(** Changes of the free map. *)
Lemma core_data s s' bs bs' L es R N :
  core s bs L es R N -> mem_same s s' -> map_ok s' bs' L -> synced s' bs' L ->
  data_same (disk s) (disk s') L (eq 0%nat) -> core s' bs' L es R N.
Proof.
  intros [] Hm Hmap Hs Hd. pose proof (ms_inodes _ _ Hm) as Ei. split; rewrite ?Ei; try done.
  - by eapply mem_ok_same.
  - by rewrite (ms_map_file _ _ Hm), (ms_files _ _ Hm).
  - destruct co_root0 as (d & H1 & H2). exists d. split; [done|]. rewrite <- H2. by apply (Hd 1%nat).
Qed.

Lemma core_open s bs L es R N (x : nat) d :
  core s bs L es R N -> L !! x = Some d -> (x < 2)%nat \/ named es x ->
  (forall ip, Z.of_nat (R ip) + 1 < 2 ^ 31) ->
  wp (inode_open (Z.of_nat x)) (fun ip s' => 0 < ip /\ core s' bs L es (bump R ip) N /\ rest_same s s' /\
    disk s' = disk s /\ free_map s' = free_map s /\
    (forall jp, jp <> ip -> inodes s' !! jp = inodes s !! jp) /\
    exists i', inodes s' !! ip = Some i' /\ sector i' = Z.of_nat x /\ data i' = d /\
      match inodes s !! ip with
      | Some i => inode_same i i'
      | None => removed i' = false /\ ip = fresh s /\ forall jp j, inodes s !! jp = Some j -> sector j <> Z.of_nat x
      end) s.
Proof.
  intros H Hx Hlink HR. pose proof H as []. pose proof (st_header _ _ _ (dk_stored _ _ (mp_disk _ _ _ co_map0) x d Hx)) as Hd.
  apply lookup_lt_Some in Hd. pose proof (dk_size _ _ (mp_disk _ _ _ co_map0)).
  eapply wp_mono; [apply (inode_open_ok s bs L R N x d); (done || lia)|].
  intros ip s' (A1 & A2 & A3 & A4 & A5 & A6 & A7 & i' & A8 & A9 & A10 & A11).
  split_and!; try done; [|by exists i']. split; try done.
  - by eapply synced_disk.
  - by rewrite (rs_map_file _ _ A4), (rs_files _ _ A4).
  - by rewrite A5.
  - intros y e Hy H2. destruct (co_live0 y e Hy H2) as [?|(jp & j & Hj & Es)]; [by left|right].
    destruct (decide (jp = ip)) as [->|Hne].
    + exists ip, i'. split; [done|]. rewrite Hj in A11. destruct A11 as (-> & _). done.
    + exists jp, j. by rewrite A7.
  - intros jp j Hj H2. destruct (decide (jp = ip)) as [->|Hne]; [|rewrite A7 in Hj by done; by apply co_removed0 with jp].
    assert (j = i') as -> by congruence. destruct (inodes s !! ip) as [i|] eqn:Ei.
    + destruct A11 as (E1 & E2 & _). rewrite E1, E2. apply (co_removed0 ip); [done|lia].
    + destruct A11 as [-> _]. rewrite A9, Nat2Z.id. destruct Hlink as [?|Hn]; [lia|done].
  - intros jp j Hj H2. destruct (decide (jp = ip)) as [->|Hne]; [|rewrite A7 in Hj by done; by eapply co_quiet0].
    destruct (inodes s !! ip) as [i|] eqn:Ei.
    + assert (j = i') as -> by congruence. destruct A11 as (E1 & _). apply (co_quiet0 ip i); [done|lia].
    + by apply (mo_zero _ _ _ _ co_mem0).
Qed.

Lemma core_close s bs L es R N ip i :
  core s bs L es R N -> inodes s !! ip = Some i ->
  (forall f, files s !! free_map_file s = Some f -> f_inode f = ip -> (1 < R ip)%nat) -> (R ip = 1%nat -> N ip = 0%nat) ->
  wp (inode_close ip) (fun _ s' => rest_same s s' /\ (forall jp, jp <> ip -> inodes s' !! jp = inodes s !! jp) /\
    exists bs' L', core s' bs' L' es (drop1 R ip) N /\ data_same (disk s) (disk s') L' (eq 0%nat) /\
      if decide (R ip = 1%nat) then inodes s' !! ip = None /\ L' = (if removed i then delete (Z.to_nat (sector i)) L else L)
      else L' = L /\ exists i', inodes s' !! ip = Some i' /\ inode_same i i') s.
Proof.
  intros H Hi Hmf HN. pose proof H as []. pose proof (mo_inodes _ _ _ _ co_mem0 ip i Hi) as Hio.
  eapply wp_mono; [apply (inode_close_ok s bs L R N ip i); try done; apply co_file0|].
  intros [] s' (A1 & A2 & bs' & L' & A3 & A4 & A5 & A6 & A7). split_and!; try done. exists bs', L'.
  split; [|split; [done|]]; [|destruct (decide (R ip = 1%nat)); tauto].
  pose proof (io_system _ _ _ _ _ _ Hio) as Hsys. pose proof (io_sector _ _ _ _ _ _ Hio) as Hsec.
  assert (forall y, L' !! y = L !! y \/ (L' !! y = None /\ removed i = true /\ y = Z.to_nat (sector i))) as HL'.
  { intros y. case_decide; [|left; destruct A7 as [-> _]; done]. destruct A7 as [_ ->]. destruct (removed i); [|by left].
    destruct (decide (y = Z.to_nat (sector i))) as [->|]; [right; by rewrite lookup_delete_eq|left; by rewrite lookup_delete_ne]. }
  assert (removed i = true -> 2 <= sector i) as Hrem.
  { intros Er. destruct (Z.lt_ge_cases (sector i) 2) as [Hl|Hl]; [rewrite (Hsys Hl) in Er; done|done]. }
  split; try done.
  - by rewrite (rs_map_file _ _ A1), (rs_files _ _ A1).
  - destruct co_root0 as (d & H1 & H2). assert (L' !! 1%nat = Some d) as HL1.
    { destruct (HL' 1%nat) as [->|(_ & Er & E)]; [done|]. specialize (Hrem Er). lia. }
    exists d. split; [done|]. rewrite <- H2. by apply (A6 1%nat).
  - intros n y Hy. destruct (co_names0 n y Hy) as [K1 K2]. split; [done|]. destruct (HL' y) as [->|(_ & Er & ->)]; [done|].
    exfalso. assert (removed i = false); [|congruence]. apply (co_removed0 ip i Hi (Hrem Er)). by exists n.
  - intros y e Hy H2. destruct (HL' y) as [E|(E & _)]; [|congruence]. rewrite E in Hy.
    destruct (co_live0 y e Hy H2) as [?|(jp & j & Hj & Es)]; [by left|]. destruct (decide (jp = ip)) as [->|Hne].
    + assert (j = i) as -> by congruence. case_decide as HR.
      * left. destruct (removed i) eqn:Er.
        { exfalso. destruct A7 as [_ ->]. assert (y = Z.to_nat (sector i)) as -> by lia. rewrite lookup_delete_eq in E. congruence. }
        { replace y with (Z.to_nat (sector i)) by lia. apply (co_removed0 ip i Hi); [lia|done]. }
      * right. destruct A7 as (_ & _ & i' & Hi' & Es' & _). exists ip, i'. by rewrite Es'.
    + right. exists jp, j. by rewrite A2.
  - intros jp j Hj H2. destruct (decide (jp = ip)) as [->|Hne]; [|rewrite A2 in Hj by done; by apply co_removed0 with jp].
    case_decide; destruct A7 as [A7 A8]; [congruence|]. destruct A8 as (_ & i' & Hi' & Es & Er & _).
    assert (j = i') as -> by congruence. rewrite Es, Er. apply (co_removed0 ip); [done|lia].
  - intros jp j Hj H2. destruct (decide (jp = ip)) as [->|Hne]; [|rewrite A2 in Hj by done; by eapply co_quiet0].
    case_decide; destruct A7 as [A7 A8]; [congruence|]. destruct A8 as (_ & i' & Hi' & Es & Er & _).
    assert (j = i') as -> by congruence. apply (co_quiet0 ip i); [done|lia].
Qed.

(** ** Operations on the open root directory *)
(** [dp] is the root directory, opened. *)
Record at_root (s : fsys) (L : gmap nat inode_disk) (es : list (list Z)) (dp : Z) (ip : Z) (i : inode) : Prop := {
  ar_dp : dp <> 0;
  ar_dir : exists pos, dirs s !! dp = Some (Dir ip pos);
  ar_inode : inodes s !! ip = Some i;
  ar_deny : deny_write_cnt i = 0;
  ar_stored : L !! 1%nat = Some (data i);
  ar_data : fdata (disk s) (data i) = concat es;
  ar_ok : dir_ok es
}.

Lemma at_root_read s s' L es dp ip i : at_root s L es dp ip i -> read_same s s' -> at_root s' L es dp ip i.
Proof.
  intros [] [Hm Hd _]. split; try done; [by rewrite (ms_dirs _ _ Hm)|by rewrite (ms_inodes _ _ Hm)|by rewrite Hd].
Qed.

Lemma get_dir_ok s dp d : dirs s !! dp = Some d -> get_dir dp s = Ok (d, s).
Proof. intros H. unfold get_dir, mbind, M_bind, get, deref. by rewrite H. Qed.

Definition valid_name (name : list Z) : Prop := 0 ∉ name /\ (1 <= length name <= 14)%nat.

Section root.
Context (s : fsys) (bs : list bool) (L : gmap nat inode_disk) (es : list (list Z)) (dp ip : Z) (i : inode).
Hypothesis H : map_ok s bs L.
Hypothesis Hroot : at_root s L es dp ip i.

Lemma dir_lookup_entry_ok name e0 :
  0 ∉ name -> length e0 = ESZ ->
  wp (lookup dp name e0) (fun r s' => map_ok s' bs L /\ read_same s s' /\
    match r with
    | Some (e, ofs) => exists k x, es !! k = Some e /\ entry e = Some (name, x) /\ dmap es !! name = Some x /\ ofs = Z.of_nat (k * ESZ)
    | None => dmap es !! name = None
    end) s.
Proof.
  intros Hz He0. destruct Hroot as [R1 [pos R2] R3 R4 R5 R6 R7]. unfold lookup. wp_step.
  apply wp_assert; [by rewrite (proj2 (Z.eqb_neq _ _))|]. wp_step. eapply wp_eq; [by apply get_dir_ok|]. wp_step. simpl.
  eapply wp_mono; [apply (scan_entries_ok s bs L ip i 1 es); try done; [apply R7|]|].
  { eapply Forall_impl; [apply R7|]. intros e He. destruct (matches_ok name e Hz He) as (b & -> & _). eauto. }
  intros r s' (A1 & A2 & A3). wp_step. split_and!; try done. destruct A3 as [(k & e & Hk & Hm & ->)|[Hall (e & He & ->)]]; simpl.
  - pose proof (Forall_lookup_1 _ _ _ _ (dr_entries _ R7) Hk) as Hek.
    destruct (matches_ok name e Hz Hek) as (b & Hb & Hiff). assert (b = true) as -> by congruence.
    destruct (proj1 Hiff eq_refl) as [x Hx]. exists k, x. split_and!; try done. apply dmap_lookup; eauto.
  - apply eq_None_not_Some. intros [x Hx]. apply dmap_lookup in Hx as (k & e' & Hk & He'); [|done].
    pose proof (Forall_lookup_1 _ _ _ _ (dr_entries _ R7) Hk) as Hek.
    destruct (matches_ok name e' Hz Hek) as (b & Hb & Hiff). rewrite (Forall_lookup_1 _ _ _ _ Hall Hk) in Hb.
    injection Hb as <-. by discriminate (proj2 Hiff (ex_intro _ x He')).
Qed.

(** Writing over an entry. *)
Lemma write_entry_ok k e e' :
  es !! k = Some e -> entry_ok e' ->
  wp (inode_write_at ip e' DIR_ENTRY_SIZE (Z.of_nat (k * ESZ))) (fun r s' => r = DIR_ENTRY_SIZE /\ map_ok s' bs L /\
    mem_same s s' /\ (synced s bs L -> synced s' bs L) /\ data_same (disk s) (disk s') L (eq 1%nat) /\
    fdata (disk s') (data i) = concat (<[k := e']> es)) s.
Proof.
  intros Hk [He' _]. destruct Hroot as [R1 [pos R2] R3 R4 R5 R6 R7].
  destruct (entries_size s bs L i 1 es H R5 R6 (dr_entries _ R7)) as [Hlen Hmax]. pose proof (lookup_lt_Some _ _ _ Hk) as Hkl.
  eapply wp_mono; [apply (write_file_ok s bs L ip i 1); try done; unfold alen, DIR_ENTRY_SIZE; lia|].
  intros r s' (A1 & A2 & A3 & A4 & A5 & A6). rewrite R4 in A5. simpl in A5. unfold avail, DIR_ENTRY_SIZE in A5.
  assert (r = 20) as -> by lia. split_and!; try done. rewrite A6, R6, Nat2Z.id, take_ge by (rewrite He'; done).
  by apply (entry_splice es k e); [apply R7|..].
Qed.

End root.

Section root_update.
Context (s : fsys) (bs : list bool) (L : gmap nat inode_disk) (es : list (list Z)) (dp ip : Z) (i : inode).
Hypothesis H : map_ok s bs L.
Hypothesis Hroot : at_root s L es dp ip i.

Lemma dir_add_ok name (x : nat) e0 :
  0 ∉ name -> length e0 = ESZ -> Z.of_nat x < 2 ^ 32 ->
  wp (dir_add dp name (Z.of_nat x) e0) (fun r s' => map_ok s' bs L /\ mem_same s s' /\ (synced s bs L -> synced s' bs L) /\
    data_same (disk s) (disk s') L (eq 1%nat) /\
    exists es', fdata (disk s') (data i) = concat es' /\ dir_ok es' /\
      if r : bool then valid_name name /\ dmap es !! name = None /\ dmap es' = <[name := x]> (dmap es)
      else es' = es /\ (~ valid_name name \/ is_Some (dmap es !! name) \/ Forall (fun e => de_in_use e = true) es)) s.
Proof.
  intros Hz He0 Hx. destruct Hroot as [R1 [pos R2] R3 R4 R5 R6 R7]. unfold dir_add. wp_step.
  apply wp_assert; [by rewrite (proj2 (Z.eqb_neq _ _))|]. unfold NAME_MAX.
  destruct ((alen name =? 0) || (14 <? alen name)) eqn:Ev.
  { wp_step. split_and!; try done. exists es. split_and!; try done. left. intros [_ Hv]. unfold alen in Ev. lia. }
  assert (valid_name name) as Hv by (split; [done|]; unfold alen in Ev; lia). wp_step.
  eapply wp_mono; [by apply (dir_lookup_entry_ok s bs L es dp ip i)|]. intros [[e ofs]|] s1 (A1 & A2 & A3).
  { wp_step. destruct A3 as (k & y & _ & _ & Hy & _). destruct A2 as [M2 D2 _]. split_and!; try done.
    - by apply synced_disk.
    - by intros z d _ _; rewrite D2.
    - exists es. rewrite D2. split_and!; eauto. }
  pose proof (at_root_read _ _ _ _ _ _ _ Hroot A2) as [S1 [pos1 S2] S3 S4 S5 S6 S7]. wp_step.
  eapply wp_eq; [by apply get_dir_ok|]. wp_step. simpl.
  eapply wp_mono; [apply (scan_entries_ok s1 bs L ip i 1 es); try done; [apply S7|apply Forall_true; eauto]|].
  intros r s2 (B1 & B2 & B3). wp_step. pose proof (read_same_trans _ _ _ A2 B2) as Hrd.
  pose proof (at_root_read _ _ _ _ _ _ _ Hroot Hrd) as Hroot2. destruct Hrd as [M2 D2 _].
  destruct B3 as [(k & e & Hk & He & ->)|[Hall (e & He & ->)]]; simpl.
  - pose proof (Forall_lookup_1 _ _ _ _ (dr_entries _ R7) Hk) as [Hel _].
    destruct (fill_entry_ok e name (Z.of_nat x)) as [Hok' He']; try done; [apply Hv|lia|].
    eapply wp_mono; [by apply (write_entry_ok s2 bs L es dp ip i B1 Hroot2 k e)|].
    intros r s3 (-> & C1 & C2 & C3 & C4 & C5). wp_step. rewrite Nat2Z.id in He'. injection He as He. apply negb_true_iff in He.
    destruct (dmap_add es k e (fill_entry e name (Z.of_nat x)) name x) as [E1 E2]; try done.
    { unfold entry. by rewrite He. }
    split_and!; try done; [by eapply mem_same_trans|intros Hs; by apply C3, (synced_disk s)| |].
    + intros y d Hy Hne. rewrite (C4 y d Hy Hne). by rewrite D2.
    + exists (<[k := fill_entry e name (Z.of_nat x)]> es). by split_and!.
  - destruct (entries_size s bs L i 1 es H R5 R6 (dr_entries _ R7)) as [Hlen Hmax].
    destruct Hroot2 as [T1 _ T3 T4 T5 T6 _].
    eapply wp_mono; [apply (write_file_ok s2 bs L ip i 1); try done; [lia| |unfold DIR_ENTRY_SIZE; lia]|].
    { unfold alen. rewrite fill_entry_length by done. unfold DIR_ENTRY_SIZE. lia. }
    intros r s3 (C1 & C2 & C3 & C4 & C5 & C6). wp_step. rewrite T4 in C5. simpl in C5. unfold avail in C5.
    assert (r = 0) as -> by lia. change (0 =? DIR_ENTRY_SIZE) with false. cbv iota.
    split_and!; try done; [by eapply mem_same_trans|intros Hs; by apply C3, (synced_disk s)| |].
    + intros y d Hy Hne. rewrite (C4 y d Hy Hne). by rewrite D2.
    + exists es. split_and!; try done; [by rewrite C6, T6, take_0, splice_nil|]. right. right. eapply Forall_impl; [exact Hall|].
      intros e' [= E]. by apply negb_false_iff in E.
Qed.
End root_update.
