(* ===== verification/FsFiles.v ===== *)
(** * Open files and directories

    The reference counts of the inodes in memory are the numbers of open files
    and directories that refer to them, and the counts of denied writes are
    those of the files that deny them.  Opening and closing keep this. *)

From S2P Require Import Prelude Bitmap Block Inode FreeMap Filesys FsDisk FsInv FsDir FsCore.

Definition refs (s : fsys) (ip : Z) : nat :=
  (mcount (fun f => f_inode f =? ip)%Z (files s) + mcount (fun d => d_inode d =? ip)%Z (dirs s))%nat.
Definition denies (s : fsys) (ip : Z) : nat := mcount (fun f => f_deny_write f && (f_inode f =? ip))%Z (files s).

(** Inodes in memory stay what they are as long as they are there, and their
    addresses are not used again. *)
Record evolves (s s' : fsys) : Prop := {
  ev_map_file : free_map_file s' = free_map_file s;
  ev_fresh : fresh s <= fresh s';
  ev_inodes : forall jp, jp < fresh s -> inodes s' !! jp = None \/
    exists i i', inodes s !! jp = Some i /\ inodes s' !! jp = Some i' /\ sector i' = sector i
}.

Lemma evolves_refl s : evolves s s.
Proof. split; try done. intros jp _. destruct (inodes s !! jp); eauto 10. Qed.

Lemma evolves_trans s1 s2 s3 : evolves s1 s2 -> evolves s2 s3 -> evolves s1 s3.
Proof.
  intros [A1 A2 A3] [B1 B2 B3]. split; [congruence|lia|]. intros jp Hjp. destruct (B3 jp) as [?|(j & k & E1 & E2 & E3)]; [lia|by left|].
  destruct (A3 jp Hjp) as [?|(i & j' & F1 & F2 & F3)]; [congruence|]. right. exists i, k. split_and!; congruence.
Qed.

Lemma mem_same_evolves s s' : mem_same s s' -> evolves s s'.
Proof. intros [E _ _ _ ? ?]. split; [done|done|]. intros jp _. rewrite E. destruct (inodes s !! jp); eauto 10. Qed.

(** The bound on the number of open objects that keeps the counts from
    overflowing. *)
Definition few (s : fsys) : Prop := Z.of_nat (size (files s)) + Z.of_nat (size (dirs s)) + 4 < 2 ^ 31.

Lemma mcount_le {A} (P : A -> bool) (m : gmap Z A) : (mcount P m <= size m)%nat.
Proof. unfold mcount. apply map_size_filter. Qed.

Lemma mcount_empty {A} (P : A -> bool) : mcount P (∅ : gmap Z A) = 0%nat.
Proof. unfold mcount. by rewrite map_filter_empty, map_size_empty. Qed.

Lemma refs_le s ip : Z.of_nat (refs s ip) <= Z.of_nat (size (files s)) + Z.of_nat (size (dirs s)).
Proof.
  unfold refs. pose proof (mcount_le (fun f => f_inode f =? ip) (files s)).
  pose proof (mcount_le (fun d => d_inode d =? ip) (dirs s)). lia.
Qed.

Lemma bump_eq R ip : bump R ip ip = S (R ip).
Proof. unfold bump. rewrite Z.eqb_refl. simpl. lia. Qed.

Lemma bump_ne R ip jp : jp <> ip -> bump R ip jp = R jp.
Proof. intros H. unfold bump. rewrite (proj2 (Z.eqb_neq _ _)) by done. simpl. lia. Qed.

(** ** The invariant does not look at the directories, and at files only for
    the free map's *)
Lemma core_set_dirs s m bs L es R N : core s bs L es R N -> core (set_dirs m s) bs L es R N.
Proof. intros [K1 K2 K3 K4 K5 K6 K7 K8 K9 K10 K11]. split; try done; [destruct K1|destruct K3]; by split. Qed.

Lemma core_set_files s m bs L es R N :
  core s bs L es R N -> (forall f, files s !! free_map_file s = Some f -> exists f', m !! free_map_file s = Some f' /\ f_inode f' = f_inode f) ->
  core (set_files m s) bs L es R N.
Proof.
  intros [[M1 M2 M3 M4 M5 M6 M7 M8] K2 K3 K4 K5 K6 K7 K8 K9 K10 K11] Hm.
  split; try done; [split; try done|destruct K3; by split|].
  2: { split; [apply K4|]. destruct K4 as [_ [f Hf]]. destruct (Hm f Hf) as (f' & E & _). by exists f'. }
  intros _. destruct (M6 (proj2 K4)) as (f & i & G1 & G2 & G3). destruct (Hm f G1) as (f' & E1 & E2).
  exists f', i. split; [done|]. by rewrite E2.
Qed.

Lemma core_alloc s bs L es R N : core s bs L es R N -> core (set_alloc (fresh s + 1) [] s) bs L es R N.
Proof.
  intros [K1 K2 [M1 M2 M3 M4 M5] K4 K5 K6 K7 K8 K9 K10 K11]. split; try done; [by apply map_ok_alloc|]. split; try done.
  intros ip i Hi. destruct (M1 ip i Hi). split; try done. simpl. lia.
Qed.

Lemma file_has_inode s bs L es R N fp f :
  core s bs L es R N -> (forall ip, (refs s ip <= R ip)%nat) -> files s !! fp = Some f -> is_Some (inodes s !! f_inode f).
Proof.
  intros H HR Hf. destruct (inodes s !! f_inode f) eqn:E; [eauto|]. exfalso.
  destruct (mo_zero _ _ _ _ (co_mem _ _ _ _ _ _ H) _ E) as [E0 _]. specialize (HR (f_inode f)). unfold refs in HR.
  pose proof (mcount_delete (fun g => f_inode g =? f_inode f) (files s) fp f Hf) as Ec. cbv beta in Ec. rewrite Z.eqb_refl in Ec. simpl in Ec. lia.
Qed.

(** ** Opening and closing the root directory *)
Lemma root_open_ok s bs L es N :
  core s bs L es (refs s) N -> few s -> dirs s = ∅ ->
  wp dir_open_root (fun dp s' => exists ip i, at_root s' L es dp ip i /\ sector i = 1 /\ core s' bs L es (refs s') N /\
    dirs s' = {[ dp := Dir ip 0 ]} /\ files s' = files s /\ disk s' = disk s /\ free_map s' = free_map s /\ evolves s s') s.
Proof.
  intros H Hfew Hd. pose proof (co_root _ _ _ _ _ _ H) as (d & HL & Hdata). unfold few in Hfew.
  unfold dir_open_root, ROOT_DIR_SECTOR. wp_step. change 1 with (Z.of_nat 1).
  eapply wp_mono; [apply (core_open s bs L es (refs s) N 1 d H HL); [left; lia|intros ip; pose proof (refs_le s ip); lia]|].
  intros ip s1 (A1 & A2 & A3 & A4 & A5 & A6 & i & A7 & A8 & A9 & A10). unfold dir_open. wp_step.
  eapply wp_eq; [apply alloc_ok, (co_map _ _ _ _ _ _ A2)|]. pose proof (mp_fresh _ _ _ (co_map _ _ _ _ _ _ A2)) as Hfr.
  rewrite !(proj2 (Z.eqb_neq _ _)) by lia. simpl. unfold put_dir. do 3 wp_step. simpl.
  set (s2 := set_dirs _ _). assert (dirs s2 = {[ fresh s1 := Dir ip 0 ]}) as Ed by (simpl; by rewrite (rs_dirs _ _ A3), Hd).
  assert (core s2 bs L es (bump (refs s) ip) N) as H2 by (by apply core_set_dirs, core_alloc).
  pose proof (mo_inodes _ _ _ _ (co_mem _ _ _ _ _ _ A2) ip i A7) as Hio.
  exists ip, i. split_and!; try done.
  - split; try done; [lia|exists 0; by rewrite Ed, lookup_singleton_eq| |by rewrite A9|simpl; by rewrite A4, A9|apply H].
    rewrite (io_deny _ _ _ _ _ _ Hio). rewrite (co_quiet _ _ _ _ _ _ A2 ip i); [done|done|lia].
  - eapply core_ext; [| |exact H2]; [|done]. intros jp. unfold refs, bump. rewrite Ed. simpl. rewrite (rs_files _ _ A3), Hd.
    rewrite <- insert_empty, mcount_insert_new by done. simpl. rewrite (Z.eqb_sym ip jp). rewrite !mcount_empty. lia.
  - apply A3.
  - split; [apply A3|simpl; pose proof (rs_fresh _ _ A3); lia|]. intros jp Hjp. simpl. destruct (decide (jp = ip)) as [->|Hne].
    + destruct (inodes s !! ip) as [j|] eqn:Ej; [|lia]. right. exists j, i. split_and!; [done..|apply A10].
    + rewrite A6 by done. destruct (inodes s !! jp); eauto 10.
Qed.

(** Another count for one inode. *)
Lemma core_put s bs L es (R N R' N' : Z -> nat) ip i i' :
  core s bs L es R N -> inodes s !! ip = Some i -> inode_same i i' ->
  (forall jp, jp <> ip -> R' jp = R jp /\ N' jp = N jp) -> open_cnt i' = Z.of_nat (R' ip) ->
  (0 < R' ip)%nat /\ Z.of_nat (R' ip) < 2 ^ 31 -> deny_write_cnt i' = Z.of_nat (N' ip) -> (sector i < 2 -> N' ip = 0%nat) ->
  core (set_inodes (<[ip := i']> (inodes s)) s) bs L es R' N'.
Proof.
  intros H Hi Hs Hne E1 E2 E3 E4. pose proof H as [K1 K2 K3 K4 K5 K6 K7 K8 K9 K10 K11]. pose proof Hs as (F1 & F2 & F3).
  assert (forall jp j, <[ip := i']> (inodes s) !! jp = Some j -> exists j0, inodes s !! jp = Some j0 /\ inode_same j0 j) as Hback.
  { intros jp j Hj. rewrite lookup_insert_Some in Hj. destruct Hj as [[<- <-]|[_ Hj]]; [by exists i|by exists j]. }
  pose proof (mo_inodes _ _ _ _ K3 ip i Hi) as Hio.
  split; try done; simpl.
  - apply map_ok_put; [done|]. intros f j Hf Ef Hj. assert (j = i) as -> by congruence. split_and!; try done.
    destruct (mp_file _ _ _ K1 (proj2 K4)) as (f0 & i0 & G1 & G2 & G3 & G4 & _). assert (f0 = f) as -> by congruence.
    assert (i0 = i) as -> by congruence. rewrite G3, E3, E4 by lia. done.
  - eapply mem_ok_put; try done. by left.
  - intros x d Hx H2. destruct (K9 x d Hx H2) as [?|(jp & j & Hj & Ej)]; [by left|right]. destruct (decide (jp = ip)) as [->|Hn].
    + exists ip, i'. rewrite lookup_insert_eq. split; [done|]. assert (j = i) as -> by congruence. by rewrite F1.
    + exists jp, j. by rewrite lookup_insert_ne.
  - intros jp j Hj H2. destruct (Hback jp j Hj) as (j0 & Hj0 & G1 & G2 & _). rewrite G1, G2 in *. by apply (K10 jp).
  - intros jp j Hj H2. destruct (Hback jp j Hj) as (j0 & Hj0 & G1 & _). rewrite G1 in H2. destruct (decide (jp = ip)) as [->|Hn].
    + apply E4. by replace i with j0 by congruence.
    + rewrite (proj2 (Hne jp Hn)). by apply (K11 jp j0).
Qed.

Lemma root_close_ok s bs L es R N dp ip i pos :
  core s bs L es R N -> dirs s = {[ dp := Dir ip pos ]} -> dp <> 0 -> inodes s !! ip = Some i -> sector i = 1 ->
  wp (dir_close dp) (fun _ s' => exists bs', core s' bs' L es (drop1 R ip) N /\ dirs s' = ∅ /\ files s' = files s /\
    data_same (disk s) (disk s') L (eq 0%nat) /\ evolves s s') s.
Proof.
  intros H Hd Hdp Hi Hsec. unfold dir_close. rewrite (proj2 (Z.eqb_neq _ _)) by done. wp_step.
  eapply wp_eq; [apply get_dir_ok; by rewrite Hd, lookup_singleton_eq|]. wp_step. simpl. pose proof H as [K1 K2 K3 K4 K5 K6 K7 K8 K9 K10 K11].
  eapply wp_mono.
  { apply (core_close s bs L es R N ip i); try done; [|intros _; apply (K11 ip i); [done|lia]].
    intros f Hf Ef. destruct (mp_file _ _ _ K1 (proj2 K4)) as (f0 & i0 & G1 & G2 & _ & G4 & _).
    assert (f0 = f) as -> by congruence. assert (i0 = i) as -> by congruence. lia. }
  intros [] s1 (A1 & A2 & bs' & L' & A3 & A4 & A5). wp_step. assert (L' = L) as ->.
  { destruct (decide (R ip = 1%nat)); [|by destruct A5]. destruct A5 as [_ ->].
    by rewrite (io_system _ _ _ _ _ _ (mo_inodes _ _ _ _ K3 ip i Hi)) by lia. }
  exists bs'. split_and!; try done.
  - by apply core_set_dirs.
  - simpl. by rewrite (rs_dirs _ _ A1), Hd, delete_singleton_eq.
  - apply A1.
  - split; [apply A1|apply A1|]. intros jp Hjp. simpl. destruct (decide (jp = ip)) as [->|Hne].
    + destruct (decide (R ip = 1%nat)); [left; apply A5|]. destruct A5 as (_ & i' & Hi' & Es & _). right. by exists i, i'.
    + rewrite A2 by done. destruct (inodes s !! jp); eauto 10.
Qed.

(** ** Opening and closing files *)
Lemma file_open_null s bs L es R N :
  core s bs L es R N ->
  wp (file_open 0) (fun fp s' => fp = 0 /\ s' = set_alloc (fresh s + 1) [] s) s.
Proof.
  intros H. unfold file_open. wp_step. eapply wp_eq; [apply alloc_ok, (co_map _ _ _ _ _ _ H)|]. simpl. unfold inode_close. simpl.
  by do 3 wp_step.
Qed.

Lemma file_open_ok s bs L es ip i :
  core s bs L es (bump (refs s) ip) (denies s) -> inodes s !! ip = Some i -> files s !! fresh s = None -> free_map_file s < fresh s ->
  wp (file_open ip) (fun fp s' => 0 < fp /\ fp = fresh s /\ core s' bs L es (refs s') (denies s') /\
    s' = set_files (<[fp := File ip 0 false]> (files s)) (set_alloc (fresh s + 1) [] s)) s.
Proof.
  intros H Hi Hnew Hlt. unfold file_open. wp_step. eapply wp_eq; [apply alloc_ok, (co_map _ _ _ _ _ _ H)|].
  pose proof (mp_fresh _ _ _ (co_map _ _ _ _ _ _ H)) as Hf.
  pose proof (io_addr _ _ _ _ _ _ (mo_inodes _ _ _ _ (co_mem _ _ _ _ _ _ H) ip i Hi)) as Hip.
  rewrite !(proj2 (Z.eqb_neq _ _)) by lia. simpl. unfold put_file. do 3 wp_step. split_and!; try done.
  eapply core_ext; [| |apply core_set_files; [by apply core_alloc|]].
  - intros jp. unfold bump, refs. simpl. rewrite mcount_insert_new by done. simpl. rewrite (Z.eqb_sym ip jp). lia.
  - intros jp. unfold denies. simpl. rewrite mcount_insert_new by done. simpl. lia.
  - intros f Ef. simpl in *. exists f. rewrite lookup_insert_ne by lia. done.
Qed.

Lemma get_file_ok s fp f : files s !! fp = Some f -> get_file fp s = Ok (f, s).
Proof. intros H. unfold get_file, mbind, M_bind, get, deref. by rewrite H. Qed.

Lemma denies_refs s ip : (denies s ip <= refs s ip)%nat.
Proof.
  unfold denies, refs, mcount. apply Nat.le_trans with (size (filter (fun kv : Z * file => (f_inode kv.2 =? ip)%Z = true) (files s))); [|lia].
  apply map_subseteq_size, map_filter_subseteq_ext. intros k f _ Hb. simpl in *. by apply andb_true_iff in Hb as [_ ->].
Qed.

(** Replacing a file that refers to the same inode. *)
Lemma refs_put_file s fp f f' jp :
  files s !! fp = Some f -> f_inode f' = f_inode f -> refs (set_files (<[fp := f']> (files s)) s) jp = refs s jp.
Proof. intros Hf E. unfold refs. simpl. by rewrite (mcount_insert_same _ _ _ f) by (done || by rewrite E). Qed.

Lemma denies_put_file s fp f f' jp :
  files s !! fp = Some f -> f_inode f' = f_inode f ->
  (denies (set_files (<[fp := f']> (files s)) s) jp + Nat.b2n (f_deny_write f && (f_inode f =? jp)%Z) =
   denies s jp + Nat.b2n (f_deny_write f' && (f_inode f =? jp)%Z))%nat.
Proof. intros Hf E. unfold denies. simpl. pose proof (mcount_insert (fun g => f_deny_write g && (f_inode g =? jp)) _ fp f f' Hf) as H. simpl in H. by rewrite E in H. Qed.

Lemma core_put_file s bs L es R N fp f f' :
  core s bs L es R N -> files s !! fp = Some f -> f_inode f' = f_inode f ->
  core (set_files (<[fp := f']> (files s)) s) bs L es R N.
Proof.
  intros H Hf E. apply core_set_files; [done|]. intros g Hg. destruct (decide (fp = free_map_file s)) as [->|Hne].
  - exists f'. rewrite lookup_insert_eq. split; [done|]. congruence.
  - exists g. by rewrite lookup_insert_ne.
Qed.

Section file.
Context (s : fsys) (bs : list bool) (L : gmap nat inode_disk) (es : list (list Z)) (fp : Z) (f : file) (i : inode).
Hypothesis H : core s bs L es (refs s) (denies s).
Hypothesis Hf : files s !! fp = Some f.
Hypothesis Hi : inodes s !! f_inode f = Some i.
Hypothesis Huser : 2 <= sector i.
Hypothesis Hfp : fp <> 0.

(** The two states of a file's flag. *)
Definition flagged (v : bool) (s' : fsys) : Prop :=
  core s' bs L es (refs s') (denies s') /\ files s' = <[fp := File (f_inode f) (f_pos f) v]> (files s) /\
  dirs s' = dirs s /\ disk s' = disk s /\ free_map s' = free_map s /\ evolves s s' /\ fresh s' = fresh s /\
  exists i', inodes s' !! f_inode f = Some i' /\ inode_same i i'.

Lemma flagged_same : flagged (f_deny_write f) s.
Proof.
  split_and!; try done; [|apply evolves_refl|by exists i]. rewrite insert_id; [done|]. rewrite Hf. by destruct f.
Qed.

(** Setting the flag of the file and the inode's count with it. *)
Lemma flag_ok (v : bool) d :
  f_deny_write f = negb v -> d = deny_write_cnt i + (if v then 1 else -1) ->
  flagged v (set_inodes (<[f_inode f := Inode (sector i) (open_cnt i) (removed i) d (data i)]> (inodes s))
    (set_files (<[fp := File (f_inode f) (f_pos f) v]> (files s)) s)).
Proof.
  intros Hv Hd. set (f' := File _ _ v). set (s1 := set_files _ s). set (i' := Inode _ _ _ _ _).
  assert (core s1 bs L es (refs s) (denies s)) as H1 by (by eapply core_put_file).
  pose proof (mo_inodes _ _ _ _ (co_mem _ _ _ _ _ _ H) _ i Hi) as [I1 I2 I3 I4 I5 I6 I7].
  assert (forall jp, (denies s1 jp + Nat.b2n (negb v && (f_inode f =? jp)%Z) = denies s jp + Nat.b2n (v && (f_inode f =? jp)%Z))%nat) as Hden.
  { intros jp. pose proof (denies_put_file s fp f f' jp Hf eq_refl) as E. by rewrite Hv in E. }
  split_and!; try done; simpl.
  - eapply (core_put s1 bs L es (refs s) (denies s) _ _ (f_inode f) i i' H1); try done.
    + intros jp Hne. specialize (Hden jp). rewrite (proj2 (Z.eqb_neq _ _)) in Hden by done. rewrite !andb_false_r in Hden. simpl in Hden.
      split; [by apply (refs_put_file s fp f)|]. change (denies (set_inodes _ s1) jp) with (denies s1 jp). lia.
    + change (refs (set_inodes _ s1) (f_inode f)) with (refs s1 (f_inode f)). unfold s1. by rewrite (refs_put_file s fp f).
    + change (refs (set_inodes _ s1) (f_inode f)) with (refs s1 (f_inode f)). unfold s1. by rewrite (refs_put_file s fp f).
    + change (denies (set_inodes _ s1) (f_inode f)) with (denies s1 (f_inode f)). specialize (Hden (f_inode f)).
      rewrite Z.eqb_refl in Hden. simpl. destruct v; simpl in *; lia.
    + lia.
  - split; try done. intros jp _. simpl. destruct (decide (jp = f_inode f)) as [->|Hne].
    + right. exists i, i'. by rewrite lookup_insert_eq.
    + rewrite lookup_insert_ne by done. destruct (inodes s !! jp); eauto 10.
  - exists i'. by rewrite lookup_insert_eq.
Qed.

Lemma file_allow_write_ok : wp (file_allow_write fp) (fun _ s' => flagged false s') s.
Proof.
  unfold file_allow_write. wp_step. apply wp_assert; [by rewrite (proj2 (Z.eqb_neq _ _))|]. wp_step.
  eapply wp_eq; [by apply get_file_ok|]. destruct (f_deny_write f) eqn:Ed; [|wp_step; rewrite <- Ed; apply flagged_same].
  pose proof (mo_inodes _ _ _ _ (co_mem _ _ _ _ _ _ H) _ i Hi) as [I1 I2 I3 I4 I5 I6 I7].
  assert (0 < denies s (f_inode f))%nat as Hpos.
  { unfold denies. pose proof (mcount_delete (fun g => f_deny_write g && (f_inode g =? f_inode f)) (files s) fp f Hf) as E.
    cbv beta in E. rewrite Ed, Z.eqb_refl in E. simpl in E. lia. }
  pose proof (denies_refs s (f_inode f)). unfold put_file, inode_allow_write. do 3 wp_step.
  eapply wp_eq; [by apply get_inode_ok|]. wp_step. apply wp_assert; [lia|]. wp_step. apply wp_assert; [lia|].
  unfold put_inode. wp_step. apply flag_ok; [done|lia].
Qed.

Lemma file_deny_write_ok : wp (file_deny_write fp) (fun _ s' => flagged true s') s.
Proof.
  unfold file_deny_write. wp_step. apply wp_assert; [by rewrite (proj2 (Z.eqb_neq _ _))|]. wp_step.
  eapply wp_eq; [by apply get_file_ok|]. destruct (f_deny_write f) eqn:Ed; [wp_step; rewrite <- Ed; apply flagged_same|].
  pose proof (mo_inodes _ _ _ _ (co_mem _ _ _ _ _ _ H) _ i Hi) as [I1 I2 I3 I4 I5 I6 I7].
  assert (denies s (f_inode f) < refs s (f_inode f))%nat as Hlt.
  { set (s' := set_files (<[fp := File (f_inode f) (f_pos f) true]> (files s)) s).
    pose proof (denies_refs s' (f_inode f)) as Hle. unfold s' in Hle. rewrite (refs_put_file s fp f) in Hle by done.
    pose proof (denies_put_file s fp f (File (f_inode f) (f_pos f) true) (f_inode f) Hf eq_refl) as E.
    rewrite Ed, Z.eqb_refl in E. simpl in E. lia. }
  unfold put_file, inode_deny_write. do 3 wp_step. eapply wp_eq; [by apply get_inode_ok|]. unfold put_inode. do 2 wp_step.
  rewrite swrap_small by lia. apply wp_assert; [lia|]. apply flag_ok; [done|lia].
Qed.

End file.

Lemma refs_delete_file s fp f jp :
  files s !! fp = Some f ->
  (refs (set_files (delete fp (files s)) s) jp + Nat.b2n (f_inode f =? jp)%Z = refs s jp)%nat.
Proof. intros Hf. unfold refs. simpl. pose proof (mcount_delete (fun g => f_inode g =? jp) (files s) fp f Hf) as E. simpl in E. lia. Qed.

Lemma denies_delete_file s fp f jp :
  files s !! fp = Some f -> f_deny_write f = false -> denies (set_files (delete fp (files s)) s) jp = denies s jp.
Proof.
  intros Hf E. unfold denies. simpl. pose proof (mcount_delete (fun g => f_deny_write g && (f_inode g =? jp)) (files s) fp f Hf) as E'.
  simpl in E'. rewrite E in E'. simpl in E'. lia.
Qed.

Lemma file_close_ok s bs L es fp f i :
  core s bs L es (refs s) (denies s) -> files s !! fp = Some f -> inodes s !! f_inode f = Some i -> 2 <= sector i ->
  fp <> 0 -> fp <> free_map_file s ->
  wp (file_close fp) (fun _ s' => exists bs' L', core s' bs' L' es (refs s') (denies s') /\ files s' = delete fp (files s) /\
    dirs s' = dirs s /\ evolves s s' /\ data_same (disk s) (disk s') L' (eq 0%nat) /\
    L' = (if bool_decide (refs s (f_inode f) = 1%nat) && removed i then delete (Z.to_nat (sector i)) L else L)) s.
Proof.
  intros H Hf Hi Huser Hfp Hmf. unfold file_close. rewrite (proj2 (Z.eqb_neq _ _)) by done. wp_step.
  eapply wp_mono; [by apply (file_allow_write_ok s bs L es fp f i)|].
  intros [] s1 (H1 & F1 & D1 & K1 & M1 & E1 & _ & i1 & Hi1 & Es & Er & Ed). set (f1 := File (f_inode f) (f_pos f) false) in *.
  assert (files s1 !! fp = Some f1) as Hf1 by (by rewrite F1, lookup_insert_eq).
  wp_step. eapply wp_eq; [by apply get_file_ok|]. simpl. wp_step.
  assert (refs s1 (f_inode f) = refs s (f_inode f)) as ER.
  { unfold refs. rewrite F1, D1. by rewrite (mcount_insert_same _ _ _ f). }
  eapply wp_mono.
  { apply (core_close s1 bs L es (refs s1) (denies s1) (f_inode f) i1); try done.
    - intros g Hg Eg. destruct (mp_file _ _ _ (co_map _ _ _ _ _ _ H1) (proj2 (co_file _ _ _ _ _ _ H1))) as (g0 & i0 & G1 & G2 & _ & G4 & _).
      assert (g0 = g) as -> by congruence. assert (i0 = i1) as -> by congruence. lia.
    - intros E. pose proof (refs_delete_file s1 fp f1 (f_inode f) Hf1) as Ea. simpl in Ea. rewrite Z.eqb_refl in Ea. simpl in Ea.
      pose proof (denies_refs (set_files (delete fp (files s1)) s1) (f_inode f)) as Eb.
      rewrite (denies_delete_file s1 fp f1) in Eb by done. lia. }
  intros [] s2 (A1 & A2 & bs' & L' & A3 & A4 & A5). wp_step. exists bs', L'. simpl. pose proof (rs_files _ _ A1) as EF2. split_and!.
  - eapply core_ext; [| |apply (core_set_files s2 (delete fp (files s2))); [exact A3|]].
    + intros jp. pose proof (refs_delete_file s2 fp f1 jp ltac:(by rewrite EF2)) as Ea. simpl in Ea.
      assert (refs s2 jp = refs s1 jp) as Eb by (unfold refs; by rewrite EF2, (rs_dirs _ _ A1)).
      unfold drop1. rewrite (Z.eqb_sym jp). simpl. lia.
    + intros jp. rewrite (denies_delete_file s2 fp f1) by (done || by rewrite EF2). unfold denies. by rewrite EF2.
    + intros g Hg. exists g. rewrite lookup_delete_ne; [done|]. rewrite (rs_map_file _ _ A1), (ev_map_file _ _ E1). done.
  - by rewrite EF2, F1, delete_insert_eq.
  - by rewrite (rs_dirs _ _ A1).
  - eapply evolves_trans; [exact E1|]. split; [apply A1|apply A1|]. intros jp Hjp. simpl. destruct (decide (jp = f_inode f)) as [->|Hne].
    + destruct (decide (refs s1 (f_inode f) = 1%nat)); [left; apply A5|]. destruct A5 as (_ & i' & Hi' & Es' & _). right. by exists i1, i'.
    + rewrite A2 by done. destruct (inodes s1 !! jp); eauto 10.
  - by rewrite K1 in A4.
  - rewrite <- ER. destruct (decide (refs s1 (f_inode f) = 1%nat)) as [E|E].
    + rewrite bool_decide_eq_true_2 by done. simpl. rewrite <- Er. destruct A5 as [_ ->]. by rewrite Es.
    + rewrite bool_decide_eq_false_2 by done. simpl. by destruct A5.
Qed.
