(* ===== verification/FsNames.v ===== *)
(** * Files by name

    What creating, opening and removing a file by name do to the directory,
    the inodes on disk and the open files. *)

From S2P Require Import Prelude Bitmap Block Inode FreeMap Filesys FsDisk FsInv FsDir FsCore FsFiles.

(** The state of the file system between two operations. *)
Record fs_ok (s : fsys) (bs : list bool) (L : gmap nat inode_disk) (es : list (list Z)) : Prop := {
  fk_core : core s bs L es (refs s) (denies s);
  fk_dirs : dirs s = ∅;
  fk_files : map_Forall (fun fp f => 0 < fp < fresh s /\ 0 <= f_pos f) (files s);
  fk_user : forall fp f i, files s !! fp = Some f -> inodes s !! f_inode f = Some i -> fp <> free_map_file s -> 2 <= sector i
}.

Lemma fs_file_inode s bs L es fp f : fs_ok s bs L es -> files s !! fp = Some f -> is_Some (inodes s !! f_inode f).
Proof. intros H. eapply file_has_inode; [apply H|done]. Qed.

Lemma fs_map_file_lt s bs L es : fs_ok s bs L es -> free_map_file s < fresh s.
Proof.
  intros H. destruct (mp_file _ _ _ (co_map _ _ _ _ _ _ (fk_core _ _ _ _ H)) (proj2 (co_file _ _ _ _ _ _ (fk_core _ _ _ _ H)))) as (f & i & Hf & _).
  destruct (fk_files _ _ _ _ H _ _ Hf). lia.
Qed.

Lemma fs_fresh_file s bs L es : fs_ok s bs L es -> files s !! fresh s = None.
Proof. intros H. apply eq_None_not_Some. intros [f Hf]. destruct (fk_files _ _ _ _ H _ _ Hf). lia. Qed.

(** The inode of an open file stays the same inode. *)
Lemma evolves_file s s' bs L es fp f i' :
  fs_ok s bs L es -> evolves s s' -> files s !! fp = Some f -> inodes s' !! f_inode f = Some i' ->
  exists i, inodes s !! f_inode f = Some i /\ sector i' = sector i.
Proof.
  intros H E Hf Hi'. destruct (fs_file_inode _ _ _ _ _ _ H Hf) as [i Hi].
  pose proof (io_addr _ _ _ _ _ _ (mo_inodes _ _ _ _ (co_mem _ _ _ _ _ _ (fk_core _ _ _ _ H)) _ i Hi)) as Ha.
  destruct (ev_inodes _ _ E (f_inode f)) as [Hn|(j & j' & E1 & E2 & E3)]; [lia|congruence|]. exists i. split; congruence.
Qed.

(** The invariant after an operation that kept the open files. *)
Lemma fs_ok_kept s s' bs bs' L L' es es' :
  fs_ok s bs L es -> core s' bs' L' es' (refs s') (denies s') -> dirs s' = ∅ -> files s' = files s -> evolves s s' ->
  fs_ok s' bs' L' es'.
Proof.
  intros H Hc Hd Ef E. split; try done.
  - rewrite Ef. intros fp f Hf. destruct (fk_files _ _ _ _ H fp f Hf). pose proof (ev_fresh _ _ E). lia.
  - intros fp f i Hf Hi Hne. rewrite Ef in Hf. rewrite (ev_map_file _ _ E) in Hne.
    destruct (evolves_file _ _ _ _ _ _ _ _ H E Hf Hi) as (j & Hj & ->). by apply (fk_user _ _ _ _ H fp f j).
Qed.

Lemma data_same_trans D1 D2 D3 L P : data_same D1 D2 L P -> data_same D2 D3 L P -> data_same D1 D3 L P.
Proof. intros A B x d Hx Hp. rewrite (B x d Hx Hp). by apply (A x d Hx). Qed.

Lemma data_same_disk D D' L P : D' = D -> data_same D D' L P.
Proof. by intros ->. Qed.

(** Reading only. *)
Lemma core_read s s' bs L es R N : core s bs L es R N -> read_same s s' -> map_ok s' bs L -> core s' bs L es R N.
Proof.
  intros H [M D _] Hm. eapply core_data; [exact H|done|done| |by apply data_same_disk].
  eapply synced_disk; [exact D|apply H].
Qed.

Lemma entry_sector e name x : entry_ok e -> entry e = Some (name, x) -> de_sector e = Z.of_nat x.
Proof.
  intros [_ He]. unfold entry. destruct (de_in_use e); [|done]. destruct He as [[n Hn] Hs]; [done|]. rewrite Hn. intros [= _ <-]. lia.
Qed.

Lemma refs_same s s' ip : files s' = files s -> dirs s' = dirs s -> refs s' ip = refs s ip.
Proof. intros E1 E2. unfold refs. by rewrite E1, E2. Qed.

Lemma denies_same s s' ip : files s' = files s -> denies s' ip = denies s ip.
Proof. intros E. unfold denies. by rewrite E. Qed.

Lemma read_evolves s s' : read_same s s' -> evolves s s'.
Proof. intros [M _ _]. by apply mem_same_evolves. Qed.

(** References held by the code that runs. *)
Definition held (R X : Z -> nat) (jp : Z) : nat := (R jp + X jp)%nat.
Definition none (jp : Z) : nat := 0%nat.

(** After [dir_open_root]. *)
Record rooted (s0 s : fsys) (bs : list bool) (L : gmap nat inode_disk) (es : list (list Z)) (X : Z -> nat) (dp ip : Z) (i : inode) : Prop := {
  rt_root : at_root s L es dp ip i;
  rt_sector : sector i = 1;
  rt_core : core s bs L es (held (refs s) X) (denies s);
  rt_dirs : dirs s = {[ dp := Dir ip 0 ]};
  rt_files : files s = files s0;
  rt_evolves : evolves s0 s
}.

Lemma rooted_open s bs L es :
  fs_ok s bs L es -> few s ->
  wp dir_open_root (fun dp s' => exists ip i, rooted s s' bs L es none dp ip i /\ disk s' = disk s /\ free_map s' = free_map s) s.
Proof.
  intros H Hfew. eapply wp_mono; [apply (root_open_ok s bs L es); [apply H|done|apply H]|].
  intros dp s' (ip & i & A1 & A2 & A3 & A4 & A5 & A6 & A7 & A8). exists ip, i. split_and!; try done. split; try done.
  eapply core_ext; [| |exact A3]; intros jp; [unfold held, none; lia|]. symmetry. by apply denies_same.
Qed.

Lemma rooted_few s0 s bs L es X dp ip i :
  rooted s0 s bs L es X dp ip i -> few s0 -> forall jp, Z.of_nat (refs s jp) + 1 < 2 ^ 31.
Proof.
  intros H Hf jp. unfold few in Hf. pose proof (refs_le s jp) as Hle. destruct H as [_ _ _ Ed Ef _]. rewrite Ed, Ef in Hle.
  rewrite map_size_singleton in Hle. lia.
Qed.

Lemma rooted_read s0 s s' bs L es X dp ip i :
  rooted s0 s bs L es X dp ip i -> read_same s s' -> map_ok s' bs L -> rooted s0 s' bs L es X dp ip i.
Proof.
  intros [A1 A2 A3 A4 A5 A6] Hr Hm. pose proof Hr as [M D _]. pose proof (ms_files _ _ M) as Ef. pose proof (ms_dirs _ _ M) as Ed.
  split; try congruence.
  - by eapply at_root_read.
  - eapply core_ext; [| |by eapply core_read]; intros jp; [|symmetry; by apply denies_same].
    unfold held. f_equal. symmetry. by apply refs_same.
  - eapply evolves_trans; [done|by apply read_evolves].
Qed.

(** Closing the root directory again. *)
Lemma rooted_close s0 s bs L es X dp ip i :
  rooted s0 s bs L es X dp ip i ->
  wp (dir_close dp) (fun _ s' => exists bs', core s' bs' L es (held (refs s') X) (denies s') /\ dirs s' = ∅ /\ files s' = files s0 /\
    data_same (disk s) (disk s') L (eq 0%nat) /\ evolves s0 s' /\ evolves s s') s.
Proof.
  intros [A1 A2 A3 A4 A5 A6]. eapply wp_mono.
  { apply (root_close_ok s bs L es (held (refs s) X) (denies s) dp ip i 0); try done; apply A1. }
  intros [] s' (bs' & B1 & B2 & B3 & B4 & B5). exists bs'. split_and!; try done; [|congruence|by eapply evolves_trans].
  eapply core_ext; [| |exact B1]; intros jp; [|symmetry; by apply denies_same].
  unfold drop1, held, refs. rewrite A4, B2, B3, <- insert_empty, mcount_insert_new by done. simpl. rewrite mcount_empty, (Z.eqb_sym ip). lia.
Qed.

(** Opening an inode while the root directory is open. *)
Lemma rooted_inode_open s0 s bs L es dp ip i (x : nat) d :
  rooted s0 s bs L es none dp ip i -> few s0 -> L !! x = Some d -> named es x ->
  wp (inode_open (Z.of_nat x)) (fun jp s' => 0 < jp /\ rooted s0 s' bs L es (bump none jp) dp ip i /\ disk s' = disk s /\
    evolves s s' /\ exists j, inodes s' !! jp = Some j /\ sector j = Z.of_nat x /\ data j = d) s.
Proof.
  intros Hr Hfew Hx Hn. pose proof (rooted_few _ _ _ _ _ _ _ _ _ Hr Hfew) as HR. destruct Hr as [A1 A2 A3 A4 A5 A6].
  assert (2 <= x)%nat as Hx2 by (destruct Hn as [n Hn]; by apply (co_names _ _ _ _ _ _ A3 n)).
  eapply wp_mono; [apply (core_open s bs L es (held (refs s) none) (denies s) x d A3 Hx); [by right|]|].
  { intros jp. unfold held, none. specialize (HR jp). lia. }
  intros jp s' (B1 & B2 & B3 & B4 & B5 & B6 & j & B7 & B8 & B9 & B10).
  assert (ip <> jp) as Hne.
  { intros ->. rewrite (ar_inode _ _ _ _ _ _ A1) in B10. destruct B10 as (E & _). lia. }
  assert (evolves s s') as Hev.
  { split; [apply B3|apply B3|]. intros kp Hkp. destruct (decide (kp = jp)) as [->|Hk].
    - destruct (inodes s !! jp) as [k|] eqn:Ek; [|lia]. right. exists k, j. split_and!; [done..|apply B10].
    - rewrite B6 by done. destruct (inodes s !! kp); eauto 10. }
  split_and!; try done; [|eauto]. destruct A1 as [R1 [pos R2] R3 R4 R5 R6 R7]. split; try done.
  - split; try done; [exists pos; by rewrite (rs_dirs _ _ B3)|by rewrite B6|by rewrite B4].
  - eapply core_ext; [| |exact B2]; intros kp; [|symmetry; apply denies_same, B3]. unfold bump, held, none.
    rewrite (refs_same s s') by apply B3. lia.
  - by rewrite (rs_dirs _ _ B3).
  - by rewrite (rs_files _ _ B3).
  - by eapply evolves_trans.
Qed.

Lemma held_none R jp : held R none jp = R jp.
Proof. unfold held, none. lia. Qed.

(** ** Opening *)
Lemma filesys_open_ok s bs L es name e0 :
  fs_ok s bs L es -> few s -> 0 ∉ name -> length e0 = ESZ ->
  wp (filesys_open name e0) (fun fp s' => exists bs', fs_ok s' bs' L es /\ data_same (disk s) (disk s') L (eq 0%nat) /\
    evolves s s' /\
    match dmap es !! name with
    | None => fp = 0 /\ files s' = files s
    | Some x => 0 < fp /\ files s !! fp = None /\ fp <> free_map_file s /\
      exists ip i, files s' = <[fp := File ip 0 false]> (files s) /\ inodes s' !! ip = Some i /\ sector i = Z.of_nat x
    end) s.
Proof.
  intros H Hfew Hz He0. unfold filesys_open. wp_step. eapply wp_mono; [by apply (rooted_open s bs L es)|].
  intros dp s1 (ip & i & Hr & D1 & _). wp_step.
  assert (dp <> 0) as Hdp by apply (rt_root _ _ _ _ _ _ _ _ _ Hr). rewrite (proj2 (Z.eqb_neq _ _)) by done.
  unfold dir_lookup. wp_step. apply wp_assert; [by rewrite (proj2 (Z.eqb_neq _ _))|]. wp_step.
  eapply wp_mono; [apply (dir_lookup_entry_ok s1 bs L es dp ip i); [apply (rt_core _ _ _ _ _ _ _ _ _ Hr)|apply Hr|done|done]|].
  intros o s2 (Hm2 & Hrd & Ho). pose proof (rooted_read _ _ _ _ _ _ _ _ _ _ Hr Hrd Hm2) as Hr2.
  assert (disk s2 = disk s) as D2 by (rewrite (rd_disk _ _ Hrd); done). destruct o as [[e ofs]|].
  - destruct Ho as (k & x & Hk & He & Hx & _). pose proof (Forall_lookup_1 _ _ _ _ (dr_entries _ (ar_ok _ _ _ _ _ _ (rt_root _ _ _ _ _ _ _ _ _ Hr2))) Hk) as Hek.
    rewrite (entry_sector e name x) by done. destruct (co_names _ _ _ _ _ _ (fk_core _ _ _ _ H) name x Hx) as [Hx2 [d Hd]].
    eapply wp_mono; [apply (rooted_inode_open s s2 bs L es dp ip i x d); try done; by exists name|].
    intros jp s3 (B1 & B2 & B3 & B4 & j & B5 & B6 & B7). wp_step.
    eapply wp_mono; [by apply (rooted_close s s3 bs L es (bump none jp) dp ip i)|].
    intros [] s4 (bs' & C1 & C2 & C3 & C4 & C5 & C6).
    assert (core s4 bs' L es (bump (refs s4) jp) (denies s4)) as C1'.
    { eapply core_ext; [| |exact C1]; [|done]. intros kp. unfold held, bump, none. lia. }
    assert (exists j4, inodes s4 !! jp = Some j4 /\ sector j4 = Z.of_nat x) as (j4 & Hj4 & Es4).
    { destruct (inodes s4 !! jp) as [j4|] eqn:E4.
      - exists j4. split; [done|]. pose proof (io_addr _ _ _ _ _ _ (mo_inodes _ _ _ _ (co_mem _ _ _ _ _ _ (rt_core _ _ _ _ _ _ _ _ _ B2)) jp j B5)).
        destruct (ev_inodes _ _ C6 jp) as [?|(a & b & F1 & F2 & F3)]; [lia|congruence|]. congruence.
      - destruct (mo_zero _ _ _ _ (co_mem _ _ _ _ _ _ C1') jp E4) as [E _]. rewrite bump_eq in E. done. }
    pose proof (fs_fresh_file _ _ _ _ H) as Hfr.
    assert (files s !! fresh s4 = None) as Hnew.
    { apply eq_None_not_Some. intros [f Hf]. destruct (fk_files _ _ _ _ H _ _ Hf). pose proof (ev_fresh _ _ C5). lia. }
    pose proof (fs_map_file_lt _ _ _ _ H) as Hlt. pose proof (ev_fresh _ _ C5) as Hle.
    eapply wp_mono; [apply (file_open_ok s4 bs' L es jp j4); try done; [by rewrite C3|rewrite (ev_map_file _ _ C5); lia]|].
    intros fp s5 (F1 & -> & F3 & ->). exists bs'. rewrite Hx, C3. rewrite C3 in F3.
    assert (evolves s (set_files (<[fresh s4 := File jp 0 false]> (files s)) (set_alloc (fresh s4 + 1) [] s4))) as Hev.
    { destruct C5 as [G1 G2 G3]. split; [done|simpl; lia|]. intros kp Hkp. by apply (G3 kp). }
    split_and!; try done.
    + split; [done|done| |].
      * simpl. apply map_Forall_insert_2; [simpl; lia|]. intros fp f Hf. destruct (fk_files _ _ _ _ H fp f Hf). lia.
      * simpl. intros fp f i' Hf Hi' Hne. rewrite lookup_insert_Some in Hf. destruct Hf as [[<- <-]|[_ Hf]].
        { simpl in Hi'. assert (i' = j4) as -> by congruence. lia. }
        { destruct (evolves_file _ _ _ _ _ _ _ i' H C5 Hf) as (i0 & Hi0 & ->); [done|].
          apply (fk_user _ _ _ _ H fp f i0); try done. by rewrite <- (ev_map_file _ _ C5). }
    + intros y e' Hy Hy0. simpl. rewrite (C4 y e' Hy Hy0). by rewrite B3, D2.
    + lia.
    + by exists jp, j4.
  - wp_step. wp_step. eapply wp_mono; [by apply (rooted_close s s2 bs L es none dp ip i)|].
    intros [] s3 (bs' & C1 & C2 & C3 & C4 & C5 & _). eapply wp_mono; [by apply (file_open_null s3 bs' L es _ _ C1)|].
    intros fp s4 (-> & ->). exists bs'. rewrite Ho.
    assert (evolves s (set_alloc (fresh s3 + 1) [] s3)) as Hev.
    { destruct C5 as [G1 G2 G3]. split; [done|simpl; lia|]. intros kp Hkp. by apply (G3 kp). }
    split_and!; try done.
    + eapply fs_ok_kept; [exact H| |done|done|done]. eapply core_ext; [| |by apply core_alloc, C1]; [|done].
      intros jp. apply held_none.
    + intros y e' Hy Hy0. simpl. rewrite (C4 y e' Hy Hy0). by rewrite D2.
Qed.

(** ** Removing *)
(** The entry of an open inode goes, and the inode is marked removed. *)
Lemma core_unlink s s1 bs L es es' R N jp j name d :
  core s bs L es R N -> inodes s !! jp = Some j -> dmap es !! name = Some (Z.to_nat (sector j)) ->
  mem_same s s1 -> map_ok s1 bs L -> synced s1 bs L -> L !! 1%nat = Some d -> fdata (disk s1) d = concat es' ->
  dir_ok es' -> dmap es' = delete name (dmap es) ->
  core (set_inodes (<[jp := Inode (sector j) (open_cnt j) true (deny_write_cnt j) (data j)]> (inodes s1)) s1) bs L es' R N.
Proof.
  intros H Hj Hname M Hm Hs HL Hd Hok Hdm. pose proof H as [K1 K2 K3 K4 K5 K6 K7 K8 K9 K10 K11].
  pose proof (ms_inodes _ _ M) as Ei. set (j' := Inode _ _ _ _ _). pose proof (mo_inodes _ _ _ _ K3 jp j Hj) as [I1 I2 I3 I4 I5 I6 I7].
  destruct (K7 _ _ Hname) as [Hx _]. assert (mem_ok s1 L R N) as M1 by by eapply mem_ok_same.
  assert (forall n y, dmap es' !! n = Some y <-> n <> name /\ dmap es !! n = Some y) as Hes' by (intros n y; rewrite Hdm, lookup_delete_Some; naive_solver).
  assert (forall y, y <> Z.to_nat (sector j) -> named es' y <-> named es y) as Hnamed.
  { intros y Hy. split; intros [n Hn]; exists n.
    - by destruct (proj1 (Hes' n y) Hn).
    - apply Hes'. split; [|done]. congruence. }
  assert (forall kp k, <[jp := j']> (inodes s1) !! kp = Some k -> exists k0, inodes s !! kp = Some k0 /\ sector k = sector k0 /\
    (kp <> jp -> k = k0)) as Hback.
  { intros kp k Hk. rewrite lookup_insert_Some, Ei in Hk. destruct Hk as [[<- <-]|[? Hk]]; [by exists j|by exists k]. }
  split; try done; simpl.
  - apply map_ok_put; [done|]. intros f k _ _ Hk. rewrite Ei in Hk. by replace k with j by congruence.
  - eapply (mem_ok_put s1 L R R N N jp j); try done; [by rewrite Ei|]. right. split_and!; try done. lia.
  - by rewrite (ms_map_file _ _ M), (ms_files _ _ M).
  - eauto.
  - intros n y Hn. apply Hes' in Hn as [_ Hn]. by apply (K7 n).
  - intros n m y [_ Hn]%Hes' [_ Hm']%Hes'. by apply (K8 n m y).
  - intros y e Hy H2. destruct (decide (y = Z.to_nat (sector j))) as [->|Hne].
    + right. exists jp, j'. rewrite lookup_insert_eq. split; [done|simpl; lia].
    + destruct (K9 y e Hy H2) as [?|(kp & k & Hk & Ek)]; [left; by apply Hnamed|right]. exists kp, k.
      rewrite lookup_insert_ne, Ei; [done|]. intros ->. assert (k = j) as -> by congruence. lia.
  - intros kp k Hk H2. destruct (Hback kp k Hk) as (k0 & Hk0 & Ek & Eq). destruct (decide (kp = jp)) as [->|Hne].
    + rewrite lookup_insert_eq in Hk. injection Hk as <-. simpl. split; [done|]. intros [n Hn]. apply Hes' in Hn as [Hn Hn'].
      exfalso. apply Hn. by apply (K8 n name (Z.to_nat (sector j))).
    + rewrite (Eq Hne) in *. rewrite (K10 kp k0) by done. symmetry. apply Hnamed. intros E. apply Hne.
      pose proof (io_sector _ _ _ _ _ _ (mo_inodes _ _ _ _ K3 kp k0 Hk0)). apply (mo_inj _ _ _ _ K3 kp jp k0 j); try done. lia.
  - intros kp k Hk H2. destruct (Hback kp k Hk) as (k0 & Hk0 & Ek & _). apply (K11 kp k0); [done|lia].
Qed.

Definition open_on (s : fsys) (x : nat) : Prop :=
  exists fp f i, files s !! fp = Some f /\ inodes s !! f_inode f = Some i /\ sector i = Z.of_nat x.

(** Dropping the reference that the code held to an inode. *)
Lemma rooted_inode_close s0 s bs L es dp ip i jp j :
  rooted s0 s bs L es (bump none jp) dp ip i -> inodes s !! jp = Some j -> 2 <= sector j ->
  wp (inode_close jp) (fun _ s' => exists bs' L', rooted s0 s' bs' L' es none dp ip i /\
    data_same (disk s) (disk s') L' (eq 0%nat) /\
    ((refs s jp = 0%nat /\ L' = (if removed j then delete (Z.to_nat (sector j)) L else L)) \/ ((0 < refs s jp)%nat /\ L' = L))) s.
Proof.
  intros [A1 A2 A3 A4 A5 A6] Hj Hsec. pose proof A1 as [R1 [pos R2] R3 R4 R5 R6 R7].
  assert (held (refs s) (bump none jp) jp = S (refs s jp)) as ER by (unfold held; rewrite bump_eq; unfold none; lia).
  assert (ip <> jp) as Hne by (intros ->; replace j with i in Hsec by congruence; lia).
  eapply wp_mono.
  { apply (core_close s bs L es (held (refs s) (bump none jp)) (denies s) jp j); try done.
    - intros f Hf Ef. destruct (mp_file _ _ _ (co_map _ _ _ _ _ _ A3) (proj2 (co_file _ _ _ _ _ _ A3))) as (f0 & i0 & G1 & G2 & _ & G4 & _).
      assert (f0 = f) as -> by congruence. assert (i0 = j) as -> by congruence. lia.
    - rewrite ER. intros E. pose proof (denies_refs s jp). lia. }
  intros [] s' (B1 & B2 & bs' & L' & B3 & B4 & B5). exists bs', L'. rewrite ER in B5.
  assert (L' !! 1%nat = Some (data i)) as HL1.
  { destruct (decide (S (refs s jp) = 1%nat)); destruct B5 as [_ B5].
    - rewrite B5. destruct (removed j); [|done]. by rewrite lookup_delete_ne by lia.
    - destruct (co_root _ _ _ _ _ _ B3) as (d' & Hd' & _). destruct (co_mem _ _ _ _ _ _ B3) as [M1 _ _ _ _].
      assert (inodes s' !! ip = Some i) as Hi' by (by rewrite B2). pose proof (io_stored _ _ _ _ _ _ (M1 ip i Hi')) as E. by rewrite A2 in E. }
  split_and!; [| done|].
  - split; try done.
    + split; try done; [exists pos; by rewrite (rs_dirs _ _ B1)|by rewrite B2|]. rewrite <- R6. by apply (B4 1%nat).
    + eapply core_ext; [| |exact B3]; intros kp; [|symmetry; apply denies_same, B1]. rewrite held_none.
      rewrite (refs_same s s') by apply B1. unfold drop1, held, bump, none. lia.
    + by rewrite (rs_dirs _ _ B1).
    + by rewrite (rs_files _ _ B1).
    + eapply evolves_trans; [exact A6|]. split; [apply B1|apply B1|]. intros kp Hkp. destruct (decide (kp = jp)) as [->|Hk].
      * destruct (decide (S (refs s jp) = 1%nat)); [left; apply B5|]. destruct B5 as (_ & j' & Hj' & Es' & _). right. by exists j, j'.
      * rewrite B2 by done. destruct (inodes s !! kp); eauto 10.
  - destruct (decide (S (refs s jp) = 1%nat)); [left; split; [lia|apply B5]|right; split; [lia|by destruct B5]].
Qed.

Lemma data_same_mono D D' L (P Q : nat -> Prop) : data_same D D' L P -> (forall x, P x -> Q x) -> data_same D D' L Q.
Proof. intros H HPQ x d Hx Hq. apply (H x d Hx). auto. Qed.

Lemma data_same_sub D D' L L' P : data_same D D' L P -> L' ⊆ L -> data_same D D' L' P.
Proof. intros H Hsub x d Hx. apply (H x d). by eapply lookup_weaken. Qed.

(** References by files are the only ones between operations. *)
Lemma open_on_refs s s' bs L es X dp ip i jp j x :
  rooted s s' bs L es X dp ip i -> fs_ok s bs L es \/ (exists bs0 L0 es0, fs_ok s bs0 L0 es0) ->
  inodes s' !! jp = Some j -> sector j = Z.of_nat x -> ip <> jp -> (0 < refs s' jp)%nat <-> open_on s x.
Proof.
  intros Hr H Hj Hx Hne. assert (exists bs0 L0 es0, fs_ok s bs0 L0 es0) as (bs0 & L0 & es0 & H0) by naive_solver.
  destruct Hr as [A1 A2 A3 A4 A5 A6]. split.
  - unfold refs. rewrite A4, <- insert_empty, mcount_insert_new by done. simpl. rewrite (proj2 (Z.eqb_neq _ _)), mcount_empty by done. simpl.
    intros Hpos. destruct (mcount_pos (fun f => f_inode f =? jp) (files s')) as (fp & f & Hf & E%Z.eqb_eq); [lia|]. subst jp.
    rewrite A5 in Hf. destruct (evolves_file _ _ _ _ _ _ _ _ H0 A6 Hf Hj) as (k & Hk & Ek). exists fp, f, k. split_and!; congruence.
  - intros (fp & f & k & Hf & Hk & Ek).
    assert (is_Some (inodes s' !! f_inode f)) as [k' Hk'].
    { eapply file_has_inode; [exact A3|intros; unfold held; lia|by rewrite A5]. }
    destruct (evolves_file _ _ _ _ _ _ _ _ H0 A6 Hf Hk') as (k2 & Hk2 & Ek2).
    assert (f_inode f = jp) as <- by (apply (mo_inj _ _ _ _ (co_mem _ _ _ _ _ _ A3) _ _ k' j); congruence).
    unfold refs. rewrite A5. pose proof (mcount_delete (fun g => f_inode g =? f_inode f) (files s) fp f Hf) as E. cbv beta in E.
    rewrite Z.eqb_refl in E. simpl in E. lia.
Qed.

Lemma filesys_remove_ok s bs L es name e0 :
  fs_ok s bs L es -> few s -> 0 ∉ name -> length e0 = ESZ ->
  wp (filesys_remove name e0) (fun b s' => files s' = files s /\ evolves s s' /\
    match dmap es !! name with
    | None => b = false /\ exists bs', fs_ok s' bs' L es /\ data_same (disk s) (disk s') L (eq 0%nat)
    | Some x => b = true /\ exists bs' L' es', fs_ok s' bs' L' es' /\ dmap es' = delete name (dmap es) /\
        data_same (disk s) (disk s') L' (fun y => y < 2)%nat /\
        ((open_on s x /\ L' = L) \/ (~ open_on s x /\ L' = delete x L))
    end) s.
Proof.
  intros H Hfew Hz He0. unfold filesys_remove. wp_step. eapply wp_mono; [by apply (rooted_open s bs L es)|].
  intros dp s1 (ip & i & Hr & D1 & _). wp_step.
  assert (dp <> 0) as Hdp by apply (rt_root _ _ _ _ _ _ _ _ _ Hr). rewrite (proj2 (Z.eqb_neq _ _)) by done.
  unfold dir_remove. wp_step. apply wp_assert; [by rewrite (proj2 (Z.eqb_neq _ _))|]. wp_step.
  eapply wp_mono; [apply (dir_lookup_entry_ok s1 bs L es dp ip i); [apply (rt_core _ _ _ _ _ _ _ _ _ Hr)|apply Hr|done|done]|].
  intros o s2 (Hm2 & Hrd & Ho). pose proof (rooted_read _ _ _ _ _ _ _ _ _ _ Hr Hrd Hm2) as Hr2.
  assert (disk s2 = disk s) as D2 by (rewrite (rd_disk _ _ Hrd); done). destruct o as [[e ofs]|].
  2: { unfold inode_close. simpl. do 4 wp_step. eapply wp_mono; [by apply (rooted_close s s2 bs L es none dp ip i)|].
       intros [] s3 (bs' & C1 & C2 & C3 & C4 & C5 & _). wp_step. rewrite Ho. split_and!; try done. exists bs'. rewrite D2 in C4.
       split; [|done]. eapply fs_ok_kept; [exact H| |done..]. eapply core_ext; [apply held_none|done|done]. }
  destruct Ho as (k & x & Hk & He & Hx & ->). rewrite Hx.
  pose proof (Forall_lookup_1 _ _ _ _ (dr_entries _ (ar_ok _ _ _ _ _ _ (rt_root _ _ _ _ _ _ _ _ _ Hr2))) Hk) as Hek.
  rewrite (entry_sector e name x) by done. destruct (co_names _ _ _ _ _ _ (fk_core _ _ _ _ H) name x Hx) as [Hx2 [d Hd]].
  wp_step. eapply wp_mono; [apply (rooted_inode_open s s2 bs L es dp ip i x d); try done; by exists name|].
  intros jp s3 (B1 & Hr3 & D3 & B4 & j & B5 & B6 & B7). rewrite (proj2 (Z.eqb_neq _ _)) by lia. wp_step.
  pose proof Hr3 as [A1 A2 A3 A4 A5 A6]. destruct (ar_dir _ _ _ _ _ _ A1) as [pos Hpos].
  eapply wp_eq; [by apply get_dir_ok|]. wp_step. simpl. destruct (erased_entry e) as [Hok' He']; [apply Hek|].
  eapply wp_mono; [by apply (write_entry_ok s3 bs L es dp ip i (co_map _ _ _ _ _ _ A3) A1 k e)|].
  intros r s4 (-> & F1 & F2 & F3 & F4 & F5). change (DIR_ENTRY_SIZE =? DIR_ENTRY_SIZE) with true. cbn [negb]. wp_step.
  destruct (dmap_remove es k e (set_in_use 0 e) name x) as [Hok2 Hdm2]; try done; [apply (ar_ok _ _ _ _ _ _ A1)|].
  unfold inode_remove. do 2 wp_step. apply wp_assert; [by rewrite (proj2 (Z.eqb_neq _ _)) by lia|]. wp_step.
  eapply wp_eq; [apply get_inode_ok; by rewrite (ms_inodes _ _ F2)|]. unfold put_inode. do 3 wp_step.
  set (es' := <[k := set_in_use 0 e]> es) in *. set (j' := Inode _ _ _ _ _). set (s5 := set_inodes _ s4).
  assert (core s5 bs L es' (held (refs s5) (bump none jp)) (denies s5)) as Hc5.
  { assert (core s5 bs L es' (held (refs s3) (bump none jp)) (denies s3)) as Hc.
    { apply (core_unlink s3 s4 bs L es es' _ _ jp j name (data i)); try done; [by rewrite B6, Nat2Z.id|apply F3, A3|apply A1]. }
    eapply core_ext; [| |exact Hc]; intros kp; symmetry; [unfold held; f_equal; apply refs_same|apply denies_same]; simpl; apply F2. }
  assert (ip <> jp) as Hne by (intros ->; pose proof (ar_inode _ _ _ _ _ _ A1); replace i with j in A2 by congruence; lia).
  assert (rooted s s5 bs L es' (bump none jp) dp ip i) as Hr5.
  { split; try done.
    - destruct A1 as [R1 [pos' R2] R3 R4 R5 R6 R7]. split; try done; simpl.
      + exists pos'. by rewrite (ms_dirs _ _ F2).
      + by rewrite lookup_insert_ne, (ms_inodes _ _ F2).
    - simpl. by rewrite (ms_dirs _ _ F2).
    - simpl. by rewrite (ms_files _ _ F2).
    - eapply evolves_trans; [exact A6|]. eapply evolves_trans; [by apply mem_same_evolves|]. split; try done.
      intros kp _. simpl. destruct (decide (kp = jp)) as [->|Hk'].
      + right. exists j, j'. by rewrite lookup_insert_eq, (ms_inodes _ _ F2).
      + rewrite lookup_insert_ne by done. destruct (inodes s4 !! kp); eauto 10. }
  assert (inodes s5 !! jp = Some j') as Hj5 by (simpl; by rewrite lookup_insert_eq).
  eapply wp_mono; [apply (rooted_inode_close s s5 bs L es' dp ip i jp j'); try done; simpl; lia|].
  intros [] s6 (bs6 & L6 & Hr6 & D6 & HL6). do 2 wp_step.
  eapply wp_mono; [by apply (rooted_close s s6 bs6 L6 es' none dp ip i)|].
  intros [] s7 (bs' & C1 & C2 & C3 & C4 & C5 & _). wp_step. split_and!; try done. exists bs', L6, es'.
  assert (0 < refs s5 jp <-> open_on s x)%nat as Hop by (eapply (open_on_refs s s5); eauto).
  simpl in HL6. rewrite B6, Nat2Z.id in HL6. assert (L6 ⊆ L) as Hsub.
  { destruct HL6 as [[_ ->]|[_ ->]]; [apply delete_subseteq|done]. }
  split_and!; try done.
  - eapply fs_ok_kept; [exact H| |done..]. eapply core_ext; [apply held_none|done|done].
  - eapply data_same_trans; [eapply data_same_trans|]; [|eapply data_same_mono; [exact D6|lia]|eapply data_same_mono; [exact C4|lia]].
    rewrite <- D2, <- D3. eapply data_same_sub; [|exact Hsub]. eapply data_same_mono; [exact F4|lia].
  - destruct HL6 as [[E ->]|[E ->]]; [right|left]; (split; [|done]); rewrite <- Hop; lia.
Qed.

(** ** Creating *)
Lemma rooted_data s0 s s' bs bs' L es X dp ip i :
  rooted s0 s bs L es X dp ip i -> mem_same s s' -> map_ok s' bs' L -> synced s' bs' L ->
  data_same (disk s) (disk s') L (eq 0%nat) -> rooted s0 s' bs' L es X dp ip i.
Proof.
  intros [A1 A2 A3 A4 A5 A6] M Hm Hs Hd. pose proof (ms_files _ _ M) as Ef. pose proof (ms_dirs _ _ M) as Ed.
  split; try congruence.
  - destruct A1 as [R1 R2 R3 R4 R5 R6 R7]. split; try done; [by rewrite Ed|by rewrite (ms_inodes _ _ M)|].
    rewrite <- R6. by apply (Hd 1%nat).
  - eapply core_ext; [| |by eapply core_data]; intros jp; [|symmetry; by apply denies_same].
    unfold held. f_equal. symmetry. by apply refs_same.
  - eapply evolves_trans; [done|by apply mem_same_evolves].
Qed.

(** A new inode gets a name. *)
Lemma core_link s s1 bs L es es' R N x d name dr :
  core s bs L es R N -> L !! x = None -> (2 <= x)%nat -> dmap es !! name = None ->
  mem_same s s1 -> map_ok s1 bs (<[x := d]> L) -> synced s1 bs (<[x := d]> L) -> L !! 1%nat = Some dr ->
  fdata (disk s1) dr = concat es' -> dir_ok es' -> dmap es' = <[name := x]> (dmap es) ->
  core s1 bs (<[x := d]> L) es' R N.
Proof.
  intros H Hx Hx2 Hname M Hm Hs HL Hd Hok Hdm. pose proof H as [K1 K2 K3 K4 K5 K6 K7 K8 K9 K10 K11].
  pose proof (ms_inodes _ _ M) as Ei.
  assert (forall n, dmap es !! n <> Some x) as Hfree by (intros n Hn; destruct (K7 n x Hn) as [_ [? ?]]; congruence).
  assert (forall y, y <> x -> named es' y <-> named es y) as Hnamed.
  { intros y Hy. unfold named. rewrite Hdm. split; intros [n Hn]; exists n.
    - rewrite lookup_insert_Some in Hn. destruct Hn as [[_ ?]|[_ ?]]; congruence.
    - rewrite lookup_insert_ne; [done|]. congruence. }
  assert (forall ip i, inodes s !! ip = Some i -> Z.to_nat (sector i) <> x) as Hsec.
  { intros ip i Hi E. pose proof (io_stored _ _ _ _ _ _ (mo_inodes _ _ _ _ K3 ip i Hi)) as E'. congruence. }
  split; try done; rewrite ?Ei.
  - apply (mem_ok_same s); [done|]. destruct K3 as [M1 M2 M3 M4 M5]. split; try done. intros ip i Hi. destruct (M1 ip i Hi). split; try done.
    rewrite lookup_insert_ne; [done|]. intros E. by apply (Hsec ip i).
  - by rewrite (ms_map_file _ _ M), (ms_files _ _ M).
  - exists dr. rewrite lookup_insert_ne by lia. done.
  - intros n y Hn. rewrite Hdm, lookup_insert_Some in Hn. destruct Hn as [[_ <-]|[_ Hn]]; [by rewrite lookup_insert_eq|].
    destruct (K7 n y Hn) as [E1 E2]. split; [done|]. rewrite lookup_insert_ne; [done|]. intros <-. by apply (Hfree n).
  - intros n m y. rewrite Hdm, !lookup_insert_Some. intros [[<- <-]|[_ Hn]] [[<- E]|[_ Hm']]; try done.
    + by destruct (Hfree m).
    + subst y. by destruct (Hfree n).
    + by apply (K8 n m y).
  - intros y e Hy H2. destruct (decide (y = x)) as [->|Hne]; [left; exists name; by rewrite Hdm, lookup_insert_eq|].
    rewrite lookup_insert_ne in Hy by done. destruct (K9 y e Hy H2) as [?|?]; [left; by apply Hnamed|by right].
  - intros ip i Hi H2. rewrite (K10 ip i Hi H2). symmetry. by apply Hnamed, (Hsec ip).
  - done.
Qed.

(** Why a file cannot be created. *)
Definition no_room (bs : list bool) (es : list (list Z)) (size : Z) : Prop :=
  (forall i, ~ group bs 1 false i) \/
  (exists x, group bs 1 false x /\ forall i, ~ group (fill bs x 1 true) (bytes_to_sectors size) false i) \/
  Forall (fun e => de_in_use e = true) es.

(** After a failure the sector of the inode is free again. *)
Lemma create_fails s0 s bs L es dp ip i (x : nat) :
  rooted s0 s bs L es none dp ip i -> bs !! x = Some true -> ~ owned L x ->
  wp (free_map_release (Z.of_nat x) 1) (fun _ s' => exists bs', rooted s0 s' bs' L es none dp ip i /\
    data_same (disk s) (disk s') L (eq 0%nat)) s.
Proof.
  intros Hr Hx Hno. pose proof (rt_core _ _ _ _ _ _ _ _ _ Hr) as Hc. pose proof (lookup_lt_Some _ _ _ Hx) as Hlt.
  eapply wp_mono; [apply (free_map_release_ok s bs L); [apply Hc|apply (co_file _ _ _ _ _ _ Hc)| |]|].
  - split; [unfold in_range, alen; lia|]. intros j Hj. replace j with (Z.of_nat x) by lia. by rewrite aget_nat.
  - by intros k ->%run_1.
  - intros [] s' (M & D & Hm & Hs). eexists. split; [by eapply rooted_data|done].
Qed.

Lemma rooted_finish s0 s bs0 L0 es0 bs L es dp ip i :
  fs_ok s0 bs0 L0 es0 -> rooted s0 s bs L es none dp ip i ->
  wp (dir_close dp) (fun _ s' => (exists bs', fs_ok s' bs' L es) /\ files s' = files s0 /\ evolves s0 s' /\
    data_same (disk s) (disk s') L (eq 0%nat)) s.
Proof.
  intros H Hr. eapply wp_mono; [by apply (rooted_close s0 s bs L es none dp ip i)|].
  intros [] s' (bs' & C1 & C2 & C3 & C4 & C5 & _). split_and!; try done. exists bs'.
  eapply fs_ok_kept; [exact H| |done..]. eapply core_ext; [apply held_none|done|done].
Qed.

(** Naming a new inode. *)
Lemma create_link s0 s bs L es dp ip i (x : nat) d name e0 :
  rooted s0 s bs L es none dp ip i -> map_ok s bs (<[x := d]> L) -> synced s bs (<[x := d]> L) -> L !! x = None -> (2 <= x)%nat ->
  0 ∉ name -> length e0 = ESZ ->
  wp (dir_add dp name (Z.of_nat x) e0) (fun b s' => data_same (disk s) (disk s') (<[x := d]> L) (eq 1%nat) /\
    if b : bool then valid_name name /\ dmap es !! name = None /\ exists es', dmap es' = <[name := x]> (dmap es) /\
      rooted s0 s' bs (<[x := d]> L) es' none dp ip i
    else rooted s0 s' bs L es none dp ip i /\
      (~ valid_name name \/ is_Some (dmap es !! name) \/ Forall (fun e => de_in_use e = true) es)) s.
Proof.
  intros Hr Hm Hs HLx Hx2 Hz He0. pose proof Hr as [A1 A2 A3 A4 A5 A6].
  assert (at_root s (<[x := d]> L) es dp ip i) as Hat by (destruct A1; split; try done; by rewrite lookup_insert_ne by lia).
  pose proof (mp_disk _ _ _ Hm) as Hdk. assert (Z.of_nat x < 2 ^ 32) as Hxm.
  { pose proof (st_header _ _ _ (dk_stored _ _ Hdk x d ltac:(by rewrite lookup_insert_eq))) as E. apply lookup_lt_Some in E.
    pose proof (dk_size _ _ Hdk). lia. }
  eapply wp_mono; [by apply (dir_add_ok s bs (<[x := d]> L) es dp ip i)|].
  intros b s4 (Hm4 & M4 & Hs4 & DS4 & es' & Hd4 & Hok4 & G4). specialize (Hs4 Hs). split; [done|]. destruct b.
  - destruct G4 as (Hv & Hname & Hdm). split_and!; try done. exists es'. split; [done|].
    pose proof (ms_files _ _ M4) as Ef. pose proof (ms_dirs _ _ M4) as Ed. split; try congruence.
    + destruct Hat as [R1 R2 R3 R4 R5 R6 R7]. split; try done; [by rewrite Ed|by rewrite (ms_inodes _ _ M4)].
    + eapply core_ext; [| |eapply (core_link s s4 bs L es es' _ _ x d name (data i)); try done; apply A1]; intros jp;
        [|symmetry; by apply denies_same]. unfold held. f_equal. symmetry. by apply refs_same.
    + eapply evolves_trans; [done|by apply mem_same_evolves].
  - destruct G4 as (-> & Hwhy). split; [|done]. eapply rooted_data; [exact Hr|done| | |].
    + rewrite <- (delete_insert_id L x d) by done. apply map_ok_delete; [done|lia].
    + destruct Hs4 as (d0 & ws & E & F). exists d0, ws. by rewrite lookup_insert_ne in E by lia.
    + intros y e Hy Hy0. destruct (decide (y = 1%nat)) as [->|Hy1].
      * assert (e = data i) as -> by (pose proof (ar_stored _ _ _ _ _ _ A1); congruence). rewrite Hd4. symmetry. apply Hat.
      * apply (DS4 y e); [rewrite lookup_insert_ne; [done|congruence]|congruence].
Qed.

(** Setting the sector of an inode aside. *)
Lemma create_sector s bs L st :
  map_ok s bs L -> is_Some (L !! 0%nat) -> is_Some (L !! 1%nat) -> group bs 1 false st ->
  exists x, st = Z.of_nat x /\ ~ owned L x /\ (2 <= x)%nat /\ L !! x = None /\ fill bs st 1 true !! x = Some true.
Proof.
  intros H [d0 HL0] [d1 HL1] Hg. assert (in_range bs st 1) as Hr by apply Hg. exists (Z.to_nat st).
  assert (0 <= st) as Hst by (unfold in_range in Hr; lia). assert (in_run st 1 (Z.to_nat st)) as Hrun by (unfold in_run; lia).
  assert (~ owned L (Z.to_nat st)) as Hno by (eapply free_not_owned; [exact H|by eapply group_lookup]).
  assert (forall y e, L !! y = Some e -> y <> Z.to_nat st) as Hnew.
  { intros y e Hy ->. apply Hno. exists (Z.to_nat st), e. split; [done|by left]. }
  split_and!; [lia|done| | |by rewrite fill_lookup, decide_True].
  - pose proof (Hnew _ _ HL0). pose proof (Hnew _ _ HL1). lia.
  - apply eq_None_not_Some. intros [e He]. by apply (Hnew (Z.to_nat st) e).
Qed.

Lemma filesys_create_ok s bs L es name size e0 :
  fs_ok s bs L es -> few s -> 0 ∉ name -> length e0 = ESZ -> 0 <= size < 2 ^ 31 ->
  wp (filesys_create name size e0) (fun b s' => files s' = files s /\ evolves s s' /\
    if b : bool then valid_name name /\ dmap es !! name = None /\
      exists bs' x d es', (2 <= x)%nat /\ L !! x = None /\ fs_ok s' bs' (<[x := d]> L) es' /\ dmap es' = <[name := x]> (dmap es) /\
        fdata (disk s') d = replicate (Z.to_nat size) 0 /\ data_same (disk s) (disk s') L (fun y => y < 2)%nat
    else (exists bs', fs_ok s' bs' L es) /\ data_same (disk s) (disk s') L (fun y => y < 2)%nat /\
      (~ valid_name name \/ is_Some (dmap es !! name) \/ no_room bs es size)) s.
Proof.
  intros H Hfew Hz He0 Hsize. unfold filesys_create. wp_step. eapply wp_mono; [by apply (rooted_open s bs L es)|].
  intros dp s1 (ip & i & Hr & D1 & _). wp_step.
  assert (dp <> 0) as Hdp by apply (rt_root _ _ _ _ _ _ _ _ _ Hr). rewrite (proj2 (Z.eqb_neq _ _)) by done. wp_step.
  pose proof (rt_core _ _ _ _ _ _ _ _ _ Hr) as Hc1.
  eapply wp_mono; [apply (free_map_allocate_ok s1 bs L 1); [apply Hc1|intros _; apply (co_file _ _ _ _ _ _ Hc1)|lia]|]. intros [st|] s2 (M2 & DS2 & G2).
  2: { destruct G2 as (Hno & Hm2 & D2). do 2 wp_step. cbn [fst snd negb andb]. change (negb (0 =? 0)) with false. cbv iota.
       wp_step. assert (rooted s s2 bs L es none dp ip i) as Hr2.
       { eapply rooted_data; [exact Hr|done|done|eapply synced_disk; [exact D2|apply Hc1]|done]. }
       wp_step. eapply wp_mono; [by apply (rooted_finish s s2 bs L es bs L es dp ip i)|].
       intros [] s3 (C1 & C2 & C3 & C4). wp_step. split_and!; try done.
       - rewrite D2, D1 in C4. eapply data_same_mono; [exact C4|lia].
       - right. right. by left. }
  destruct G2 as (Hg & Hm2 & Hs2). set (bs1 := fill bs st 1 true) in *.
  destruct (mp_file _ _ _ (co_map _ _ _ _ _ _ Hc1) (proj2 (co_file _ _ _ _ _ _ Hc1))) as (f0 & i0 & _ & _ & _ & _ & HL0 & _).
  destruct (co_root _ _ _ _ _ _ Hc1) as (dr & HL1 & _).
  destruct (create_sector s1 bs L st (co_map _ _ _ _ _ _ Hc1) ltac:(eauto) ltac:(eauto) Hg) as (x & Ex & Hno & Hx2 & HLx & Hbx).
  assert (rooted s s2 bs1 L es none dp ip i) as Hr2 by (eapply rooted_data; try done; apply Hs2, (co_file _ _ _ _ _ _ Hc1)).
  pose proof (rt_core _ _ _ _ _ _ _ _ _ Hr2) as Hc2.
  rewrite Ex. wp_step. eapply wp_mono; [apply (inode_create_ok s2 bs1 L x size); try done; intros _; apply (co_file _ _ _ _ _ _ Hc2)|].
  intros [|] s3 (M3 & DS3 & G3).
  2: { destruct G3 as (Hm3 & D3 & Hno3). wp_step. cbn [fst snd negb andb]. wp_step. rewrite (proj2 (Z.eqb_neq _ _)) by lia. cbn [negb].
       assert (rooted s s3 bs1 L es none dp ip i) as Hr3.
       { eapply rooted_data; [exact Hr2|done|done|eapply synced_disk; [exact D3|apply Hc2]|done]. }
       eapply wp_mono; [by apply (create_fails s s3 bs1 L es dp ip i x)|]. intros [] s4 (bs4 & Hr4 & D4). wp_step.
       eapply wp_mono; [by apply (rooted_finish s s4 bs L es bs4 L es dp ip i)|].
       intros [] s5 (C1 & C2 & C3 & C4). wp_step. split_and!; try done.
       - rewrite D3 in D4. rewrite D1 in DS2. apply (data_same_mono _ _ _ (eq 0%nat)); [|lia].
         eapply data_same_trans; [eapply data_same_trans; [exact DS2|exact D4]|exact C4].
       - right. right. right. left. exists st. by split. }
  destruct G3 as (d & bs3 & Elen & Hm3 & Hgrow & _ & _ & Hzero & Hs3). specialize (Hs3 (proj1 (co_file _ _ _ _ _ _ Hc2))).
  assert (map_ok s3 bs3 L) as Hm3'.
  { rewrite <- (delete_insert_id L x d) by done. apply map_ok_delete; [done|lia]. }
  assert (forall s', synced s' bs3 (<[x := d]> L) -> synced s' bs3 L) as Hsy.
  { intros s' (d0 & ws & E & F). exists d0, ws. rewrite lookup_insert_ne in E by lia. done. }
  assert (rooted s s3 bs3 L es none dp ip i) as Hr3 by (eapply rooted_data; [exact Hr2|done|done|by apply Hsy|done]).
  wp_step. eapply wp_mono; [by apply (create_link s s3 bs3 L es dp ip i x d)|]. intros b s4 (DS4 & G4).
  assert (data_same (disk s) (disk s4) L (fun y => y < 2)%nat) as DS.
  { rewrite <- D1. eapply (data_same_trans _ (disk s3)).
    - apply (data_same_mono _ _ _ (eq 0%nat)); [|lia]. by eapply data_same_trans.
    - apply (data_same_mono _ _ _ (eq 1%nat)); [|lia]. eapply data_same_sub; [exact DS4|by apply insert_subseteq]. }
  destruct b.
  - destruct G4 as (Hv & Hname & es' & Hdm & Hr4). wp_step. cbn [fst snd negb andb]. do 2 wp_step.
    wp_step. eapply wp_mono; [by apply (rooted_finish s s4 bs L es bs3 (<[x := d]> L) es' dp ip i)|].
    intros [] s5 ([bs' C1] & C2 & C3 & C4). wp_step. split_and!; try done. exists bs', x, d, es'. split_and!; try done.
    + rewrite (C4 x d), (DS4 x d); rewrite ?lookup_insert_eq; (done || lia).
    + eapply data_same_trans; [exact DS|]. apply (data_same_mono _ _ _ (eq 0%nat)); [|lia].
      eapply data_same_sub; [exact C4|by apply insert_subseteq].
  - destruct G4 as (Hr4 & Hwhy). wp_step. cbn [fst snd negb andb]. wp_step. rewrite (proj2 (Z.eqb_neq _ _)) by lia. cbn [negb].
    eapply wp_mono; [apply (create_fails s s4 bs3 L es dp ip i x); try done; by apply Hgrow|]. intros [] s5 (bs5 & Hr5 & D5). wp_step.
    eapply wp_mono; [by apply (rooted_finish s s5 bs L es bs5 L es dp ip i)|].
    intros [] s6 (C1 & C2 & C3 & C4). wp_step. split_and!; try done.
    + eapply data_same_trans; [exact DS|]. apply (data_same_mono _ _ _ (eq 0%nat)); [|lia]. by eapply data_same_trans.
    + destruct Hwhy as [?|[?|?]]; [by left|by right; left|]. right. right. right. by right.
Qed.
