(* ===== verification/FsSpec.v ===== *)
(** * The file system as a finite map of files

    The specification of the file system: names stand for files, a file is an
    array of bytes, and an open file has a position.  Every operation of the
    file system, on a state that represents an abstract one, does what the
    specification says and gives a state that represents the result; so does
    every program of such operations. *)

From S2P Require Import Prelude Bitmap Block Inode FreeMap Filesys FsDisk FsInv FsDir FsCore FsFiles FsNames.

(** ** The specification *)
Record ofile := OFile { o_file : nat; o_pos : Z; o_deny : bool }.

(** [store] has the bytes of each file, by its number. *)
Record afs := AFS { names : gmap (list Z) nat; store : gmap nat (list Z); opened : gmap Z ofile }.

Inductive fs_op :=
  | OCreate (name : list Z) (size : Z)
  | OOpen (name : list Z)
  | ORemove (name : list Z)
  | OClose (fp : Z)
  | ORead (fp size : Z)
  | OWrite (fp : Z) (bytes : list Z)
  | OSeek (fp pos : Z)
  | OTell (fp : Z)
  | OLength (fp : Z)
  | ODeny (fp : Z)
  | OAllow (fp : Z).

Inductive fs_ret := RUnit | RBool (b : bool) | RNum (n : Z) | RBytes (bytes : list Z).

(** A file lives as long as it has a name or is open. *)
Definition alive (A : afs) (x : nat) : Prop :=
  (exists n, names A !! n = Some x) \/ (exists fp o, opened A !! fp = Some o /\ o_file o = x).

Definition swept (A A' : afs) : Prop :=
  forall x, (alive A' x -> store A' !! x = store A !! x) /\ (~ alive A' x -> store A' !! x = None).

Definition denied (A : afs) (x : nat) : Prop :=
  exists fp o, opened A !! fp = Some o /\ o_file o = x /\ o_deny o = true.

Definition set_opened (A : afs) (m : gmap Z ofile) : afs := AFS (names A) (store A) m.

(** Bytes from a position on. *)
Definition bytes_from (c : list Z) (pos n : Z) : list Z := slice_of c (Z.to_nat pos) (Z.to_nat n).
Definition room_at (c : list Z) (pos n : Z) : Z := Z.max 0 (Z.min n (alen c - pos)).

(** [full size] when there is no room for a new file of that size. *)
Definition spec_step (full : Z -> Prop) (o : fs_op) (r : fs_ret) (A A' : afs) : Prop :=
  match o, r with
  | OCreate name size, RBool true =>
    valid_name name /\ names A !! name = None /\ exists x, ~ alive A x /\
    A' = AFS (<[name := x]> (names A)) (<[x := replicate (Z.to_nat size) 0]> (store A)) (opened A)
  | OCreate name size, RBool false =>
    A' = A /\ (~ valid_name name \/ is_Some (names A !! name) \/ full size)
  | OOpen name, RNum fp =>
    match names A !! name with
    | None => fp = 0 /\ A' = A
    | Some x => 0 < fp /\ opened A !! fp = None /\ A' = set_opened A (<[fp := OFile x 0 false]> (opened A))
    end
  | ORemove name, RBool b =>
    b = bool_decide (is_Some (names A !! name)) /\ names A' = delete name (names A) /\ opened A' = opened A /\ swept A A'
  | OClose fp, RUnit => names A' = names A /\ opened A' = delete fp (opened A) /\ swept A A'
  | ORead fp size, RBytes bytes =>
    exists f c, opened A !! fp = Some f /\ store A !! o_file f = Some c /\
    bytes = bytes_from c (o_pos f) (room_at c (o_pos f) size) /\
    A' = set_opened A (<[fp := OFile (o_file f) (o_pos f + alen bytes) (o_deny f)]> (opened A))
  | OWrite fp bytes, RNum n =>
    exists f c, opened A !! fp = Some f /\ store A !! o_file f = Some c /\
    (denied A (o_file f) -> n = 0) /\ (~ denied A (o_file f) -> n = room_at c (o_pos f) (alen bytes)) /\
    A' = AFS (names A) (<[o_file f := splice c (Z.to_nat (o_pos f)) (take (Z.to_nat n) bytes)]> (store A))
             (<[fp := OFile (o_file f) (o_pos f + n) (o_deny f)]> (opened A))
  | OSeek fp pos, RUnit =>
    exists f, opened A !! fp = Some f /\ A' = set_opened A (<[fp := OFile (o_file f) pos (o_deny f)]> (opened A))
  | OTell fp, RNum n => exists f, opened A !! fp = Some f /\ n = o_pos f /\ A' = A
  | OLength fp, RNum n => exists f c, opened A !! fp = Some f /\ store A !! o_file f = Some c /\ n = alen c /\ A' = A
  | ODeny fp, RUnit => exists f, opened A !! fp = Some f /\ A' = set_opened A (<[fp := OFile (o_file f) (o_pos f) true]> (opened A))
  | OAllow fp, RUnit => exists f, opened A !! fp = Some f /\ A' = set_opened A (<[fp := OFile (o_file f) (o_pos f) false]> (opened A))
  | _, _ => False
  end.

(** What a caller has to respect: open handles, names without a null
    character, sizes and positions that the type of offsets can hold, and fewer
    open files than a count can count. *)
Definition fs_pre (o : fs_op) (A : afs) : Prop :=
  Z.of_nat (size (opened A)) < 2 ^ 31 - 8 /\
  match o with
  | OCreate name size => 0 ∉ name /\ 0 <= size < 2 ^ 31
  | OOpen name | ORemove name => 0 ∉ name
  | OClose fp | OTell fp | OLength fp | ODeny fp | OAllow fp => is_Some (opened A !! fp)
  | ORead fp size => 0 <= size /\ exists f, opened A !! fp = Some f /\ o_pos f + size < 2 ^ 31
  | OWrite fp bytes => exists f, opened A !! fp = Some f /\ o_pos f + alen bytes < 2 ^ 31
  | OSeek fp pos => is_Some (opened A !! fp) /\ 0 <= pos < 2 ^ 31
  end.

(** ** The operations of the code; [e] is what the stack held. *)
Definition run_fs (e : list Z) (o : fs_op) : M fsys fs_ret :=
  match o with
  | OCreate name size => b ← filesys_create name size e; mret (RBool b)
  | OOpen name => fp ← filesys_open name e; mret (RNum fp)
  | ORemove name => b ← filesys_remove name e; mret (RBool b)
  | OClose fp => file_close fp;; mret RUnit
  | ORead fp size => r ← file_read fp (replicate (Z.to_nat size) 0) size; mret (RBytes (take (Z.to_nat r.1) r.2))
  | OWrite fp bytes => n ← file_write fp bytes (alen bytes); mret (RNum n)
  | OSeek fp pos => file_seek fp pos;; mret RUnit
  | OTell fp => n ← file_tell fp; mret (RNum n)
  | OLength fp => n ← file_length fp; mret (RNum n)
  | ODeny fp => file_deny_write fp;; mret RUnit
  | OAllow fp => file_allow_write fp;; mret RUnit
  end.

(** ** Representation *)
Definition ofile_of (s : fsys) (fp : Z) (f : file) : option ofile :=
  if fp =? free_map_file s then None
  else i ← inodes s !! f_inode f; Some (OFile (Z.to_nat (sector i)) (f_pos f) (f_deny_write f)).

Definition abs_of (s : fsys) (L : gmap nat inode_disk) (es : list (list Z)) : afs :=
  AFS (dmap es) (filter (fun kv => 2 <= kv.1)%nat (fdata (disk s) <$> L)) (map_imap (ofile_of s) (files s)).

Definition represents (s : fsys) (A : afs) : Prop := exists bs L es, fs_ok s bs L es /\ A = abs_of s L es.

(** There is no room: in the map of free sectors or in the directory. *)
Definition is_full (s : fsys) (size : Z) : Prop := exists bs L es, fs_ok s bs L es /\ no_room bs es size.

Lemma abs_store s L es x c :
  store (abs_of s L es) !! x = Some c <-> exists d, L !! x = Some d /\ (2 <= x)%nat /\ c = fdata (disk s) d.
Proof.
  simpl. rewrite map_lookup_filter_Some, lookup_fmap, fmap_Some. simpl. naive_solver.
Qed.

Lemma abs_opened s L es fp o :
  opened (abs_of s L es) !! fp = Some o <-> exists f i, files s !! fp = Some f /\ inodes s !! f_inode f = Some i /\
    fp <> free_map_file s /\ o = OFile (Z.to_nat (sector i)) (f_pos f) (f_deny_write f).
Proof.
  simpl. rewrite map_lookup_imap. unfold ofile_of. destruct (files s !! fp) as [f|]; simpl.
  - destruct (Z.eqb_spec fp (free_map_file s)) as [E|E].
    + split; [done|]. by intros (? & ? & _ & _ & ? & _).
    + destruct (inodes s !! f_inode f) as [i|] eqn:Ei; simpl; [|naive_solver]. split; [intros [= <-]; eauto 10|].
      intros (f' & i' & [= <-] & E' & _ & ->). congruence.
  - split; [done|]. by intros (? & ? & ? & _).
Qed.

(** An open handle. *)
Lemma abs_handle s bs L es fp o :
  fs_ok s bs L es -> opened (abs_of s L es) !! fp = Some o ->
  exists f i, files s !! fp = Some f /\ inodes s !! f_inode f = Some i /\ fp <> free_map_file s /\ fp <> 0 /\ 2 <= sector i /\
    o = OFile (Z.to_nat (sector i)) (f_pos f) (f_deny_write f) /\ L !! Z.to_nat (sector i) = Some (data i) /\ 0 <= f_pos f /\
    store (abs_of s L es) !! o_file o = Some (fdata (disk s) (data i)).
Proof.
  intros H (f & i & Hf & Hi & Hne & ->)%abs_opened. pose proof (fk_user _ _ _ _ H fp f i Hf Hi Hne) as Hu.
  pose proof (io_stored _ _ _ _ _ _ (mo_inodes _ _ _ _ (co_mem _ _ _ _ _ _ (fk_core _ _ _ _ H)) _ i Hi)) as HL.
  destruct (fk_files _ _ _ _ H fp f Hf) as [Hfp Hpos]. exists f, i. split_and!; try done; try lia.
  apply abs_store. exists (data i). simpl. split_and!; try done. lia.
Qed.

Lemma abs_few s bs L es : fs_ok s bs L es -> Z.of_nat (size (opened (abs_of s L es))) < 2 ^ 31 - 8 -> few s.
Proof.
  intros H Hs. unfold few. rewrite (fk_dirs _ _ _ _ H), map_size_empty.
  assert (size (files s) <= S (size (opened (abs_of s L es))))%nat; [|lia].
  rewrite <- !size_dom. transitivity (size (({[ free_map_file s ]} : gset Z) ∪ dom (opened (abs_of s L es)))).
  - apply subseteq_size. intros fp [f Hf]%elem_of_dom. destruct (decide (fp = free_map_file s)) as [->|Hne]; [set_solver|].
    destruct (fs_file_inode _ _ _ _ _ _ H Hf) as [i Hi]. apply elem_of_union_r, elem_of_dom. eexists. apply abs_opened. eauto 10.
  - rewrite size_union_alt, size_singleton. apply le_n_S, subseteq_size. set_solver.
Qed.

(** The files that are stored are those that are alive. *)
Lemma abs_alive s bs L es x : fs_ok s bs L es -> alive (abs_of s L es) x <-> is_Some (L !! x) /\ (2 <= x)%nat.
Proof.
  intros H. pose proof (fk_core _ _ _ _ H) as [K1 K2 K3 K4 K5 K6 K7 K8 K9 K10 K11]. split.
  - intros [[n Hn]|(fp & o & Ho & <-)]; [by destruct (K7 n x Hn)|].
    destruct (abs_handle _ _ _ _ _ _ H Ho) as (f & i & _ & _ & _ & _ & Hs & -> & HL & _). simpl. split; [eauto|lia].
  - intros [[d Hd] H2]. destruct (K9 x d Hd H2) as [[n Hn]|(ip & i & Hi & Es)]; [left; by exists n|right].
    destruct (io_live _ _ _ _ _ _ (mo_inodes _ _ _ _ K3 ip i Hi)) as [Hpos _]. unfold refs in Hpos.
    rewrite (fk_dirs _ _ _ _ H), mcount_empty in Hpos.
    destruct (mcount_pos (fun f => f_inode f =? ip) (files s)) as (fp & f & Hf & <-%Z.eqb_eq); [lia|].
    exists fp, (OFile x (f_pos f) (f_deny_write f)). split; [|done]. apply abs_opened. exists f, i. split_and!; try done; [|f_equal; lia].
    intros ->. destruct (mp_file _ _ _ K1 (proj2 K4)) as (f0 & i0 & G1 & G2 & _ & G4 & _).
    assert (f0 = f) as -> by congruence. assert (i0 = i) as -> by congruence. lia.
Qed.

Lemma abs_swept s s' bs bs' L L' es es' :
  fs_ok s bs L es -> fs_ok s' bs' L' es' -> L' ⊆ L -> data_same (disk s) (disk s') L' (fun y => y < 2)%nat ->
  swept (abs_of s L es) (abs_of s' L' es').
Proof.
  intros H H' Hsub Hd x. split.
  - intros [[d Hx] H2]%(abs_alive _ _ _ _ _ H'). pose proof (lookup_weaken _ _ _ _ Hx Hsub) as Hx'.
    transitivity (Some (fdata (disk s) d)); [|symmetry]; apply abs_store; exists d; split_and!; try done.
    symmetry. apply (Hd x d Hx). lia.
  - intros Hna. apply eq_None_not_Some. intros [c (d & Hx & H2 & _)%abs_store]. apply Hna. apply (abs_alive _ _ _ _ _ H'). eauto.
Qed.

(** Open files that an operation did not touch. *)
Lemma abs_opened_same s s' bs bs' L L' es es' :
  fs_ok s bs L es -> fs_ok s' bs' L' es' -> files s' = files s -> evolves s s' ->
  opened (abs_of s' L' es') = opened (abs_of s L es).
Proof.
  intros H H' Ef E. apply map_eq. intros fp. simpl. rewrite !map_lookup_imap, Ef. destruct (files s !! fp) as [f|] eqn:Hf; [|done].
  simpl. unfold ofile_of. rewrite (ev_map_file _ _ E). destruct (fp =? free_map_file s); [done|].
  destruct (fs_file_inode _ _ _ _ fp f H') as [i' Hi']; [by rewrite Ef|].
  destruct (evolves_file _ _ _ _ _ _ _ _ H E Hf Hi') as (i & Hi & Es). rewrite Hi, Hi'. simpl. by rewrite Es.
Qed.

Lemma abs_store_same s s' L es es' :
  data_same (disk s) (disk s') L (fun y => y < 2)%nat -> store (abs_of s' L es') = store (abs_of s L es).
Proof.
  intros Hd. apply map_eq. intros x. apply option_eq. intros c. rewrite !abs_store. split; intros (d & Hx & H2 & ->); exists d; split_and!; try done.
  - apply (Hd x d Hx). lia.
  - symmetry. apply (Hd x d Hx). lia.
Qed.

Lemma afs_eq A B : names A = names B -> store A = store B -> opened A = opened B -> A = B.
Proof. destruct A, B. simpl. by intros -> -> ->. Qed.

(** ** The operations do what the specification says *)
Lemma abs_put_file s s' L es fp i f' :
  files s' = <[fp := f']> (files s) -> free_map_file s' = free_map_file s -> fp <> free_map_file s ->
  inodes s' !! f_inode f' = Some i ->
  (forall gp g, gp <> fp -> files s !! gp = Some g -> ofile_of s' gp g = ofile_of s gp g) ->
  opened (abs_of s' L es) = <[fp := OFile (Z.to_nat (sector i)) (f_pos f') (f_deny_write f')]> (opened (abs_of s L es)).
Proof.
  intros Ef Em Hne Hi Ho. apply map_eq. intros gp. simpl. rewrite map_lookup_imap, Ef. destruct (decide (gp = fp)) as [->|Hg].
  - rewrite !lookup_insert_eq. simpl. unfold ofile_of. rewrite Em, (proj2 (Z.eqb_neq _ _)) by done. by rewrite Hi.
  - rewrite !lookup_insert_ne by done. rewrite map_lookup_imap. destruct (files s !! gp) as [g|] eqn:Hgp; [|done]. simpl. by apply Ho.
Qed.

Lemma fs_ok_put_file s bs L es fp f f' :
  fs_ok s bs L es -> files s !! fp = Some f -> f_inode f' = f_inode f -> f_deny_write f' = f_deny_write f -> 0 <= f_pos f' ->
  fs_ok (set_files (<[fp := f']> (files s)) s) bs L es.
Proof.
  intros H Hf Ei Ed Hpos. destruct (fk_files _ _ _ _ H fp f Hf) as [Hfp _]. split; simpl.
  - eapply core_ext; [| |apply (core_put_file s bs L es _ _ fp f f'); [apply H|done|done]]; intros jp; symmetry; [by apply (refs_put_file s fp f)|].
    pose proof (denies_put_file s fp f f' jp Hf Ei) as E. rewrite Ed in E. lia.
  - apply H.
  - apply map_Forall_insert_2; [done|apply H].
  - intros gp g i Hg Hi Hne. rewrite lookup_insert_Some in Hg. destruct Hg as [[<- <-]|[_ Hg]].
    + rewrite Ei in Hi. by apply (fk_user _ _ _ _ H fp f).
    + by apply (fk_user _ _ _ _ H gp g).
Qed.

(** A new position of an open file. *)
Lemma move_ok s bs L es fp f i pos :
  fs_ok s bs L es -> files s !! fp = Some f -> inodes s !! f_inode f = Some i -> fp <> free_map_file s -> 0 <= pos ->
  represents (set_files (<[fp := File (f_inode f) pos (f_deny_write f)]> (files s)) s)
    (set_opened (abs_of s L es) (<[fp := OFile (Z.to_nat (sector i)) pos (f_deny_write f)]> (opened (abs_of s L es)))).
Proof.
  intros H Hf Hi Hne Hpos. exists bs, L, es. split; [by eapply fs_ok_put_file|]. apply afs_eq; [done..|].
  symmetry. by apply (abs_put_file s _ L es fp i (File (f_inode f) pos (f_deny_write f))).
Qed.

(** The invariant after reading, or writing data. *)
Lemma fs_ok_data s s' bs L es :
  fs_ok s bs L es -> map_ok s' bs L -> synced s' bs L -> mem_same s s' -> data_same (disk s) (disk s') L (fun y => 2 <= y)%nat ->
  fs_ok s' bs L es.
Proof.
  intros H Hm Hs M Hd. pose proof (ms_files _ _ M) as Ef. eapply fs_ok_kept; [exact H| |by rewrite (ms_dirs _ _ M), (fk_dirs _ _ _ _ H)|done|by apply mem_same_evolves].
  destruct (fk_core _ _ _ _ H) as [K1 K2 K3 K4 K5 K6 K7 K8 K9 K10 K11]. pose proof (ms_inodes _ _ M) as Ei. pose proof (ms_dirs _ _ M) as Ed.
  eapply (core_ext _ _ _ _ (refs s) _ (denies s)); [intros; symmetry; by apply refs_same|intros; symmetry; by apply denies_same|].
  split; rewrite ?Ei; try done; [by eapply mem_ok_same|by rewrite (ms_map_file _ _ M), (ms_files _ _ M)|].
  destruct K5 as (d & HL & Hdd). exists d. split; [done|]. rewrite <- Hdd. apply (Hd 1%nat); [done|lia].
Qed.

(** Reading into any buffer that is large enough. *)
Lemma file_read_ok s A fp o c buffer size :
  represents s A -> opened A !! fp = Some o -> store A !! o_file o = Some c ->
  0 <= size <= alen buffer -> o_pos o + size < 2 ^ 31 ->
  wp (file_read fp buffer size) (fun r s' =>
    r = (room_at c (o_pos o) size, splice buffer 0 (bytes_from c (o_pos o) (room_at c (o_pos o) size))) /\
    represents s' (set_opened A (<[fp := OFile (o_file o) (o_pos o + room_at c (o_pos o) size) (o_deny o)]> (opened A)))) s.
Proof.
  intros (bs & L & es & H & ->) Ho Hc Hsize Hpos.
  destruct (abs_handle _ _ _ _ _ _ H Ho) as (f & i & Hf & Hi & Hne & _ & Hsec & -> & HL & Hp & Hst). simpl in Hpos, Hst, Hc.
  rewrite Hst in Hc. injection Hc as <-.
  unfold file_read. wp_step. eapply wp_eq; [by apply get_file_ok|]. wp_step.
  pose proof (fk_core _ _ _ _ H) as Hc.
  eapply wp_mono.
  { apply (read_file_ok s bs L (f_inode f) i (Z.to_nat (sector i)) (co_map _ _ _ _ _ _ Hc) Hi HL); done. }
  intros [n b] s1 (Hm1 & M1 & D1 & F1 & En & Eb). simpl in En, Eb. unfold put_file. do 2 wp_step. cbn [fst snd].
  pose proof (fdata_length _ _ _ _ (mp_disk _ _ _ (co_map _ _ _ _ _ _ Hc)) HL) as Hlen.
  pose proof (id_length _ (st_ok _ _ _ (dk_stored _ _ (mp_disk _ _ _ (co_map _ _ _ _ _ _ Hc)) _ _ HL))) as Hil.
  set (c := fdata (disk s) (data i)) in *. unfold avail in En. cbn [o_pos o_file o_deny].
  assert (n = room_at c (f_pos f) size) as En' by (unfold room_at, alen; lia). rewrite <- En'.
  assert (n <= size) by (unfold room_at in En'; lia).
  assert (fs_ok s1 bs L es) as H1.
  { eapply fs_ok_data; try done; [eapply synced_disk; [exact D1|apply Hc]|by apply data_same_disk]. }
  assert (files s1 !! fp = Some f) as Hf1 by (by rewrite (ms_files _ _ M1)).
  assert (inodes s1 !! f_inode f = Some i) as Hi1 by (by rewrite (ms_inodes _ _ M1)).
  rewrite swrap_small by lia. split; [by rewrite Eb|].
  replace (abs_of s L es) with (abs_of s1 L es); [apply (move_ok s1 bs L es fp f i (f_pos f + n) H1 Hf1 Hi1); [by rewrite (ms_map_file _ _ M1)|lia]|].
  apply afs_eq; [done|by apply abs_store_same, data_same_disk|]. eapply abs_opened_same; [exact H|exact H1|apply M1|by apply mem_same_evolves].
Qed.

(** An open file has its bytes. *)
Lemma opened_store s A fp o : represents s A -> opened A !! fp = Some o -> is_Some (store A !! o_file o).
Proof.
  intros (bs & L & es & H & ->) Ho.
  destruct (abs_handle _ _ _ _ _ _ H Ho) as (f & i & _ & _ & _ & _ & _ & _ & _ & _ & Hst). eauto.
Qed.

Lemma length_room c pos n : 0 <= pos -> alen (bytes_from c pos (room_at c pos n)) = room_at c pos n.
Proof. intros. unfold alen, bytes_from, slice_of. rewrite length_take, length_drop. unfold room_at, alen. lia. Qed.

Lemma opened_pos s A fp o : represents s A -> opened A !! fp = Some o -> 0 <= o_pos o.
Proof.
  intros (bs & L & es & H & ->) Ho.
  destruct (abs_handle _ _ _ _ _ _ H Ho) as (f & i & _ & _ & _ & _ & _ & -> & _ & Hp & _). done.
Qed.

Lemma read_op_ok s A fp size :
  represents s A -> fs_pre (ORead fp size) A ->
  wp (r ← file_read fp (replicate (Z.to_nat size) 0) size; mret (RBytes (take (Z.to_nat r.1) r.2)))
    (fun r s' => exists A', spec_step (is_full s) (ORead fp size) r A A' /\ represents s' A') s.
Proof.
  intros Hrep (_ & Hsize & o & Ho & Hpos). destruct (opened_store _ _ _ _ Hrep Ho) as [c Hc].
  pose proof (opened_pos _ _ _ _ Hrep Ho) as Hp. wp_step.
  eapply wp_mono; [eapply file_read_ok; try done; unfold alen; rewrite length_replicate; lia|].
  intros r s' [-> Hrep']. wp_step. cbn [fst snd]. pose proof (length_room c (o_pos o) size Hp) as Hl. unfold alen in Hl.
  eexists. split; [|exact Hrep']. exists o, c. unfold splice. rewrite take_0, app_nil_l, take_app_length' by lia.
  split_and!; try done. unfold alen. by rewrite Hl.
Qed.

Lemma file_seek_ok s A fp o pos :
  represents s A -> opened A !! fp = Some o -> 0 <= pos ->
  wp (file_seek fp pos) (fun _ s' => represents s' (set_opened A (<[fp := OFile (o_file o) pos (o_deny o)]> (opened A)))) s.
Proof.
  intros (bs & L & es & H & ->) Ho Hpos.
  destruct (abs_handle _ _ _ _ _ _ H Ho) as (f & i & Hf & Hi & Hne & Hfp & Hsec & -> & HL & Hp & Hst).
  unfold file_seek. wp_step. apply wp_assert; [by rewrite (proj2 (Z.eqb_neq _ _))|]. wp_step. apply wp_assert; [lia|]. wp_step.
  eapply wp_eq; [by apply get_file_ok|]. unfold put_file. wp_step. by apply (move_ok s bs L es fp f i pos).
Qed.

Lemma file_length_ok s A fp o c :
  represents s A -> opened A !! fp = Some o -> store A !! o_file o = Some c -> file_length fp s = Ok (alen c, s).
Proof.
  intros (bs & L & es & H & ->) Ho Hc.
  destruct (abs_handle _ _ _ _ _ _ H Ho) as (f & i & Hf & Hi & Hne & Hfp & Hsec & -> & HL & Hp & Hst).
  cut (wp (file_length fp) (fun r s' => r = alen c /\ s' = s) s); [by intros (r & s' & -> & -> & ->)%wp_iff|].
  unfold file_length. wp_step. apply wp_assert; [by rewrite (proj2 (Z.eqb_neq _ _))|]. wp_step. eapply wp_eq; [by apply get_file_ok|].
  unfold inode_length. wp_step. eapply wp_eq; [by apply get_inode_ok|]. wp_step. split; [|done]. rewrite Hst in Hc. injection Hc as <-.
  pose proof (mp_disk _ _ _ (co_map _ _ _ _ _ _ (fk_core _ _ _ _ H))) as Hdk.
  pose proof (id_length _ (st_ok _ _ _ (dk_stored _ _ Hdk _ _ HL))). unfold alen. rewrite (fdata_length _ _ _ _ Hdk HL). lia.
Qed.

Lemma abs_denied s bs L es ip i :
  fs_ok s bs L es -> inodes s !! ip = Some i -> 2 <= sector i ->
  denied (abs_of s L es) (Z.to_nat (sector i)) <-> deny_write_cnt i <> 0.
Proof.
  intros H Hi Hs. pose proof (co_mem _ _ _ _ _ _ (fk_core _ _ _ _ H)) as Hmem.
  rewrite (io_deny _ _ _ _ _ _ (mo_inodes _ _ _ _ Hmem ip i Hi)). unfold denies. split.
  - intros (fp & o & Ho & Ex & Ed). destruct (abs_handle _ _ _ _ _ _ H Ho) as (f & j & Hf & Hj & _ & _ & Hj2 & -> & _). simpl in Ex, Ed.
    assert (f_inode f = ip) as <- by (apply (mo_inj _ _ _ _ Hmem _ _ j i); [done..|lia]).
    pose proof (mcount_delete (fun g => f_deny_write g && (f_inode g =? f_inode f)) (files s) fp f Hf) as E. cbv beta in E.
    rewrite Ed, Z.eqb_refl in E. simpl in E. lia.
  - intros Hpos. destruct (mcount_pos (fun g => f_deny_write g && (f_inode g =? ip)) (files s)) as (fp & f & Hf & Hb); [lia|].
    apply andb_true_iff in Hb as [Ed <-%Z.eqb_eq]. exists fp, (OFile (Z.to_nat (sector i)) (f_pos f) true). split; [|done].
    apply abs_opened. exists f, i. split_and!; try done; [|by rewrite Ed]. intros ->.
    destruct (mp_file _ _ _ (co_map _ _ _ _ _ _ (fk_core _ _ _ _ H)) (proj2 (co_file _ _ _ _ _ _ (fk_core _ _ _ _ H)))) as (f0 & i0 & G1 & G2 & _ & G4 & _).
    assert (f0 = f) as -> by congruence. assert (i0 = i) as -> by congruence. lia.
Qed.

Lemma abs_store_write s s' L es es' x d c :
  L !! x = Some d -> (2 <= x)%nat -> data_same (disk s) (disk s') L (eq x) -> fdata (disk s') d = c ->
  store (abs_of s' L es') = <[x := c]> (store (abs_of s L es)).
Proof.
  intros HL Hx Hd Ec. apply map_eq. intros y. apply option_eq. intros c'. rewrite abs_store, lookup_insert_Some. split.
  - intros (e & Hy & H2 & ->). destruct (decide (x = y)) as [<-|Hne]; [left; split; [done|]; by replace e with d by congruence|].
    right. split; [done|]. apply abs_store. exists e. split_and!; try done. by apply (Hd y e Hy).
  - intros [[<- <-]|[Hne (e & Hy & H2 & ->)%abs_store]]; [by exists d|]. exists e. split_and!; try done. symmetry. by apply (Hd y e Hy).
Qed.

Lemma write_op_ok s A fp bytes :
  represents s A -> fs_pre (OWrite fp bytes) A ->
  wp (n ← file_write fp bytes (alen bytes); mret (RNum n))
    (fun r s' => exists A', spec_step (is_full s) (OWrite fp bytes) r A A' /\ represents s' A') s.
Proof.
  intros (bs & L & es & H & ->) (_ & o & Ho & Hpos).
  destruct (abs_handle _ _ _ _ _ _ H Ho) as (f & i & Hf & Hi & Hne & _ & Hsec & -> & HL & Hp & Hst). simpl in Hpos, Hst.
  unfold file_write. do 2 wp_step. eapply wp_eq; [by apply get_file_ok|]. wp_step.
  pose proof (fk_core _ _ _ _ H) as Hc. pose proof (alen_nonneg bytes) as Hn0.
  eapply wp_mono.
  { by apply (write_file_ok s bs L (f_inode f) i (Z.to_nat (sector i)) (co_map _ _ _ _ _ _ Hc) Hi HL); [lia|done|lia|]. }
  intros n s1 (Hm1 & M1 & Sy1 & D1 & En & Ec). unfold put_file. do 3 wp_step.
  pose proof (fdata_length _ _ _ _ (mp_disk _ _ _ (co_map _ _ _ _ _ _ Hc)) HL) as Hlen.
  pose proof (id_length _ (st_ok _ _ _ (dk_stored _ _ (mp_disk _ _ _ (co_map _ _ _ _ _ _ Hc)) _ _ HL))) as Hil.
  set (c := fdata (disk s) (data i)) in *. unfold avail in En.
  assert (fs_ok s1 bs L es) as H1.
  { eapply fs_ok_data; try done; [apply Sy1, Hc|]. eapply data_same_mono; [exact D1|]. intros y <-. lia. }
  assert (files s1 !! fp = Some f) as Hf1 by (by rewrite (ms_files _ _ M1)).
  assert (inodes s1 !! f_inode f = Some i) as Hi1 by (by rewrite (ms_inodes _ _ M1)).
  assert (0 <= n /\ f_pos f + n < 2 ^ 31) as Hnb by (destruct (deny_write_cnt i =? 0); lia).
  rewrite swrap_small by lia. eexists. split; [|apply (move_ok s1 bs L es fp f i (f_pos f + n) H1 Hf1 Hi1); [by rewrite (ms_map_file _ _ M1)|lia]].
  eexists _, c. split; [exact Ho|]. split; [exact Hst|]. cbn [o_pos o_file o_deny].
  pose proof (abs_denied s bs L es (f_inode f) i H Hi Hsec) as Hden. split_and!.
  - intros Hd%Hden. by rewrite (proj2 (Z.eqb_neq _ _)) in En by done.
  - intros Hd. destruct (Z.eqb_spec (deny_write_cnt i) 0) as [E|E]; [|by apply Hden in E]. rewrite En. unfold room_at, alen in *. lia.
  - apply afs_eq; [done| |].
    + apply (abs_store_write s s1 L es es _ (data i)); try done. lia.
    + simpl. f_equal. eapply (abs_opened_same s s1 bs bs L L es es); [exact H|exact H1|apply M1|by apply mem_same_evolves].
Qed.

Lemma create_op_ok s A name size e :
  represents s A -> fs_pre (OCreate name size) A -> length e = ESZ ->
  wp (run_fs e (OCreate name size)) (fun r s' => exists A', spec_step (is_full s) (OCreate name size) r A A' /\ represents s' A') s.
Proof.
  intros (bs & L & es & H & ->) (Hfew & Hz & Hsize) He. simpl. wp_step.
  eapply wp_mono; [apply (filesys_create_ok s bs L es); try done; by eapply abs_few|].
  intros b s' (Ef & E & G). wp_step. destruct b.
  - destruct G as (Hv & Hn & bs' & x & d & es' & Hx2 & HLx & H' & Hdm & Hz' & Hd). exists (abs_of s' (<[x := d]> L) es').
    split; [|by exists bs', (<[x := d]> L), es']. split_and!; try done. exists x. split.
    + rewrite (abs_alive s bs) by done. intros [[? ?] _]. congruence.
    + apply afs_eq; [done| |by eapply abs_opened_same]. simpl. apply map_eq. intros y. apply option_eq. intros c.
      rewrite lookup_insert_Some. change (store (abs_of s' (<[x := d]> L) es') !! y = Some c <-> (x = y /\ replicate (Z.to_nat size) 0 = c) \/ (x <> y /\ store (abs_of s L es) !! y = Some c)).
      rewrite !abs_store. split.
      * intros (e' & Hy & H2 & ->). rewrite lookup_insert_Some in Hy. destruct Hy as [[<- <-]|[Hne Hy]]; [by left|right].
        split; [done|]. exists e'. split_and!; try done. apply (Hd y e' Hy). lia.
      * intros [[<- <-]|[Hne (e' & Hy & H2 & ->)]]; [exists d; by rewrite lookup_insert_eq|]. exists e'.
        rewrite lookup_insert_ne by done. split_and!; try done. symmetry. apply (Hd y e' Hy). lia.
  - destruct G as ([bs' H'] & Hd & Hwhy). exists (abs_of s L es). split.
    + split; [done|]. destruct Hwhy as [?|[?|?]]; [by left|right; by left|]. right. right. by exists bs, L, es.
    + exists bs', L, es. split; [done|]. apply afs_eq; [done|symmetry; by apply abs_store_same|symmetry; by eapply abs_opened_same].
Qed.

Lemma open_op_ok s A name e :
  represents s A -> fs_pre (OOpen name) A -> length e = ESZ ->
  wp (run_fs e (OOpen name)) (fun r s' => exists A', spec_step (is_full s) (OOpen name) r A A' /\ represents s' A') s.
Proof.
  intros (bs & L & es & H & ->) (Hfew & Hz) He. simpl. wp_step.
  eapply wp_mono; [apply (filesys_open_ok s bs L es); try done; by eapply abs_few|].
  intros fp s' (bs' & H' & Hd & E & G). wp_step. exists (abs_of s' L es). split; [|by exists bs', L, es]. simpl.
  assert (store (abs_of s' L es) = store (abs_of s L es)) as Es by (apply abs_store_same; eapply data_same_mono; [exact Hd|lia]).
  destruct (dmap es !! name) as [x|].
  - destruct G as (Hfp & Hnew & Hne & ip & i & Ef & Hi & Esec). split_and!; try done.
    + rewrite map_lookup_imap, Hnew. done.
    + apply afs_eq; [done|exact Es|]. simpl. rewrite <- (Nat2Z.id x), <- Esec.
      apply (abs_put_file s s' L es fp i (File ip 0 false)); try done; [apply E|]. intros gp g Hg Hgf. unfold ofile_of.
      rewrite (ev_map_file _ _ E). destruct (gp =? free_map_file s); [done|].
      destruct (fs_file_inode _ _ _ _ gp g H') as [i' Hi']; [by rewrite Ef, lookup_insert_ne|].
      destruct (evolves_file _ _ _ _ _ _ _ _ H E Hgf Hi') as (i0 & Hi0 & Es0). rewrite Hi0, Hi'. simpl. by rewrite Es0.
  - destruct G as (-> & Ef). split; [done|]. apply afs_eq; [done|exact Es|by eapply abs_opened_same].
Qed.

Lemma remove_op_ok s A name e :
  represents s A -> fs_pre (ORemove name) A -> length e = ESZ ->
  wp (run_fs e (ORemove name)) (fun r s' => exists A', spec_step (is_full s) (ORemove name) r A A' /\ represents s' A') s.
Proof.
  intros (bs & L & es & H & ->) (Hfew & Hz) He. simpl. wp_step.
  eapply wp_mono; [apply (filesys_remove_ok s bs L es); try done; by eapply abs_few|].
  intros b s' (Ef & E & G). wp_step. destruct (dmap es !! name) as [x|] eqn:Ex.
  - destruct G as (-> & bs' & L' & es' & H' & Hdm & Hd & HL). exists (abs_of s' L' es'). split; [|by exists bs', L', es'].
    simpl. split_and!; try done; [by eapply (abs_opened_same s s')|]. eapply abs_swept; try done.
    destruct HL as [[_ ->]|[_ ->]]; [done|apply delete_subseteq].
  - destruct G as (-> & bs' & H' & Hd). exists (abs_of s' L es). split; [|by exists bs', L, es]. simpl. split_and!; try done.
    + by rewrite delete_id.
    + by eapply (abs_opened_same s s').
    + eapply abs_swept; try done. eapply data_same_mono; [exact Hd|lia].
Qed.

Lemma close_op_ok s A fp e :
  represents s A -> fs_pre (OClose fp) A ->
  wp (run_fs e (OClose fp)) (fun r s' => exists A', spec_step (is_full s) (OClose fp) r A A' /\ represents s' A') s.
Proof.
  intros (bs & L & es & H & ->) (_ & o & Ho). simpl. wp_step.
  destruct (abs_handle _ _ _ _ _ _ H Ho) as (f & i & Hf & Hi & Hne & Hfp & Hsec & _).
  eapply wp_mono; [apply (file_close_ok s bs L es fp f i); try done; apply H|].
  intros [] s' (bs' & L' & H1 & Ef & Ed & E & Hd & HL). wp_step.
  assert (fs_ok s' bs' L' es) as H'.
  { split; [done|by rewrite Ed, (fk_dirs _ _ _ _ H)| |].
    - rewrite Ef. intros gp g [_ Hg]%lookup_delete_Some. destruct (fk_files _ _ _ _ H gp g Hg). pose proof (ev_fresh _ _ E). lia.
    - intros gp g j Hg Hj Hgne. rewrite Ef, lookup_delete_Some in Hg. destruct Hg as [_ Hg]. rewrite (ev_map_file _ _ E) in Hgne.
      destruct (evolves_file _ _ _ _ _ _ _ _ H E Hg Hj) as (j0 & Hj0 & ->). by apply (fk_user _ _ _ _ H gp g j0). }
  exists (abs_of s' L' es). split; [|by exists bs', L', es]. split_and!; [done| |].
  - apply map_eq. intros gp. simpl. rewrite map_lookup_imap, Ef. destruct (decide (gp = fp)) as [->|Hg]; [by rewrite !lookup_delete_eq|].
    rewrite !lookup_delete_ne by done. rewrite map_lookup_imap. destruct (files s !! gp) as [g|] eqn:Hgf; [|done]. simpl. unfold ofile_of.
    rewrite (ev_map_file _ _ E). destruct (gp =? free_map_file s); [done|].
    destruct (fs_file_inode _ _ _ _ gp g H') as [i' Hi']; [by rewrite Ef, lookup_delete_ne|].
    destruct (evolves_file _ _ _ _ _ _ _ _ H E Hgf Hi') as (i0 & Hi0 & Es0). rewrite Hi0, Hi'. simpl. by rewrite Es0.
  - eapply abs_swept; try done; [|eapply data_same_mono; [exact Hd|lia]]. rewrite HL. case_match; [apply delete_subseteq|done].
Qed.

(** The flag of a file that denies writes. *)
Lemma flag_op_ok s s' bs L es fp f i v :
  fs_ok s bs L es -> files s !! fp = Some f -> inodes s !! f_inode f = Some i -> fp <> free_map_file s ->
  flagged s bs L es fp f i v s' ->
  represents s' (set_opened (abs_of s L es) (<[fp := OFile (Z.to_nat (sector i)) (f_pos f) v]> (opened (abs_of s L es)))).
Proof.
  intros H Hf Hi Hne (H1 & Ef & Ed & D & F & E & Efr & i' & Hi' & Es & _).
  assert (fs_ok s' bs L es) as H'.
  { split; [done|by rewrite Ed, (fk_dirs _ _ _ _ H)| |].
    - rewrite Ef, Efr. apply map_Forall_insert_2; [by apply (fk_files _ _ _ _ H fp f)|apply H].
    - intros gp g j Hg Hj Hgne. rewrite (ev_map_file _ _ E) in Hgne. rewrite Ef, lookup_insert_Some in Hg. destruct Hg as [[<- <-]|[_ Hg]].
      + simpl in Hj. assert (j = i') as -> by congruence. rewrite Es. by apply (fk_user _ _ _ _ H fp f).
      + destruct (evolves_file _ _ _ _ _ _ _ _ H E Hg Hj) as (j0 & Hj0 & ->). by apply (fk_user _ _ _ _ H gp g j0). }
  exists bs, L, es. split; [done|]. apply afs_eq; [done|symmetry; by apply abs_store_same, data_same_disk|]. simpl. rewrite <- Es. symmetry.
  apply (abs_put_file s s' L es fp i' (File (f_inode f) (f_pos f) v)); try done; [apply E|]. intros gp g Hg Hgf. unfold ofile_of.
  rewrite (ev_map_file _ _ E). destruct (gp =? free_map_file s); [done|].
  destruct (fs_file_inode _ _ _ _ gp g H') as [j' Hj']; [by rewrite Ef, lookup_insert_ne|].
  destruct (evolves_file _ _ _ _ _ _ _ _ H E Hgf Hj') as (i0 & Hi0 & Es0). rewrite Hi0, Hj'. simpl. by rewrite Es0.
Qed.
