(* ===== verification/FsMount.v ===== *)
(** * Formatting and mounting

    Formatting a device gives an empty file system, and mounting a file system
    that was used before gives back its names and files. *)

From S2P Require Import Prelude Bitmap Block Inode FreeMap Filesys FsDisk FsInv FsDir FsCore FsFiles FsNames FsSpec.

(** ** Reading the free map *)
Lemma last_mask_bits b k :
  0 <= bit_cnt b -> 0 <= k < 32 -> Z.testbit (last_mask b) k = (bit_cnt b mod 32 =? 0) || (k <? bit_cnt b mod 32).
Proof.
  intros Hb Hk. unfold last_mask, ELEM_BITS. pose proof (Z.mod_pos_bound (bit_cnt b) 32 ltac:(lia)) as Hm.
  destruct (Z.eqb_spec (bit_cnt b mod 32) 0) as [E|E]; cbn [negb orb].
  - change (u32 (-1)) with (Z.ones 32). rewrite Z.ones_spec_low; [done|lia].
  - rewrite Z.shiftl_1_l, wrap_small.
    + replace (2 ^ (bit_cnt b mod 32) - 1) with (Z.ones (bit_cnt b mod 32)) by (rewrite Z.ones_equiv; lia).
      destruct (Z.ltb_spec k (bit_cnt b mod 32)); [by rewrite Z.ones_spec_low by lia|by rewrite Z.ones_spec_high by lia].
    + pose proof (Z.pow_le_mono_r 2 (bit_cnt b mod 32) 32 ltac:(lia) ltac:(lia)).
      pose proof (Z.pow_pos_nonneg 2 (bit_cnt b mod 32) ltac:(lia) ltac:(lia)). lia.
Qed.

(** Masking the spare bits of the last word does not change the bitmap. *)
Lemma is_bitmap_masked ws rest bs w :
  is_bitmap (Bitmap (alen bs) ws) bs -> 0 < alen bs -> alen bs < 2 ^ 31 -> length ws = Z.to_nat (elem_cnt (alen bs)) ->
  alen bs <= 32 * elem_cnt (alen bs) < alen bs + 32 -> Forall (fun w => 0 <= w < 2 ^ 32) rest ->
  (ws ++ rest).[elem_cnt (alen bs) - 1] = Some w ->
  is_bitmap (Bitmap (alen bs) (ws ++ rest).[elem_cnt (alen bs) - 1 <- Z.land w (last_mask (Bitmap (alen bs) ws))]) bs.
Proof.
  intros [H1 H2 H3 H4 H5] Hpos Hmax Hlen Hel Hrest Hw. simpl in *. unfold ELEM_BITS in *.
  assert (0 <= w < 2 ^ 32) as Hwr by (apply (Forall_aget _ _ _ _ (proj2 (Forall_app _ _ _) (conj H4 Hrest)) Hw)).
  split; simpl; [done|done|rewrite alen_aset, alen_app; pose proof (alen_nonneg rest); unfold ELEM_BITS; lia| |].
  - apply Forall_aset; [by apply Forall_app|]. apply land_range; [lia|done].
  - intros i Hi. rewrite (H5 i Hi). f_equal. unfold bit. simpl. unfold ELEM_BITS.
    assert (0 <= elem_idx i < elem_cnt (alen bs)) as Hidx.
    { unfold elem_idx, ELEM_BITS. split; [apply Z.div_pos; lia|apply Z.div_lt_upper_bound; lia]. }
    assert ((ws ++ rest).[elem_idx i] = ws.[elem_idx i]) as Eapp by (apply aget_app_l; unfold alen; lia).
    destruct (decide (elem_idx i = elem_cnt (alen bs) - 1)) as [E|E].
    + rewrite E, aget_aset_eq by (by eapply aget_lt). rewrite <- E, Eapp in Hw. rewrite <- E, Hw.
      pose proof (Z.mod_pos_bound i 32 ltac:(lia)). rewrite Z.land_spec, last_mask_bits by (simpl; lia). simpl.
      assert ((alen bs mod 32 =? 0) || (i mod 32 <? alen bs mod 32) = true) as ->; [|by rewrite andb_true_r].
      unfold elem_idx, ELEM_BITS in E. pose proof (Z.div_mod i 32 ltac:(lia)). pose proof (Z.div_mod (alen bs) 32 ltac:(lia)).
      pose proof (Z.mod_pos_bound (alen bs) 32 ltac:(lia)). destruct (Z.eqb_spec (alen bs mod 32) 0); [done|]. simpl. lia.
    + rewrite aget_aset_ne by done. by rewrite Eapp.
Qed.

Lemma drop_le4s ws n : drop (4 * n) (concat (le4 <$> ws)) = concat (le4 <$> drop n ws).
Proof.
  revert n. induction ws as [|w ws IH]; intros [|n]; [done..|].
  replace (4 * S n)%nat with (4 + 4 * n)%nat by lia. simpl drop at 2. rewrite fmap_cons, concat_cons.
  rewrite <- IH. pose proof (drop_app_add (le4 w) (concat (le4 <$> ws)) (4 * n)) as E. by rewrite le4_length in E.
Qed.

(** ** A file system on disk *)
Record on_disk (D : list (list Z)) (bs : list bool) (L : gmap nat inode_disk) (es : list (list Z)) : Prop := {
  od_disk : disk_ok D L;
  od_length : length bs = length D;
  od_used : forall k, owned L k -> bs !! k = Some true;
  od_map : exists d ws, L !! 0%nat = Some d /\ ilength d = byte_cnt (alen bs) /\ fdata D d = concat (le4 <$> ws) /\
    length ws = Z.to_nat (elem_cnt (alen bs)) /\ is_bitmap (Bitmap (alen bs) ws) bs;
  od_root : exists d, L !! 1%nat = Some d /\ fdata D d = concat es;
  od_dir : dir_ok es;
  od_names : forall n x, dmap es !! n = Some x -> (2 <= x)%nat /\ is_Some (L !! x);
  od_inj : forall n m x, dmap es !! n = Some x -> dmap es !! m = Some x -> n = m;
  od_live : forall x d, L !! x = Some d -> (2 <= x)%nat -> named es x
}.

(** The memory of the file system before anything is opened. *)
Record booted (s : fsys) : Prop := {
  bt_inodes : inodes s = ∅;
  bt_open : open_inodes s = [];
  bt_files : files s = ∅;
  bt_dirs : dirs s = ∅;
  bt_alloc : outcomes s = [];
  bt_fresh : 0 < fresh s
}.

(** Opening the free map's file when nothing is open. *)
Definition map_opened (d : inode_disk) (s' : fsys) : Prop :=
  exists ip, 0 < ip < free_map_file s' /\ free_map_file s' < fresh s' /\
    inodes s' = {[ ip := Inode 0 1 false 0 d ]} /\ open_inodes s' = [ip] /\
    files s' = {[ free_map_file s' := File ip 0 false ]} /\ dirs s' = ∅ /\ outcomes s' = [] /\
    block_ok (fs_device s').

Lemma open_map_file_ok s d {A} (k : Z -> M fsys A) Q :
  booted s -> block_ok (fs_device s) -> disk s !! 0%nat = Some (encode_inode d) -> idisk_ok d ->
  (forall s', map_opened d s' -> free_map s' = free_map s -> disk s' = disk s -> wp (k (free_map_file s')) Q s') ->
  wp (ip ← inode_open FREE_MAP_SECTOR; fp ← file_open ip; modify (set_map_file fp);; k fp) Q s.
Proof.
  intros [B1 B2 B3 B4 B5 B6] Hb Hd Hok Hk. wp_step. unfold inode_open. do 2 wp_step. rewrite B2. simpl. wp_step.
  eapply wp_eq; [by apply alloc_ok|]. rewrite (proj2 (Z.eqb_neq _ _)) by lia. do 3 wp_step.
  set (s1 := set_open _ _). assert (block_ok (fs_device s1)) as Hb1 by done.
  eapply wp_eq; [apply on_dev_ok, (block_read_ok _ _ (encode_inode d)); [done|]|].
  { change FREE_MAP_SECTOR with (Z.of_nat 0). by rewrite aget_nat. }
  unfold put_inode. do 4 wp_step. unfold file_open. wp_step. eapply wp_eq; [by apply alloc_ok|]. simpl.
  rewrite !(proj2 (Z.eqb_neq _ _)) by (simpl; lia). simpl. unfold put_file. do 5 wp_step. rewrite decode_encode by done.
  set (s2 := set_map_file _ _). apply (Hk s2); [|done|done]. exists (fresh s). split_and!; simpl; try done; try lia.
  - by rewrite B1.
  - by rewrite B2.
  - by rewrite B3.
  - destruct Hb1. by split.
Qed.

(** With only the free map's file open. *)
Lemma mounted_mem d s' L : map_opened d s' -> L !! 0%nat = Some d -> mem_ok s' L (refs s') (denies s').
Proof.
  intros (ip & Hip & Hfp & Ei & Eo & Ef & Ed & _) HL.
  assert (forall jp, refs s' jp = Nat.b2n (ip =? jp)%Z /\ denies s' jp = 0%nat) as HR.
  { intros jp. unfold refs, denies. rewrite Ef, Ed, mcount_empty, <- insert_empty, !mcount_insert_new, !mcount_empty by done. simpl. split; [lia|done]. }
  split; rewrite ?Ei, ?Eo.
  - intros jp j [<- <-]%lookup_singleton_Some. destruct (HR ip) as [R1 N1]. rewrite Z.eqb_refl in R1. split; simpl; rewrite ?R1, ?N1; simpl; (done || lia).
  - apply NoDup_singleton.
  - intros jp. rewrite list_elem_of_singleton. split; [intros ->; by rewrite lookup_singleton_eq|]. by intros [j [<- _]%lookup_singleton_Some].
  - intros jp kp j k [<- _]%lookup_singleton_Some [<- _]%lookup_singleton_Some. done.
  - intros jp Hn. destruct (HR jp) as [-> ->]. split; [|done]. rewrite (proj2 (Z.eqb_neq _ _)); [done|]. intros <-. by rewrite lookup_singleton_eq in Hn.
Qed.

Lemma mounted_map d s' bs L :
  map_opened d s' -> disk_ok (disk s') L -> length bs = length (disk s') -> (forall k, owned L k -> bs !! k = Some true) ->
  L !! 0%nat = Some d -> ilength d = byte_cnt (alen bs) -> is_bitmap (free_map s') bs -> map_ok s' bs L.
Proof.
  intros (ip & Hip & Hfp & Ei & Eo & Ef & Ed & Eout & Hb) Hd Hl Hu HL Hil Hbm. split; try done; [|lia]. intros _.
  exists (File ip 0 false), (Inode 0 1 false 0 d). rewrite Ef, Ei. simpl. rewrite !lookup_singleton_eq, (bm_cnt _ _ Hbm). by split_and!.
Qed.

Lemma mounted_ok d s' bs L es :
  map_opened d s' -> on_disk (disk s') bs L es -> L !! 0%nat = Some d -> is_bitmap (free_map s') bs -> fs_ok s' bs L es.
Proof.
  intros Hop Hod HL Hbm. destruct Hod as [O1 O2 O3 (d0 & ws & O4 & O5 & O6 & O7 & O8) O9 O10 O11 O12 O13].
  assert (d0 = d) as -> by congruence. pose proof Hop as (ip & Hip & Hfp & Ei & Eo & Ef & Ed & _).
  assert (forall jp j, inodes s' !! jp = Some j -> jp = ip /\ j = Inode 0 1 false 0 d) as Hone.
  { intros jp j Hj. rewrite Ei, lookup_singleton_Some in Hj. destruct Hj. by split. }
  split; try done.
  - split; try done.
    + by eapply mounted_map.
    + by exists d, ws.
    + by eapply mounted_mem.
    + split; [lia|]. rewrite Ef, lookup_singleton_eq. eauto.
    + intros x e Hx H2. left. by apply (O13 x e).
    + intros jp j [_ ->]%Hone Hs. simpl in Hs. lia.
    + intros jp j [-> ->]%Hone _. unfold denies. by rewrite Ef, <- insert_empty, mcount_insert_new, mcount_empty.
  - rewrite Ef. intros fp f [<- <-]%lookup_singleton_Some. simpl. lia.
  - intros fp f i Hf. rewrite Ef, lookup_singleton_Some in Hf. by destruct Hf as [<- _].
Qed.

Lemma free_map_open_ok s bs0 bs L es :
  booted s -> block_ok (fs_device s) -> on_disk (disk s) bs L es -> is_bitmap (free_map s) bs0 -> length bs0 = length bs ->
  wp free_map_open (fun _ s' => fs_ok s' bs L es /\ disk s' = disk s /\ opened (abs_of s' L es) = ∅) s.
Proof.
  intros Hbt Hb Hod Hbm Hlen. destruct (od_map _ _ _ _ Hod) as (d & ws & O4 & O5 & O6 & O7 & O8).
  pose proof (od_disk _ _ _ _ Hod) as Hdk. pose proof (dk_stored _ _ Hdk _ _ O4) as Hst. unfold free_map_open.
  apply (open_map_file_ok s d); [done|done|apply Hst|apply Hst|]. intros s1 Hop Em Edk.
  pose proof Hop as (ip & Hip & Hfp & Ei & Eo & Ef & Ed & Eout & Hb1). rewrite (proj2 (Z.eqb_neq _ _)) by lia.
  assert (alen bs0 = alen bs) as Hlen' by (unfold alen; congruence).
  pose proof (lookup_lt_Some _ _ _ (st_header _ _ _ Hst)) as Hpos. pose proof (dk_size _ _ Hdk) as Hmax. rewrite <- (od_length _ _ _ _ Hod) in Hpos, Hmax.
  pose proof (DIV_ROUND_UP_bounds (alen bs) ELEM_BITS ltac:(unfold alen; lia) eq_refl ltac:(unfold ELEM_BITS, alen; lia)) as HR.
  change (DIV_ROUND_UP (alen bs) ELEM_BITS) with (elem_cnt (alen bs)) in HR. unfold ELEM_BITS in HR.
  assert (byte_cnt (alen bs) = 4 * elem_cnt (alen bs)) as Eb by (unfold byte_cnt; rewrite wrap_small; [done|unfold alen in *; lia]).
  wp_step. unfold bitmap_read. do 2 wp_step. rewrite Em, (bm_cnt _ _ Hbm), Hlen'. rewrite (proj2 (Z.ltb_lt _ _)) by (unfold alen; lia).
  unfold file_read_at. wp_step. wp_step. eapply wp_eq; [apply get_file_ok; by rewrite Ef, lookup_singleton_eq|]. simpl.
  set (buf := concat (le4 <$> bits (free_map s))). pose proof (bm_room _ _ Hbm) as Hroom. unfold ELEM_BITS in Hroom. rewrite Hlen' in Hroom.
  assert (length buf = (4 * length (bits (free_map s)))%nat) as Hbuf by apply le4s_length.
  assert (Z.to_nat (elem_cnt (alen bs)) <= length (bits (free_map s)))%nat as Hel by (unfold alen in *; lia).
  eapply wp_mono.
  { apply (inode_read_ok s1 ip (Inode 0 1 false 0 d) (first d) (nsec d)); try done; try lia.
    - by rewrite Ei, lookup_singleton_eq.
    - rewrite Edk. by eapply disk_data.
    - unfold alen in *. lia.
    - unfold alen in *. lia. }
  intros [n b] s2 (F1 & F2 & F3 & F4 & _ & F6 & F7). specialize (F6 Eout). simpl in F6, F7. unfold avail in F6. simpl in F6.
  pose proof (alen_nonneg bs) as Hnn. assert (n = 4 * elem_cnt (alen bs)) as -> by lia. cbn [fst snd].
  assert (b = concat (le4 <$> (ws ++ drop (Z.to_nat (elem_cnt (alen bs))) (bits (free_map s))))) as ->.
  { rewrite F7, Edk, fmap_app, concat_app, <- O6, <- drop_le4s. unfold fdata, contents. rewrite O5, Eb. unfold splice, slice_of.
    rewrite take_0, app_nil_l. change (Z.to_nat 0) with 0%nat. rewrite drop_0. do 2 f_equal. rewrite length_take.
    rewrite (region_length (disk s)) by (apply Hdk || apply Hst). pose proof (do_room _ _ _ _ (disk_data _ _ _ _ Hdk O4)). lia. }
  assert (Forall (fun w => 0 <= w < 2 ^ 32) (drop (Z.to_nat (elem_cnt (alen bs))) (bits (free_map s)))) as Hrest by (apply Forall_drop, Hbm).
  rewrite words_of_le4 by (apply Forall_app; split; [apply O8|done]). set (rest := drop _ (bits (free_map s))) in *.
  destruct (proj1 (aget_is_Some (ws ++ rest) (elem_cnt (alen bs) - 1))) as [w Hw].
  { rewrite alen_app. pose proof (alen_nonneg rest). unfold alen in *. lia. }
  wp_step. eapply wp_deref; [exact Hw|]. do 3 wp_step. rewrite Eb, Z.eqb_refl. wp_step.
  assert (last_mask (free_map s) = last_mask (Bitmap (alen bs) ws)) as -> by (unfold last_mask; simpl; by rewrite (bm_cnt _ _ Hbm), Hlen').
  set (b' := Bitmap _ _). assert (is_bitmap b' bs) as Hb'.
  { apply is_bitmap_masked; try done; unfold alen in *; lia. }
  assert (map_opened d (set_map b' s2)) as Hop2.
  { exists ip. simpl. rewrite (fr_map_file _ _ F1), (fr_inodes _ _ F1), (fr_open _ _ F1), (fr_files _ _ F1), (fr_dirs _ _ F1).
    pose proof (fr_fresh _ _ F1). split_and!; try done; [lia..|]. by apply (fr_outcomes _ _ F1). }
  assert (disk s2 = disk s) as D2 by congruence.
  split_and!; [|done|].
  - eapply mounted_ok; [exact Hop2|simpl; by rewrite D2|done|done].
  - apply map_eq. intros fp. apply option_eq. intros o. rewrite lookup_empty. split; [|done]. intros (f & i & Hf & _ & Hne & _)%(abs_opened _ L es).
    simpl in Hf, Hne. rewrite (fr_files _ _ F1), Ef, lookup_singleton_Some in Hf. rewrite (fr_map_file _ _ F1) in Hne. by destruct Hf.
Qed.

(** ** The free map of a new boot *)
Definition boot_bits (n : nat) : list bool := ((replicate n false).[0 <- true]).[1 <- true].

Lemma boot_bits_length n : length (boot_bits n) = n.
Proof.
  assert (alen (boot_bits n) = alen (replicate n false)) as E by (unfold boot_bits; by rewrite !alen_aset).
  unfold alen in E. rewrite length_replicate in E. lia.
Qed.

Lemma boot_bits_lookup n k : (2 <= n)%nat -> (k < n)%nat -> boot_bits n !! k = Some (bool_decide (k < 2)%nat).
Proof.
  intros H2 Hk. unfold boot_bits. rewrite <- aget_nat. destruct (decide (k = 1%nat)) as [->|H1].
  - rewrite aget_aset_eq; [done|]. rewrite alen_aset. unfold alen. rewrite length_replicate. lia.
  - rewrite aget_aset_ne by lia. destruct (decide (k = 0%nat)) as [->|H0].
    + rewrite aget_aset_eq; [done|]. unfold alen. rewrite length_replicate. lia.
    + rewrite aget_aset_ne by lia. rewrite aget_nat, lookup_replicate_2 by done. f_equal. symmetry. apply bool_decide_eq_false_2. lia.
Qed.

(** Memory for the bitmap of [n] bits. *)
Definition junk_ok (junk : list Z) (n : nat) : Prop :=
  Z.of_nat n <= 32 * alen junk /\ Forall (fun w => 0 <= w < 2 ^ 32) junk.

Lemma free_map_init_ok s junk :
  booted s -> block_ok (fs_device s) -> (2 <= length (disk s))%nat -> Z.of_nat (length (disk s)) < 2 ^ 31 -> junk_ok junk (length (disk s)) ->
  wp (free_map_init junk) (fun _ s' => booted s' /\ fs_device s' = fs_device s /\ free_map_file s' = free_map_file s /\
    is_bitmap (free_map s') (boot_bits (length (disk s)))) s.
Proof.
  intros Hbt Hb H2 Hmax [Hj1 Hj2]. pose proof Hbt as [B1 B2 B3 B4 B5 B6]. unfold free_map_init. wp_step.
  eapply wp_eq; [by apply on_dev_ok|]. replace (set_device (fs_device s) s) with s by (by destruct s). wp_step.
  eapply wp_eq; [by apply alloc_ok|]. rewrite (proj2 (Z.eqb_neq _ _)) by lia. wp_step. eapply wp_eq; [by apply alloc_ok|].
  simpl. rewrite (proj2 (Z.eqb_neq _ _)) by lia. rewrite (bk_size _ Hb). unfold alen.
  assert (bitmap_create (fun _ => Some junk) (Z.of_nat (length (disk s))) = '(_, b) ← bitmap_set_all false (Bitmap (Z.of_nat (length (disk s))) junk); Ok (Some b)) as -> by done.
  destruct (set_all_new (Z.of_nat (length (disk s))) junk) as (b & -> & Hbm); [lia|unfold ELEM_BITS; lia|done|].
  rewrite Nat2Z.id in Hbm. simpl. do 2 wp_step. wp_step. set (n := length (disk s)) in *.
  assert (alen (replicate n false) = Z.of_nat n) as Hl by (unfold alen; by rewrite length_replicate).
  eapply wp_mono; [apply on_map_ok, (bitmap_mark_ok b (replicate n false)); [done|]|]; [unfold FREE_MAP_SECTOR; lia|].
  intros [] s1 (b1 & -> & Hb1). eapply wp_mono; [apply on_map_ok, (bitmap_mark_ok b1 _ _ Hb1)|].
  { rewrite alen_aset. unfold ROOT_DIR_SECTOR. lia. }
  intros [] s2 (b2 & -> & Hb2). split_and!; try done. split; try done. simpl. lia.
Qed.

(** The file system on disk that a state between operations has, when no file
    is open. *)
Lemma closed_on_disk s bs L es : fs_ok s bs L es -> opened (abs_of s L es) = ∅ -> on_disk (disk s) bs L es.
Proof.
  intros H Ho. destruct (fk_core _ _ _ _ H) as [K1 K2 K3 K4 K5 K6 K7 K8 K9 K10 K11]. pose proof K1 as [M1 M2 M3 M4 M5 M6 _ _].
  split; try done.
  - destruct (M6 (proj2 K4)) as (f & i & _ & _ & _ & _ & HL & Hil). destruct K2 as (d & ws & G1 & G2 & G3 & G4).
    exists d, ws. split_and!; try done. assert (d = data i) as -> by congruence. by rewrite Hil, (bm_cnt _ _ M3).
  - intros x d Hx H2. assert (alive (abs_of s L es) x) as [?|(fp & o & Hfp & _)]; [apply (abs_alive _ bs); eauto|done|].
    by rewrite Ho in Hfp.
Qed.

(** ** Formatting *)
Definition empty_entries : list (list Z) := replicate 16 (replicate 20 0).

(** The device has room for the free map, the root directory and both inodes. *)
Definition big_enough (n : nat) : Prop :=
  Z.of_nat n < 2 ^ 31 /\ bytes_to_sectors (byte_cnt (Z.of_nat n)) + 3 <= Z.of_nat n.

Lemma boot_group n k : (2 <= n)%nat -> 0 <= k -> 2 + k <= Z.of_nat n -> group (boot_bits n) k false 2.
Proof.
  intros H2 Hk Hn. split; [unfold in_range, alen; rewrite boot_bits_length; lia|]. intros j Hj.
  replace j with (Z.of_nat (Z.to_nat j)) by lia. rewrite aget_nat, boot_bits_lookup by lia. f_equal. apply bool_decide_eq_false_2. lia.
Qed.

(** After an allocation there is still a free sector. *)
Lemma boot_group_left n k st :
  (2 <= n)%nat -> 0 <= k -> 3 + k <= Z.of_nat n -> group (boot_bits n) k false st -> exists j, group (fill (boot_bits n) st k true) 1 false j.
Proof.
  intros H2 Hk Hn Hg. assert (in_range (boot_bits n) st k) as Hr by apply Hg.
  set (j := if bool_decide (st = 2) then 2 + k else 2).
  assert (0 <= j < Z.of_nat n /\ 2 <= j /\ ~ (st <= j < st + k)) as (Hj & Hj2 & Hout).
  { unfold j. case_bool_decide as E; [lia|]. split_and!; try lia. intros Hin.
    assert (st < 2) as Hlt by lia. assert (0 <= st) by (unfold in_range in Hr; lia).
    pose proof (proj2 Hg st ltac:(lia)) as Hf. replace st with (Z.of_nat (Z.to_nat st)) in Hf by lia.
    rewrite aget_nat, boot_bits_lookup, bool_decide_eq_true_2 in Hf by lia. done. }
  exists j. split; [unfold in_range; rewrite alen_fill by done; unfold alen; rewrite boot_bits_length; lia|].
  intros i Hi. replace i with j by lia. rewrite aget_fill, decide_False by (done || lia).
  replace j with (Z.of_nat (Z.to_nat j)) by lia. rewrite aget_nat, boot_bits_lookup by lia. f_equal. apply bool_decide_eq_false_2. lia.
Qed.

Lemma map_ok_boot s :
  booted s -> block_ok (fs_device s) -> Z.of_nat (length (disk s)) < 2 ^ 31 ->
  is_bitmap (free_map s) (boot_bits (length (disk s))) -> map_ok s (boot_bits (length (disk s))) ∅.
Proof.
  intros [B1 B2 B3 B4 B5 B6] Hb Hmax Hbm. split; try done.
  - split; [done|apply Hb|apply map_Forall_empty|]. by intros x y d e k Hx.
  - apply boot_bits_length.
  - by intros k (x & d & Hx & _).
  - rewrite B3, lookup_empty. by intros [? ?].
Qed.

Lemma booted_same s s' : booted s -> mem_same s s' -> outcomes s' = [] -> booted s'.
Proof. intros [] []. split; try congruence. lia. Qed.

(** Creating the free map's file. *)
Lemma free_map_create_ok s :
  booted s -> block_ok (fs_device s) -> free_map_file s = 0 -> big_enough (length (disk s)) ->
  is_bitmap (free_map s) (boot_bits (length (disk s))) ->
  wp free_map_create (fun _ s' => exists d bs, map_opened d s' /\ map_ok s' bs {[ 0%nat := d ]} /\ synced s' bs {[ 0%nat := d ]} /\
    length bs = length (disk s) /\ ilength d = byte_cnt (alen bs) /\ bs !! 1%nat = Some true /\ ~ in_data d 1 /\ exists j, group bs 1 false j) s.
Proof.
  intros Hbt Hb Hf [Hmax Hbig] Hbm. set (n := length (disk s)) in *. pose proof (bytes_to_sectors_nonneg (byte_cnt (Z.of_nat n))) as Hbs.
  assert (2 <= n)%nat as H2 by lia. pose proof (map_ok_boot s Hbt Hb Hmax Hbm) as H0. destruct (map_sizes _ _ _ H0) as (Ec & _ & Eb & Hel & Hel2 & _).
  assert (alen (boot_bits n) = Z.of_nat n) as En by (unfold alen; by rewrite boot_bits_length).
  fold n in Ec, Eb, Hel, Hel2. rewrite En in Ec, Eb, Hel, Hel2.
  unfold free_map_create, bitmap_file_size. do 3 wp_step. rewrite Ec. rewrite swrap_small by lia. change FREE_MAP_SECTOR with (Z.of_nat 0).
  eapply wp_mono; [apply (inode_create_ok s (boot_bits n) ∅ 0%nat); [done|lia|lia|by rewrite boot_bits_lookup by lia|]|].
  { by intros (x & d & Hx & _). }
  intros [|] s1 (M1 & _ & G1).
  2: { exfalso. destruct G1 as (_ & _ & Hno). apply (Hno 2). apply boot_group; lia. }
  destruct G1 as (d & bs & Elen & Hm1 & Hgrow & Hg & -> & _). cbn [negb]. rewrite insert_empty in Hm1.
  assert (in_range (boot_bits n) (start d) (bytes_to_sectors (byte_cnt (Z.of_nat n)))) as Hr by apply Hg.
  set (bs := fill _ _ _ true) in *. assert (length bs = n) as Hlen by (unfold bs; by rewrite fill_length, boot_bits_length).
  pose proof (dk_stored _ _ (mp_disk _ _ _ Hm1) 0%nat d ltac:(by rewrite lookup_singleton_eq)) as Hst.
  apply (open_map_file_ok s1 d); [by eapply booted_same; [..|apply Hm1]|apply Hm1|apply Hst|apply Hst|].
  intros s2 Hop Em Ed. pose proof Hop as (ip & Hip & Hfp & _ & _ & Efiles & _). rewrite (proj2 (Z.eqb_neq _ _)) by lia.
  assert (alen bs = Z.of_nat n) as Eal by (unfold alen; by rewrite Hlen).
  assert (map_ok s2 bs {[ 0%nat := d ]}) as Hm2.
  { eapply mounted_map; [exact Hop|rewrite Ed; apply Hm1|rewrite Ed; apply Hm1|apply Hm1|by rewrite lookup_singleton_eq| |rewrite Em; apply Hm1].
    by rewrite Eal. }
  wp_step. eapply wp_mono; [apply (bitmap_write_ok s2 bs _ Hm2); by rewrite Efiles, lookup_singleton_eq|].
  intros r s3 (-> & Hm3 & Hs3 & M3 & _ & _). wp_step. exists d, bs. split_and!; try done.
  - destruct Hop as (jp & J1 & J2 & J3 & J4 & J5 & J6 & J7 & J8). exists jp.
    rewrite (ms_map_file _ _ M3), (ms_inodes _ _ M3), (ms_open _ _ M3), (ms_files _ _ M3), (ms_dirs _ _ M3). pose proof (ms_fresh _ _ M3).
    split_and!; try done; [lia..|apply Hm3|apply Hm3].
  - by rewrite Eal.
  - apply Hgrow. by rewrite boot_bits_lookup by lia.
  - intros Hin. assert (in_run (start d) (bytes_to_sectors (byte_cnt (Z.of_nat n))) 1) as Hrun.
    { unfold in_data, in_run, first, nsec in *. rewrite Elen in Hin. unfold in_range in Hr. lia. }
    pose proof (group_lookup _ _ _ _ _ Hg Hrun) as E. by rewrite boot_bits_lookup in E by lia.
  - apply boot_group_left; [done|lia|lia|done].
Qed.

(** Closing the free map's file, the only one open. *)
Lemma free_map_close_ok s d :
  map_opened d s ->
  wp free_map_close (fun _ s' => booted s' /\ fs_device s' = fs_device s /\ free_map s' = free_map s) s.
Proof.
  intros (ip & Hip & Hfp & Ei & Eo & Ef & Ed & Eout & Hb). unfold free_map_close. do 2 wp_step. unfold file_close.
  rewrite (proj2 (Z.eqb_neq _ _)) by lia. wp_step. unfold file_allow_write. wp_step.
  apply wp_assert; [by rewrite (proj2 (Z.eqb_neq _ _)) by lia|]. assert (files s !! free_map_file s = Some (File ip 0 false)) as Hf by (by rewrite Ef, lookup_singleton_eq).
  wp_step. eapply wp_eq; [by apply get_file_ok|]. simpl. wp_step. wp_step. eapply wp_eq; [by apply get_file_ok|]. simpl. wp_step.
  unfold inode_close. rewrite (proj2 (Z.eqb_neq _ _)) by lia. wp_step. eapply wp_eq; [apply get_inode_ok; by rewrite Ei, lookup_singleton_eq|].
  unfold put_inode. do 2 wp_step. simpl. change (s32 0 =? 0) with true. cbv iota. do 6 wp_step. split_and!; try done. split; simpl; try done; try lia.
  - rewrite Ei. apply map_eq. intros jp. rewrite lookup_empty. destruct (decide (jp = ip)) as [->|Hne]; [by rewrite lookup_delete_eq|].
    by rewrite lookup_delete_ne, lookup_insert_ne, lookup_singleton_ne.
  - rewrite Eo. rewrite filter_cons_False by tauto. done.
  - by rewrite Ef, delete_singleton_eq.
Qed.

Lemma empty_dir : dir_ok empty_entries /\ dmap empty_entries = ∅ /\ concat empty_entries = replicate 320 0.
Proof.
  split_and!; [split|done..].
  - apply Forall_replicate. split; [done|]. by intros [=].
  - apply NoDup_nil_2.
Qed.

Lemma do_format_ok s :
  booted s -> block_ok (fs_device s) -> free_map_file s = 0 -> big_enough (length (disk s)) ->
  is_bitmap (free_map s) (boot_bits (length (disk s))) ->
  wp do_format (fun _ s' => booted s' /\ block_ok (fs_device s') /\ exists bs L, on_disk (disk s') bs L empty_entries /\
    is_bitmap (free_map s') bs /\ length bs = length (disk s) /\ forall x, is_Some (L !! x) -> (x < 2)%nat) s.
Proof.
  intros Hbt Hb Hf Hbig Hbm. destruct empty_dir as (Hdir & Hdm & Hcat). unfold do_format. wp_step.
  eapply wp_mono; [by apply free_map_create_ok|]. intros [] s1 (d0 & bs & Hop & Hm1 & Hs1 & Hlen & Hil & Hb1 & Hnd & j & Hj).
  pose proof Hop as (ip & Hip & Hfp & Ei & Eo & Ef & Ed & Eout & Hblk). wp_step.
  assert (is_Some (files s1 !! free_map_file s1)) as Hfile by (by rewrite Ef, lookup_singleton_eq).
  unfold dir_create. change (s32 (u32 (16 * DIR_ENTRY_SIZE))) with 320. change ROOT_DIR_SECTOR with (Z.of_nat 1).
  eapply wp_mono; [apply (inode_create_ok s1 bs {[ 0%nat := d0 ]} 1%nat 320); try done|].
  { intros (x & d & [<- <-]%lookup_singleton_Some & [?|?]); [lia|done]. }
  intros [|] s2 (M2 & DS2 & G2).
  2: { exfalso. destruct G2 as (_ & _ & Hno). by apply (Hno j). }
  destruct G2 as (d1 & bs2 & Elen & Hm2 & Hgrow & Hg & Ebs2 & Hz & Hs2). specialize (Hs2 ltac:(lia)). cbn [negb].
  assert (map_opened d0 s2) as Hop2.
  { exists ip. rewrite (ms_map_file _ _ M2), (ms_inodes _ _ M2), (ms_open _ _ M2), (ms_files _ _ M2), (ms_dirs _ _ M2). pose proof (ms_fresh _ _ M2).
    split_and!; try done; [lia..|apply Hm2|apply Hm2]. }
  eapply wp_mono; [by apply (free_map_close_ok s2 d0)|]. intros [] s3 (B3 & D3 & F3). rewrite D3, F3.
  set (L := <[1%nat := d1]> {[ 0%nat := d0 ]}) in *. split_and!; try done; [apply Hm2|]. exists bs2, L.
  assert (length bs2 = length bs) as Hlen2 by (rewrite Ebs2; apply fill_length, Hg).
  assert (L !! 0%nat = Some d0) as HL0 by (unfold L; by rewrite lookup_insert_ne, lookup_singleton_eq by lia).
  assert (forall x, is_Some (L !! x) -> (x < 2)%nat) as Hlt.
  { intros x [d Hx]. unfold L in Hx. rewrite lookup_insert_Some, lookup_singleton_Some in Hx. lia. }
  split_and!; try done; [|apply Hm2|congruence]. split; try done.
  - apply Hm2.
  - apply Hm2.
  - apply Hm2.
  - destruct Hs2 as (d & ws & E1 & E2 & E3 & E4). assert (d = d0) as -> by congruence. exists d0, ws. split_and!; try done.
    rewrite Hil. f_equal. unfold alen. by rewrite Hlen2.
  - exists d1. unfold L. rewrite lookup_insert_eq. split; [done|]. by rewrite Hz, Hcat.
  - intros x d Hx H2. specialize (Hlt x ltac:(eauto)). lia.
Qed.

(** An empty file system. *)
Definition empty_fs : afs := AFS ∅ ∅ ∅.

Lemma format_ok b s0 junk :
  booted s0 -> free_map_file s0 = 0 -> block_ok b -> big_enough (length (sectors b)) -> junk_ok junk (length (sectors b)) ->
  wp (filesys_init (Some b) junk true) (fun _ s' => represents s' empty_fs) s0.
Proof.
  intros Hbt Hf Hb Hbig Hj. unfold filesys_init, inode_init. do 2 wp_step. do 2 wp_step. wp_step. set (s1 := set_open _ _).
  assert (booted s1) as Hbt1 by (destruct Hbt; by split). pose proof Hbig as [Hmax Hbig'].
  pose proof (bytes_to_sectors_nonneg (byte_cnt (Z.of_nat (length (sectors b))))) as Hbs.
  eapply wp_mono; [apply (free_map_init_ok s1 junk); try done; simpl; lia|]. intros [] s2 (B2 & D2 & F2 & Hbm2). simpl in D2. wp_step.
  simpl in Hbm2. eapply wp_mono; [apply (do_format_ok s2); rewrite ?D2, ?F2; done|].
  intros [] s3 (B3 & Hb3 & bs & L & Hod & Hbm3 & Hlen & Hlt).
  eapply wp_mono; [by apply (free_map_open_ok s3 bs bs L empty_entries)|]. intros [] s4 (H4 & D4 & O4).
  exists bs, L, empty_entries. split; [done|]. apply afs_eq; [done| |done]. simpl. symmetry. apply map_eq. intros x. rewrite lookup_empty.
  change (store (abs_of s4 L empty_entries) !! x = None). apply eq_None_not_Some. intros [c (d & Hx & H2 & _)%abs_store].
  specialize (Hlt x ltac:(eauto)). lia.
Qed.
