(* ===== verification/FsTheorems.v ===== *)
(** * Theorems about the file system

    The operations of the file system implement the specification of FsSpec,
    formatting and mounting work, and what goes wrong when a name exists
    already or memory is short. *)

From S2P Require Import Prelude Bitmap Block Inode FreeMap Filesys FsDisk FsInv FsDir FsCore FsFiles FsNames FsSpec FsMount.

(** ** Operations on open files *)
Lemma handle_op_ok s A fp o e :
  represents s A -> fs_pre o A -> (o = OTell fp \/ o = OLength fp \/ o = ODeny fp \/ o = OAllow fp \/ exists pos, o = OSeek fp pos) ->
  wp (run_fs e o) (fun r s' => exists A', spec_step (is_full s) o r A A' /\ represents s' A') s.
Proof.
  intros Hrep (Hfew & Hpre) Ho. pose proof Hrep as (bs & L & es & H & ->).
  assert (exists f, opened (abs_of s L es) !! fp = Some f) as [f Hf].
  { destruct Ho as [->|[->|[->|[->|[pos ->]]]]]; try by destruct Hpre as [f Hf]; exists f. by destruct Hpre as [[f Hf] _]; exists f. }
  destruct (abs_handle _ _ _ _ _ _ H Hf) as (g & i & Hg & Hi & Hne & Hfp & Hsec & -> & HL & Hp & Hst).
  assert (negb (fp =? 0) = true) as Hnz by (by rewrite (proj2 (Z.eqb_neq _ _))).
  destruct Ho as [->|[->|[->|[->|[pos ->]]]]]; simpl; wp_step.
  - unfold file_tell. wp_step. apply wp_assert; [done|]. wp_step. eapply wp_eq; [by apply get_file_ok|]. do 2 wp_step.
    exists (abs_of s L es). split; [|done]. by eexists.
  - eapply wp_eq; [apply (file_length_ok s _ fp _ _ Hrep Hf Hst)|]. wp_step. exists (abs_of s L es). split; [|done]. eexists _, _. done.
  - eapply wp_mono; [apply (file_deny_write_ok s bs L es fp g i); try done; apply H|]. intros [] s' Hfl. wp_step.
    eexists. split; [|by eapply flag_op_ok]. by eexists.
  - eapply wp_mono; [apply (file_allow_write_ok s bs L es fp g i); try done; apply H|]. intros [] s' Hfl. wp_step.
    eexists. split; [|by eapply flag_op_ok]. by eexists.
  - destruct Hpre as [_ Hpos]. eapply wp_mono; [apply (file_seek_ok s _ fp _ pos Hrep Hf); lia|]. intros [] s' Hrep'. wp_step.
    eexists. split; [|exact Hrep']. by eexists.
Qed.

Lemma run_fs_ok s A o e :
  represents s A -> fs_pre o A -> length e = ESZ ->
  wp (run_fs e o) (fun r s' => exists A', spec_step (is_full s) o r A A' /\ represents s' A') s.
Proof.
  intros H Hpre He. destruct o as [name size|name|name|fp|fp size|fp bytes|fp pos|fp|fp|fp|fp].
  - by apply create_op_ok.
  - by apply open_op_ok.
  - by apply remove_op_ok.
  - by apply close_op_ok.
  - by apply read_op_ok.
  - by apply write_op_ok.
  - by apply (handle_op_ok s A fp); eauto 10.
  - by apply (handle_op_ok s A fp); eauto 10.
  - by apply (handle_op_ok s A fp); eauto 10.
  - by apply (handle_op_ok s A fp); eauto 10.
  - by apply (handle_op_ok s A fp); eauto 10.
Qed.


(** ** A small device *)
Definition small_device : block := Block [] BLOCK_FILESYS 16 (replicate 16 (replicate SECTOR 7)) 0 0.
Definition boot_state : fsys := Fsys small_device ∅ [] ∅ ∅ (Bitmap 0 []) 0 1 [].
Definition stack_junk : list Z := replicate 20 9.

Lemma small_device_ok :
  booted boot_state /\ block_ok small_device /\ big_enough (length (sectors small_device)) /\
  junk_ok [123] (length (sectors small_device)).
Proof.
  split_and!.
  - by split.
  - split; [done|by apply Forall_replicate|done].
  - split; vm_compute; [done|by intros [=]].
  - split; [vm_compute; by intros [=]|]. repeat constructor; lia.
Qed.


(** ** Formatting and mounting *)
(** Formatting a device of any contents that is large enough, and mounting
    it, gives a file system without files. *)
Theorem filesys_format_empty b s0 junk :
  booted s0 -> free_map_file s0 = 0 -> block_ok b -> big_enough (length (sectors b)) -> junk_ok junk (length (sectors b)) ->
  wp (filesys_init (Some b) junk true) (fun _ s' => represents s' empty_fs) s0.
Proof. apply format_ok. Qed.

Lemma filesys_format_empty_witness :
  wp (filesys_init (Some small_device) [123] true) (fun _ s' => represents s' empty_fs) boot_state.
Proof. destruct small_device_ok as (H1 & H2 & H3 & H4). by apply (filesys_format_empty small_device boot_state [123]). Defined.

(** C13: the file system survives a restart: when every file is closed,
    mounting the device again, without formatting, gives the same names and the
    same bytes of every file. *)
Theorem filesys_remount s A s0 junk :
  represents s A -> opened A = ∅ -> booted s0 -> junk_ok junk (length (disk s)) ->
  wp (filesys_init (Some (fs_device s)) junk false) (fun _ s' => represents s' A) s0.
Proof.
  intros (bs & L & es & H & ->) Ho Hbt Hj. pose proof (closed_on_disk _ _ _ _ H Ho) as Hod.
  pose proof (mp_block _ _ _ (co_map _ _ _ _ _ _ (fk_core _ _ _ _ H))) as Hb. pose proof (od_disk _ _ _ _ Hod) as Hdk.
  unfold filesys_init, inode_init. do 2 wp_step. do 2 wp_step. wp_step. set (s1 := set_open _ _).
  assert (booted s1) as Hbt1 by (destruct Hbt; by split).
  destruct (od_root _ _ _ _ Hod) as (d1 & HL1 & _). pose proof (lookup_lt_Some _ _ _ (st_header _ _ _ (dk_stored _ _ Hdk _ _ HL1))) as Hn.
  eapply wp_mono; [apply (free_map_init_ok s1 junk); try done; apply Hdk|]. intros [] s2 (B2 & D2 & _ & Hbm2). do 2 wp_step.
  simpl in D2. eapply wp_mono; [apply (free_map_open_ok s2 (boot_bits (length (disk s))) bs L es); [done|by rewrite D2|by rewrite D2|done|]|].
  { rewrite boot_bits_length. simpl. by rewrite (od_length _ _ _ _ Hod). }
  intros [] s3 (H3 & D3 & O3). exists bs, L, es. split; [done|]. apply afs_eq; [done| |by rewrite O3].
  symmetry. apply abs_store_same, data_same_disk. by rewrite D3, D2.
Qed.

(** The device of the state after some operations, with nothing open. *)
Lemma filesys_remount_witness :
  wp (filesys_init (Some small_device) [123] true;; s ← get;
      put boot_state;; filesys_init (Some (fs_device s)) [5] false) (fun _ s' => represents s' empty_fs) boot_state.
Proof.
  destruct small_device_ok as (H1 & H2 & H3 & H4). wp_step.
  destruct (proj1 (wp_iff _ _ _) (format_ok small_device boot_state [123] H1 eq_refl H2 H3 H4)) as ([] & s & E & Hs).
  assert (match filesys_init (Some small_device) [123] true boot_state with Ok (_, s) => length (disk s) | Err _ => 0%nat end = 16%nat) as Hlen
    by (vm_compute; reflexivity).
  rewrite E in Hlen. eapply wp_eq; [exact E|]. do 4 wp_step.
  apply (filesys_remount s empty_fs boot_state [5] Hs eq_refl H1). rewrite Hlen.
  split; [vm_compute; by intros [=]|repeat constructor; lia].
Defined.

(** ** Where the file system falls short *)
Definition free_sectors (s : fsys) : Z := alen (filter (eq false) (map (bit (free_map s)) (seqZ 0 (bit_cnt (free_map s))))).


(** When memory is short, adding a name to a directory destroys another:
    the reads of the entries, which need a buffer, come back short and are taken
    for the end of the directory, so the new entry goes over the first one.  The
    call returns true, and the name that was there is gone. *)
Theorem dir_add_overwrites :
  exists s, (filesys_init (Some small_device) [123] true;;
    a ← filesys_create [97] 0 stack_junk;
    dp ← dir_open_root;
    modify (fun s => set_alloc (fresh s) [false; false] s);;
    added ← dir_add dp [98] 5 stack_junk;
    found ← lookup dp [97] stack_junk;
    mret (a, added, match found with Some _ => true | None => false end)) boot_state =
  Ok (true, true, false, s).
Proof. eexists. vm_compute. reflexivity. Qed.
