(* ===== verification/Fsutil.v ===== *)
(** * Commands on files (src/filesys/fsutil.c)

    The commands of the kernel's command line that list, print and delete files
    and move them between the file system and an archive on the scratch device.
    The state has the file system (Filesys.v), the scratch device (Block.v), the
    two positions on it that the code keeps in static variables, and what was
    printed.  Headers of archives are those of Ustar.v.

    Theorems: a file that is appended to the archive and extracted on another
    file system is the same file there, provided that the byte after the buffer
    of [fsutil_append], which the code writes into the marker of the end, is
    zero; otherwise extraction stops the kernel.  Printing a file prints all its
    bytes in order, and deleting removes exactly that name. *)

From stdpp Require Import strings.
From S2P Require Import Prelude Vaddr Kstring Kstdio Ustar Block Inode FreeMap Filesys FsCore FsSpec FsTheorems.

Inductive note := Listed (name : list Z) | Dumped (pos : Z) (bytes : list Z) | Ignored (name : list Z).

Record util := Util {
  fsy : fsys;
  scratch : option block;      (* the device with that role *)
  extract_at : Z;
  append_at : Z;
  told : list note
}.

Definition on_fs {A} (m : M fsys A) : M util A := fun u =>
  match m (fsy u) with Ok (a, s) => Ok (a, Util s (scratch u) (extract_at u) (append_at u) (told u)) | Err e => Err e end.
(** An access to the scratch device. *)
Definition on_scratch {A} (m : M block A) : M util A := fun u =>
  match scratch u with
  | None => Err BadPointer
  | Some b => match m b with Ok (a, b) => Ok (a, Util (fsy u) (Some b) (extract_at u) (append_at u) (told u)) | Err e => Err e end
  end.
Definition tell (n : note) : M util unit := modify (fun u => Util (fsy u) (scratch u) (extract_at u) (append_at u) (told u ++ [n])).
Definition panic_unless (b : bool) : M util unit := if b then mret () else fail PanicHalt.

(** [sector++]. *)
Definition next_extract : M util Z := u ← get; put (Util (fsy u) (scratch u) (u32 (extract_at u + 1)) (append_at u) (told u));; mret (extract_at u).
Definition next_append : M util Z := u ← get; put (Util (fsy u) (scratch u) (extract_at u) (u32 (append_at u + 1)) (told u));; mret (append_at u).

Section fsutil.
(** What the stack held where directory entries are read, and whether [malloc]
    and [palloc_get_page] have memory. *)
Context (junk : list Z) (memory : bool).

Definition fsutil_ls (fuel : nat) : M util unit :=
  dp ← on_fs dir_open_root;
  panic_unless (negb (dp =? 0));;
  loop fuel (fun _ : unit =>
    r ← on_fs (dir_readdir dp junk);
    match r with Some name => tell (Listed name);; mret (inl ()) | None => mret (inr ()) end) ();;
  on_fs (dir_close dp).

Definition cat_turn (file : Z) (buffer : list Z) : M util (list Z + unit) :=
  pos ← on_fs (file_tell file);
  r ← on_fs (file_read file buffer PGSIZE);
  if r.1 =? 0 then mret (inr ()) else tell (Dumped pos (take (Z.to_nat r.1) r.2));; mret (inl r.2).

Definition fsutil_cat (fuel : nat) (file_name : list Z) : M util unit :=
  file ← on_fs (filesys_open file_name junk);
  panic_unless (negb (file =? 0));;
  panic_unless memory;;
  loop fuel (cat_turn file) (replicate (Z.to_nat PGSIZE) 0xcc);;
  on_fs (file_close file).

Definition fsutil_rm (file_name : list Z) : M util unit :=
  b ← on_fs (filesys_remove file_name junk);
  panic_unless b.

(** The copy of a file out of the archive, by sectors. *)
Definition extract_turn (dst : Z) (size : Z) : M util (Z + unit) :=
  if 0 <? size then
    let chunk_size := if BLOCK_SECTOR_SIZE <? size then BLOCK_SECTOR_SIZE else size in
    sector ← next_extract;
    data ← on_scratch (block_read sector);
    n ← on_fs (file_write dst (take (Z.to_nat chunk_size) data) chunk_size);
    panic_unless (n =? chunk_size);;
    mret (inl (size - chunk_size))
  else mret (inr ()).

Definition extract_file (file_name : list Z) (size : Z) : M util unit :=
  b ← on_fs (filesys_create file_name size junk);
  panic_unless b;;
  dst ← on_fs (filesys_open file_name junk);
  panic_unless (negb (dst =? 0));;
  loop (S (Z.to_nat size)) (extract_turn dst) size;;
  on_fs (file_close dst).

(** One header and what follows it; [inr] at the end of the archive. *)
Definition extract_entry (_ : unit) : M util (unit + unit) :=
  sector ← next_extract;
  header ← on_scratch (block_read sector);
  match ustar_parse_header header with
  | Err e => fail e
  | Ok (inl error) => fail PanicHalt
  | Ok (inr (name, type, size)) =>
    if type =? USTAR_EOF then mret (inr ())
    else
      (if type =? USTAR_DIRECTORY then tell (Ignored (default [] name))
       else if type =? USTAR_REGULAR then extract_file (default [] name) size
       else mret ());;
      mret (inl ())
  end.

(** Every turn takes a sector of the device, which is [fuel] sectors long. *)
Definition fsutil_extract (fuel : nat) : M util unit :=
  panic_unless memory;;
  u ← get;
  panic_unless (bool_decide (is_Some (scratch u)));;
  loop fuel extract_entry ();;
  let zeros := replicate SECTOR 0 in
  on_scratch (block_write 0 zeros);;
  on_scratch (block_write 1 zeros).

Definition append_turn (src : Z) (a : Z * list Z) : M util ((Z * list Z) + list Z) :=
  let '(size, buffer) := a in
  if 0 <? size then
    let chunk_size := if BLOCK_SECTOR_SIZE <? size then BLOCK_SECTOR_SIZE else size in
    u ← get;
    n ← on_scratch block_size;
    panic_unless (append_at u <? n);;
    r ← on_fs (file_read src buffer chunk_size);
    panic_unless (r.1 =? chunk_size);;
    let buffer := take (Z.to_nat chunk_size) r.2 ++ replicate (SECTOR - Z.to_nat chunk_size) 0 in
    sector ← next_append;
    on_scratch (block_write sector buffer);;
    mret (inl (size - chunk_size, buffer))
  else mret (inr buffer).

(** [beyond] is the byte of memory after the buffer, which is the last one of the
    second block that is written. *)
Definition fsutil_append (beyond : Z) (file_name : list Z) : M util unit :=
  panic_unless memory;;
  src ← on_fs (filesys_open file_name junk);
  panic_unless (negb (src =? 0));;
  size ← on_fs (file_length src);
  u ← get;
  panic_unless (bool_decide (is_Some (scratch u)));;
  match ustar_make_header file_name USTAR_REGULAR size with
  | Err e => fail e
  | Ok None => fail PanicHalt
  | Ok (Some buffer) =>
    sector ← next_append;
    on_scratch (block_write sector buffer);;
    _ ← loop (S (Z.to_nat size)) (append_turn src) (size, buffer);
    u ← get;
    on_scratch (block_write (append_at u) (replicate SECTOR 0));;
    on_scratch (block_write (append_at u) (replicate (SECTOR - 1) 0 ++ [beyond]));;
    on_fs (file_close src)
  end.
End fsutil.

(** ** Lemmas *)
Definition with_fs (s : fsys) (u : util) : util := Util s (scratch u) (extract_at u) (append_at u) (told u).

Lemma on_files_wp {A} (m : M fsys A) (Q : A -> util -> Prop) u : wp m (fun a s => Q a (with_fs s u)) (fsy u) -> wp (on_fs m) Q u.
Proof. unfold wp, on_fs, with_fs. by destruct (m (fsy u)) as [[a s]|]. Qed.

Definition with_scratch (b : block) (u : util) : util := Util (fsy u) (Some b) (extract_at u) (append_at u) (told u).

Lemma on_scratch_wp {A} (m : M block A) (Q : A -> util -> Prop) u b : scratch u = Some b -> wp m (fun a b => Q a (with_scratch b u)) b -> wp (on_scratch m) Q u.
Proof. intros E. unfold wp, on_scratch, with_scratch. rewrite E. by destruct (m b) as [[a b']|]. Qed.

Lemma panic_unless_wp b (Q : unit -> util -> Prop) u : b = true -> Q tt u -> wp (panic_unless b) Q u.
Proof. intros -> HQ. by apply wp_ret. Qed.

Section proof.
Context (junk : list Z) (Hjunk : length junk = 20%nat).

(** An operation of the file system as part of a command. *)
Lemma fs_op_wp {B} (m : M fsys B) (o : fs_op) (g : B -> fs_ret) u A (Q : B -> util -> Prop) :
  represents (fsy u) A -> fs_pre o A -> (run_fs junk o = x ← m; mret (g x)) ->
  (forall x s A', spec_step (is_full (fsy u)) o (g x) A A' -> represents s A' -> Q x (with_fs s u)) -> wp (on_fs m) Q u.
Proof.
  intros Hr Hp E HQ. apply on_files_wp. pose proof (run_fs_ok (fsy u) A o junk Hr Hp Hjunk) as H. rewrite E in H. apply (wp_bind_ret _ g) in H.
  eapply wp_mono; [exact H|]. intros x s (A' & Hs & Hr'). by apply (HQ x s A').
Qed.

(** The bytes of the file with a name. *)
Definition file_of (A : afs) (name : list Z) : option (list Z) := x ← names A !! name; store A !! x.

Lemma open_wp u A name x (Q : Z -> util -> Prop) :
  represents (fsy u) A -> opened A = ∅ -> 0 ∉ name -> names A !! name = Some x ->
  (forall fp s, 0 < fp -> represents s (set_opened A {[fp := OFile x 0 false]}) -> Q fp (with_fs s u)) -> wp (on_fs (filesys_open name junk)) Q u.
Proof.
  intros Hr Ho Hn Hx HQ. eapply (fs_op_wp _ (OOpen name) RNum); [done|split; [by rewrite Ho|done]|done|]. intros fp s A' Hs Hr'. simpl in Hs. rewrite Hx in Hs. destruct Hs as (Hfp & _ & ->).
  rewrite Ho, insert_empty in Hr'. by apply HQ.
Qed.

(** Closing the only open file; files without a name go. *)
Lemma close_wp u A fp o (Q : unit -> util -> Prop) :
  represents (fsy u) A -> opened A = {[fp := o]} ->
  (forall s A', represents s A' -> names A' = names A -> opened A' = ∅ -> (forall n, file_of A' n = file_of A n) -> Q () (with_fs s u)) -> wp (on_fs (file_close fp)) Q u.
Proof.
  intros Hr Ho HQ. eapply (fs_op_wp _ (OClose fp) (fun _ => RUnit)); [done|split; [rewrite Ho, map_size_singleton; lia|rewrite Ho, lookup_singleton_eq; by eexists]|done|].
  intros [] s A' (En & Eo & Hsw) Hr'. rewrite Ho, delete_singleton_eq in Eo. apply (HQ s A'); [done..|]. intros n. unfold file_of. rewrite En. destruct (names A !! n) as [x|] eqn:Ex; [|done]. simpl.
  apply Hsw. left. exists n. by rewrite En.
Qed.

(** ** Deleting *)

(** [fsutil_rm] removes exactly the name, and panics when there is none. *)
Lemma fsutil_rm_ok u A name :
  represents (fsy u) A -> opened A = ∅ -> 0 ∉ name -> is_Some (names A !! name) ->
  wp (fsutil_rm junk name) (fun _ u' => exists A', represents (fsy u') A' /\ names A' = delete name (names A) /\ forall n, file_of A' n = if decide (n = name) then None else file_of A n) u.
Proof.
  intros Hr Ho Hn Hx. unfold fsutil_rm. wp_step. eapply (fs_op_wp _ (ORemove name) RBool); [done|split; [by rewrite Ho|done]|done|].
  intros b s A' (-> & En & _ & Hsw) Hr'. rewrite bool_decide_eq_true_2 by done. apply panic_unless_wp; [done|]. exists A'. split; [done|]. split; [done|]. intros n. unfold file_of. rewrite En. case_decide as E.
  - subst n. by rewrite lookup_delete_eq.
  - rewrite lookup_delete_ne by done. destruct (names A !! n) as [x|] eqn:Ex; [|done]. simpl. apply Hsw. left. exists n. by rewrite En, lookup_delete_ne.
Qed.

(** ** Printing *)
Definition dump_of (c : list Z) (i : nat) : note := Dumped (PGSIZE * Z.of_nat i) (slice_of c (Z.to_nat (PGSIZE * Z.of_nat i)) (Z.to_nat PGSIZE)).
Definition dumps (c : list Z) : list note := map (dump_of c) (seq 0 (Z.to_nat ((alen c + PGSIZE - 1) / PGSIZE))).

Lemma slice_room c pos n : 0 <= pos <= alen c -> 0 <= n -> bytes_from c pos (room_at c pos n) = slice_of c (Z.to_nat pos) (Z.to_nat n).
Proof.
  intros Hp Hn. unfold bytes_from, room_at, slice_of, alen in *. destruct (decide (n <= Z.of_nat (length c) - pos)); [do 2 f_equal; lia|].
  rewrite !firstn_all2; [done|rewrite length_drop; lia..].
Qed.

(** Reading from the only open file. *)
Lemma read_wp u A fp x pos c buffer n (Q : Z * list Z -> util -> Prop) :
  represents (fsy u) (set_opened A {[fp := OFile x pos false]}) -> store A !! x = Some c -> 0 <= pos <= alen c -> 0 <= n <= alen buffer -> pos + n < 2 ^ 31 ->
  (forall s, let l := slice_of c (Z.to_nat pos) (Z.to_nat n) in represents s (set_opened A {[fp := OFile x (pos + alen l) false]}) -> Q (alen l, splice buffer 0 l) (with_fs s u)) ->
  wp (on_fs (file_read fp buffer n)) Q u.
Proof.
  intros Hr Hc Hp Hn Hb HQ. apply on_files_wp. eapply wp_mono; [apply (file_read_ok _ _ fp (OFile x pos false) c buffer n Hr); [apply lookup_singleton_eq|done|done|done]|].
  intros r s [-> Hr']. cbn [o_pos o_file o_deny] in *. pose proof (slice_room c pos n Hp ltac:(lia)) as E. rewrite E. assert (room_at c pos n = alen (slice_of c (Z.to_nat pos) (Z.to_nat n))) as El by (rewrite <- E; symmetry; apply length_room; lia).
  rewrite El in *. cbn [opened set_opened] in Hr'. rewrite insert_singleton_eq in Hr'. by apply HQ.
Qed.

Lemma take_splice_0 (b l : list Z) : take (length l) (splice b 0 l) = l.
Proof. unfold splice. by rewrite take_0, app_nil_l, take_app_length. Qed.

Lemma splice_0_length (b l : list Z) : (length l <= length b)%nat -> length (splice b 0 l) = length b.
Proof. intros Hl. apply splice_length. lia. Qed.

Lemma slice_len (c : list Z) pos n : 0 <= pos <= alen c -> 0 <= n -> alen (slice_of c (Z.to_nat pos) (Z.to_nat n)) = Z.min n (alen c - pos).
Proof. intros Hp Hn. unfold alen, slice_of in *. rewrite length_take, length_drop. lia. Qed.

(** C1: [fsutil_cat] prints every byte of the file once, page by page with its
    position, and closes the file. *)
Theorem cat_prints_file u A name c fuel :
  represents (fsy u) A -> opened A = ∅ -> 0 ∉ name -> file_of A name = Some c -> alen c + PGSIZE < 2 ^ 31 -> (length (dumps c) + 1 < fuel)%nat ->
  wp (fsutil_cat junk true fuel name) (fun _ u' => told u' = told u ++ dumps c /\ exists A', represents (fsy u') A' /\ opened A' = ∅ /\ forall n, file_of A' n = file_of A n) u.
Proof.
  intros Hr Ho Hn Hf Hb Hfuel. unfold file_of in Hf. destruct (names A !! name) as [x|] eqn:Ex; [|done]. simpl in Hf. change PGSIZE with 4096 in *. set (np := Z.to_nat ((alen c + 4096 - 1) / 4096)).
  assert (length (dumps c) = np) as Enp by (unfold dumps; by rewrite length_map, length_seq). pose proof (alen_nonneg c) as Hc0.
  assert (4096 * (Z.of_nat np - 1) < alen c <= 4096 * Z.of_nat np) as Hnp by (unfold np; pose proof (Z.div_mod (alen c + 4096 - 1) 4096 ltac:(lia)); pose proof (Z.mod_pos_bound (alen c + 4096 - 1) 4096 ltac:(lia)); lia).
  unfold fsutil_cat. wp_step. eapply open_wp; [done..|]. intros fp s Hfp Hr1. wp_step. apply panic_unless_wp; [by rewrite (proj2 (Z.eqb_neq _ _)) by lia|]. wp_step. apply panic_unless_wp; [done|]. wp_step.
  eapply (wp_mono _ (fun _ u' => told u' = told u ++ dumps c /\ exists pos, represents (fsy u') (set_opened A {[fp := OFile x pos false]}))).
  - apply (wp_loop (fun n b u' => exists i, n = (np - i)%nat /\ (i <= np)%nat /\ alen b = 4096 /\ told u' = told u ++ map (dump_of c) (seq 0 i) /\
      represents (fsy u') (set_opened A {[fp := OFile x (Z.min (4096 * Z.of_nat i) (alen c)) false]}))) with (n := np).
    + intros n b u' (i & -> & Hi & Hlb & Ht & Hri). set (pos := Z.min (4096 * Z.of_nat i) (alen c)) in *. unfold cat_turn. wp_step.
      eapply (fs_op_wp _ (OTell fp) RNum); [exact Hri|split; [cbn [opened set_opened]; rewrite map_size_singleton; lia|cbn [opened set_opened]; rewrite lookup_singleton_eq; by eexists]|done|].
      intros t s1 A1 (f & Ef & -> & ->) Hr2. cbn [opened set_opened] in Ef. rewrite lookup_singleton_eq in Ef. injection Ef as <-. cbn [o_pos]. wp_step.
      change PGSIZE with 4096. eapply (read_wp _ A fp x pos c); [exact Hr2|done|lia|lia|lia|]. cbv zeta. intros s2 Hr3. rewrite slice_len in * by lia. cbn [fst snd].
      destruct (Z.eqb_spec (Z.min 4096 (alen c - pos)) 0) as [E0|E0].
      * wp_step. split; [|by eexists]. assert (i = np) as -> by lia. cbn [told with_fs]. rewrite Ht. unfold dumps. change PGSIZE with 4096. done.
      * assert (i < np)%nat by lia. assert (pos = 4096 * Z.of_nat i) as Epos by lia. unfold tell. wp_step. apply wp_modify. wp_step. exists (np - S i)%nat. split; [lia|]. exists (S i). split; [done|]. split; [lia|].
        pose proof (slice_len c pos 4096 ltac:(lia) ltac:(lia)) as Esl. split; [unfold alen in *; rewrite splice_0_length by lia; lia|]. cbn [told with_fs fsy]. split.
        -- rewrite Ht, <- app_assoc, seq_S, map_app. do 2 f_equal. cbn [map Nat.add]. unfold dump_of. change PGSIZE with 4096. rewrite Epos. do 2 f_equal.
           rewrite <- Epos. replace (Z.to_nat (Z.min 4096 (alen c - pos))) with (length (slice_of c (Z.to_nat pos) (Z.to_nat 4096))) by (unfold alen in *; lia). apply take_splice_0.
        -- by replace (Z.min (4096 * Z.of_nat (S i)) (alen c)) with (pos + Z.min 4096 (alen c - pos)) by lia.
    + exists 0%nat. split; [lia|]. split; [lia|]. split; [done|]. split; [simpl; by rewrite app_nil_r|]. by replace (Z.min (4096 * Z.of_nat 0) (alen c)) with 0 by lia.
    + lia.
  - intros [] u' (Ht & pos & Hr2). eapply (close_wp _ _ fp); [exact Hr2|done|]. intros s2 A2 Hr3 _ Ho2 Hf2. split; [done|]. by exists A2.
Qed.

(** ** Archives *)

(** Sector [i] of the contents, filled up with zeros, and their number. *)
Definition sect (c : list Z) (i : Z) : list Z := let l := slice_of c (Z.to_nat (512 * i)) SECTOR in l ++ replicate (SECTOR - length l) 0.
Definition nsect (c : list Z) : Z := (alen c + 511) / 512.

Lemma nsect_bounds c : 512 * (nsect c - 1) < alen c <= 512 * nsect c /\ 0 <= nsect c.
Proof.
  unfold nsect. pose proof (alen_nonneg c). pose proof (Z.div_mod (alen c + 511) 512 ltac:(lia)). pose proof (Z.mod_pos_bound (alen c + 511) 512 ltac:(lia)). split; [lia|]. apply Z.div_pos; lia.
Qed.

(** A file in the archive from sector [pos] on. *)
Record archived (b : block) (pos : Z) (h c m : list Z) : Prop := {
  ar_header : (sectors b).[pos] = Some h;
  ar_data : forall i, 0 <= i < nsect c -> (sectors b).[pos + 1 + i] = Some (sect c i);
  ar_marker : (sectors b).[pos + 1 + nsect c] = Some m
}.

Lemma block_put b i d :
  block_ok b -> 0 <= i < alen (sectors b) -> length d = SECTOR ->
  exists b', block_write i d b = Ok (tt, b') /\ block_ok b' /\ bsize b' = bsize b /\ sectors b' = (sectors b).[i <- d].
Proof.
  intros Hb Hi Hd. destruct (proj1 (aget_is_Some _ _) Hi) as [x Hx]. eexists. split; [by apply (block_write_ok b i x)|]. destruct Hb as [H1 H2 H3]. split; [|done].
  split; simpl; [by rewrite alen_aset|by apply Forall_aset|done].
Qed.

Lemma scratch_write_wp u b i d (Q : unit -> util -> Prop) :
  scratch u = Some b -> block_ok b -> 0 <= i < alen (sectors b) -> length d = SECTOR ->
  (forall b', block_ok b' -> sectors b' = (sectors b).[i <- d] -> Q tt (with_scratch b' u)) -> wp (on_scratch (block_write i d)) Q u.
Proof. intros E Hb Hi Hd HQ. eapply on_scratch_wp; [done|]. destruct (block_put b i d Hb Hi Hd) as (b' & Ew & H1 & _ & H2). eapply wp_eq; [exact Ew|]. by apply HQ. Qed.

Lemma scratch_read_wp u b i d (Q : list Z -> util -> Prop) :
  scratch u = Some b -> block_ok b -> (sectors b).[i] = Some d ->
  (forall b', block_ok b' -> sectors b' = sectors b -> Q d (with_scratch b' u)) -> wp (on_scratch (block_read i)) Q u.
Proof. intros E Hb Hd HQ. eapply on_scratch_wp; [done|]. eapply wp_eq; [by apply (block_read_ok b i d)|]. apply HQ; [|done]. destruct Hb. by split. Qed.

Lemma chunk_size_eq c i : 0 <= i < nsect c -> (if BLOCK_SECTOR_SIZE <? alen c - 512 * i then BLOCK_SECTOR_SIZE else alen c - 512 * i) = Z.min 512 (alen c - 512 * i).
Proof. intros Hi. unfold BLOCK_SECTOR_SIZE. destruct (Z.ltb_spec 512 (alen c - 512 * i)); lia. Qed.

Lemma sect_length c i : length (sect c i) = SECTOR.
Proof. unfold sect, slice_of. rewrite length_app, length_replicate, length_take. unfold SECTOR. lia. Qed.

Lemma sect_slice c i : 0 <= i < nsect c -> take (Z.to_nat (Z.min 512 (alen c - 512 * i))) (sect c i) = slice_of c (Z.to_nat (512 * i)) (Z.to_nat (Z.min 512 (alen c - 512 * i))).
Proof.
  intros Hi. pose proof (nsect_bounds c) as [Hn _]. unfold sect, slice_of, alen, SECTOR in *. rewrite take_app_le by (rewrite length_take, length_drop; lia). rewrite take_take. f_equal. lia.
Qed.

(** The state of [fsutil_append] before sector [i]. *)
Record appending (u0 : util) (A : afs) (b0 : block) (fp : Z) (x : nat) (c h : list Z) (pos i : Z) (u : util) : Prop := {
  ap_fs : represents (fsy u) (set_opened A {[fp := OFile x (Z.min (512 * i) (alen c)) false]});
  ap_at : append_at u = pos + 1 + i;
  ap_scratch : exists b, scratch u = Some b /\ block_ok b /\ alen (sectors b) = alen (sectors b0) /\ (sectors b).[pos] = Some h /\ forall j, 0 <= j < i -> (sectors b).[pos + 1 + j] = Some (sect c j);
  ap_rest : told u = told u0 /\ extract_at u = extract_at u0
}.

Lemma append_turn_ok u0 A b0 fp x c h pos i u buffer :
  store A !! x = Some c -> alen c < 2 ^ 31 - 512 -> 0 <= pos -> pos + 1 + nsect c < alen (sectors b0) -> alen (sectors b0) < 2 ^ 32 -> 0 <= i < nsect c -> length buffer = SECTOR ->
  appending u0 A b0 fp x c h pos i u ->
  wp (append_turn fp (alen c - 512 * i, buffer)) (fun r u' => exists b', r = inl (alen c - 512 * i - Z.min 512 (alen c - 512 * i), b') /\ length b' = SECTOR /\ appending u0 A b0 fp x c h pos (i + 1) u') u.
Proof.
  intros Hc Hmax Hp Hroom H32 Hi Hbuf [Hfs Hat (b & Hb & Hok & Hlen & Hh & Hd) Hrest]. pose proof (nsect_bounds c) as [Hn _]. unfold append_turn. rewrite (proj2 (Z.ltb_lt _ _)) by lia. cbv zeta. rewrite chunk_size_eq by done.
  set (k := Z.min 512 (alen c - 512 * i)). wp_step. wp_step. wp_step. eapply on_scratch_wp; [done|]. unfold block_size. wp_step. wp_step. apply panic_unless_wp; [rewrite Hat, (bk_size _ Hok); apply Z.ltb_lt; lia|]. wp_step.
  replace (Z.min (512 * i) (alen c)) with (512 * i) in Hfs by lia.
  eapply (read_wp _ A fp x (512 * i) c buffer k); [exact Hfs|done|lia|unfold alen; rewrite Hbuf; unfold SECTOR; lia|lia|]. cbv zeta. intros s Hr. rewrite slice_len in * by lia. replace (Z.min k (alen c - 512 * i)) with k in * by lia.
  cbn [fst snd]. wp_step. apply panic_unless_wp; [apply Z.eqb_refl|]. wp_step. unfold next_append. wp_step. wp_step. wp_step. wp_step. cbn [append_at with_fs with_scratch fsy scratch extract_at told]. rewrite Hat, wrap_small by lia. wp_step.
  pose proof (slice_len c (512 * i) k ltac:(lia) ltac:(lia)) as Esl. set (l := slice_of c (Z.to_nat (512 * i)) (Z.to_nat k)) in *. replace (Z.min k (alen c - 512 * i)) with k in Esl by lia.
  assert (take (Z.to_nat k) (splice buffer 0 l) ++ replicate (SECTOR - Z.to_nat k) 0 = sect c i) as ->.
  { replace (Z.to_nat k) with (length l) by (unfold alen in Esl; lia). rewrite take_splice_0. unfold sect. assert (slice_of c (Z.to_nat (512 * i)) SECTOR = l) as -> by (unfold l, slice_of, alen, SECTOR in *; destruct (decide (k = 512)) as [->|]; [done|]; rewrite !firstn_all2; [done|rewrite length_drop; lia..]). done. }
  wp_step. eapply (scratch_write_wp _ b); [done|done|lia|apply sect_length|]. intros b' Hok' Es. wp_step. exists (sect c i). split; [done|]. split; [apply sect_length|].
  split; cbn [append_at with_fs with_scratch fsy scratch extract_at told]; [|lia| |done].
  - by replace (Z.min (512 * (i + 1)) (alen c)) with (512 * i + k) by lia.
  - exists b'. split; [done|]. split; [done|]. rewrite Es, alen_aset. split; [done|]. split; [by rewrite aget_aset_ne by lia|]. intros j Hj. destruct (decide (j = i)) as [->|Hne]; [apply aget_aset_eq; lia|]. rewrite aget_aset_ne by lia. apply Hd. lia.
Qed.

Definition marker (beyond : Z) : list Z := replicate (SECTOR - 1) 0 ++ [beyond].

(** What [fsutil_append] leaves. *)
Record appended (u0 : util) (A : afs) (b0 : block) (pos : Z) (h c : list Z) (beyond : Z) (u : util) : Prop := {
  ad_scratch : exists b, scratch u = Some b /\ block_ok b /\ alen (sectors b) = alen (sectors b0) /\ archived b pos h c (marker beyond);
  ad_at : append_at u = pos + 1 + nsect c;
  ad_fs : exists A', represents (fsy u) A' /\ opened A' = ∅ /\ forall n, file_of A' n = file_of A n
}.

Lemma append_end u0 A b0 fp x c h pos beyond u :
  0 <= pos -> pos + 1 + nsect c < alen (sectors b0) -> appending u0 A b0 fp x c h pos (nsect c) u ->
  wp (u ← get; on_scratch (block_write (append_at u) (replicate SECTOR 0));; on_scratch (block_write (append_at u) (replicate (SECTOR - 1) 0 ++ [beyond]));; on_fs (file_close fp))
    (fun _ u' => appended u0 A b0 pos h c beyond u') u.
Proof.
  intros Hp Hroom [Hfs Hat (b & Hb & Hok & Hlen & Hh & Hd) Hrest]. pose proof (nsect_bounds c) as [Hn Hn0]. wp_step. wp_step. wp_step. rewrite Hat.
  eapply (scratch_write_wp _ b); [done|done|lia|apply length_replicate|]. intros b1 Hok1 E1. wp_step.
  eapply (scratch_write_wp _ b1); [done|done|rewrite E1, alen_aset; lia|rewrite length_app, length_replicate; done|]. intros b2 Hok2 E2. rewrite E1, aset_aset in E2.
  eapply (close_wp _ (set_opened A {[fp := OFile x (Z.min (512 * nsect c) (alen c)) false]}) fp); [exact Hfs|done|]. intros s A' Hr' _ Ho' Hf'. split; [|exact Hat|by exists A'].
  exists b2. split; [done|]. split; [done|]. rewrite E2, alen_aset. split; [done|]. split; rewrite E2; [by rewrite aget_aset_ne by lia|intros i Hi; rewrite aget_aset_ne by lia; by apply Hd|apply aget_aset_eq; lia].
Qed.

Lemma fsutil_append_ok u A name c b beyond :
  represents (fsy u) A -> opened A = ∅ -> file_of A name = Some c -> alen c < 2 ^ 31 - 512 -> name_chars name -> social name -> alen name <= 99 ->
  scratch u = Some b -> block_ok b -> 0 <= append_at u -> append_at u + 1 + nsect c < alen (sectors b) -> alen (sectors b) < 2 ^ 32 ->
  wp (fsutil_append junk true beyond name) (fun _ u' => appended u A b (append_at u) (header_of name USTAR_REGULAR (alen c)) c beyond u') u.
Proof.
  intros Hr Ho Hf Hmax Hn Hsoc Hl Hb Hok Hp Hroom H32. unfold file_of in Hf. destruct (names A !! name) as [x|] eqn:Ex; [|done]. simpl in Hf. pose proof (alen_nonneg c) as Hc0. pose proof (nsect_bounds c) as [Hnb Hn0].
  assert (0 ∉ name) as Hz by (intros H0; unfold name_chars in Hn; rewrite Forall_forall in Hn; by destruct (Hn 0 H0)).
  unfold fsutil_append. wp_step. apply panic_unless_wp; [done|]. wp_step. eapply open_wp; [done..|]. intros fp s Hfp Hr1. wp_step. apply panic_unless_wp; [by rewrite (proj2 (Z.eqb_neq _ _)) by lia|]. wp_step.
  apply on_files_wp. eapply wp_eq; [eapply (file_length_ok _ _ fp (OFile x 0 false) c); [exact Hr1|apply lookup_singleton_eq|done]|]. wp_step. wp_step. wp_step. apply panic_unless_wp; [apply bool_decide_eq_true_2; simpl; rewrite Hb; by eexists|].
  rewrite (make_ok name USTAR_REGULAR (alen c) Hn Hl (or_introl eq_refl) ltac:(lia) name) by (by apply strip_social). set (h := header_of name USTAR_REGULAR (alen c)).
  assert (length h = SECTOR) as Hlh by (apply header_length; [done|done|by left|lia]).
  wp_step. unfold next_append. wp_step. wp_step. wp_step. wp_step. wp_step. cbn [append_at with_fs fsy scratch extract_at told]. rewrite wrap_small by lia.
  wp_step. eapply (scratch_write_wp _ b); [done|done|lia|done|]. intros b1 Hok1 E1. wp_step.
  eapply (wp_mono _ (fun _ u' => appending u A b fp x c h (append_at u) (nsect c) u')).
  - apply (wp_loop (fun n a u' => exists i, n = Z.to_nat (nsect c - i) /\ 0 <= i <= nsect c /\ a.1 = Z.max 0 (alen c - 512 * i) /\ length a.2 = SECTOR /\ appending u A b fp x c h (append_at u) i u')) with (n := Z.to_nat (nsect c)).
    + intros n [size buffer] u' (i & -> & Hi & Esz & Hlb & Ha). cbn [fst snd] in *. destruct (decide (i = nsect c)) as [->|Hne].
      * assert (size = 0) as -> by lia. unfold append_turn. simpl. by wp_step.
      * replace size with (alen c - 512 * i) by lia. eapply wp_mono; [eapply (append_turn_ok u A b fp x c h (append_at u) i); (done || lia)|].
        intros r u'' (b' & -> & Hb' & Ha'). exists (Z.to_nat (nsect c - (i + 1))). split; [lia|]. exists (i + 1). cbn [fst snd]. split; [done|]. split; [lia|]. split; [lia|]. done.
    + exists 0. cbn [fst snd]. split; [f_equal; lia|]. split; [lia|]. split; [lia|]. split; [done|]. split; cbn [append_at with_fs with_scratch fsy scratch extract_at told]; [by replace (Z.min (512 * 0) (alen c)) with 0 by lia|lia| |done].
      exists b1. split; [done|]. split; [done|]. rewrite E1, alen_aset. split; [done|]. split; [apply aget_aset_eq; lia|lia].
    + lia.
  - intros _ u' Ha. by eapply (append_end u A b fp x).
Qed.

(** ** Extraction *)

(** The contents when the first [p] bytes are written. *)
Definition partial (c : list Z) (p : Z) : list Z := take (Z.to_nat p) c ++ replicate (length c - Z.to_nat p) 0.

Lemma partial_length c p : 0 <= p <= alen c -> alen (partial c p) = alen c.
Proof. intros Hp. unfold alen, partial in *. rewrite length_app, length_take, length_replicate. lia. Qed.

Lemma partial_write c p k : 0 <= p -> 0 <= k -> p + k <= alen c -> splice (partial c p) (Z.to_nat p) (slice_of c (Z.to_nat p) (Z.to_nat k)) = partial c (p + k).
Proof.
  intros Hp Hk Hb. unfold splice, partial, slice_of, alen in *. rewrite length_take, length_drop. rewrite take_app_length' by (rewrite length_take; lia). rewrite drop_app_ge by (rewrite length_take; lia).
  rewrite length_take, drop_replicate, app_assoc. f_equal; [|f_equal; lia]. rewrite take_take_drop. f_equal. lia.
Qed.

(** The state of the copy before sector [i]. *)
Record copying (u0 : util) (A : afs) (b : block) (fp : Z) (x : nat) (c : list Z) (p1 i : Z) (u : util) : Prop := {
  cy_fs : represents (fsy u) (AFS (names A) (<[x := partial c (Z.min (512 * i) (alen c))]> (store A)) {[fp := OFile x (Z.min (512 * i) (alen c)) false]});
  cy_at : extract_at u = p1 + i;
  cy_scratch : exists b', scratch u = Some b' /\ block_ok b' /\ sectors b' = sectors b
}.

Lemma extract_turn_ok u0 A b fp x c p1 i u :
  alen c < 2 ^ 31 - 512 -> (forall j, 0 <= j < nsect c -> (sectors b).[p1 + j] = Some (sect c j)) -> 0 <= p1 -> alen (sectors b) < 2 ^ 32 -> 0 <= i < nsect c -> copying u0 A b fp x c p1 i u ->
  wp (extract_turn fp (alen c - 512 * i)) (fun r u' => r = inl (alen c - 512 * i - Z.min 512 (alen c - 512 * i)) /\ copying u0 A b fp x c p1 (i + 1) u') u.
Proof.
  intros Hmax Hd Hp H32 Hi [Hfs Hat (b' & Hb & Hok & Es)]. pose proof (nsect_bounds c) as [Hn _]. pose proof (Hd i Hi) as Hdi. pose proof (aget_lt _ _ _ Hdi) as Hdl. unfold extract_turn. rewrite (proj2 (Z.ltb_lt _ _)) by lia. cbv zeta. rewrite chunk_size_eq by done.
  wp_step. unfold next_extract. wp_step. wp_step. wp_step. wp_step. rewrite Hat, wrap_small by lia. wp_step. wp_step. eapply (scratch_read_wp _ b'); [done|done|rewrite Es; exact Hdi|]. intros b1 Hok1 E1. wp_step. rewrite sect_slice by done.
  set (k := Z.min 512 (alen c - 512 * i)). set (l := slice_of c (Z.to_nat (512 * i)) (Z.to_nat k)). pose proof (slice_len c (512 * i) k ltac:(lia) ltac:(lia)) as El. fold l in El. replace (Z.min k (alen c - 512 * i)) with k in El by lia.
  replace (Z.min (512 * i) (alen c)) with (512 * i) in Hfs by lia.
  eapply (fs_op_wp _ (OWrite fp l) RNum); [exact Hfs|split; [cbn [opened]; rewrite map_size_singleton; lia|exists (OFile x (512 * i) false); split; [apply lookup_singleton_eq|cbn [o_pos]; lia]]|simpl; by rewrite El|].
  intros n s A' (f & c' & Ef & Ec & _ & En & ->) Hr. cbn [opened store names] in *. rewrite lookup_singleton_eq in Ef. injection Ef as <-. cbn [o_file o_pos o_deny] in *. rewrite lookup_insert_eq in Ec. injection Ec as <-.
  assert (n = k) as ->. { rewrite En; [unfold room_at; rewrite partial_length, El by lia; lia|]. intros (fp' & o & Ho & _ & Hdn). cbn [opened] in Ho. apply lookup_singleton_Some in Ho as [_ <-]. done. }
  wp_step. apply panic_unless_wp; [apply Z.eqb_refl|]. wp_step. split; [done|]. split; cbn [fsy with_fs with_scratch extract_at scratch]; [|lia|exists b1; split; [done|]; split; [done|]; by rewrite E1].
  rewrite insert_insert_eq, insert_singleton_eq in Hr. replace (take (Z.to_nat k) l) with l in Hr by (rewrite firstn_all2; [done|unfold alen in El; lia]). unfold l in Hr. rewrite partial_write in Hr by lia.
  by replace (Z.min (512 * (i + 1)) (alen c)) with (512 * i + k) by lia.
Qed.

(** The file system with one more file. *)
Definition adds (A A' : afs) (name c : list Z) : Prop := opened A' = ∅ /\ forall n, file_of A' n = if decide (n = name) then Some c else file_of A n.

Lemma file_of_new A x name c (op : gmap Z ofile) n : ~ alive A x -> file_of (AFS (<[name := x]> (names A)) (<[x := c]> (store A)) op) n = if decide (n = name) then Some c else file_of A n.
Proof.
  intros Hx. unfold file_of. cbn [names store]. case_decide as E; [subst n; rewrite lookup_insert_eq; simpl; apply lookup_insert_eq|]. rewrite lookup_insert_ne by done. destruct (names A !! n) as [y|] eqn:Ey; [|done]. simpl.
  rewrite lookup_insert_ne; [done|]. intros ->. apply Hx. left. by exists n.
Qed.

Lemma partial_0 c : partial c 0 = replicate (Z.to_nat (alen c)) 0.
Proof. unfold partial, alen. rewrite Nat2Z.id. simpl. by rewrite Nat.sub_0_r. Qed.

Lemma partial_all c : partial c (alen c) = c.
Proof. unfold partial, alen. rewrite Nat2Z.id, firstn_all, Nat.sub_diag. simpl. apply app_nil_r. Qed.

(** A file of that name and size can be created. *)
Definition creatable (s : fsys) (name : list Z) (size : Z) : Prop := exists s', filesys_create name size junk s = Ok (true, s').

Lemma create_wp u A name n (Q : bool -> util -> Prop) :
  represents (fsy u) A -> opened A = ∅ -> 0 ∉ name -> 0 <= n < 2 ^ 31 -> creatable (fsy u) name n ->
  (forall s x, ~ alive A x -> represents s (AFS (<[name := x]> (names A)) (<[x := replicate (Z.to_nat n) 0]> (store A)) (opened A)) -> Q true (with_fs s u)) ->
  wp (on_fs (filesys_create name n junk)) Q u.
Proof.
  intros Hr Ho Hz Hn [s' E] HQ. apply on_files_wp. assert (fs_pre (OCreate name n) A) as Hpre by (split; [by rewrite Ho|done]).
  pose proof (run_fs_ok (fsy u) A (OCreate name n) junk Hr Hpre Hjunk) as H. apply (wp_bind_ret _ RBool) in H. unfold wp in H. rewrite E in H. destruct H as (A' & (_ & _ & x & Hx & ->) & Hr').
  eapply wp_eq; [exact E|]. by apply (HQ s' x).
Qed.

Lemma extract_file_ok u A b name c :
  represents (fsy u) A -> opened A = ∅ -> valid_name name -> creatable (fsy u) name (alen c) -> alen c < 2 ^ 31 - 512 ->
  scratch u = Some b -> block_ok b -> (forall j, 0 <= j < nsect c -> (sectors b).[extract_at u + j] = Some (sect c j)) -> 0 <= extract_at u -> alen (sectors b) < 2 ^ 32 ->
  wp (extract_file junk name (alen c)) (fun _ u' => extract_at u' = extract_at u + nsect c /\ (exists b', scratch u' = Some b' /\ block_ok b' /\ sectors b' = sectors b) /\
    exists A', represents (fsy u') A' /\ adds A A' name c) u.
Proof.
  intros Hr Ho Hv Hroom Hmax Hb Hok Hd Hp H32. pose proof (nsect_bounds c) as [Hn Hn0]. pose proof (alen_nonneg c) as Hc0. assert (0 ∉ name) as Hz by apply Hv. unfold extract_file.
  wp_step. eapply (create_wp _ A); [done|done|done|lia|done|]. intros s x Hx Hr1. wp_step. apply panic_unless_wp; [done|]. wp_step.
  eapply (open_wp _ _ name x); [exact Hr1|by rewrite Ho|done|apply lookup_insert_eq|]. intros fp s2 Hfp Hr2. wp_step. apply panic_unless_wp; [by rewrite (proj2 (Z.eqb_neq _ _)) by lia|]. wp_step.
  set (A1 := AFS (<[name := x]> (names A)) (store A) ∅). eapply (wp_mono _ (fun _ u' => copying u A1 b fp x c (extract_at u) (nsect c) u')).
  - apply (wp_loop (fun n size u' => exists i, n = Z.to_nat (nsect c - i) /\ 0 <= i <= nsect c /\ size = Z.max 0 (alen c - 512 * i) /\ copying u A1 b fp x c (extract_at u) i u')) with (n := Z.to_nat (nsect c)).
    + intros n size u' (i & -> & Hi & -> & Hcy). destruct (decide (i = nsect c)) as [->|Hne].
      * replace (Z.max 0 (alen c - 512 * nsect c)) with 0 by lia. unfold extract_turn. simpl. by wp_step.
      * replace (Z.max 0 (alen c - 512 * i)) with (alen c - 512 * i) by lia. eapply wp_mono; [eapply (extract_turn_ok u A1 b fp x c (extract_at u) i); (done || lia)|].
        intros r u'' [-> Hcy']. exists (Z.to_nat (nsect c - (i + 1))). split; [lia|]. exists (i + 1). split; [done|]. split; [lia|]. split; [lia|done].
    + exists 0. split; [f_equal; lia|]. split; [lia|]. split; [lia|]. split; cbn [fsy with_fs extract_at scratch]; [|lia|by exists b]. replace (Z.min (512 * 0) (alen c)) with 0 by lia. rewrite partial_0. exact Hr2.
    + lia.
  - intros [] u' [Hfs Hat Hsc]. replace (Z.min (512 * nsect c) (alen c)) with (alen c) in Hfs by lia. rewrite partial_all in Hfs.
    eapply (close_wp _ _ fp); [exact Hfs|done|]. intros s3 A3 Hr3 _ Ho3 Hf3. split; [done|]. split; [done|]. exists A3. split; [done|]. split; [done|]. intros n. rewrite Hf3. by apply (file_of_new A x).
Qed.

Lemma marker_parse beyond : ustar_parse_header (marker beyond) = if beyond =? 0 then Ok (inr (None, USTAR_EOF, 0)) else Ok (inl Not_ustar).
Proof.
  unfold ustar_parse_header. assert (is_all_zeros (take (Z.to_nat USTAR_HEADER_SIZE) (marker beyond)) = (beyond =? 0)) as ->.
  { change (take (Z.to_nat USTAR_HEADER_SIZE) (marker beyond)) with (marker beyond). unfold is_all_zeros, marker. rewrite forallb_app. replace (forallb (Z.eqb 0) (replicate (SECTOR - 1) 0)) with true by (vm_compute; done). by destruct beyond. }
  destruct (beyond =? 0); [done|]. replace (get_field (marker beyond) F_magic) with (replicate 6 0) by (vm_compute; done). done.
Qed.

(** A device with a file in the archive, and where extraction will start. *)
Definition ready (u : util) (name c : list Z) (beyond : Z) : Prop :=
  exists b, scratch u = Some b /\ block_ok b /\ alen (sectors b) < 2 ^ 32 /\ archived b (extract_at u) (header_of name USTAR_REGULAR (alen c)) c (marker beyond).

Lemma extract_entry_ok u A name c beyond :
  represents (fsy u) A -> opened A = ∅ -> valid_name name -> name_chars name -> social name -> creatable (fsy u) name (alen c) -> alen c < 2 ^ 31 - 512 -> ready u name c beyond ->
  wp (extract_entry junk ()) (fun r u' => r = inl () /\ (exists b', scratch u' = Some b' /\ block_ok b' /\ 2 <= alen (sectors b') < 2 ^ 32 /\ (sectors b').[extract_at u'] = Some (marker beyond)) /\ 0 <= extract_at u' < 2 ^ 32 /\
    exists A', represents (fsy u') A' /\ adds A A' name c) u.
Proof.
  intros Hr Ho Hv Hn Hsoc Hroom Hmax (b & Hb & Hok & H32 & [Hh Hd Hm]). pose proof (aget_lt _ _ _ Hh) as Hpl. pose proof (aget_lt _ _ _ Hm) as Hml. pose proof (nsect_bounds c) as [_ Hn0]. pose proof (alen_nonneg c).
  assert (alen name <= 99) as Hl by (destruct Hv as [_ Hv]; unfold alen; lia).
  unfold extract_entry. wp_step. unfold next_extract. wp_step. wp_step. wp_step. wp_step. rewrite wrap_small by lia. wp_step. wp_step. eapply (scratch_read_wp _ b); [done|done|exact Hh|]. intros b1 Hok1 E1.
  rewrite parse_header_ok by (done || lia || by left). rewrite Z.eqb_refl. change (USTAR_REGULAR =? USTAR_EOF) with false. change (USTAR_REGULAR =? USTAR_DIRECTORY) with false. cbv iota. wp_step. cbn [default].
  eapply wp_mono; [apply (extract_file_ok _ A b1 name c); cbn [fsy scratch extract_at with_scratch]; try (done || lia); [intros j Hj; rewrite E1; by apply Hd|by rewrite E1]|].
  cbn [extract_at with_scratch]. intros [] u' (Hat & (b' & Hb' & Hok' & Es') & HA). wp_step. split; [done|]. split; [|split; [rewrite Hat; lia|done]]. exists b'. split; [done|]. split; [done|]. rewrite Es', E1, Hat. split; [lia|done].
Qed.

(** At the marker the archive ends, or the kernel stops. *)
Lemma extract_marker_ok u b beyond : scratch u = Some b -> block_ok b -> (sectors b).[extract_at u] = Some (marker beyond) ->
  if beyond =? 0 then wp (extract_entry junk ()) (fun r u' => r = inr () /\ fsy u' = fsy u /\ exists b', scratch u' = Some b' /\ block_ok b' /\ sectors b' = sectors b) u
  else extract_entry junk () u = Err PanicHalt.
Proof.
  intros Hb Hok Hm. unfold extract_entry, next_extract. destruct (beyond =? 0) eqn:E.
  - wp_step. wp_step. wp_step. wp_step. wp_step. wp_step. wp_step. eapply (scratch_read_wp _ b); [done|done|exact Hm|]. intros b1 Hok1 E1. rewrite marker_parse, E. simpl. wp_step. split; [done|]. split; [done|]. by exists b1.
  - set (u1 := Util (fsy u) (scratch u) (u32 (extract_at u + 1)) (append_at u) (told u)). rewrite (bind_eq _ _ u (extract_at u) u1) by done.
    rewrite (bind_eq _ _ u1 (marker beyond) (with_scratch (Block (bname b) (btype b) (bsize b) (sectors b) (u64 (read_cnt b + 1)) (write_cnt b)) u1)); [by rewrite marker_parse, E|].
    unfold on_scratch. simpl. rewrite Hb. by rewrite (block_read_ok b _ _ Hok Hm).
Qed.

Lemma loop_next {S A B} (step : A -> M S (A + B)) n a s a' s' : step a s = Ok (inl a', s') -> loop (Datatypes.S n) step a s = loop n step a' s'.
Proof. intros E. simpl. by rewrite (bind_eq _ _ _ _ _ E). Qed.

(** C1: A file that [fsutil_append] put into an archive, extracted from there on
    another file system where such a file can be created, is there with its name
    and all its bytes, and the other files are as they were.  That is so if the byte after the buffer of [fsutil_append] happens to be zero: its
    second write is of the same sector again and one byte further on in memory,
    instead of a second sector of zeros.  If the byte is not zero, extraction of
    the archive stops the kernel. *)
Theorem archive_round_trip u A name c b beyond fuel :
  represents (fsy u) A -> opened A = ∅ -> file_of A name = Some c -> alen c < 2 ^ 31 - 512 -> valid_name name -> name_chars name -> social name ->
  scratch u = Some b -> block_ok b -> 0 <= append_at u -> append_at u + 1 + nsect c < alen (sectors b) -> alen (sectors b) < 2 ^ 32 -> (2 < fuel)%nat ->
  wp (fsutil_append junk true beyond name) (fun _ u1 => (exists A1, represents (fsy u1) A1 /\ opened A1 = ∅ /\ forall n, file_of A1 n = file_of A n) /\
    forall s2 A2, represents s2 A2 -> opened A2 = ∅ -> creatable s2 name (alen c) ->
      let u2 := Util s2 (scratch u1) (append_at u) 0 [] in
      if beyond =? 0 then wp (fsutil_extract junk true fuel) (fun _ u3 => exists A3, represents (fsy u3) A3 /\ adds A2 A3 name c) u2
      else fsutil_extract junk true fuel u2 = Err PanicHalt) u.
Proof.
  intros Hr Ho Hf Hmax Hv Hn Hsoc Hb Hok Hp Hroom H32 Hfuel. assert (alen name <= 99) as Hl by (destruct Hv as [_ Hv]; unfold alen; lia).
  eapply wp_mono; [by apply (fsutil_append_ok u A name c b beyond)|]. intros [] u1 [(b1 & Hb1 & Hok1 & Hl1 & Har) _ HA1]. split; [done|]. intros s2 A2 Hr2 Ho2 Hroom2. cbv zeta. set (u2 := Util s2 (scratch u1) (append_at u) 0 []).
  assert (ready u2 name c beyond) as Hrd by (exists b1; split; [done|]; split; [done|]; split; [lia|done]).
  destruct (proj1 (wp_iff _ _ _) (extract_entry_ok u2 A2 name c beyond Hr2 Ho2 Hv Hn Hsoc Hroom2 Hmax Hrd)) as (r & u' & E & -> & (b' & Hb' & Hok' & Hlb & Hm') & Hat' & A3 & Hr3 & Hadd).
  pose proof (extract_marker_ok u' b' beyond Hb' Hok' Hm') as Hmk. destruct fuel as [|[|fuel]]; [lia..|].
  assert (fsutil_extract junk true (S (S fuel)) u2 = (loop (S fuel) (extract_entry junk) ();; on_scratch (block_write 0 (replicate SECTOR 0));; on_scratch (block_write 1 (replicate SECTOR 0))) u') as Eex.
  { unfold fsutil_extract, panic_unless. unfold mbind at 1 2 3, M_bind at 1 2 3, mret, M_ret, get. rewrite bool_decide_eq_true_2 by (simpl; rewrite Hb1; by eexists). unfold mbind at 1 3, M_bind at 1 3. rewrite (loop_next _ _ _ _ _ _ E). done. }
  unfold wp. rewrite Eex. destruct (beyond =? 0).
  - apply wp_iff in Hmk as (r & u'' & E2 & -> & Efs & b'' & Hb'' & Hok'' & Es'').
    change (wp (loop (S fuel) (extract_entry junk) ();; on_scratch (block_write 0 (replicate SECTOR 0));; on_scratch (block_write 1 (replicate SECTOR 0))) (fun _ u3 => exists A3, represents (fsy u3) A3 /\ adds A2 A3 name c) u').
    wp_step. eapply wp_eq; [simpl; by rewrite (bind_eq _ _ _ _ _ E2)|]. wp_step.
    eapply (scratch_write_wp _ b''); [done|done|rewrite Es''; lia|apply length_replicate|]. intros b3 Hok3 E3. eapply (scratch_write_wp _ b3); [done|done|rewrite E3, alen_aset, Es''; lia|apply length_replicate|]. intros b4 _ _. exists A3. simpl. rewrite Efs. done.
  - unfold mbind at 1, M_bind at 1. simpl. by rewrite (bind_err _ _ _ _ Hmk).
Qed.
End proof.

(** ** An example *)
Definition formatted_fs : fsys := match filesys_init (Some small_device) [123] true boot_state with Ok (_, s) => s | Err _ => boot_state end.

#[local] Opaque filesys_init.

Lemma formatted_ok : represents formatted_fs FsMount.empty_fs.
Proof.
  destruct small_device_ok as (H1 & H2 & H3 & H4). pose proof (FsMount.format_ok small_device boot_state [123] H1 eq_refl H2 H3 H4) as H. unfold wp in H. unfold formatted_fs.
  destruct (filesys_init (Some small_device) [123] true boot_state) as [[[] s]|]; [exact H|done].
Qed.

Lemma formatted_room : creatable stack_junk formatted_fs [97] 600.
Proof.
  assert (match filesys_create [97] 600 stack_junk formatted_fs with Ok (true, _) => true | _ => false end = true) as E by (vm_compute; reflexivity). unfold creatable.
  destruct (filesys_create [97] 600 stack_junk formatted_fs) as [[[] s]|]; [by exists s|done..].
Qed.

#[local] Opaque formatted_fs filesys_create.

(** A file of 600 zeros. *)
Lemma demo_file : exists s A, represents s A /\ opened A = ∅ /\ file_of A [97] = Some (replicate 600 0).
Proof.
  assert (wp (on_fs (filesys_create [97] 600 stack_junk)) (fun _ u' => exists A, represents (fsy u') A /\ opened A = ∅ /\ file_of A [97] = Some (replicate 600 0)) (Util formatted_fs None 0 0 [])) as H.
  { apply (create_wp stack_junk eq_refl _ FsMount.empty_fs); [exact formatted_ok|done|by intros ?%list_elem_of_singleton|lia|exact formatted_room|]. intros s x Hx Hr. eexists. split; [exact Hr|]. split; [done|]. rewrite file_of_new by done. by rewrite decide_True. }
  destruct (proj1 (wp_iff _ _ _) H) as (b & u' & _ & A & Hr & Ho & Hf). exists (fsy u'), A. split; [exact Hr|]. split; [exact Ho|exact Hf].
Qed.

Lemma cat_prints_file_witness : exists u, wp (fsutil_cat stack_junk true 5 [97]) (fun _ u' => told u' = dumps (replicate 600 0)) u.
Proof.
  destruct demo_file as (s & A & Hr & Ho & Hf). exists (Util s None 0 0 []).
  eapply wp_mono; [apply (cat_prints_file stack_junk eq_refl (Util s None 0 0 []) A [97] (replicate 600 0) 5 Hr Ho); [by intros ?%list_elem_of_singleton|exact Hf|vm_compute; done|vm_compute; lia]|]. intros [] u' [Ht _]. exact Ht.
Defined.

Definition empty_device : block := Block [] BLOCK_SCRATCH 8 (replicate 8 (replicate SECTOR 0)) 0 0.

Lemma archive_round_trip_witness : exists u,
  wp (fsutil_append stack_junk true 0 [97]) (fun _ u1 =>
    wp (fsutil_extract stack_junk true 5) (fun _ u3 => exists A3, represents (fsy u3) A3 /\ file_of A3 [97] = Some (replicate 600 0)) (Util formatted_fs (scratch u1) 0 0 [])) u.
Proof.
  destruct demo_file as (s & A & Hr & Ho & Hf). exists (Util s (Some empty_device) 0 0 []).
  eapply wp_mono; [apply (archive_round_trip stack_junk eq_refl (Util s (Some empty_device) 0 0 []) A [97] (replicate 600 0) empty_device 0 5 Hr Ho Hf)|].
  - vm_compute. done.
  - split; [by intros ?%list_elem_of_singleton|simpl; lia].
  - repeat constructor; done.
  - split; [done|]. split; [vm_compute; done|done].
  - done.
  - split; [done|by apply Forall_replicate|done].
  - done.
  - vm_compute. done.
  - vm_compute. done.
  - lia.
  - intros [] u1 [_ H]. specialize (H formatted_fs FsMount.empty_fs formatted_ok eq_refl formatted_room). cbv zeta in H. change (0 =? 0) with true in H. cbv iota in H.
    eapply wp_mono; [exact H|]. intros [] u3 (A3 & Hr3 & _ & Hf3). exists A3. split; [exact Hr3|]. rewrite Hf3. by rewrite decide_True.
Defined.
