(* ===== verification/Vm.v ===== *)
(** * Virtual memory (src/vm/frame.c, src/vm/page.c, src/vm/swap.c, and
      [page_fault] of src/userprog/exception.c)

    Pages of a process come to memory when it touches them: the page fault
    handler looks the page up in the supplemental page table, gets a frame, from
    which it may have to evict a page, and fills it from the executable or from
    swap.  The page directories are used through the interface [Paging], whose
    operations Pagedir implements (file VmPaging).  A supplemental page table is a
    map from page numbers to entries, which is what hash.c implements (Khash);
    entries are objects that are shared and updated through pointers.  Frames
    are pages of 4096 bytes.  A call of [exit] ends the process, and the function
    that called it returns no value: [None]. *)

From S2P Require Import Prelude Khash Vaddr Block Inode FreeMap.

(** What virtual memory uses of page directories: the operations of pagedir.c
    on some state. *)
Class Paging (P : Type) := {
  pg_get_page : Z -> Z -> M P Z;
  pg_set_page : Z -> Z -> Z -> bool -> M P bool;
  pg_clear_page : Z -> Z -> M P unit;
  pg_is_dirty : Z -> Z -> M P bool;
  pg_is_accessed : Z -> Z -> M P bool;
  pg_set_accessed : Z -> Z -> bool -> M P unit
}.

(** ** Data *)
Record SPT_entry := SPTE {
  is_stack_page : bool;
  sp_vaddr : Z;
  page_number : Z;
  resident_bit : bool;
  swap_index : Z;
  dirty_bit : bool;
  sp_ofs : Z;
  page_read_bytes : Z;
  page_zero_bytes : Z;
  writable : bool
}.

Definition FT_EMPTY : Z := 0.
Definition FT_FULL : Z := 1.

Record FrameTableEntry := Frame { frame_ptr : Z; ft_status : Z; ft_vaddr : Z }.

Record Swap_entry := Swap { sw_tid : Z; sw_vaddr : Z }.

(** What the virtual memory uses of [struct thread]. *)
Record proc := Proc { pagedir : Z; SP_table : gmap Z Z; executable : Z; esp : Z }.

Record vm {P : Type} := VM {
  pgs : P;
  frame_table : list FrameTableEntry;
  max_frame : Z;
  bump_ptr : Z;
  sptes : gmap Z SPT_entry;          (* entries by address *)
  next_spte : Z;
  callocs : list bool;               (* outcomes of the next allocations *)
  swap_table : list Swap_entry;
  entries : Z;
  swap_block : block;
  ram : gmap Z (list Z);             (* contents of frames by address *)
  fsy : fsys;
  procs : gmap Z proc;
  running : Z                        (* tid of the running thread *)
}.
Arguments vm : clear implicits.

Section vm_operations.
Context {P : Type} `{!Paging P}.
Abbreviation V := (vm P).

(** ** Field updates and parts of the state *)
Definition set_pgs (x : P) (s : V) : V :=
  VM P x (frame_table s) (max_frame s) (bump_ptr s) (sptes s) (next_spte s) (callocs s) (swap_table s) (entries s) (swap_block s) (ram s) (fsy s) (procs s) (running s).
Definition set_frames (l : list FrameTableEntry) (s : V) : V :=
  VM P (pgs s) l (max_frame s) (bump_ptr s) (sptes s) (next_spte s) (callocs s) (swap_table s) (entries s) (swap_block s) (ram s) (fsy s) (procs s) (running s).
Definition set_bump (n : Z) (s : V) : V :=
  VM P (pgs s) (frame_table s) (max_frame s) n (sptes s) (next_spte s) (callocs s) (swap_table s) (entries s) (swap_block s) (ram s) (fsy s) (procs s) (running s).
Definition set_sptes (m : gmap Z SPT_entry) (s : V) : V :=
  VM P (pgs s) (frame_table s) (max_frame s) (bump_ptr s) m (next_spte s) (callocs s) (swap_table s) (entries s) (swap_block s) (ram s) (fsy s) (procs s) (running s).
Definition set_calloc (n : Z) (l : list bool) (s : V) : V :=
  VM P (pgs s) (frame_table s) (max_frame s) (bump_ptr s) (sptes s) n l (swap_table s) (entries s) (swap_block s) (ram s) (fsy s) (procs s) (running s).
Definition set_swap (l : list Swap_entry) (s : V) : V :=
  VM P (pgs s) (frame_table s) (max_frame s) (bump_ptr s) (sptes s) (next_spte s) (callocs s) l (entries s) (swap_block s) (ram s) (fsy s) (procs s) (running s).
Definition set_swap_block (b : block) (s : V) : V :=
  VM P (pgs s) (frame_table s) (max_frame s) (bump_ptr s) (sptes s) (next_spte s) (callocs s) (swap_table s) (entries s) b (ram s) (fsy s) (procs s) (running s).
Definition set_ram (m : gmap Z (list Z)) (s : V) : V :=
  VM P (pgs s) (frame_table s) (max_frame s) (bump_ptr s) (sptes s) (next_spte s) (callocs s) (swap_table s) (entries s) (swap_block s) m (fsy s) (procs s) (running s).
Definition set_fsy (f : fsys) (s : V) : V :=
  VM P (pgs s) (frame_table s) (max_frame s) (bump_ptr s) (sptes s) (next_spte s) (callocs s) (swap_table s) (entries s) (swap_block s) (ram s) f (procs s) (running s).
Definition set_procs (m : gmap Z proc) (s : V) : V :=
  VM P (pgs s) (frame_table s) (max_frame s) (bump_ptr s) (sptes s) (next_spte s) (callocs s) (swap_table s) (entries s) (swap_block s) (ram s) (fsy s) m (running s).

Definition on_pg {A} (m : M P A) : M V A := fun s =>
  match m (pgs s) with Ok (a, x) => Ok (a, set_pgs x s) | Err e => Err e end.
Definition on_swap {A} (m : M block A) : M V A := fun s =>
  match m (swap_block s) with Ok (a, x) => Ok (a, set_swap_block x s) | Err e => Err e end.
Definition on_fs {A} (m : M fsys A) : M V A := fun s =>
  match m (fsy s) with Ok (a, x) => Ok (a, set_fsy x s) | Err e => Err e end.

Definition current : M V proc := s ← get; deref (procs s !! running s).
Definition get_spte (p : Z) : M V SPT_entry := s ← get; deref (sptes s !! p).
Definition put_spte (p : Z) (e : SPT_entry) : M V unit := modify (fun s => set_sptes (<[p := e]> (sptes s)) s).
Definition frame_at (i : Z) : M V FrameTableEntry := s ← get; deref (frame_table s).[i].

(** ** page.c *)
Definition max_page : Z := PHYS_BASE / PGSIZE.

Definition vaddr_to_page_num (addr : Z) : M V (option Z) :=
  if negb (is_user_vaddr addr) then mret None else
  let page_number := Z.shiftr addr PGBITS in
  assert (page_number <? max_page);;
  mret (Some page_number).

Definition page_num_to_vaddr (page_number : Z) : M V Z :=
  assert (page_number <? max_page);;
  let vaddr := u32 (PGSIZE * page_number) in
  assert (is_user_vaddr vaddr);;
  mret vaddr.

(** The address of the entry, 0 for none. *)
Definition get_SPT_entry (vaddr : Z) : M V (option Z) :=
  r ← vaddr_to_page_num vaddr;
  match r with
  | None => mret None
  | Some n => t ← current; mret (Some (default 0 (SP_table t !! n)))
  end.

(** [calloc]: the next address, or a failure when the outcomes say so. *)
Definition calloc_spte : M V Z :=
  s ← get;
  match callocs s with
  | false :: rest => put (set_calloc (next_spte s) rest s);; mret 0
  | l => put (set_calloc (next_spte s + 1) (tail l) s);; mret (next_spte s)
  end.

(** [hash_insert] keeps the entry that is there for the page. *)
Definition spt_insert (n p : Z) : M V unit :=
  s ← get;
  t ← current;
  match SP_table t !! n with
  | Some _ => mret ()
  | None => put (set_procs (<[running s := Proc (pagedir t) (<[n := p]> (SP_table t)) (executable t) (esp t)]> (procs s)) s)
  end.

Definition create_SPT_entry (vaddr : Z) (resident : bool) (ofs read_bytes zero_bytes : Z) (w : bool) : M V (option Z) :=
  p ← calloc_spte;
  _ ← deref (if p =? 0 then None else Some tt);
  r ← vaddr_to_page_num vaddr;
  match r with
  | None => mret None
  | Some n =>
    put_spte p (SPTE false vaddr n resident 0 false ofs read_bytes zero_bytes w);;
    spt_insert n p;;
    e ← get_SPT_entry vaddr;
    assert (negb (bool_decide (e = Some 0)));;
    mret (Some p)
  end.

(** [hash_delete] and [free]. *)
Definition remove_SPT_entry (p : Z) : M V unit :=
  e ← get_spte p;
  s ← get;
  t ← current;
  put (set_sptes (delete p (sptes s))
    (set_procs (<[running s := Proc (pagedir t) (delete (page_number e) (SP_table t)) (executable t) (esp t)]> (procs s)) s)).

(** The hash function and the order of the supplemental page table. *)
Definition hasher (e : SPT_entry) : M V Z :=
  let digest := hash_int (page_number e) in
  assert (0 <? digest);;
  mret digest.

Definition page_less (a b : SPT_entry) : bool := page_number a <? page_number b.

(** ** swap.c *)
(** [offset * SECTORS_PER_PAGE + i], where the macro is not parenthesised. *)
Definition swap_sector (offset i : Z) : Z := u32 (Z.quot (s32 (offset * PGSIZE)) BLOCK_SECTOR_SIZE + i).
Definition SECTORS_PER_PAGE : Z := PGSIZE / BLOCK_SECTOR_SIZE.

(** [b] is the device that has the swap role, [table] whether the allocation
    succeeds.  The size is read before the device is tested. *)
Definition init_swap_table (b : option block) (table : bool) : M V unit :=
  b ← deref b;
  let n := bsize b / SECTORS_PER_PAGE in
  modify (fun s => VM P (pgs s) (frame_table s) (max_frame s) (bump_ptr s) (sptes s) (next_spte s) (callocs s)
    (if table then replicate (Z.to_nat n) (Swap 0 0) else []) n b (ram s) (fsy s) (procs s) (running s)).

(** The 512 bytes at a user address, through the page directory of the running
    thread. *)
Definition user_sector (vaddr : Z) : M V (list Z) :=
  t ← current;
  k ← on_pg (pg_get_page (pagedir t) vaddr);
  s ← get;
  page ← deref (ram s !! (k - k mod PGSIZE));
  _ ← deref (if k =? 0 then None else Some tt);
  mret (slice_of page (Z.to_nat (k mod PGSIZE)) (Z.to_nat BLOCK_SECTOR_SIZE)).

Definition add_swap_entry_helper (offset vaddr : Z) : M V unit :=
  for_ (Z.to_nat SECTORS_PER_PAGE) 0 (fun i =>
    d ← user_sector (vaddr + BLOCK_SECTOR_SIZE * i);
    on_swap (block_write (swap_sector offset i) d)).

Definition add_swap_entry (vaddr : Z) : M V Z :=
  s ← get;
  loop (S (Z.to_nat (entries s))) (fun i =>
    if i <? entries s then
      e ← deref (swap_table s).[i];
      if sw_tid e =? 0 then
        modify (fun s => set_swap (swap_table s).[i <- Swap (running s) vaddr] s);;
        add_swap_entry_helper i vaddr;;
        mret (inr i)
      else mret (inl (i + 1))
    else mret (inr (-1))) 0.

(** [None] is the [exit] for a slot that is not in use. *)
Definition remove_swap_entry (index paddr p : Z) : M V (option unit) :=
  s ← get;
  e ← deref (swap_table s).[index];
  if sw_tid e =? 0 then mret None else
  for_ (Z.to_nat SECTORS_PER_PAGE) 0 (fun i =>
    d ← on_swap (block_read (swap_sector index i));
    s ← get;
    page ← deref (ram s !! paddr);
    put (set_ram (<[paddr := splice page (Z.to_nat (BLOCK_SECTOR_SIZE * i)) d]> (ram s)) s));;
  modify (fun s => set_swap (swap_table s).[index <- Swap 0 0] s);;
  e ← get_spte p;
  put_spte p (SPTE (is_stack_page e) (sp_vaddr e) (page_number e) (resident_bit e) (-1) (dirty_bit e) (sp_ofs e)
                (page_read_bytes e) (page_zero_bytes e) (writable e));;
  mret (Some tt).

(** ** frame.c *)
(** The frames that [palloc_get_page (PAL_USER)] returns until there are no
    more, which must be consecutive. *)
Fixpoint consecutive (first : Z) (pages : list Z) : bool :=
  match pages with [] => true | p :: rest => (p - first =? PGSIZE) && consecutive p rest end.

Definition alloc_frame_table (pages : list Z) (table : bool) : M V unit :=
  let first := hd 0 pages in
  assert (consecutive first (tail pages));;
  let count := if first =? 0 then 1 else alen pages in
  _ ← deref (if table then Some tt else None);
  s ← get;
  put (VM P (pgs s) (map (fun i => Frame (first + i * PGSIZE) FT_EMPTY 0) (seqZ 0 count)) count (bump_ptr s) (sptes s)
         (next_spte s) (callocs s) (swap_table s) (entries s) (swap_block s) (ram s) (fsy s) (procs s) (running s)).

Definition next_frame (s : V) : Z := if bump_ptr s + 1 =? max_frame s then 0 else bump_ptr s + 1.

Definition with_resident (b : bool) (e : SPT_entry) : SPT_entry :=
  SPTE (is_stack_page e) (sp_vaddr e) (page_number e) b (swap_index e) (dirty_bit e) (sp_ofs e) (page_read_bytes e) (page_zero_bytes e) (writable e).
Definition with_dirty (b : bool) (e : SPT_entry) : SPT_entry :=
  SPTE (is_stack_page e) (sp_vaddr e) (page_number e) (resident_bit e) (swap_index e) b (sp_ofs e) (page_read_bytes e) (page_zero_bytes e) (writable e).
Definition with_swap_index (n : Z) (e : SPT_entry) : SPT_entry :=
  SPTE (is_stack_page e) (sp_vaddr e) (page_number e) (resident_bit e) n (dirty_bit e) (sp_ofs e) (page_read_bytes e) (page_zero_bytes e) (writable e).

(** The clock: pages that were accessed get a second chance.  The accessed bit
    of every page is cleared on the way, so the hand goes round at most once. *)
Definition clock (fuel : nat) : M V unit :=
  loop fuel (fun _ : unit =>
    s ← get;
    t ← current;
    f ← frame_at (bump_ptr s);
    a ← on_pg (pg_is_accessed (pagedir t) (ft_vaddr f));
    if (a : bool) then
      on_pg (pg_set_accessed (pagedir t) (ft_vaddr f) false);;
      modify (fun s => set_bump (next_frame s) s);;
      mret (inl tt)
    else mret (inr tt)) tt.

(** A page that was written to, and a stack page, goes to swap; false when there
    is no slot for it. *)
Definition save_page (p vaddr : Z) (dirty : bool) : M V bool :=
  e ← get_spte p;
  if dirty || is_stack_page e then
    (if dirty then put_spte p (with_dirty true e) else mret ());;
    i ← add_swap_entry vaddr;
    e ← get_spte p;
    put_spte p (with_swap_index i e);;
    mret (negb (i =? -1))
  else mret true.

Definition evict_page : M V (option Z) :=
  s ← get;
  t ← current;
  clock (S (Z.to_nat (max_frame s)));;
  s ← get;
  f ← frame_at (bump_ptr s);
  put (set_frames (frame_table s).[bump_ptr s <- Frame (frame_ptr f) FT_EMPTY (ft_vaddr f)] s);;
  r ← get_SPT_entry (ft_vaddr f);
  match r with
  | None => mret None
  | Some p =>
    e ← get_spte p;
    put_spte p (with_resident false e);;
    dirty ← on_pg (pg_is_dirty (pagedir t) (ft_vaddr f));
    saved ← save_page p (ft_vaddr f) dirty;
    if (saved : bool) then on_pg (pg_clear_page (pagedir t) (ft_vaddr f));; mret (Some (frame_ptr f))
    else mret None
  end.

Definition get_user_page (vaddr : Z) : M V (option Z) :=
  s ← get;
  r ← loop (S (Z.to_nat (max_frame s))) (fun total =>
        s ← get;
        f ← frame_at (bump_ptr s);
        if ft_status f =? FT_FULL then
          put (set_bump (next_frame s) s);;
          if total + 1 =? max_frame s then mret (inr true) else mret (inl (total + 1))
        else mret (inr false)) 0;
  if (r : bool) then evict_page else
  s ← get;
  f ← frame_at (bump_ptr s);
  put (set_frames (frame_table s).[bump_ptr s <- Frame (frame_ptr f) FT_FULL vaddr] s);;
  mret (Some (frame_ptr f)).

Definition frameptr_to_frame_num (addr : Z) : M V Z :=
  f ← frame_at 0; mret (u32 (Z.quot (s32 (s32 addr - s32 (frame_ptr f))) PGSIZE)).

Definition frame_num_to_frameptr (frame_num : Z) : M V Z :=
  s ← get;
  assert (frame_num <=? max_frame s);;
  f ← frame_at 0; mret (u32 (PGSIZE * frame_num + frame_ptr f)).

(** ** process.c *)
Definition install_page (upage kpage : Z) (w : bool) : M V bool :=
  t ← current;
  k ← on_pg (pg_get_page (pagedir t) upage);
  if k =? 0 then on_pg (pg_set_page (pagedir t) upage kpage w) else mret false.

(** ** exception.c *)
(** The page is read from the executable; a short read leaves the rest of the
    frame as it was. *)
Definition load_from_file (e : SPT_entry) (kpage : Z) : M V unit :=
  t ← current;
  on_fs (file_seek (executable t) (sp_ofs e));;
  s ← get;
  page ← deref (ram s !! kpage);
  r ← on_fs (file_read (executable t) page (page_read_bytes e));
  let page := splice (snd r) (Z.to_nat (page_read_bytes e)) (replicate (Z.to_nat (page_zero_bytes e)) 0) in
  modify (fun s => set_ram (<[kpage := page]> (ram s)) s).

(** A page that has an entry. *)
Definition fault_in (page_start p : Z) : M V (option unit) :=
  r ← get_user_page page_start;
  match r with
  | None => mret None
  | Some kpage =>
    if kpage =? 0 then mret None else
    e ← get_spte p;
    ok ← (if negb (resident_bit e) && (dirty_bit e || is_stack_page e) then remove_swap_entry (swap_index e) kpage p
          else load_from_file e kpage;; mret (Some tt));
    match ok with
    | None => mret None
    | Some _ =>
      installed ← install_page page_start kpage (writable e);
      if (installed : bool) then e ← get_spte p; put_spte p (with_resident true e);; mret (Some tt)
      else mret None
    end
  end.

(** [abs] of a difference of two pointers, as an [int]. *)
Definition near (f_esp fault_addr : Z) : bool := Z.abs (s32 (f_esp - fault_addr)) <=? 32.

Definition grows_stack (t_esp f_esp fault_addr : Z) : bool :=
  near f_esp fault_addr || (f_esp <? t_esp) || ((t_esp =? 0) && (f_esp <? fault_addr)) || (negb (t_esp =? 0) && (t_esp <? fault_addr)).

(** A page without an entry: the stack grows, or the process dies. *)
Definition fault_stack (f_esp fault_addr page_start : Z) : M V (option unit) :=
  t ← current;
  if grows_stack (esp t) f_esp fault_addr then
    let page_start := if f_esp <? esp t then pg_round_down (esp t) else page_start in
    r ← create_SPT_entry page_start true 0 0 0 true;
    match r with
    | None => mret None
    | Some p =>
      r ← get_user_page page_start;
      match r with
      | None => mret None
      | Some kpage =>
        e ← get_spte p;
        installed ← install_page page_start kpage (writable e);
        mret (if (installed : bool) then Some tt else None)
      end
    end
  else mret None.

Definition page_fault (f_esp fault_addr : Z) : M V (option unit) :=
  if fault_addr =? 0 then mret None else
  let page_start := pg_round_down fault_addr in
  r ← get_SPT_entry page_start;
  match r with
  | None => mret None
  | Some p => if negb (p =? 0) then fault_in page_start p else fault_stack f_esp fault_addr page_start
  end.
End vm_operations.
