(* ===== verification/VmSpec.v ===== *)
(** * What virtual memory relies on, and the frame table

    [PagingLaws] is what virtual memory relies on of page directories: the
    words of the entries of every directory, and what the operations do to them.
    The lemmas of this file and the theorems of VmTheorems hold for every
    implementation of the laws; VmPaging shows that Pagedir is one. *)

From S2P Require Import Prelude Khash Vaddr Block Inode FreeMap FsSpec Vm.

(** ** Page directories as functions *)
(** Where an address is in kernel memory, given the word of each page; 0 when
    its page is not present. *)
Definition present (w : Z) : bool := negb (Z.land w PTE_P =? 0).
Definition accessed (w : Z) : bool := negb (Z.land w PTE_A =? 0).
Definition dirty (w : Z) : bool := negb (Z.land w PTE_D =? 0).
Definition frame_of (w : Z) : Z := w / PGSIZE * PGSIZE + PHYS_BASE.
Definition translate (f : Z -> Z) (va : Z) : Z :=
  if present (f (pg_no va)) then frame_of (f (pg_no va)) + va mod PGSIZE else 0.

Definition update (f : Z -> Z) (v w : Z) : Z -> Z := fun u => if decide (u = v) then w else f u.

(** [pg_view s W]: [W] has the words of the user pages of each directory.
    [pg_frame s k]: the kernel address [k] is that of a page a user may have.
    [pg_no_memory s]: there is no page left for a page table. *)
Class PagingLaws (P : Type) `{!Paging P} := {
  pg_view : P -> gmap Z (Z -> Z) -> Prop;
  pg_frame : P -> Z -> Prop;
  pg_no_memory : P -> Prop;
  pg_frame_page s k : pg_frame s k -> kpage_ok k;
  pg_word_range s W pd f v : pg_view s W -> W !! pd = Some f -> 0 <= f v < 2 ^ 32;
  pg_get_page_ok s W pd f va : pg_view s W -> W !! pd = Some f -> 0 <= va < PHYS_BASE ->
    pg_get_page pd va s = Ok (translate f va, s);
  pg_is_accessed_ok s W pd f va : pg_view s W -> W !! pd = Some f -> 0 <= va < PHYS_BASE ->
    pg_is_accessed pd va s = Ok (accessed (f (pg_no va)), s);
  pg_is_dirty_ok s W pd f va : pg_view s W -> W !! pd = Some f -> 0 <= va < PHYS_BASE ->
    pg_is_dirty pd va s = Ok (dirty (f (pg_no va)), s);
  pg_set_page_ok s W pd f upage kpage w : pg_view s W -> W !! pd = Some f ->
    0 <= upage < PHYS_BASE -> upage mod PGSIZE = 0 -> pg_frame s kpage -> present (f (pg_no upage)) = false ->
    wp (pg_set_page pd upage kpage w) (fun ok s' =>
      exists f', pg_view s' (<[pd := f']> W) /\ (forall k, pg_frame s k -> pg_frame s' k) /\ (ok = false -> pg_no_memory s) /\
      forall v, f' v = if ok : bool then update f (pg_no upage) (entry kpage (user_flags w)) v else f v) s;
  pg_clear_page_ok s W pd f upage : pg_view s W -> W !! pd = Some f -> 0 <= upage < PHYS_BASE -> upage mod PGSIZE = 0 ->
    wp (pg_clear_page pd upage) (fun _ s' =>
      exists f', pg_view s' (<[pd := f']> W) /\ (forall k, pg_frame s k -> pg_frame s' k) /\ (pg_no_memory s' -> pg_no_memory s) /\
      forall v, f' v = update f (pg_no upage) (Z.land (f (pg_no upage)) (u32 (Z.lnot PTE_P))) v) s;
  pg_unset_accessed_ok s W pd f va : pg_view s W -> W !! pd = Some f -> 0 <= va < PHYS_BASE ->
    wp (pg_set_accessed pd va false) (fun _ s' =>
      exists f', pg_view s' (<[pd := f']> W) /\ (forall k, pg_frame s k -> pg_frame s' k) /\ (pg_no_memory s' -> pg_no_memory s) /\
      forall v, f' v = update f (pg_no va) (Z.land (f (pg_no va)) (u32 (Z.lnot PTE_A))) v) s
}.

Lemma update_eq f v w : update f v w v = w.
Proof. unfold update. by rewrite decide_True. Qed.

Lemma update_ne f v w u : u <> v -> update f v w u = f u.
Proof. intros H. unfold update. by rewrite decide_False. Qed.

(** ** Pages and addresses *)
Lemma max_page_value : max_page = 768 * 1024.
Proof. reflexivity. Qed.

Definition user_page (va : Z) : Prop := 0 <= va < PHYS_BASE /\ va mod PGSIZE = 0.

Lemma user_page_no va : 0 <= va < PHYS_BASE -> 0 <= pg_no va < max_page.
Proof.
  rewrite pg_no_div, max_page_value. change PGSIZE with 4096. change PHYS_BASE with (768 * 1024 * 4096). intros H.
  split; [apply Z.div_pos; lia|apply Z.div_lt_upper_bound; lia].
Qed.

Lemma user_page_inj va vb : user_page va -> user_page vb -> pg_no va = pg_no vb -> va = vb.
Proof.
  intros [_ Ha] [_ Hb]. rewrite !pg_no_div. intros E.
  rewrite (Z.div_mod va PGSIZE), (Z.div_mod vb PGSIZE), Ha, Hb, E by done. done.
Qed.

Lemma round_down_page va : 0 <= va < PHYS_BASE -> user_page (pg_round_down va) /\ pg_no (pg_round_down va) = pg_no va.
Proof.
  intros H. assert (0 <= va < 2 ^ 32) as H32 by (unfold PHYS_BASE in H; lia).
  rewrite pg_round_down_div by done. unfold user_page. rewrite !pg_no_div. change PGSIZE with 4096. change PHYS_BASE with (786432 * 4096) in *.
  pose proof (Z.div_pos va 4096 ltac:(lia) ltac:(lia)). pose proof (Z.div_lt_upper_bound va 4096 786432 ltac:(lia) ltac:(lia)).
  rewrite Z.mod_mul, Z.div_mul by lia. lia.
Qed.

(** ** Lifted operations *)
Section lifting.
Context {P : Type} `{!Paging P, !PagingLaws P}.
Abbreviation V := (vm P).
Implicit Types s : V.

Lemma on_pg_wp {A} (m : M P A) (Q : A -> V -> Prop) s :
  wp m (fun a x => Q a (set_pgs x s)) (pgs s) -> wp (on_pg m) Q s.
Proof. unfold wp, on_pg. by destruct (m (pgs s)) as [[a x]|]. Qed.

Lemma on_fs_wp {A} (m : M fsys A) (Q : A -> V -> Prop) s :
  wp m (fun a x => Q a (set_fsy x s)) (fsy s) -> wp (on_fs m) Q s.
Proof. unfold wp, on_fs. by destruct (m (fsy s)) as [[a x]|]. Qed.

Lemma on_swap_wp {A} (m : M block A) (Q : A -> V -> Prop) s :
  wp m (fun a x => Q a (set_swap_block x s)) (swap_block s) -> wp (on_swap m) Q s.
Proof. unfold wp, on_swap. by destruct (m (swap_block s)) as [[a x]|]. Qed.

Lemma set_pgs_same s : set_pgs (pgs s) s = s.
Proof. by destruct s. Qed.

Lemma set_bump_same s : set_bump (bump_ptr s) s = s.
Proof. by destruct s. Qed.

(** The page of an address of the user, and the entry for it. *)
Lemma vaddr_to_page_num_ok va s :
  0 <= va < PHYS_BASE -> vaddr_to_page_num va s = Ok (Some (pg_no va), s).
Proof.
  intros H. pose proof (user_page_no va H). unfold vaddr_to_page_num, is_user_vaddr.
  rewrite (proj2 (Z.ltb_lt _ _)) by lia. cbn [negb]. change (Z.shiftr va PGBITS) with (pg_no va).
  unfold mbind, M_bind, assert. rewrite (proj2 (Z.ltb_lt _ _)) by lia. done.
Qed.

Lemma vaddr_to_page_num_kernel va s : PHYS_BASE <= va -> vaddr_to_page_num va s = Ok (None, s).
Proof. intros H. unfold vaddr_to_page_num, is_user_vaddr. by rewrite (proj2 (Z.ltb_ge _ _)) by lia. Qed.

Lemma current_ok s t : procs s !! running s = Some t -> current s = Ok (t, s).
Proof. intros H. unfold current, mbind, M_bind, get. by rewrite H. Qed.

Lemma get_spte_ok s p e : sptes s !! p = Some e -> get_spte p s = Ok (e, s).
Proof. intros H. unfold get_spte, mbind, M_bind, get. by rewrite H. Qed.

Lemma frame_at_ok s i f : (frame_table s).[i] = Some f -> frame_at i s = Ok (f, s).
Proof. intros H. unfold frame_at, mbind, M_bind, get. by rewrite H. Qed.

Lemma get_SPT_entry_ok s t va :
  procs s !! running s = Some t -> 0 <= va < PHYS_BASE ->
  get_SPT_entry va s = Ok (Some (default 0 (SP_table t !! pg_no va)), s).
Proof.
  intros Ht Hva. unfold get_SPT_entry, mbind, M_bind. rewrite vaddr_to_page_num_ok by done.
  by rewrite (current_ok s t Ht).
Qed.

Lemma get_SPT_entry_kernel s va : PHYS_BASE <= va -> get_SPT_entry va s = Ok (None, s).
Proof. intros H. unfold get_SPT_entry, mbind, M_bind. by rewrite vaddr_to_page_num_kernel. Qed.
End lifting.

(** ** The frame table *)
Section frames.
Context {P : Type} `{!Paging P}.
Abbreviation V := (vm P).
Implicit Types s : V.

Record frames_ok s : Prop := {
  fr_max : max_frame s = alen (frame_table s);
  fr_bump : 0 <= bump_ptr s < max_frame s
}.

Definition turned s (k : Z) : Z := (bump_ptr s + k) mod max_frame s.

Lemma next_turned s k : frames_ok s -> 0 <= k -> next_frame (set_bump (turned s k) s) = turned s (k + 1).
Proof.
  intros [_ Hb] Hk. unfold next_frame, turned. simpl. set (n := max_frame s) in *. set (b := bump_ptr s) in *.
  rewrite Z.add_assoc. pose proof (Z.mod_pos_bound (b + k) n ltac:(lia)) as Hr.
  rewrite <- (Z.add_mod_idemp_l (b + k) 1 n) by lia. destruct (Z.eqb_spec ((b + k) mod n + 1) n) as [E|Hne].
  - rewrite E. symmetry. apply Z.mod_same. lia.
  - symmetry. apply Z.mod_small. lia.
Qed.

Lemma turned_range s k : frames_ok s -> 0 <= turned s k < alen (frame_table s).
Proof. intros [Hm Hb]. rewrite <- Hm. apply Z.mod_pos_bound. lia. Qed.

Lemma turned_0 s : frames_ok s -> turned s 0 = bump_ptr s.
Proof. intros [_ Hb]. unfold turned. rewrite Z.add_0_r. apply Z.mod_small. lia. Qed.

(** Every frame comes under the hand within one turn. *)
Lemma turned_all s i : frames_ok s -> 0 <= i < alen (frame_table s) -> exists k, 0 <= k < max_frame s /\ turned s k = i.
Proof.
  intros [Hm Hb] Hi. exists ((i - bump_ptr s) mod max_frame s). split; [apply Z.mod_pos_bound; lia|].
  unfold turned. rewrite Z.add_mod_idemp_r by lia. replace (bump_ptr s + (i - bump_ptr s)) with i by lia.
  apply Z.mod_small. lia.
Qed.

Definition full_frame s (i : Z) : Prop := exists f, (frame_table s).[i] = Some f /\ ft_status f = FT_FULL.

Definition hand_search (total : Z) : M V (Z + bool) :=
  s ← get;
  f ← frame_at (bump_ptr s);
  if ft_status f =? FT_FULL then
    put (set_bump (next_frame s) s);;
    if total + 1 =? max_frame s then mret (inr true) else mret (inl (total + 1))
  else mret (inr false).

(** The search for an empty frame: the first one from the hand on, or a whole
    turn of full frames. *)
Lemma search_ok s :
  frames_ok s ->
  wp (loop (S (Z.to_nat (max_frame s))) hand_search 0) (fun r s' => exists k, 0 <= k <= max_frame s /\
    s' = set_bump (turned s k) s /\ (forall j, 0 <= j < k -> full_frame s (turned s j)) /\
    if r : bool then k = max_frame s else exists f, (frame_table s).[turned s k] = Some f /\ ft_status f <> FT_FULL) s.
Proof.
  intros Hok. pose proof (fr_bump _ Hok) as Hb.
  apply (wp_loop (fun n total s' => 0 <= total < max_frame s /\ n = Z.to_nat (max_frame s - total) /\
    s' = set_bump (turned s total) s /\ forall j, 0 <= j < total -> full_frame s (turned s j))) with (n := Z.to_nat (max_frame s)); [| |lia].
  2:{ split_and!; [lia|lia|f_equal; lia|by rewrite turned_0, set_bump_same|intros j Hj; lia]. }
  intros n total s' (Ht & -> & -> & Hfull). unfold hand_search. do 2 wp_step. wp_step.
  destruct (aget_is_Some (frame_table s) (turned s total)) as [[f Hf] _]; [by apply turned_range|].
  eapply wp_eq; [by apply frame_at_ok|]. destruct (Z.eqb_spec (ft_status f) FT_FULL) as [Hst|Hst].
  - do 2 wp_step. assert (forall j, 0 <= j < total + 1 -> full_frame s (turned s j)) as Hfull'.
    { intros j Hj. destruct (decide (j = total)) as [->|]; [by exists f|apply Hfull; lia]. }
    rewrite next_turned by (done || lia). simpl. destruct (Z.eqb_spec (total + 1) (max_frame s)); wp_step.
    + exists (total + 1). split_and!; try done; lia.
    + eexists. split; [|split_and!; [..|done]]; try done; lia.
  - wp_step. exists total. split_and!; try done; try lia. eauto.
Qed.

(** With an empty frame, [get_user_page] takes one and evicts nothing. *)
Lemma get_user_page_ok s va :
  frames_ok s -> (exists i, 0 <= i < alen (frame_table s) /\ ~ full_frame s i) ->
  wp (get_user_page va) (fun r s' => exists i f, (frame_table s).[i] = Some f /\ ft_status f <> FT_FULL /\
    r = Some (frame_ptr f) /\ s' = set_bump i (set_frames (frame_table s).[i <- Frame (frame_ptr f) FT_FULL va] s)) s.
Proof.
  intros Hok (i & Hi & Hempty). unfold get_user_page. do 2 wp_step. wp_step. eapply wp_mono; [by apply search_ok|].
  intros r s' (k & Hk & -> & Hfull & Hr). destruct r.
  - destruct (turned_all s i Hok Hi) as (j & Hj & <-). destruct Hempty. apply Hfull. lia.
  - destruct Hr as (f & Hf & Hst). do 2 wp_step. wp_step. eapply wp_eq; [by apply frame_at_ok|]. do 2 wp_step. wp_step.
    exists (turned s k), f. done.
Qed.

(** Without one, it evicts a page. *)
Lemma get_user_page_full s va Q :
  frames_ok s -> (forall i, 0 <= i < alen (frame_table s) -> full_frame s i) ->
  wp evict_page Q s -> wp (get_user_page va) Q s.
Proof.
  intros Hok Hall HQ. unfold get_user_page. do 2 wp_step. wp_step. eapply wp_mono; [by apply search_ok|].
  intros r s' (k & Hk & -> & Hfull & Hr). destruct r.
  - subst k. assert (turned s (max_frame s) = bump_ptr s) as ->.
    { pose proof (fr_bump _ Hok). unfold turned. rewrite Z.add_mod, Z.mod_same, Z.add_0_r, Z.mod_mod, Z.mod_small by lia. done. }
    by rewrite set_bump_same.
  - destruct Hr as (f & Hf & Hst). destruct (Hall (turned s k)) as (f' & Hf' & Hst'); [by apply turned_range|]. congruence.
Qed.
End frames.
