(* ===== verification/VmTheorems.v ===== *)
(** * Theorems about virtual memory

    The page fault handler keeps processes apart as long as there is an empty
    frame, and fills pages with what the executable says; the clock finds a page
    to evict; a page that goes to swap comes back; and what goes wrong once
    pages have to be evicted. *)

From S2P Require Import Prelude Khash Vaddr Block Inode FreeMap FsSpec Vm VmSpec.

Section faults.
Context {P : Type} `{!Paging P, !PagingLaws P}.
Abbreviation V := (vm P).
Implicit Types s : V.

(** ** The invariant *)
(** An entry of a supplemental page table that is not in swap. *)
Record entry_ok (e : SPT_entry) : Prop := {
  eo_ofs : 0 <= sp_ofs e;
  eo_read : 0 <= page_read_bytes e;
  eo_zero : 0 <= page_zero_bytes e;
  eo_page : page_read_bytes e + page_zero_bytes e <= PGSIZE;
  eo_end : sp_ofs e + page_read_bytes e < 2 ^ 31;
  eo_swap : resident_bit e = false -> dirty_bit e = false /\ is_stack_page e = false
}.

Record proc_ok s (W : gmap Z (Z -> Z)) (A : afs) (t : proc) : Prop := {
  po_dir : is_Some (W !! pagedir t);
  po_exe : is_Some (opened A !! executable t);
  po_esp : 0 <= esp t < 2 ^ 32;
  po_spt : forall n p, SP_table t !! n = Some p -> 0 < p < next_spte s /\ exists e, sptes s !! p = Some e /\ entry_ok e
}.

Record procs_ok s (W : gmap Z (Z -> Z)) (A : afs) : Prop := {
  ps_running : is_Some (procs s !! running s);
  ps_proc : forall tid t, procs s !! tid = Some t -> proc_ok s W A t;
  ps_next : 0 < next_spte s;
  ps_calloc : callocs s = []
}.

(** Every page that some process has present is in a full frame, and no two
    pages, of one process or of two, are in the same frame. *)
Record vm_ok s (W : gmap Z (Z -> Z)) (A : afs) : Prop := {
  vo_view : pg_view (pgs s) W;
  vo_frames : frames_ok s;
  vo_frame : forall i fr, (frame_table s).[i] = Some fr ->
    pg_frame (pgs s) (frame_ptr fr) /\ exists bs, ram s !! frame_ptr fr = Some bs /\ length bs = Z.to_nat PGSIZE;
  vo_distinct : forall i j fr fr', (frame_table s).[i] = Some fr -> (frame_table s).[j] = Some fr' ->
    frame_ptr fr = frame_ptr fr' -> i = j;
  vo_present : forall pd g v, W !! pd = Some g -> 0 <= v < max_page -> present (g v) = true ->
    exists i fr, (frame_table s).[i] = Some fr /\ ft_status fr = FT_FULL /\ frame_of (g v) = frame_ptr fr;
  vo_apart : forall pd g v pd' g' v', W !! pd = Some g -> W !! pd' = Some g' ->
    0 <= v < max_page -> 0 <= v' < max_page -> present (g v) = true -> present (g' v') = true ->
    frame_of (g v) = frame_of (g' v') -> pd = pd' /\ v = v';
  vo_procs : procs_ok s W A;
  vo_fs : represents (fsy s) A
}.

Definition has_empty s : Prop := exists i, 0 <= i < alen (frame_table s) /\ ~ full_frame s i.

(** ** Words *)
Lemma entry_present k w : kpage_ok k -> present (entry k (user_flags w)) = true /\ frame_of (entry k (user_flags w)) = k.
Proof.
  intros Hk. split.
  - unfold present. rewrite entry_flag by (done || by destruct w). by destruct w.
  - unfold frame_of, entry. destruct (kpage_phys k Hk) as (a & -> & Ha).
    replace (a * PGSIZE + PHYS_BASE - PHYS_BASE + user_flags w) with (a * PGSIZE + user_flags w) by ring.
    rewrite Z.div_add_l by done. rewrite (Z.div_small (user_flags w)) by (by destruct w). lia.
Qed.

Lemma translate_present s W pd f va :
  pg_view (pgs s) W -> W !! pd = Some f -> 0 <= va -> (translate f va =? 0) = negb (present (f (pg_no va))).
Proof.
  intros HW Hf Hva. unfold translate. destruct (present _); [|done]. apply Z.eqb_neq.
  pose proof (proj1 (pg_word_range _ _ _ _ (pg_no va) HW Hf)) as Hpos. unfold frame_of.
  pose proof (Z.div_pos (f (pg_no va)) PGSIZE Hpos ltac:(done)). pose proof (Z.mod_pos_bound va PGSIZE ltac:(done)).
  change PGSIZE with 4096 in *. change PHYS_BASE with 0xc0000000. lia.
Qed.

(** ** A new mapping *)
Lemma vm_ok_map s s' W A A' pd f f' i fr va w :
  vm_ok s W A -> (frame_table s).[i] = Some fr -> ft_status fr <> FT_FULL -> W !! pd = Some f -> user_page va ->
  pg_view (pgs s') (<[pd := f']> W) -> (forall k, pg_frame (pgs s) k -> pg_frame (pgs s') k) ->
  (forall v, f' v = update f (pg_no va) (entry (frame_ptr fr) (user_flags w)) v) ->
  frame_table s' = (frame_table s).[i <- Frame (frame_ptr fr) FT_FULL va] -> max_frame s' = max_frame s -> bump_ptr s' = i ->
  (exists bs, length bs = Z.to_nat PGSIZE /\ ram s' = <[frame_ptr fr := bs]> (ram s)) ->
  procs_ok s' (<[pd := f']> W) A' -> represents (fsy s') A' -> vm_ok s' (<[pd := f']> W) A'.
Proof.
  intros H Hi Hst Hf Hva HW Hfr Ef Et Em Eb (bs & Hbs & Er) Hp Hrep. pose proof (aget_lt _ _ _ Hi) as Hil.
  destruct (entry_present (frame_ptr fr) w) as [Hpr Hof]; [eapply pg_frame_page, (vo_frame _ _ _ H i fr Hi)|].
  (* the frame of a present page was full before, or is the new one *)
  assert (forall pd2 g v, (<[pd := f']> W) !! pd2 = Some g -> 0 <= v < max_page -> present (g v) = true ->
    (pd2 = pd /\ v = pg_no va /\ frame_of (g v) = frame_ptr fr) \/
    (exists g0, W !! pd2 = Some g0 /\ g v = g0 v /\ present (g0 v) = true)) as Hcases.
  { intros pd2 g v Hg Hv Hpres. apply lookup_insert_Some in Hg as [[<- <-]|[Hne Hg]]; [|right; by exists g].
    rewrite Ef in *. destruct (decide (v = pg_no va)) as [->|Hne]; [rewrite update_eq in *; by left|].
    rewrite update_ne in * by done. right. by exists f. }
  assert (forall pd2 g0 v, W !! pd2 = Some g0 -> 0 <= v < max_page -> present (g0 v) = true -> frame_of (g0 v) <> frame_ptr fr) as Hnew.
  { intros pd2 g0 v Hg Hv Hpres E. destruct (vo_present _ _ _ H pd2 g0 v Hg Hv Hpres) as (j & fr2 & Hj & Hfull & E2).
    assert (j = i) as -> by (apply (vo_distinct _ _ _ H j i fr2 fr); congruence). congruence. }
  split; try done.
  - destruct (vo_frames _ _ _ H) as [Hm _]. split; [by rewrite Em, Et, alen_aset|]. rewrite Eb, Em, Hm. done.
  - intros j fr2 Hj. rewrite Et in Hj. rewrite Er. destruct (decide (i = j)) as [<-|Hne].
    + rewrite aget_aset_eq in Hj by done. injection Hj as <-. simpl. split; [apply Hfr, (vo_frame _ _ _ H i fr Hi)|].
      exists bs. by rewrite lookup_insert_eq.
    + rewrite aget_aset_ne in Hj by done. destruct (vo_frame _ _ _ H j fr2 Hj) as (H1 & bs2 & H2 & H3). split; [by apply Hfr|].
      exists bs2. rewrite lookup_insert_ne; [done|]. intros E. apply Hne. by apply (vo_distinct _ _ _ H i j fr fr2).
  - assert (forall j fr2, (frame_table s').[j] = Some fr2 -> exists fr0, (frame_table s).[j] = Some fr0 /\ frame_ptr fr0 = frame_ptr fr2) as Hptr.
    { intros j fr2. rewrite Et. destruct (decide (i = j)) as [<-|Hne]; [rewrite aget_aset_eq by done; intros [= <-]; by exists fr|].
      rewrite aget_aset_ne by done. by exists fr2. }
    intros j j2 fr1 fr2 H1 H2 E. destruct (Hptr _ _ H1) as (fr1' & H1' & E1). destruct (Hptr _ _ H2) as (fr2' & H2' & E2).
    apply (vo_distinct _ _ _ H j j2 fr1' fr2'); congruence.
  - intros pd2 g v Hg Hv Hpres. rewrite Et. destruct (Hcases pd2 g v Hg Hv Hpres) as [(_ & _ & E)|(g0 & Hg0 & E & Hpres0)].
    + exists i. eexists. rewrite aget_aset_eq by done. done.
    + destruct (vo_present _ _ _ H pd2 g0 v Hg0 Hv Hpres0) as (j & fr2 & Hj & Hfull & E2). exists j, fr2.
      rewrite aget_aset_ne by congruence. rewrite E. done.
  - intros pd1 g1 v1 pd2 g2 v2 H1 H2 Hv1 Hv2 P1 P2 E.
    destruct (Hcases pd1 g1 v1 H1 Hv1 P1) as [(-> & -> & E1)|(a & Ha & Ea & Pa)], (Hcases pd2 g2 v2 H2 Hv2 P2) as [(-> & -> & E2)|(b & Hb & E2 & Pb)].
    + done.
    + exfalso. apply (Hnew pd2 b v2 Hb Hv2 Pb). congruence.
    + exfalso. apply (Hnew pd1 a v1 Ha Hv1 Pa). congruence.
    + apply (vo_apart _ _ _ H pd1 a v1 pd2 b v2); try done. congruence.
Qed.

(** ** The steps of the handler *)
Lemma install_page_ok s W t f upage kpage w :
  procs s !! running s = Some t -> pg_view (pgs s) W -> W !! pagedir t = Some f -> user_page upage -> pg_frame (pgs s) kpage ->
  wp (install_page upage kpage w) (fun ok s' => exists x f', s' = set_pgs x s /\ pg_view x (<[pagedir t := f']> W) /\
    (forall k, pg_frame (pgs s) k -> pg_frame x k) /\ (ok = true -> present (f (pg_no upage)) = false) /\
    (ok = false -> present (f (pg_no upage)) = true \/ pg_no_memory (pgs s)) /\
    forall v, f' v = if ok : bool then update f (pg_no upage) (entry kpage (user_flags w)) v else f v) s.
Proof.
  intros Ht HW Hf [Hu Hal] Hk. unfold install_page. wp_step. eapply wp_eq; [by apply current_ok|]. wp_step. apply on_pg_wp.
  eapply wp_eq; [by eapply pg_get_page_ok|]. rewrite set_pgs_same. rewrite (translate_present s W (pagedir t)) by (done || lia).
  destruct (present (f (pg_no upage))) eqn:Hp; cbn [negb].
  - wp_step. exists (pgs s), f. rewrite set_pgs_same, insert_id by done. split_and!; try done. by left.
  - apply on_pg_wp. eapply wp_mono; [by eapply pg_set_page_ok|]. intros ok x (f' & H1 & H2 & H3 & H4). exists x, f'. split_and!; try done. intros ->. right. by apply H3.
Qed.

(** What the handler makes of the old contents of a frame. *)
Definition file_page (old c : list Z) (e : SPT_entry) : list Z :=
  splice (splice old 0 (bytes_from c (sp_ofs e) (room_at c (sp_ofs e) (page_read_bytes e))))
    (Z.to_nat (page_read_bytes e)) (replicate (Z.to_nat (page_zero_bytes e)) 0).

Lemma file_page_length old c e : entry_ok e -> length old = Z.to_nat PGSIZE -> length (file_page old c e) = Z.to_nat PGSIZE.
Proof.
  intros [] Hl. pose proof (length_room c (sp_ofs e) (page_read_bytes e) ltac:(lia)) as Hr. unfold alen in Hr.
  assert (room_at c (sp_ofs e) (page_read_bytes e) <= page_read_bytes e) by (unfold room_at; lia).
  assert (length (splice old 0 (bytes_from c (sp_ofs e) (room_at c (sp_ofs e) (page_read_bytes e)))) = length old) as E
    by (apply splice_length; lia).
  unfold file_page. rewrite splice_length; [lia|]. rewrite E, length_replicate. lia.
Qed.

(** A page that the executable has in full. *)
Lemma file_page_exact old c e :
  entry_ok e -> length old = Z.to_nat PGSIZE -> page_read_bytes e + page_zero_bytes e = PGSIZE -> sp_ofs e + page_read_bytes e <= alen c ->
  file_page old c e = bytes_from c (sp_ofs e) (page_read_bytes e) ++ replicate (Z.to_nat (page_zero_bytes e)) 0.
Proof.
  intros [] Hl Hsum Hend. unfold file_page. replace (room_at c (sp_ofs e) (page_read_bytes e)) with (page_read_bytes e) by (unfold room_at; lia).
  pose proof (length_room c (sp_ofs e) (page_read_bytes e) ltac:(lia)) as Hr.
  replace (room_at c (sp_ofs e) (page_read_bytes e)) with (page_read_bytes e) in Hr by (unfold room_at; lia). unfold alen in Hr.
  unfold splice at 2. rewrite take_0, app_nil_l. unfold splice. rewrite take_app_length' by lia. f_equal.
  rewrite drop_ge, app_nil_r; [done|]. rewrite length_app, length_drop, length_replicate. lia.
Qed.

Lemma load_from_file_ok s A t o c e kpage old :
  procs s !! running s = Some t -> represents (fsy s) A -> opened A !! executable t = Some o -> store A !! o_file o = Some c ->
  entry_ok e -> ram s !! kpage = Some old -> length old = Z.to_nat PGSIZE ->
  wp (load_from_file e kpage) (fun _ s' => exists fs' o', s' = set_ram (<[kpage := file_page old c e]> (ram s)) (set_fsy fs' s) /\
    represents fs' (set_opened A (<[executable t := o']> (opened A)))) s.
Proof.
  intros Ht Hrep Ho Hc He Hram Hl. pose proof He as []. unfold load_from_file. wp_step. eapply wp_eq; [by apply current_ok|]. wp_step.
  apply on_fs_wp. eapply wp_mono; [by eapply file_seek_ok|]. intros [] fs1 Hrep1. do 3 wp_step.
  eapply wp_deref; [exact Hram|]. wp_step. apply on_fs_wp.
  set (o1 := OFile (o_file o) (sp_ofs e) (o_deny o)) in *.
  eapply wp_mono; [eapply (file_read_ok fs1 _ (executable t) o1 c old (page_read_bytes e) Hrep1); simpl; try done; try lia|].
  - by rewrite lookup_insert_eq.
  - unfold alen. lia.
  - intros r fs2 [-> Hrep2]. cbv zeta. apply wp_modify. eexists fs2, _. split; [reflexivity|].
    unfold set_opened in Hrep2 |- *. simpl in Hrep2. rewrite insert_insert_eq in Hrep2. exact Hrep2.
Qed.

(** The state after [create_SPT_entry]. *)
Definition with_entry s (t : proc) (e : SPT_entry) : V :=
  let p := next_spte s in
  set_procs (match SP_table t !! page_number e with
             | Some _ => procs s
             | None => <[running s := Proc (pagedir t) (<[page_number e := p]> (SP_table t)) (executable t) (esp t)]> (procs s)
             end) (set_sptes (<[p := e]> (sptes s)) (set_calloc (p + 1) [] s)).

(** What [create_SPT_entry] needs of the entries there are. *)
Record spt_sane s (t : proc) : Prop := {
  sn_proc : procs s !! running s = Some t;
  sn_next : 0 < next_spte s;
  sn_calloc : callocs s = [];
  sn_entries : forall n q, SP_table t !! n = Some q -> 0 < q < next_spte s
}.

Lemma procs_sane s W A t : procs_ok s W A -> procs s !! running s = Some t -> spt_sane s t.
Proof. intros [_ Hps Hnext Hcalloc] Ht. split; try done. intros n q Hq. by destruct (po_spt _ _ _ _ (Hps _ _ Ht) _ _ Hq). Qed.

Lemma create_SPT_entry_ok s t va res ofs rb zb w :
  spt_sane s t -> 0 <= va < PHYS_BASE ->
  create_SPT_entry va res ofs rb zb w s =
    Ok (Some (next_spte s), with_entry s t (SPTE false va (pg_no va) res 0 false ofs rb zb w)).
Proof.
  intros [Ht Hnext Hcalloc Hent] Hva. cut (wp (create_SPT_entry va res ofs rb zb w) (fun r s' => r = Some (next_spte s) /\
    s' = with_entry s t (SPTE false va (pg_no va) res 0 false ofs rb zb w)) s).
  { by intros (r & s' & -> & -> & ->)%wp_iff. }
  unfold create_SPT_entry, calloc_spte. do 3 wp_step. rewrite Hcalloc. cbn [tail]. do 2 wp_step. wp_step. wp_step.
  rewrite (proj2 (Z.eqb_neq _ 0)) by lia. eapply wp_deref; [done|]. wp_step. eapply wp_eq; [by apply vaddr_to_page_num_ok|].
  cbv iota. unfold put_spte, spt_insert. do 6 wp_step. eapply wp_eq; [by apply current_ok|].
  unfold with_entry. cbn [page_number]. destruct (SP_table t !! pg_no va) as [q|] eqn:Hq.
  - wp_step. wp_step. eapply wp_eq; [by apply (get_SPT_entry_ok _ t)|]. rewrite Hq. wp_step. cbn [default from_option].
    pose proof (Hent _ _ Hq). apply wp_assert; [by rewrite bool_decide_eq_false_2 by (intros [= ?]; lia)|].
    by wp_step.
  - wp_step. wp_step. eapply wp_eq; [eapply get_SPT_entry_ok; [simpl; apply lookup_insert_eq|done]|]. simpl. rewrite lookup_insert_eq.
    wp_step. apply wp_assert; [by rewrite bool_decide_eq_false_2 by (intros [= ?]; lia)|]. by wp_step.
Qed.

Lemma procs_ok_entry s W A t e :
  procs_ok s W A -> procs s !! running s = Some t -> entry_ok e -> procs_ok (with_entry s t e) W A.
Proof.
  intros [[t0 Ht0] Hps Hnext Hcalloc] Ht He.
  assert (forall t2, proc_ok s W A t2 -> proc_ok (with_entry s t e) W A t2) as Hkeep.
  { intros t2 [H1 H2 H3 H4]. split; try done. intros n p Hp. destruct (H4 n p Hp) as (Hr & e2 & He2 & Hok). unfold with_entry. simpl.
    split; [lia|]. exists e2. split; [|done]. rewrite lookup_insert_ne; [done|lia]. }
  split; [unfold with_entry; simpl| |simpl; lia|done].
  - destruct (SP_table t !! page_number e); [by exists t0|]. rewrite lookup_insert_eq. by eexists.
  - intros tid t2 Ht2. unfold with_entry in Ht2. simpl in Ht2. destruct (SP_table t !! page_number e) eqn:Hn; [by apply Hkeep, (Hps tid)|].
    apply lookup_insert_Some in Ht2 as [[<- <-]|[_ Ht2]]; [|by apply Hkeep, (Hps tid)].
    destruct (Hkeep t (Hps _ _ Ht)) as [H1 H2 H3 H4]. split; try done. simpl.
    intros n p Hp. apply lookup_insert_Some in Hp as [[<- <-]|[_ Hp]]; [|by apply H4 in Hp].
    split; [lia|]. exists e. by rewrite lookup_insert_eq.
Qed.

(** The processes after an update of an entry. *)
Lemma procs_ok_same s s' W W' A A' :
  procs_ok s W A -> procs s' = procs s -> running s' = running s -> next_spte s' = next_spte s -> callocs s' = callocs s ->
  (forall p e, sptes s !! p = Some e -> entry_ok e -> exists e', sptes s' !! p = Some e' /\ entry_ok e') ->
  (forall pd, is_Some (W !! pd) -> is_Some (W' !! pd)) -> (forall fp, is_Some (opened A !! fp) -> is_Some (opened A' !! fp)) ->
  procs_ok s' W' A'.
Proof.
  intros [H1 H2 H3 H4] Ep Er En Ec Hs HW HA. split; rewrite ?Ep, ?Er, ?En, ?Ec; try done. intros tid t Ht.
  destruct (H2 tid t Ht) as [G1 G2 G3 G4]. split; [by apply HW|by apply HA|done|]. intros n p Hp.
  destruct (G4 n p Hp) as (Hr & e & He & Hok). rewrite En. split; [done|]. by apply (Hs p e).
Qed.

(** ** The handler *)
(** A page [v] of the running process [t] now is in the frame [k], which was
    empty, with the contents [bs]; nothing else that a process can see changed. *)
Record faulted s s' (W : gmap Z (Z -> Z)) (A : afs) (t : proc) (f : Z -> Z) (v : Z) (w : bool) (k : Z) (bs : list Z) : Prop := {
  fl_absent : present (f v) = false;
  fl_frame : exists i fr, (frame_table s).[i] = Some fr /\ ft_status fr <> FT_FULL /\ frame_ptr fr = k;
  fl_ram : ram s' = <[k := bs]> (ram s);
  fl_ok : exists f' A', vm_ok s' (<[pagedir t := f']> W) A' /\ names A' = names A /\ store A' = store A /\
    forall u, f' u = update f v (entry k (user_flags w)) u
}.

Lemma entry_ok_resident e : entry_ok e -> entry_ok (with_resident true e).
Proof. intros []. by split. Qed.

Lemma fault_in_ok s W A t f page_start p e o c :
  vm_ok s W A -> has_empty s -> procs s !! running s = Some t -> W !! pagedir t = Some f -> user_page page_start ->
  sptes s !! p = Some e -> entry_ok e -> opened A !! executable t = Some o -> store A !! o_file o = Some c ->
  wp (fault_in page_start p) (fun r s' =>
    match r with
    | Some _ => exists k old, ram s !! k = Some old /\ length old = Z.to_nat PGSIZE /\
                  faulted s s' W A t f (pg_no page_start) (writable e) k (file_page old c e)
    | None => present (f (pg_no page_start)) = true \/ pg_no_memory (pgs s)
    end) s.
Proof.
  intros H Hempty Ht Hf Hu Hp He Ho Hc. unfold fault_in. wp_step. eapply wp_mono; [by apply get_user_page_ok; [apply H|]|].
  intros r s1 (i & fr & Hi & Hst & -> & ->). destruct (vo_frame _ _ _ H i fr Hi) as (Hfr & old & Hold & Hlen).
  pose proof (pg_frame_page _ _ Hfr) as [Hk _].
  rewrite (proj2 (Z.eqb_neq (frame_ptr fr) 0)) by (unfold PHYS_BASE in Hk; lia). wp_step. eapply wp_eq; [by apply get_spte_ok|].
  replace (negb (resident_bit e) && (dirty_bit e || is_stack_page e)) with false.
  2:{ destruct (resident_bit e) eqn:Er; [done|]. by destruct (eo_swap _ He Er) as [-> ->]. }
  do 2 wp_step. eapply wp_mono; [eapply load_from_file_ok; [exact Ht|apply H|exact Ho|exact Hc|done|exact Hold|done]|].
  intros [] s2 (fs' & o' & -> & Hrep'). do 2 wp_step.
  eapply wp_mono; [eapply install_page_ok; [exact Ht|apply H|exact Hf|done|exact Hfr]|].
  intros ok s3 (x & f' & -> & Hx & Hfrx & Habs & Hno & Ef). destruct ok; [|wp_step; by apply Hno].
  wp_step. eapply wp_eq; [apply get_spte_ok; simpl; exact Hp|]. unfold put_spte. do 3 wp_step. exists (frame_ptr fr), old.
  split; [done|]. split; [done|]. split; [by apply Habs|by exists i, fr|done|].
  exists f', (set_opened A (<[executable t := o']> (opened A))). split; [|split; [|split; [|exact Ef]]]; [|done..].
  eapply (vm_ok_map s _ W A _ (pagedir t) f f' i fr page_start (writable e)); try done.
  - eexists. split; [by apply file_page_length|reflexivity].
  - eapply procs_ok_same; [apply H|done..| | |].
    + intros q e2 He2 Hok2. simpl. destruct (decide (p = q)) as [<-|Hne].
      * rewrite lookup_insert_eq. eexists. split; [done|]. by apply entry_ok_resident.
      * rewrite lookup_insert_ne by done. eauto.
    + intros pd Hpd. apply lookup_insert_is_Some'. by right.
    + intros fp Hfp. apply lookup_insert_is_Some'. by right.
Qed.

(** The page that the handler adds to the stack. *)
Definition grown_page (t : proc) (f_esp fault_addr : Z) : Z :=
  if f_esp <? esp t then pg_no (esp t) else pg_no fault_addr.

Lemma create_SPT_entry_kernel s W A va res ofs rb zb w :
  procs_ok s W A -> PHYS_BASE <= va -> wp (create_SPT_entry va res ofs rb zb w) (fun r _ => r = None) s.
Proof.
  intros [_ _ Hnext Hcalloc] Hva. unfold create_SPT_entry, calloc_spte. do 3 wp_step. rewrite Hcalloc. cbn [tail]. do 2 wp_step. wp_step. wp_step.
  rewrite (proj2 (Z.eqb_neq _ 0)) by lia. eapply wp_deref; [done|]. wp_step. eapply wp_eq; [by apply vaddr_to_page_num_kernel|]. cbv iota. by wp_step.
Qed.

Lemma stack_entry_ok va : entry_ok (SPTE false va (pg_no va) true 0 false 0 0 0 true).
Proof. split; simpl; try done. Qed.

(** A page for the stack that is not there yet. *)
Lemma add_stack_page_ok s W A t f va :
  vm_ok s W A -> has_empty s -> procs s !! running s = Some t -> W !! pagedir t = Some f -> user_page va ->
  let e := SPTE false va (pg_no va) true 0 false 0 0 0 true in
  wp (r ← get_user_page va;
      match r with
      | None => mret None
      | Some kpage => e ← get_spte (next_spte s); installed ← install_page va kpage (writable e);
                      mret (if (installed : bool) then Some tt else None)
      end) (fun r s' =>
    match r with
    | Some _ => exists k old, ram s !! k = Some old /\ faulted s s' W A t f (pg_no va) true k old
    | None => present (f (pg_no va)) = true \/ pg_no_memory (pgs s)
    end) (with_entry s t e).
Proof.
  intros H Hempty Ht Hf Hu e. pose proof (procs_ok_entry s W A t e (vo_procs _ _ _ H) Ht (stack_entry_ok va)) as Hps.
  assert (exists t', procs (with_entry s t e) !! running s = Some t' /\ pagedir t' = pagedir t) as (t' & Ht' & Epd).
  { unfold with_entry. simpl. destruct (SP_table t !! pg_no va); [by exists t|]. rewrite lookup_insert_eq. by eexists. }
  wp_step. eapply wp_mono; [apply get_user_page_ok; [destruct (vo_frames _ _ _ H); by split|done]|].
  intros r s1 (i & fr & Hi & Hst & -> & ->). simpl in Hi. destruct (vo_frame _ _ _ H i fr Hi) as (Hfr & old & Hold & Hlen).
  wp_step. eapply wp_eq; [apply get_spte_ok; simpl; apply lookup_insert_eq|]. wp_step. rewrite <- Epd in Hf.
  eapply wp_mono; [eapply install_page_ok; [exact Ht'|apply H|exact Hf|done|exact Hfr]|].
  intros ok s3 (x & f' & -> & Hx & Hfrx & Habs & Hno & Ef). wp_step. destruct ok; [|by apply Hno]. exists (frame_ptr fr), old.
  split; [done|]. rewrite Epd in *. split; [by apply Habs|by exists i, fr|by rewrite insert_id|].
  exists f', A. split; [|split; [|split; [|exact Ef]]]; [|done..].
  eapply (vm_ok_map s _ W A A (pagedir t) f f' i fr va true); try done; [| |apply H].
  - exists old. split; [done|]. by rewrite insert_id.
  - eapply procs_ok_same; [exact Hps|done..|eauto| |done]. intros pd Hpd. apply lookup_insert_is_Some'. by right.
Qed.

Lemma round_down_kernel va : PHYS_BASE <= va < 2 ^ 32 -> PHYS_BASE <= pg_round_down va.
Proof.
  intros H. rewrite pg_round_down_div by (unfold PHYS_BASE in H; lia). change PHYS_BASE with (0xc0000 * 4096) in *. change PGSIZE with 4096.
  pose proof (Z.div_le_lower_bound va 4096 0xc0000 ltac:(lia) ltac:(lia)). lia.
Qed.

Lemma fault_stack_ok s W A t f f_esp fault_addr :
  vm_ok s W A -> has_empty s -> procs s !! running s = Some t -> W !! pagedir t = Some f -> 0 <= fault_addr < PHYS_BASE ->
  wp (fault_stack f_esp fault_addr (pg_round_down fault_addr)) (fun r s' =>
    match r with
    | Some _ => grows_stack (esp t) f_esp fault_addr = true /\ exists k old, ram s !! k = Some old /\
                  faulted s s' W A t f (grown_page t f_esp fault_addr) true k old
    | None => grows_stack (esp t) f_esp fault_addr = false \/ PHYS_BASE <= esp t \/
              present (f (grown_page t f_esp fault_addr)) = true \/ pg_no_memory (pgs s)
    end) s.
Proof.
  intros H Hempty Ht Hf Hfa. unfold fault_stack. wp_step. eapply wp_eq; [by apply current_ok|].
  destruct (grows_stack (esp t) f_esp fault_addr) eqn:Hg; [|wp_step; by left].
  pose proof (po_esp _ _ _ _ (ps_proc _ _ _ (vo_procs _ _ _ H) _ _ Ht)) as Hesp. unfold grown_page.
  set (va := if f_esp <? esp t then esp t else fault_addr).
  replace (if f_esp <? esp t then pg_round_down (esp t) else pg_round_down fault_addr) with (pg_round_down va) by (unfold va; by destruct (f_esp <? esp t)).
  replace (if f_esp <? esp t then pg_no (esp t) else pg_no fault_addr) with (pg_no va) by (unfold va; by destruct (f_esp <? esp t)).
  cbv zeta. destruct (decide (va < PHYS_BASE)) as [Hva|Hva].
  - assert (0 <= va) as Hva0 by (unfold va; destruct (f_esp <? esp t); lia).
    destruct (round_down_page va) as [Hup Epg]; [done|]. wp_step.
    eapply wp_eq; [apply (create_SPT_entry_ok s t); [eapply procs_sane; [apply H|done]|apply Hup]|]. rewrite <- Epg.
    eapply wp_mono; [by apply (add_stack_page_ok s W A t f (pg_round_down va))|]. intros [[]|] s' Hr; [done|]. tauto.
  - wp_step. eapply wp_mono; [eapply create_SPT_entry_kernel; [apply H|apply round_down_kernel]|].
    + unfold va, PHYS_BASE in *. destruct (f_esp <? esp t); lia.
    + intros r s' ->. wp_step. right. left. unfold va in Hva. destruct (f_esp <? esp t); lia.
Qed.

(** C3: the page fault handler keeps processes apart.  In a state in which every
    present page of every process is in a frame of its own, and some frame is
    empty, a fault at any address ends without a failed assertion or a bad
    access.  When the process may go on, one page of it, not present before, is
    in a frame that was empty, with the access rights of its entry; no page of
    any process is in the same frame, and all other pages and frames are as they
    were.  A page with an entry has the bytes of the executable and then zeros; a
    page added to the stack has what its frame had before.  The process is ended
    only for a null pointer, an address of the kernel, an access that the page's
    rights forbid, an address that does not look like the stack, or when memory
    for a page table runs out. *)
Theorem page_fault_isolated s W A t f o c f_esp fault_addr :
  vm_ok s W A -> has_empty s -> procs s !! running s = Some t -> W !! pagedir t = Some f ->
  opened A !! executable t = Some o -> store A !! o_file o = Some c -> 0 <= fault_addr < 2 ^ 32 ->
  wp (page_fault f_esp fault_addr) (fun r s' =>
    match r, SP_table t !! pg_no fault_addr with
    | Some _, Some p => exists e k old, sptes s !! p = Some e /\ ram s !! k = Some old /\ length old = Z.to_nat PGSIZE /\
        faulted s s' W A t f (pg_no fault_addr) (writable e) k (file_page old c e)
    | Some _, None => grows_stack (esp t) f_esp fault_addr = true /\ exists k old, ram s !! k = Some old /\
        faulted s s' W A t f (grown_page t f_esp fault_addr) true k old
    | None, entry => fault_addr = 0 \/ PHYS_BASE <= fault_addr \/ pg_no_memory (pgs s) \/
        match entry with
        | Some _ => present (f (pg_no fault_addr)) = true
        | None => grows_stack (esp t) f_esp fault_addr = false \/ PHYS_BASE <= esp t \/
                  present (f (grown_page t f_esp fault_addr)) = true
        end
    end) s.
Proof.
  intros H Hempty Ht Hf Ho Hc Hfa. unfold page_fault. destruct (Z.eqb_spec fault_addr 0) as [|Hnz]; [wp_step; by left|]. cbv zeta.
  destruct (decide (fault_addr < PHYS_BASE)) as [Hu|Hu].
  2:{ wp_step. eapply wp_eq; [apply get_SPT_entry_kernel, round_down_kernel; lia|]. cbv iota. wp_step. right. left. lia. }
  destruct (round_down_page fault_addr) as [Hup Epg]; [lia|].
  wp_step. eapply wp_eq; [apply (get_SPT_entry_ok s t); [done|apply Hup]|]. rewrite Epg.
  destruct (SP_table t !! pg_no fault_addr) as [p|] eqn:Hp; cbn [from_option id].
  - destruct (po_spt _ _ _ _ (ps_proc _ _ _ (vo_procs _ _ _ H) _ _ Ht) _ _ Hp) as (Hpr & e & He & Hok).
    rewrite (proj2 (Z.eqb_neq p 0)) by lia. cbn [negb]. rewrite <- Epg.
    eapply wp_mono; [by eapply (fault_in_ok s W A t f _ p e o c)|]. intros [[]|] s' Hr; [|tauto].
    destruct Hr as (k & old & H1 & H2 & H3). by exists e, k, old.
  - cbn [negb Z.eqb]. eapply wp_mono; [eapply (fault_stack_ok s W A t f); (done || lia)|]. intros [[]|] s' Hr; [done|]. tauto.
Qed.
End faults.
