(* ===== verification/VmSwap.v ===== *)
(** * Pages in swap (src/vm/swap.c)

    A slot of the swap device is eight sectors.  [add_swap_entry] finds a free
    slot and stores a page in it, [remove_swap_entry] reads it back and frees the
    slot: what they do to the table, to the sectors and to the frames. *)

From S2P Require Import Prelude Khash Vaddr Block Inode FreeMap FsSpec Vm VmSpec.

(** ** Pages as eight sectors *)
Definition chunks (page : list Z) : list (list Z) := map (fun j => slice_of page (SECTOR * j) SECTOR) (seq 0 8).

Definition slot (D : list (list Z)) (i : Z) : list (list Z) := slice_of D (Z.to_nat (8 * i)) 8.

Lemma chunks_lookup page j : (j < 8)%nat -> chunks page !! j = Some (slice_of page (SECTOR * j) SECTOR).
Proof. intros H. unfold chunks. rewrite list_lookup_fmap, lookup_seq_lt by done. done. Qed.

Lemma chunks_sectors page : length page = Z.to_nat PGSIZE -> Forall (fun d => length d = SECTOR) (chunks page).
Proof.
  intros Hl. apply Forall_lookup. intros j d Hj. pose proof (lookup_lt_Some _ _ _ Hj) as Hlt. unfold chunks in Hlt.
  rewrite length_map, length_seq in Hlt. rewrite chunks_lookup in Hj by done. injection Hj as <-.
  apply slice_of_length. rewrite Hl. change (Z.to_nat PGSIZE) with (SECTOR * 8)%nat. unfold SECTOR. lia.
Qed.

Lemma concat_chunks page : length page = Z.to_nat PGSIZE -> concat (chunks page) = page.
Proof.
  intros Hl. assert (forall n, concat (map (fun j => slice_of page (SECTOR * j) SECTOR) (seq 0 n)) = take (SECTOR * n) page) as E.
  { induction n as [|n IH]; [done|]. rewrite seq_S, map_app, concat_app, IH. cbn [map concat]. rewrite app_nil_r, Nat.mul_succ_r.
    pose proof (slice_of_app page 0 (SECTOR * n) SECTOR) as H. unfold slice_of at 1 3 in H. by rewrite !drop_0 in H. }
  unfold chunks. rewrite E, take_ge; [done|]. by rewrite Hl.
Qed.

Lemma aset_splice {A} (l : list A) i x : 0 <= i < alen l -> l.[i <- x] = splice l (Z.to_nat i) [x].
Proof.
  intros H. unfold alen in H. unfold aset. rewrite (proj2 (Z.ltb_ge _ _)) by lia. apply list_eq. intros j.
  rewrite splice_lookup by (simpl; lia). simpl. case_decide as Hj.
  - assert (j = Z.to_nat i) as -> by lia. by rewrite list_lookup_insert_eq, Nat.sub_diag by lia.
  - apply list_lookup_insert_ne. lia.
Qed.

Section swap.
Context {P : Type} `{!Paging P, !PagingLaws P}.
Abbreviation V := (vm P).
Implicit Types s : V.

(** ** The table and the device *)
Record swap_ok s : Prop := {
  so_block : block_ok (swap_block s);
  so_entries : entries s = alen (swap_table s);
  so_size : 8 * entries s <= bsize (swap_block s);
  so_small : entries s * PGSIZE < 2 ^ 31
}.

Lemma swap_sector_value i j : 0 <= i -> i * PGSIZE < 2 ^ 31 -> 0 <= j < 8 -> swap_sector i j = 8 * i + j.
Proof.
  change PGSIZE with 4096. intros Hi Hs Hj. unfold swap_sector. change PGSIZE with 4096. change BLOCK_SECTOR_SIZE with 512.
  rewrite swrap_small by lia. rewrite Z.quot_div_nonneg by lia. replace (i * 4096) with (8 * i * 512) by lia. rewrite Z.div_mul by lia.
  apply wrap_small. lia.
Qed.

(** A page of the running process as the kernel reads it at its user address. *)
Record resident_page s (W : gmap Z (Z -> Z)) (t : proc) (f : Z -> Z) (va : Z) (page : list Z) : Prop := {
  rp_proc : procs s !! running s = Some t;
  rp_view : pg_view (pgs s) W;
  rp_dir : W !! pagedir t = Some f;
  rp_user : user_page va;
  rp_present : present (f (pg_no va)) = true;
  rp_bytes : ram s !! frame_of (f (pg_no va)) = Some page;
  rp_length : length page = Z.to_nat PGSIZE
}.

Lemma frame_of_mod w : frame_of w mod PGSIZE = 0.
Proof.
  unfold frame_of. change PHYS_BASE with (0xc0000 * PGSIZE). rewrite <- Z.mul_add_distr_r. by rewrite Z.mod_mul.
Qed.

Lemma user_sector_ok s W t f va page j :
  resident_page s W t f va page -> 0 <= j < 8 ->
  user_sector (va + BLOCK_SECTOR_SIZE * j) s = Ok (slice_of page (SECTOR * Z.to_nat j) SECTOR, s).
Proof.
  intros [Ht HW Hf [Hu Hal] Hp Hr Hl] Hj. change BLOCK_SECTOR_SIZE with 512.
  assert (va = va / PGSIZE * PGSIZE) as Ev by (rewrite (Z.div_mod va PGSIZE) at 1 by done; lia).
  assert (0 <= va + 512 * j < PHYS_BASE) as Hua.
  { change PGSIZE with 4096 in *. change PHYS_BASE with (786432 * 4096) in *. lia. }
  assert (pg_no (va + 512 * j) = pg_no va) as Epg.
  { rewrite !pg_no_div. rewrite Ev at 1. rewrite Z.div_add_l, (Z.div_small (512 * j)), Z.add_0_r by (done || (change PGSIZE with 4096; lia)). done. }
  assert ((va + 512 * j) mod PGSIZE = 512 * j) as Em.
  { rewrite Z.add_mod, Hal by done. rewrite Z.add_0_l, Z.mod_mod by done. apply Z.mod_small. change PGSIZE with 4096. lia. }
  set (k := frame_of (f (pg_no va))) in *. assert (k mod PGSIZE = 0) as Hk by apply frame_of_mod.
  assert ((k + 512 * j) mod PGSIZE = 512 * j) as Ek.
  { rewrite Z.add_mod, Hk, Z.add_0_l, Z.mod_mod by done. apply Z.mod_small. change PGSIZE with 4096. lia. }
  assert (0 < k) as Hk0.
  { pose proof (proj1 (pg_word_range _ _ _ _ (pg_no va) HW Hf)) as Hpos. unfold k, frame_of.
    pose proof (Z.div_pos _ PGSIZE Hpos ltac:(done)). change PGSIZE with 4096 in *. change PHYS_BASE with 0xc0000000. lia. }
  cut (wp (user_sector (va + 512 * j)) (fun r s' => r = slice_of page (SECTOR * Z.to_nat j) SECTOR /\ s' = s) s).
  { by intros (r & s' & -> & -> & ->)%wp_iff. }
  unfold user_sector. wp_step. eapply wp_eq; [by apply current_ok|]. wp_step. apply on_pg_wp. eapply wp_eq; [by eapply pg_get_page_ok|].
  unfold translate. rewrite Epg, Hp, Em, set_pgs_same. fold k. do 3 wp_step. rewrite Ek. replace (k + 512 * j - 512 * j) with k by lia.
  eapply wp_deref; [exact Hr|]. wp_step. rewrite (proj2 (Z.eqb_neq _ 0)) by lia. eapply wp_deref; [done|]. wp_step. split; [|done].
  f_equal. unfold SECTOR. lia.
Qed.

(** ** Storing a page *)
Lemma add_swap_entry_helper_ok s W t f va page i :
  resident_page s W t f va page -> swap_ok s -> 0 <= i < entries s ->
  wp (add_swap_entry_helper i va) (fun _ s' => exists b, s' = set_swap_block b s /\ block_ok b /\
    bsize b = bsize (swap_block s) /\ sectors b = splice (sectors (swap_block s)) (Z.to_nat (8 * i)) (chunks page)) s.
Proof.
  intros Hpg [Hb He Hs Hm] Hi. pose proof (rp_length _ _ _ _ _ _ Hpg) as Hl. pose proof (chunks_sectors page Hl) as Hch.
  pose proof (bk_size _ Hb) as Hbs. set (D := sectors (swap_block s)) in *. unfold alen in Hbs.
  assert (forall n, (n <= 8)%nat -> length (take n (chunks page)) = n) as Htl by (intros n Hn; rewrite length_take; unfold chunks; simpl; lia).
  assert (length (chunks page) = 8%nat) as Hcl by done.
  unfold add_swap_entry_helper. change (Z.to_nat SECTORS_PER_PAGE) with 8%nat.
  eapply wp_mono; [apply (wp_for (fun j s' => exists b, s' = set_swap_block b s /\ block_ok b /\ bsize b = bsize (swap_block s) /\
    sectors b = splice D (Z.to_nat (8 * i)) (take (Z.to_nat j) (chunks page))))|].
  - intros j s' Hj (b & -> & Hbo & Ebs & Esec). assert (resident_page (set_swap_block b s) W t f va page) as Hpg' by (destruct Hpg; by split).
    wp_step. eapply wp_eq; [eapply user_sector_ok; [exact Hpg'|lia]|]. apply on_swap_wp.
    rewrite swap_sector_value by (change PGSIZE with 4096 in *; lia).
    assert (length (sectors b) = length D) as Hlb by (rewrite Esec, splice_length; [done|]; rewrite Htl; lia).
    destruct (aget_is_Some (sectors b) (8 * i + j)) as [[d0 Hd0] _]; [unfold alen; lia|].
    eapply wp_eq; [by eapply block_write_ok|]. eexists. split; [reflexivity|]. simpl. destruct Hbo as [G1 G2 G3].
    assert (length (slice_of page (SECTOR * Z.to_nat j) SECTOR) = SECTOR) as Hsl.
    { apply slice_of_length. rewrite Hl. change (Z.to_nat PGSIZE) with (SECTOR * 8)%nat. unfold SECTOR. lia. }
    split_and!; try done.
    + split; simpl; [by rewrite alen_aset|by apply Forall_aset|done].
    + rewrite aset_splice, Esec by (unfold alen; lia). replace (Z.to_nat (j + 1)) with (S (Z.to_nat j)) by lia.
      rewrite (take_S_r _ _ _ (chunks_lookup page (Z.to_nat j) ltac:(lia))).
      rewrite <- splice_app by (rewrite Htl; simpl; lia). rewrite Htl by lia. do 2 f_equal; lia.
  - exists (swap_block s). rewrite take_0, splice_nil. split; [by destruct s|done].
  - intros [] s' (b & -> & Hbo & Ebs & Esec). exists b. by split_and!.
Qed.

(** The first free slot gets the page; -1 when there is none. *)
Lemma add_swap_entry_ok s W t f va page :
  resident_page s W t f va page -> swap_ok s ->
  wp (add_swap_entry va) (fun i s' =>
    (i = -1 /\ s' = s /\ forall j e, (swap_table s).[j] = Some e -> sw_tid e <> 0) \/
    (0 <= i < entries s /\ (exists e, (swap_table s).[i] = Some e /\ sw_tid e = 0) /\ exists b, block_ok b /\
     bsize b = bsize (swap_block s) /\ sectors b = splice (sectors (swap_block s)) (Z.to_nat (8 * i)) (chunks page) /\
     s' = set_swap_block b (set_swap (swap_table s).[i <- Swap (running s) va] s))) s.
Proof.
  intros Hpg Hok. pose proof Hok as [Hb He Hs Hm]. pose proof (alen_nonneg (swap_table s)) as Hn. unfold add_swap_entry. do 2 wp_step.
  apply (wp_loop (fun n i s' => 0 <= i <= entries s /\ n = Z.to_nat (entries s - i) /\ s' = s /\
    forall j e, j < i -> (swap_table s).[j] = Some e -> sw_tid e <> 0)) with (n := Z.to_nat (entries s)); [| |lia].
  2:{ split_and!; try done; try lia. intros j e Hj Hje. apply aget_lt in Hje. lia. }
  intros n i s' (Hi & -> & -> & Hused). destruct (Z.ltb_spec i (entries s)) as [Hlt|Hge].
  2:{ wp_step. left. split_and!; try done. intros j e Hje. apply (Hused j e); [|done]. apply aget_lt in Hje. lia. }
  destruct (aget_is_Some (swap_table s) i) as [[e Hie] _]; [lia|]. wp_step. eapply wp_deref; [exact Hie|].
  destruct (Z.eqb_spec (sw_tid e) 0) as [Hfree|Hbusy].
  - do 3 wp_step. eapply wp_mono; [eapply (add_swap_entry_helper_ok _ W t f va page i)|].
    + destruct Hpg. by split.
    + split; simpl; try done. by rewrite alen_aset.
    + simpl. lia.
    + intros [] s' (b & -> & H1 & H2 & H3). wp_step. right. split; [lia|]. split; [eauto|]. exists b. done.
  - wp_step. eexists. split; [|split_and!; try reflexivity]; [lia|lia|lia|]. intros j e' Hj Hje.
    destruct (decide (j = i)) as [->|]; [congruence|apply (Hused j e'); [lia|done]].
Qed.

(** ** Reading it back *)
Definition after_removal s (index paddr p : Z) (b : block) (e : SPT_entry) (page : list Z) : V :=
  set_sptes (<[p := with_swap_index (-1) e]> (sptes s))
    (set_swap (swap_table s).[index <- Swap 0 0] (set_ram (<[paddr := page]> (ram s)) (set_swap_block b s))).

Lemma remove_swap_entry_ok s index paddr p e se old :
  swap_ok s -> (swap_table s).[index] = Some se -> sw_tid se <> 0 -> sptes s !! p = Some e ->
  ram s !! paddr = Some old -> length old = Z.to_nat PGSIZE ->
  wp (remove_swap_entry index paddr p) (fun r s' => r = Some tt /\ exists b, block_ok b /\
    bsize b = bsize (swap_block s) /\ sectors b = sectors (swap_block s) /\
    s' = after_removal s index paddr p b e (concat (slot (sectors (swap_block s)) index))) s.
Proof.
  intros [Hb He Hs Hm] Hse Htid Hp Hold Hl. pose proof (aget_lt _ _ _ Hse) as Hi. rewrite <- He in Hi.
  unfold remove_swap_entry. do 3 wp_step. eapply wp_deref; [exact Hse|]. rewrite (proj2 (Z.eqb_neq _ 0)) by done.
  set (D := sectors (swap_block s)) in *. pose proof (bk_size _ Hb) as Hbs. fold D in Hbs. unfold alen in Hbs.
  assert (length (slot D index) = 8%nat) as Hsl by (apply slice_of_length; lia).
  assert (Forall (fun d => length d = SECTOR) (slot D index)) as Hsec by (apply Forall_take, Forall_drop, Hb).
  assert (forall n, (n <= 8)%nat -> length (concat (take n (slot D index))) = (SECTOR * n)%nat) as Hcl.
  { intros n Hn. rewrite (concat_length SECTOR) by (by apply Forall_take). rewrite length_take, Hsl, Nat.min_l by lia. apply Nat.mul_comm. }
  assert (Z.to_nat PGSIZE = SECTOR * 8)%nat as Epg by done.
  wp_step. eapply wp_mono; [apply (wp_for (fun j s' => exists b, block_ok b /\ bsize b = bsize (swap_block s) /\ sectors b = D /\
    s' = set_ram (<[paddr := splice old 0 (concat (take (Z.to_nat j) (slot D index)))]> (ram s)) (set_swap_block b s)))|].
  - intros j s' Hj (b & Hbo & Ebs & Esec & ->). change (Z.of_nat (Z.to_nat SECTORS_PER_PAGE)) with 8 in Hj.
    rewrite swap_sector_value by (change PGSIZE with 4096 in *; lia).
    destruct (lookup_lt_is_Some_2 (slot D index) (Z.to_nat j)) as [d Hd]; [lia|].
    assert ((sectors b).[8 * index + j] = Some d) as Hdj.
    { rewrite Esec. apply aget_Some. split; [lia|]. unfold slot in Hd. rewrite slice_of_lookup in Hd by lia. rewrite <- Hd. f_equal. lia. }
    wp_step. apply on_swap_wp. eapply wp_eq; [by eapply block_read_ok|]. do 3 wp_step. eapply wp_deref; [simpl; apply lookup_insert_eq|].
    wp_step. eexists. split; [|split; [|split; [|]]]; cycle 3.
    + unfold set_ram, set_swap_block. simpl. f_equal. rewrite insert_insert_eq. f_equal.
      replace (Z.to_nat (j + 1)) with (S (Z.to_nat j)) by lia. rewrite (take_S_r _ _ _ Hd), concat_app. simpl. rewrite app_nil_r.
      pose proof (Forall_lookup_1 _ _ _ _ Hsec Hd) as Hdl. cbv beta in Hdl.
      rewrite <- (splice_app old 0) by (rewrite Hcl, Hdl, Hl, Epg; unfold SECTOR; lia). rewrite Hcl by lia. f_equal.
      change BLOCK_SECTOR_SIZE with 512. unfold SECTOR. lia.
    + destruct Hbo. by split.
    + done.
    + done.
  - exists (swap_block s). rewrite take_0. simpl. rewrite splice_nil, insert_id by done. split_and!; try done. by destruct s.
  - intros [] s' (b & Hbo & Ebs & Esec & ->). do 3 wp_step. eapply wp_eq; [apply get_spte_ok; exact Hp|]. unfold put_spte. do 3 wp_step.
    split; [done|]. exists b. split_and!; try done. unfold after_removal.
    rewrite take_ge by (rewrite Hsl; done). replace (splice old 0 (concat (slot D index))) with (concat (slot D index)); [done|].
    specialize (Hcl 8%nat ltac:(lia)). rewrite take_ge in Hcl by lia. unfold splice. rewrite take_0, drop_ge by lia. by rewrite app_nil_r.
Qed.
End swap.
