(* ===== verification/VmEvict.v ===== *)
(** * Eviction (src/vm/frame.c)

    The clock finds a page to evict, a page that is evicted comes back with its
    bytes, and what goes wrong afterwards. *)

From S2P Require Import Prelude Khash Vaddr Block Inode FreeMap FsSpec Vm VmSpec VmTheorems VmSwap.

(** ** The clock *)
Section eviction.
Context {P : Type} `{!Paging P, !PagingLaws P}.
Abbreviation V := (vm P).
Implicit Types s : V.

(** Clearing the accessed bit. *)
Definition not_accessed (w : Z) : Z := Z.land w (u32 (Z.lnot PTE_A)).

Lemma not_accessed_clear w : accessed (not_accessed w) = false.
Proof. unfold accessed, not_accessed. rewrite <- Z.land_assoc. change (Z.land (u32 (Z.lnot PTE_A)) PTE_A) with 0. by rewrite Z.land_0_r. Qed.

Lemma not_accessed_twice w : not_accessed (not_accessed w) = not_accessed w.
Proof. unfold not_accessed. by rewrite <- Z.land_assoc, Z.land_diag. Qed.

Record evictable s (W : gmap Z (Z -> Z)) (t : proc) (f : Z -> Z) : Prop := {
  ev_proc : procs s !! running s = Some t;
  ev_view : pg_view (pgs s) W;
  ev_dir : W !! pagedir t = Some f;
  ev_frames : frames_ok s;
  ev_pages : forall i fr, (frame_table s).[i] = Some fr -> user_page (ft_vaddr fr)
}.

(** The page under the hand after [k] moves. *)
Definition hand_page s (k : Z) : Z := default 0 (fr ← (frame_table s).[turned s k]; Some (pg_no (ft_vaddr fr))).

Definition clock_turn : M V (unit + unit) :=
  s ← get;
  t ← current;
  f ← frame_at (bump_ptr s);
  a ← on_pg (pg_is_accessed (pagedir t) (ft_vaddr f));
  if (a : bool) then
    on_pg (pg_set_accessed (pagedir t) (ft_vaddr f) false);;
    modify (fun s => set_bump (next_frame s) s);;
    mret (inl tt)
  else mret (inr tt).

(** The state of the clock after [k] moves over pages that were accessed, with
    their bits cleared. *)
Definition swept_by s (W : gmap Z (Z -> Z)) (t : proc) (f : Z -> Z) (k : Z) s' (f' : Z -> Z) : Prop :=
  exists x, s' = set_bump (turned s k) (set_pgs x s) /\ pg_view x (<[pagedir t := f']> W) /\
  (forall q, pg_frame (pgs s) q -> pg_frame x q) /\ (pg_no_memory x -> pg_no_memory (pgs s)) /\
  (forall j, 0 <= j < k -> accessed (f (hand_page s j)) = true) /\
  (forall j, 0 <= j < k -> f' (hand_page s j) = not_accessed (f (hand_page s j))) /\
  (forall v, (forall j, 0 <= j < k -> hand_page s j <> v) -> f' v = f v) /\
  (forall v, f' v = f v \/ f' v = not_accessed (f v)).

Lemma clock_ok s W t f :
  evictable s W t f ->
  wp (clock (S (Z.to_nat (max_frame s)))) (fun _ s' => exists k f', 0 <= k <= max_frame s /\
    swept_by s W t f k s' f' /\ accessed (f' (hand_page s k)) = false) s.
Proof.
  intros [Ht HW Hf Hfr Hpg]. pose proof (fr_bump _ Hfr) as Hb. unfold clock.
  apply (wp_loop (fun n _ s' => exists k f', 0 <= k <= max_frame s /\ n = Z.to_nat (max_frame s - k) /\ swept_by s W t f k s' f'))
    with (n := Z.to_nat (max_frame s)); [| |lia].
  2:{ exists 0, f. split; [lia|]. split; [f_equal; lia|]. exists (pgs s). rewrite turned_0 by done.
      rewrite set_pgs_same, set_bump_same, insert_id by done. split_and!; try done; try (intros j Hj; lia). by left. }
  intros n [] s' (k & f' & Hk & -> & x & -> & Hx & Hq & Hmem & Hacc & Hcl & Hsame & Hcase).
  destruct (aget_is_Some (frame_table s) (turned s k)) as [[fr Hi] _]; [by apply turned_range|].
  assert (hand_page s k = pg_no (ft_vaddr fr)) as Epg by (unfold hand_page; by rewrite Hi).
  destruct (Hpg _ _ Hi) as [Hva Hal]. assert ((<[pagedir t := f']> W) !! pagedir t = Some f') as Hf' by apply lookup_insert_eq.
  do 2 wp_step. wp_step. eapply wp_eq; [by apply current_ok|]. wp_step. eapply wp_eq; [apply frame_at_ok; exact Hi|]. wp_step.
  apply on_pg_wp. eapply wp_eq; [by eapply pg_is_accessed_ok|]. rewrite <- Epg. destruct (accessed (f' (hand_page s k))) eqn:Ha.
  2:{ wp_step. exists k, f'. split; [done|]. split; [|done]. by exists x. }
  (* the page was not passed before *)
  assert (forall j, 0 <= j < k -> hand_page s j <> hand_page s k) as Hnew.
  { intros j Hj E. rewrite <- E, Hcl, not_accessed_clear in Ha by done. done. }
  assert (k < max_frame s) as Hlt.
  { destruct (decide (k = max_frame s)) as [->|]; [|lia]. exfalso. apply (Hnew 0); [lia|]. unfold hand_page. do 3 f_equal.
    unfold turned. rewrite <- (Z.mul_1_l (max_frame s)) at 2. rewrite Z.mod_add, Z.add_0_r by lia. done. }
  wp_step. apply on_pg_wp. eapply wp_mono; [by eapply pg_unset_accessed_ok|]. intros [] y (f2 & Hy & Hq2 & Hm2 & Ef2).
  do 3 wp_step. eexists. split; [|exists (k + 1), f2; split; [lia|]; split; [reflexivity|]]; [lia|].
  rewrite insert_insert_eq in Hy. exists y. split; [|split; [done|]].
  { by rewrite <- (next_turned s k Hfr) by lia. }
  split; [by intros q Hqq; apply Hq2, Hq|]. split; [tauto|]. rewrite <- Epg in Ef2.
  assert (f' (hand_page s k) = f (hand_page s k)) as Eo by (apply Hsame, Hnew). split_and!.
  - intros j Hj. destruct (decide (j = k)) as [->|]; [congruence|apply Hacc; lia].
  - intros j Hj. rewrite Ef2. destruct (decide (j = k)) as [->|]; [by rewrite update_eq, Eo|]. rewrite update_ne by (apply Hnew; lia). apply Hcl. lia.
  - intros v Hv. rewrite Ef2, update_ne; [apply Hsame; intros j Hj; apply Hv; lia|]. intros ->. apply (Hv k); [lia|done].
  - intros v. rewrite Ef2. destruct (decide (v = hand_page s k)) as [->|Hne]; [right; by rewrite update_eq, Eo|rewrite update_ne by done; apply Hcase].
Qed.

(** What clearing a bit leaves. *)
Lemma not_accessed_bits w m : Z.land (u32 (Z.lnot PTE_A)) m = m -> Z.land (not_accessed w) m = Z.land w m.
Proof. intros H. unfold not_accessed. by rewrite <- Z.land_assoc, H. Qed.

Lemma not_accessed_frame w : 0 <= w < 2 ^ 32 -> frame_of (not_accessed w) = frame_of w.
Proof.
  intros Hw. unfold frame_of, not_accessed. do 2 f_equal. change PGSIZE with (2 ^ 12). rewrite <- !Z.shiftr_div_pow2, Z.shiftr_land by lia.
  change (Z.shiftr (u32 (Z.lnot PTE_A)) 12) with (Z.ones 20). rewrite Z.land_ones by lia. apply Z.mod_small.
  rewrite Z.shiftr_div_pow2 by lia. split; [apply Z.div_pos; lia|apply Z.div_lt_upper_bound; lia].
Qed.

Lemma not_present w : present (Z.land w (u32 (Z.lnot PTE_P))) = false.
Proof. unfold present. rewrite <- Z.land_assoc. change (Z.land (u32 (Z.lnot PTE_P)) PTE_P) with 0. by rewrite Z.land_0_r. Qed.

(** Every frame has a page of the running process, with an entry. *)
Record evict_ready s (W : gmap Z (Z -> Z)) (t : proc) (f : Z -> Z) : Prop := {
  er_evictable : evictable s W t f;
  er_swap : swap_ok s;
  er_page : forall i fr, (frame_table s).[i] = Some fr ->
    present (f (pg_no (ft_vaddr fr))) = true /\ frame_of (f (pg_no (ft_vaddr fr))) = frame_ptr fr /\ pg_frame (pgs s) (frame_ptr fr) /\
    exists page p e, ram s !! frame_ptr fr = Some page /\ length page = Z.to_nat PGSIZE /\
      SP_table t !! pg_no (ft_vaddr fr) = Some p /\ p <> 0 /\ sptes s !! p = Some e
}.

(** The entry of a page that was evicted; [slot] is where it is in swap. *)
Definition gone_entry (e : SPT_entry) (d : bool) (slot : option Z) : SPT_entry :=
  let e := with_resident false e in
  match slot with
  | Some i => with_swap_index i (if d then with_dirty true e else e)
  | None => e
  end.

Record evicted s s' (W : gmap Z (Z -> Z)) (t : proc) (f : Z -> Z) (i : Z) (fr : FrameTableEntry) (p : Z) (e : SPT_entry)
    (sl : option Z) (f' : Z -> Z) : Prop := {
  ec_frame : (frame_table s).[i] = Some fr;
  ec_entry : SP_table t !! pg_no (ft_vaddr fr) = Some p;
  ec_spte : sptes s !! p = Some e;
  ec_table : frame_table s' = (frame_table s).[i <- Frame (frame_ptr fr) FT_EMPTY (ft_vaddr fr)];
  ec_bump : bump_ptr s' = i;
  ec_max : max_frame s' = max_frame s;
  ec_view : pg_view (pgs s') (<[pagedir t := f']> W);
  ec_frames : forall k, pg_frame (pgs s) k -> pg_frame (pgs s') k;
  ec_memory : pg_no_memory (pgs s') -> pg_no_memory (pgs s);
  ec_gone : present (f' (pg_no (ft_vaddr fr))) = false;
  ec_others : forall v, v <> pg_no (ft_vaddr fr) -> f' v = f v \/ f' v = not_accessed (f v);
  ec_sptes : sptes s' = <[p := gone_entry e (dirty (f (pg_no (ft_vaddr fr)))) sl]> (sptes s);
  ec_ram : ram s' = ram s;
  ec_procs : procs s' = procs s;
  ec_running : running s' = running s
}.

(** Where the page is now: in a slot that was free, or nowhere because it was
    neither written to nor a stack page. *)
Definition in_swap s s' (fr : FrameTableEntry) (sl : option Z) (saves : bool) : Prop :=
  match sl with
  | Some i => saves = true /\ 0 <= i < entries s /\ (exists se, (swap_table s).[i] = Some se /\ sw_tid se = 0) /\
      swap_table s' = (swap_table s).[i <- Swap (running s) (ft_vaddr fr)] /\
      exists page, ram s !! frame_ptr fr = Some page /\
        sectors (swap_block s') = splice (sectors (swap_block s)) (Z.to_nat (8 * i)) (chunks page)
  | None => saves = false /\ swap_table s' = swap_table s /\ swap_block s' = swap_block s
  end.

(** [e] may be the entry after its resident bit was cleared. *)
Lemma save_page_ok s W t f va page p e d :
  resident_page s W t f va page -> swap_ok s -> sptes s !! p = Some e ->
  wp (save_page p va d) (fun ok s' =>
    if ok : bool then exists m b, swap_ok s' /\ s' = set_sptes m (set_swap (swap_table s') (set_swap_block b s)) /\
      ((d || is_stack_page e = false /\ m = sptes s /\ swap_table s' = swap_table s /\ b = swap_block s) \/
       (d || is_stack_page e = true /\ exists i se, 0 <= i < entries s /\ (swap_table s).[i] = Some se /\ sw_tid se = 0 /\
        m = <[p := with_swap_index i (if d then with_dirty true e else e)]> (sptes s) /\
        swap_table s' = (swap_table s).[i <- Swap (running s) va] /\
        sectors b = splice (sectors (swap_block s)) (Z.to_nat (8 * i)) (chunks page)))
    else d || is_stack_page e = true /\ forall j se, (swap_table s).[j] = Some se -> sw_tid se <> 0) s.
Proof.
  intros Hpg Hsw He. unfold save_page. wp_step. eapply wp_eq; [by apply get_spte_ok|].
  destruct (d || is_stack_page e) eqn:Hs.
  2:{ wp_step. exists (sptes s), (swap_block s). split; [done|]. split; [by destruct s|]. by left. }
  set (e1 := if d then with_dirty true e else e). set (s1 := set_sptes (<[p := e1]> (sptes s)) s).
  wp_step. eapply wp_mono with (P := fun _ s' => s' = s1).
  { unfold s1, e1, put_spte. destruct d; wp_step; [done|]. rewrite insert_id by done. by destruct s. }
  intros [] s' ->. wp_step. eapply wp_mono; [eapply (add_swap_entry_ok s1 W t f va page); [destruct Hpg; by split|destruct Hsw; by split]|].
  intros i s' [(-> & -> & Hall)|(Hi & (se & Hse & Hfree) & b & Hb & Ebs & Esec & ->)]; wp_step.
  - eapply wp_eq; [apply get_spte_ok; simpl; apply lookup_insert_eq|]. unfold put_spte. do 3 wp_step. done.
  - eapply wp_eq; [apply get_spte_ok; simpl; apply lookup_insert_eq|]. unfold put_spte. do 3 wp_step.
    rewrite (proj2 (Z.eqb_neq i (-1))) by lia. cbn [negb]. eexists _, b. split; [|split; [reflexivity|]].
    + destruct Hsw. split; simpl; rewrite ?alen_aset, ?Ebs; done.
    + right. split; [done|]. exists i, se. simpl. rewrite insert_insert_eq. done.
Qed.

Lemma evict_page_ok s W t f :
  evict_ready s W t f ->
  wp evict_page (fun r s' => exists i fr p e, (frame_table s).[i] = Some fr /\ sptes s !! p = Some e /\
    let saves := dirty (f (pg_no (ft_vaddr fr))) || is_stack_page e in
    match r with
    | Some k => k = frame_ptr fr /\ exists sl f', evicted s s' W t f i fr p e sl f' /\ in_swap s s' fr sl saves /\ swap_ok s'
    | None => saves = true /\ forall j se, (swap_table s).[j] = Some se -> sw_tid se <> 0
    end) s.
Proof.
  intros [Hev Hsw Hpage]. pose proof Hev as [Ht HW Hf Hfr Hpg]. unfold evict_page. do 3 wp_step. eapply wp_eq; [by apply current_ok|].
  wp_step. eapply wp_mono; [by apply clock_ok|]. intros [] s1 (k & f1 & Hk & (x & -> & Hx & Hq & Hmem & Hacc & Hcl & Hsame & Hcase) & Hna).
  set (i := turned s k) in *. destruct (aget_is_Some (frame_table s) i) as [[fr Hi] _]; [by apply turned_range|].
  destruct (Hpg i fr Hi) as [Hva Hal]. destruct (Hpage i fr Hi) as (Hpr & Hof & Hpf & page & p & e & Hram & Hlen & Hp & Hp0 & He).
  set (v := pg_no (ft_vaddr fr)) in *. pose proof (pg_word_range _ _ _ _ v HW Hf) as Hwr.
  assert (present (f1 v) = true /\ dirty (f1 v) = dirty (f v) /\ frame_of (f1 v) = frame_of (f v)) as (Hpr1 & Hd1 & Hof1).
  { unfold present, dirty in *. destruct (Hcase v) as [->| ->]; [done|]. rewrite !not_accessed_bits, not_accessed_frame by done. done. }
  do 3 wp_step. eapply wp_eq; [apply frame_at_ok; exact Hi|]. do 3 wp_step.
  eapply wp_eq; [apply (get_SPT_entry_ok _ t); [exact Ht|done]|]. fold v. rewrite Hp. cbn [from_option id]. cbv iota.
  wp_step. eapply wp_eq; [apply get_spte_ok; exact He|]. unfold put_spte. do 3 wp_step. apply on_pg_wp.
  assert ((<[pagedir t := f1]> W) !! pagedir t = Some f1) as Hf1 by apply lookup_insert_eq.
  eapply wp_eq; [eapply pg_is_dirty_ok; [exact Hx|exact Hf1|done]|]. fold v. rewrite Hd1. wp_step.
  match goal with |- wp _ _ ?s => set (s2 := s) end.
  eapply wp_mono.
  { apply (save_page_ok s2 (<[pagedir t := f1]> W) t f1 (ft_vaddr fr) page p (with_resident false e)).
    - split; try done. fold v. by rewrite Hof1, Hof.
    - destruct Hsw. by split.
    - apply lookup_insert_eq. }
  intros ok s3 Hs3. destruct ok.
  - destruct Hs3 as (m & b & Hsw3 & E3 & Hs3). rewrite E3 in Hs3 |- *. simpl in Hs3.
    wp_step. apply on_pg_wp. eapply wp_mono; [eapply pg_clear_page_ok; [exact Hx|exact Hf1|done|done]|].
    intros [] y (f2 & Hy & Hq2 & Hm2 & Ef2). fold v in Ef2. rewrite insert_insert_eq in Hy. wp_step. exists i, fr, p, e. split; [done|]. split; [done|].
    split; [done|]. assert (swap_ok (set_pgs y s3)) as Hsw4 by (destruct Hsw3; by split).
    assert (forall sl, m = <[p := gone_entry e (dirty (f v)) sl]> (sptes s) ->
      evicted s (set_pgs y (set_sptes m (set_swap (swap_table s3) (set_swap_block b s2)))) W t f i fr p e sl f2) as Hevd.
    { intros sl ->. split; try done; fold v.
      - by intros q Hqq; apply Hq2, Hq.
      - intros Hno. apply Hmem, Hm2, Hno.
      - rewrite Ef2, update_eq. apply not_present.
      - intros u Hu. rewrite Ef2, update_ne by done. apply Hcase. }
    rewrite E3 in Hsw4. destruct Hs3 as [(Hn & Em & Est & ->)|(Hy2 & idx & se & Hidx & Hse & Hfree & Em & Est & Esec)].
    + exists None, f2. split; [by apply Hevd|]. split; [by rewrite Est|done].
    + exists (Some idx), f2. split; [apply Hevd; by rewrite Em, insert_insert_eq|]. split; [|done].
      split; [done|]. split; [done|]. split; [by exists se|]. rewrite Est. split; [done|]. by exists page.
  - wp_step. exists i, fr, p, e. done.
Qed.

(** ** A page comes back *)
Lemma fault_in_swap_ok s W t f va p e se :
  procs s !! running s = Some t -> pg_view (pgs s) W -> W !! pagedir t = Some f -> frames_ok s -> has_empty s ->
  (forall i fr, (frame_table s).[i] = Some fr -> pg_frame (pgs s) (frame_ptr fr) /\
     exists bs, ram s !! frame_ptr fr = Some bs /\ length bs = Z.to_nat PGSIZE) ->
  user_page va -> present (f (pg_no va)) = false -> sptes s !! p = Some e -> resident_bit e = false ->
  dirty_bit e || is_stack_page e = true -> swap_ok s -> (swap_table s).[swap_index e] = Some se -> sw_tid se <> 0 ->
  wp (fault_in va p) (fun r s' =>
    match r with
    | Some _ => exists f', resident_page s' (<[pagedir t := f']> W) t f' va (concat (slot (sectors (swap_block s)) (swap_index e)))
    | None => pg_no_memory (pgs s)
    end) s.
Proof.
  intros Ht HW Hf Hfr Hempty Hframe Hu Habs Hp Hres Hds Hsw Hse Htid. unfold fault_in. wp_step.
  eapply wp_mono; [by apply get_user_page_ok|]. intros r s1 (i & fr & Hi & Hst & -> & ->).
  destruct (Hframe i fr Hi) as (Hpf & old & Hold & Hlen). pose proof (pg_frame_page _ _ Hpf) as Hk.
  rewrite (proj2 (Z.eqb_neq (frame_ptr fr) 0)) by (destruct Hk as [Hk _]; unfold PHYS_BASE in Hk; lia). wp_step.
  eapply wp_eq; [by apply get_spte_ok|]. rewrite Hres, Hds. cbn [negb andb]. wp_step.
  eapply wp_mono; [eapply remove_swap_entry_ok; [destruct Hsw; by split|exact Hse|done|exact Hp|exact Hold|done]|].
  intros r s2 (-> & b & Hb & Ebs & Esec & ->). cbv iota. wp_step.
  eapply wp_mono; [eapply (install_page_ok _ W t f); [exact Ht|exact HW|exact Hf|done|exact Hpf]|].
  intros ok s3 (x & f' & -> & Hx & Hq & _ & Hno & Ef). destruct ok; [|wp_step; destruct (Hno eq_refl); [congruence|done]].
  wp_step. eapply wp_eq; [apply get_spte_ok; simpl; apply lookup_insert_eq|]. unfold put_spte. do 3 wp_step. exists f'.
  destruct (entry_present (frame_ptr fr) (writable e) Hk) as [Hpr Hof].
  assert (f' (pg_no va) = entry (frame_ptr fr) (user_flags (writable e))) as Efv by (by rewrite Ef, update_eq).
  split; simpl; try done.
  - apply lookup_insert_eq.
  - by rewrite Efv.
  - rewrite Efv, Hof. apply lookup_insert_eq.
  - pose proof (aget_lt _ _ _ Hse) as Hr. destruct Hsw as [Hbk He Hs _]. pose proof (bk_size _ Hbk) as Hbs. unfold alen in Hbs, Hr.
    assert (Forall (fun d => length d = SECTOR) (slot (sectors (swap_block s)) (swap_index e))) as Hsec by (apply Forall_take, Forall_drop, Hbk).
    rewrite (concat_length SECTOR) by done. unfold slot. rewrite slice_of_length by (unfold alen in He; lia). done.
Qed.

(** A page is evicted, its frame is used for something else, and the process
    touches the page again; the result is the address of the page. *)
Definition evict_and_touch (junk : list Z) (f_esp : Z) : M V (option Z) :=
  r ← evict_page;
  match r with
  | None => mret None
  | Some k =>
    modify (fun s => set_ram (<[k := junk]> (ram s)) s);;
    s ← get;
    fr ← frame_at (bump_ptr s);
    r ← page_fault f_esp (ft_vaddr fr);
    mret (match r with Some _ => Some (ft_vaddr fr) | None => None end)
  end.

Lemma slot_splice D i page :
  0 <= i -> (8 * Z.to_nat i + 8 <= length D)%nat -> length page = Z.to_nat PGSIZE ->
  concat (slot (splice D (Z.to_nat (8 * i)) (chunks page)) i) = page.
Proof.
  intros Hi Hl Hp. unfold slot. change 8%nat with (length (chunks page)) at 1. rewrite slice_splice.
  - by apply concat_chunks.
  - change (length (chunks page)) with 8%nat. lia.
Qed.

Lemma round_down_aligned va : 0 <= va < PHYS_BASE -> va mod PGSIZE = 0 -> pg_round_down va = va.
Proof.
  intros H Hal. rewrite pg_round_down_div by (unfold PHYS_BASE in H; lia). rewrite (Z.div_mod va PGSIZE) at 2 by done. lia.
Qed.

Lemma gone_in_swap e d idx :
  d || is_stack_page e = true -> let e' := gone_entry e d (Some idx) in
  swap_index e' = idx /\ resident_bit e' = false /\ dirty_bit e' || is_stack_page e' = true.
Proof. intros H. simpl. split_and!; destruct d; try done. simpl in H |- *. rewrite H. apply orb_true_r. Qed.

(** The frame table after an eviction. *)
Section after.
Context (s s' : V) (W : gmap Z (Z -> Z)) (t : proc) (f : Z -> Z) (i : Z) (fr : FrameTableEntry) (p : Z) (e : SPT_entry)
  (sl : option Z) (f' : Z -> Z).
Hypothesis Hev : evict_ready s W t f.
Hypothesis Hevd : evicted s s' W t f i fr p e sl f'.

Lemma evicted_frames_ok : frames_ok s'.
Proof.
  destruct Hevd as [G1 G2 G3 G4 G5 G6 _]. pose proof (aget_lt _ _ _ G1). destruct (ev_frames _ _ _ _ (er_evictable _ _ _ _ Hev)) as [Hm _].
  split; [by rewrite G6, G4, alen_aset|]. by rewrite G5, G6, Hm.
Qed.

Lemma evicted_empty : (frame_table s').[i] = Some (Frame (frame_ptr fr) FT_EMPTY (ft_vaddr fr)).
Proof. destruct Hevd as [G1 G2 G3 G4 _]. rewrite G4. apply aget_aset_eq. by eapply aget_lt. Qed.

Lemma evicted_has_empty : has_empty s'.
Proof.
  exists i. split; [by eapply aget_lt, evicted_empty|]. intros (fr2 & Hfr2 & Hfull). rewrite evicted_empty in Hfr2. by injection Hfr2 as <-.
Qed.

Lemma evicted_frame_bytes k junk j fr2 :
  length junk = Z.to_nat PGSIZE -> (frame_table s').[j] = Some fr2 ->
  pg_frame (pgs s') (frame_ptr fr2) /\ exists bs, <[k := junk]> (ram s') !! frame_ptr fr2 = Some bs /\ length bs = Z.to_nat PGSIZE.
Proof.
  intros Hl Hj. assert (exists fr1, (frame_table s).[j] = Some fr1 /\ frame_ptr fr1 = frame_ptr fr2) as (fr1 & Hj1 & <-).
  { rewrite (ec_table _ _ _ _ _ _ _ _ _ _ _ Hevd) in Hj. pose proof (ec_frame _ _ _ _ _ _ _ _ _ _ _ Hevd) as Hi.
    destruct (decide (i = j)) as [<-|]; [rewrite aget_aset_eq in Hj by (by eapply aget_lt); injection Hj as <-; by exists fr|].
    rewrite aget_aset_ne in Hj by done. by exists fr2. }
  destruct (er_page _ _ _ _ Hev j fr1 Hj1) as (_ & _ & Hpf & page & _ & _ & Hram & Hlen & _).
  split; [by apply (ec_frames _ _ _ _ _ _ _ _ _ _ _ Hevd)|]. rewrite (ec_ram _ _ _ _ _ _ _ _ _ _ _ Hevd).
  destruct (decide (k = frame_ptr fr1)) as [->|]; [rewrite lookup_insert_eq|rewrite lookup_insert_ne by done]; eauto.
Qed.
End after.

(** C14: a page that is evicted comes back as it was.  When the frames hold pages
    of the running process that were written to or are stack pages, evicting a
    page ends: it stores the page in a free slot of the swap device.  Whatever
    its frame is used for then, the next access to the page brings back the same
    bytes.  The process is ended only when swap is full or when memory for a page
    table runs out. *)
Theorem page_survives_eviction s W t f junk f_esp :
  evict_ready s W t f -> running s <> 0 -> length junk = Z.to_nat PGSIZE ->
  (forall i fr, (frame_table s).[i] = Some fr -> ft_vaddr fr <> 0) ->
  (forall i fr p e, (frame_table s).[i] = Some fr -> SP_table t !! pg_no (ft_vaddr fr) = Some p -> sptes s !! p = Some e ->
     dirty (f (pg_no (ft_vaddr fr))) || is_stack_page e = true) ->
  wp (evict_and_touch junk f_esp) (fun r s' =>
    match r with
    | Some va => exists page f', resident_page s W t f va page /\ resident_page s' (<[pagedir t := f']> W) t f' va page
    | None => (forall j se, (swap_table s).[j] = Some se -> sw_tid se <> 0) \/ pg_no_memory (pgs s)
    end) s.
Proof.
  intros Hev Hrun Hjunk Hnz Hsave. pose proof Hev as [[Ht HW Hf Hfr Hpg] Hsw Hpage]. unfold evict_and_touch. wp_step.
  eapply wp_mono; [by apply evict_page_ok|]. intros r s1 (i & fr & p & e & Hi & He & Hr). cbv zeta in Hr.
  destruct r as [k|]; [|wp_step; left; apply Hr]. destruct Hr as (-> & sl & f1 & Hevd & Hin & Hsw1).
  pose proof Hevd as [G1 G2 G3 G4 G5 G6 G7 G8 G9 G10 G11 G12 G13 G14 G15].
  destruct (Hpage i fr Hi) as (Hpr & Hof & Hpf & page & p' & e' & Hram & Hlen & Hp' & Hp0 & He'). rewrite G2 in Hp'. injection Hp' as <-.
  rewrite He in He'. injection He' as <-. destruct (Hpg i fr Hi) as [Hva Hal].
  destruct sl as [idx|]; [|destruct Hin as [Hno _]; by rewrite (Hsave i fr p e) in Hno].
  destruct Hin as (_ & Hidx & _ & Est & page' & Hpage' & Esec). rewrite Hram in Hpage'. injection Hpage' as <-.
  pose proof (aget_lt _ _ _ Hi) as Hil. do 5 wp_step.
  eapply wp_eq; [apply frame_at_ok; simpl; rewrite G5, G4; by apply aget_aset_eq|]. wp_step. cbn [ft_vaddr].
  unfold page_fault. rewrite (proj2 (Z.eqb_neq _ 0)) by (by apply (Hnz i fr)). cbv zeta. rewrite round_down_aligned by done.
  assert (procs s1 !! running s1 = Some t) as Ht1 by congruence. wp_step. eapply wp_eq; [apply (get_SPT_entry_ok _ t); [exact Ht1|done]|].
  rewrite G2. cbn [from_option id]. cbv iota. rewrite (proj2 (Z.eqb_neq p 0)) by done. cbn [negb].
  destruct (gone_in_swap e (dirty (f (pg_no (ft_vaddr fr)))) idx) as (Eidx & Eres & Eds); [by apply (Hsave i fr p)|].
  set (e1 := gone_entry e _ (Some idx)) in *. clearbody e1.
  eapply wp_mono.
  { eapply (fault_in_swap_ok _ (<[pagedir t := f1]> W) t f1 (ft_vaddr fr) p e1); simpl; try done.
    - apply lookup_insert_eq.
    - destruct (evicted_frames_ok s s1 W t f i fr p e (Some idx) f1 Hev Hevd). by split.
    - exact (evicted_has_empty s s1 W t f i fr p e (Some idx) f1 Hevd).
    - intros j fr2 Hj. eapply (evicted_frame_bytes s s1 W t f i fr p e (Some idx) f1 Hev Hevd (frame_ptr fr) junk j fr2 Hjunk Hj).
    - rewrite G12. apply lookup_insert_eq.
    - destruct Hsw1. by split.
    - rewrite Eidx, Est. apply aget_aset_eq. rewrite <- (so_entries _ Hsw). done.
    - done. }
  intros r s' Hr. wp_step. destruct r; [|right; apply G9, Hr]. destruct Hr as (f' & Hres). rewrite insert_insert_eq in Hres.
  exists page, f'. split; [by split; try done; rewrite Hof|].
  rewrite Eidx in Hres. simpl in Hres. rewrite Esec, slot_splice in Hres; try done; [lia|].
  destruct Hsw as [Hb E1 E2 _]. pose proof (bk_size _ Hb) as Hbs. unfold alen in Hbs. lia.
Qed.

(** ** The frame of an evicted page *)
Lemma get_user_page_hand s va fr :
  frames_ok s -> (frame_table s).[bump_ptr s] = Some fr -> ft_status fr <> FT_FULL ->
  wp (get_user_page va) (fun r _ => r = Some (frame_ptr fr)) s.
Proof.
  intros Hok Hb Hst. unfold get_user_page. do 3 wp_step. eapply wp_mono; [by apply search_ok|].
  intros r s' (k & Hk & -> & Hfull & Hr). assert (k = 0) as ->.
  { destruct (decide (k = 0)) as [|Hne]; [done|]. destruct (Hfull 0) as (fr2 & Hfr2 & Hst2); [lia|]. rewrite turned_0 in Hfr2 by done. congruence. }
  destruct r; [pose proof (fr_bump _ Hok); lia|]. rewrite turned_0, set_bump_same in * by done. do 3 wp_step.
  eapply wp_eq; [by apply frame_at_ok|]. by do 3 wp_step.
Qed.

(** The frame of an evicted page is given away twice.  When every frame is
    full, [get_user_page] evicts a page and returns its frame, which stays
    marked as empty; the next [get_user_page] returns the same frame again. *)
Theorem evicted_frame_reused s W t f va1 va2 :
  evict_ready s W t f -> (forall i, 0 <= i < alen (frame_table s) -> full_frame s i) ->
  wp (r1 ← get_user_page va1;
      match r1 with
      | None => mret None
      | Some k1 => r2 ← get_user_page va2; mret (Some (k1, r2))
      end) (fun r _ => match r with Some (k1, r2) => r2 = Some k1 | None => True end) s.
Proof.
  intros Hev Hall. wp_step. apply get_user_page_full; [apply Hev|done|]. eapply wp_mono; [by apply evict_page_ok|].
  intros r s1 (i & fr & p & e & Hi & He & Hr). destruct r as [k|]; [|by wp_step]. destruct Hr as (-> & sl & f1 & Hevd & _).
  wp_step. eapply wp_mono.
  { apply (get_user_page_hand s1 va2 (Frame (frame_ptr fr) FT_EMPTY (ft_vaddr fr))); [by eapply evicted_frames_ok| |done].
    rewrite (ec_bump _ _ _ _ _ _ _ _ _ _ _ Hevd). by eapply evicted_empty. }
  intros r s2 ->. by wp_step.
Qed.

(** C22: the clock ends and gives a second chance.  Within one turn of the hand
    over the frames the clock stops at a page whose accessed bit is clear.  It
    has passed over accessed pages only, cleared the accessed bit of each, and
    changed no other entry. *)
Theorem clock_second_chance s W t f :
  evictable s W t f ->
  wp (clock (S (Z.to_nat (max_frame s)))) (fun _ s' => exists k f', 0 <= k <= max_frame s /\
    bump_ptr s' = turned s k /\ frame_table s' = frame_table s /\ pg_view (pgs s') (<[pagedir t := f']> W) /\
    accessed (f' (hand_page s k)) = false /\
    (forall j, 0 <= j < k -> accessed (f (hand_page s j)) = true /\ f' (hand_page s j) = not_accessed (f (hand_page s j))) /\
    (forall v, (forall j, 0 <= j < k -> hand_page s j <> v) -> f' v = f v)) s.
Proof.
  intros Hev. eapply wp_mono; [by apply clock_ok|]. intros [] s' (k & f' & Hk & (x & -> & Hx & _ & _ & Hacc & Hcl & Hsame & _) & Hna).
  exists k, f'. split_and!; try done; try lia. intros j Hj. split; [by apply Hacc|by apply Hcl].
Qed.
End eviction.

(** ** The hash function of the supplemental page table *)

(** The inverse of the FNV prime modulo 2^32. *)
Definition FNV_INVERSE : Z := 899433627.

Lemma fnv_unmul h : 0 <= h < 2 ^ 32 -> u32 (u32 (h * FNV_32_PRIME) * FNV_INVERSE) = h.
Proof.
  intros Hh. unfold wrap at 1 2. rewrite Z.mul_mod_idemp_l by lia. rewrite <- Z.mul_assoc, <- Z.mul_mod_idemp_r by lia.
  change ((FNV_32_PRIME * FNV_INVERSE) mod 2 ^ 32) with 1. rewrite Z.mul_1_r. by apply Z.mod_small.
Qed.

(** One step of the hash, undone. *)
Lemma fnv_undo h b x :
  0 <= h < 2 ^ 32 -> Z.lxor (u32 (h * FNV_32_PRIME)) b = x -> h = u32 (Z.lxor x b * FNV_INVERSE).
Proof.
  intros Hh <-. rewrite Z.lxor_assoc, Z.lxor_nilpotent, Z.lxor_0_r. symmetry. by apply fnv_unmul.
Qed.

(** The digests before the first byte that would lead to 0 after three more. *)
Definition undone (b1 b2 : Z) : Z :=
  Z.lxor (u32 (Z.lxor (u32 (Z.lxor 0 b2 * FNV_INVERSE)) b1 * FNV_INVERSE)) (u32 (FNV_32_BASIS * FNV_32_PRIME)).

Definition no_zero : bool := forallb (fun b2 => forallb (fun b1 => 256 <=? undone b1 b2) (seqZ 0 256)) (seqZ 0 16).

Lemma no_zero_ok : no_zero = true.
Proof. vm_compute. reflexivity. Qed.

(** The assertion of [hasher] never fails.  The hash of the number of a user
    page is not 0, and fits 32 bits. *)
Theorem hasher_nonzero {P : Type} (s : vm P) e :
  0 <= page_number e < max_page -> hasher e s = Ok (hash_int (page_number e), s) /\ 0 < hash_int (page_number e) < 2 ^ 32.
Proof.
  rewrite max_page_value. set (n := page_number e). intros Hn. cut (0 < hash_int n < 2 ^ 32).
  { intros H. split; [|done]. unfold hasher, mbind, M_bind, assert. fold n. by rewrite (proj2 (Z.ltb_lt _ _)) by lia. }
  set (b0 := u8 n). set (b1 := u8 (Z.shiftr n 8)). set (b2 := u8 (Z.shiftr n 16)).
  assert (u8 (Z.shiftr n 24) = 0) as E3 by (rewrite Z.shiftr_div_pow2, Z.div_small by lia; done).
  assert (0 <= b0 < 256 /\ 0 <= b1 < 256) as [H0 H1] by (split; apply (wrap_range 8); lia).
  assert (0 <= b2 < 16) as H2.
  { unfold b2. rewrite Z.shiftr_div_pow2 by lia. pose proof (Z.div_pos n (2 ^ 16) ltac:(lia) ltac:(lia)).
    pose proof (Z.div_lt_upper_bound n (2 ^ 16) 16 ltac:(lia) ltac:(lia)). rewrite wrap_small; lia. }
  set (h1 := Z.lxor (u32 (FNV_32_BASIS * FNV_32_PRIME)) b0). set (h2 := Z.lxor (u32 (h1 * FNV_32_PRIME)) b1).
  set (h3 := Z.lxor (u32 (h2 * FNV_32_PRIME)) b2).
  assert (hash_int n = Z.lxor (u32 (h3 * FNV_32_PRIME)) 0) as E by (unfold hash_int, hash_bytes, int_bytes; cbn [map fnv]; change (8 * 3) with 24; rewrite E3; done).
  assert (forall x b, 0 <= b < 256 -> 0 <= Z.lxor (u32 x) b < 2 ^ 32) as Hr.
  { intros x b Hb. apply (lxor_range 32); [lia|apply (wrap_range 32); lia|lia]. }
  pose proof (Hr (FNV_32_BASIS * FNV_32_PRIME) b0 H0) as R1. pose proof (Hr (h1 * FNV_32_PRIME) b1 H1) as R2.
  pose proof (Hr (h2 * FNV_32_PRIME) b2 ltac:(lia)) as R3. fold h1 in R1. fold h2 in R2. fold h3 in R3.
  pose proof (Hr (h3 * FNV_32_PRIME) 0 ltac:(lia)) as R4. rewrite <- E in R4. split; [|lia].
  destruct (decide (hash_int n = 0)) as [Hz|]; [exfalso|lia]. rewrite Hz in E. symmetry in E.
  apply fnv_undo in E; [|done]. change (u32 (Z.lxor 0 0 * FNV_INVERSE)) with 0 in E.
  apply (fnv_undo h2 b2) in E; [|done]. apply (fnv_undo h1 b1) in E; [|done].
  assert (Z.lxor h1 (u32 (FNV_32_BASIS * FNV_32_PRIME)) = b0) as Eb.
  { unfold h1. by rewrite (Z.lxor_comm _ b0), Z.lxor_assoc, Z.lxor_nilpotent, Z.lxor_0_r. }
  rewrite E in Eb. fold (undone b1 b2) in Eb. pose proof no_zero_ok as Hnz. unfold no_zero in Hnz. rewrite forallb_forall in Hnz.
  specialize (Hnz b2 ltac:(apply list_elem_of_In, elem_of_seqZ; lia)). rewrite forallb_forall in Hnz.
  specialize (Hnz b1 ltac:(apply list_elem_of_In, elem_of_seqZ; lia)). lia.
Qed.

