(* ===== verification/VmPaging.v ===== *)
(** * Page directories for virtual memory

    Pagedir has the operations that virtual memory uses and obeys their laws, so
    that the theorems about page faults and eviction hold of the page directories
    of the kernel; with examples of these theorems, and a run that shows how two
    pages come to share a frame. *)

From S2P Require Import Prelude Khash Bitmap Vaddr Palloc Pagedir Block Inode FreeMap Filesys FsDisk FsSpec FsMount FsTheorems.
From S2P Require Import Vm VmSpec VmTheorems VmSwap VmEvict.

#[export] Instance pagedir_paging : Paging pgstate := {
  pg_get_page := pagedir_get_page;
  pg_set_page := pagedir_set_page;
  pg_clear_page := pagedir_clear_page;
  pg_is_dirty := pagedir_is_dirty;
  pg_is_accessed := pagedir_is_accessed;
  pg_set_accessed := pagedir_set_accessed
}.

(** ** The laws *)
(** [W] has the words of the directories [D], one of which is the active one;
    the kernel's own directory is not among them. *)
Definition dirs_view (s : pgstate) (W : gmap Z (Z -> Z)) : Prop :=
  exists K U D apd apts, dirs_ok s K U D /\ active s D apd apts /\ coherent s apts /\ D !! init_page_dir s = None /\
  (forall pd, is_Some (W !! pd) -> is_Some (D !! pd)) /\
  forall pd f pts, W !! pd = Some f -> D !! pd = Some pts -> forall v, 0 <= f v < 2 ^ 32 /\ (0 <= v < max_page -> f v = as_of s pts v).

Definition user_frame (s : pgstate) (k : Z) : Prop := kpage_ok k /\ (k - PHYS_BASE) / PGSIZE < init_ram_pages (pal s).

Definition no_table_page (s : pgstate) : Prop :=
  exists K U, pal_rep (pal s) K U /\ forall i, 0 <= i -> ~ group K 1 false i.

Lemma is_bitmap_det b bs bs' : is_bitmap b bs -> is_bitmap b bs' -> bs = bs'.
Proof.
  intros H H'. assert (alen bs = alen bs') as El by (destruct H, H'; congruence).
  apply alist_eq; [done|]. intros i Hi. rewrite (bm_bits _ _ H), (bm_bits _ _ H') by lia. done.
Qed.

Lemma no_table_page_back s s' K U D :
  dirs_ok s K U D -> (exists D', dirs_ok s' K U D') -> no_table_page s' -> no_table_page s.
Proof.
  intros HD [D' HD'] (K2 & U2 & Hp & Hno). exists K, U. split; [apply HD|].
  replace K with K2; [done|]. eapply is_bitmap_det; [apply Hp|apply (do_pal _ _ _ _ HD')].
Qed.

(** The directory of a view. *)
Lemma view_dir s W pd f :
  dirs_view s W -> W !! pd = Some f -> exists K U D apd apts pts, dirs_ok s K U D /\ active s D apd apts /\ coherent s apts /\
    D !! pd = Some pts /\ pd <> init_page_dir s /\ (forall v, 0 <= v < max_page -> f v = as_of s pts v) /\ forall v, 0 <= f v < 2 ^ 32.
Proof.
  intros (K & U & D & apd & apts & HD & Hact & Hco & Hinit & Hdom & Has) Hf. destruct (Hdom pd) as [pts Hpts]; [eauto|].
  exists K, U, D, apd, apts, pts. split_and!; try done; [by apply Hact..| | |].
  - intros ->. congruence.
  - intros v Hv. by apply (Has pd f pts).
  - intros v. by apply (Has pd f pts).
Qed.

(** Reading a bit of an entry. *)
Lemma test_pte_ok s K U D pd pts va bit :
  dirs_ok s K U D -> D !! pd = Some pts -> 0 <= va < PHYS_BASE ->
  test_pte pd va bit s = Ok (negb (Z.land (as_of s pts (pg_no va)) bit =? 0), s).
Proof.
  intros HD Hpd Hva. pose proof (do_dir _ _ _ _ HD _ _ Hpd) as Hdir.
  cut (wp (test_pte pd va bit) (fun r s' => r = negb (Z.land (as_of s pts (pg_no va)) bit =? 0) /\ s' = s) s).
  { by intros (r & s' & -> & -> & ->)%wp_iff. }
  unfold test_pte. wp_step. eapply wp_eq; [by eapply lookup_page_ok|]. destruct (pts !! pd_no va) as [pt|] eqn:E.
  - destruct (read_pte _ _ _ _ _ Hdir va pt Hva E) as (tws & w & _ & _ & _ & Hrd & -> & _). wp_step. eapply wp_eq; [exact Hrd|]. by wp_step.
  - rewrite as_of_missing by done. by wp_step.
Qed.

(** A change of one entry of one directory, seen in the views. *)
Lemma view_update s s' K U D apd apts pd pts W f f' pts' K' apts' :
  dirs_ok s K U D -> D !! pd = Some pts -> W !! pd = Some f ->
  (forall pd, is_Some (W !! pd) -> is_Some (D !! pd)) -> D !! init_page_dir s = None -> active s D apd apts ->
  (forall pd f pts, W !! pd = Some f -> D !! pd = Some pts -> forall v, 0 <= f v < 2 ^ 32 /\ (0 <= v < max_page -> f v = as_of s pts v)) ->
  dirs_ok s' K' U (<[pd := pts']> D) -> active s' (<[pd := pts']> D) apd apts' -> coherent s' apts' -> others_same s s' D pd ->
  init_page_dir s' = init_page_dir s ->
  (forall v, 0 <= f' v < 2 ^ 32 /\ (0 <= v < max_page -> f' v = as_of s' pts' v)) ->
  dirs_view s' (<[pd := f']> W).
Proof.
  intros HD Hpd Hf Hdom Hinit Hact Has HD' Hact' Hco' Hoth Ei Hf'. exists K', U, (<[pd := pts']> D), apd, apts'. split_and!; try done; try apply Hact'.
  - rewrite Ei, lookup_insert_ne; [done|]. intros ->. congruence.
  - intros pd2 H2. destruct (decide (pd2 = pd)) as [->|Hne]; [rewrite lookup_insert_eq; eauto|].
    rewrite lookup_insert_ne in H2 by done. rewrite lookup_insert_ne by done. by apply Hdom.
  - intros pd2 f2 pts2 H2 H3. destruct (decide (pd2 = pd)) as [->|Hne].
    + rewrite lookup_insert_eq in H2. rewrite lookup_insert_eq in H3. injection H2 as <-. injection H3 as <-. done.
    + rewrite lookup_insert_ne in H2 by done. rewrite lookup_insert_ne in H3 by done. intros v. rewrite (Hoth pd2 pts2 v Hne H3). by apply (Has pd2 f2 pts2).
Qed.

(** The word of a page in a view, in range. *)
Lemma view_word (pts : gmap Z Z) s f va : (forall v, 0 <= v < max_page -> f v = as_of s pts v) -> 0 <= va < PHYS_BASE -> as_of s pts (pg_no va) = f (pg_no va).
Proof. intros H Hva. symmetry. apply H. by apply user_page_no. Qed.

Lemma set_page_law s W pd f upage kpage w :
  dirs_view s W -> W !! pd = Some f -> 0 <= upage < PHYS_BASE -> upage mod PGSIZE = 0 -> user_frame s kpage ->
  present (f (pg_no upage)) = false ->
  wp (pagedir_set_page pd upage kpage w) (fun ok s' =>
    exists f', dirs_view s' (<[pd := f']> W) /\ (forall k, user_frame s k -> user_frame s' k) /\ (ok = false -> no_table_page s) /\
    forall v, f' v = if ok : bool then update f (pg_no upage) (entry kpage (user_flags w)) v else f v) s.
Proof.
  intros HW Hf Hu Hal [Hk Hram] Hpr. pose proof HW as (K & U & D & apd & apts & HD & Hact & Hco & Hinit & Hdom & Has).
  destruct (Hdom pd) as [pts Hpd]; [eauto|]. assert (pd <> init_page_dir s) as Hni by (intros ->; congruence).
  assert (forall v, 0 <= v < max_page -> f v = as_of s pts v) as Hfs by (intros v Hv; by apply (Has pd f pts)).
  assert (Z.land (as_of s pts (pg_no upage)) PTE_P = 0) as HP.
  { rewrite (view_word pts s f) by done. unfold present in Hpr. by apply negb_false_iff, Z.eqb_eq in Hpr. }
  eapply wp_mono; [by eapply (pagedir_set_page_ok s K U D pd pts upage kpage w)|].
  intros ok s' (Hregs & K' & pts' & HD' & Hoth & Has' & Hfail). pose proof Hregs as (_ & _ & Ei & Er).
  destruct (set_page_coherent s D apd apts Hact Hco pd pts pts' upage ok _ s' Hpd HP Hregs Hoth Has') as (apts' & Hact' & Hco').
  exists (fun v => if ok : bool then update f (pg_no upage) (entry kpage (user_flags w)) v else f v). split_and!; try done.
  - eapply (view_update s s' K U D apd apts pd pts W f _ pts' K' apts'); try done. intros v. split.
    + assert (0 <= f v < 2 ^ 32) by (by apply (Has pd f pts)). destruct ok; [|done]. unfold update. destruct (decide (v = pg_no upage)); [|done].
      apply entry_range; [done|by destruct w].
    + intros Hv. rewrite Has', <- Hfs by done. destruct ok; [unfold update|by rewrite decide_False by (by intros [? _])].
      destruct (decide (v = pg_no upage)); [by rewrite decide_True|]. by rewrite decide_False by (by intros [_ ?]).
  - intros k [H1 H2]. split; [done|]. by rewrite Er.
  - intros ->. exists K, U. split; [apply HD|]. by apply Hfail.
Qed.

Lemma clear_page_law s W pd f upage :
  dirs_view s W -> W !! pd = Some f -> 0 <= upage < PHYS_BASE -> upage mod PGSIZE = 0 ->
  wp (pagedir_clear_page pd upage) (fun _ s' =>
    exists f', dirs_view s' (<[pd := f']> W) /\ (forall k, user_frame s k -> user_frame s' k) /\ (no_table_page s' -> no_table_page s) /\
    forall v, f' v = update f (pg_no upage) (Z.land (f (pg_no upage)) (u32 (Z.lnot PTE_P))) v) s.
Proof.
  intros HW Hf Hu Hal. pose proof HW as (K & U & D & apd & apts & HD & Hact & Hco & Hinit & Hdom & Has).
  destruct (Hdom pd) as [pts Hpd]; [eauto|].
  assert (forall v, 0 <= v < max_page -> f v = as_of s pts v) as Hfs by (intros v Hv; by apply (Has pd f pts)).
  eapply wp_mono; [by eapply (pagedir_clear_page_ok s K U D apd apts HD Hact Hco pd pts upage)|].
  intros [] s' (HD' & Hact' & Hco' & Hoth & [Ei Er] & Has'). eexists. split_and!; [|intros k [H1 H2]; split; [done|by rewrite Er]| |done].
  - eapply (view_update s s' K U D apd apts pd pts W f _ pts K apts); try done; [by rewrite insert_id..|]. intros v. split.
    + assert (forall u, 0 <= f u < 2 ^ 32) as Hr by (intros u; by apply (Has pd f pts)). unfold update. case_decide; [|done]. by apply (land_range 32).
    + intros Hv. rewrite Has'. unfold update. case_decide; [subst v|]; by rewrite Hfs.
  - eapply no_table_page_back; eauto.
Qed.

Lemma unset_accessed_law s W pd f va :
  dirs_view s W -> W !! pd = Some f -> 0 <= va < PHYS_BASE ->
  wp (pagedir_set_accessed pd va false) (fun _ s' =>
    exists f', dirs_view s' (<[pd := f']> W) /\ (forall k, user_frame s k -> user_frame s' k) /\ (no_table_page s' -> no_table_page s) /\
    forall v, f' v = update f (pg_no va) (Z.land (f (pg_no va)) (u32 (Z.lnot PTE_A))) v) s.
Proof.
  intros HW Hf Hu. pose proof HW as (K & U & D & apd & apts & HD & Hact & Hco & Hinit & Hdom & Has).
  destruct (Hdom pd) as [pts Hpd]; [eauto|].
  assert (forall v, 0 <= v < max_page -> f v = as_of s pts v) as Hfs by (intros v Hv; by apply (Has pd f pts)).
  eapply wp_mono; [eapply (set_pte_ok s K U D apd apts HD Hact Hco pd pts va PTE_A false); try done; by left|].
  intros [] s' (HD' & Hact' & Hco' & Hoth & [Ei Er] & Hne & Heq & _). eexists. split_and!; [|intros k [H1 H2]; split; [done|by rewrite Er]| |done].
  - eapply (view_update s s' K U D apd apts pd pts W f _ pts K apts); try done; [by rewrite insert_id..|]. intros v. split.
    + assert (forall u, 0 <= f u < 2 ^ 32) as Hr by (intros u; by apply (Has pd f pts)). unfold update. case_decide; [|done]. by apply (land_range 32).
    + intros Hv. unfold update. case_decide; [subst v; by rewrite Heq, Hfs|]. by rewrite Hne, Hfs.
  - eapply no_table_page_back; eauto.
Qed.

#[export] Instance pagedir_laws : PagingLaws pgstate.
Proof.
  refine {| pg_view := dirs_view; pg_frame := user_frame; pg_no_memory := no_table_page |}.
  - by intros s k [H _].
  - intros s W pd f v HW Hf. destruct (view_dir s W pd f HW Hf) as (K & U & D & apd & apts & pts & _ & _ & _ & _ & _ & _ & Hr). apply Hr.
  - intros s W pd f va HW Hf Hva. destruct (view_dir s W pd f HW Hf) as (K & U & D & apd & apts & pts & HD & _ & _ & Hpd & _ & Has & _).
    simpl. rewrite (pagedir_get_page_ok _ _ _ _ _ (do_dir _ _ _ _ HD _ _ Hpd)) by done. cbv zeta. rewrite (view_word pts s f) by done.
    unfold translate, present, frame_of. by destruct (Z.land (f (pg_no va)) PTE_P =? 0).
  - intros s W pd f va HW Hf Hva. destruct (view_dir s W pd f HW Hf) as (K & U & D & apd & apts & pts & HD & _ & _ & Hpd & _ & Has & _).
    unfold pg_is_accessed, pagedir_paging, pagedir_is_accessed. rewrite (test_pte_ok _ _ _ _ _ _ _ _ HD Hpd) by done. by rewrite (view_word pts s f).
  - intros s W pd f va HW Hf Hva. destruct (view_dir s W pd f HW Hf) as (K & U & D & apd & apts & pts & HD & _ & _ & Hpd & _ & Has & _).
    unfold pg_is_dirty, pagedir_paging, pagedir_is_dirty. rewrite (test_pte_ok _ _ _ _ _ _ _ _ HD Hpd) by done. by rewrite (view_word pts s f).
  - exact set_page_law.
  - exact clear_page_law.
  - exact unset_accessed_law.
Defined.

(** ** A process in a small machine

    One frame, one slot of swap, and a process whose executable has 600 bytes;
    its pages are 0x8048, 0x8049 and 0x804a. *)
Definition demo_disk : M fsys Z :=
  filesys_init (Some small_device) [123] true;;
  _ ← run_fs stack_junk (OCreate [97] 600);
  r ← run_fs stack_junk (OOpen [97]);
  mret (match r with RNum fp => fp | _ => 0 end).
Definition demo_boot : Z * fsys := match demo_disk boot_state with Ok r => r | Err _ => (0, boot_state) end.
Definition demo_fp : Z := fst demo_boot.
Definition demo_fs : fsys := snd demo_boot.

Definition demo_entry (v ofs n : Z) : SPT_entry := SPTE false (v * PGSIZE) v false 0 false ofs n (PGSIZE - n) true.
Definition demo_swap : block := Block [115] BLOCK_SWAP 8 (replicate 8 (replicate SECTOR 0)) 0 0.
Definition demo_proc : proc := Proc (demo_page 1) {[0x8048 := 1; 0x8049 := 2; 0x804a := 3]} demo_fp 0.

Definition demo_vm : vm pgstate := VM pgstate demo_pg [Frame (demo_page 3) FT_EMPTY 0] 1 0
  {[1 := demo_entry 0x8048 0 600; 2 := demo_entry 0x8049 512 88; 3 := demo_entry 0x804a 0 0]} 4 []
  [Swap 0 0] 1 demo_swap {[demo_page 3 := replicate (Z.to_nat PGSIZE) 7]} demo_fs {[1 := demo_proc]} 1.

(** The file system of the machine has the executable open. *)
Lemma demo_fs_ok :
  exists A o c, represents demo_fs A /\ opened A !! demo_fp = Some o /\ store A !! o_file o = Some c.
Proof.
  assert (wp demo_disk (fun fp s => fp <> 0 -> exists A o c, represents s A /\ opened A !! fp = Some o /\ store A !! o_file o = Some c) boot_state) as H.
  { destruct small_device_ok as (H1 & H2 & H3 & H4). unfold demo_disk. wp_step. eapply wp_mono; [by apply (format_ok small_device boot_state [123])|].
    intros [] s1 Hs1. wp_step. assert (0 ∉ [97]) as Hnin by (intros Hin; by apply list_elem_of_singleton in Hin).
    eapply wp_mono; [apply (run_fs_ok s1 empty_fs (OCreate [97] 600) stack_junk Hs1); [|done]; split; [done|]; split; [done|lia]|].
    intros r s2 (A2 & Hsp & Hs2). assert (opened A2 = ∅) as Ho2.
    { destruct r as [|[]| |]; simpl in Hsp; try done; [by destruct Hsp as (_ & _ & x & _ & ->)|by destruct Hsp as [-> _]]. }
    wp_step. eapply wp_mono; [apply (run_fs_ok s2 A2 (OOpen [97]) stack_junk Hs2); [|done]; by split; [rewrite Ho2|]|].
    intros r2 s3 (A3 & Hsp3 & Hs3). wp_step. intros Hfp. destruct r2 as [| |fp|]; try done. simpl in Hsp3.
    destruct (names A2 !! [97]) as [x|]; [|by destruct Hsp3]. destruct Hsp3 as (_ & _ & E). exists A3.
    assert (opened A3 !! fp = Some (OFile x 0 false)) as Ho by (rewrite E; apply lookup_insert_eq).
    destruct (opened_store _ _ _ _ Hs3 Ho) as [c Hc]. eexists _, c. done. }
  destruct (proj1 (wp_iff _ _ _) H) as (fp & s & E & Hs). clear H. unfold demo_fp, demo_fs, demo_boot. rewrite E. apply Hs. simpl.
  assert (match demo_disk boot_state with Ok (fp, _) => negb (fp =? 0) | Err _ => false end = true) as Hnz by (vm_compute; reflexivity).
  rewrite E in Hnz. by apply negb_true_iff, Z.eqb_neq in Hnz.
Qed.

(** The result of a run, without the state it ends in. *)
Definition outcome {A} (m : M (vm pgstate) A) (s : vm pgstate) : result A :=
  match m s with Ok (a, _) => Ok a | Err e => Err e end.

Definition touch (va : Z) : M (vm pgstate) (option unit) := page_fault 0xbffffff0 va.
Definition kernel_address (va : Z) : M (vm pgstate) Z := on_pg (pg_get_page (demo_page 1) va).
(** What the processor does when the process writes to a page. *)
Definition cpu_write (va : Z) : M (vm pgstate) unit := on_pg (pagedir_set_dirty (demo_page 1) va true).



(** ** The theorems at this machine *)
#[local] Opaque demo_boot.

Definition demo_W : gmap Z (Z -> Z) := {[demo_page 1 := fun _ => 0]}.

Lemma demo_view : dirs_view demo_pg demo_W.
Proof.
  exists demo_K, demo_U, demo_D, (demo_page 1), ∅. split; [exact demo_dirs|]. split; [split; [apply demo_unmapped|reflexivity]|].
  split; [intros v w Hv; simpl in Hv; by apply lookup_empty_Some in Hv|]. split; [by apply lookup_singleton_ne|].
  unfold demo_W, demo_D. split.
  - intros pd [f [<- _]%lookup_singleton_Some]. by rewrite lookup_singleton_eq.
  - intros pd f pts [<- <-]%lookup_singleton_Some [_ <-]%lookup_singleton_Some v. done.
Qed.

Lemma demo_frame : user_frame demo_pg (demo_page 3).
Proof. split; [|vm_compute; reflexivity]. split; [split; [vm_compute; discriminate|reflexivity]|reflexivity]. Qed.

Lemma demo_entries_ok v ofs n : 0 <= ofs -> 0 <= n <= PGSIZE -> ofs + n < 2 ^ 31 -> entry_ok (demo_entry v ofs n).
Proof. intros H1 H2 H3. split; simpl; try done; lia. Qed.

Lemma demo_vm_ok A : represents demo_fs A -> is_Some (opened A !! demo_fp) -> vm_ok demo_vm demo_W A.
Proof.
  intros Hrep Hexe. assert (forall i fr, [Frame (demo_page 3) FT_EMPTY 0].[i] = Some fr -> i = 0 /\ fr = Frame (demo_page 3) FT_EMPTY 0) as Hone.
  { intros i fr Hi. pose proof (aget_lt _ _ _ Hi) as Hr. unfold alen in Hr. simpl in Hr. assert (i = 0) as -> by lia. by injection Hi as <-. }
  split.
  - exact demo_view.
  - split; [reflexivity|simpl; lia].
  - intros i fr [_ ->]%Hone. split; [exact demo_frame|]. eexists. split; [apply lookup_singleton_eq|]. apply length_replicate.
  - intros i j fr fr' [-> _]%Hone [-> _]%Hone _. done.
  - unfold demo_W. intros pd g v [_ <-]%lookup_singleton_Some _ Hp. done.
  - unfold demo_W. intros pd g v pd' g' v' [_ <-]%lookup_singleton_Some _ _ _ Hp. done.
  - split; [simpl; rewrite lookup_singleton_eq; by eexists| |done|done]. simpl. intros tid t [_ <-]%lookup_singleton_Some. split; simpl.
    + unfold demo_W. rewrite lookup_singleton_eq. by eexists.
    + done.
    + lia.
    + intros n p Hp. assert (p = 1 \/ p = 2 \/ p = 3) as Hcase.
      { rewrite !lookup_insert_Some, lookup_singleton_Some in Hp. naive_solver. }
      split; [lia|]. destruct Hcase as [->|[->| ->]]; (eexists; split; [reflexivity|apply demo_entries_ok; change PGSIZE with 4096; lia]).
  - done.
Qed.

Lemma page_fault_isolated_witness :
  exists A c, represents demo_fs A /\
  wp (touch 0x8048123) (fun r s' => r = Some tt ->
    ram s' !! demo_page 3 = Some (file_page (replicate (Z.to_nat PGSIZE) 7) c (demo_entry 0x8048 0 600))) demo_vm.
Proof.
  destruct demo_fs_ok as (A & o & c & Hrep & Ho & Hc). exists A, c. split; [done|]. unfold touch. eapply wp_mono.
  - apply (page_fault_isolated demo_vm demo_W A demo_proc (fun _ => 0) o c 0xbffffff0 0x8048123).
    + apply demo_vm_ok; [done|]. by exists o.
    + exists 0. split; [done|]. by intros (fr & [= <-] & Hfull).
    + apply lookup_singleton_eq.
    + apply lookup_singleton_eq.
    + done.
    + done.
    + lia.
  - intros r s' Hr ->. change (SP_table demo_proc !! pg_no 0x8048123) with (Some 1) in Hr. cbv iota in Hr.
    destruct Hr as (e & k & old & He & Hold & _ & [_ (i & fr & Hi & _ & <-) Hram _]).
    injection He as <-. pose proof (aget_lt _ _ _ Hi) as Hil. change (alen (frame_table demo_vm)) with 1 in Hil. assert (i = 0) as -> by lia.
    injection Hi as <-. simpl in Hram. rewrite Hram, lookup_insert_eq.
    simpl in Hold. rewrite lookup_singleton_eq in Hold. by injection Hold as <-.
Defined.

(** ** The same machine with a page in its frame

    The page 0x8048 has been written to. *)
Definition page_word : Z := entry (demo_page 3) (Z.lor 7 PTE_D).
Definition full_mem : gmap Z (list Z) :=
  <[demo_page 1 := (filled 0).[32 <- entry (demo_page 2) 7]]>
    (<[demo_page 2 := (filled 0).[0x48 <- page_word]]> (fill_mem ∅ demo_base 4 0)).
Definition full_pg : pgstate := PgState
  (Palloc (Pool (Bitmap 3 [7]) demo_base) (Pool (Bitmap 1 [1]) (demo_page 3)) full_mem 300)
  (demo_page 1 - PHYS_BASE) ∅ (demo_page 0).
Definition full_K : list bool := [true; true; true].
Definition full_U : list bool := [true].
Definition full_D : gmap Z (gmap Z Z) := {[demo_page 1 := {[32 := demo_page 2]}]}.
Definition full_f (v : Z) : Z := if v =? 0x8048 then page_word else 0.
Definition full_W : gmap Z (Z -> Z) := {[demo_page 1 := full_f]}.

Definition full_vm : vm pgstate := VM pgstate full_pg [Frame (demo_page 3) FT_FULL 0x8048000] 1 0
  {[1 := demo_entry 0x8048 0 600; 2 := demo_entry 0x8049 512 88; 3 := demo_entry 0x804a 0 0]} 4 []
  [Swap 0 0] 1 demo_swap {[demo_page 3 := replicate (Z.to_nat PGSIZE) 7]} demo_fs {[1 := demo_proc]} 1.

Lemma full_lookup i : 0 <= i < 4 -> exists ws, full_mem !! demo_page i = Some ws /\ length ws = WORDS.
Proof.
  intros Hi. unfold full_mem. destruct (decide (i = 1)) as [->|]; [rewrite lookup_insert_eq|rewrite lookup_insert_ne by (unfold demo_page; change PGSIZE with 4096; lia)].
  { eexists. split; [done|]. by rewrite length_aset, length_filled. }
  destruct (decide (i = 2)) as [->|]; [rewrite lookup_insert_eq|rewrite lookup_insert_ne by (unfold demo_page; change PGSIZE with 4096; lia)].
  { eexists. split; [done|]. by rewrite length_aset, length_filled. }
  rewrite demo_lookup by done. eexists. split; [done|]. apply length_filled.
Qed.

Lemma full_pal : pal_rep (pal full_pg) full_K full_U.
Proof.
  split.
  - split; [|reflexivity|vm_compute; discriminate..|].
    + change full_K with (map (bit (Bitmap 3 [7])) (seqZ 0 3)).
      apply is_bitmap_intro; [lia|vm_compute; discriminate|repeat constructor; lia].
    + intros i Hi. change (alen full_K) with 3 in Hi. apply (full_lookup i). lia.
  - split; [|reflexivity|vm_compute; discriminate..|].
    + change full_U with (map (bit (Bitmap 1 [1])) (seqZ 0 1)).
      apply is_bitmap_intro; [lia|vm_compute; discriminate|repeat constructor; lia].
    + intros i Hi. change (alen full_U) with 1 in Hi. assert (i = 0) as -> by lia.
      change (base (user_pool (pal full_pg)) + PGSIZE * 0) with (demo_page 3). by apply full_lookup.
  - vm_compute. discriminate.
Qed.

Lemma demo_kpage i : 0 <= i < 4 -> kpage_ok (demo_page i).
Proof.
  intros Hi. unfold demo_page, demo_base, kpage_ok. change PGSIZE with 4096. change PHYS_BASE with 0xc0000000.
  split; [lia|]. replace (0xc0000000 + 2 ^ 20 + 4096 * i) with ((0xc0100 + i) * 4096) by lia. apply Z.mod_mul. lia.
Qed.

Lemma page_word_range : 0 <= page_word < 2 ^ 30.
Proof. by vm_compute. Qed.

Lemma filled_lookup i : 0 <= i < 1024 -> (filled 0).[i] = Some 0.
Proof. intros Hi. apply aget_Some. split; [lia|]. apply lookup_replicate_2. unfold WORDS. lia. Qed.

Lemma full_dirs : dirs_ok full_pg full_K full_U full_D.
Proof.
  assert (alen (filled 0) = 1024) as Hfl by (unfold alen; by rewrite length_filled).
  unfold full_D. split; [apply full_pal| |].
  - intros pd pts [<- <-]%lookup_singleton_Some. split.
    + by apply demo_kpage.
    + intros q [->|[i [_ <-]%lookup_singleton_Some]]; [by exists false, 1|by exists false, 2].
    + eexists. split; [apply lookup_insert_eq|]. split; [by rewrite length_aset, length_filled|]. intros i Hi. unfold USER_PDES in Hi.
      destruct (decide (i = 32)) as [->|Hne].
      * rewrite aget_aset_eq by lia. by rewrite lookup_singleton_eq.
      * rewrite aget_aset_ne, lookup_singleton_ne by done. apply filled_lookup. lia.
    + intros i pt [<- <-]%lookup_singleton_Some. split; [done|]. split; [by apply demo_kpage|]. split; [done|].
      eexists. split; [change (mem (pal full_pg)) with full_mem; unfold full_mem; rewrite lookup_insert_ne by done; apply lookup_insert_eq|]. split; [by rewrite length_aset, length_filled|].
      apply Forall_aset; [|exact page_word_range]. apply Forall_replicate. done.
    + intros i j pt [<- _]%lookup_singleton_Some [<- _]%lookup_singleton_Some. done.
  - intros pd1 pts1 pd2 pts2 q [<- <-]%lookup_singleton_Some [<- <-]%lookup_singleton_Some. done.
Qed.

Lemma full_words v : 0 <= v < max_page -> full_f v = as_of full_pg {[32 := demo_page 2]} v.
Proof.
  intros Hv. unfold as_of, full_f. destruct (Z.eqb_spec v 0x8048) as [->|Hne]; [by vm_compute|].
  destruct (decide (v / 1024 = 32)) as [E|E]; [rewrite E, lookup_singleton_eq|by rewrite lookup_singleton_ne].
  change (mem (pal full_pg)) with full_mem. unfold full_mem. rewrite lookup_insert_ne by done. rewrite lookup_insert_eq.
  pose proof (Z.div_mod v 1024 ltac:(lia)). pose proof (Z.mod_pos_bound v 1024 ltac:(lia)).
  rewrite aget_aset_ne by lia. by rewrite filled_lookup.
Qed.

Lemma full_view : dirs_view full_pg full_W.
Proof.
  exists full_K, full_U, full_D, (demo_page 1), {[32 := demo_page 2]}. split; [exact full_dirs|]. split; [split; [apply lookup_singleton_eq|reflexivity]|].
  split; [intros v w Hv; simpl in Hv; by apply lookup_empty_Some in Hv|]. split; [by apply lookup_singleton_ne|].
  unfold full_W, full_D. split.
  - intros pd [f [<- _]%lookup_singleton_Some]. by rewrite lookup_singleton_eq.
  - intros pd f pts [<- <-]%lookup_singleton_Some [_ <-]%lookup_singleton_Some v. split; [|apply full_words].
    unfold full_f. destruct (v =? 0x8048); [pose proof page_word_range|]; lia.
Qed.

Lemma full_frames i fr : (frame_table full_vm).[i] = Some fr -> i = 0 /\ fr = Frame (demo_page 3) FT_FULL 0x8048000.
Proof.
  intros Hi. pose proof (aget_lt _ _ _ Hi) as Hr. unfold alen in Hr. simpl in Hr. assert (i = 0) as -> by lia. by injection Hi as <-.
Qed.

Lemma full_evictable : evictable full_vm full_W demo_proc full_f.
Proof.
  split; [apply lookup_singleton_eq|exact full_view|apply lookup_singleton_eq|split; [reflexivity|simpl; lia]|].
  intros i fr [_ ->]%full_frames. by vm_compute.
Qed.

Lemma full_ready : evict_ready full_vm full_W demo_proc full_f.
Proof.
  split; [exact full_evictable| |].
  - split; [|reflexivity|by vm_compute..]. split; [reflexivity|repeat constructor|done].
  - intros i fr [_ ->]%full_frames. split; [by vm_compute|]. split; [by vm_compute|]. split; [split; [by apply demo_kpage|by vm_compute]|].
    eexists _, 1, _. split; [apply lookup_singleton_eq|]. split; [apply length_replicate|]. split; [reflexivity|]. split; [done|reflexivity].
Qed.

Lemma clock_second_chance_witness :
  wp (clock 2) (fun _ s' => bump_ptr s' = 0) full_vm.
Proof.
  eapply wp_mono; [apply (clock_second_chance full_vm full_W demo_proc full_f full_evictable)|].
  intros [] s' (k & f' & _ & -> & _). unfold turned. simpl. apply Z.mod_1_r.
Defined.

Lemma evicted_frame_reused_witness :
  wp (r1 ← get_user_page 0x8049000;
      match r1 with
      | None => mret None
      | Some k1 => r2 ← get_user_page 0x804a000; mret (Some (k1, r2))
      end) (fun r _ => match r with Some (k1, r2) => r2 = Some k1 | None => True end) full_vm.
Proof.
  apply (evicted_frame_reused full_vm full_W demo_proc full_f 0x8049000 0x804a000 full_ready).
  intros i Hi. change (alen (frame_table full_vm)) with 1 in Hi. assert (i = 0) as -> by lia. by eexists.
Defined.

Lemma page_survives_eviction_witness :
  wp (evict_and_touch (replicate (Z.to_nat PGSIZE) 255) 0xbffffff0) (fun r s' =>
    match r with
    | Some va => exists page f', resident_page full_vm full_W demo_proc full_f va page /\
                   resident_page s' (<[demo_page 1 := f']> full_W) demo_proc f' va page
    | None => (forall j se, (swap_table full_vm).[j] = Some se -> sw_tid se <> 0) \/ no_table_page full_pg
    end) full_vm.
Proof.
  apply (page_survives_eviction full_vm full_W demo_proc full_f (replicate (Z.to_nat PGSIZE) 255) 0xbffffff0 full_ready).
  - done.
  - apply length_replicate.
  - by intros i fr [_ ->]%full_frames.
  - intros i fr p e [_ ->]%full_frames _ _. by vm_compute.
Defined.

Lemma hasher_nonzero_witness :
  hasher (demo_entry 0x8048 0 600) full_vm = Ok (hash_int 0x8048, full_vm) /\ 0 < hash_int 0x8048 < 2 ^ 32.
Proof. apply (hasher_nonzero full_vm (demo_entry 0x8048 0 600)). by vm_compute. Defined.
