(* ===== verification/Elf.v ===== *)
(** * Loading executables (src/userprog/process.c)

    [load_program] is the part of [load] that reads an ELF executable: it opens
    the file, checks its header, and goes through the program headers, whose
    segments [load_segment] enters into the supplemental page table, page by
    page; the page fault handler of Vm reads the pages when they are touched.
    The state is that of Vm.  [None] is a call of [exit] by
    [vaddr_to_page_num].  The page directory, the stack (Args) and the record of
    the child that the rest of [load] deals with are not part of this file.

    Theorems: whatever the file holds, loading ends without a failed assertion;
    and a segment that is loaded is in memory what its program header says. *)

From S2P Require Import Prelude Khash Vaddr Palloc Pagedir Block Inode FreeMap Filesys FsDir FsSpec FsMount FsTheorems Vm VmSpec VmTheorems VmPaging.

(** ** Headers *)
Record Elf32_Ehdr := Ehdr {
  e_ident : list Z;
  e_type : Z;
  e_machine : Z;
  e_version : Z;
  e_entry : Z;
  e_phoff : Z;
  e_shoff : Z;
  e_flags : Z;
  e_ehsize : Z;
  e_phentsize : Z;
  e_phnum : Z;
  e_shentsize : Z;
  e_shnum : Z;
  e_shstrndx : Z
}.

Record Elf32_Phdr := Phdr {
  p_type : Z;
  p_offset : Z;
  p_vaddr : Z;
  p_paddr : Z;
  p_filesz : Z;
  p_memsz : Z;
  p_flags : Z;
  p_align : Z
}.

Definition EHDR_SIZE : Z := 52.
Definition PHDR_SIZE : Z := 32.

(** The structures in the bytes that were read. *)
Definition ehdr_of (l : list Z) : Elf32_Ehdr :=
  Ehdr (map (byte_at l) (seq 0 16)) (half_at l 16) (half_at l 18) (word_at l 20) (word_at l 24) (word_at l 28) (word_at l 32) (word_at l 36)
       (half_at l 40) (half_at l 42) (half_at l 44) (half_at l 46) (half_at l 48) (half_at l 50).
Definition phdr_of (l : list Z) : Elf32_Phdr :=
  Phdr (word_at l 0) (word_at l 4) (word_at l 8) (word_at l 12) (word_at l 16) (word_at l 20) (word_at l 24) (word_at l 28).

Abbreviation PT_NULL := 0.
Abbreviation PT_LOAD := 1.
Abbreviation PT_DYNAMIC := 2.
Abbreviation PT_INTERP := 3.
Abbreviation PT_NOTE := 4.
Abbreviation PT_SHLIB := 5.
Abbreviation PT_PHDR := 6.
Abbreviation PT_STACK := 0x6474e551.
Definition PF_W : Z := 2.

(** The test of the header, with the first 7 bytes of [e_ident]. *)
Definition valid_header (h : Elf32_Ehdr) : bool :=
  bool_decide (take 7 (e_ident h) = [127; 69; 76; 70; 1; 1; 1]) && (e_type h =? 2) && (e_machine h =? 3) && (e_version h =? 1) &&
  (e_phentsize h =? PHDR_SIZE) && (e_phnum h <=? 1024).

Section elf.
Context {P : Type} `{!Paging P}.
Abbreviation V := (vm P).

Definition validate_segment (h : Elf32_Phdr) (file : Z) : M V bool :=
  if negb (Z.land (p_offset h) PGMASK =? Z.land (p_vaddr h) PGMASK) then mret false else
  n ← on_fs (file_length file);
  mret (negb (u32 n <? p_offset h) && negb (p_memsz h <? p_filesz h) && negb (p_memsz h =? 0) &&
        is_user_vaddr (p_vaddr h) && is_user_vaddr (u32 (p_vaddr h + p_memsz h)) &&
        negb (u32 (p_vaddr h + p_memsz h) <? p_vaddr h) && negb (p_vaddr h <? PGSIZE)).

(** One page of a segment. *)
Definition segment_turn (w : bool) (st : Z * Z * Z * Z) : M V (Z * Z * Z * Z + option bool) :=
  let '(ofs, upage, read_bytes, zero_bytes) := st in
  if (0 <? read_bytes) || (0 <? zero_bytes) then
    let page_read_bytes := if read_bytes <? PGSIZE then read_bytes else PGSIZE in
    let page_zero_bytes := PGSIZE - page_read_bytes in
    r ← create_SPT_entry upage false ofs page_read_bytes page_zero_bytes w;
    match r with
    | None => mret (inr None)
    | Some _ => mret (inl (s32 (ofs + PGSIZE), u32 (upage + PGSIZE), u32 (read_bytes - page_read_bytes), u32 (zero_bytes - page_zero_bytes)))
    end
  else mret (inr (Some true)).

Definition load_segment (ofs upage read_bytes zero_bytes : Z) (w : bool) : M V (option bool) :=
  assert (u32 (read_bytes + zero_bytes) mod PGSIZE =? 0);;
  assert (pg_ofs upage =? 0);;
  assert (Z.rem ofs PGSIZE =? 0);;
  loop (S (Z.to_nat ((read_bytes + zero_bytes) / PGSIZE))) (segment_turn w) (ofs, upage, read_bytes, zero_bytes).

(** [READ_BYTES] and [ZERO_BYTES] of a segment. *)
Definition segment_sizes (h : Elf32_Phdr) : Z * Z :=
  let page_offset := Z.land (p_vaddr h) PGMASK in
  if 0 <? p_filesz h then
    let read_bytes := u32 (page_offset + p_filesz h) in
    (read_bytes, u32 (ROUND_UP (u32 (page_offset + p_memsz h)) PGSIZE - read_bytes))
  else (0, ROUND_UP (u32 (page_offset + p_memsz h)) PGSIZE).

Definition load_phdr (h : Elf32_Phdr) (file : Z) : M V (option bool) :=
  if (p_type h =? PT_DYNAMIC) || (p_type h =? PT_INTERP) || (p_type h =? PT_SHLIB) then mret (Some false)
  else if p_type h =? PT_LOAD then
    ok ← validate_segment h file;
    if (ok : bool) then
      let not_pgmask := u32 (Z.lnot PGMASK) in
      let sizes := segment_sizes h in
      load_segment (s32 (Z.land (p_offset h) not_pgmask)) (Z.land (p_vaddr h) not_pgmask) (fst sizes) (snd sizes)
        (negb (Z.land (p_flags h) PF_W =? 0))
    else mret (Some false)
  else mret (Some true).

(** One turn of the loop over the program headers; [junk] is what the structure
    on the stack held. *)
Definition phdr_turn (junk : list Z) (phnum file : Z) (st : Z * Z) : M V (Z * Z + option bool) :=
  let '(i, file_ofs) := st in
  if i <? phnum then
    n ← on_fs (file_length file);
    if (file_ofs <? 0) || (n <? file_ofs) then mret (inr (Some false)) else
    on_fs (file_seek file file_ofs);;
    r ← on_fs (file_read file junk PHDR_SIZE);
    if negb (fst r =? PHDR_SIZE) then mret (inr (Some false)) else
    ok ← load_phdr (phdr_of (snd r)) file;
    match ok with
    | Some true => mret (inl (i + 1, s32 (file_ofs + PHDR_SIZE)))
    | r => mret (inr r)
    end
  else mret (inr (Some true)).

Definition set_executable (fp : Z) : M V unit :=
  s ← get;
  t ← current;
  put (set_procs (<[running s := Proc (pagedir t) (SP_table t) fp (esp t)]> (procs s)) s).

(** The result is whether the segments were entered, and the entry point. *)
Definition load_program (name ejunk pjunk sjunk : list Z) : M V (option (bool * Z)) :=
  file ← on_fs (filesys_open name sjunk);
  set_executable file;;
  if file =? 0 then mret (Some (false, 0)) else
  on_fs (file_deny_write file);;
  r ← on_fs (file_read file ejunk EHDR_SIZE);
  let h := ehdr_of (snd r) in
  if negb (fst r =? EHDR_SIZE) || negb (valid_header h) then mret (Some (false, 0)) else
  ok ← loop (S (Z.to_nat (e_phnum h))) (phdr_turn pjunk (e_phnum h) file) (0, s32 (e_phoff h));
  mret (match ok with Some b => Some (b, e_entry h) | None => None end).

(** ** Segments *)
(** The entry for page [j] of a segment of which [rb] bytes are in the file. *)
Definition page_entry (ofs upage rb : Z) (w : bool) (j : Z) : SPT_entry :=
  let n := Z.max 0 (Z.min PGSIZE (rb - j * PGSIZE)) in
  SPTE false (upage + j * PGSIZE) (pg_no upage + j) false 0 false (s32 (ofs + j * PGSIZE)) n (PGSIZE - n) w.

(** What loading leaves alone. *)
Record kept_rest (s s' : V) : Prop := {
  kr_pgs : pgs s' = pgs s;
  kr_frames : frame_table s' = frame_table s;
  kr_max : max_frame s' = max_frame s;
  kr_bump : bump_ptr s' = bump_ptr s;
  kr_swap : swap_table s' = swap_table s;
  kr_entries : entries s' = entries s;
  kr_block : swap_block s' = swap_block s;
  kr_ram : ram s' = ram s;
  kr_running : running s' = running s
}.

#[local] Instance kept_rest_preorder : PreOrder kept_rest.
Proof. split; [by split|]. intros s1 s2 s3 [] []. split; congruence. Qed.

(** [k] pages from [upage] on have entries: those they had, or new ones. *)
Record pages_added (s s' : V) (t t' : proc) (ofs upage rb : Z) (w : bool) (k : Z) : Prop := {
  pa_rest : kept_rest s s';
  pa_fs : fsy s' = fsy s;
  pa_procs : procs s' = <[running s := t']> (procs s);
  pa_next : next_spte s' = next_spte s + k;
  pa_sane : spt_sane s' t';
  pa_same : pagedir t' = pagedir t /\ executable t' = executable t /\ esp t' = esp t;
  pa_old : forall n p, SP_table t !! n = Some p -> SP_table t' !! n = Some p;
  pa_kept : forall p, p < next_spte s -> sptes s' !! p = sptes s !! p;
  pa_new : forall j, 0 <= j < k -> SP_table t !! (pg_no upage + j) = None -> exists p,
    SP_table t' !! (pg_no upage + j) = Some p /\ sptes s' !! p = Some (page_entry ofs upage rb w j);
  pa_only : forall n, (forall j, 0 <= j < k -> n <> pg_no upage + j) -> SP_table t' !! n = SP_table t !! n
}.

Lemma pages_added_0 s t ofs upage rb w : spt_sane s t -> pages_added s s t t ofs upage rb w 0.
Proof.
  intros H. pose proof H as [Ht Hn Hc He]. split; try done.
  - by rewrite insert_id.
  - lia.
  - intros j Hj. lia.
Qed.

Lemma page_no_add upage j : user_page upage -> 0 <= j -> upage + j * PGSIZE < PHYS_BASE -> pg_no (upage + j * PGSIZE) = pg_no upage + j.
Proof. intros [H _] Hj Hb. rewrite !pg_no_div. by apply Z.div_add. Qed.

(** The process after a new entry. *)
Lemma with_entry_proc (s : V) t e :
  procs s !! running s = Some t -> exists t2, procs (with_entry s t e) = <[running s := t2]> (procs s) /\
    (pagedir t2 = pagedir t /\ executable t2 = executable t /\ esp t2 = esp t) /\
    forall n, SP_table t2 !! n = match SP_table t !! n with Some q => Some q
                                 | None => if decide (n = page_number e) then Some (next_spte s) else None end.
Proof.
  intros Ht. unfold with_entry. cbn [procs set_procs]. destruct (SP_table t !! page_number e) as [q|] eqn:Eq.
  - exists t. rewrite insert_id by done. split_and!; try done. intros n. destruct (SP_table t !! n) eqn:En; [done|].
    rewrite decide_False; [done|]. intros ->. congruence.
  - eexists. split; [reflexivity|]. split; [done|]. intros n. cbn [SP_table].
    destruct (decide (n = page_number e)) as [->|Hne]; [by rewrite lookup_insert_eq, Eq|].
    rewrite lookup_insert_ne by done. by destruct (SP_table t !! n).
Qed.

(** One more page. *)
Lemma pages_added_S s s' t t' ofs upage rb w k :
  pages_added s s' t t' ofs upage rb w k -> 0 <= k ->
  exists t2, pages_added s (with_entry s' t' (page_entry ofs upage rb w k)) t t2 ofs upage rb w (k + 1).
Proof.
  intros [Hrest Hfs Eprocs Enext Hs' (Ep & Ee & Esp) Hold Hkept Hnew Honly] Hk. pose proof Hs' as [Ht' Hn' Hc' He'].
  assert (exists e, e = page_entry ofs upage rb w k) as (e & Ee0) by eauto. rewrite <- Ee0.
  assert (page_number e = pg_no upage + k) as En by (by rewrite Ee0).
  pose proof (kr_running _ _ Hrest) as Erun.
  destruct (with_entry_proc s' t' e Ht') as (t2 & Eprocs2 & (E1 & E2 & E3) & Htab).
  rewrite Erun, Eprocs, insert_insert_eq in Eprocs2. exists t2. split.
  - etrans; [exact Hrest|]. by split.
  - done.
  - done.
  - simpl. lia.
  - split; [rewrite Eprocs2; simpl; rewrite Erun; apply lookup_insert_eq|simpl; lia|done|].
    intros n q. rewrite Htab. simpl. destruct (SP_table t' !! n) as [q'|] eqn:Eq.
    + intros [= <-]. pose proof (He' _ _ Eq). lia.
    + case_decide; [|done]. intros [= <-]. lia.
  - split_and!; congruence.
  - intros n p Hp. rewrite Htab. by rewrite (Hold _ _ Hp).
  - intros p Hp. simpl. rewrite lookup_insert_ne by lia. by apply Hkept.
  - intros j Hj Hnone. destruct (decide (j = k)) as [->|Hne].
    + exists (next_spte s'). rewrite Htab, (Honly (pg_no upage + k)) by (intros i Hi; lia). rewrite Hnone, decide_True by done.
      split; [done|]. rewrite <- Ee0. apply lookup_insert_eq.
    + destruct (Hnew j) as (p & H1 & H2); [lia|done|]. exists p. rewrite Htab, H1. split; [done|]. simpl.
      rewrite lookup_insert_ne; [done|]. pose proof (He' _ _ H1). lia.
  - intros n Hn. rewrite Htab, Honly by (intros j Hj; apply Hn; lia). rewrite decide_False by (rewrite En; apply (Hn k); lia). by destruct (SP_table t !! n).
Qed.

Lemma swrap_negative z : 2 ^ 31 <= z < 2 ^ 32 -> s32 z < 0.
Proof.
  intros Hz. unfold swrap. rewrite <- (Z.mod_unique (z + 2 ^ (32 - 1)) (2 ^ 32) 1 (z + 2 ^ (32 - 1) - 2 ^ 32)) by lia. lia.
Qed.

(** What a segment has to be for [load_segment]. *)
Record segment_ok (ofs upage rb zb : Z) : Prop := {
  sg_ofs : 0 <= ofs < 2 ^ 31;
  sg_align : ofs mod PGSIZE = 0;
  sg_upage : user_page upage;
  sg_read : 0 <= rb;
  sg_zero : 0 <= zb;
  sg_pages : (rb + zb) mod PGSIZE = 0;
  sg_end : upage + (rb + zb) <= PHYS_BASE
}.

Lemma load_segment_ok s t ofs upage rb zb w :
  spt_sane s t -> segment_ok ofs upage rb zb ->
  wp (load_segment ofs upage rb zb w) (fun r s' => r = Some true /\
    exists t', pages_added s s' t t' ofs upage rb w ((rb + zb) / PGSIZE)) s.
Proof.
  intros Hs [Ho Ha Hu Hr Hz Hp He]. pose proof Hu as [Hur Hual]. set (N := (rb + zb) / PGSIZE).
  assert (rb + zb = N * PGSIZE) as EN by (unfold N; rewrite (Z.div_mod (rb + zb) PGSIZE) at 1 by done; lia).
  assert (0 <= N) as HN by (unfold N; apply Z.div_pos; [lia|done]). assert (PGSIZE = 4096) as Epg by done.
  assert (0 <= rb + zb < 2 ^ 32) as Hsum by (change PHYS_BASE with 0xc0000000 in *; lia).
  unfold load_segment. do 2 wp_step. { rewrite wrap_small by done. by apply Z.eqb_eq. }
  do 2 wp_step. { rewrite pg_ofs_mod. by apply Z.eqb_eq. }
  do 2 wp_step. { rewrite Z.rem_mod_nonneg by (done || lia). by apply Z.eqb_eq. }
  fold N. apply (wp_loop (fun n st s' => exists k t', 0 <= k <= N /\ n = Z.to_nat (N - k) /\ pages_added s s' t t' ofs upage rb w k /\
    st = (s32 (ofs + k * PGSIZE), upage + k * PGSIZE, Z.max 0 (rb - k * PGSIZE), (rb + zb - k * PGSIZE) - Z.max 0 (rb - k * PGSIZE)))) with (n := Z.to_nat N); [| |lia].
  2:{ exists 0, t. split; [lia|]. split; [f_equal; lia|]. split; [by apply pages_added_0|].
      rewrite swrap_small by lia. repeat f_equal; lia. }
  intros n st s' (k & t' & Hk & -> & Hadd & ->). unfold segment_turn.
  set (rk := Z.max 0 (rb - k * PGSIZE)). set (zk := rb + zb - k * PGSIZE - rk).
  destruct (decide (k = N)) as [->|HkN].
  { rewrite (proj2 (Z.ltb_ge 0 rk)), (proj2 (Z.ltb_ge 0 zk)) by lia. cbn [orb]. wp_step. eauto. }
  assert (0 < rk \/ 0 < zk) as Hpos by (unfold zk; lia).
  replace ((0 <? rk) || (0 <? zk)) with true by (symmetry; apply orb_true_iff; rewrite !Z.ltb_lt; done). cbv zeta.
  replace (if rk <? PGSIZE then rk else PGSIZE) with (Z.max 0 (Z.min PGSIZE (rb - k * PGSIZE))) by (unfold rk; destruct (Z.ltb_spec (Z.max 0 (rb - k * PGSIZE)) PGSIZE); lia).
  assert (upage + k * PGSIZE < PHYS_BASE) as Hub by lia. wp_step.
  eapply wp_eq; [apply (create_SPT_entry_ok s' t'); [apply Hadd|lia]|]. cbv iota. wp_step. rewrite page_no_add by (done || lia).
  destruct (pages_added_S _ _ _ _ _ _ _ _ _ Hadd ltac:(lia)) as [t2 Hadd2].
  eexists. split; [|exists (k + 1), t2; split; [lia|]; split; [reflexivity|]; split; [exact Hadd2|]]; [lia|].
  rewrite swrap_add by lia. rewrite !wrap_small by (unfold rk, zk; change PHYS_BASE with 0xc0000000 in *; lia).
  f_equal; [f_equal; [f_equal; [f_equal|]|]|]; unfold rk, zk; lia.
Qed.

(** ** Program headers *)
Record phdr_words (h : Elf32_Phdr) : Prop := {
  pw_offset : 0 <= p_offset h < 2 ^ 32;
  pw_vaddr : 0 <= p_vaddr h < 2 ^ 32;
  pw_filesz : 0 <= p_filesz h < 2 ^ 32;
  pw_memsz : 0 <= p_memsz h < 2 ^ 32
}.

Lemma phdr_of_words l : phdr_words (phdr_of l).
Proof. split; apply word_at_range. Qed.

(** A segment that [validate_segment] accepts, in a file of [n] bytes. *)
Record valid_segment (h : Elf32_Phdr) (n : Z) : Prop := {
  vs_offset : p_offset h mod PGSIZE = p_vaddr h mod PGSIZE;
  vs_file : p_offset h <= n;
  vs_sizes : p_filesz h <= p_memsz h;
  vs_memsz : 0 < p_memsz h;
  vs_end : p_vaddr h + p_memsz h < PHYS_BASE;
  vs_page0 : PGSIZE <= p_vaddr h
}.

Lemma validate_segment_ok s A h fp o c :
  phdr_words h -> represents (fsy s) A -> opened A !! fp = Some o -> store A !! o_file o = Some c -> alen c < 2 ^ 31 ->
  wp (validate_segment h fp) (fun b s' => s' = s /\ (b = true <-> valid_segment h (alen c))) s.
Proof.
  intros [W1 W2 W3 W4] Hrep Ho Hc Hl. unfold validate_segment. change (Z.land (p_offset h) PGMASK) with (pg_ofs (p_offset h)).
  change (Z.land (p_vaddr h) PGMASK) with (pg_ofs (p_vaddr h)). rewrite !pg_ofs_mod.
  destruct (Z.eqb_spec (p_offset h mod PGSIZE) (p_vaddr h mod PGSIZE)) as [E|E]; cbn [negb].
  2:{ wp_step. split; [done|]. split; [done|]. by intros []. }
  wp_step. apply on_fs_wp. eapply wp_eq; [by eapply file_length_ok|]. wp_step. split; [by destruct s|].
  pose proof (alen_nonneg c). rewrite (wrap_small 32 (alen c)) by lia. unfold is_user_vaddr.
  rewrite !andb_true_iff, !negb_true_iff, !Z.ltb_ge, !Z.ltb_lt, Z.eqb_neq.
  destruct (decide (p_vaddr h + p_memsz h < 2 ^ 32)) as [Hs|Hs].
  - rewrite wrap_small by lia. split; [intros; split; (done || lia)|]. intros []. lia.
  - split; [|intros []; unfold PHYS_BASE in *; lia]. intros (((((_ & _) & _) & _) & Hw) & _). exfalso.
    revert Hw. unfold wrap. rewrite <- (Z.mod_unique (p_vaddr h + p_memsz h) (2 ^ 32) 1 (p_vaddr h + p_memsz h - 2 ^ 32)) by lia. lia.
Qed.

Lemma round_up_page x :
  0 <= x -> x + PGSIZE <= 2 ^ 32 -> exists k, ROUND_UP x PGSIZE = k * PGSIZE /\ x <= k * PGSIZE < x + PGSIZE.
Proof.
  intros Hx Hb. exists (DIV_ROUND_UP x PGSIZE). pose proof (DIV_ROUND_UP_bounds x PGSIZE Hx ltac:(done) Hb). split; [|lia].
  change (ROUND_UP x PGSIZE) with (u32 (DIV_ROUND_UP x PGSIZE * PGSIZE)). apply wrap_small. lia.
Qed.

(** The bytes of the file that [load_segment] gets to read, and the pages. *)
Definition read_size (h : Elf32_Phdr) : Z := if 0 <? p_filesz h then p_vaddr h mod PGSIZE + p_filesz h else 0.

Lemma segment_sizes_ok h n :
  phdr_words h -> valid_segment h n -> exists k,
  segment_sizes h = (read_size h, k * PGSIZE - read_size h) /\ 0 <= read_size h <= p_vaddr h mod PGSIZE + p_memsz h /\
  p_vaddr h mod PGSIZE + p_memsz h <= k * PGSIZE < p_vaddr h mod PGSIZE + p_memsz h + PGSIZE.
Proof.
  intros [W1 W2 W3 W4] [V1 V2 V3 V4 V5 V6]. unfold segment_sizes, read_size. change (Z.land (p_vaddr h) PGMASK) with (pg_ofs (p_vaddr h)).
  rewrite pg_ofs_mod. set (po := p_vaddr h mod PGSIZE). assert (PGSIZE = 4096) as Epg by done. assert (PHYS_BASE = 0xc0000000) as Eb by done.
  assert (0 <= po < 4096) as Hpo by (unfold po; rewrite Epg; apply Z.mod_pos_bound; lia).
  destruct (round_up_page (po + p_memsz h)) as (k & Ek & Hk); [lia..|]. exists k.
  cbv zeta. rewrite (wrap_small 32 (po + p_memsz h)), Ek by lia. destruct (Z.ltb_spec 0 (p_filesz h)).
  - rewrite (wrap_small 32 (po + p_filesz h)), wrap_small by lia. split; [done|lia].
  - split; [f_equal; lia|lia].
Qed.

Lemma valid_segment_ok h n :
  phdr_words h -> valid_segment h n -> n < 2 ^ 31 ->
  segment_ok (s32 (pg_round_down (p_offset h))) (pg_round_down (p_vaddr h)) (fst (segment_sizes h)) (snd (segment_sizes h)).
Proof.
  intros W V Hn. destruct (segment_sizes_ok h n W V) as (k & -> & Hr & Hk). destruct W as [W1 W2 W3 W4], V as [V1 V2 V3 V4 V5 V6].
  assert (PGSIZE = 4096) as Epg by done. assert (PHYS_BASE = 786432 * 4096) as Eb by done.
  rewrite !pg_round_down_div by done. rewrite Epg in *.
  pose proof (Z.div_mod (p_offset h) 4096 ltac:(lia)). pose proof (Z.mod_pos_bound (p_offset h) 4096 ltac:(lia)).
  pose proof (Z.div_mod (p_vaddr h) 4096 ltac:(lia)). pose proof (Z.mod_pos_bound (p_vaddr h) 4096 ltac:(lia)).
  rewrite swrap_small by lia. cbn [fst snd]. split; try lia.
  - apply Z.mod_mul. lia.
  - split; [rewrite Eb in *; lia|]. rewrite Epg. apply Z.mod_mul. lia.
  - replace (read_size h + (k * 4096 - read_size h)) with (k * 4096) by lia. rewrite Epg. apply Z.mod_mul. lia.
Qed.

Definition loadable (h : Elf32_Phdr) (n : Z) : Prop := p_type h = PT_LOAD /\ valid_segment h n.

(** The pages of a loadable segment have entries; any other header changes
    nothing. *)
Definition segment_added (s s' : V) (t t' : proc) (h : Elf32_Phdr) : Prop :=
  pages_added s s' t t' (s32 (pg_round_down (p_offset h))) (pg_round_down (p_vaddr h)) (read_size h)
    (negb (Z.land (p_flags h) PF_W =? 0)) ((fst (segment_sizes h) + snd (segment_sizes h)) / PGSIZE).

Lemma load_phdr_ok s t A h fp o c :
  spt_sane s t -> phdr_words h -> represents (fsy s) A -> opened A !! fp = Some o -> store A !! o_file o = Some c -> alen c < 2 ^ 31 ->
  wp (load_phdr h fp) (fun r s' =>
    (loadable h (alen c) /\ r = Some true /\ exists t', segment_added s s' t t' h) \/
    (~ loadable h (alen c) /\ s' = s /\ (r = Some true /\ p_type h <> PT_LOAD \/ r = Some false))) s.
Proof.
  intros Hs W Hrep Ho Hc Hl. unfold load_phdr.
  destruct (Z.eqb_spec (p_type h) PT_LOAD) as [El|El].
  2:{ destruct ((p_type h =? PT_DYNAMIC) || _ || _); wp_step; right; (split; [by intros []|eauto]). }
  rewrite El. cbn [Z.eqb Pos.eqb orb]. wp_step.
  eapply wp_mono; [by apply (validate_segment_ok s A h fp o c)|]. intros b s1 [-> Hb]. destruct b.
  - assert (valid_segment h (alen c)) as Hv by (by apply Hb).
    eapply wp_mono; [apply (load_segment_ok s t); [done|by apply (valid_segment_ok h (alen c))]|].
    intros r s' [-> [t' Ht']]. left. split; [done|]. split; [done|]. exists t'. unfold segment_added.
    destruct (segment_sizes_ok h (alen c) W Hv) as (k & E & _). rewrite E in Ht' |- *. exact Ht'.
  - wp_step. right. split; [|by eauto]. intros [_ Hv]. apply Hb in Hv. done.
Qed.

(** The pages are pages of the process, and not the first one. *)
Lemma segment_pages h n j :
  phdr_words h -> valid_segment h n -> 0 <= j < (fst (segment_sizes h) + snd (segment_sizes h)) / PGSIZE ->
  1 <= pg_no (pg_round_down (p_vaddr h)) + j < max_page.
Proof.
  intros W V. destruct (segment_sizes_ok h n W V) as (k & -> & Hr & Hk). destruct W as [W1 W2 W3 W4], V as [V1 V2 V3 V4 V5 V6]. cbn [fst snd].
  replace (read_size h + (k * PGSIZE - read_size h)) with (k * PGSIZE) by lia. rewrite Z.div_mul by done. intros Hj.
  assert (PGSIZE = 4096) as Epg by done. assert (PHYS_BASE = 786432 * 4096) as Eb by done. assert (max_page = 786432) as -> by done.
  rewrite (proj2 (round_down_page (p_vaddr h) ltac:(lia))), pg_no_div. rewrite Epg in *.
  pose proof (Z.div_mod (p_vaddr h) 4096 ltac:(lia)). pose proof (Z.mod_pos_bound (p_vaddr h) 4096 ltac:(lia)). rewrite Eb in *. lia.
Qed.

(** An entry that a program header asks for. *)
Record program_entry (n : Z) (e : SPT_entry) : Prop := {
  pe_vaddr : sp_vaddr e = n * PGSIZE;
  pe_number : page_number e = n;
  pe_range : 1 <= n < max_page;
  pe_absent : resident_bit e = false /\ dirty_bit e = false /\ is_stack_page e = false;
  pe_read : 0 <= page_read_bytes e;
  pe_zero : 0 <= page_zero_bytes e;
  pe_page : page_read_bytes e + page_zero_bytes e = PGSIZE
}.

(** What loading has done so far to the process [t]: entries were added. *)
Record loaded (s s' : V) (t t' : proc) : Prop := {
  ld_rest : kept_rest s s';
  ld_procs : procs s' = <[running s := t']> (procs s);
  ld_sane : spt_sane s' t';
  ld_same : pagedir t' = pagedir t /\ esp t' = esp t;
  ld_next : next_spte s <= next_spte s';
  ld_kept : forall p, p < next_spte s -> sptes s' !! p = sptes s !! p;
  ld_old : forall n p, SP_table t !! n = Some p -> SP_table t' !! n = Some p;
  ld_new : forall n p, SP_table t' !! n = Some p -> SP_table t !! n = None -> exists e, sptes s' !! p = Some e /\ program_entry n e
}.

Lemma loaded_fs s s' t t' fs : loaded s s' t t' -> loaded s (set_fsy fs s') t t'.
Proof. intros [[] ? [] ?]. split; try done; by split. Qed.

Lemma page_entry_program h n j :
  phdr_words h -> valid_segment h n -> 0 <= j < (fst (segment_sizes h) + snd (segment_sizes h)) / PGSIZE ->
  program_entry (pg_no (pg_round_down (p_vaddr h)) + j) (page_entry (s32 (pg_round_down (p_offset h))) (pg_round_down (p_vaddr h)) (read_size h)
    (negb (Z.land (p_flags h) PF_W =? 0)) j).
Proof.
  intros W V Hj. pose proof (segment_pages h n j W V Hj) as Hp. assert (0 <= PGSIZE) as Hpg by done.
  unfold page_entry. split; cbn [sp_vaddr page_number resident_bit dirty_bit is_stack_page page_read_bytes page_zero_bytes]; try done; try lia.
  assert (0 <= p_vaddr h < PHYS_BASE) as Hv by (destruct W, V; lia). destruct (round_down_page _ Hv) as [[Hu Hal] _].
  rewrite pg_no_div. pose proof (Z.div_mod (pg_round_down (p_vaddr h)) PGSIZE ltac:(done)). lia.
Qed.

Lemma loaded_segment s s1 s2 t t1 t2 h n :
  loaded s s1 t t1 -> phdr_words h -> valid_segment h n -> segment_added s1 s2 t1 t2 h -> loaded s s2 t t2.
Proof.
  intros [Hrest Eprocs Hs1 (Hpd & Hesp) Hnext Hkept Hold Hnew] W V [Hrest2 _ Eprocs2 Enext2 Hs2 (Hpd2 & He2 & Hesp2) Hold2 Hkept2 Hnew2 Honly].
  assert (0 <= (fst (segment_sizes h) + snd (segment_sizes h)) / PGSIZE) as Hk.
  { destruct (segment_sizes_ok h n W V) as (k2 & -> & Hr & Hk2). cbn [fst snd]. apply Z.div_pos; [lia|done]. }
  assert (next_spte s1 <= next_spte s2) as Hn2 by lia. split.
  - by etrans.
  - rewrite Eprocs2, Eprocs, (kr_running _ _ Hrest). apply insert_insert_eq.
  - done.
  - split; congruence.
  - lia.
  - intros p Hp. rewrite Hkept2 by lia. by apply Hkept.
  - intros i p Hp. by apply Hold2, Hold.
  - intros i p Hp Hnone. destruct (SP_table t1 !! i) as [q|] eqn:Eq.
    + rewrite (Hold2 _ _ Eq) in Hp. injection Hp as <-. rewrite Hkept2 by (by apply (sn_entries _ _ Hs1 i)). by apply (Hnew i).
    + destruct (decide (0 <= i - pg_no (pg_round_down (p_vaddr h)) < (fst (segment_sizes h) + snd (segment_sizes h)) / PGSIZE)) as [Hj|Hj].
      * destruct (Hnew2 _ Hj) as (p2 & Hp2 & He); [by rewrite Zplus_minus|]. rewrite Zplus_minus in Hp2. assert (p2 = p) as -> by congruence.
        eexists. split; [exact He|]. rewrite <- (Zplus_minus (pg_no (pg_round_down (p_vaddr h))) i) at 1. by apply (page_entry_program h n).
      * rewrite Honly in Hp by (intros j Hj2 ->; apply Hj; lia). congruence.
Qed.

(** ** The program headers of a file *)
Definition phdr_at (c : list Z) (ofs i : Z) : Elf32_Phdr := phdr_of (bytes_from c (ofs + PHDR_SIZE * i) PHDR_SIZE).

(** Every page of the segment of [h] has an entry. *)
Definition segment_in (t : proc) (h : Elf32_Phdr) : Prop :=
  forall a, p_vaddr h <= a < p_vaddr h + p_memsz h -> is_Some (SP_table t !! pg_no a).

Definition segments_in (t : proc) (c : list Z) (ofs k : Z) : Prop :=
  forall i, 0 <= i < k -> p_type (phdr_at c ofs i) = PT_LOAD -> valid_segment (phdr_at c ofs i) (alen c) /\ segment_in t (phdr_at c ofs i).

(** The executable is open, and writes to it are denied. *)
Definition exe_open (s : V) (A : afs) (fp : Z) (x : nat) : Prop :=
  exists pos, represents (fsy s) (set_opened A (<[fp := OFile x pos true]> (opened A))).

(** The pages of a segment, from an address. *)
Lemma segment_page h n a :
  phdr_words h -> valid_segment h n -> p_vaddr h <= a < p_vaddr h + p_memsz h -> exists j,
  0 <= j < (fst (segment_sizes h) + snd (segment_sizes h)) / PGSIZE /\
  pg_no a = pg_no (pg_round_down (p_vaddr h)) + j /\ a = pg_round_down (p_vaddr h) + j * PGSIZE + a mod PGSIZE.
Proof.
  intros W V Ha. exists (a / PGSIZE - p_vaddr h / PGSIZE).
  destruct (segment_sizes_ok h n W V) as (k & -> & Hr & Hk). destruct W as [W1 W2 W3 W4], V as [V1 V2 V3 V4 V5 V6]. cbn [fst snd].
  replace (read_size h + (k * PGSIZE - read_size h)) with (k * PGSIZE) by lia. rewrite Z.div_mul by done.
  assert (PGSIZE = 4096) as Epg by done. rewrite (proj2 (round_down_page (p_vaddr h) ltac:(lia))), !pg_no_div, pg_round_down_div by lia. rewrite Epg in *.
  pose proof (Z.div_mod (p_vaddr h) 4096 ltac:(lia)). pose proof (Z.mod_pos_bound (p_vaddr h) 4096 ltac:(lia)).
  pose proof (Z.div_mod a 4096 ltac:(lia)). pose proof (Z.mod_pos_bound a 4096 ltac:(lia)). lia.
Qed.

Lemma segment_added_in s s' t t' h n : phdr_words h -> valid_segment h n -> segment_added s s' t t' h -> segment_in t' h.
Proof.
  intros W V H a Ha. destruct (segment_page h n a W V Ha) as (j & Hj & Epg & _). rewrite Epg.
  destruct (SP_table t !! (pg_no (pg_round_down (p_vaddr h)) + j)) as [p|] eqn:Ep; [exists p; by apply H|].
  destruct (pa_new _ _ _ _ _ _ _ _ _ H j Hj Ep) as (p & Hp & _). by exists p.
Qed.

Lemma segments_in_kept t t' c ofs k :
  (forall n p, SP_table t !! n = Some p -> SP_table t' !! n = Some p) -> segments_in t c ofs k -> segments_in t' c ofs k.
Proof.
  intros Hold H i Hi Hl. destruct (H i Hi Hl) as [H1 H2]. split; [done|]. intros a Ha. destruct (H2 a Ha) as [p Hp]. exists p. by apply Hold.
Qed.

Lemma segments_in_S t c ofs k :
  segments_in t c ofs k -> (p_type (phdr_at c ofs k) = PT_LOAD -> valid_segment (phdr_at c ofs k) (alen c) /\ segment_in t (phdr_at c ofs k)) ->
  segments_in t c ofs (k + 1).
Proof. intros H Hk i Hi Hl. destruct (decide (i = k)) as [->|Hne]; [by apply Hk|]. apply H; [lia|done]. Qed.

(** Reading a structure of [n] bytes. *)
Lemma read_exact_ok s A fp x pos c junk n :
  represents (fsy s) (set_opened A (<[fp := OFile x pos true]> (opened A))) -> store A !! x = Some c ->
  0 <= n -> alen junk = n -> pos + n < 2 ^ 31 ->
  wp (on_fs (file_read fp junk n)) (fun r s' => exists fs, s' = set_fsy fs s /\ exe_open s' A fp x /\
    (fst r = n -> snd r = bytes_from c pos n)) s.
Proof.
  intros Hrep Hc Hn Hj Hpos. set (A1 := set_opened A _) in Hrep. set (o := OFile x pos true) in A1.
  assert (opened A1 !! fp = Some o) as Ho by apply lookup_insert_eq. pose proof (opened_pos _ _ _ _ Hrep Ho) as Hp. simpl in Hp.
  apply on_fs_wp. eapply wp_mono; [eapply (file_read_ok (fsy s) A1 fp o c junk n); (done || lia)|].
  intros r fs [-> Hrep']. exists fs. split; [done|]. split.
  - eexists. unfold A1, set_opened in Hrep'. simpl in Hrep'. rewrite insert_insert_eq in Hrep'. exact Hrep'.
  - cbn [fst snd o_pos o]. intros E. rewrite E. pose proof (length_room c pos n Hp) as Hl. rewrite E in Hl. unfold splice, alen in *. rewrite take_0, app_nil_l.
    rewrite drop_ge, app_nil_r; [done|lia].
Qed.

(** One program header. *)
Lemma phdr_turn_ok s0 s t0 t A fp x c junk phnum ofs i :
  loaded s0 s t0 t -> exe_open s A fp x -> store A !! x = Some c -> alen c + PHDR_SIZE < 2 ^ 31 -> alen junk = PHDR_SIZE ->
  0 <= i <= phnum -> segments_in t c ofs i ->
  wp (phdr_turn junk phnum fp (i, ofs + PHDR_SIZE * i)) (fun r s' => exists t', loaded s0 s' t0 t' /\ exe_open s' A fp x /\ 
    executable t' = executable t /\
    match r with
    | inl st => i < phnum /\ st = (i + 1, ofs + PHDR_SIZE * (i + 1)) /\ segments_in t' c ofs (i + 1)
    | inr r => r = Some false \/ r = Some true /\ i = phnum /\ segments_in t' c ofs phnum
    end) s.
Proof.
  intros Hld [pos Hopen] Hc Hl Hj Hi Hin. unfold phdr_turn. destruct (Z.ltb_spec i phnum) as [Hlt|Hge].
  2:{ wp_step. assert (i = phnum) as -> by lia. exists t. split; [done|]. split; [by exists pos|]. eauto. }
  set (A1 := set_opened A _) in Hopen. set (o := OFile x pos true) in A1. set (q := ofs + PHDR_SIZE * i) in *.
  assert (opened A1 !! fp = Some o) as Ho by apply lookup_insert_eq. wp_step. apply on_fs_wp.
  eapply wp_eq; [by eapply (file_length_ok (fsy s) A1 fp o c)|]. replace (set_fsy (fsy s) s) with s by (by destruct s).
  destruct ((q <? 0) || (alen c <? q)) eqn:Eb. { wp_step. exists t. split; [done|]. split; [by exists pos|]. eauto. }
  apply orb_false_iff in Eb as [B1%Z.ltb_ge B2%Z.ltb_ge]. wp_step. apply on_fs_wp.
  eapply wp_mono; [by apply (file_seek_ok (fsy s) A1 fp o q)|]. intros [] fs1 Hrep1. wp_step.
  unfold A1, set_opened in Hrep1. simpl in Hrep1. rewrite insert_insert_eq in Hrep1.
  eapply wp_mono; [eapply (read_exact_ok (set_fsy fs1 s) A fp x q c junk PHDR_SIZE); (done || lia)|].
  intros r s2 (fs & -> & [pos2 Hopen2] & Hr). apply (loaded_fs _ _ _ _ fs1), (loaded_fs _ _ _ _ fs) in Hld. set (s2 := set_fsy fs _) in *.
  destruct (Z.eqb_spec (fst r) PHDR_SIZE) as [E|E]; cbn [negb]. 2:{ wp_step. exists t. split; [done|]. split; [by exists pos2|]. eauto. }
  rewrite (Hr E). change (phdr_of _) with (phdr_at c ofs i). wp_step.
  pose proof (phdr_of_words (bytes_from c q PHDR_SIZE)) as W. change (phdr_of _) with (phdr_at c ofs i) in W.
  eapply wp_mono; [eapply (load_phdr_ok s2 t _ (phdr_at c ofs i) fp (OFile x pos2 true) c);
                   [apply Hld|done|exact Hopen2|apply lookup_insert_eq|done|unfold PHDR_SIZE in *; lia]|].
  assert (s32 (q + PHDR_SIZE) = ofs + PHDR_SIZE * (i + 1)) as Eq by (rewrite swrap_small by (unfold PHDR_SIZE in *; lia); unfold q, PHDR_SIZE; lia).
  intros r2 s3 [([El V] & -> & t3 & Hadd)|(Hnl & -> & Hr2)].
  - wp_step. exists t3. split; [by eapply loaded_segment|]. split; [exists pos2; by rewrite (pa_fs _ _ _ _ _ _ _ _ _ Hadd)|].
    split; [apply (pa_same _ _ _ _ _ _ _ _ _ Hadd)|]. rewrite Eq. split; [done|]. split; [done|]. apply segments_in_S.
    + eapply segments_in_kept; [apply Hadd|done].
    + intros _. split; [done|]. by eapply segment_added_in.
  - destruct Hr2 as [[-> Hne]| ->]; wp_step; (exists t; split; [done|]; split; [by exists pos2|]); [|by eauto].
    rewrite Eq. split; [done|]. split; [done|]. split; [done|]. by apply segments_in_S.
Qed.

(** The loop over the program headers. *)
Lemma phdr_loop_ok s0 s t0 t A fp x c junk phnum ofs :
  loaded s0 s t0 t -> exe_open s A fp x -> store A !! x = Some c -> alen c + PHDR_SIZE < 2 ^ 31 -> alen junk = PHDR_SIZE -> 0 <= phnum ->
  wp (loop (S (Z.to_nat phnum)) (phdr_turn junk phnum fp) (0, ofs)) (fun r s' => exists b t', r = Some b /\
    loaded s0 s' t0 t' /\ exe_open s' A fp x /\ executable t' = executable t /\ (b = true -> segments_in t' c ofs phnum)) s.
Proof.
  intros Hld Hopen Hc Hl Hj Hp.
  apply (wp_loop (fun n st s' => exists i t', n = Z.to_nat (phnum - i) /\ 0 <= i <= phnum /\ st = (i, ofs + PHDR_SIZE * i) /\
    loaded s0 s' t0 t' /\ exe_open s' A fp x /\ executable t' = executable t /\ segments_in t' c ofs i)) with (n := Z.to_nat phnum); [| |lia].
  - intros n st s' (i & t' & -> & Hi & -> & Hld' & Hopen' & Ex & Hin).
    eapply wp_mono; [by apply (phdr_turn_ok s0 s' t0 t' A fp x c)|]. intros [st|r] s2 (t2 & Hld2 & Hopen2 & Ex2 & Hr).
    + destruct Hr as (Hlt & -> & Hin2). eexists. split; [|exists (i + 1), t2; split; [reflexivity|]; split_and!; (done || lia || congruence)]. lia.
    + destruct Hr as [-> |(-> & -> & Hin2)]; eexists _, t2; (split; [done|]); split_and!; (done || congruence).
  - exists 0, t. split_and!; try done; try lia; [f_equal; lia|]. intros i Hi. lia.
Qed.

(** Opening the executable and denying writes to it. *)
Lemma open_ok s A name junk :
  represents s A -> Z.of_nat (size (opened A)) < 2 ^ 31 - 16 -> 0 ∉ name -> length junk = ESZ ->
  wp (filesys_open name junk) (fun fp s' => exists A', represents s' A' /\
    match names A !! name with
    | None => fp = 0 /\ A' = A
    | Some x => 0 < fp /\ opened A !! fp = None /\ A' = set_opened A (<[fp := OFile x 0 false]> (opened A))
    end) s.
Proof.
  intros Hrep Hfew Hn Hj. pose proof (run_fs_ok s A (OOpen name) junk Hrep ltac:(split; [lia|done]) Hj) as H.
  apply (wp_bind_ret _ RNum) in H. eapply wp_mono; [exact H|]. intros fp s' (A' & H1 & H2). by exists A'.
Qed.

Lemma deny_ok s A fp x pos d :
  let A1 := set_opened A (<[fp := OFile x pos d]> (opened A)) in
  represents s A1 -> Z.of_nat (size (opened A)) < 2 ^ 31 - 16 -> opened A !! fp = None ->
  wp (file_deny_write fp) (fun _ s' => represents s' (set_opened A (<[fp := OFile x pos true]> (opened A)))) s.
Proof.
  intros A1 Hrep Hfew Hnew.
  assert (fs_pre (ODeny fp) A1) as Hpre.
  { split; [simpl; rewrite map_size_insert_None by done; lia|]. simpl. rewrite lookup_insert_eq. eauto. }
  pose proof (run_fs_ok s A1 (ODeny fp) (replicate ESZ 0) Hrep Hpre eq_refl) as H.
  apply (wp_bind_ret _ (fun _ => RUnit)) in H. eapply wp_mono; [exact H|]. intros [] s' (A' & (o & Ho & ->) & H2).
  simpl in Ho. rewrite lookup_insert_eq in Ho. injection Ho as <-. unfold A1, set_opened in H2. simpl in H2. by rewrite insert_insert_eq in H2.
Qed.

Lemma set_executable_ok s t fp :
  spt_sane s t -> wp (set_executable fp) (fun _ s' => exists t', loaded s s' t t' /\ executable t' = fp /\ fsy s' = fsy s) s.
Proof.
  intros [Ht Hn Hc He]. unfold set_executable. do 3 wp_step. eapply wp_eq; [by apply current_ok|]. apply wp_put.
  exists (Proc (pagedir t) (SP_table t) fp (esp t)). split; [|done]. split; try done.
  - split; try done. apply lookup_insert_eq.
  - intros n p Hp Hnone. simpl in Hp. congruence.
Qed.


(** ** What a segment is in memory *)
(** A page of zeros. *)
Lemma file_page_zero old c e :
  length old = Z.to_nat PGSIZE -> page_read_bytes e = 0 -> page_zero_bytes e = PGSIZE -> file_page old c e = replicate (Z.to_nat PGSIZE) 0.
Proof.
  intros Hl Hr Hz. unfold file_page. rewrite Hr, Hz. replace (room_at c (sp_ofs e) 0) with 0 by (unfold room_at; lia).
  unfold bytes_from, slice_of, splice. change (Z.to_nat 0) with 0%nat. rewrite !take_0, !app_nil_l, length_replicate, Nat.add_0_l.
  cbn [length]. rewrite drop_drop, drop_ge, app_nil_r; [done|lia].
Qed.

(** Byte [i] of a page of which the executable has the first bytes. *)
Lemma file_page_byte old c e i :
  entry_ok e -> length old = Z.to_nat PGSIZE -> page_read_bytes e + page_zero_bytes e = PGSIZE ->
  (page_read_bytes e = 0 \/ sp_ofs e + page_read_bytes e <= alen c) -> 0 <= i < PGSIZE ->
  file_page old c e !! Z.to_nat i = if i <? page_read_bytes e then c !! Z.to_nat (sp_ofs e + i) else Some 0.
Proof.
  intros He Hl Hsum Hend Hi. pose proof (eo_read _ He) as Hr. pose proof (eo_ofs _ He) as Hofs.
  destruct (Z.ltb_spec i (page_read_bytes e)) as [Hlt|Hge].
  - rewrite file_page_exact by (done || lia). unfold bytes_from, slice_of. rewrite lookup_app_l.
    + rewrite lookup_take_lt by lia. rewrite lookup_drop. f_equal. lia.
    + rewrite length_take, length_drop. unfold alen in *. lia.
  - destruct (decide (page_read_bytes e = 0)) as [Ez|Ez].
    + rewrite file_page_zero by (done || lia). apply lookup_replicate_2. lia.
    + rewrite file_page_exact by (done || lia). rewrite lookup_app_r, lookup_replicate_2; [done| |]; unfold bytes_from, slice_of; rewrite length_take, length_drop; unfold alen in *; lia.
Qed.

(** The entry of a page, when the offsets fit. *)
Lemma page_entry_ok ofs upage rb w j :
  0 <= ofs -> 0 <= j -> ofs + j * PGSIZE + PGSIZE < 2 ^ 31 -> entry_ok (page_entry ofs upage rb w j) /\ sp_ofs (page_entry ofs upage rb w j) = ofs + j * PGSIZE.
Proof.
  intros Ho Hj Hb. assert (PGSIZE = 4096) as Epg by done. unfold page_entry. rewrite swrap_small by lia. split; [|done].
  split; cbn [sp_ofs page_read_bytes page_zero_bytes resident_bit dirty_bit is_stack_page]; (done || lia).
Qed.

(** The byte at an address of a segment. *)
Lemma segment_byte h c a j old w :
  phdr_words h -> valid_segment h (alen c) -> p_offset h + p_filesz h <= alen c -> p_offset h + p_memsz h + 2 * PGSIZE < 2 ^ 31 ->
  p_vaddr h <= a < p_vaddr h + p_memsz h -> 0 <= j -> a = pg_round_down (p_vaddr h) + j * PGSIZE + a mod PGSIZE -> length old = Z.to_nat PGSIZE ->
  let e := page_entry (s32 (pg_round_down (p_offset h))) (pg_round_down (p_vaddr h)) (read_size h) w j in
  entry_ok e /\ file_page old c e !! Z.to_nat (a mod PGSIZE) =
    if a - p_vaddr h <? p_filesz h then c !! Z.to_nat (p_offset h + (a - p_vaddr h)) else Some 0.
Proof.
  intros [W1 W2 W3 W4] [V1 V2 V3 V4 V5 V6] Hfile Hfit Ha Hj Ea Hlen e. assert (PGSIZE = 4096) as Epg by done.
  pose proof (Z.div_mod (p_vaddr h) PGSIZE ltac:(done)) as Dv. pose proof (Z.mod_pos_bound (p_vaddr h) PGSIZE ltac:(done)) as Bv.
  pose proof (Z.div_mod (p_offset h) PGSIZE ltac:(done)) as Do. pose proof (Z.mod_pos_bound a PGSIZE ltac:(done)) as Ba.
  rewrite pg_round_down_div in Ea by done. unfold e. rewrite !pg_round_down_div, swrap_small by lia.
  set (ofs := p_offset h / PGSIZE * PGSIZE) in *. set (upage := p_vaddr h / PGSIZE * PGSIZE) in *.
  destruct (page_entry_ok ofs upage (read_size h) w j) as [He Eofs]; [lia..|]. split; [done|].
  assert (read_size h - j * PGSIZE - a mod PGSIZE = p_filesz h - (a - p_vaddr h) \/ p_filesz h = 0 /\ read_size h = 0) as Hrd
    by (unfold read_size; destruct (Z.ltb_spec 0 (p_filesz h)); lia).
  rewrite file_page_byte; [|done|done| | |done].
  - rewrite Eofs. cbn [page_entry page_read_bytes]. destruct (Z.ltb_spec (a - p_vaddr h) (p_filesz h)).
    + rewrite (proj2 (Z.ltb_lt _ _)) by lia. f_equal. lia.
    + rewrite (proj2 (Z.ltb_ge _ _)) by lia. done.
  - cbn [page_entry page_read_bytes page_zero_bytes]. lia.
  - rewrite Eofs. cbn [page_entry page_read_bytes]. lia.
Qed.

(** C15: a segment is in memory what its program header says.  For a [PT_LOAD]
    header that passes [validate_segment], whose bytes are in the file and whose
    pages had no entries, [load_phdr] gives every address of the segment an
    entry with the access rights of the header, and the page that the page fault
    handler makes of this entry has at that address the byte of the file at the
    same distance from [p_offset], or 0 past [p_filesz]. *)
Theorem segment_image s t A l fp o c :
  let h := phdr_of l in
  spt_sane s t -> represents (fsy s) A -> opened A !! fp = Some o -> store A !! o_file o = Some c ->
  alen c < 2 ^ 31 -> loadable h (alen c) -> p_offset h + p_filesz h <= alen c -> p_offset h + p_memsz h + 2 * PGSIZE < 2 ^ 31 ->
  (forall a, p_vaddr h <= a < p_vaddr h + p_memsz h -> SP_table t !! pg_no a = None) ->
  wp (load_phdr h fp) (fun r s' => r = Some true /\ exists t', spt_sane s' t' /\
    forall a old, p_vaddr h <= a < p_vaddr h + p_memsz h -> length old = Z.to_nat PGSIZE ->
    exists p e, SP_table t' !! pg_no a = Some p /\ sptes s' !! p = Some e /\ entry_ok e /\
      writable e = negb (Z.land (p_flags h) PF_W =? 0) /\
      file_page old c e !! Z.to_nat (a mod PGSIZE) =
        if a - p_vaddr h <? p_filesz h then c !! Z.to_nat (p_offset h + (a - p_vaddr h)) else Some 0) s.
Proof.
  intros h Hs Hrep Ho Hc Hl Hld Hfile Hfit Hnone. pose proof (phdr_of_words l) as W. fold h in W. pose proof Hld as [El V].
  eapply wp_mono; [eapply (load_phdr_ok s t A h fp o c); done|].
  intros r s' [(_ & -> & t' & Hadd)|(Hn & _)]; [|done]. split; [done|]. exists t'. split; [apply Hadd|]. intros a old Ha Hlen.
  destruct (segment_page h (alen c) a W V Ha) as (j & Hj & Epg & Ea).
  destruct (pa_new _ _ _ _ _ _ _ _ _ Hadd j Hj) as (p & Hp & He); [rewrite <- Epg; by apply Hnone|]. exists p. eexists.
  rewrite Epg. split; [exact Hp|]. split; [exact He|].
  destruct (segment_byte h c a j old (negb (Z.land (p_flags h) PF_W =? 0)) W V Hfile Hfit Ha ltac:(lia) Ea Hlen). by split_and!.
Qed.

(** ** Large segments *)
(** The handler on an entry with a negative offset. *)
Lemma fault_negative_offset s t f_esp a p e :
  procs s !! running s = Some t -> frames_ok s -> has_empty s -> (forall i fr, (frame_table s).[i] = Some fr -> frame_ptr fr <> 0) ->
  0 < a < PHYS_BASE -> SP_table t !! pg_no a = Some p -> p <> 0 -> sptes s !! p = Some e ->
  resident_bit e = false /\ dirty_bit e = false /\ is_stack_page e = false -> sp_ofs e < 0 ->
  page_fault f_esp a s = Err AssertFail.
Proof.
  intros Ht Hf Hempty Hptr Ha Hp Hp0 He (E1 & E2 & E3) Hofs. unfold page_fault. rewrite (proj2 (Z.eqb_neq a 0)) by lia. cbv zeta.
  destruct (round_down_page a) as [Hup Epg]; [lia|]. rewrite (bind_eq _ _ s _ s (get_SPT_entry_ok s t _ Ht (proj1 Hup))).
  rewrite Epg, Hp. cbn [from_option id]. rewrite (proj2 (Z.eqb_neq p 0)) by done. cbn [negb]. unfold fault_in.
  destruct (proj1 (wp_iff _ _ _) (get_user_page_ok s (pg_round_down a) Hf Hempty)) as (r & s1 & Eg & i & fr & Hi & Hst & -> & ->).
  rewrite (bind_eq _ _ _ _ _ Eg). rewrite (proj2 (Z.eqb_neq (frame_ptr fr) 0)) by (by eapply Hptr). set (s1 := set_bump _ _).
  rewrite (bind_eq _ _ s1 e s1) by (by apply get_spte_ok). rewrite E1, E2, E3. cbn [negb andb orb]. do 2 apply bind_err.
  unfold load_from_file. rewrite (bind_eq _ _ s1 t s1) by (by apply current_ok). apply bind_err. unfold on_fs, file_seek.
  unfold assert at 1. destruct (negb (executable t =? 0)); [|done]. rewrite (bind_eq _ _ _ tt (fsy s1)) by done.
  rewrite (bind_err _ _ _ AssertFail); [done|]. unfold assert. by rewrite (proj2 (Z.leb_gt 0 (sp_ofs e))).
Qed.

(** C35: a large segment brings the kernel down.  [validate_segment] accepts a
    segment that reaches past 2 GB of file offsets, because only [p_offset]
    itself is compared with the length of the file; the offsets that
    [load_segment] counts up then turn negative, and the first access to such a
    page fails the assertion of [file_seek] in the page fault handler. *)
Theorem large_segment_panics s t A l fp o c f_esp a :
  let h := phdr_of l in
  spt_sane s t -> represents (fsy s) A -> opened A !! fp = Some o -> store A !! o_file o = Some c ->
  alen c < 2 ^ 31 -> loadable h (alen c) ->
  p_vaddr h <= a < p_vaddr h + p_memsz h -> SP_table t !! pg_no a = None -> 2 ^ 31 <= p_offset h + (a - p_vaddr h) < 2 ^ 32 ->
  frames_ok s -> has_empty s -> (forall i fr, (frame_table s).[i] = Some fr -> frame_ptr fr <> 0) ->
  wp (load_phdr h fp) (fun r s' => r = Some true /\ page_fault f_esp a s' = Err AssertFail) s.
Proof.
  intros h Hs Hrep Ho Hc Hl Hld Ha Hnone Hbig Hf Hempty Hptr. pose proof (phdr_of_words l) as W. fold h in W. pose proof Hld as [El V].
  eapply wp_mono; [eapply (load_phdr_ok s t A h fp o c); done|].
  intros r s' [(_ & -> & t' & Hadd)|(Hn & _)]; [|done]. split; [done|].
  destruct (segment_page h (alen c) a W V Ha) as (j & Hj & Epg & Ea).
  destruct (pa_new _ _ _ _ _ _ _ _ _ Hadd j Hj) as (p & Hp & He); [by rewrite <- Epg|]. rewrite <- Epg in Hp.
  destruct (pa_rest _ _ _ _ _ _ _ _ _ Hadd) as [K1 K2 K3 K4 K5 K6 K7 K8 K9].
  destruct (pa_sane _ _ _ _ _ _ _ _ _ Hadd) as [G1 G2 G3 G4].
  destruct W as [W1 W2 W3 W4], V as [V1 V2 V3 V4 V5 V6]. assert (PGSIZE = 4096) as Epz by done.
  eapply (fault_negative_offset s' t'); [done|destruct Hf; split; by rewrite ?K3, ?K2, ?K4|destruct Hempty as (i & Hi); exists i; unfold full_frame; by rewrite K2|by rewrite K2| |exact Hp|pose proof (G4 _ _ Hp); lia|exact He|done|].
  - unfold PHYS_BASE in *. lia.
  - cbn [page_entry sp_ofs]. pose proof (Z.div_mod (p_vaddr h) PGSIZE ltac:(done)). pose proof (Z.div_mod (p_offset h) PGSIZE ltac:(done)).
    pose proof (Z.mod_pos_bound a PGSIZE ltac:(done)). pose proof (Z.mod_pos_bound (p_offset h) PGSIZE ltac:(done)).
    rewrite pg_round_down_div in Ea by done. rewrite swrap_add by lia. rewrite pg_round_down_div by done.
    apply swrap_negative. rewrite Epz in *. lia.
Qed.
End elf.

(** ** A small executable

    It has one segment of 40 bytes, of which 16 are in the file. *)
Definition half_bytes (n : Z) : list Z := [n mod 256; n / 256 mod 256].
Definition word_bytes (n : Z) : list Z := half_bytes (n mod 65536) ++ half_bytes (n / 65536).
Definition phdr_bytes (offset vaddr filesz memsz flags : Z) : list Z :=
  concat (map word_bytes [PT_LOAD; offset; vaddr; vaddr; filesz; memsz; flags; PGSIZE]).
Definition elf_bytes : list Z :=
  [127; 69; 76; 70; 1; 1; 1; 0; 0; 0; 0; 0; 0; 0; 0; 0] ++ half_bytes 2 ++ half_bytes 3 ++ concat (map word_bytes [1; 0x8048054; 52; 0; 0]) ++
  concat (map half_bytes [52; 32; 1; 0; 0; 0]) ++ phdr_bytes 84 0x8048054 16 40 6 ++ map Z.of_nat (seq 1 16).

Definition elf_disk : M fsys Z :=
  filesys_init (Some small_device) [123] true;;
  _ ← run_fs stack_junk (OCreate [97] 100);
  r ← run_fs stack_junk (OOpen [97]);
  let fp := match r with RNum fp => fp | _ => 0 end in
  if fp =? 0 then mret 0 else
  _ ← run_fs stack_junk (OWrite fp elf_bytes);
  mret fp.
Definition elf_boot : Z * fsys := match elf_disk boot_state with Ok r => r | Err _ => (0, boot_state) end.
Definition elf_fp : Z := fst elf_boot.
Definition elf_fs : fsys := snd elf_boot.

Definition elf_proc : proc := Proc (demo_page 1) ∅ elf_fp 0.
Definition elf_vm : vm pgstate := VM pgstate demo_pg [Frame (demo_page 3) FT_EMPTY 0] 1 0 ∅ 1 []
  [Swap 0 0] 1 demo_swap {[demo_page 3 := replicate (Z.to_nat PGSIZE) 7]} elf_fs {[1 := elf_proc]} 1.

(** The file system has the file, open. *)
Lemma elf_fs_ok :
  exists A x, represents elf_fs A /\ names A !! [97] = Some x /\ store A !! x = Some elf_bytes /\ opened A = {[elf_fp := OFile x 100 false]}.
Proof.
  assert (wp elf_disk (fun fp s => fp <> 0 -> exists A x, represents s A /\ names A !! [97] = Some x /\ store A !! x = Some elf_bytes /\
    opened A = {[fp := OFile x 100 false]}) boot_state) as H.
  { destruct small_device_ok as (H1 & H2 & H3 & H4). unfold elf_disk. wp_step. eapply wp_mono; [by apply (format_ok small_device boot_state [123])|].
    intros [] s1 Hs1. wp_step. assert (0 ∉ [97]) as Hnin by (intros Hin; by apply list_elem_of_singleton in Hin).
    eapply wp_mono; [apply (run_fs_ok s1 empty_fs (OCreate [97] 100) stack_junk Hs1); [|done]; split; [done|]; split; [done|lia]|].
    intros r s2 (A2 & Hsp & Hs2). assert (opened A2 = ∅ /\ (names A2 !! [97] = None \/
      exists x, names A2 !! [97] = Some x /\ store A2 !! x = Some (replicate 100 0))) as [Ho2 Hn2].
    { destruct r as [|[]| |]; simpl in Hsp; try done; [|by destruct Hsp as [-> _]; auto]. destruct Hsp as (_ & _ & x & _ & ->). simpl.
      split; [done|]. right. exists x. by rewrite !lookup_insert_eq. }
    wp_step. eapply wp_mono; [apply (run_fs_ok s2 A2 (OOpen [97]) stack_junk Hs2); [|done]; by split; [rewrite Ho2|]|].
    intros r2 s3 (A3 & Hsp3 & Hs3). cbv zeta. destruct r2 as [| |fp|]; try done. cbn [spec_step] in Hsp3.
    destruct Hn2 as [Hn2|(x & Hx & Hst)]; [rewrite Hn2 in Hsp3; destruct Hsp3 as [-> _]; cbn [Z.eqb]; by wp_step|]. rewrite Hx in Hsp3.
    destruct Hsp3 as (Hfp & _ & ->). rewrite (proj2 (Z.eqb_neq fp 0)) by lia. rewrite Ho2, insert_empty in Hs3. set (A3 := set_opened _ _) in Hs3.
    assert (opened A3 !! fp = Some (OFile x 0 false)) as Ho by apply lookup_singleton_eq.
    wp_step. eapply wp_mono; [apply (run_fs_ok s3 A3 (OWrite fp elf_bytes) stack_junk Hs3); [|done]; split; [simpl; by rewrite map_size_singleton|by eexists]|].
    intros r4 s4 (A4 & Hsp4 & Hs4). wp_step. intros _. destruct r4 as [| |n|]; try done. destruct Hsp4 as (f & c & Hf & Hc & _ & Hn & ->).
    rewrite Ho in Hf. injection Hf as <-. simpl in Hc. rewrite Hst in Hc. injection Hc as <-.
    assert (n = 100) as ->. { apply Hn. intros (fp2 & o2 & H5 & _ & Hd). simpl in H5. apply lookup_singleton_Some in H5 as [_ <-]. done. }
    eexists _, x. split; [exact Hs4|]. simpl. split; [done|]. split; [by rewrite lookup_insert_eq|]. by rewrite insert_singleton_eq. }
  destruct (proj1 (wp_iff _ _ _) H) as (fp & s & E & Hs). clear H. unfold elf_fp, elf_fs, elf_boot. rewrite E. apply Hs.
  assert (match elf_disk boot_state with Ok (fp, _) => negb (fp =? 0) | Err _ => false end = true) as Hnz by (vm_compute; reflexivity).
  rewrite E in Hnz. by apply negb_true_iff, Z.eqb_neq in Hnz.
Qed.

Definition ejunk : list Z := replicate 52 9.
Definition pjunk : list Z := replicate 32 9.

(** The program loads. *)
Lemma elf_loads : outcome (load_program [97] ejunk pjunk stack_junk) elf_vm = Ok (Some (true, 0x8048054)).
Proof. vm_compute. reflexivity. Qed.

#[local] Opaque elf_boot.

Lemma elf_sane : spt_sane elf_vm elf_proc.
Proof. by split. Qed.

Lemma large_header_ok : loadable (phdr_of (phdr_bytes 84 0x8048054 16 0x90000000 6)) (alen elf_bytes).
Proof. split; [reflexivity|]. split; vm_compute; done. Qed.

Lemma small_header_ok : loadable (phdr_of (phdr_bytes 84 0x8048054 16 40 6)) (alen elf_bytes).
Proof. split; [reflexivity|]. split; vm_compute; done. Qed.


Lemma segment_image_witness :
  wp (load_phdr (phdr_of (phdr_bytes 84 0x8048054 16 40 6)) elf_fp) (fun r s' => r = Some true /\ exists t' p e,
    SP_table t' !! 0x8048 = Some p /\ sptes s' !! p = Some e /\ writable e = true /\
    file_page (replicate (Z.to_nat PGSIZE) 7) elf_bytes e !! 0x55%nat = Some 2) elf_vm.
Proof.
  destruct elf_fs_ok as (A & x & Hrep & Hx & Hc & Ho). eapply wp_mono.
  - apply (segment_image elf_vm elf_proc A (phdr_bytes 84 0x8048054 16 40 6) elf_fp (OFile x 100 false) elf_bytes elf_sane Hrep).
    + rewrite Ho. apply lookup_singleton_eq.
    + done.
    + done.
    + exact small_header_ok.
    + vm_compute. done.
    + vm_compute. done.
    + intros a _. apply lookup_empty.
  - intros r s' (-> & t' & _ & H). split; [done|].
    destruct (H 0x8048055 (replicate (Z.to_nat PGSIZE) 7)) as (p & e & H1 & H2 & _ & H3 & H4); [vm_compute; done|apply length_replicate|].
    exists t', p, e. split_and!; done.
Defined.

Lemma large_segment_panics_witness :
  wp (load_phdr (phdr_of (phdr_bytes 84 0x8048054 16 0x90000000 6)) elf_fp) (fun r s' => r = Some true /\
    page_fault 0xbffffff0 0x88048054 s' = Err AssertFail) elf_vm.
Proof.
  destruct elf_fs_ok as (A & x & Hrep & Hx & Hc & Ho).
  apply (large_segment_panics elf_vm elf_proc A (phdr_bytes 84 0x8048054 16 0x90000000 6) elf_fp (OFile x 100 false) elf_bytes 0xbffffff0 0x88048054 elf_sane Hrep).
  - rewrite Ho. apply lookup_singleton_eq.
  - done.
  - done.
  - exact large_header_ok.
  - vm_compute. done.
  - apply lookup_empty.
  - vm_compute. done.
  - split; [reflexivity|simpl; lia].
  - exists 0. split; [done|]. by intros (fr & [= <-] & Hfull).
  - intros i fr Hi. assert (i = 0) as -> by (pose proof (aget_lt _ _ _ Hi) as Hr; change (alen _) with 1 in Hr; lia). by injection Hi as <-.
Defined.
