(* ===== verification/UserMem.v ===== *)
(** * User memory, as the processor accesses it

    The kernel reads and writes the memory of the running process at its user
    addresses.  The processor translates the address with the page directory,
    marks the page as accessed or dirty, and enters the page fault handler of Vm
    when the page is not there or is read-only; when the handler returns, the
    access is made again.  [Mmu] is what this needs of page directories.

    Theorems: while the pages are present, loading and storing are those of a
    memory that each process has for itself. *)

From S2P Require Import Prelude Khash Vaddr Palloc Pagedir Block Inode FreeMap Filesys FsSpec Vm VmSpec VmTheorems VmPaging.

Definition word_writable (w : Z) : bool := negb (Z.land w PTE_W =? 0).

(** The processor's walk through the tables, and its marks. *)
Class Mmu (P : Type) := {
  mmu_word : Z -> Z -> M P Z;
  mmu_mark : Z -> Z -> bool -> M P unit
}.

Section access.
Context {P : Type} `{!Paging P, !Mmu P}.
Abbreviation V := (vm P).

(** [kesp] is the [esp] of the frame of a fault in the kernel, where the
    processor does not store it.  The result is where the byte is in kernel
    memory; [None] when the handler ended the process.  Three attempts are more
    than a page that is there needs. *)
Definition access (kesp : Z) (write : bool) (a : Z) : M V (option Z) :=
  if negb (is_user_vaddr a) then mret (Some a) else
  loop 3 (fun _ =>
    t ← current;
    w ← on_pg (mmu_word (pagedir t) a);
    if present w && (negb write || word_writable w) then
      on_pg (mmu_mark (pagedir t) a write);;
      mret (inr (Some (frame_of w + a mod PGSIZE)))
    else
      r ← page_fault kesp a;
      mret (match r with None => inr None | Some _ => inl tt end)) tt.

Definition cpu_load (kesp a : Z) : M V (option Z) :=
  r ← access kesp false a;
  match r with
  | None => mret None
  | Some k =>
    s ← get;
    page ← deref (ram s !! (k / PGSIZE * PGSIZE));
    b ← deref (page !! Z.to_nat (k mod PGSIZE));
    mret (Some b)
  end.

Definition cpu_store (kesp a b : Z) : M V (option unit) :=
  r ← access kesp true a;
  match r with
  | None => mret None
  | Some k =>
    s ← get;
    page ← deref (ram s !! (k / PGSIZE * PGSIZE));
    put (set_ram (<[k / PGSIZE * PGSIZE := <[Z.to_nat (k mod PGSIZE) := b]> page]> (ram s)) s);;
    mret (Some tt)
  end.

(** [n] bytes from [a] on, and storing bytes there. *)
Fixpoint load_bytes (kesp a : Z) (n : nat) : M V (option (list Z)) :=
  match n with
  | O => mret (Some [])
  | S n =>
    r ← cpu_load kesp a;
    match r with
    | None => mret None
    | Some b => r ← load_bytes kesp (a + 1) n; mret (match r with Some l => Some (b :: l) | None => None end)
    end
  end.

Fixpoint store_bytes (kesp a : Z) (l : list Z) : M V (option unit) :=
  match l with
  | [] => mret (Some tt)
  | b :: l => r ← cpu_store kesp a b; match r with None => mret None | Some _ => store_bytes kesp (a + 1) l end
  end.
End access.

Definition marked_word (d : bool) (w : Z) : Z := if d then Z.lor (Z.lor w PTE_A) PTE_D else Z.lor w PTE_A.

Class MmuLaws (P : Type) `{!Paging P, !PagingLaws P, !Mmu P} := {
  mmu_word_ok s W pd f va : pg_view s W -> W !! pd = Some f -> 0 <= va < PHYS_BASE -> mmu_word pd va s = Ok (f (pg_no va), s);
  mmu_mark_ok s W pd f va d : pg_view s W -> W !! pd = Some f -> 0 <= va < PHYS_BASE -> present (f (pg_no va)) = true ->
    wp (mmu_mark pd va d) (fun _ s' => exists f', pg_view s' (<[pd := f']> W) /\ (forall k, pg_frame s k -> pg_frame s' k) /\
      (pg_no_memory s' -> pg_no_memory s) /\ forall v, f' v = update f (pg_no va) (marked_word d (f (pg_no va))) v) s
}.

(** ** Page directories *)
#[export] Instance pagedir_mmu : Mmu pgstate := {
  mmu_word := fun pd va => pte ← lookup_page pd va false; match pte with Some (pt, i) => read_word pt i | None => mret 0 end;
  mmu_mark := fun pd va write => pagedir_set_accessed pd va true;; (if write then pagedir_set_dirty pd va true else mret ())
}.

Lemma set_bit_law s W pd f va bit :
  dirs_view s W -> W !! pd = Some f -> 0 <= va < PHYS_BASE -> present (f (pg_no va)) = true -> soft_bit bit ->
  wp (set_pte pd va bit true) (fun _ s' => exists f', dirs_view s' (<[pd := f']> W) /\ (forall k, user_frame s k -> user_frame s' k) /\
    (no_table_page s' -> no_table_page s) /\ forall v, f' v = update f (pg_no va) (Z.lor (f (pg_no va)) bit) v) s.
Proof.
  intros HW Hf Hu Hp Hbit. pose proof HW as (K & U & D & apd & apts & HD & Hact & Hco & Hinit & Hdom & Has).
  destruct (Hdom pd) as [pts Hpd]; [eauto|].
  assert (forall v, 0 <= v < max_page -> f v = as_of s pts v) as Hfs by (intros v Hv; by apply (Has pd f pts)).
  assert (as_of s pts (pg_no va) <> 0) as Hnz by (rewrite (view_word pts s f) by done; intros E; by rewrite E in Hp).
  assert (0 <= bit < 2 ^ 32) as Hb by (destruct Hbit as [->| ->]; done).
  eapply wp_mono; [by eapply (set_pte_ok s K U D apd apts HD Hact Hco pd pts va bit true)|].
  intros [] s' (HD' & Hact' & Hco' & Hoth & [Ei Er] & Hne & _ & Heq). eexists. split_and!; [|intros k [H1 H2]; split; [done|by rewrite Er]| |done].
  - eapply (view_update s s' K U D apd apts pd pts W f _ pts K apts); try done; [by rewrite insert_id..|]. intros v. split.
    + assert (forall u, 0 <= f u < 2 ^ 32) as Hr by (intros u; by apply (Has pd f pts)). unfold update. case_decide; [|done]. by apply (lor_range 32).
    + intros Hv. unfold update. case_decide; [subst v; by rewrite Heq, Hfs|]. by rewrite Hne, Hfs.
  - eapply no_table_page_back; eauto.
Qed.

Lemma lor_present w bit : soft_bit bit -> present (Z.lor w bit) = present w.
Proof. intros H. unfold present. by rewrite (soft_bit_lor w bit PTE_P) by tauto. Qed.

#[export] Instance pagedir_mmu_laws : MmuLaws pgstate.
Proof.
  split.
  - intros s W pd f va HW Hf Hva. destruct (view_dir s W pd f HW Hf) as (K & U & D & apd & apts & pts & HD & _ & _ & Hpd & _ & Has & _).
    pose proof (do_dir _ _ _ _ HD _ _ Hpd) as Hdir. simpl. rewrite (bind_eq _ _ _ _ _ (lookup_page_ok _ _ _ _ _ Hdir va Hva)).
    rewrite <- (view_word pts s f) by done. destruct (pts !! pd_no va) as [pt|] eqn:E; [|by rewrite as_of_missing].
    destruct (read_pte _ _ _ _ _ Hdir va pt Hva E) as (tws & w & _ & _ & _ & Hrd & -> & _). exact Hrd.
  - intros s W pd f va d HW Hf Hva Hp. cbn [mmu_mark pagedir_mmu]. wp_step. eapply wp_mono; [apply (set_bit_law s W pd f va PTE_A); try done; by left|].
    intros [] s1 (f1 & H1 & H2 & H3 & H4). destruct d; [|wp_step; by exists f1].
    eapply wp_mono; [apply (set_bit_law s1 (<[pd := f1]> W) pd f1 va PTE_D); [done|apply lookup_insert_eq|done| |by right]|].
    { rewrite H4, update_eq. by rewrite lor_present by (by left). }
    intros [] s2 (f2 & G1 & G2 & G3 & G4). exists f2. rewrite insert_insert_eq in G1. split_and!; [done|intros k Hk; by apply G2, H2|intros Hn; by apply H3, G3|].
    intros v. rewrite G4, H4, update_eq. unfold update. case_decide; [done|]. rewrite H4. by apply update_ne.
Qed.

(** ** Memory of processes *)
(** Two words that map the same page in the same way. *)
Definition same_entry (w w' : Z) : Prop := present w' = present w /\ frame_of w' = frame_of w /\ word_writable w' = word_writable w.

Definition same_map (W W' : gmap Z (Z -> Z)) : Prop :=
  forall pd, option_Forall2 (fun f f' => forall v, same_entry (f v) (f' v)) (W !! pd) (W' !! pd).

#[export] Instance same_map_preorder : PreOrder same_map.
Proof.
  split.
  - intros W pd. destruct (W !! pd); by constructor.
  - intros W1 W2 W3 H12 H23 pd. generalize (H23 pd). destruct (H12 pd) as [f1 f2 H|]; intros H'; [|by inversion H'; constructor].
    inversion H' as [? f3 H2 E|]. constructor. intros v. destruct (H v) as (? & ? & ?), (H2 v) as (? & ? & ?). split_and!; congruence.
Qed.

Lemma marked_same d w : same_entry w (marked_word d w).
Proof.
  assert (forall u bit, soft_bit bit -> same_entry u (Z.lor u bit)) as H.
  { intros u bit Hb. split_and!.
    - by apply lor_present.
    - unfold frame_of. do 2 f_equal. change PGSIZE with (2 ^ 12). rewrite <- !Z.shiftr_div_pow2, Z.shiftr_lor by lia.
      replace (Z.shiftr bit 12) with 0 by (by destruct Hb as [->| ->]). apply Z.lor_0_r.
    - unfold word_writable. rewrite Z.land_lor_distr_l. replace (Z.land bit PTE_W) with 0 by (by destruct Hb as [->| ->]). by rewrite Z.lor_0_r. }
  destruct d; [|apply H; by left]. destruct (H w PTE_A) as (E1 & E2 & E3); [by left|]. destruct (H (Z.lor w PTE_A) PTE_D) as (G1 & G2 & G3); [by right|].
  cbn [marked_word]. split_and!; congruence.
Qed.

Lemma same_map_update W pd f f' v d :
  W !! pd = Some f -> (forall u, f' u = update f v (marked_word d (f v)) u) -> same_map W (<[pd := f']> W).
Proof.
  intros Hf E pd2. destruct (decide (pd2 = pd)) as [->|Hne]; [|rewrite lookup_insert_ne by done; destruct (W !! pd2); by constructor].
  rewrite Hf, lookup_insert_eq. constructor. intros u. rewrite E. unfold update. case_decide; [subst; apply marked_same|done].
Qed.

Section memory.
Context {P : Type} `{!Paging P, !PagingLaws P, !Mmu P, !MmuLaws P}.
Abbreviation V := (vm P).
Implicit Types s : V.

(** The byte that the process with directory [pd] sees at an address, when the
    page is there. *)
Definition mem_at s (W : gmap Z (Z -> Z)) (pd a : Z) : option Z :=
  match W !! pd with
  | Some f => if present (f (pg_no a)) then page ← ram s !! frame_of (f (pg_no a)); page !! Z.to_nat (a mod PGSIZE) else None
  | None => None
  end.

Definition may_write (W : gmap Z (Z -> Z)) (pd a : Z) : Prop :=
  exists f, W !! pd = Some f /\ word_writable (f (pg_no a)) = true.

Lemma mem_at_same s s' W W' pd a : same_map W W' -> ram s' = ram s -> mem_at s' W' pd a = mem_at s W pd a.
Proof.
  intros Hm Er. unfold mem_at. destruct (Hm pd) as [f f' H|]; [|done]. destruct (H (pg_no a)) as (-> & -> & _). by rewrite Er.
Qed.

Lemma may_write_same W W' pd a : same_map W W' -> may_write W pd a -> may_write W' pd a.
Proof.
  intros Hm (f & Hf & Hw). pose proof (Hm pd) as H. rewrite Hf in H. inversion H as [? f' Hs E|]. exists f'. split; [done|].
  destruct (Hs (pg_no a)) as (_ & _ & ->). done.
Qed.

Lemma vm_ok_marked s W A x W' :
  vm_ok s W A -> pg_view x W' -> (forall k, pg_frame (pgs s) k -> pg_frame x k) -> same_map W W' -> vm_ok (set_pgs x s) W' A.
Proof.
  intros [H1 H2 H3 H4 H5 H6 H7 H8] Hx Hfr Hm.
  assert (forall pd f' v, W' !! pd = Some f' -> exists f, W !! pd = Some f /\ same_entry (f v) (f' v)) as Hback.
  { intros pd f' v Hf'. pose proof (Hm pd) as H. rewrite Hf' in H. inversion H as [f ? Hs E|]. exists f. done. }
  split; try done.
  - by destruct H2.
  - intros i fr Hi. destruct (H3 i fr Hi) as [G1 G2]. split; [by apply Hfr|done].
  - intros pd g v Hg Hv Hp. destruct (Hback pd g v Hg) as (f & Hf & E1 & E2 & _). rewrite E2. apply (H5 pd f v Hf Hv). by rewrite <- E1.
  - intros pd g v pd' g' v' Hg Hg' Hv Hv' Hp Hp' E. destruct (Hback pd g v Hg) as (f & Hf & E1 & E2 & _). destruct (Hback pd' g' v' Hg') as (f' & Hf' & E1' & E2' & _).
    apply (H6 pd f v pd' f' v'); try done; congruence.
  - eapply procs_ok_same; [exact H7|done..|eauto| |done]. intros pd [f Hf]. pose proof (Hm pd) as H. rewrite Hf in H. inversion H. eauto.
Qed.

(** ** An access to a page that is there *)
Lemma mod_page k a : kpage_ok k -> (k + a mod PGSIZE) / PGSIZE * PGSIZE = k /\ (k + a mod PGSIZE) mod PGSIZE = a mod PGSIZE.
Proof.
  intros Hk. destruct (kpage_phys k Hk) as (q & -> & _). change PHYS_BASE with (786432 * PGSIZE). rewrite <- Z.mul_add_distr_r.
  pose proof (Z.mod_pos_bound a PGSIZE ltac:(done)). split.
  - rewrite Z.div_add_l, Z.div_small by done. lia.
  - rewrite Z.add_comm, Z.mod_add, Z.mod_small by done. done.
Qed.

Lemma access_ok s W A t f kesp write a :
  vm_ok s W A -> procs s !! running s = Some t -> W !! pagedir t = Some f -> 0 <= a < PHYS_BASE -> present (f (pg_no a)) = true ->
  (write = true -> word_writable (f (pg_no a)) = true) ->
  wp (access kesp write a) (fun r s' => r = Some (frame_of (f (pg_no a)) + a mod PGSIZE) /\ exists x W', s' = set_pgs x s /\
    vm_ok s' W' A /\ same_map W W') s.
Proof.
  intros H Ht Hf Ha Hp Hw. unfold access, is_user_vaddr. rewrite (proj2 (Z.ltb_lt a PHYS_BASE)) by lia. cbn [negb].
  cbn [loop]. do 2 wp_step. eapply wp_eq; [by apply current_ok|]. wp_step. apply on_pg_wp.
  eapply wp_eq; [eapply mmu_word_ok; [apply H|done|done]|]. rewrite set_pgs_same, Hp.
  replace (negb write || word_writable (f (pg_no a))) with true by (destruct write; [by rewrite Hw|done]). cbn [andb]. wp_step. apply on_pg_wp.
  eapply wp_mono; [eapply mmu_mark_ok; [apply H|done|done|done]|]. intros [] x (f' & H1 & H2 & H3 & H4). do 2 wp_step.
  split; [done|]. exists x, (<[pagedir t := f']> W). split; [done|]. pose proof (same_map_update W (pagedir t) f f' _ _ Hf H4). split; [|done].
  by apply (vm_ok_marked s W A).
Qed.

(** ** Loading and storing *)
(** The bytes [l] went to [a] in the memory of [pd]; nothing else that a process
    sees changed. *)
Record stored s s' (W W' : gmap Z (Z -> Z)) (A : afs) (pd a : Z) (l : list Z) : Prop := {
  so_rest : exists x m, s' = set_ram m (set_pgs x s);
  so_ok : vm_ok s' W' A;
  so_map : same_map W W';
  so_mem : forall pd' v, 0 <= v < PHYS_BASE ->
    mem_at s' W' pd' v = if decide (pd' = pd /\ a <= v < a + alen l) then l !! Z.to_nat (v - a) else mem_at s W pd' v
}.

Lemma stored_nil s s' W W' A x pd a : s' = set_pgs x s -> vm_ok s' W' A -> same_map W W' -> stored s s' W W' A pd a [].
Proof.
  intros -> H Hm. split; try done.
  - exists x, (ram s). by destruct s.
  - intros pd' v Hv. rewrite decide_False by (change (alen []) with 0; lia). by apply mem_at_same.
Qed.

Lemma stored_app s s1 s2 W W1 W2 A pd a l k :
  stored s s1 W W1 A pd a l -> stored s1 s2 W1 W2 A pd (a + alen l) k -> stored s s2 W W2 A pd a (l ++ k).
Proof.
  intros [(x1 & m1 & E1) _ Hm1 H1] [(x2 & m2 & E2) Hok Hm2 H2]. split; [|done|by etrans|].
  - exists x2, m2. by rewrite E2, E1.
  - intros pd' v Hv. rewrite H2, H1, alen_app by done. pose proof (alen_nonneg l). pose proof (alen_nonneg k).
    destruct (decide (pd' = pd)) as [->|Hne]; [|by rewrite !decide_False by tauto]. unfold alen in *.
    repeat case_decide; try lia; try done.
    + rewrite lookup_app_r by lia. f_equal. lia.
    + by rewrite lookup_app_l by lia.
Qed.

(** The word behind a byte that is there. *)
Lemma mem_at_word s W A pd a b :
  vm_ok s W A -> 0 <= a < PHYS_BASE -> mem_at s W pd a = Some b -> exists f page, W !! pd = Some f /\ present (f (pg_no a)) = true /\
    ram s !! frame_of (f (pg_no a)) = Some page /\ page !! Z.to_nat (a mod PGSIZE) = Some b /\ kpage_ok (frame_of (f (pg_no a))).
Proof.
  intros H Ha Hb. unfold mem_at in Hb. destruct (W !! pd) as [f|] eqn:Hf; [|done]. destruct (present (f (pg_no a))) eqn:Hp; [|done].
  apply bind_Some in Hb as (page & Hr & Hb). exists f, page. split_and!; try done.
  destruct (vo_present _ _ _ H pd f (pg_no a) Hf (user_page_no a Ha) Hp) as (i & fr & Hi & _ & ->).
  eapply pg_frame_page. by apply (vo_frame _ _ _ H i fr).
Qed.

Lemma cpu_load_ok s W A t kesp a b :
  vm_ok s W A -> procs s !! running s = Some t -> 0 <= a < PHYS_BASE -> mem_at s W (pagedir t) a = Some b ->
  wp (cpu_load kesp a) (fun r s' => r = Some b /\ exists W', forall a', stored s s' W W' A (pagedir t) a' []) s.
Proof.
  intros H Ht Ha Hb. destruct (mem_at_word _ _ _ _ _ _ H Ha Hb) as (f & page & Hf & Hp & Hr & Hl & Hk). unfold cpu_load. wp_step.
  eapply wp_mono; [by eapply (access_ok s W A t f)|]. intros r s' (-> & x & W' & -> & Hok & Hm). destruct (mod_page _ a Hk) as [-> ->].
  do 2 wp_step. wp_step. eapply wp_deref; [exact Hr|]. wp_step. eapply wp_deref; [exact Hl|]. wp_step. split; [done|]. exists W'. intros a'. by eapply stored_nil.
Qed.

(** Changing one byte of a frame. *)
Lemma poke_ok s W A pd f a b page :
  vm_ok s W A -> W !! pd = Some f -> present (f (pg_no a)) = true -> 0 <= a < PHYS_BASE ->
  ram s !! frame_of (f (pg_no a)) = Some page -> (Z.to_nat (a mod PGSIZE) < length page)%nat ->
  let s' := set_ram (<[frame_of (f (pg_no a)) := <[Z.to_nat (a mod PGSIZE) := b]> page]> (ram s)) s in
  vm_ok s' W A /\ forall pd' v, 0 <= v < PHYS_BASE -> mem_at s' W pd' v = if decide (pd' = pd /\ v = a) then Some b else mem_at s W pd' v.
Proof.
  intros H Hf Hp Ha Hr Hlt s'. split.
  - pose proof H as [H1 H2 H3 H4 H5 H6 H7 H8]. split; try done; [by destruct H2| |by eapply procs_ok_same; eauto].
    intros i fr Hi. destruct (H3 i fr Hi) as (G1 & bs & G2 & G3). split; [done|]. cbn [ram set_ram s'].
    destruct (decide (frame_of (f (pg_no a)) = frame_ptr fr)) as [E|E]; [|rewrite lookup_insert_ne by done; by exists bs].
    rewrite E, lookup_insert_eq. eexists. split; [done|]. rewrite length_insert. rewrite E in Hr. congruence.
  - intros pd' v Hv. unfold mem_at. destruct (W !! pd') as [f'|] eqn:Hf'; [|rewrite decide_False; [done|]; intros [-> _]; congruence].
    destruct (present (f' (pg_no v))) eqn:Hp'; [|rewrite decide_False; [done|]; intros [-> ->]; congruence]. cbn [ram set_ram s'].
    destruct (decide (frame_of (f (pg_no a)) = frame_of (f' (pg_no v)))) as [E|E].
    + destruct (vo_apart _ _ _ H pd f (pg_no a) pd' f' (pg_no v)) as [<- Epg]; try done; [by apply user_page_no..|].
      rewrite Hf in Hf'. injection Hf' as <-. rewrite <- Epg, lookup_insert_eq, Hr. cbn [mbind option_bind].
      rewrite !pg_no_div in Epg. pose proof (Z.div_mod a PGSIZE ltac:(done)). pose proof (Z.div_mod v PGSIZE ltac:(done)).
      pose proof (Z.mod_pos_bound a PGSIZE ltac:(done)). pose proof (Z.mod_pos_bound v PGSIZE ltac:(done)).
      case_decide as Hd; [destruct Hd as [_ ->]; by rewrite list_lookup_insert_eq|].
      rewrite list_lookup_insert_ne; [done|]. intros E2. apply Hd. split; [done|]. lia.
    + rewrite lookup_insert_ne by done. rewrite decide_False; [done|]. intros [-> ->]. congruence.
Qed.

Lemma cpu_store_ok s W A t kesp a b b0 :
  vm_ok s W A -> procs s !! running s = Some t -> 0 <= a < PHYS_BASE -> mem_at s W (pagedir t) a = Some b0 -> may_write W (pagedir t) a ->
  wp (cpu_store kesp a b) (fun r s' => r = Some tt /\ exists W', stored s s' W W' A (pagedir t) a [b]) s.
Proof.
  intros H Ht Ha Hb (f2 & Hf2 & Hw). destruct (mem_at_word _ _ _ _ _ _ H Ha Hb) as (f & page & Hf & Hp & Hr & Hl & Hk).
  rewrite Hf in Hf2. injection Hf2 as <-. unfold cpu_store. wp_step.
  eapply wp_mono; [by eapply (access_ok s W A t f)|]. intros r s' (-> & x & W' & -> & Hok & Hm). destruct (mod_page _ a Hk) as [-> ->].
  do 2 wp_step. wp_step. eapply wp_deref; [exact Hr|]. do 3 wp_step. split; [done|]. exists W'.
  pose proof (Hm (pagedir t)) as Hmt. rewrite Hf in Hmt. inversion Hmt as [? f' Hs E Ef|]. destruct (Hs (pg_no a)) as (E1 & E2 & _). symmetry in Ef.
  apply lookup_lt_Some in Hl. rewrite <- E2 in Hr |- *. destruct (poke_ok (set_pgs x s) W' A (pagedir t) f' a b page) as [G1 G2]; [done..|congruence|done|done|done|].
  split; [by eexists _, _|done|done|]. intros pd' v Hv. cbn [ram set_pgs] in G2. rewrite G2 by done. rewrite (mem_at_same s _ W W') by done.
  change (alen [b]) with 1. case_decide as Hd; [|by rewrite decide_False by lia]. destruct Hd as [-> ->].
  rewrite decide_True by (split; [done|lia]). by rewrite Z.sub_diag.
Qed.

(** The process has the bytes [l] at [a]. *)
Definition has_bytes s (W : gmap Z (Z -> Z)) (pd a : Z) (l : list Z) : Prop :=
  0 <= a /\ a + alen l <= PHYS_BASE /\ forall i, 0 <= i < alen l -> mem_at s W pd (a + i) = l !! Z.to_nat i.

(** It may write [n] bytes at [a]. *)
Definition has_room s (W : gmap Z (Z -> Z)) (pd a n : Z) : Prop :=
  0 <= a /\ a + n <= PHYS_BASE /\ forall i, 0 <= i < n -> is_Some (mem_at s W pd (a + i)) /\ may_write W pd (a + i).

Lemma stored_procs s s' W W' A pd a l : stored s s' W W' A pd a l -> procs s' = procs s /\ running s' = running s /\ fsy s' = fsy s.
Proof. by intros [(x & m & ->) _ _ _]. Qed.

Lemma stored_nil_bytes s s' W W' A pd a pd' a' l : stored s s' W W' A pd a [] -> has_bytes s W pd' a' l -> has_bytes s' W' pd' a' l.
Proof.
  intros H (H1 & H2 & H3). split_and!; try done. intros i Hi. rewrite (so_mem _ _ _ _ _ _ _ _ H) by lia.
  rewrite decide_False by (change (alen []) with 0; lia). by apply H3.
Qed.

Lemma stored_nil_room s s' W W' A pd a pd' a' n : stored s s' W W' A pd a [] -> has_room s W pd' a' n -> has_room s' W' pd' a' n.
Proof.
  intros H (H1 & H2 & H3). split_and!; try done. intros i Hi. rewrite (so_mem _ _ _ _ _ _ _ _ H) by lia.
  rewrite decide_False by (change (alen []) with 0; lia). destruct (H3 i Hi) as [H4 H5]. split; [done|]. eapply may_write_same; [apply H|done].
Qed.

Lemma has_bytes_tail s W pd a b l : has_bytes s W pd a (b :: l) -> 0 <= a < PHYS_BASE /\ mem_at s W pd a = Some b /\ has_bytes s W pd (a + 1) l.
Proof.
  intros (H1 & H2 & H3). rewrite alen_cons in *. pose proof (alen_nonneg l). split; [lia|]. split.
  - specialize (H3 0 ltac:(lia)). by rewrite Z.add_0_r in H3.
  - split_and!; [lia..|]. intros i Hi. specialize (H3 (i + 1) ltac:(lia)). rewrite <- Z.add_assoc, (Z.add_comm 1), H3.
    by replace (Z.to_nat (i + 1)) with (S (Z.to_nat i)) by lia.
Qed.

Lemma load_bytes_ok kesp l : forall s W A t a,
  vm_ok s W A -> procs s !! running s = Some t -> has_bytes s W (pagedir t) a l ->
  wp (load_bytes kesp a (length l)) (fun r s' => r = Some l /\ exists W', forall a', stored s s' W W' A (pagedir t) a' []) s.
Proof.
  induction l as [|b l IH]; intros s W A t a H Ht Hl; cbn [length load_bytes].
  - wp_step. split; [done|]. exists W. intros a'. eapply (stored_nil s s W W A (pgs s)); [by rewrite set_pgs_same|done|done].
  - destruct (has_bytes_tail _ _ _ _ _ _ Hl) as (Ha & Hb & Hr). wp_step. eapply wp_mono; [by eapply cpu_load_ok|].
    intros r s1 (-> & W1 & H1). wp_step. destruct (stored_procs _ _ _ _ _ _ _ _ (H1 0)) as (Ep & Er & _).
    eapply wp_mono; [eapply (IH s1 W1 A t (a + 1)); [apply (H1 0)|by rewrite Ep, Er|eapply stored_nil_bytes; [apply (H1 0)|done]]|].
    intros r s2 (-> & W2 & H2). wp_step. split; [done|]. exists W2. intros a'. apply (stored_app s s1 s2 W W1 W2 A (pagedir t) a' [] [] (H1 a')). apply H2.
Qed.

Lemma store_bytes_ok kesp l : forall s W A t a,
  vm_ok s W A -> procs s !! running s = Some t -> has_room s W (pagedir t) a (alen l) ->
  wp (store_bytes kesp a l) (fun r s' => r = Some tt /\ exists W', stored s s' W W' A (pagedir t) a l) s.
Proof.
  induction l as [|b l IH]; intros s W A t a H Ht (H1 & H2 & H3); cbn [store_bytes].
  - wp_step. split; [done|]. exists W. eapply (stored_nil s s W W A (pgs s)); [by rewrite set_pgs_same|done|done].
  - rewrite alen_cons in *. pose proof (alen_nonneg l). destruct (H3 0 ltac:(lia)) as [[b0 Hb0] Hw0]. rewrite Z.add_0_r in Hb0, Hw0.
    wp_step. eapply wp_mono; [eapply (cpu_store_ok s W A t kesp a b b0); (done || lia)|]. intros r s1 (-> & W1 & G). cbv iota.
    destruct (stored_procs _ _ _ _ _ _ _ _ G) as (Ep & Er & _).
    eapply wp_mono; [eapply (IH s1 W1 A t (a + 1)); [apply G|by rewrite Ep, Er|]|].
    + split_and!; [lia..|]. intros i Hi. rewrite (so_mem _ _ _ _ _ _ _ _ G) by lia. change (alen [b]) with 1. rewrite decide_False by lia.
      rewrite <- Z.add_assoc. destruct (H3 (1 + i) ltac:(lia)) as [H4 H5]. split; [done|]. eapply may_write_same; [apply G|done].
    + intros r s2 (-> & W2 & G2). split; [done|]. exists W2. by apply (stored_app s s1 s2 W W1 W2 A (pagedir t) a [b] l G).
Qed.
End memory.
