(* ===== verification/Syscall.v ===== *)
(** * System calls (src/userprog/syscall.c)

    [syscall_handler] takes the number and the arguments of a call from the
    user's stack, checks them, and calls the function for it, most of which use
    the file system between [sema_down] and [sema_up] of [filesys_sema].  The
    state is that of Vm, which has the file system, with the table of file
    descriptors, the semaphore, the keys that were typed and the screen.  A call
    may also not return: [exit] ends the process, [halt] the machine, and
    [sema_down] of a semaphore that is 0 blocks.

    User memory is accessed through UserMem.  A name is read at the beginning of
    the file system's function, of which only the first 15 characters matter, and
    the data of [read] and [write] moves between user memory and the file in one
    piece: a process that a page fault ends in between has read or written less
    in the code.  [process_execute], the wait for the child to load, and
    [process_wait] are parameters here; Args and Synch have them. *)

From S2P Require Import Prelude Vaddr Block Inode FreeMap Filesys Vm VmSpec UserMem.

Inductive ended := Exited (status : Z) | Halted | Blocked.

Record sys {P : Type} := Sys {
  vmm : vm P;
  file_descriptors : list Z;
  filesys_sema : Z;
  open_files : list (Z * Z);         (* of the running thread: fd, file *)
  pallocs : list bool;               (* outcomes of the next page allocations *)
  keys : list Z;
  screen : list Z
}.
Arguments sys : clear implicits.

Definition SYSCALL_ERROR : Z := -1.
Definition STDIN_FILENO : Z := 0.
Definition STDOUT_FILENO : Z := 1.
Definition MAX_FILES : Z := 128.

Abbreviation SYS_HALT := 0.
Abbreviation SYS_EXIT := 1.
Abbreviation SYS_EXEC := 2.
Abbreviation SYS_WAIT := 3.
Abbreviation SYS_CREATE := 4.
Abbreviation SYS_REMOVE := 5.
Abbreviation SYS_OPEN := 6.
Abbreviation SYS_FILESIZE := 7.
Abbreviation SYS_READ := 8.
Abbreviation SYS_WRITE := 9.
Abbreviation SYS_SEEK := 10.
Abbreviation SYS_TELL := 11.
Abbreviation SYS_CLOSE := 12.

(** A computation of the kernel for the process: it may end the process. *)
Definition X (P A : Type) : Type := M (sys P) (A + ended).
#[export] Instance X_ret {P} : MRet (X P) := fun A a s => Ok (inl a, s).
#[export] Instance X_bind {P} : MBind (X P) := fun A B f m s =>
  match m s with
  | Ok (inl a, s') => f a s'
  | Ok (inr e, s') => Ok (inr e, s')
  | Err e => Err e
  end.

Section syscalls.
Context {P : Type} `{!Paging P, !Mmu P}.
Abbreviation S_ := (sys P).
Abbreviation X := (X P).

Definition set_vm (v : vm P) (s : S_) : S_ := Sys P v (file_descriptors s) (filesys_sema s) (open_files s) (pallocs s) (keys s) (screen s).
Definition set_fds (l : list Z) (s : S_) : S_ := Sys P (vmm s) l (filesys_sema s) (open_files s) (pallocs s) (keys s) (screen s).
Definition set_sema (n : Z) (s : S_) : S_ := Sys P (vmm s) (file_descriptors s) n (open_files s) (pallocs s) (keys s) (screen s).
Definition set_open_files (l : list (Z * Z)) (s : S_) : S_ := Sys P (vmm s) (file_descriptors s) (filesys_sema s) l (pallocs s) (keys s) (screen s).
Definition set_pallocs (l : list bool) (s : S_) : S_ := Sys P (vmm s) (file_descriptors s) (filesys_sema s) (open_files s) l (keys s) (screen s).
Definition set_keys (l : list Z) (s : S_) : S_ := Sys P (vmm s) (file_descriptors s) (filesys_sema s) (open_files s) (pallocs s) l (screen s).
Definition set_screen (l : list Z) (s : S_) : S_ := Sys P (vmm s) (file_descriptors s) (filesys_sema s) (open_files s) (pallocs s) (keys s) l.

Definition lift {A} (m : M S_ A) : X A := fun s => match m s with Ok (a, s') => Ok (inl a, s') | Err e => Err e end.
Definition stop {A} (e : ended) : X A := fun s => Ok (inr e, s).
Definition on_vm {A} (m : M (vm P) A) : X A := fun s =>
  match m (vmm s) with Ok (a, v) => Ok (inl a, set_vm v s) | Err e => Err e end.
Definition on_file {A} (m : M fsys A) : X A := on_vm (on_fs m).

Definition exit {A} (status : Z) : X A := stop (Exited status).
Definition halt {A} : X A := stop Halted.

(** An access to user memory, in which a page fault may end the process. *)
Definition user {A} (m : M (vm P) (option A)) : X A :=
  r ← on_vm m; match r with Some a => mret a | None => exit SYSCALL_ERROR end.

(** What the kernel is given: the [esp] of faults in the kernel, what the stack
    held, and the functions for processes. *)
Variable kesp : Z.
Variable junk : list Z.
Variable process_execute : Z -> X Z.
Variable load_status : Z -> X Z.
Variable process_wait : Z -> X Z.

Definition sema_down : X unit := fun s =>
  if filesys_sema s =? 0 then Ok (inr Blocked, s) else Ok (inl tt, set_sema (u32 (filesys_sema s - 1)) s).
Definition sema_up : X unit := lift (modify (fun s => set_sema (u32 (filesys_sema s + 1)) s)).

Definition input_getc : X Z := fun s =>
  match keys s with [] => Ok (inr Blocked, s) | k :: l => Ok (inl k, set_keys l s) end.

(** [palloc_get_page]: whether there was a page. *)
Definition palloc_page : X bool := fun s =>
  match pallocs s with [] => Ok (inl true, s) | b :: l => Ok (inl b, set_pallocs l s) end.

Definition le_word (l : list Z) : Z := foldr (fun b n => u8 b + 256 * n) 0 l.
Definition word_bytes4 (n : Z) : list Z := [n mod 256; n / 256 mod 256; n / 65536 mod 256; n / 16777216 mod 256].
Definition load32 (a : Z) : X Z := l ← user (load_bytes kesp a 4); mret (le_word l).

(** The characters of a string, up to [n]. *)
Fixpoint load_name (n : nat) (a : Z) : X (list Z) :=
  match n with
  | O => mret []
  | S n =>
    b ← user (cpu_load kesp a);
    if b =? 0 then mret [] else l ← load_name n (a + 1); mret (b :: l)
  end.
Definition file_name (a : Z) : X (list Z) := load_name (Z.to_nat (NAME_MAX + 1)) a.

(** ** Helper functions *)
Definition is_paged (addr : Z) : X bool :=
  on_vm (t ← current; k ← on_pg (pg_get_page (pagedir t) addr); mret (negb (k =? 0))).

Definition is_user_and_mapped (addr : Z) : X bool :=
  if is_user_vaddr addr then is_paged addr else mret false.

Definition arg_error_check (esp arg_width : Z) : X unit :=
  if negb (is_user_vaddr (u32 (esp + 4 * arg_width))) then exit SYSCALL_ERROR else mret ().

Definition get_file_descriptor (file_ptr : Z) : X Z :=
  lift (loop (S (Z.to_nat MAX_FILES)) (fun i =>
    if i <? MAX_FILES then
      s ← get;
      p ← deref (file_descriptors s).[i];
      if p =? 0 then put (set_fds (file_descriptors s).[i <- file_ptr] s);; mret (inr (i + 2))
      else mret (inl (i + 1))
    else mret (inr 0)) 0).

Definition fd_to_file_ptr (fd : Z) : X Z :=
  if (fd <? 2) || (129 <? fd) then mret 0 else
  lift (s ← get; deref (file_descriptors s).[fd - 2]).

(** ** The system calls *)
Definition exec (cmd_line : Z) : X Z :=
  ok ← is_user_and_mapped cmd_line;
  if negb ok then mret SYSCALL_ERROR else
  pid ← process_execute cmd_line;
  exit_status ← load_status pid;
  mret (if exit_status =? SYSCALL_ERROR then SYSCALL_ERROR else pid).

Definition wait (pid : Z) : X Z := process_wait pid.

Definition create (file initial_size : Z) : X bool :=
  ok ← (if file =? 0 then mret false else is_paged file);
  if negb ok then exit SYSCALL_ERROR else
  sema_down;;
  name ← file_name file;
  created ← on_file (filesys_create name (s32 initial_size) junk);
  sema_up;;
  mret created.

(** [dir_remove] asserts that there is a name. *)
Definition remove (file : Z) : X bool :=
  sema_down;;
  lift (assert (negb (file =? 0)));;
  name ← file_name file;
  removed ← on_file (filesys_remove name junk);
  sema_up;;
  mret removed.

(** Without a page for it, storing to the [struct thread_file] is a fault at
    address 0, which ends the process. *)
Definition open (file : Z) : X Z :=
  sema_down;;
  none ← (if file =? 0 then mret true else b ← user (cpu_load kesp file); mret (b =? 0));
  if none : bool then sema_up;; mret SYSCALL_ERROR else
  name ← file_name file;
  opened_file ← on_file (filesys_open name junk);
  if opened_file =? 0 then sema_up;; mret SYSCALL_ERROR else
  page ← palloc_page;
  fd ← get_file_descriptor file;
  if negb page then exit SYSCALL_ERROR else
  s ← lift get;
  _ ← lift (deref (file_descriptors s).[fd - 2]);
  lift (put (set_open_files (open_files s ++ [(fd, opened_file)]) (set_fds (file_descriptors s).[fd - 2 <- opened_file] s)));;
  sema_up;;
  mret fd.

Definition filesize (fd : Z) : X Z :=
  sema_down;;
  if fd <? 2 then mret SYSCALL_ERROR else
  fp ← fd_to_file_ptr fd;
  if fp =? 0 then sema_up;; mret SYSCALL_ERROR else
  n ← on_file (file_length fp);
  sema_up;;
  mret n.

Fixpoint read_keys (n : nat) (buffer : Z) : X unit :=
  match n with
  | O => mret ()
  | S n => k ← input_getc; user (store_bytes kesp buffer (word_bytes4 k));; read_keys n (buffer + 4)
  end.

Definition read (fd buffer length : Z) : X Z :=
  if fd =? STDIN_FILENO then read_keys (Z.to_nat length) buffer;; mret (s32 length) else
  sema_down;;
  fp ← fd_to_file_ptr fd;
  if fp =? 0 then sema_up;; mret SYSCALL_ERROR else
  r ← on_file (file_read fp (replicate (Z.to_nat (s32 length)) 0) (s32 length));
  user (store_bytes kesp buffer (take (Z.to_nat (fst r)) (snd r)));;
  sema_up;;
  mret (fst r).

Definition write (fd buffer size : Z) : X Z :=
  if fd =? STDOUT_FILENO then
    l ← user (load_bytes kesp buffer (Z.to_nat size));
    lift (modify (fun s => set_screen (screen s ++ l) s));;
    mret (s32 size)
  else
    sema_down;;
    fp ← fd_to_file_ptr fd;
    if fp =? 0 then sema_up;; mret SYSCALL_ERROR else
    l ← user (load_bytes kesp buffer (Z.to_nat (s32 size)));
    written ← on_file (file_write fp l (s32 size));
    sema_up;;
    mret written.

Definition seek (fd position : Z) : X unit :=
  fp ← fd_to_file_ptr fd;
  if fp =? 0 then exit SYSCALL_ERROR else
  sema_down;;
  on_file (file_seek fp (s32 position));;
  sema_up.

Definition tell (fd : Z) : X Z :=
  fp ← fd_to_file_ptr fd;
  if fp =? 0 then exit SYSCALL_ERROR else
  sema_down;;
  n ← on_file (file_tell fp);
  sema_up;;
  mret n.

Definition close (fd : Z) : X unit :=
  fp ← fd_to_file_ptr fd;
  on_file (file_close fp).

(** ** The handler *)
Definition set_esp (e : Z) : X unit :=
  on_vm (s ← get; t ← current;
         put (set_procs (<[running s := Proc (pagedir t) (SP_table t) (executable t) e]> (procs s)) s)).

(** The result is the new value of [eax], when it is set. *)
Definition dispatch (esp syscall_id : Z) : X (option Z) :=
  let ret (n : Z) : X (option Z) := mret (Some (u32 n)) in
  if syscall_id =? SYS_HALT then halt
  else if syscall_id =? SYS_EXIT then
    arg_error_check esp 1;; exit_code ← load32 (esp + 4); exit (s32 exit_code)
  else if syscall_id =? SYS_EXEC then
    arg_error_check esp 1;; a ← load32 (esp + 4); r ← exec a; ret r
  else if syscall_id =? SYS_WAIT then
    arg_error_check esp 1;; a ← load32 (esp + 4); r ← wait (s32 a); ret r
  else if syscall_id =? SYS_CREATE then
    arg_error_check esp 2;; a ← load32 (esp + 4); n ← load32 (esp + 8); r ← create a n; ret (Z.b2z r)
  else if syscall_id =? SYS_REMOVE then
    arg_error_check esp 1;; a ← load32 (esp + 4); remove a;; mret None
  else if syscall_id =? SYS_OPEN then
    arg_error_check esp 1;; a ← load32 (esp + 4);
    ok ← is_paged a;
    if negb ok then exit SYSCALL_ERROR else r ← open a; ret r
  else if syscall_id =? SYS_FILESIZE then
    arg_error_check esp 1;; fd ← load32 (esp + 4); r ← filesize (s32 fd); ret r
  else if syscall_id =? SYS_READ then
    arg_error_check esp 3;; fd ← load32 (esp + 4);
    fp ← fd_to_file_ptr (s32 fd);
    if (s32 fd =? STDOUT_FILENO) || (fp =? 0) then exit SYSCALL_ERROR else
    buffer ← load32 (esp + 8);
    if (buffer =? 0) || negb (is_user_vaddr buffer) then exit SYSCALL_ERROR else
    n ← load32 (esp + 12);
    r ← read (s32 fd) buffer n; ret r
  else if syscall_id =? SYS_WRITE then
    arg_error_check esp 3;; fd ← load32 (esp + 4);
    cp ← load32 (esp + 8);
    ok ← is_user_and_mapped cp;
    if negb ok then exit SYSCALL_ERROR else
    char_count ← load32 (esp + 12);
    r ← write (s32 fd) cp char_count; ret r
  else if syscall_id =? SYS_SEEK then
    arg_error_check esp 2;; fd ← load32 (esp + 4); position ← load32 (esp + 8); seek (s32 fd) position;; mret None
  else if syscall_id =? SYS_TELL then
    arg_error_check esp 1;; fd ← load32 (esp + 4); r ← tell (s32 fd); ret r
  else if syscall_id =? SYS_CLOSE then arg_error_check esp 1;; mret None
  else mret None.

Definition syscall_handler (esp : Z) : X (option Z) :=
  set_esp esp;;
  valid_memory ← (if negb (is_user_vaddr esp) then mret false else if esp =? 0 then mret false else is_paged esp);
  if negb valid_memory then exit SYSCALL_ERROR else
  syscall_id ← load32 esp;
  eax ← dispatch esp (s32 syscall_id);
  set_esp 0;;
  mret eax.
End syscalls.
