(* ===== verification/SyscallSpec.v ===== *)
(** * What the system calls for files promise

    The specification of the calls on files: what a call does to the files, the
    table of descriptors and the memory of the calling process.  Theorems: each
    call implements it, and gives the semaphore of the file system back; with
    one exception, after which every such call blocks. *)

From S2P Require Import Prelude Khash Vaddr Palloc Block Inode FreeMap Filesys FsDir FsNames FsSpec FsTheorems Vm VmSpec VmTheorems UserMem Syscall.

Section spec.
Context {P : Type} `{!Paging P, !PagingLaws P, !Mmu P, !MmuLaws P}.
Abbreviation S_ := (sys P).
Abbreviation X := (X P).
Implicit Types s : S_.
Variable kesp : Z.
Variable junk : list Z.
Hypothesis Hjunk : length junk = ESZ.

(** ** Computations that may end the process *)
Definition xwp {A} (m : X A) (Q : A -> S_ -> Prop) (s : S_) : Prop :=
  wp (S := S_) m (fun r s' => match r with inl a => Q a s' | inr _ => False end) s.

Lemma xwp_bind {A B} (m : X A) (f : A -> X B) Q s : xwp m (fun a s' => xwp (f a) Q s') s -> xwp (mbind f m) Q s.
Proof. unfold xwp, wp, mbind, X_bind. by destruct (m s) as [[[a|e] s']|]. Qed.

Lemma xwp_unbind {A B} (m : X A) (f : A -> X B) Q s : xwp (mbind f m) Q s -> xwp m (fun a s' => xwp (f a) Q s') s.
Proof. unfold xwp, wp, mbind, X_bind. by destruct (m s) as [[[a|e] s']|]. Qed.

Lemma xwp_ret {A} (a : A) (Q : A -> S_ -> Prop) s : Q a s -> xwp (mret a) Q s.
Proof. exact id. Qed.

Lemma xwp_mono {A} (m : X A) (Q R : A -> S_ -> Prop) s : xwp m Q s -> (forall a s', Q a s' -> R a s') -> xwp m R s.
Proof. unfold xwp, wp. destruct (m s) as [[[a|e] s']|]; auto. Qed.

Lemma xwp_on_vm {A} (m : M (vm P) A) (Q : A -> S_ -> Prop) s : wp m (fun a v => Q a (set_vm v s)) (vmm s) -> xwp (on_vm m) Q s.
Proof. unfold xwp, wp, on_vm. by destruct (m (vmm s)) as [[a v]|]. Qed.

Lemma xwp_user {A} (m : M (vm P) (option A)) (Q : A -> S_ -> Prop) s :
  wp m (fun r v => exists a, r = Some a /\ Q a (set_vm v s)) (vmm s) -> xwp (user m) Q s.
Proof. intros H. unfold user. apply xwp_bind, xwp_on_vm. eapply wp_mono; [exact H|]. intros r v (a & -> & Ha). by apply xwp_ret. Qed.

Lemma xwp_lift {A} (m : M S_ A) (Q : A -> S_ -> Prop) s : wp m Q s -> xwp (lift m) Q s.
Proof. unfold xwp, wp, lift. by destruct (m s) as [[a s']|]. Qed.

Lemma xwp_down (Q : unit -> S_ -> Prop) s : 0 < filesys_sema s < 2 ^ 32 -> Q tt (set_sema (filesys_sema s - 1) s) -> xwp sema_down Q s.
Proof. intros H HQ. unfold xwp, wp, sema_down. rewrite (proj2 (Z.eqb_neq _ 0)) by lia. by rewrite wrap_small by lia. Qed.

Lemma xwp_up (Q : unit -> S_ -> Prop) s : 0 <= filesys_sema s < 2 ^ 32 - 1 -> Q tt (set_sema (filesys_sema s + 1) s) -> xwp sema_up Q s.
Proof. intros H HQ. apply xwp_lift, wp_modify. by rewrite wrap_small by lia. Qed.

(** ** The state the calls work on *)
(** [t] is the running process, [W] the words of the page directories, [A] the
    file system. *)
Record sys_ok (s : S_) (W : gmap Z (Z -> Z)) (A : afs) (t : proc) : Prop := {
  sk_vm : vm_ok (vmm s) W A;
  sk_running : procs (vmm s) !! running (vmm s) = Some t;
  sk_sema : 0 <= filesys_sema s < 2 ^ 32 - 1;
  sk_fds : alen (file_descriptors s) = MAX_FILES;
  sk_open : forall i fp, (file_descriptors s).[i] = Some fp -> fp <> 0 -> is_Some (opened A !! fp)
}.

Lemma vm_ok_fs (v : vm P) W A A' fs :
  vm_ok v W A -> represents fs A' -> (forall fp, is_Some (opened A !! fp) -> is_Some (opened A' !! fp)) -> vm_ok (set_fsy fs v) W A'.
Proof.
  intros [H1 H2 H3 H4 H5 H6 H7 H8] Hrep Hop. split; try done; [by destruct H2|]. eapply procs_ok_same; [exact H7|done..|eauto|done|done].
Qed.

(** An operation of the file system that closes nothing. *)
Lemma spec_keeps_open full o r A A' :
  spec_step full o r A A' -> (forall fp, o <> OClose fp) -> forall fp, is_Some (opened A !! fp) -> is_Some (opened A' !! fp).
Proof.
  intros H Hc fp Hfp. assert (forall m (k : Z) (x : ofile), is_Some (m !! fp) -> is_Some (<[k := x]> m !! fp)) as Hins
    by (intros m k x Hm; apply lookup_insert_is_Some'; by right).
  destruct o as [name size|name|name|fp0|fp0 size|fp0 bytes|fp0 pos|fp0|fp0|fp0|fp0], r as [|b|n|l]; simpl in H; try done.
  - destruct b; [by destruct H as (_ & _ & x & _ & ->)|by destruct H as [-> _]].
  - destruct (names A !! name); [destruct H as (_ & _ & ->); by apply Hins|by destruct H as [_ ->]].
  - by destruct H as (_ & _ & -> & _).
  - by destruct (Hc fp0).
  - destruct H as (f & c & _ & _ & _ & ->). by apply Hins.
  - destruct H as (f & c & _ & _ & _ & _ & ->). by apply Hins.
  - destruct H as (f & _ & ->). by apply Hins.
  - by destruct H as (f & _ & _ & ->).
  - by destruct H as (f & c & _ & _ & _ & ->).
  - destruct H as (f & _ & ->). by apply Hins.
  - destruct H as (f & _ & ->). by apply Hins.
Qed.

(** The operation [o] as a part [m] of the code whose result [g] turns into that
    of the specification. *)
Lemma on_file_ok {B} (m : M fsys B) (o : fs_op) (g : B -> fs_ret) s W A t (Q : B -> S_ -> Prop) :
  sys_ok s W A t -> fs_pre o A -> (run_fs junk o = x ← m; mret (g x)) -> (forall fp, o <> OClose fp) ->
  (forall x fs A', spec_step (is_full (fsy (vmm s))) o (g x) A A' -> sys_ok (set_vm (set_fsy fs (vmm s)) s) W A' t ->
     Q x (set_vm (set_fsy fs (vmm s)) s)) ->
  xwp (on_file m) Q s.
Proof.
  intros [H1 H2 H3 H4 H5] Hpre Er Hc HQ. unfold on_file. apply xwp_on_vm, on_fs_wp.
  pose proof (run_fs_ok (fsy (vmm s)) A o junk (vo_fs _ _ _ H1) Hpre Hjunk) as H. rewrite Er in H. apply (wp_bind_ret _ g) in H.
  eapply wp_mono; [exact H|]. intros x fs (A' & Hsp & Hrep). pose proof (spec_keeps_open _ _ _ _ _ Hsp Hc) as Hk.
  apply (HQ x fs A'); [done|]. split; try done; [by eapply vm_ok_fs|]. intros i fp Hi Hnz. by apply Hk, (H5 i).
Qed.

(** Taking and giving back the semaphore. *)
Lemma sys_ok_sema s W A t n : sys_ok s W A t -> 0 <= n < 2 ^ 32 - 1 -> sys_ok (set_sema n s) W A t.
Proof. intros [] Hn. by split. Qed.

(** Loading and storing in a call. *)
Lemma sys_ok_stored s v W W' A t a l : sys_ok s W A t -> stored (vmm s) v W W' A (pagedir t) a l -> sys_ok (set_vm v s) W' A t.
Proof.
  intros [H1 H2 H3 H4 H5] H. destruct (stored_procs _ _ _ _ _ _ _ _ H) as (Ep & Er & _). split; try done; [apply H|]. simpl. by rewrite Ep, Er.
Qed.

(** ** Descriptors *)
Lemma fd_to_file_ptr_ok s W A t fd (Q : Z -> S_ -> Prop) :
  sys_ok s W A t ->
  (forall fp, fp = (if decide (2 <= fd <= 129) then default 0 (file_descriptors s).[fd - 2] else 0) -> (fp <> 0 -> is_Some (opened A !! fp)) -> Q fp s) ->
  xwp (fd_to_file_ptr fd) Q s.
Proof.
  intros H HQ. unfold fd_to_file_ptr. destruct (decide (2 <= fd <= 129)) as [Hr|Hr].
  - rewrite (proj2 (Z.ltb_ge fd 2)), (proj2 (Z.ltb_ge 129 fd)) by lia. cbn [orb]. apply xwp_lift. do 2 wp_step.
    pose proof (sk_fds _ _ _ _ H) as Hl. unfold MAX_FILES in Hl.
    destruct (proj1 (aget_is_Some (file_descriptors s) (fd - 2)) ltac:(lia)) as [fp Hfp].
    eapply wp_deref; [exact Hfp|]. apply HQ; [by rewrite Hfp|]. intros Hnz. by apply (sk_open _ _ _ _ H (fd - 2)).
  - replace ((fd <? 2) || (129 <? fd)) with true by (symmetry; apply orb_true_iff; rewrite !Z.ltb_lt; lia). apply xwp_ret. by apply HQ.
Qed.

(** The first free slot of the table. *)
Definition first_free (l : list Z) (i : Z) : Prop := l.[i] = Some 0 /\ forall j, 0 <= j < i -> l.[j] <> Some 0.

Lemma get_file_descriptor_ok s p :
  alen (file_descriptors s) = MAX_FILES ->
  xwp (get_file_descriptor p) (fun fd s' =>
    (exists i, first_free (file_descriptors s) i /\ fd = i + 2 /\ s' = set_fds (file_descriptors s).[i <- p] s) \/
    (fd = 0 /\ s' = s /\ forall j, 0 <= j < MAX_FILES -> (file_descriptors s).[j] <> Some 0)) s.
Proof.
  intros Hl. apply xwp_lift.
  apply (wp_loop (fun n i s' => s' = s /\ 0 <= i <= MAX_FILES /\ n = Z.to_nat (MAX_FILES - i) /\ forall j, 0 <= j < i -> (file_descriptors s).[j] <> Some 0))
    with (n := Z.to_nat MAX_FILES); [| |lia].
  - intros n i s' (-> & Hi & -> & Hno). destruct (Z.ltb_spec i MAX_FILES) as [Hlt|Hge].
    + do 2 wp_step. destruct (proj1 (aget_is_Some (file_descriptors s) i) ltac:(lia)) as [q Hq]. wp_step. eapply wp_deref; [exact Hq|].
      destruct (Z.eqb_spec q 0) as [->|Hnz].
      * do 2 wp_step. wp_step. left. exists i. by split_and!.
      * wp_step. eexists. split; [|split; [done|]; split; [lia|]; split; [reflexivity|]]; [lia|].
        intros j Hj. destruct (decide (j = i)) as [->|]; [congruence|]. apply Hno. lia.
    + wp_step. right. assert (i = MAX_FILES) as -> by lia. done.
  - split; [done|]. split; [done|]. split; [done|]. intros j Hj. lia.
Qed.

(** ** Names *)
(** Memory was read, and nothing a process sees changed. *)
Definition quiet s s' (W W' : gmap Z (Z -> Z)) (A : afs) (t : proc) : Prop :=
  exists v, s' = set_vm v s /\ forall a, stored (vmm s) v W W' A (pagedir t) a [].

Lemma quiet_refl s W A t : sys_ok s W A t -> quiet s s W W A t.
Proof.
  intros H. exists (vmm s). split; [by destruct s|]. intros a. eapply (stored_nil _ _ W W A (pgs (vmm s))); [by rewrite set_pgs_same|apply H|done].
Qed.

Lemma quiet_trans s s1 s2 W W1 W2 A t : quiet s s1 W W1 A t -> quiet s1 s2 W1 W2 A t -> quiet s s2 W W2 A t.
Proof.
  intros (v1 & -> & H1) (v2 & -> & H2). exists v2. split; [done|]. intros a. apply (stored_app _ _ _ _ _ _ _ _ a [] [] (H1 a)), H2.
Qed.

Lemma quiet_ok s s' W W' A t : sys_ok s W A t -> quiet s s' W W' A t -> sys_ok s' W' A t.
Proof. intros H (v & -> & Hv). eapply sys_ok_stored; [done|apply (Hv 0)]. Qed.

Lemma quiet_bytes s s' W W' A t a l : quiet s s' W W' A t -> has_bytes (vmm s) W (pagedir t) a l -> has_bytes (vmm s') W' (pagedir t) a l.
Proof. intros (v & -> & Hv). apply stored_nil_bytes with (1 := Hv 0). Qed.

(** The name that the kernel reads at an address: all of it, or the first 15
    characters. *)
Definition user_name s (W : gmap Z (Z -> Z)) (t : proc) (a : Z) (n : nat) (nm : list Z) : Prop :=
  0 ∉ nm /\ ((length nm < n)%nat /\ has_bytes (vmm s) W (pagedir t) a (nm ++ [0]) \/ length nm = n /\ has_bytes (vmm s) W (pagedir t) a nm).

Lemma load_name_ok n : forall nm s W A t a,
  sys_ok s W A t -> user_name s W t a n nm -> xwp (load_name kesp n a) (fun r s' => r = nm /\ exists W', quiet s s' W W' A t) s.
Proof.
  induction n as [|n IH]; intros nm s W A t a H [Hz Hn]; cbn [load_name].
  - destruct Hn as [[Hn _]|[Hn _]]; [lia|]. apply nil_length_inv in Hn as ->. apply xwp_ret. split; [done|]. exists W. by apply quiet_refl.
  - apply xwp_bind, xwp_user. destruct nm as [|b nm].
    + destruct Hn as [[_ Hn]|[Hn _]]; [|done]. destruct (has_bytes_tail _ _ _ _ _ _ Hn) as (Ha & Hb & _).
      eapply wp_mono; [eapply cpu_load_ok; [apply H|apply H|done|done]|]. intros r v (-> & W' & Hv). exists 0. split; [done|].
      apply xwp_ret. split; [done|]. exists W', v. done.
    + assert (0 <= a < PHYS_BASE /\ mem_at (vmm s) W (pagedir t) a = Some b /\ user_name s W t (a + 1) n nm) as (Ha & Hb & Hr).
      { destruct Hn as [[Hlen Hn]|[Hlen Hn]]; destruct (has_bytes_tail _ _ _ _ _ _ Hn) as (Ha & Hb & Hr); (split; [done|]; split; [done|]);
          (split; [set_solver|]); simpl in Hlen; [left|right]; (split; [lia|done]). }
      eapply wp_mono; [eapply cpu_load_ok; [apply H|apply H|done|done]|]. intros r v (-> & W1 & Hv). exists b. split; [done|].
      rewrite (proj2 (Z.eqb_neq b 0)) by set_solver. assert (quiet s (set_vm v s) W W1 A t) as Hq by (by exists v).
      apply xwp_bind. eapply xwp_mono; [eapply (IH nm (set_vm v s) W1 A t (a + 1)); [by eapply quiet_ok|]|].
      * destruct Hr as [Hz' Hr]. split; [done|]. destruct Hr as [[H1 H2]|[H1 H2]]; [left|right]; (split; [done|by eapply (quiet_bytes s)]).
      * intros r s2 (-> & W2 & Hq2). apply xwp_ret. split; [done|]. exists W2. by eapply quiet_trans.
Qed.

(** A page that has a byte is paged. *)
Lemma is_paged_ok s W A t a b (Q : bool -> S_ -> Prop) :
  sys_ok s W A t -> 0 <= a < PHYS_BASE -> mem_at (vmm s) W (pagedir t) a = Some b -> Q true s -> xwp (is_paged a) Q s.
Proof.
  intros H Ha Hb HQ. destruct (mem_at_word _ _ _ _ _ _ (sk_vm _ _ _ _ H) Ha Hb) as (f & page & Hf & Hp & _).
  apply xwp_on_vm. wp_step. eapply wp_eq; [apply current_ok, H|]. wp_step. apply on_pg_wp.
  eapply wp_eq; [eapply pg_get_page_ok; [apply H|done|done]|]. wp_step. rewrite (translate_present (vmm s) W (pagedir t)) by (apply H || done || lia).
  rewrite Hp. cbn [negb]. rewrite set_pgs_same. by destruct s.
Qed.

(** ** The specification *)
Inductive call :=
  | CCreate (file initial_size : Z)
  | CRemove (file : Z)
  | COpen (file : Z)
  | CFilesize (fd : Z)
  | CRead (fd buffer length : Z)
  | CWrite (fd buffer size : Z)
  | CSeek (fd position : Z)
  | CTell (fd : Z).

Definition run_call (c : call) : X Z :=
  match c with
  | CCreate a n => b ← create kesp junk a n; mret (Z.b2z b)
  | CRemove a => b ← remove kesp junk a; mret (Z.b2z b)
  | COpen a => open kesp junk a
  | CFilesize fd => filesize fd
  | CRead fd b n => read kesp fd b n
  | CWrite fd b n => write kesp fd b n
  | CSeek fd p => seek fd p;; mret 0
  | CTell fd => tell fd
  end.

(** [fp] is the file of a descriptor. *)
Definition fd_file (fds : list Z) (fd fp : Z) : Prop := 2 <= fd <= 129 /\ fds.[fd - 2] = Some fp /\ fp <> 0.

(** [arg] is what the call reads from user memory, a name or data; [out] is what
    it stores there. *)
Definition call_spec (full : Z -> Prop) (fds : list Z) (A : afs) (c : call) (arg : list Z) (r : Z) (fds' : list Z) (A' : afs) (out : list Z) : Prop :=
  match c with
  | CCreate _ n => fds' = fds /\ out = [] /\ exists b, r = Z.b2z b /\ spec_step full (OCreate arg n) (RBool b) A A'
  | CRemove _ => fds' = fds /\ out = [] /\ exists b, r = Z.b2z b /\ spec_step full (ORemove arg) (RBool b) A A'
  | COpen _ =>
    out = [] /\
    if decide (arg = [] \/ names A !! arg = None) then r = SYSCALL_ERROR /\ fds' = fds /\ A' = A
    else exists i fp, first_free fds i /\ r = i + 2 /\ fds' = fds.[i <- fp] /\ spec_step full (OOpen arg) (RNum fp) A A'
  | CFilesize fd => fds' = fds /\ out = [] /\ exists fp, fd_file fds fd fp /\ spec_step full (OLength fp) (RNum r) A A'
  | CRead fd _ n => fds' = fds /\ r = alen out /\ exists fp, fd_file fds fd fp /\ spec_step full (ORead fp n) (RBytes out) A A'
  | CWrite fd _ _ => fds' = fds /\ out = [] /\ exists fp, fd_file fds fd fp /\ spec_step full (OWrite fp arg) (RNum r) A A'
  | CSeek fd p => fds' = fds /\ out = [] /\ exists fp, fd_file fds fd fp /\ spec_step full (OSeek fp p) RUnit A A'
  | CTell fd => fds' = fds /\ out = [] /\ exists fp, fd_file fds fd fp /\ spec_step full (OTell fp) (RNum r) A A'
  end.

(** What the process has to respect: names and buffers in memory that it has,
    open descriptors, and offsets that [off_t] can hold. *)
Definition name_arg s W t (a : Z) (arg : list Z) : Prop := a <> 0 /\ user_name s W t a (Z.to_nat (NAME_MAX + 1)) arg.

Definition room_for (A : afs) (fp n : Z) : Prop := forall o, opened A !! fp = Some o -> o_pos o + n < 2 ^ 31.

Definition call_pre s (W : gmap Z (Z -> Z)) (A : afs) (t : proc) (c : call) (arg : list Z) : Prop :=
  Z.of_nat (size (opened A)) < 2 ^ 31 - 16 /\ 0 < filesys_sema s /\
  match c with
  | CCreate a n => name_arg s W t a arg /\ 0 <= n < 2 ^ 31
  | CRemove a => name_arg s W t a arg
  | COpen a => name_arg s W t a arg /\ pallocs s = [] /\ exists i, (file_descriptors s).[i] = Some 0
  | CFilesize fd | CTell fd => exists fp, fd_file (file_descriptors s) fd fp
  | CRead fd b n => 0 <= n < 2 ^ 31 /\ has_room (vmm s) W (pagedir t) b n /\ exists fp, fd_file (file_descriptors s) fd fp /\ room_for A fp n
  | CWrite fd b n => n = alen arg /\ has_bytes (vmm s) W (pagedir t) b arg /\ n < 2 ^ 31 /\ exists fp, fd_file (file_descriptors s) fd fp /\ room_for A fp n
  | CSeek fd p => 0 <= p < 2 ^ 31 /\ exists fp, fd_file (file_descriptors s) fd fp
  end.

(** Where a call stores. *)
Definition buffer_of (c : call) : Z := match c with CRead _ b _ => b | _ => 0 end.

Record call_done s s' (W W' : gmap Z (Z -> Z)) (A A' : afs) (t : proc) (c : call) (arg : list Z) (r : Z) (out : list Z) : Prop := {
  cd_spec : call_spec (is_full (fsy (vmm s))) (file_descriptors s) A c arg r (file_descriptors s') A' out;
  cd_ok : sys_ok s' W' A' t;
  cd_map : same_map W W';
  cd_sema : filesys_sema s' = filesys_sema s;
  cd_memory : forall pd v, 0 <= v < PHYS_BASE -> mem_at (vmm s') W' pd v =
    if decide (pd = pagedir t /\ buffer_of c <= v < buffer_of c + alen out) then out !! Z.to_nat (v - buffer_of c) else mem_at (vmm s) W pd v
}.

(** ** The calls *)
Lemma user_name_byte s W t a n nm : user_name s W t a (S n) nm -> 0 <= a < PHYS_BASE /\ exists b, mem_at (vmm s) W (pagedir t) a = Some b.
Proof.
  intros [_ H]. assert (exists b l, has_bytes (vmm s) W (pagedir t) a (b :: l)) as (b & l & Hb).
  { destruct H as [[_ H]|[Hl H]]; [destruct nm; eauto|destruct nm; [done|eauto]]. }
  destruct (has_bytes_tail _ _ _ _ _ _ Hb) as (Ha & Hm & _). eauto.
Qed.

(** What stays the same in a part of a call that only reads memory. *)
Lemma quiet_same s s' W W' A t :
  quiet s s' W W' A t -> same_map W W' /\ file_descriptors s' = file_descriptors s /\ filesys_sema s' = filesys_sema s /\ pallocs s' = pallocs s /\
  fsy (vmm s') = fsy (vmm s) /\ forall pd v, 0 <= v < PHYS_BASE -> mem_at (vmm s') W' pd v = mem_at (vmm s) W pd v.
Proof.
  intros (v & -> & Hv). split_and!; try done; [apply (Hv 0)|apply (stored_procs _ _ _ _ _ _ _ _ (Hv 0))|].
  intros pd u Hu. cbn [vmm set_vm]. rewrite (so_mem _ _ _ _ _ _ _ _ (Hv 0)) by done. by rewrite decide_False by (change (alen []) with 0; lia).
Qed.

(** Reading the name between [sema_down] and the file system. *)
Lemma file_name_ok s W A t a nm n (Q : list Z -> S_ -> Prop) :
  sys_ok s W A t -> user_name s W t a (Z.to_nat (NAME_MAX + 1)) nm -> 0 <= n < 2 ^ 32 - 1 ->
  (forall s1 W1, quiet (set_sema n s) s1 W W1 A t -> sys_ok s1 W1 A t -> Q nm s1) -> xwp (file_name kesp a) Q (set_sema n s).
Proof.
  intros H Hn Hs HQ. pose proof (sys_ok_sema s W A t n H Hs) as H0.
  eapply xwp_mono; [by apply (load_name_ok _ nm (set_sema n s) W A t a)|]. intros r s1 (-> & W1 & Hq). apply (HQ s1 W1); [done|by eapply quiet_ok].
Qed.

(** A call that took and gave back the semaphore, read memory and changed the
    files. *)
Lemma call_done_files s s1 W W1 A A' t c arg r fs :
  0 < filesys_sema s -> quiet (set_sema (filesys_sema s - 1) s) s1 W W1 A t -> sys_ok (set_vm (set_fsy fs (vmm s1)) s1) W1 A' t ->
  sys_ok s W A t -> call_spec (is_full (fsy (vmm s))) (file_descriptors s) A c arg r (file_descriptors s) A' [] ->
  xwp sema_up (fun _ s' => call_done s s' W W1 A A' t c arg r []) (set_vm (set_fsy fs (vmm s1)) s1).
Proof.
  intros Hs Hq H1 H Hsp. destruct (quiet_same _ _ _ _ _ _ Hq) as (Hm & Ef & Es & _ & _ & Hmem). simpl in Ef, Es, Hmem. pose proof (sk_sema _ _ _ _ H) as Hb.
  apply xwp_up; simpl; rewrite Es; [lia|]. rewrite Z.sub_add. split; simpl; try done; [by rewrite Ef|destruct H1; by split|].
  intros pd v Hv. rewrite decide_False by (change (alen []) with 0; lia). by apply Hmem.
Qed.

Lemma create_done s W A t a n arg :
  sys_ok s W A t -> call_pre s W A t (CCreate a n) arg ->
  xwp (create kesp junk a n) (fun b s' => exists W' A', call_done s s' W W' A A' t (CCreate a n) arg (Z.b2z b) []) s.
Proof.
  intros H (Hfew & Hs & [Hnz Hnm] & Hn). pose proof (sk_sema _ _ _ _ H) as Hb. unfold create. rewrite (proj2 (Z.eqb_neq a 0)) by done.
  destruct (user_name_byte _ _ _ _ _ _ Hnm) as (Ha & b & Hab). apply xwp_bind. eapply is_paged_ok; [done..|]. cbn [negb].
  apply xwp_bind, xwp_down; [lia|]. apply xwp_bind. eapply file_name_ok; [done|done|lia|]. intros s1 W1 Hq H1.
  destruct (quiet_same _ _ _ _ _ _ Hq) as (_ & _ & _ & _ & Efs & _). simpl in Efs. rewrite swrap_small by lia.
  apply xwp_bind. eapply (on_file_ok _ (OCreate arg n) RBool s1 W1 A t); [done|split; [lia|]; split; [apply Hnm|lia]|done|done|].
  intros created fs A' Hsp Hok. rewrite Efs in Hsp. apply xwp_bind. eapply xwp_mono; [eapply (call_done_files s s1 W W1 A A' t (CCreate a n) arg (Z.b2z created) fs); try done; split; [done|]; split; [done|]; by exists created|].
  intros [] s' Hd. apply xwp_ret. eauto.
Qed.

Lemma remove_done s W A t a arg :
  sys_ok s W A t -> call_pre s W A t (CRemove a) arg ->
  xwp (remove kesp junk a) (fun b s' => exists W' A', call_done s s' W W' A A' t (CRemove a) arg (Z.b2z b) []) s.
Proof.
  intros H (Hfew & Hs & Hnz & Hnm). pose proof (sk_sema _ _ _ _ H) as Hb. unfold remove.
  apply xwp_bind, xwp_down; [lia|]. apply xwp_bind, xwp_lift, wp_assert; [by rewrite (proj2 (Z.eqb_neq a 0))|].
  apply xwp_bind. eapply file_name_ok; [done|done|lia|]. intros s1 W1 Hq H1.
  destruct (quiet_same _ _ _ _ _ _ Hq) as (_ & _ & _ & _ & Efs & _). simpl in Efs.
  apply xwp_bind. eapply (on_file_ok _ (ORemove arg) RBool s1 W1 A t); [done|split; [lia|apply Hnm]|done|done|].
  intros removed fs A' Hsp Hok. rewrite Efs in Hsp. apply xwp_bind.
  eapply xwp_mono; [eapply (call_done_files s s1 W W1 A A' t (CRemove a) arg (Z.b2z removed) fs); try done; split; [done|]; split; [done|]; by exists removed|].
  intros [] s' Hd. apply xwp_ret. eauto.
Qed.

(** A call on a descriptor, from [sema_down] on. *)
Lemma descriptor_done {B} s W A t c arg (m : M fsys B) o g fd fp (ret : B -> Z) :
  sys_ok s W A t -> 0 < filesys_sema s -> fs_pre o A -> (run_fs junk o = x ← m; mret (g x)) -> (forall fp, o <> OClose fp) ->
  fd_file (file_descriptors s) fd fp ->
  (forall x A', spec_step (is_full (fsy (vmm s))) o (g x) A A' -> call_spec (is_full (fsy (vmm s))) (file_descriptors s) A c arg (ret x) (file_descriptors s) A' []) ->
  xwp (x ← on_file m; sema_up;; mret (ret x)) (fun r s' => exists W' A', call_done s s' W W' A A' t c arg r []) (set_sema (filesys_sema s - 1) s).
Proof.
  intros H Hs Hpre Er Hc Hfd Hsp. pose proof (sk_sema _ _ _ _ H) as Hb. set (s1 := set_sema (filesys_sema s - 1) s).
  assert (sys_ok s1 W A t) as H1 by (apply sys_ok_sema; [done|lia]). apply xwp_bind.
  eapply (on_file_ok _ o g s1 W A t); try done. intros x fs A' Hx Hok. apply xwp_bind.
  eapply xwp_mono; [eapply (call_done_files s s1 W W A A' t c arg (ret x) fs); try done; [by apply quiet_refl|by apply Hsp]|].
  intros [] s' Hd. apply xwp_ret. eauto.
Qed.

(** The file of a descriptor that is open. *)
Lemma fd_ptr_ok s W A t fd fp (Q : Z -> S_ -> Prop) :
  sys_ok s W A t -> fd_file (file_descriptors s) fd fp -> (forall o, opened A !! fp = Some o -> Q fp s) -> xwp (fd_to_file_ptr fd) Q s.
Proof.
  intros H (Hr & Hfp & Hnz) HQ. eapply fd_to_file_ptr_ok; [done|]. intros fp' E Ho. rewrite decide_True, Hfp in E by done. simpl in E. subst fp'.
  destruct (Ho Hnz) as [o Ho']. by eapply HQ.
Qed.

Lemma filesize_done s W A t fd arg :
  sys_ok s W A t -> call_pre s W A t (CFilesize fd) arg ->
  xwp (filesize fd) (fun r s' => exists W' A', call_done s s' W W' A A' t (CFilesize fd) arg r []) s.
Proof.
  intros H (Hfew & Hs & fp & Hfd). pose proof (sk_sema _ _ _ _ H) as Hb. unfold filesize. apply xwp_bind, xwp_down; [lia|].
  rewrite (proj2 (Z.ltb_ge fd 2)) by (destruct Hfd; lia). apply xwp_bind. set (s1 := set_sema _ s).
  assert (sys_ok s1 W A t) as H1 by (apply sys_ok_sema; [done|lia]). eapply (fd_ptr_ok s1); [done|done|]. intros o Ho.
  rewrite (proj2 (Z.eqb_neq fp 0)) by apply Hfd.
  apply (descriptor_done s W A t (CFilesize fd) arg (file_length fp) (OLength fp) RNum fd fp (fun x => x) H Hs); [split; [lia|simpl; eauto]|done|done|done|].
  intros n A' Hsp. split; [done|]. split; [done|]. by exists fp.
Qed.

Lemma seek_done s W A t fd p arg :
  sys_ok s W A t -> call_pre s W A t (CSeek fd p) arg ->
  xwp (seek fd p;; mret 0) (fun r s' => exists W' A', call_done s s' W W' A A' t (CSeek fd p) arg r []) s.
Proof.
  intros H (Hfew & Hs & Hp & fp & Hfd). pose proof (sk_sema _ _ _ _ H) as Hb. unfold seek. do 2 apply xwp_bind.
  eapply (fd_ptr_ok s); [done|done|]. intros o Ho. rewrite (proj2 (Z.eqb_neq fp 0)) by apply Hfd. apply xwp_bind, xwp_down; [lia|].
  rewrite swrap_small by lia.
  apply xwp_bind. eapply xwp_mono.
  - eapply xwp_unbind, (descriptor_done s W A t (CSeek fd p) arg (file_seek fp p) (OSeek fp p) (fun _ => RUnit) fd fp (fun _ => 0) H Hs);
      [split; [lia|]; split; [eauto|lia]|done|done|done|]. intros n A' Hsp. split; [done|]. split; [done|]. by exists fp.
  - intros x s2 D. apply xwp_unbind in D. exact D.
Qed.

Lemma tell_done s W A t fd arg :
  sys_ok s W A t -> call_pre s W A t (CTell fd) arg ->
  xwp (tell fd) (fun r s' => exists W' A', call_done s s' W W' A A' t (CTell fd) arg r []) s.
Proof.
  intros H (Hfew & Hs & fp & Hfd). pose proof (sk_sema _ _ _ _ H) as Hb. unfold tell. apply xwp_bind.
  eapply (fd_ptr_ok s); [done|done|]. intros o Ho. rewrite (proj2 (Z.eqb_neq fp 0)) by apply Hfd. apply xwp_bind, xwp_down; [lia|].
  apply (descriptor_done s W A t (CTell fd) arg (file_tell fp) (OTell fp) RNum fd fp (fun x => x) H Hs); [split; [lia|simpl; eauto]|done|done|done|].
  intros n A' Hsp. split; [done|]. split; [done|]. by exists fp.
Qed.

Lemma write_done s W A t fd b n arg :
  sys_ok s W A t -> call_pre s W A t (CWrite fd b n) arg ->
  xwp (write kesp fd b n) (fun r s' => exists W' A', call_done s s' W W' A A' t (CWrite fd b n) arg r []) s.
Proof.
  intros H (Hfew & Hs & -> & Hbytes & Hn & fp & Hfd & Hroom). pose proof (sk_sema _ _ _ _ H) as Hb. pose proof (alen_nonneg arg) as Ha. unfold write.
  rewrite (proj2 (Z.eqb_neq fd STDOUT_FILENO)) by (destruct Hfd; unfold STDOUT_FILENO; lia). apply xwp_bind, xwp_down; [lia|]. set (s0 := set_sema _ s).
  assert (sys_ok s0 W A t) as H0 by (apply sys_ok_sema; [done|lia]). apply xwp_bind. eapply (fd_ptr_ok s0); [done|done|]. intros o Ho.
  rewrite (proj2 (Z.eqb_neq fp 0)) by apply Hfd. rewrite swrap_small by lia. replace (Z.to_nat (alen arg)) with (length arg) by (unfold alen; lia).
  apply xwp_bind, xwp_user. eapply wp_mono; [eapply load_bytes_ok; [apply H0|apply H0|exact Hbytes]|]. intros r v (-> & W1 & Hv). exists arg. split; [done|].
  set (s1 := set_vm v s0). assert (quiet s0 s1 W W1 A t) as Hq by (by exists v). assert (sys_ok s1 W1 A t) as H1 by (by eapply quiet_ok).
  destruct (quiet_same _ _ _ _ _ _ Hq) as (_ & _ & _ & _ & Efs & _). simpl in Efs.
  apply xwp_bind. eapply (on_file_ok (file_write fp arg (alen arg)) (OWrite fp arg) RNum s1 W1 A t); [done|split; [lia|]; exists o; split; [done|by apply Hroom]|done|done|].
  intros x fs A' Hsp Hok. apply xwp_bind. change (fsy (vmm s1)) with (fsy v) in Hsp. rewrite Efs in Hsp.
  eapply xwp_mono; [eapply (call_done_files s s1 W W1 A A' t (CWrite fd b (alen arg)) arg x fs); try done; split; [done|]; split; [done|]; by exists fp|].
  intros [] s' Hd. apply xwp_ret. eauto.
Qed.

(** The file system's part of [read]. *)
Lemma read_file_done s W A t fp o n (Q : Z * list Z -> S_ -> Prop) :
  sys_ok s W A t -> opened A !! fp = Some o -> 0 <= n < 2 ^ 31 -> o_pos o + n < 2 ^ 31 ->
  (forall r fs A' out, spec_step (is_full (fsy (vmm s))) (ORead fp n) (RBytes out) A A' -> take (Z.to_nat (fst r)) (snd r) = out -> fst r = alen out ->
     alen out <= n -> sys_ok (set_vm (set_fsy fs (vmm s)) s) W A' t -> Q r (set_vm (set_fsy fs (vmm s)) s)) ->
  xwp (on_file (file_read fp (replicate (Z.to_nat n) 0) n)) Q s.
Proof.
  intros [H1 H2 H3 H4 H5] Ho Hn Hp HQ. pose proof (vo_fs _ _ _ H1) as Hrep. destruct (opened_store _ _ _ _ Hrep Ho) as [c Hc].
  pose proof (opened_pos _ _ _ _ Hrep Ho) as Hpos. apply xwp_on_vm, on_fs_wp.
  eapply wp_mono; [eapply file_read_ok; [done|done|done|unfold alen; rewrite length_replicate; lia|lia]|].
  intros r fs [-> Hrep']. pose proof (length_room c (o_pos o) n Hpos) as Hl. set (out := bytes_from c (o_pos o) (room_at c (o_pos o) n)) in *.
  assert (room_at c (o_pos o) n <= n) by (unfold room_at; lia).
  apply (HQ _ fs (set_opened A (<[fp := OFile (o_file o) (o_pos o + room_at c (o_pos o) n) (o_deny o)]> (opened A))) out); cbn [fst snd].
  - exists o, c. by rewrite Hl.
  - unfold splice. rewrite take_0, app_nil_l, take_app_length'; [done|]. unfold alen in Hl. lia.
  - done.
  - lia.
  - assert (forall q, is_Some (opened A !! q) -> is_Some ((<[fp := OFile (o_file o) (o_pos o + room_at c (o_pos o) n) (o_deny o)]> (opened A)) !! q)) as Hk
      by (intros q Hq; apply lookup_insert_is_Some'; by right).
    split; try done; [by eapply vm_ok_fs|]. intros i q Hi Hnz. by apply Hk, (H5 i).
Qed.

Lemma read_done s W A t fd b n arg :
  sys_ok s W A t -> call_pre s W A t (CRead fd b n) arg ->
  xwp (read kesp fd b n) (fun r s' => exists W' A' out, call_done s s' W W' A A' t (CRead fd b n) arg r out) s.
Proof.
  intros H (Hfew & Hs & Hn & (R1 & R2 & R3) & fp & Hfd & Hroom). pose proof (sk_sema _ _ _ _ H) as Hb. unfold read.
  rewrite (proj2 (Z.eqb_neq fd STDIN_FILENO)) by (destruct Hfd; unfold STDIN_FILENO; lia). apply xwp_bind, xwp_down; [lia|]. set (s0 := set_sema _ s).
  assert (sys_ok s0 W A t) as H0 by (apply sys_ok_sema; [done|lia]). apply xwp_bind. eapply (fd_ptr_ok s0); [done|done|]. intros o Ho.
  rewrite (proj2 (Z.eqb_neq fp 0)) by apply Hfd. rewrite swrap_small by lia.
  apply xwp_bind. eapply (read_file_done s0 W A t fp o n); [done|done|lia|by apply Hroom|]. intros r fs A' out Hsp -> Er Hle H1.
  set (s1 := set_vm _ s0) in *. apply xwp_bind, xwp_user. eapply wp_mono; [eapply (store_bytes_ok kesp out (vmm s1) W A' t b); [apply H1|apply H1|]|].
  - split_and!; [done|lia|]. intros i Hi. apply (R3 i). lia.
  - intros x v (-> & W1 & Hst). exists tt. split; [done|]. apply xwp_bind, xwp_up; [simpl; lia|]. apply xwp_ret. exists W1, A', out. rewrite Er.
    destruct (stored_procs _ _ _ _ _ _ _ _ Hst) as (Ep & Eru & _).
    split; simpl; [split; [done|]; split; [done|]; by exists fp| |apply Hst|lia|].
    + destruct (sys_ok_stored s1 v W W1 A' t b out H1 Hst) as [K1 K2 K3 K4 K5]. split; try done. simpl. lia.
    + intros pd u Hu. rewrite (so_mem _ _ _ _ _ _ _ _ Hst) by done. done.
Qed.

(** The table of descriptors after a file was opened. *)
Lemma open_slot_done s W A t file fp :
  sys_ok s W A t -> filesys_sema s < 2 ^ 32 - 2 -> pallocs s = [] -> (exists i, (file_descriptors s).[i] = Some 0) -> fp <> 0 -> is_Some (opened A !! fp) ->
  xwp (page ← palloc_page; fd ← get_file_descriptor file; if negb page then exit SYSCALL_ERROR else
       s ← lift get;
       _ ← lift (deref (file_descriptors s).[fd - 2]);
       lift (put (set_open_files (open_files s ++ [(fd, fp)]) (set_fds (file_descriptors s).[fd - 2 <- fp] s)));;
       sema_up;; mret fd)
    (fun fd s' => exists i, first_free (file_descriptors s) i /\ fd = i + 2 /\ file_descriptors s' = (file_descriptors s).[i <- fp] /\
       vmm s' = vmm s /\ filesys_sema s' = filesys_sema s + 1 /\ sys_ok s' W A t) s.
Proof.
  intros H Hs Hp [k Hk] Hfp Hop. pose proof (aget_lt _ _ _ Hk) as Hkl. rewrite (sk_fds _ _ _ _ H) in Hkl. apply xwp_bind. unfold xwp at 1, wp, palloc_page. rewrite Hp.
  apply xwp_bind. eapply xwp_mono; [apply get_file_descriptor_ok, H|]. intros fd s1 [(i & Hi & -> & ->)|(_ & _ & Hno)]; [|by destruct (Hno k)].
  pose proof (aget_lt _ _ _ (proj1 Hi)) as Hil. cbn [negb]. apply xwp_bind, xwp_lift, wp_get. cbn [file_descriptors set_fds].
  rewrite !Z.add_simpl_r. apply xwp_bind, xwp_lift. eapply wp_deref; [by apply aget_aset_eq|]. apply xwp_bind, xwp_lift, wp_put.
  pose proof (sk_sema _ _ _ _ H) as Hb. apply xwp_bind, xwp_up; [simpl; lia|]. apply xwp_ret. exists i. simpl.
  assert ((file_descriptors s).[i <- file].[i <- fp] = (file_descriptors s).[i <- fp]) as Ef by (unfold aset; case_match; [done|apply list_insert_insert_eq]).
  rewrite Ef. split_and!; try done. destruct H as [H1 H2 H3 H4 H5]. split; simpl; try done; [lia|by rewrite alen_aset|].
  intros j q Hj Hq. destruct (decide (i = j)) as [<-|Hne]; [rewrite aget_aset_eq in Hj by done; injection Hj as <-; done|].
  rewrite aget_aset_ne in Hj by done. by apply (H5 j).
Qed.

(** The byte that [open] looks at first. *)
Lemma first_byte s W A t a nm (Q : bool -> S_ -> Prop) :
  sys_ok s W A t -> a <> 0 -> user_name s W t a (Z.to_nat (NAME_MAX + 1)) nm ->
  (forall s1 W1, quiet s s1 W W1 A t -> Q (bool_decide (nm = [])) s1) ->
  xwp (if a =? 0 then mret true else b ← user (cpu_load kesp a); mret (b =? 0)) Q s.
Proof.
  intros H Ha Hn HQ. rewrite (proj2 (Z.eqb_neq a 0)) by done.
  assert (exists b l, has_bytes (vmm s) W (pagedir t) a (b :: l) /\ (b =? 0) = bool_decide (nm = [])) as (b & l & Hb & E).
  { destruct Hn as [Hz Hn]. destruct nm as [|b nm].
    - destruct Hn as [[_ Hn]|[Hn _]]; [|done]. exists 0, []. done.
    - assert ((b =? 0) = bool_decide (b :: nm = [])) as E by (apply Z.eqb_neq; set_solver). destruct Hn as [[_ Hn]|[_ Hn]]; eauto. }
  destruct (has_bytes_tail _ _ _ _ _ _ Hb) as (Hr & Hm & _). apply xwp_bind, xwp_user.
  eapply wp_mono; [eapply cpu_load_ok; [apply H|apply H|done|done]|]. intros r v (-> & W1 & Hv). exists b. split; [done|]. apply xwp_ret. rewrite E.
  apply (HQ _ W1). by exists v.
Qed.

Lemma quiet_name s s' W W' A t a n nm : quiet s s' W W' A t -> user_name s W t a n nm -> user_name s' W' t a n nm.
Proof. intros Hq [Hz Hn]. split; [done|]. destruct Hn as [[H1 H2]|[H1 H2]]; [left|right]; (split; [done|by eapply quiet_bytes]). Qed.

(** A call that fails before it changes anything. *)
Lemma call_failed s s1 W W1 A t c arg r :
  0 < filesys_sema s -> sys_ok s W A t -> quiet (set_sema (filesys_sema s - 1) s) s1 W W1 A t ->
  call_spec (is_full (fsy (vmm s))) (file_descriptors s) A c arg r (file_descriptors s) A [] ->
  xwp (sema_up;; mret r) (fun r s' => exists W' A', call_done s s' W W' A A' t c arg r []) s1.
Proof.
  intros Hs H Hq Hsp. pose proof (sk_sema _ _ _ _ H) as Hb. assert (sys_ok s1 W1 A t) as H1 by (eapply (quiet_ok (set_sema (filesys_sema s - 1) s)); [apply sys_ok_sema; [done|lia]|done]).
  apply xwp_bind. replace s1 with (set_vm (set_fsy (fsy (vmm s1)) (vmm s1)) s1) in H1 |- * by (destruct s1 as [[] ?]; done).
  eapply xwp_mono; [by eapply (call_done_files s s1 W W1 A A t c arg r (fsy (vmm s1)))|]. intros [] s' Hd. apply xwp_ret. eauto.
Qed.

Lemma open_done s W A t a arg :
  sys_ok s W A t -> call_pre s W A t (COpen a) arg ->
  xwp (open kesp junk a) (fun r s' => exists W' A', call_done s s' W W' A A' t (COpen a) arg r []) s.
Proof.
  intros H (Hfew & Hs & [Hnz Hnm] & Hp & Hfree). pose proof (sk_sema _ _ _ _ H) as Hb. unfold open.
  apply xwp_bind, xwp_down; [lia|]. set (s0 := set_sema _ s). assert (sys_ok s0 W A t) as H0 by (apply sys_ok_sema; [done|lia]).
  apply xwp_bind. eapply (first_byte s0 W A t a arg); [done..|]. intros s1 W1 Hq1.
  destruct (bool_decide_reflect (arg = [])) as [E|E].
  { eapply call_failed; [done|done|done|]. split; [done|]. by rewrite decide_True by tauto. }
  apply xwp_bind. eapply xwp_mono; [eapply (load_name_ok _ arg s1 W1 A t a); [by eapply quiet_ok|by eapply (quiet_name s0)]|].
  intros r s2 (-> & W2 & Hq2). pose proof (quiet_trans _ _ _ _ _ _ _ _ Hq1 Hq2) as Hq. pose proof (quiet_ok _ _ _ _ _ _ H0 Hq) as H2.
  destruct (quiet_same _ _ _ _ _ _ Hq) as (Hm & Ef & Es & Epl & Efs & Hmem). simpl in Ef, Es, Epl, Efs, Hmem.
  apply xwp_bind. eapply (on_file_ok (filesys_open arg junk) (OOpen arg) RNum s2 W2 A t); [done|split; [lia|apply Hnm]|done|done|].
  intros fp fs A' Hsp Hok. rewrite Efs in Hsp. pose proof Hsp as Hsp'. cbn [spec_step] in Hsp. destruct (names A !! arg) as [x|] eqn:Ex.
  - destruct Hsp as (Hfp & Hnew & ->). rewrite (proj2 (Z.eqb_neq fp 0)) by lia.
    eapply xwp_mono; [eapply open_slot_done; [exact Hok|simpl; lia|simpl; congruence|simpl; by rewrite Ef|lia|simpl; rewrite lookup_insert_eq; eauto]|].
    intros fd s' (i & Hi & -> & Ef' & Ev & Es' & Hok'). simpl in Hi, Ef', Ev, Es'. rewrite Ef in Hi, Ef'. exists W2. eexists. split; [|exact Hok'|done|lia|].
    + split; [done|]. rewrite decide_False by (rewrite Ex; naive_solver). exists i, fp. by split_and!.
    + intros pd v Hv. rewrite decide_False by (change (alen []) with 0; lia). rewrite Ev. by apply Hmem.
  - destruct Hsp as [-> ->]. cbn [Z.eqb]. apply xwp_bind.
    eapply xwp_mono; [eapply (call_done_files s s2 W W2 A A t (COpen a) arg SYSCALL_ERROR fs); try done|intros [] s' Hd; apply xwp_ret; eauto].
    split; [done|]. by rewrite decide_True by tauto.
Qed.

(** C1: the system calls on files do what they promise.  On a state in which
    memory, the file system and the table of descriptors are as they should be,
    a call whose name or buffer is in memory that the process has, and whose
    descriptor is open, returns, without ending the process and without a failed
    assertion.  The files change as the file system specifies, with the name or
    the data that the process has in memory; [open] gives the first free
    descriptor to the file; [read] stores the bytes of the file in the buffer of
    the calling process, and no other byte of any process changes; the semaphore
    of the file system has its value again. *)
Theorem file_calls_refine s W A t c arg :
  sys_ok s W A t -> call_pre s W A t c arg ->
  xwp (run_call c) (fun r s' => exists W' A' out, call_done s s' W W' A A' t c arg r out) s.
Proof.
  intros H Hpre. assert (forall (m : X Z), xwp m (fun r s' => exists W' A', call_done s s' W W' A A' t c arg r []) s ->
    xwp m (fun r s' => exists W' A' out, call_done s s' W W' A A' t c arg r out) s) as Hnil.
  { intros m Hm. eapply xwp_mono; [exact Hm|]. intros r s' (W' & A' & Hd). eauto. }
  destruct c; cbn [run_call]; [apply Hnil, xwp_bind; eapply xwp_mono; [by apply create_done|]|apply Hnil, xwp_bind; eapply xwp_mono; [by apply remove_done|]| | | | | |].
  1,2: intros b s' Hd; apply xwp_ret; exact Hd.
  - by apply Hnil, open_done.
  - by apply Hnil, filesize_done.
  - by apply read_done.
  - by apply Hnil, write_done.
  - by apply Hnil, seek_done.
  - by apply Hnil, tell_done.
Qed.
End spec.
