(* ===== verification/SyscallTheorems.v ===== *)
(** * Theorems about system calls

    What the semaphore of the file system is after a call, and what goes wrong:
    calls with which a process takes the semaphore for good, or stops the kernel.
    A small machine executes the calls. *)

From S2P Require Import Prelude Khash Bitmap Vaddr Palloc Pagedir Block Inode FreeMap Filesys FsDir FsNames FsSpec FsTheorems.
From S2P Require Import Vm VmSpec VmTheorems VmPaging Elf UserMem Syscall SyscallSpec.

Section sema.
Context {P : Type} `{!Paging P, !Mmu P}.
Abbreviation S_ := (sys P).
Abbreviation X := (X P).
Variable kesp : Z.
Variable junk : list Z.

(** When [m] starts with the semaphore at [a] and returns, it is at [b]. *)
Definition from_to {A} (a b : Z) (m : X A) : Prop :=
  forall s r s', filesys_sema s = a -> m s = Ok (inl r, s') -> filesys_sema s' = b.

Lemma from_to_bind {A B} a b c (m : X A) (f : A -> X B) : from_to a b m -> (forall x, from_to b c (f x)) -> from_to a c (mbind f m).
Proof.
  intros Hm Hf s r s' Hs. unfold mbind, X_bind. destruct (m s) as [[[x|e] s1]|] eqn:E; try done. intros H. eapply Hf; [|exact H]. by eapply Hm.
Qed.

Lemma from_to_ret {A} a (x : A) : from_to a a (mret x).
Proof. by intros s r s' Hs [= _ <-]. Qed.

Lemma from_to_stop {A} a b e : from_to (A := A) a b (stop e).
Proof. by intros s r s' _ [=]. Qed.

Lemma from_to_vm {A} a (m : M (vm P) A) : from_to a a (on_vm m).
Proof. intros s r s' Hs. unfold on_vm. destruct (m (vmm s)) as [[x v]|]; [|done]. by intros [= _ <-]. Qed.

Lemma from_to_lift {A} a (m : M S_ A) : (forall s x s', m s = Ok (x, s') -> filesys_sema s' = filesys_sema s) -> from_to a a (lift m).
Proof. intros H s r s' Hs. unfold lift. destruct (m s) as [[x s1]|] eqn:E; [|done]. intros [= _ <-]. rewrite <- Hs. by eapply H. Qed.

Lemma from_to_assert a b : from_to a a (lift (assert b)).
Proof. apply from_to_lift. intros s x s'. unfold assert. destruct b; [by intros [= _ <-]|done]. Qed.

Lemma from_to_modify a f : (forall s, filesys_sema (f s) = filesys_sema s) -> from_to a a (lift (modify f)).
Proof. intros H. apply from_to_lift. intros s x s' [= _ <-]. apply H. Qed.

Lemma from_to_down n : 0 <= n < 2 ^ 32 -> from_to n (n - 1) sema_down.
Proof.
  intros Hn s r s' Hs. unfold sema_down. destruct (Z.eqb_spec (filesys_sema s) 0); [done|]. intros [= _ <-]. simpl. rewrite wrap_small; lia.
Qed.

Lemma from_to_up n : 0 <= n - 1 < 2 ^ 32 - 1 -> from_to (n - 1) n sema_up.
Proof. intros Hn s r s' Hs [= _ <-]. simpl. rewrite wrap_small; lia. Qed.

Lemma from_to_user {A} a (m : M (vm P) (option A)) : from_to a a (user m).
Proof. eapply from_to_bind; [apply from_to_vm|]. intros [x|]; [apply from_to_ret|apply from_to_stop]. Qed.

Lemma from_to_name a n x : from_to a a (load_name kesp n x).
Proof.
  revert x. induction n as [|n IH]; intros x; [apply from_to_ret|]. eapply from_to_bind; [apply from_to_user|]. intros b.
  destruct (b =? 0); [apply from_to_ret|]. eapply from_to_bind; [apply IH|]. intros l. apply from_to_ret.
Qed.

Lemma from_to_fd a fd : from_to a a (fd_to_file_ptr fd).
Proof.
  unfold fd_to_file_ptr. destruct (_ || _); [apply from_to_ret|]. apply from_to_lift. intros s x s'. unfold mbind, M_bind, get, deref.
  destruct (aget _ _); by intros [= _ <-].
Qed.

Lemma from_to_keys a n b : from_to a a (read_keys kesp n b).
Proof.
  revert b. induction n as [|n IH]; intros b; [apply from_to_ret|]. eapply (from_to_bind a a).
  { intros s r s' Hs. unfold input_getc. destruct (keys s); [done|]. by intros [= _ <-]. }
  intros k. eapply from_to_bind; [apply from_to_user|]. intros _. apply IH.
Qed.

Lemma loop_sema {A B} (step : A -> M S_ (A + B)) n : (forall x s r s', step x s = Ok (r, s') -> filesys_sema s' = filesys_sema s) ->
  forall x s r s', loop n step x s = Ok (r, s') -> filesys_sema s' = filesys_sema s.
Proof.
  intros Hst. induction n as [|n IH]; intros x s r s'; [done|]. cbn [loop]. unfold mbind, M_bind. destruct (step x s) as [[[y|y] s1]|] eqn:E; [| |done].
  - intros H. rewrite (IH _ _ _ _ H). by eapply Hst.
  - intros [= _ <-]. by eapply Hst.
Qed.

Lemma from_to_slot a p : from_to a a (get_file_descriptor p).
Proof.
  apply from_to_lift, loop_sema. intros i s r s'. destruct (i <? MAX_FILES); [|by intros [= _ <-]]. unfold mbind, M_bind, get, deref, put.
  destruct (aget _ _) as [q|]; [|done]. cbn. destruct (q =? 0); by intros [= _ <-].
Qed.

Create HintDb sema.
#[local] Hint Resolve from_to_ret from_to_stop from_to_assert from_to_modify from_to_vm from_to_user from_to_name from_to_fd from_to_keys from_to_slot : sema.
#[local] Hint Extern 2 (from_to _ _ (exit _)) => apply from_to_stop : sema.
#[local] Hint Extern 2 (from_to _ _ (on_file _)) => apply from_to_vm : sema.
#[local] Hint Extern 2 (from_to _ _ (is_paged _)) => apply from_to_vm : sema.
#[local] Hint Extern 2 (from_to _ _ (file_name _ _)) => apply from_to_name : sema.

(** Steps that leave the semaphore alone. *)
Ltac neutral := eapply from_to_bind; [solve [auto with sema]|intros ?].

Lemma open_from_to n a : 0 < n < 2 ^ 32 -> from_to n n (open kesp junk a).
Proof.
  intros Hn. unfold open. eapply from_to_bind; [apply from_to_down; lia|]. intros _.
  eapply from_to_bind; [destruct (a =? 0); [auto with sema|neutral; auto with sema]|]. intros none.
  destruct none; [eapply from_to_bind; [apply from_to_up; lia|auto with sema]|]. do 2 neutral.
  match goal with |- context [?e =? 0] => destruct (e =? 0) end; [eapply from_to_bind; [apply from_to_up; lia|auto with sema]|].
  eapply (from_to_bind (n - 1) (n - 1)). { intros s r s' Hs. unfold palloc_page. destruct (pallocs s); by intros [= _ <-]. }
  intros page. neutral. destruct page; cbn [negb]; [|auto with sema].
  intros s r s' Hs. unfold mbind, X_bind, lift, get, deref, put. cbn. destruct (aget _ _); [|done]. cbn. intros [= _ <-]. simpl. rewrite wrap_small; lia.
Qed.

Lemma up_ret n {A} (x : A) : 0 < n < 2 ^ 32 -> from_to (n - 1) n (sema_up;; mret x).
Proof. intros Hn. eapply from_to_bind; [apply from_to_up; lia|]. intros _. apply from_to_ret. Qed.

(** Through the code of a call, step by step. *)
Ltac walk := repeat first
  [ solve [auto with sema]
  | apply up_ret; lia
  | apply from_to_up; lia
  | eapply from_to_bind; [solve [auto with sema | apply from_to_down; lia | apply from_to_up; lia]|intros ?]
  | match goal with |- from_to _ _ (if ?b then _ else _) => destruct b end ].


(** With the semaphore at 0, [m] does not return. *)
Definition stuck {A} (m : X A) : Prop := forall s r s', filesys_sema s = 0 -> m s <> Ok (inl r, s').

Lemma stuck_bind {A B} (m : X A) (f : A -> X B) : stuck m -> stuck (mbind f m).
Proof. intros H s r s' Hs. unfold mbind, X_bind. destruct (m s) as [[[x|e] s1]|] eqn:E; [|done..]. by destruct (H s x s1). Qed.

Lemma stuck_after {A B} (m : X A) (f : A -> X B) : from_to 0 0 m -> (forall x, stuck (f x)) -> stuck (mbind f m).
Proof.
  intros Hm Hf s r s' Hs. unfold mbind, X_bind. destruct (m s) as [[[x|e] s1]|] eqn:E; [|done..]. apply Hf. by eapply Hm.
Qed.

Lemma stuck_down : stuck sema_down.
Proof. intros s r s' Hs. unfold sema_down. by rewrite Hs. Qed.

Lemma stuck_exit {A} e : stuck (A := A) (exit e).
Proof. done. Qed.

(** A call that does not need the file system. *)
Definition console_call (c : call) : Prop :=
  match c with CRead fd _ _ => fd = STDIN_FILENO | CWrite fd _ _ => fd = STDOUT_FILENO | _ => False end.

Lemma call_stuck c : ~ console_call c -> stuck (run_call kesp junk c).
Proof.
  intros Hc. destruct c as [file n|file|file|fd|fd b n|fd b n|fd p|fd]; cbn [run_call]; simpl in Hc.
  - apply stuck_bind. unfold create. apply stuck_after; [destruct (file =? 0); auto with sema|]. intros ok. destruct (negb ok); [apply stuck_exit|]. apply stuck_bind, stuck_down.
  - do 2 apply stuck_bind. apply stuck_down.
  - apply stuck_bind, stuck_down.
  - apply stuck_bind, stuck_down.
  - unfold read. rewrite (proj2 (Z.eqb_neq _ _)) by done. apply stuck_bind, stuck_down.
  - unfold write. rewrite (proj2 (Z.eqb_neq _ _)) by done. apply stuck_bind, stuck_down.
  - apply stuck_bind. unfold seek. apply stuck_after; [auto with sema|]. intros fp. destruct (fp =? 0); [apply stuck_exit|]. apply stuck_bind, stuck_down.
  - unfold tell. apply stuck_after; [auto with sema|]. intros fp. destruct (fp =? 0); [apply stuck_exit|]. apply stuck_bind, stuck_down.
Qed.

(** C1: [filesize] of the console takes the semaphore for good.  The call
    returns -1 and keeps the semaphore, and from then on no system call of any
    process on files returns. *)
Theorem filesize_blocks_files s fd :
  filesys_sema s = 1 -> fd < 2 ->
  run_call kesp junk (CFilesize fd) s = Ok (inl SYSCALL_ERROR, set_sema 0 s) /\
  forall s' c r s'', filesys_sema s' = 0 -> ~ console_call c -> run_call kesp junk c s' <> Ok (inl r, s'').
Proof.
  intros Hs Hfd. split; [|intros s' c r s'' H0 Hc; by apply (call_stuck c)].
  cbn [run_call]. unfold filesize, mbind, X_bind, sema_down. rewrite Hs. cbn [Z.eqb]. by rewrite (proj2 (Z.ltb_lt fd 2)).
Qed.
End sema.

(** ** A process that makes system calls

    The process of Elf, with one page at 0x8048000 for its stack and the name of
    its file; the words of a call are at 0x8048100. *)
Definition call_page : list Z := splice (replicate (Z.to_nat PGSIZE) 0) 0x200 [97; 0].
Definition call_vm : vm pgstate := VM pgstate full_pg [Frame (demo_page 3) FT_FULL 0x8048000] 1 0 ∅ 1 []
  [Swap 0 0] 1 demo_swap {[demo_page 3 := call_page]} elf_fs {[1 := elf_proc]} 1.
Definition call_sys : sys pgstate := Sys pgstate call_vm (replicate (Z.to_nat MAX_FILES) 0) 1 [] [] [] [].

Definition no_process (pid : Z) : X pgstate Z := mret SYSCALL_ERROR.
Definition syscall (words : list Z) : X pgstate (option Z) :=
  on_vm (modify (fun v => set_ram (alter (fun page => splice page 0x100 (concat (map word_bytes4 words))) (demo_page 3) (ram v)) v));;
  syscall_handler 0xc0010000 stack_junk no_process no_process no_process 0x8048100.

(** How a run ends, and the semaphore then. *)
Definition result_of {A} (m : X pgstate A) : result ((A + ended) * Z) :=
  match m call_sys with Ok (r, s) => Ok (r, filesys_sema s) | Err e => Err e end.

(** The process reads its own file: [open] returns 2, [read] 16 bytes, and they
    are in memory. *)
Example process_reads_file :
  result_of (r ← syscall [SYS_OPEN; 0x8048200]; n ← syscall [SYS_READ; 2; 0x8048300; 16];
             l ← user (load_bytes 0 0x8048300 16); mret (r, n, l)) =
  Ok (inl (Some 2, Some 16, take 16 elf_bytes), 1).
Proof. vm_compute. reflexivity. Qed.



(** ** The theorems at this machine *)
#[local] Opaque elf_boot.

Lemma call_vm_ok A : represents elf_fs A -> is_Some (opened A !! elf_fp) -> vm_ok call_vm full_W A.
Proof.
  intros Hrep Hexe.
  assert (forall i fr, (frame_table call_vm).[i] = Some fr -> i = 0 /\ fr = Frame (demo_page 3) FT_FULL 0x8048000) as Hone by apply full_frames.
  assert (forall pd g v, full_W !! pd = Some g -> present (g v) = true -> pd = demo_page 1 /\ g = full_f /\ v = 0x8048) as Hpg.
  { unfold full_W. intros pd g v [<- <-]%lookup_singleton_Some. unfold full_f. destruct (Z.eqb_spec v 0x8048); [by subst|done]. }
  split.
  - exact full_view.
  - split; [reflexivity|simpl; lia].
  - intros i fr [_ ->]%Hone. split; [split; [by apply demo_kpage|by vm_compute]|]. eexists. split; [apply lookup_singleton_eq|]. by vm_compute.
  - intros i j fr fr' [-> _]%Hone [-> _]%Hone _. done.
  - intros pd g v Hg _ Hp. destruct (Hpg _ _ _ Hg Hp) as (_ & -> & ->). exists 0. eexists. split; [reflexivity|]. by vm_compute.
  - intros pd g v pd' g' v' Hg Hg' _ _ Hp Hp' _. destruct (Hpg _ _ _ Hg Hp) as (-> & _ & ->), (Hpg _ _ _ Hg' Hp') as (-> & _ & ->). done.
  - split; [simpl; rewrite lookup_singleton_eq; by eexists| |done|done]. simpl. intros tid t [_ <-]%lookup_singleton_Some. by split.
  - done.
Qed.

Lemma file_calls_refine_witness :
  xwp (run_call 0 stack_junk (COpen 0x8048200)) (fun r s' => r = 2 /\ filesys_sema s' = 1 /\ exists fp, (file_descriptors s').[0] = Some fp /\ 0 < fp) call_sys.
Proof.
  destruct elf_fs_ok as (A & x & Hrep & Hx & Hc & Ho). eapply xwp_mono.
  - apply (file_calls_refine 0 stack_junk eq_refl call_sys full_W A elf_proc (COpen 0x8048200) [97]).
    + split; [apply call_vm_ok; [done|rewrite Ho, lookup_singleton_eq; by eexists]|apply lookup_singleton_eq|done|reflexivity|].
      intros i fp Hi Hfp. apply aget_Some in Hi as [_ Hi]. cbn [file_descriptors call_sys] in Hi. apply lookup_replicate in Hi as [-> _]. done.
    + split; [rewrite Ho, map_size_singleton; done|]. split; [done|]. split; [|split; [done|by exists 0]]. split; [done|]. split; [set_solver|].
      left. split; [change (Z.to_nat (NAME_MAX + 1)) with 15%nat; simpl; lia|]. split_and!; [done|by vm_compute|]. intros i Hi. change (alen ([97] ++ [0])) with 2 in Hi.
      assert (i = 0 \/ i = 1) as [->| ->] by lia; by vm_compute.
  - intros r s' (W' & A' & out & [[_ Hsp] _ _ Hs _]). rewrite decide_False in Hsp by (rewrite Hx; naive_solver).
    destruct Hsp as (i & fp & [Hi Hmin] & -> & -> & Hop). simpl in Hop. rewrite Hx in Hop. pose proof (aget_lt _ _ _ Hi) as Hil.
    assert (i = 0) as -> by (destruct (decide (i = 0)); [done|]; by destruct (Hmin 0 ltac:(lia))).
    split; [done|]. split; [exact Hs|]. exists fp. split; [by apply aget_aset_eq|]. by destruct Hop.
Defined.


Lemma filesize_blocks_files_witness :
  run_call 0 stack_junk (CFilesize 1) call_sys = Ok (inl (-1), set_sema 0 call_sys) /\
  forall c r s', ~ console_call c -> run_call 0 stack_junk c (set_sema 0 call_sys) <> Ok (inl r, s').
Proof.
  destruct (filesize_blocks_files 0 stack_junk call_sys 1 eq_refl ltac:(lia)) as [H1 H2]. split; [exact H1|].
  intros c r s'. by apply (H2 (set_sema 0 call_sys)).
Defined.
